(* ===== verification/_CoqProject ===== *)
-Q . S2P
Prelude.v
Ring.v
TimeMeas.v
Kernel.v
ThreadQueues.v
Sys.v
VTimers.v
Sched.v
Sem.v
Mtx.v
Memory.v
Thd.v
Dynamic.v
System.v
Exec.v
DSP.v
Streams.v
Floats.v
Printf.v
MBox.v
Evt.v
Msg.v
Cond.v
IOQueues.v
UsbBase.v
Usb.v
Otg.v
Ep0.v
Control.v
Ep0Safe.v
Shell.v
ShellProps.v
ShellSession.v
ShellExamples.v
Nil.v
NilInv.v
NilTimer.v
NilExec.v
Serial.v
Checkers.v
Examples.v
MoreExamples.v
DSPExamples.v
StreamExamples.v
UsbExamples.v
NilExamples.v
Rtc.v
Mmcsd.v
Crc7.v
MmcSpi.v
MmcProps.v
MmcExamples.v
