(* ===== verification/Prelude.v ===== *)
(** * The DSP library of the Lanin board and its kernel

    A verification of the filter library and application of
    src/examples/DSP-Library and of the real-time kernel under
    src/ChibiOS/os/rt that the applications of this repository run on, with the
    formatted output, the serial driver, the USB device driver, the MMC/SD card
    driver and the date conversions of src/ChibiOS/os/hal and the command shell
    of src/ChibiOS/os/various, for the configuration of examples/DSP-Library/chconf.h: a tickless timer at
    10 kHz with a minimum delta of two ticks, no round robin, all subsystems
    enabled, and every check, assertion, trace and statistics option on, so a
    failed check halts the system.  The target is a 32-bit ARMv7-M.  The
    repository's second kernel, src/ChibiOS/os/nil, is modelled beside it, for
    every number of threads and both kinds of timer.

    ** The program and its model

    The kernel is one global structure [ch] plus objects of the application;
    kernel calls run to completion with interrupts masked, and a context switch
    leaves a call in the middle until its thread runs again.  The state is the
    record [kst] (Kernel.v): the scheduler's current thread and queues, the
    thread_t records, timers, statistics, debug counters, and one finite map
    per kind of kernel object.  A kernel function is a computation of the
    monad [M]: it returns ([Done]), halts on a failed check ([Halt], with the
    function's name), leaves the defined behaviour of C ([Fault]: a missing
    object, a signed overflow, a list that does not end), or reaches a context
    switch ([Switch s k]: the other threads run from [s], and [k] is what the
    call does when its thread is made current again).  Every function has the
    name it has in the C code and its guards, early returns and state changes
    in the same order.

    Machine integers are [Z] with the wrap-around written out ([u8], [u16],
    [u32]); signed counters fault on overflow.  A thread, a semaphore, ... is
    named by its address, a [positive].

    ** Files

    - Prelude.v: machine integers, lists.  Ring.v: circular buffers.
    - TimeMeas.v: chtm.c.
    - Kernel.v: data types of the headers, [kst], [M], chdebug.c, chstats.c.
    - ThreadQueues.v: the thread queues of chschd.h, once on the links of the
      nodes (Module PtrQueue) and once on lists (Module Queues).
    - Sys.v: queues in [M], critical sections and the switch (chsys.h).
    - VTimers.v: chvt.c, chvt.h.   Sched.v: chschd.c.   Sem.v: chsem.c, chbsem.h.
    - Mtx.v: chmtx.c.   Memory.v: chmemcore.c, chheap.c, chmempools.c.
    - Thd.v: chthreads.c.   Dynamic.v: chdynamic.c, chregistry.c, chThdWait.
    - System.v: chsys.c.   Exec.v: threads and interrupts running together,
      with the exit sequence of handlers of the port.
    - DSP.v: the FIR and IIR filters (DataFilter.cpp, FuntionsMath.cpp,
      Filter.cpp, FIR.cpp, IIR.cpp and the sample loop of main.cpp), whose
      arrays are blocks of the kernel heap; [float] is a class of operations
      with IEEE single precision and exact integers as instances.
    - MBox.v, Evt.v, Msg.v, Cond.v, IOQueues.v: chmboxes.c, chevents.c,
      chmsg.c, chcond.c, chqueues.c.
    - Streams.v: the stream interface as a class of monads with its laws, memory
      and null streams (memstreams.c, nullstreams.c).  Floats.v: exactness of
      double operations.  Printf.v: chprintf.c over any stream.
    - Serial.v: serial.c and the interrupt routine of serial_lld.c (USARTv1),
      over the I/O queues and the events of the kernel; the serial port as a
      stream.
    - UsbBase.v: types of usb.h and usb_lld.h, the registers, and the register
      level operations of usb_lld.c (OTGv1).  Usb.v: usb.c, with the endpoint 0
      state machine.  Otg.v: the FIFOs, the interrupt routine and the pump thread
      of usb_lld.c, and what its two queue copies do.  A USB function is a
      computation of the monad [U]: a driver record beside a kernel computation.
    - Ep0.v: the host and the core as seen by the driver ([host_in],
      [host_setup], [control_read], ...: the environment of the theorems, not
      code), the view of a driver that matters to endpoint 0 ([views]), and rules
      for every operation on it ([vsteps], and [vdoes] where functions of the
      application run), also for the initialisation of another endpoint.
      Control.v: whole control transfers.
      Ep0Safe.v: endpoint 0 under any sequence of packets that carry their bytes
      into the memory of the driver, with any application that keeps to its
      contract ([app_ok]).
    - Nil.v: the Nil kernel (nil.c, nil.h, st.c, the Nil OSAL): its record
      [nil_system], its monad [NM], every function for the periodic and the
      tick-less timer.  NilInv.v: its invariants and the effect of each operation.
      NilTimer.v: the timer handler.  NilExec.v: threads, interrupts and the
      timer running together from reset on.
    - Rtc.v: the conversions of rtc.c.  Mmcsd.v: the card registers
      (hal_mmcsd.c, hal_mmcsd.h).  Crc7.v: the CRC of mmc_spi.c.  MmcSpi.v:
      mmc_spi.c over the synchronous functions of spi.c, in the monad [MM];
      MmcProps.v: what it does for every card.
    - Shell.v: shell.c, over a channel of bytes: the tokenizer that works in the
      line buffer, the line editor, the commands and the loop of the thread.
      ShellProps.v: words, keys and what a terminal shows.  ShellSession.v: an
      interpreter of lines ([interpret], [session]) and the thread against it.
    - Checkers.v: executable versions of the invariants.  Examples.v,
      MoreExamples.v, DSPExamples.v, StreamExamples.v, UsbExamples.v,
      NilExamples.v, MmcExamples.v and ShellExamples.v: concrete states on which the theorems are
      applied, and runs that show defects.

    ** Invariants

    [wf] (Sched.v): a thread is in at most one queue, once, and its state says
    which; exactly the current thread is in state CURRENT; the ready queue is
    sorted by priority.  [sched_ok]: no ready thread has a higher priority than
    the running one.  [K] is both inside a critical section, what holds at
    every context switch; [user] is both outside.  [sem_wf] (Sem.v): a negative
    counter is the number of waiting threads.  [mtx_wf] (Mtx.v): the stack of
    owned mutexes of each thread, sorted waiting queues, and priority
    inheritance: an owner's priority is not below that of any thread waiting
    for it.  [buffer], [fir_inv], [iir_inv] (DSP.v): the newest samples of a
    signal are in the sliding window of a filter's array.  [heap_wf] (Memory.v): the free list of a heap is sorted, aligned
    and fully coalesced.  [serial_ok] (Serial.v): the queues of a serial driver
    hold the given bytes and its event source has the given listeners.  [ep0_inv]
    (Ep0Safe.v): which direction of endpoint 0 is busy in each state of its
    machine, that its descriptors are consistent, and that a reception has a buffer
    with room for what is left of it.  [vt_wf], [future] (VTimers.v): the deltas of
    the timer list, and what a timer callback may do with timers that are not due.
    [reg_ok], [zombies_ok] (Dynamic.v): the registry and the terminated threads that
    a walk through it frees.  [C], [L], [K], [U] (NilInv.v):
    on the Nil kernel each semaphore counter agrees with the threads whose word
    is its address, each reference with the thread suspended on it, no timeout
    ends before the alarm, and the running thread is the first ready one.  [inv]
    (MmcProps.v): the state of the card driver fixes that of the bus.  [thr_ok] and [bsem_ok] (Exec.v) are what an
    application with binary semaphores keeps.

    ** What is proved

    - Refinement: the pointer operations on thread queues implement the list
      operations; mailboxes are bounded FIFO queues, pools are stacks, the heap
      free list behaves as a sorted list of blocks (first fit, split, coalesce).
    - The filters compute their difference equations on every input, with each
      array access in bounds, in the order of accumulation of the code and so
      for rounded arithmetic too, when the heap has room and the memory of the
      filter object held an order not smaller than the new one (a smaller one
      overruns the buffer); over every commutative ring the runs of the direct forms
      I and II are the same filter.
    - Formatted output: a specification of the bytes a format stands for
      ([render_all]), refined by chvprintf on every stream that satisfies the
      laws, with all accesses to its buffer in bounds; chsnprintf's truncation;
      decimal numbers read back; %f prints exact digits.
    - Serial port: the whole interrupt routine against a functional
      specification of its outputs, queues and events; what is printed is queued
      in order, what is queued is sent in order, and the transmitter stops at the
      first empty queue at which the end of transmission is not signalled too.
    - USB: a host that reads a descriptor gets exactly its bytes, in packets of
      at most 64 with the closing empty packet where one is due; SET_ADDRESS and
      SET_CONFIGURATION take effect and read back, with an application that
      initialises its endpoints in between; a request nobody handles
      stalls endpoint 0; no sequence of resets, SETUP, IN and OUT packets that
      the driver's own state allows fails an assertion or leaves the defined
      behaviour of C, and what the host sends is stored in the buffers given for it; the copies between FIFO words and byte queues lose and
      invent nothing and wake the waiting threads.
    - Timers: the tick handler runs exactly the due callbacks, in the order of
      their deadlines, with callbacks that arm and disarm timers that are not due,
      such as their own.  Registry: a walk visits every thread and frees the
      terminated ones nobody refers to.
    - Nil kernel: in every interleaving of threads, interrupt handlers and the
      timer, from chSysInit on, no assertion fails and the first ready thread
      runs; the handler serves exactly the threads whose deadline has come and
      keeps the deadlines of the others on the new time base; a sleep ends at its
      deadline; a signal wakes the first waiting thread.
    - MMC/SD cards: whatever bytes a card answers, every operation returns, keeps
      the automaton of a block device and fails no check of the SPI driver; blocks
      are read and written exactly; the table-driven CRC is the remainder of the
      division of polynomials; a slice is the field of the 128-bit register.
    - Shell: the tokenizer finds the words of every line; the editor keeps the
      text the keys leave, inside its buffer, and the terminal shows it; every
      session ends and does, line by line, what the interpreter prescribes, down
      to the printed bytes.
    - Dates: the round trip through the C library's structure, the date and time
      that a structure stands for, and where the FAT time is right.
    - Functional behaviour of the operations of every component on their
      branches, with the error results, the messages and the effect on other
      threads (nothing else changes).
    - Invariants are kept by the operations, across context switches: [post]
      (Sys.v) says that a computation neither halts nor faults, that [K] holds
      at each switch, and what holds when it returns, whatever state satisfying
      [K] it is resumed in.
    - Start-up: chSysInit on cleared memory establishes the invariants.
    - Safety of whole applications: in every interleaving of thread programs
      and interrupt handlers that use binary semaphores no assertion fails, no
      undefined behaviour is reached, and the highest priority thread runs.
    - Termination and liveness: the event dispatch and registry walks end, the
      polled delay ends for every advancing counter.
    - Defects are proved where they are: chThdStart without reschedule, the
      best time of a measurement, wrap-around of timer deltas, of MS2ST and of
      sizes near the address space, the empty realtime window, the buffers of
      the filters allocated for an uninitialised order, the destructors that
      free twice, the formats chvprintf mishandles, the transmitter interrupt
      that is enabled again, the SETUP packet during a transfer that is never
      answered, the requests whose direction the driver does not look at, the second
      configuration that halts the documented event callback, the deadlines the Nil kernel loses when its counter wraps, the
      minutes of the FAT time, the erase of a card on a stopped bus.

    ** Fuel

    Loops over kernel lists have a fuel argument computed from the state (the
    length of the queue, the number of headers, the counter), or a theorem
    that says which value is enough; running out of it is a fault, which the
    theorems exclude.  The loops of mmc_spi.c that poll a busy card have no bound in
    the code: [max_polls] is arbitrary, and the theorems hold for every card
    that is idle after fewer polls than that, from any point on.

    ** Modelling choices

    The system timer and the realtime counter have one value during a call.
    The interrupt mask is the debug layer's lock counter.  Functions of the
    application (timer callbacks, event handlers, queue notifications, memory
    providers) are arguments; those of USB are the class [UsbApp].  Registers hold
    what was last written, what the hardware shows (flags, FIFO levels, received
    words, memory behind a buffer) is an argument, and waits for the core to
    finish a reset or a flush are left out.  Each IN or OUT event of the USB
    theorems is served before the next.  In Exec.v interrupts are taken between kernel
    calls, not between two critical sections of one call; so they are in NilExec.v,
    where no interrupt is nested in the gaps the timer handler leaves between two
    threads.  The bytes a card answers are a function of the number of bytes
    clocked so far; a transfer on the SPI bus is one step of the calling thread.
    The channel of a shell gives any bytes and is then reset; the commands of an
    application are functions on it that return, so one that calls shellExit
    itself is outside the theorem on sessions; the thread's name is not set.

    ** Not modelled

    The bodies of the port layer (stack frames, registers, linker scripts), the
    idle thread's loop, the other drivers of the hardware abstraction layer and
    the register set-up of the serial one, the clock gates and interrupt vectors
    of the USB cells, chSysPolledDelayX and the stack set-up of the Nil kernel, the
    asynchronous functions of spi.c and its registers, the detection of a card, the
    functions of rtc.c that only pass their arguments on, the vendored libraries (lwip, fatfs, CMSIS), the debugger's
    constant descriptor of chregistry.c, and the calls for console, LED and
    button in main.cpp.  Options chconf.h does not select (round
    robin, recursive mutexes, periodic tick) are left out with their code. *)

From stdpp Require Export base numbers list gmap sets strings option sorting.
From Stdlib Require Export ZArith Lia.

#[global] Open Scope Z_scope.

(** ** Machine integers

    A [w]-bit unsigned value is a [Z] in [0, 2^w); the wrap-around of the C
    arithmetic is written out with [u8], [u16], [u32], [u64]; [s32] is the
    conversion to [int32_t] (two's complement). *)

Definition u8 (x : Z) : Z := x `mod` 2 ^ 8.
Definition u16 (x : Z) : Z := x `mod` 2 ^ 16.
Definition u32 (x : Z) : Z := x `mod` 2 ^ 32.
Definition u64 (x : Z) : Z := x `mod` 2 ^ 64.
Definition s32 (x : Z) : Z := (x + 2 ^ 31) `mod` 2 ^ 32 - 2 ^ 31.

Definition UINT32_MAX : Z := 2 ^ 32 - 1.
Definition INT32_MAX : Z := 2 ^ 31 - 1.
Definition INT32_MIN : Z := - 2 ^ 31.

(** Bitwise complement of a 32-bit word. *)
Definition not32 (x : Z) : Z := Z.lxor x UINT32_MAX.

Definition is_u32 (x : Z) : Prop := 0 ≤ x < 2 ^ 32.
Definition is_s32 (x : Z) : Prop := INT32_MIN ≤ x ≤ INT32_MAX.

Lemma u32_range x : is_u32 (u32 x).
Proof. apply Z.mod_pos_bound. lia. Qed.

Lemma u32_small x : is_u32 x → u32 x = x.
Proof. apply Z.mod_small. Qed.

Lemma u32_idemp x : u32 (u32 x) = u32 x.
Proof. apply u32_small, u32_range. Qed.

(** A field above [sh] bits is added to them. *)
Lemma lor_shift w b sh : 0 ≤ sh → 0 ≤ w < 2 ^ sh → Z.lor w (Z.shiftl b sh) = w + b * 2 ^ sh.
Proof.
  intros Hs Hw. rewrite <-Z.shiftl_mul_pow2 by done. rewrite <-Z.add_lor_land.
  replace (Z.land w (Z.shiftl b sh)) with 0; [lia|]. symmetry. apply Z.bits_inj'. intros i Hi.
  rewrite Z.land_spec, Z.bits_0, Z.shiftl_spec by done. destruct (Z.lt_ge_cases i sh).
  - rewrite (Z.testbit_neg_r b) by lia. apply andb_false_r.
  - rewrite <-(Z.mod_small w (2 ^ sh)), Z.mod_pow2_bits_high by lia. done.
Qed.

(** The bits of a field, and a word that is below [2 ^ n]. *)
Lemma testbit_high x n i : 0 ≤ x < 2 ^ n → 0 ≤ n ≤ i → Z.testbit x i = false.
Proof. intros Hx Hn. rewrite <-(Z.mod_small x (2 ^ n)) by done. apply Z.mod_pow2_bits_high. lia. Qed.

Lemma u32_add_l x y : u32 (u32 x + y) = u32 (x + y).
Proof. apply Zplus_mod_idemp_l. Qed.

Lemma u32_add_r x y : u32 (x + u32 y) = u32 (x + y).
Proof. apply Zplus_mod_idemp_r. Qed.

Lemma u32_sub_l x y : u32 (u32 x - y) = u32 (x - y).
Proof. apply Zminus_mod_idemp_l. Qed.

Lemma u32_sub_r x y : u32 (x - u32 y) = u32 (x - y).
Proof. apply Zminus_mod_idemp_r. Qed.

Lemma u32_sub_sub x y z : u32 (u32 x - y - z) = u32 (x - y - z).
Proof. rewrite <-!Z.sub_add_distr. apply u32_sub_l. Qed.

Lemma u32_add_sub x y z : u32 (u32 x + y - z) = u32 (x + y - z).
Proof. rewrite <-!Z.add_sub_assoc. apply u32_add_l. Qed.

Lemma u32_add_sub_r x y z : u32 (x + u32 y - z) = u32 (x + y - z).
Proof. rewrite !(Z.add_comm x). apply u32_add_sub. Qed.

Create HintDb u32.
Create Rewrite HintDb u32.
#[export] Hint Rewrite u32_idemp u32_add_l u32_add_r u32_sub_l u32_sub_r
  u32_sub_sub u32_add_sub u32_add_sub_r : u32.
#[export] Hint Resolve u32_range u32_small : u32.

(** Unsigned wrap of a sum or difference of two words, in the two cases the
    linear solver can use. *)
Lemma u32_cases x :
  - 2 ^ 32 ≤ x < 2 * 2 ^ 32 →
  (x < 0 ∧ u32 x = x + 2 ^ 32) ∨ (0 ≤ x < 2 ^ 32 ∧ u32 x = x)
  ∨ (2 ^ 32 ≤ x ∧ u32 x = x - 2 ^ 32).
Proof.
  intros Hx. unfold u32.
  destruct (decide (x < 0)) as [?|?].
  - left. split; [done|]. rewrite <-(Z_mod_plus_full x 1). apply Z.mod_small. lia.
  - destruct (decide (x < 2 ^ 32)).
    + right; left. split; [lia|]. apply Z.mod_small. lia.
    + right; right. split; [lia|].
      rewrite <-(Z_mod_plus_full x (-1)). apply Z.mod_small. lia.
Qed.

(** Reduces every [u32] in the goal whose argument is known to be in range. *)
Ltac u32_solve :=
  unfold is_u32 in *;
  repeat match goal with
  | |- context [u32 ?x] =>
      lazymatch x with context [u32 _] => fail | _ => idtac end;
      let E := fresh in
      destruct (u32_cases x) as [[? E]|[[? E]|[? E]]]; [lia|..];
      rewrite !E in *; clear E
  | H : context [u32 ?x] |- _ =>
      lazymatch x with context [u32 _] => fail | _ => idtac end;
      let E := fresh in
      destruct (u32_cases x) as [[? E]|[[? E]|[? E]]]; [lia|..];
      rewrite !E in *; clear E
  end; try lia.

(** ** Lists *)

Lemma NoDup_app_comm {A} (l k : list A) : NoDup (l ++ k) → NoDup (k ++ l).
Proof. rewrite !NoDup_app. naive_solver. Qed.

Lemma NoDup_middle {A} (x : A) l k : NoDup (l ++ x :: k) ↔ x ∉ l ++ k ∧ NoDup (l ++ k).
Proof.
  rewrite <-(Permutation_middle l k x), NoDup_cons. done.
Qed.

(** Splitting a list at the first element that fails a boolean test: what a
    [while (p(cp)) cp = cp->next] loop walks over. *)
Fixpoint span {A} (p : A → bool) (l : list A) : list A * list A :=
  match l with
  | [] => ([], [])
  | x :: l' => if p x then let '(a, b) := span p l' in (x :: a, b) else ([], l)
  end.

Lemma span_app {A} (p : A → bool) l : ((span p l).1 ++ (span p l).2) = l.
Proof. induction l as [|x l IH]; simpl; [done|]. destruct (p x), (span p l); naive_solver. Qed.

Lemma span_true {A} (p : A → bool) l : Forall (λ x, p x = true) (span p l).1.
Proof.
  induction l as [|x l IH]; simpl; [constructor|].
  destruct (p x) eqn:E, (span p l); simpl in *; [by constructor | constructor].
Qed.

Lemma span_false {A} (p : A → bool) l x k : (span p l).2 = x :: k → p x = false.
Proof.
  induction l as [|y l IH]; simpl; [done|].
  destruct (p y) eqn:E, (span p l); simpl in *; naive_solver.
Qed.

(** Inserting [x] in front of the first element that fails the test. *)
Definition insert_span {A} (p : A → bool) (x : A) (l : list A) : list A :=
  let '(a, b) := span p l in a ++ x :: b.

Lemma insert_span_eq {A} (p : A → bool) x l :
  insert_span p x l = (span p l).1 ++ x :: (span p l).2.
Proof. unfold insert_span. by destruct (span p l). Qed.

Lemma insert_span_perm {A} (p : A → bool) x l : insert_span p x l ≡ₚ x :: l.
Proof.
  rewrite insert_span_eq, <-Permutation_middle. by rewrite span_app.
Qed.

Lemma insert_span_ext {A} (p p' : A → bool) x l :
  (∀ y, y ∈ l → p y = p' y) → insert_span p x l = insert_span p' x l.
Proof.
  intros H. unfold insert_span.
  assert (span p l = span p' l) as ->; [|done].
  induction l as [|y l IH]; simpl; [done|].
  rewrite (H y) by set_solver. destruct (p' y); [|done].
  rewrite IH; [done|]. set_solver.
Qed.

(** Removing an element from a list. *)
Lemma filter_ne_notin {A} `{EqDecision A} (x : A) (l : list A) : x ∉ l → filter (λ y, y ≠ x) l = l.
Proof.
  induction l as [|y l IH]; intros Hx; [done|].
  rewrite filter_cons_True by set_solver. f_equal. apply IH. set_solver.
Qed.

Lemma filter_ne_split {A} `{EqDecision A} (x : A) a b :
  NoDup (a ++ x :: b) → filter (λ y, y ≠ x) (a ++ x :: b) = a ++ b.
Proof.
  intros [Hx _]%NoDup_middle. rewrite filter_app, filter_cons_False by naive_solver.
  rewrite !filter_ne_notin; set_solver.
Qed.
