(* ===== verification/Ring.v ===== *)
(** * Circular buffers

    What the mailboxes and the I/O queues share: a buffer, a write and a read
    index that wrap at its end, and the list of elements between them. *)

From S2P Require Import Prelude.

(** An index below twice the size, wrapped. *)
Definition wrap (n k : nat) : nat := if (n <=? k)%nat then (k - n)%nat else k.

(** Index increment and decrement with wrap-around. *)
Definition ring_succ (n p : nat) : nat := if (n <=? S p)%nat then 0%nat else S p.
Definition ring_pred (n p : nat) : nat := match p with O => (n - 1)%nat | S p => p end.

(** [l] is what is stored in buffer [b] from the read index [r] up to the write
    index [w], oldest first. *)
Record ring_rep {A} (b : list A) (w r : nat) (l : list A) : Prop := {
  rr_rd : (r < length b)%nat;
  rr_len : (length l ≤ length b)%nat;
  rr_wr : w = wrap (length b) (r + length l);
  rr_elt : ∀ i x, l !! i = Some x → b !! wrap (length b) (r + i) = Some x
}.

Ltac wrap_cases :=
  unfold wrap, ring_succ, ring_pred in *;
  repeat match goal with
  | |- context [(?a <=? ?b)%nat] => destruct (Nat.leb_spec a b)
  | H : context [(?a <=? ?b)%nat] |- _ => destruct (Nat.leb_spec a b)
  end; try lia.

Section Ring.
Context {A : Type}.
Implicit Types (b l : list A).

Lemma ring_init b n : length b = n → (0 < n)%nat → ring_rep b 0 0 [].
Proof. intros E Hn. split; simpl; try lia; [|done]. unfold wrap. destruct (Nat.leb_spec (length b) 0); lia. Qed.

Lemma ring_push b w r l x :
  ring_rep b w r l → (length l < length b)%nat →
  (w < length b)%nat ∧ ring_rep (<[w := x]> b) (ring_succ (length b) w) r (l ++ [x]).
Proof.
  intros [H1 H2 H3 H4] Hl. split; [wrap_cases|]. split.
  - by rewrite length_insert.
  - rewrite length_insert, length_app. simpl. lia.
  - rewrite length_insert, length_app. simpl. subst w. wrap_cases.
  - intros i y. rewrite length_insert. intros [Hi|[Hi Hy]]%lookup_app_Some.
    + rewrite list_lookup_insert_ne; [by apply H4|].
      apply lookup_lt_Some in Hi. subst w. wrap_cases.
    + assert (i = length l ∧ x = y) as [-> ->].
      { apply list_lookup_singleton_Some in Hy as [? ->]. split; [lia|done]. }
      subst w. apply list_lookup_insert_eq. wrap_cases.
Qed.

Lemma ring_push_ahead b w r l x :
  ring_rep b w r l → (length l < length b)%nat →
  let r' := ring_pred (length b) r in
  (r' < length b)%nat ∧ ring_rep (<[r' := x]> b) w r' (x :: l).
Proof.
  intros [H1 H2 H3 H4] Hl r'.
  assert (r' < length b)%nat as Hr' by (unfold r'; destruct r; simpl; lia).
  split; [done|]. split; rewrite ?length_insert; simpl; try lia.
  - subst w. unfold r'. destruct r; wrap_cases.
  - intros [|i] y; simpl.
    + intros [= ->]. rewrite Nat.add_0_r. replace (wrap (length b) r') with r' by wrap_cases.
      by apply list_lookup_insert_eq.
    + intros Hi. replace (wrap (length b) (r' + S i)) with (wrap (length b) (r + i)).
      * rewrite list_lookup_insert_ne; [by apply H4|]. apply lookup_lt_Some in Hi.
        unfold r'. destruct r; wrap_cases.
      * apply lookup_lt_Some in Hi. unfold r'. destruct r; wrap_cases.
Qed.

Lemma ring_pop b w r l x :
  ring_rep b w r (x :: l) → b !! r = Some x ∧ ring_rep b w (ring_succ (length b) r) l.
Proof.
  intros [H1 H2 H3 H4]. simpl in *. split.
  - specialize (H4 0%nat x eq_refl). rewrite Nat.add_0_r in H4.
    by replace (wrap (length b) r) with r in H4 by wrap_cases.
  - split; simpl; try lia.
    + wrap_cases.
    + subst w. wrap_cases.
    + intros i y Hi. specialize (H4 (S i) y Hi).
      apply lookup_lt_Some in Hi. 
      by replace (wrap (length b) (ring_succ (length b) r + i)) with (wrap (length b) (r + S i)) by wrap_cases.
Qed.

(** The two indices are equal exactly when the buffer is empty or full. *)
Lemma ring_eq b w r l : ring_rep b w r l → w = r ↔ l = [] ∨ length l = length b.
Proof.
  intros [H1 H2 H3 H4]. split.
  - intros ->. destruct l as [|x l]; [by left|]. right. simpl in *. wrap_cases.
  - intros [->|Hl]; subst w; simpl; wrap_cases.
Qed.
End Ring.
