(* ===== verification/TimeMeas.v ===== *)
(** * Time measurement (os/rt/src/chtm.c, os/rt/include/chtm.h)

    [time_measurement_t] objects collect the best, worst and last duration
    measured with the 32-bit realtime counter of the port.  The counter is a
    free-running hardware register: its value is an argument of the
    operations that read it. *)

From S2P Require Import Prelude.

Module TM.

(** [time_measurement_t]: [rtcnt_t] and [ucnt_t] are 32-bit, [rttime_t] 64-bit. *)
Record time_measurement := mkTM {
  best : Z;
  worst : Z;
  last : Z;
  n : Z;
  cumulative : Z
}.

(** The body of [tm_stop]: the [else if] is the one of the source. *)
Definition tm_stop (tmp : time_measurement) (now offset : Z) : time_measurement :=
  let n' := u32 (n tmp + 1) in
  let last' := u32 (u32 (now - last tmp) - offset) in
  let cum' := u64 (cumulative tmp + last') in
  if worst tmp <? last' then mkTM (best tmp) last' last' n' cum'
  else if last' <? best tmp then mkTM last' (worst tmp) last' n' cum'
  else mkTM (best tmp) (worst tmp) last' n' cum'.

Definition chTMObjectInit : time_measurement := mkTM UINT32_MAX 0 0 0 0.

Definition chTMStartMeasurementX (rtcnt : Z) (tmp : time_measurement) : time_measurement :=
  mkTM (best tmp) (worst tmp) rtcnt (n tmp) (cumulative tmp).

Definition chTMStopMeasurementX (rtcnt offset : Z) (tmp : time_measurement) : time_measurement :=
  tm_stop tmp rtcnt offset.

(** Stops [tmp1] and starts [tmp2] with one reading of the counter. *)
Definition chTMChainMeasurementToX (rtcnt : Z) (tmp1 tmp2 : time_measurement) :
    time_measurement * time_measurement :=
  let tmp2' := mkTM (best tmp2) (worst tmp2) rtcnt (n tmp2) (cumulative tmp2) in
  (tm_stop tmp1 (last tmp2') 0, tmp2').

(** [_tm_init]: the calibration offset is the length of an empty measurement,
    taken with two readings [c0], [c1] of the counter and a zero offset. *)
Definition tm_init (c0 c1 : Z) : Z :=
  last (chTMStopMeasurementX c1 0 (chTMStartMeasurementX c0 chTMObjectInit)).

(** One start/stop pair measuring a duration [d] from counter value [c]. *)
Definition measure (offset : Z) (tmp : time_measurement) (cd : Z * Z) : time_measurement :=
  chTMStopMeasurementX (u32 (cd.1 + cd.2)) offset (chTMStartMeasurementX cd.1 tmp).

Definition measures (offset : Z) (tmp : time_measurement) (l : list (Z * Z)) :=
  foldl (measure offset) tmp l.

Lemma measure_eq offset tmp c d :
  measure offset tmp (c, d) = tm_stop (mkTM (best tmp) (worst tmp) 0 (n tmp) (cumulative tmp)) (u32 (d - offset)) 0.
Proof.
  unfold measure, chTMStopMeasurementX, tm_stop; simpl.
  rewrite !Z.sub_0_r, !u32_idemp. by replace (u32 (u32 (u32 (c + d) - c) - offset)) with (u32 (d - offset))
    by (autorewrite with u32; f_equal; lia).
Qed.

(** The durations that do not exceed every earlier one (starting from [w]). *)
Fixpoint non_records (w : Z) (ds : list Z) : list Z :=
  match ds with
  | [] => []
  | d :: ds => if w <? d then non_records d ds else d :: non_records w ds
  end.

(** The durations a series of measurements records: the call overhead
    [offset] is subtracted, in the counter's 32 bits. *)
Definition durations (offset : Z) (l : list (Z * Z)) : list Z := (λ cd, u32 (cd.2 - offset)) <$> l.

Lemma measures_from offset l : ∀ tmp, let ds := durations offset l in
  let r := measures offset tmp l in
  worst r = foldl Z.max (worst tmp) ds ∧ best r = foldl Z.min (best tmp) (non_records (worst tmp) ds) ∧
  u32 (n r) = u32 (n tmp + Z.of_nat (length l)) ∧ last r = foldl (λ _ d, d) (last tmp) ds ∧
  u64 (cumulative r) = u64 (cumulative tmp + foldr Z.add 0 ds).
Proof.
  induction l as [|[c d] l IH]; intros tmp; cbn [length]; [simpl; rewrite !Z.add_0_r; done|]. rewrite Nat2Z.inj_succ. simpl.
  destruct (IH (measure offset tmp (c, d))) as (H1 & H2 & H3 & H4 & H5). clear IH.
  fold (durations offset l). unfold measures in *. simpl.
  rewrite H1, H2, H3, H4, H5. clear H1 H2 H3 H4 H5. rewrite measure_eq.
  unfold tm_stop. simpl. rewrite !Z.sub_0_r, !u32_idemp. set (e := u32 (d - offset)).
  assert (∀ x, u32 (u32 (n tmp + 1) + x) = u32 (n tmp + Z.succ x)) as Hn.
  { intros x. rewrite u32_add_l. f_equal. lia. }
  assert (∀ x, u64 (u64 (cumulative tmp + e) + x) = u64 (cumulative tmp + (e + x))) as Hc.
  { intros x. unfold u64. rewrite Zplus_mod_idemp_l. f_equal. lia. }
  destruct (Z.ltb_spec (worst tmp) e); simpl; [rewrite Hn, Hc, Z.max_r by lia; done|].
  destruct (Z.ltb_spec e (best tmp)); simpl; rewrite Hn, Hc, Z.max_l by lia.
  - rewrite Z.min_r by lia. done.
  - rewrite Z.min_l by lia. done.
Qed.

(** A series of measurements on an initialised object: [worst] is the
    largest duration, [n] their number (modulo 2^32), [cumulative] their sum
    (modulo 2^64) and [last] the last one, each duration being the counter
    difference less the calibrated overhead even when the counter wraps.
    [best] is the smallest of the durations that did not set a new worst. *)
Theorem measures_correct offset l :
  let ds := durations offset l in
  let r := measures offset chTMObjectInit l in
  worst r = foldl Z.max 0 ds ∧ best r = foldl Z.min UINT32_MAX (non_records 0 ds) ∧
  u32 (n r) = u32 (Z.of_nat (length l)) ∧ last r = foldl (λ _ d, d) 0 ds ∧
  u64 (cumulative r) = u64 (foldr Z.add 0 ds).
Proof. apply (measures_from offset l chTMObjectInit). Qed.

(** Because of the [else], durations that keep growing never reach
    [best]: after measurements of 5, 7 and 9 ticks it still holds the initial
    value, the largest one. *)
Theorem tm_stop_best_not_minimum :
  let r := measures 0 chTMObjectInit [(0, 5); (10, 7); (20, 9)] in
  best r = UINT32_MAX ∧ worst r = 9 ∧ n r = 3.
Proof. vm_compute. done. Qed.

(** [_tm_init] calibrates the measurement of an empty interval to zero. *)
Lemma tm_init_zero c0 c1 c2 tmp :
  let offset := tm_init c0 c1 in last (measure offset tmp (c2, u32 (c1 - c0))) = 0.
Proof.
  assert (tm_init c0 c1 = u32 (c1 - c0)) as E.
  { unfold tm_init, chTMStopMeasurementX, tm_stop. simpl. rewrite Z.sub_0_r, u32_idemp. by repeat case_match. }
  cbn zeta. rewrite measure_eq. unfold tm_stop. simpl. rewrite E, Z.sub_diag. by repeat case_match.
Qed.

End TM.
