(* ===== verification/Kernel.v ===== *)
(** * Kernel data, the kernel monad and the debug layer

    Sources: os/rt/include/chsystypes.h, chschd.h, chsem.h, chmtx.h,
    chmboxes.h, chevents.h, chqueues.h (data types), os/rt/src/chdebug.c and
    os/rt/include/chdebug.h, chsys.h (lock, unlock, checks, context switch),
    os/rt/src/chstats.c.

    The configuration is the one of examples/DSP-Library/chconf.h (the other
    example uses the same): no round robin, tickless timer with a minimum
    delta of two ticks, all checks, asserts, statistics and trace enabled.

    The kernel state [kst] holds the global structure [ch] and the objects the
    API works on.  A kernel function is a computation of the monad [M]: it
    ends with a value, halts the system (a failed check), leaves the defined
    behaviour of the code ([Fault]: a dereference of a missing object, a signed
    overflow, a search loop that does not end), or reaches a context
    switch.  [Switch s k] is a [port_switch] executed in state [s]: another
    thread runs, and when the switched-out thread becomes current again, in a
    state [s'], its function continues with [k s']. *)

From S2P Require Import Prelude TimeMeas.

Abbreviation tid := positive (only parsing).
Abbreviation addr := positive (only parsing).

(** ** Constants of chschd.h, chvt.h, chqueues.h *)

Definition MSG_OK : Z := 0.
Definition MSG_TIMEOUT : Z := -1.
Definition MSG_RESET : Z := -2.
Definition Q_OK : Z := MSG_OK.
Definition Q_TIMEOUT : Z := MSG_TIMEOUT.
Definition Q_RESET : Z := MSG_RESET.
Definition Q_EMPTY : Z := -3.
Definition Q_FULL : Z := -4.

Definition NOPRIO : Z := 0.
Definition IDLEPRIO : Z := 1.
Definition LOWPRIO : Z := 2.
Definition NORMALPRIO : Z := 64.
Definition HIGHPRIO : Z := 127.
Definition ABSPRIO : Z := 255.

Definition TIME_IMMEDIATE : Z := 0.
Definition TIME_INFINITE : Z := UINT32_MAX.
Definition CH_CFG_ST_FREQUENCY : Z := 10000.
Definition CH_CFG_ST_TIMEDELTA : Z := 2.
Definition CH_DBG_TRACE_BUFFER_SIZE : nat := 64.

Definition CH_FLAG_MODE_MASK : Z := 3.
Definition CH_FLAG_MODE_STATIC : Z := 0.
Definition CH_FLAG_MODE_HEAP : Z := 1.
Definition CH_FLAG_MODE_MPOOL : Z := 2.
Definition CH_FLAG_TERMINATE : Z := 4.

(** The thread states, in the order of their numeric values. *)
Inductive tstate :=
  | CH_STATE_READY | CH_STATE_CURRENT | CH_STATE_WTSTART | CH_STATE_SUSPENDED
  | CH_STATE_QUEUED | CH_STATE_WTSEM | CH_STATE_WTMTX | CH_STATE_WTCOND
  | CH_STATE_SLEEPING | CH_STATE_WTEXIT | CH_STATE_WTOREVT | CH_STATE_WTANDEVT
  | CH_STATE_SNDMSGQ | CH_STATE_SNDMSG | CH_STATE_WTMSG | CH_STATE_FINAL.

#[export] Instance tstate_eq_dec : EqDecision tstate.
Proof. solve_decision. Defined.

(** Queue headers.  A [threads_queue_t] or [threads_list_t] is always a field
    of another object; the reference names that object.  The headers of a
    semaphore, a mutex and a condition variable are the first field of their
    structure, which is what the pointer casts of chMtxLockS use. *)
Inductive qref :=
  | QReady                  (* ch.rlist.r_queue *)
  | QSem (a : addr)         (* semaphore_t.s_queue *)
  | QMtx (a : addr)         (* mutex_t.m_queue *)
  | QCond (a : addr)        (* condition_variable_t.c_queue *)
  | QThq (a : addr)         (* a threads_queue_t object, io_queue.q_waiting *)
  | QMsg (t : tid)          (* thread_t.p_msgqueue *)
  | QWait (t : tid).        (* thread_t.p_waiting *)

#[export] Instance qref_eq_dec : EqDecision qref.
Proof. solve_decision. Defined.

#[export] Instance qref_countable : Countable qref.
Proof.
  refine (inj_countable'
    (λ q, match q with
          | QReady => (0%nat, 1%positive) | QSem a => (1%nat, a) | QMtx a => (2%nat, a)
          | QCond a => (3%nat, a) | QThq a => (4%nat, a) | QMsg t => (5%nat, t)
          | QWait t => (6%nat, t) end)
    (λ p, match p with
          | (0%nat, _) => QReady | (1%nat, a) => QSem a | (2%nat, a) => QMtx a
          | (3%nat, a) => QCond a | (4%nat, a) => QThq a | (5%nat, t) => QMsg t
          | (_, t) => QWait t end) _).
  by intros [].
Defined.

(** The union [p_u] of a thread: the member written last.  [rdymsg] and
    [exitcode] are two names of one [msg_t] member. *)
Inductive punion :=
  | U_msg (m : Z)
  | U_wtobjp (q : qref)
  | U_wttrp (r : addr)
  | U_wtsemp (a : addr)
  | U_wtmtxp (a : addr)
  | U_ewmask (m : Z).

#[export] Instance punion_eq_dec : EqDecision punion.
Proof. solve_decision. Defined.

(** [struct ch_thread].  The links p_next, p_prev, p_newer, p_older and the
    headers p_waiting, p_msgqueue live in [k_q] and [k_reg]; the saved context
    is the continuation of the thread; p_stats is in [k_pstats]. *)
Record thread := mkThread {
  p_prio : Z;
  p_name : option string;
  p_state : tstate;
  p_flags : Z;
  p_refs : Z;
  p_u : punion;
  p_msg : Z;
  p_epending : Z;
  p_mtxlist : option addr;
  p_realprio : Z;
  p_mpool : option addr
}.

Definition set_p_prio x t := mkThread x (p_name t) (p_state t) (p_flags t) (p_refs t) (p_u t) (p_msg t) (p_epending t) (p_mtxlist t) (p_realprio t) (p_mpool t).
Definition set_p_name x t := mkThread (p_prio t) x (p_state t) (p_flags t) (p_refs t) (p_u t) (p_msg t) (p_epending t) (p_mtxlist t) (p_realprio t) (p_mpool t).
Definition set_p_state x t := mkThread (p_prio t) (p_name t) x (p_flags t) (p_refs t) (p_u t) (p_msg t) (p_epending t) (p_mtxlist t) (p_realprio t) (p_mpool t).
Definition set_p_flags x t := mkThread (p_prio t) (p_name t) (p_state t) x (p_refs t) (p_u t) (p_msg t) (p_epending t) (p_mtxlist t) (p_realprio t) (p_mpool t).
Definition set_p_refs x t := mkThread (p_prio t) (p_name t) (p_state t) (p_flags t) x (p_u t) (p_msg t) (p_epending t) (p_mtxlist t) (p_realprio t) (p_mpool t).
Definition set_p_u x t := mkThread (p_prio t) (p_name t) (p_state t) (p_flags t) (p_refs t) x (p_msg t) (p_epending t) (p_mtxlist t) (p_realprio t) (p_mpool t).
Definition set_p_msg x t := mkThread (p_prio t) (p_name t) (p_state t) (p_flags t) (p_refs t) (p_u t) x (p_epending t) (p_mtxlist t) (p_realprio t) (p_mpool t).
Definition set_p_epending x t := mkThread (p_prio t) (p_name t) (p_state t) (p_flags t) (p_refs t) (p_u t) (p_msg t) x (p_mtxlist t) (p_realprio t) (p_mpool t).
Definition set_p_mtxlist x t := mkThread (p_prio t) (p_name t) (p_state t) (p_flags t) (p_refs t) (p_u t) (p_msg t) (p_epending t) x (p_realprio t) (p_mpool t).
Definition set_p_realprio x t := mkThread (p_prio t) (p_name t) (p_state t) (p_flags t) (p_refs t) (p_u t) (p_msg t) (p_epending t) (p_mtxlist t) x (p_mpool t).
Definition set_p_mpool x t := mkThread (p_prio t) (p_name t) (p_state t) (p_flags t) (p_refs t) (p_u t) (p_msg t) (p_epending t) (p_mtxlist t) (p_realprio t) x.

(** [struct ch_mutex] without the queue header. *)
Record mutex := mkMutex { m_owner : option tid; m_next : option addr }.

(** Virtual timers.  The timer of [chSchGoSleepTimeoutS] is a local variable of
    the sleeping thread, the others are objects.  The callbacks of the kernel
    and of its clients are named by a function identifier. *)
Inductive vtref := VTLocal (t : tid) | VTObj (a : addr).

#[export] Instance vtref_eq_dec : EqDecision vtref.
Proof. solve_decision. Defined.

Inductive vtfunc := VtWakeup (t : tid) | VtUser (f : positive) (par : Z).

(** A linked timer: its address, delta and callback with its parameter. *)
Record vtimer := mkVT { vt_ref : vtref; vt_delta : Z; vt_func : vtfunc }.

(** [ch_swc_event_t] and [ch_trace_buffer_t]. *)
Record swc_event := mkSwc { se_time : Z; se_tp : option tid; se_wtobjp : option punion; se_state : option tstate }.
Record trace_buffer := mkTB { tb_ptr : nat; tb_buffer : list swc_event }.

(** [kernel_stats_t]. *)
Record kernel_stats := mkKS {
  n_irq : Z; n_ctxswc : Z;
  m_crit_thd : TM.time_measurement; m_crit_isr : TM.time_measurement
}.

(** [mailbox_t]: the buffer area and the two pointers as indices into it; the
    semaphores are the objects [mb_fullsem] and [mb_emptysem]. *)
Record mailbox := mkMB {
  mb_buffer : list Z; mb_wrptr : nat; mb_rdptr : nat;
  mb_fullsem : addr; mb_emptysem : addr
}.

(** [io_queue_t]: the waiting queue is [QThq q_waiting]. *)
Record ioqueue := mkIOQ {
  q_waiting : addr; q_counter : Z; q_buffer : list Z;
  q_wrptr : nat; q_rdptr : nat; q_notify : option positive
}.

(** [event_listener_t] without its link. *)
Record listener := mkEL { el_listener : tid; el_events : Z; el_flags : Z; el_wflags : Z }.

(** Memory allocators.  Addresses are 32-bit values, NULL is 0.  The headers
    the allocators write into the memory they manage are kept by address: heap
    headers ([union heap_header]) in [mem_hdr], where the union of the link and
    of the owning heap is the member written last, and the links of free pool
    objects ([struct pool_header]) in [mem_ph]. *)
Inductive hlink := HNext (p : Z) | HHeap (h : addr).
Record heap_header := mkHH { hh_u : hlink; hh_size : Z }.

(** [memgetfunc_t] pointers. *)
Inductive provider := PNull | PCoreAlloc | PCoreAllocI | PUser (f : positive).

(** [struct memory_heap]: [h_free] is the address of its header field, [h_mtx]
    names its mutex. *)
Record memory_heap := mkHeap { h_provider : provider; h_free : Z; h_mtx : addr }.

(** [memory_pool_t]. *)
Record memory_pool := mkPool { mp_next : Z; mp_object_size : Z; mp_provider : provider }.

Record memst := mkMemst {
  nextmem : Z; endmem : Z; (* chmemcore.c *)
  mem_hdr : gmap Z heap_header;
  mem_ph : gmap Z Z;
  mem_heap : gmap addr memory_heap;
  mem_pool : gmap addr memory_pool
}.

(** ** The kernel state *)
Record kst := mkK {
  k_cur : tid; (* ch.rlist.r_current *)
  k_thd : gmap tid thread; (* the thread_t objects *)
  k_q : gmap qref (list tid); (* every threads_queue_t and threads_list_t, front first *)
  k_reg : list tid; (* registry chain, from r_newer (oldest thread first) *)
  k_vt : list vtimer; (* ch.vtlist, from vt_next *)
  k_vtlast : Z; (* ch.vtlist.vt_lasttime *)
  k_now : Z; (* port system timer counter *)
  k_alarm : option Z; (* port alarm *)
  k_rt : Z; (* port realtime counter *)
  k_isr : Z; (* ch.dbg.isr_cnt *)
  k_lock : Z; (* ch.dbg.lock_cnt *)
  k_trace : trace_buffer; (* ch.dbg.trace_buffer *)
  k_stats : kernel_stats; (* ch.kernel_stats *)
  k_pstats : gmap tid TM.time_measurement; (* the p_stats field of each thread *)
  k_tmoff : Z; (* ch.tm.offset *)
  k_sem : gmap addr Z; (* s_cnt of the semaphore_t objects *)
  k_mtx : gmap addr mutex; (* mutex_t objects *)
  k_tref : gmap addr (option tid); (* thread_reference_t variables *)
  k_mbox : gmap addr mailbox; (* mailbox_t objects *)
  k_ioq : gmap addr ioqueue; (* io_queue_t objects *)
  k_evl : gmap addr listener; (* event_listener_t objects *)
  k_evs : gmap addr (list addr); (* event_source_t listener chains, from es_next *)
  k_mem : memst (* the allocators and the memory they manage *)
}.

Definition set_k_cur (x : tid) (s : kst) : kst :=
  mkK x (k_thd s) (k_q s) (k_reg s) (k_vt s) (k_vtlast s) (k_now s) (k_alarm s) (k_rt s) (k_isr s) (k_lock s) (k_trace s) (k_stats s) (k_pstats s) (k_tmoff s) (k_sem s) (k_mtx s) (k_tref s) (k_mbox s) (k_ioq s) (k_evl s) (k_evs s) (k_mem s).
Definition set_k_thd (x : gmap tid thread) (s : kst) : kst :=
  mkK (k_cur s) x (k_q s) (k_reg s) (k_vt s) (k_vtlast s) (k_now s) (k_alarm s) (k_rt s) (k_isr s) (k_lock s) (k_trace s) (k_stats s) (k_pstats s) (k_tmoff s) (k_sem s) (k_mtx s) (k_tref s) (k_mbox s) (k_ioq s) (k_evl s) (k_evs s) (k_mem s).
Definition set_k_q (x : gmap qref (list tid)) (s : kst) : kst :=
  mkK (k_cur s) (k_thd s) x (k_reg s) (k_vt s) (k_vtlast s) (k_now s) (k_alarm s) (k_rt s) (k_isr s) (k_lock s) (k_trace s) (k_stats s) (k_pstats s) (k_tmoff s) (k_sem s) (k_mtx s) (k_tref s) (k_mbox s) (k_ioq s) (k_evl s) (k_evs s) (k_mem s).
Definition set_k_reg (x : list tid) (s : kst) : kst :=
  mkK (k_cur s) (k_thd s) (k_q s) x (k_vt s) (k_vtlast s) (k_now s) (k_alarm s) (k_rt s) (k_isr s) (k_lock s) (k_trace s) (k_stats s) (k_pstats s) (k_tmoff s) (k_sem s) (k_mtx s) (k_tref s) (k_mbox s) (k_ioq s) (k_evl s) (k_evs s) (k_mem s).
Definition set_k_vt (x : list vtimer) (s : kst) : kst :=
  mkK (k_cur s) (k_thd s) (k_q s) (k_reg s) x (k_vtlast s) (k_now s) (k_alarm s) (k_rt s) (k_isr s) (k_lock s) (k_trace s) (k_stats s) (k_pstats s) (k_tmoff s) (k_sem s) (k_mtx s) (k_tref s) (k_mbox s) (k_ioq s) (k_evl s) (k_evs s) (k_mem s).
Definition set_k_vtlast (x : Z) (s : kst) : kst :=
  mkK (k_cur s) (k_thd s) (k_q s) (k_reg s) (k_vt s) x (k_now s) (k_alarm s) (k_rt s) (k_isr s) (k_lock s) (k_trace s) (k_stats s) (k_pstats s) (k_tmoff s) (k_sem s) (k_mtx s) (k_tref s) (k_mbox s) (k_ioq s) (k_evl s) (k_evs s) (k_mem s).
Definition set_k_now (x : Z) (s : kst) : kst :=
  mkK (k_cur s) (k_thd s) (k_q s) (k_reg s) (k_vt s) (k_vtlast s) x (k_alarm s) (k_rt s) (k_isr s) (k_lock s) (k_trace s) (k_stats s) (k_pstats s) (k_tmoff s) (k_sem s) (k_mtx s) (k_tref s) (k_mbox s) (k_ioq s) (k_evl s) (k_evs s) (k_mem s).
Definition set_k_alarm (x : option Z) (s : kst) : kst :=
  mkK (k_cur s) (k_thd s) (k_q s) (k_reg s) (k_vt s) (k_vtlast s) (k_now s) x (k_rt s) (k_isr s) (k_lock s) (k_trace s) (k_stats s) (k_pstats s) (k_tmoff s) (k_sem s) (k_mtx s) (k_tref s) (k_mbox s) (k_ioq s) (k_evl s) (k_evs s) (k_mem s).
Definition set_k_rt (x : Z) (s : kst) : kst :=
  mkK (k_cur s) (k_thd s) (k_q s) (k_reg s) (k_vt s) (k_vtlast s) (k_now s) (k_alarm s) x (k_isr s) (k_lock s) (k_trace s) (k_stats s) (k_pstats s) (k_tmoff s) (k_sem s) (k_mtx s) (k_tref s) (k_mbox s) (k_ioq s) (k_evl s) (k_evs s) (k_mem s).
Definition set_k_isr (x : Z) (s : kst) : kst :=
  mkK (k_cur s) (k_thd s) (k_q s) (k_reg s) (k_vt s) (k_vtlast s) (k_now s) (k_alarm s) (k_rt s) x (k_lock s) (k_trace s) (k_stats s) (k_pstats s) (k_tmoff s) (k_sem s) (k_mtx s) (k_tref s) (k_mbox s) (k_ioq s) (k_evl s) (k_evs s) (k_mem s).
Definition set_k_lock (x : Z) (s : kst) : kst :=
  mkK (k_cur s) (k_thd s) (k_q s) (k_reg s) (k_vt s) (k_vtlast s) (k_now s) (k_alarm s) (k_rt s) (k_isr s) x (k_trace s) (k_stats s) (k_pstats s) (k_tmoff s) (k_sem s) (k_mtx s) (k_tref s) (k_mbox s) (k_ioq s) (k_evl s) (k_evs s) (k_mem s).
Definition set_k_trace (x : trace_buffer) (s : kst) : kst :=
  mkK (k_cur s) (k_thd s) (k_q s) (k_reg s) (k_vt s) (k_vtlast s) (k_now s) (k_alarm s) (k_rt s) (k_isr s) (k_lock s) x (k_stats s) (k_pstats s) (k_tmoff s) (k_sem s) (k_mtx s) (k_tref s) (k_mbox s) (k_ioq s) (k_evl s) (k_evs s) (k_mem s).
Definition set_k_stats (x : kernel_stats) (s : kst) : kst :=
  mkK (k_cur s) (k_thd s) (k_q s) (k_reg s) (k_vt s) (k_vtlast s) (k_now s) (k_alarm s) (k_rt s) (k_isr s) (k_lock s) (k_trace s) x (k_pstats s) (k_tmoff s) (k_sem s) (k_mtx s) (k_tref s) (k_mbox s) (k_ioq s) (k_evl s) (k_evs s) (k_mem s).
Definition set_k_pstats (x : gmap tid TM.time_measurement) (s : kst) : kst :=
  mkK (k_cur s) (k_thd s) (k_q s) (k_reg s) (k_vt s) (k_vtlast s) (k_now s) (k_alarm s) (k_rt s) (k_isr s) (k_lock s) (k_trace s) (k_stats s) x (k_tmoff s) (k_sem s) (k_mtx s) (k_tref s) (k_mbox s) (k_ioq s) (k_evl s) (k_evs s) (k_mem s).
Definition set_k_tmoff (x : Z) (s : kst) : kst :=
  mkK (k_cur s) (k_thd s) (k_q s) (k_reg s) (k_vt s) (k_vtlast s) (k_now s) (k_alarm s) (k_rt s) (k_isr s) (k_lock s) (k_trace s) (k_stats s) (k_pstats s) x (k_sem s) (k_mtx s) (k_tref s) (k_mbox s) (k_ioq s) (k_evl s) (k_evs s) (k_mem s).
Definition set_k_sem (x : gmap addr Z) (s : kst) : kst :=
  mkK (k_cur s) (k_thd s) (k_q s) (k_reg s) (k_vt s) (k_vtlast s) (k_now s) (k_alarm s) (k_rt s) (k_isr s) (k_lock s) (k_trace s) (k_stats s) (k_pstats s) (k_tmoff s) x (k_mtx s) (k_tref s) (k_mbox s) (k_ioq s) (k_evl s) (k_evs s) (k_mem s).
Definition set_k_mtx (x : gmap addr mutex) (s : kst) : kst :=
  mkK (k_cur s) (k_thd s) (k_q s) (k_reg s) (k_vt s) (k_vtlast s) (k_now s) (k_alarm s) (k_rt s) (k_isr s) (k_lock s) (k_trace s) (k_stats s) (k_pstats s) (k_tmoff s) (k_sem s) x (k_tref s) (k_mbox s) (k_ioq s) (k_evl s) (k_evs s) (k_mem s).
Definition set_k_tref (x : gmap addr (option tid)) (s : kst) : kst :=
  mkK (k_cur s) (k_thd s) (k_q s) (k_reg s) (k_vt s) (k_vtlast s) (k_now s) (k_alarm s) (k_rt s) (k_isr s) (k_lock s) (k_trace s) (k_stats s) (k_pstats s) (k_tmoff s) (k_sem s) (k_mtx s) x (k_mbox s) (k_ioq s) (k_evl s) (k_evs s) (k_mem s).
Definition set_k_mbox (x : gmap addr mailbox) (s : kst) : kst :=
  mkK (k_cur s) (k_thd s) (k_q s) (k_reg s) (k_vt s) (k_vtlast s) (k_now s) (k_alarm s) (k_rt s) (k_isr s) (k_lock s) (k_trace s) (k_stats s) (k_pstats s) (k_tmoff s) (k_sem s) (k_mtx s) (k_tref s) x (k_ioq s) (k_evl s) (k_evs s) (k_mem s).
Definition set_k_ioq (x : gmap addr ioqueue) (s : kst) : kst :=
  mkK (k_cur s) (k_thd s) (k_q s) (k_reg s) (k_vt s) (k_vtlast s) (k_now s) (k_alarm s) (k_rt s) (k_isr s) (k_lock s) (k_trace s) (k_stats s) (k_pstats s) (k_tmoff s) (k_sem s) (k_mtx s) (k_tref s) (k_mbox s) x (k_evl s) (k_evs s) (k_mem s).
Definition set_k_evl (x : gmap addr listener) (s : kst) : kst :=
  mkK (k_cur s) (k_thd s) (k_q s) (k_reg s) (k_vt s) (k_vtlast s) (k_now s) (k_alarm s) (k_rt s) (k_isr s) (k_lock s) (k_trace s) (k_stats s) (k_pstats s) (k_tmoff s) (k_sem s) (k_mtx s) (k_tref s) (k_mbox s) (k_ioq s) x (k_evs s) (k_mem s).
Definition set_k_evs (x : gmap addr (list addr)) (s : kst) : kst :=
  mkK (k_cur s) (k_thd s) (k_q s) (k_reg s) (k_vt s) (k_vtlast s) (k_now s) (k_alarm s) (k_rt s) (k_isr s) (k_lock s) (k_trace s) (k_stats s) (k_pstats s) (k_tmoff s) (k_sem s) (k_mtx s) (k_tref s) (k_mbox s) (k_ioq s) (k_evl s) x (k_mem s).
Definition set_k_mem (x : memst) (s : kst) : kst :=
  mkK (k_cur s) (k_thd s) (k_q s) (k_reg s) (k_vt s) (k_vtlast s) (k_now s) (k_alarm s) (k_rt s) (k_isr s) (k_lock s) (k_trace s) (k_stats s) (k_pstats s) (k_tmoff s) (k_sem s) (k_mtx s) (k_tref s) (k_mbox s) (k_ioq s) (k_evl s) (k_evs s) x.

(** ** The kernel monad *)

Inductive res (A : Type) : Type :=
  | Done (a : A) (s : kst)
  | Halt (reason : string) (s : kst)
  | Fault
  | Switch (s : kst) (k : kst → res A).
Arguments Done {A} _ _.
Arguments Halt {A} _ _.
Arguments Fault {A}.
Arguments Switch {A} _ _.

Definition M (A : Type) : Type := kst → res A.

Fixpoint rbind {A B} (r : res A) (k : A → kst → res B) : res B :=
  match r with
  | Done a s => k a s
  | Halt m s => Halt m s
  | Fault => Fault
  | Switch s c => Switch s (λ s', rbind (c s') k)
  end.

#[export] Instance M_ret : MRet M := λ A a s, Done a s.
#[export] Instance M_bind : MBind M := λ A B k m s, rbind (m s) k.

Definition fault {A} : M A := λ _, Fault.
Definition get : M kst := λ s, Done s s.
Definition modify (f : kst → kst) : M unit := λ s, Done tt (f s).
Definition gets {A} (f : kst → A) : M A := λ s, Done (f s) s.
(** Dereference of an object that must exist. *)
Definition deref {A} (f : kst → option A) : M A :=
  λ s, match f s with Some a => Done a s | None => Fault end.
Definition when (b : bool) (m : M unit) : M unit := if b then m else mret ().

(** Access to the fields of a thread. *)
Definition thd (t : tid) : M thread := deref (λ s, k_thd s !! t).
Definition upd_thd (t : tid) (f : thread → thread) : M unit :=
  th ← thd t; modify (λ s, set_k_thd (<[t := f th]> (k_thd s)) s).
Definition currp : M tid := gets k_cur.
Definition setcurrp (t : tid) : M unit := modify (set_k_cur t).

(** Signed counters: an increment or decrement that leaves [int32_t] is
    undefined behaviour in C. *)
Definition cnt_inc (c : Z) : M Z := if c =? INT32_MAX then fault else mret (c + 1).
Definition cnt_dec (c : Z) : M Z := if c =? INT32_MIN then fault else mret (c - 1).

(** ** Debug layer: chdebug.c *)

(** [chSysHalt]: the system stops with the reason recorded. *)
Definition chSysHalt {A} (reason : string) : M A := λ s, Halt reason s.

Definition chDbgCheck (c : bool) (func : string) : M unit :=
  if c then mret () else chSysHalt func.
Definition chDbgAssert (c : bool) (func : string) : M unit :=
  if c then mret () else chSysHalt func.

Definition dbg_enter_lock : M unit := modify (set_k_lock 1).
Definition dbg_leave_lock : M unit := modify (set_k_lock 0).

Definition dbg_check_disable : M unit :=
  s ← get; if negb (k_isr s =? 0) || negb (k_lock s =? 0) then chSysHalt "SV#1" else mret ().
Definition dbg_check_suspend : M unit :=
  s ← get; if negb (k_isr s =? 0) || negb (k_lock s =? 0) then chSysHalt "SV#2" else mret ().
Definition dbg_check_enable : M unit :=
  s ← get; if negb (k_isr s =? 0) || negb (k_lock s =? 0) then chSysHalt "SV#3" else mret ().
Definition dbg_check_lock : M unit :=
  s ← get;
  if negb (k_isr s =? 0) || negb (k_lock s =? 0) then chSysHalt "SV#4" else dbg_enter_lock.
Definition dbg_check_unlock : M unit :=
  s ← get;
  if negb (k_isr s =? 0) || (k_lock s <=? 0) then chSysHalt "SV#5" else dbg_leave_lock.
Definition dbg_check_lock_from_isr : M unit :=
  s ← get;
  if (k_isr s <=? 0) || negb (k_lock s =? 0) then chSysHalt "SV#6" else dbg_enter_lock.
Definition dbg_check_unlock_from_isr : M unit :=
  s ← get;
  if (k_isr s <=? 0) || (k_lock s <=? 0) then chSysHalt "SV#7" else dbg_leave_lock.
Definition dbg_check_enter_isr : M unit :=
  s ← get;
  if (k_isr s <? 0) || negb (k_lock s =? 0) then chSysHalt "SV#8"
  else modify (set_k_isr (k_isr s + 1)).
Definition dbg_check_leave_isr : M unit :=
  s ← get;
  if (k_isr s <=? 0) || negb (k_lock s =? 0) then chSysHalt "SV#9"
  else modify (set_k_isr (k_isr s - 1)).
Definition chDbgCheckClassI : M unit :=
  s ← get; if (k_isr s <? 0) || (k_lock s <=? 0) then chSysHalt "SV#10" else mret ().
Definition chDbgCheckClassS : M unit :=
  s ← get; if negb (k_isr s =? 0) || (k_lock s <=? 0) then chSysHalt "SV#11" else mret ().

Definition dbg_trace_init (tb : trace_buffer) : trace_buffer := mkTB 0 (tb_buffer tb).

Definition dbg_trace (otp : tid) : M unit :=
  th ← thd otp;
  modify (λ s,
    let tb := k_trace s in
    let e := mkSwc (k_now s) (Some (k_cur s)) (Some (p_u th)) (Some (p_state th)) in
    let p := S (tb_ptr tb) in
    set_k_trace
      (mkTB (if (CH_DBG_TRACE_BUFFER_SIZE <=? p)%nat then 0%nat else p)
            (<[tb_ptr tb := e]> (tb_buffer tb))) s).

(** ** Statistics: chstats.c *)

Definition stats_init : kernel_stats := mkKS 0 0 TM.chTMObjectInit TM.chTMObjectInit.

Definition stats_increase_irq : M unit :=
  modify (λ s, let k := k_stats s in
    set_k_stats (mkKS (u32 (n_irq k + 1)) (n_ctxswc k) (m_crit_thd k) (m_crit_isr k)) s).

(** The p_stats field of a thread, initialised with the thread. *)
Definition pstats (s : kst) (t : tid) : TM.time_measurement :=
  default TM.chTMObjectInit (k_pstats s !! t).

Definition stats_ctxswc (ntp otp : tid) : M unit :=
  modify (λ s, let k := k_stats s in
    set_k_stats (mkKS (n_irq k) (u32 (n_ctxswc k + 1)) (m_crit_thd k) (m_crit_isr k)) s) ;;
  modify (λ s,
    let '(o', n') := TM.chTMChainMeasurementToX (k_rt s) (pstats s otp) (pstats s ntp) in
    set_k_pstats (<[ntp := n']> (<[otp := o']> (k_pstats s))) s).

Definition stats_start_measure_crit_thd : M unit :=
  modify (λ s, let k := k_stats s in
    set_k_stats (mkKS (n_irq k) (n_ctxswc k)
      (TM.chTMStartMeasurementX (k_rt s) (m_crit_thd k)) (m_crit_isr k)) s).
Definition stats_stop_measure_crit_thd : M unit :=
  modify (λ s, let k := k_stats s in
    set_k_stats (mkKS (n_irq k) (n_ctxswc k)
      (TM.chTMStopMeasurementX (k_rt s) (k_tmoff s) (m_crit_thd k)) (m_crit_isr k)) s).
Definition stats_start_measure_crit_isr : M unit :=
  modify (λ s, let k := k_stats s in
    set_k_stats (mkKS (n_irq k) (n_ctxswc k)
      (m_crit_thd k) (TM.chTMStartMeasurementX (k_rt s) (m_crit_isr k))) s).
Definition stats_stop_measure_crit_isr : M unit :=
  modify (λ s, let k := k_stats s in
    set_k_stats (mkKS (n_irq k) (n_ctxswc k)
      (m_crit_thd k) (TM.chTMStopMeasurementX (k_rt s) (k_tmoff s) (m_crit_isr k))) s).
