(* ===== verification/ThreadQueues.v ===== *)
(** * Thread queues (os/rt/src/chschd.c, os/rt/include/chschd.h)

    The kernel keeps waiting threads in intrusive circular lists whose links
    are the [p_next] and [p_prev] fields of the threads and of the queue
    headers.  [PtrQueue] translates the list operations as the source writes
    them, on a store of links; [Queues] gives the same operations on a map from
    queue headers to lists of threads, which the rest of the development uses.
    The refinement theorems show that every pointer operation implements its
    list operation on all queues of the system at once. *)

From S2P Require Import Prelude TimeMeas Kernel.

(** ** Operations on lists *)

Module Queues.

Abbreviation qstore := (gmap qref (list tid)) (only parsing).

Definition qof (Q : qstore) (q : qref) : list tid := default [] (Q !! q).

Definition queue_init (q : qref) (Q : qstore) : qstore := <[q := []]> Q.
Definition queue_isempty (q : qref) (Q : qstore) : bool :=
  match qof Q q with [] => true | _ => false end.
Definition queue_notempty (q : qref) (Q : qstore) : bool := negb (queue_isempty q Q).

(** Behind the threads whose priority is not lower: the loop
    [do cp = cp->p_next while (cp != tqp && cp->p_prio >= tp->p_prio)]. *)
Definition queue_prio_insert (prio : tid → Z) (tp : tid) (q : qref) (Q : qstore) : qstore :=
  <[q := insert_span (λ c, prio tp <=? prio c) tp (qof Q q)]> Q.

(** The variant of chSchDoRescheduleAhead: ahead of the equal priorities. *)
Definition queue_prio_insert_ahead (prio : tid → Z) (tp : tid) (q : qref) (Q : qstore) : qstore :=
  <[q := insert_span (λ c, prio tp <? prio c) tp (qof Q q)]> Q.

Definition queue_insert (tp : tid) (q : qref) (Q : qstore) : qstore :=
  <[q := qof Q q ++ [tp]]> Q.

Definition queue_fifo_remove (q : qref) (Q : qstore) : option (tid * qstore) :=
  match qof Q q with [] => None | t :: l => Some (t, <[q := l]> Q) end.

Definition queue_lifo_remove (q : qref) (Q : qstore) : option (tid * qstore) :=
  match reverse (qof Q q) with [] => None | t :: l => Some (t, <[q := reverse l]> Q) end.

(** [queue_dequeue] does not name the queue: the thread leaves the queue it is
    linked in. *)
Definition queued (tp : tid) (Q : qstore) : bool :=
  existsb (λ ql : qref * list tid, bool_decide (tp ∈ ql.2)) (map_to_list Q).
Definition queue_dequeue (tp : tid) (Q : qstore) : option qstore :=
  if queued tp Q then Some (filter (λ t, t ≠ tp) <$> Q) else None.

(** [threads_list_t] is a stack. *)
Definition list_insert (tp : tid) (q : qref) (Q : qstore) : qstore := <[q := tp :: qof Q q]> Q.
Definition list_remove (q : qref) (Q : qstore) : option (tid * qstore) :=
  match qof Q q with [] => None | t :: l => Some (t, <[q := l]> Q) end.

Lemma qof_insert Q q l : qof (<[q := l]> Q) q = l.
Proof. unfold qof. by rewrite lookup_insert_eq. Qed.

Lemma qof_insert_ne Q q q' l : q ≠ q' → qof (<[q := l]> Q) q' = qof Q q'.
Proof. intros. unfold qof. by rewrite lookup_insert_ne. Qed.

Lemma qof_filter Q tp q : qof (filter (λ t, t ≠ tp) <$> Q) q = filter (λ t, t ≠ tp) (qof Q q).
Proof. unfold qof. rewrite lookup_fmap. by destruct (Q !! q). Qed.

Lemma queued_spec tp Q : queued tp Q = true ↔ ∃ q, tp ∈ qof Q q.
Proof.
  unfold queued, qof. rewrite existsb_exists. split.
  - intros ([q l] & Hin%list_elem_of_In & Hb%bool_decide_eq_true). exists q.
    apply elem_of_map_to_list in Hin. by rewrite Hin.
  - intros [q Hq]. destruct (Q !! q) as [l|] eqn:E; simpl in Hq; [|set_solver].
    exists (q, l). split; [|by apply bool_decide_eq_true].
    apply list_elem_of_In. by apply elem_of_map_to_list.
Qed.

End Queues.

(** ** Operations on links *)

Module PtrQueue.

(** A link points to a thread or to a queue header (cast to [thread_t *]). *)
Inductive node := NH (q : qref) | NT (t : tid).

#[export] Instance node_eq_dec : EqDecision node.
Proof. solve_decision. Defined.
#[export] Instance node_countable : Countable node.
Proof.
  refine (inj_countable' (λ n, match n with NH q => inl q | NT t => inr t end)
    (λ x, match x with inl q => NH q | inr t => NT t end) _).
  by intros [].
Defined.

(** The [p_next], [p_prev] and [p_prio] fields of all nodes.  Of the headers
    only the ready list has a priority, [r_prio]. *)
Record mem := mkMem { m_nxt : gmap node node; m_prv : gmap node node; m_prio : gmap node Z }.

Definition wr_nxt (x y : node) (h : mem) : mem := mkMem (<[x := y]> (m_nxt h)) (m_prv h) (m_prio h).
Definition wr_prv (x y : node) (h : mem) : mem := mkMem (m_nxt h) (<[x := y]> (m_prv h)) (m_prio h).

Definition ptr_queue_init (tqp : qref) (h : mem) : mem :=
  wr_prv (NH tqp) (NH tqp) (wr_nxt (NH tqp) (NH tqp) h).

Definition ptr_queue_isempty (tqp : qref) (h : mem) : option bool :=
  n ← m_nxt h !! NH tqp; Some (bool_decide (n = NH tqp)).

Definition ptr_queue_notempty (tqp : qref) (h : mem) : option bool :=
  n ← m_nxt h !! NH tqp; Some (bool_decide (n ≠ NH tqp)).

(** The four assignments of an insertion of [tp] on [cp->p_prev]. *)
Definition insert_before (tp : tid) (cp : node) (h : mem) : option mem :=
  let h1 := wr_nxt (NT tp) cp h in
  pv ← m_prv h1 !! cp;
  let h2 := wr_prv (NT tp) pv h1 in
  tpv ← m_prv h2 !! NT tp;
  let h3 := wr_nxt tpv (NT tp) h2 in
  Some (wr_prv cp (NT tp) h3).

(** [do cp = cp->p_next; while (test(cp));] with a bound on the iterations. *)
Fixpoint scan (fuel : nat) (test : node → option bool) (h : mem) (cp : node) : option node :=
  match fuel with
  | O => None
  | S fuel =>
      cp' ← m_nxt h !! cp;
      b ← test cp';
      if (b : bool) then scan fuel test h cp' else Some cp'
  end.

(** [(cp != tqp) && (cp->p_prio >= tp->p_prio)] *)
Definition prio_test (tqp : qref) (prio : Z) (h : mem) (cp : node) : option bool :=
  if decide (cp = NH tqp) then Some false
  else p ← m_prio h !! cp; Some (prio <=? p).

Definition ptr_queue_prio_insert (fuel : nat) (tp : tid) (tqp : qref) (h : mem) : option mem :=
  prio ← m_prio h !! NT tp;
  cp ← scan fuel (prio_test tqp prio h) h (NH tqp);
  insert_before tp cp h.

Definition ptr_queue_insert (tp : tid) (tqp : qref) (h : mem) : option mem :=
  let h1 := wr_nxt (NT tp) (NH tqp) h in
  pv ← m_prv h1 !! NH tqp;
  let h2 := wr_prv (NT tp) pv h1 in
  tpv ← m_prv h2 !! NT tp;
  let h3 := wr_nxt tpv (NT tp) h2 in
  Some (wr_prv (NH tqp) (NT tp) h3).

Definition ptr_queue_fifo_remove (tqp : qref) (h : mem) : option (node * mem) :=
  tp ← m_nxt h !! NH tqp;
  tpn ← m_nxt h !! tp;
  let h1 := wr_nxt (NH tqp) tpn h in
  n ← m_nxt h1 !! NH tqp;
  Some (tp, wr_prv n (NH tqp) h1).

Definition ptr_queue_lifo_remove (tqp : qref) (h : mem) : option (node * mem) :=
  tp ← m_prv h !! NH tqp;
  tpp ← m_prv h !! tp;
  let h1 := wr_prv (NH tqp) tpp h in
  p ← m_prv h1 !! NH tqp;
  Some (tp, wr_nxt p (NH tqp) h1).

Definition ptr_queue_dequeue (tp : tid) (h : mem) : option (tid * mem) :=
  pv ← m_prv h !! NT tp;
  nx ← m_nxt h !! NT tp;
  let h1 := wr_nxt pv nx h in
  nx1 ← m_nxt h1 !! NT tp;
  pv1 ← m_prv h1 !! NT tp;
  Some (tp, wr_prv nx1 pv1 h1).

(** The search and insertion of chSchReadyI: the test has no end-of-queue
    condition, the header's own priority [NOPRIO] ends the search. *)
Definition ready_insert (fuel : nat) (tp : tid) (h : mem) : option mem :=
  prio ← m_prio h !! NT tp;
  cp ← scan fuel (λ cp, p ← m_prio h !! cp; Some (prio <=? p)) h (NH QReady);
  insert_before tp cp h.

(** The same in chSchDoRescheduleAhead, with [cp->p_prio > otp->p_prio]. *)
Definition ready_insert_ahead (fuel : nat) (otp : tid) (h : mem) : option mem :=
  prio ← m_prio h !! NT otp;
  cp ← scan fuel (λ cp, p ← m_prio h !! cp; Some (prio <? p)) h (NH QReady);
  insert_before otp cp h.

(** *** The representation predicate *)

Definition linked (h : mem) (x y : node) : Prop := m_nxt h !! x = Some y ∧ m_prv h !! y = Some x.

Fixpoint chain (h : mem) (L : list node) : Prop :=
  match L with
  | x :: ((y :: _) as L') => linked h x y ∧ chain h L'
  | _ => True
  end.

Definition ring (h : mem) (q : qref) (l : list tid) : Prop :=
  chain h (NH q :: (NT <$> l) ++ [NH q]).

(** All queues of a store are represented, a thread is in at most one of them
    and only once, and the priorities are stored. *)
Record rep (h : mem) (prio : tid → Z) (Q : gmap qref (list tid)) : Prop := {
  rep_ring : ∀ q l, Q !! q = Some l → ring h q l;
  rep_nodup : ∀ q l, Q !! q = Some l → NoDup l;
  rep_disj : ∀ q1 q2 l1 l2 t, Q !! q1 = Some l1 → Q !! q2 = Some l2 → t ∈ l1 → t ∈ l2 → q1 = q2;
  rep_prio : ∀ q l t, Q !! q = Some l → t ∈ l → m_prio h !! NT t = Some (prio t);
  rep_rprio : m_prio h !! NH QReady = Some NOPRIO
}.

Lemma chain_mid h A x B : chain h (A ++ x :: B) ↔ chain h (A ++ [x]) ∧ chain h (x :: B).
Proof.
  induction A as [|a A IH]; [simpl; tauto|].
  destruct A as [|a' A]; simpl in *; [destruct B; simpl; tauto|]. tauto.
Qed.

(** A chain does not read the link out of its last node nor the one into its
    first node. *)
Lemma chain_frame h h' L :
  (∀ n, n ∈ removelast L → m_nxt h' !! n = m_nxt h !! n) →
  (∀ n, n ∈ tail L → m_prv h' !! n = m_prv h !! n) →
  chain h L → chain h' L.
Proof.
  induction L as [|x [|y L] IH]; intros Hn Hp; [done|done|].
  intros [[Hl Hr] HL]. split; [split|].
  - rewrite Hn; [done|]. simpl. set_solver.
  - rewrite Hp; [done|]. simpl. set_solver.
  - apply IH; [|intros; apply Hp; simpl; set_solver|done].
    intros. apply Hn. simpl. set_solver.
Qed.

Lemma removelast_mid {A} (a : list A) x y b :
  removelast (a ++ x :: y :: b) = a ++ x :: removelast (y :: b).
Proof. by rewrite removelast_app. Qed.

Lemma tail_mid {A} (a : list A) x b : tail (a ++ x :: b) = tail (a ++ [x]) ++ b.
Proof. destruct a; simpl; [done|]. by rewrite <-app_assoc. Qed.

(** Linking [x] between two adjacent nodes. *)
Lemma chain_insert h A pv cp B x :
  chain h (A ++ pv :: cp :: B) →
  NoDup (removelast (A ++ pv :: cp :: B)) → NoDup (tail (A ++ pv :: cp :: B)) →
  x ∉ A ++ pv :: cp :: B →
  chain (mkMem (<[pv := x]> (<[x := cp]> (m_nxt h)))
               (<[cp := x]> (<[x := pv]> (m_prv h))) (m_prio h))
        (A ++ pv :: x :: cp :: B).
Proof.
  rewrite removelast_mid, tail_mid, !NoDup_app, !NoDup_cons.
  intros Hc (HA & HA2 & Hpv & _) (HT & HT2 & Hcp & _) Hx.
  apply chain_mid in Hc as [HcA [_ HcB]].
  assert (x ≠ pv ∧ x ≠ cp) as [? ?] by set_solver.
  apply chain_mid. split; [|split; [|split]].
  - apply (chain_frame h); [..|done]; simpl; intros n Hn.
    + rewrite removelast_last in Hn. rewrite !lookup_insert_ne; set_solver.
    + assert (n ∈ A ++ [pv]). { destruct A; simpl in *; set_solver. }
      rewrite !lookup_insert_ne; set_solver.
  - split; simpl; simplify_map_eq; done.
  - split; simpl; simplify_map_eq; done.
  - apply (chain_frame h); [..|done]; simpl; intros n Hn.
    + assert (n ∈ cp :: B).
      { clear -Hn. change (n ∈ removelast (cp :: B)) in Hn.
        rewrite (app_removelast_last cp (l := cp :: B)) by done. set_solver. }
      rewrite !lookup_insert_ne; set_solver.
    + rewrite !lookup_insert_ne; set_solver.
Qed.

(** Unlinking [x]. *)
Lemma chain_remove h A pv x nx B :
  chain h (A ++ pv :: x :: nx :: B) →
  NoDup (removelast (A ++ pv :: x :: nx :: B)) → NoDup (tail (A ++ pv :: x :: nx :: B)) →
  chain (mkMem (<[pv := nx]> (m_nxt h)) (<[nx := pv]> (m_prv h)) (m_prio h))
        (A ++ pv :: nx :: B).
Proof.
  rewrite removelast_mid, tail_mid, !NoDup_app.
  change (removelast (x :: nx :: B)) with (x :: removelast (nx :: B)).
  rewrite !NoDup_cons.
  intros Hc (HA & HA2 & Hpv & _) (HT & HT2 & Hx & Hnx & _).
  apply chain_mid in Hc as [HcA [_ [_ HcB]]].
  apply chain_mid. split; [|split; [|]].
  - apply (chain_frame h); [..|done]; simpl; intros n Hn.
    + rewrite removelast_last in Hn. rewrite lookup_insert_ne; set_solver.
    + rewrite lookup_insert_ne; set_solver.
  - split; simpl; simplify_map_eq; done.
  - apply (chain_frame h); [..|done]; simpl; intros n Hn.
    + rewrite lookup_insert_ne; [done|]. change (n ∈ removelast (nx :: B)) in Hn. set_solver.
    + rewrite lookup_insert_ne; set_solver.
Qed.

(** The nodes of a ring, in order, and the two link sequences. *)
Lemma ring_removelast q l : removelast (NH q :: (NT <$> l) ++ [NH q]) = NH q :: (NT <$> l).
Proof. by rewrite app_comm_cons, removelast_last. Qed.

Lemma ring_nodup q l :
  NoDup l →
  NoDup (removelast (NH q :: (NT <$> l) ++ [NH q])) ∧ NoDup (tail (NH q :: (NT <$> l) ++ [NH q])).
Proof.
  intros Hl. rewrite ring_removelast. simpl.
  assert (NoDup (NT <$> l)) by (apply NoDup_fmap; [intros ??; congruence|done]).
  rewrite <-Permutation_cons_append, NoDup_cons. set_solver.
Qed.

(** The nodes of a ring around the boundary of two parts of its queue. *)
Lemma ring_nodes_split q (a b : list tid) : ∃ A pv cp B,
  NH q :: (NT <$> (a ++ b)) ++ [NH q] = A ++ pv :: cp :: B ∧
  cp = default (NH q) (NT <$> head b) ∧ pv = default (NH q) (NT <$> last a) ∧
  (∀ x, NH q :: (NT <$> (a ++ x :: b)) ++ [NH q] = A ++ pv :: NT x :: cp :: B).
Proof.
  assert (∃ A pv, NH q :: (NT <$> a) = A ++ [pv] ∧ pv = default (NH q) (NT <$> last a))
    as (A & pv & HA & Hpv).
  { destruct a as [|x a _] using rev_ind; [by exists [], (NH q)|].
    exists (NH q :: (NT <$> a)), (NT x). rewrite last_snoc. simpl. by rewrite fmap_app. }
  assert (∃ cp B, (NT <$> b) ++ [NH q] = cp :: B ∧ cp = default (NH q) (NT <$> head b))
    as (cp & B & HB & Hcp).
  { destruct b as [|x b]; simpl; eauto. }
  exists A, pv, cp, B. split_and!; [|done|done|].
  - rewrite fmap_app, <-app_assoc, HB, app_comm_cons, HA, <-app_assoc. done.
  - intros x. rewrite fmap_app, <-app_assoc, fmap_cons. cbn [app].
    rewrite HB, app_comm_cons, HA, <-app_assoc. done.
Qed.

(** The search loop stops at the first thread that fails the test, or at the
    header, when its bound exceeds the length of the queue. *)
Lemma scan_spec test p h q l x fuel :
  chain h (x :: (NT <$> l) ++ [NH q]) →
  (∀ y, y ∈ l → test (NT y) = Some (p y)) → test (NH q) = Some false →
  (length l < fuel)%nat →
  scan fuel test h x = Some (default (NH q) (NT <$> head (span p l).2)).
Proof.
  revert x fuel. induction l as [|y l IH]; intros x [|fuel] Hc Ht Hq Hf; simpl in *; try lia.
  - destruct Hc as [[-> _] _]. simpl. by rewrite Hq.
  - destruct Hc as [[-> _] Hc]. simpl. rewrite Ht by set_solver. simpl.
    destruct (p y); simpl; [|done].
    rewrite (IH (NT y)); [|done|set_solver|done|lia]. by destruct (span p l).
Qed.

(** Nodes outside the ring of [q] before and after keep their links. *)
Definition same_outside (q : qref) (l l' : list tid) (h h' : mem) : Prop :=
  (∀ n, n ≠ NH q → (∀ t, n = NT t → t ∉ l ∧ t ∉ l') →
     m_nxt h' !! n = m_nxt h !! n ∧ m_prv h' !! n = m_prv h !! n) ∧ m_prio h' = m_prio h.

Lemma insert_before_spec h q a b t :
  ring h q (a ++ b) → NoDup (a ++ b) → t ∉ a ++ b →
  ∃ h', insert_before t (default (NH q) (NT <$> head b)) h = Some h' ∧
        ring h' q (a ++ t :: b) ∧ same_outside q (a ++ b) (a ++ t :: b) h h'.
Proof.
  intros Hr Hnd Ht.
  destruct (ring_nodes_split q a b) as (A & pv & cp & B & E & <- & Hpv & Ex).
  destruct (ring_nodup q _ Hnd) as [N1 N2]. unfold ring in *.
  assert (linked h pv cp) as [Hl1 Hl2].
  { rewrite E in Hr. by apply chain_mid in Hr as [_ [? _]]. }
  assert (NT t ∉ A ++ pv :: cp :: B) as Hx.
  { rewrite <-E, elem_of_cons, elem_of_app, list_elem_of_fmap. set_solver. }
  eexists. unfold insert_before. cbn [m_prv wr_nxt]. rewrite Hl2; cbn [mbind option_bind m_prv wr_prv wr_nxt].
  rewrite lookup_insert_eq; cbn [mbind option_bind m_prv m_nxt m_prio wr_prv wr_nxt].
  split; [reflexivity|]. rewrite Ex. rewrite E in Hr, N1, N2.
  split; [exact (chain_insert h A pv cp B (NT t) Hr N1 N2 Hx)|].
  split; [|done]. intros n Hnq Hn. cbn [m_nxt m_prv wr_nxt wr_prv].
  assert (n ∉ A ++ pv :: NT t :: cp :: B).
  { rewrite <-Ex, elem_of_cons, elem_of_app, list_elem_of_fmap. set_solver. }
  rewrite !lookup_insert_ne by set_solver. done.
Qed.

Lemma rep_update h h' prio Q q l l' :
  rep h prio Q → Q !! q = Some l → ring h' q l' → NoDup l' → same_outside q l l' h h' →
  (∀ t, t ∈ l' → t ∈ l ∨ ((∀ q1 l1, Q !! q1 = Some l1 → t ∉ l1) ∧ m_prio h !! NT t = Some (prio t))) →
  rep h' prio (<[q := l']> Q).
Proof.
  intros [R1 R2 R3 R4 R5] Hq Hr Hnd [Hs Hp] Hm. split.
  - intros q1 l1. destruct (decide (q1 = q)) as [->|Hne]; simplify_map_eq; [by intros [= <-]|].
    intros H1. apply (chain_frame h); [..|by apply R1]; intros n Hn.
    + rewrite ring_removelast, elem_of_cons, list_elem_of_fmap in Hn.
      apply Hs; [naive_solver|]. intros t ->. destruct Hn as [?|(?&[= <-]&Ht)]; [done|].
      split; [naive_solver|]. intros [?|[??]]%Hm; naive_solver.
    + simpl in Hn. rewrite elem_of_app, list_elem_of_fmap, list_elem_of_singleton in Hn.
      apply Hs; [naive_solver|]. intros t ->. destruct Hn as [(?&[= <-]&Ht)|?]; [|done].
      split; [naive_solver|]. intros [?|[??]]%Hm; naive_solver.
  - intros q1 l1. destruct (decide (q1 = q)) as [->|]; simplify_map_eq; naive_solver.
  - intros q1 q2 l1 l2 t. rewrite !lookup_insert.
    repeat case_decide; intros H1 H2 Ht1 Ht2; simplify_eq; try done.
    + destruct (Hm t Ht1) as [?|[??]]; naive_solver.
    + destruct (Hm t Ht2) as [?|[??]]; naive_solver.
    + naive_solver.
  - intros q1 l1 t. rewrite Hp, lookup_insert. case_decide; intros ? Ht; simplify_eq; [|naive_solver].
    destruct (Hm t Ht) as [?|[??]]; naive_solver.
  - by rewrite Hp.
Qed.

Section Refinement.
Context (h : mem) (prio : tid → Z) (Q : gmap qref (list tid)) (q : qref) (l : list tid).
Hypothesis Hrep : rep h prio Q.
Hypothesis Hq : Q !! q = Some l.

Let Hring : ring h q l := rep_ring _ _ _ Hrep q l Hq.
Let Hnd : NoDup l := rep_nodup _ _ _ Hrep q l Hq.

Lemma qof_q : Queues.qof Q q = l.
Proof using Hq. unfold Queues.qof. by rewrite Hq. Qed.

(** A thread that is in no queue and whose priority is stored. *)
Definition fresh (t : tid) : Prop :=
  (∀ q1 l1, Q !! q1 = Some l1 → t ∉ l1) ∧ m_prio h !! NT t = Some (prio t).

Lemma insert_at_refines t a b :
  l = a ++ b → fresh t →
  ∃ h', insert_before t (default (NH q) (NT <$> head b)) h = Some h' ∧
        rep h' prio (<[q := a ++ t :: b]> Q).
Proof using Hrep Hq Hring Hnd.
  intros -> Hf.
  assert (t ∉ a ++ b) as Ht by (by eapply Hf).
  destruct (insert_before_spec h q a b t Hring Hnd Ht) as (h' & E & Hr' & Hs).
  exists h'. split; [done|]. eapply rep_update; eauto.
  - apply NoDup_middle. split; done.
  - intros x [Hx|Hx]%elem_of_app; [set_solver|].
    apply elem_of_cons in Hx as [->|Hx]; [by right|set_solver].
Qed.

Lemma queue_insert_refines t :
  fresh t → ∃ h', ptr_queue_insert t q h = Some h' ∧ rep h' prio (Queues.queue_insert t q Q).
Proof using Hrep Hq Hring Hnd.
  intros Hf. unfold Queues.queue_insert. rewrite qof_q.
  apply (insert_at_refines t l []); [by rewrite app_nil_r|done].
Qed.

Lemma queue_prio_insert_refines t fuel :
  fresh t → (length l < fuel)%nat →
  ∃ h', ptr_queue_prio_insert fuel t q h = Some h' ∧
        rep h' prio (Queues.queue_prio_insert prio t q Q).
Proof using Hrep Hq Hring Hnd.
  intros Hf Hfuel. unfold Queues.queue_prio_insert, ptr_queue_prio_insert.
  rewrite qof_q, insert_span_eq, (proj2 Hf); cbn [mbind option_bind].
  rewrite (scan_spec _ (λ c, prio t <=? prio c) h q l (NH q)); [|done| | |done].
  - cbn [mbind option_bind]. by apply insert_at_refines; [rewrite span_app|].
  - intros y Hy. unfold prio_test. rewrite decide_False by done.
    by rewrite (rep_prio _ _ _ Hrep q l y Hq Hy).
  - unfold prio_test. by rewrite decide_True.
Qed.

(** The links around a thread of the queue, and the effect of redirecting
    them to each other. *)
Lemma remove_at_refines a x b :
  l = a ++ x :: b →
  let pv := default (NH q) (NT <$> last a) in
  let nx := default (NH q) (NT <$> head b) in
  linked h pv (NT x) ∧ linked h (NT x) nx ∧ pv ≠ NT x ∧ nx ≠ NT x ∧
  rep (mkMem (<[pv := nx]> (m_nxt h)) (<[nx := pv]> (m_prv h)) (m_prio h)) prio
      (<[q := a ++ b]> Q).
Proof using Hrep Hq Hring Hnd.
  intros El. destruct (ring_nodes_split q a b) as (A & pv & nx & B & E & Enx & Epv & Ex).
  rewrite <-Enx, <-Epv. cbv zeta.
  destruct (ring_nodup q _ Hnd) as [N1 N2].
  pose proof Hring as Hr. unfold ring in Hr.
  rewrite El in Hr, N1, N2. rewrite (Ex x) in Hr, N1, N2.
  pose proof Hr as Hr'. apply chain_mid in Hr' as [_ [L1 [L2 _]]].
  split_and!; [done|done| | |].
  - rewrite removelast_mid in N1. apply NoDup_app in N1 as (_ & _ & [N1 _]%NoDup_cons).
    simpl in N1. set_solver.
  - rewrite tail_mid in N2. apply NoDup_app in N2 as (_ & _ & [N2 _]%NoDup_cons). set_solver.
  - pose proof Hnd as Hnd'. rewrite El in Hnd'. apply NoDup_middle in Hnd' as [Hx Hab].
    eapply rep_update; [done|done| |done| |].
    + unfold ring. rewrite E. eapply chain_remove; eauto.
    + split; [|done]. intros n Hnq Hn.
      assert (n ∉ A ++ pv :: NT x :: nx :: B).
      { rewrite <-Ex, <-El, elem_of_cons, elem_of_app, list_elem_of_fmap. set_solver. }
      simpl. rewrite !lookup_insert_ne by set_solver. done.
    + intros t Ht. left. rewrite El. set_solver.
Qed.

Lemma ring_nil_isempty : l = [] → ptr_queue_isempty q h = Some true.
Proof using Hring.
  intros El. pose proof Hring as Hr. rewrite El in Hr. destruct Hr as [[Hn _] _].
  unfold ptr_queue_isempty. rewrite Hn. simpl. by rewrite bool_decide_true.
Qed.

Lemma queue_fifo_remove_refines :
  match Queues.queue_fifo_remove q Q with
  | Some (t, Q') => ∃ h', ptr_queue_fifo_remove q h = Some (NT t, h') ∧ rep h' prio Q'
  | None => ptr_queue_isempty q h = Some true
  end.
Proof using Hrep Hq Hring Hnd.
  unfold Queues.queue_fifo_remove. rewrite qof_q.
  assert (l = [] ∨ ∃ t l', l = t :: l') as [El|(t & l' & El)] by (destruct l; eauto).
  - rewrite El. by apply ring_nil_isempty.
  - rewrite El. destruct (remove_at_refines [] t l') as (L1 & L2 & Hne1 & Hne2 & Hr); [done|].
    simpl in *. eexists. unfold ptr_queue_fifo_remove.
    rewrite (proj1 L1); simpl. rewrite (proj1 L2); simpl. rewrite lookup_insert_eq; simpl.
    split; [reflexivity|]. exact Hr.
Qed.

Lemma queue_lifo_remove_refines :
  match Queues.queue_lifo_remove q Q with
  | Some (t, Q') => ∃ h', ptr_queue_lifo_remove q h = Some (NT t, h') ∧ rep h' prio Q'
  | None => ptr_queue_isempty q h = Some true
  end.
Proof using Hrep Hq Hring Hnd.
  unfold Queues.queue_lifo_remove. rewrite qof_q.
  assert (l = [] ∨ ∃ t l', l = l' ++ [t]) as [El|(t & l' & El)]
    by (destruct l using rev_ind; eauto).
  - rewrite El. by apply ring_nil_isempty.
  - rewrite El, reverse_snoc, reverse_involutive.
    destruct (remove_at_refines l' t []) as (L1 & L2 & Hne1 & Hne2 & Hr); [done|].
    simpl in *. rewrite app_nil_r in Hr. eexists. unfold ptr_queue_lifo_remove.
    rewrite (proj2 L2); simpl. rewrite (proj2 L1); simpl. rewrite lookup_insert_eq; simpl.
    split; [reflexivity|]. exact Hr.
Qed.

Lemma queue_dequeue_refines t :
  t ∈ l →
  ∃ h' Q', ptr_queue_dequeue t h = Some (t, h') ∧ Queues.queue_dequeue t Q = Some Q' ∧ rep h' prio Q'.
Proof using Hrep Hq Hring Hnd.
  intros Ht. apply list_elem_of_split in Ht as (a & b & El).
  destruct (remove_at_refines a t b El) as (L1 & L2 & Hne1 & Hne2 & Hr).
  unfold Queues.queue_dequeue.
  assert (Queues.queued t Q = true) as ->.
  { apply Queues.queued_spec. exists q. rewrite qof_q, El. set_solver. }
  assert (filter (λ t0, t0 ≠ t) <$> Q = <[q := a ++ b]> Q) as ->.
  { apply map_eq. intros q'. rewrite lookup_fmap, lookup_insert. case_decide as Hd.
    - subst q'. rewrite Hq. simpl. f_equal. pose proof Hnd as Hnd'.
      rewrite El in Hnd' |- *. by apply filter_ne_split.
    - destruct (Q !! q') as [l1|] eqn:E1; [|done]. simpl. f_equal.
      apply filter_ne_notin. intros Hx.
      apply Hd, (rep_disj _ _ _ Hrep q q' l l1 t); try done. rewrite El. set_solver. }
  eexists _, _. split; [|split; [reflexivity|exact Hr]].
  unfold ptr_queue_dequeue. rewrite (proj2 L1); simpl. rewrite (proj1 L2); simpl.
  rewrite lookup_insert_ne by done. rewrite (proj1 L2); simpl. rewrite (proj2 L1). reflexivity.
Qed.

Lemma queue_isempty_refines :
  ptr_queue_isempty q h = Some (Queues.queue_isempty q Q) ∧
  ptr_queue_notempty q h = Some (Queues.queue_notempty q Q).
Proof using Hrep Hq Hring.
  unfold ptr_queue_isempty, ptr_queue_notempty, Queues.queue_notempty, Queues.queue_isempty.
  rewrite qof_q. pose proof Hring as Hr. unfold ring in Hr. clear -Hr.
  destruct l as [|t l']; destruct Hr as [[-> _] _]; simpl; split; f_equal;
    (by apply bool_decide_eq_true) || (by apply bool_decide_eq_false; intros []) || reflexivity.
Qed.
End Refinement.

(** The searches of the scheduler stop at the header because its priority is
    [NOPRIO]: they need a thread of higher priority. *)
Section ReadyRefinement.
Context (h : mem) (prio : tid → Z) (Q : gmap qref (list tid)) (l : list tid) (t : tid) (fuel : nat).
Hypothesis Hrep : rep h prio Q.
Hypothesis Hq : Q !! QReady = Some l.
Hypothesis Hf : fresh h prio Q t.
Hypothesis Hfuel : (length l < fuel)%nat.

Lemma ready_scan (cmp : Z → Z → bool) :
  cmp (prio t) NOPRIO = false →
  ∃ h', (cp ← scan fuel (λ cp, p ← m_prio h !! cp; Some (cmp (prio t) p)) h (NH QReady);
         insert_before t cp h) = Some h' ∧
        rep h' prio (<[QReady := insert_span (λ c, cmp (prio t) (prio c)) t l]> Q).
Proof using Hrep Hq Hf Hfuel.
  intros Hc. rewrite insert_span_eq.
  rewrite (scan_spec _ (λ c, cmp (prio t) (prio c)) h QReady l); [| | | |done].
  - by eapply insert_at_refines; [done|done|rewrite span_app|].
  - by apply (rep_ring _ _ _ Hrep).
  - intros y Hy. by rewrite (rep_prio _ _ _ Hrep QReady l y Hq Hy).
  - rewrite (rep_rprio _ _ _ Hrep). simpl. by rewrite Hc.
Qed.

Lemma ready_insert_refines :
  NOPRIO < prio t →
  ∃ h', ready_insert fuel t h = Some h' ∧ rep h' prio (Queues.queue_prio_insert prio t QReady Q).
Proof using Hrep Hq Hf Hfuel.
  intros Hp. unfold ready_insert, Queues.queue_prio_insert.
  rewrite (proj2 Hf), (qof_q Q QReady l Hq). apply (ready_scan Z.leb). lia.
Qed.

Lemma ready_insert_ahead_refines :
  NOPRIO ≤ prio t →
  ∃ h', ready_insert_ahead fuel t h = Some h' ∧
        rep h' prio (Queues.queue_prio_insert_ahead prio t QReady Q).
Proof using Hrep Hq Hf Hfuel.
  intros Hp. unfold ready_insert_ahead, Queues.queue_prio_insert_ahead.
  rewrite (proj2 Hf), (qof_q Q QReady l Hq). apply (ready_scan Z.ltb). lia.
Qed.
End ReadyRefinement.


(** *** Sequences of operations *)

Inductive qop :=
  | OInsert (t : tid) (q : qref) | OPrio (t : tid) (q : qref)
  | OFifo (q : qref) | OLifo (q : qref) | ODequeue (t : tid)
  | OReady (t : tid) | OReadyAhead (t : tid).

(** The abstract meaning.  A thread is linked only when it is in no queue and
    its priority is above [NOPRIO], and only into an initialised queue; a
    removal needs a thread. *)
Definition exec_list (prio : tid → Z) (known : tid → bool) (o : qop) (Q : gmap qref (list tid)) :
    option (option tid * gmap qref (list tid)) :=
  let free t q := negb (Queues.queued t Q) && known t && (NOPRIO <? prio t)
                  && bool_decide (is_Some (Q !! q)) in
  match o with
  | OInsert t q => if free t q then Some (None, Queues.queue_insert t q Q) else None
  | OPrio t q => if free t q then Some (None, Queues.queue_prio_insert prio t q Q) else None
  | OFifo q => r ← Queues.queue_fifo_remove q Q; Some (Some r.1, r.2)
  | OLifo q => r ← Queues.queue_lifo_remove q Q; Some (Some r.1, r.2)
  | ODequeue t => Q' ← Queues.queue_dequeue t Q; Some (Some t, Q')
  | OReady t => if free t QReady then Some (None, Queues.queue_prio_insert prio t QReady Q) else None
  | OReadyAhead t =>
      if free t QReady then Some (None, Queues.queue_prio_insert_ahead prio t QReady Q) else None
  end.

(** The concrete meaning; every search is bounded by the number of nodes. *)
Definition exec_ptr (o : qop) (h : mem) : option (option node * mem) :=
  let fuel := S (size (m_prio h)) in
  match o with
  | OInsert t q => h' ← ptr_queue_insert t q h; Some (None, h')
  | OPrio t q => h' ← ptr_queue_prio_insert fuel t q h; Some (None, h')
  | OFifo q => r ← ptr_queue_fifo_remove q h; Some (Some r.1, r.2)
  | OLifo q => r ← ptr_queue_lifo_remove q h; Some (Some r.1, r.2)
  | ODequeue t => r ← ptr_queue_dequeue t h; Some (Some (NT r.1), r.2)
  | OReady t => h' ← ready_insert fuel t h; Some (None, h')
  | OReadyAhead t => h' ← ready_insert_ahead fuel t h; Some (None, h')
  end.

Fixpoint run_list prio known (os : list qop) Q : option (list (option tid) * gmap qref (list tid)) :=
  match os with
  | [] => Some ([], Q)
  | o :: os => r ← exec_list prio known o Q; rs ← run_list prio known os r.2;
               Some (r.1 :: rs.1, rs.2)
  end.

Fixpoint run_ptr (os : list qop) h : option (list (option node) * mem) :=
  match os with
  | [] => Some ([], h)
  | o :: os => r ← exec_ptr o h; rs ← run_ptr os r.2; Some (r.1 :: rs.1, rs.2)
  end.

(** A queue is never longer than the number of nodes. *)
Lemma rep_fuel h prio Q q l : rep h prio Q → Q !! q = Some l → (length l < S (size (m_prio h)))%nat.
Proof.
  intros Hrep Hq. rewrite <-(length_fmap NT l), <-size_dom.
  rewrite <-(size_list_to_set (C := gset node)).
  - apply Nat.lt_succ_r, subseteq_size. intros n.
    rewrite elem_of_list_to_set, list_elem_of_fmap, elem_of_dom. intros (t & -> & Ht).
    eexists. by eapply rep_prio.
  - apply NoDup_fmap; [intros ??; congruence|]. by eapply rep_nodup.
Qed.

(** The threads whose priority field the store holds. *)
Definition stored (h : mem) (prio : tid → Z) (t : tid) : bool :=
  bool_decide (m_prio h !! NT t = Some (prio t)).

Lemma free_fresh h prio Q t q known :
  rep h prio Q → (∀ t, known t = true → stored h prio t = true) →
  negb (Queues.queued t Q) && known t && (NOPRIO <? prio t) && bool_decide (is_Some (Q !! q)) = true →
  fresh h prio Q t ∧ NOPRIO < prio t ∧ ∃ l, Q !! q = Some l.
Proof.
  intros Hrep Hk. rewrite !andb_true_iff, negb_true_iff.
  intros [[[Hq Hkt] Hp%Z.ltb_lt] [l Hl]%bool_decide_eq_true].
  split_and!; [split|done|by exists l].
  - intros q1 l1 H1 Ht. apply not_true_iff_false in Hq. apply Hq, Queues.queued_spec.
    exists q1. unfold Queues.qof. by rewrite H1.
  - by apply Hk, bool_decide_eq_true in Hkt.
Qed.

Lemma m_prio_exec o h r h' : exec_ptr o h = Some (r, h') → m_prio h' = m_prio h.
Proof.
  destruct o; simpl;
    unfold ptr_queue_insert, ptr_queue_prio_insert, ptr_queue_fifo_remove, ptr_queue_lifo_remove, ptr_queue_dequeue,
      ready_insert, ready_insert_ahead, insert_before;
    intros E; repeat (apply bind_Some in E as (? & ? & E)); simplify_eq;
    repeat match goal with
    | H : mbind _ _ = Some _ |- _ => apply bind_Some in H as (? & ? & H)
    end; by simplify_eq/=.
Qed.

Lemma exec_refines prio known o h Q r Q' :
  rep h prio Q → (∀ t, known t = true → stored h prio t = true) →
  exec_list prio known o Q = Some (r, Q') →
  ∃ h', exec_ptr o h = Some (option_map NT r, h') ∧ rep h' prio Q'.
Proof.
  intros Hrep Hk. destruct o as [t q|t q|q|q|t|t|t]; cbn [exec_list exec_ptr].
  - case_match eqn:Hg; [|done]. intros [= <- <-].
    destruct (free_fresh _ _ _ _ _ _ Hrep Hk Hg) as (Hf & Hp & l & Hl).
    destruct (queue_insert_refines h prio Q q l Hrep Hl t Hf) as (h' & -> & ?). eauto.
  - case_match eqn:Hg; [|done]. intros [= <- <-].
    destruct (free_fresh _ _ _ _ _ _ Hrep Hk Hg) as (Hf & Hp & l & Hl).
    destruct (queue_prio_insert_refines h prio Q q l Hrep Hl t _ Hf (rep_fuel _ _ _ _ _ Hrep Hl))
      as (h' & -> & ?). eauto.
  - intros ([t Q1] & E & [= <- <-])%bind_Some.
    destruct (Q !! q) as [l|] eqn:Hl; [|unfold Queues.queue_fifo_remove, Queues.qof in E; by rewrite Hl in E].
    pose proof (queue_fifo_remove_refines h prio Q q l Hrep Hl) as H. rewrite E in H.
    destruct H as (h' & -> & ?). eauto.
  - intros ([t Q1] & E & [= <- <-])%bind_Some.
    destruct (Q !! q) as [l|] eqn:Hl; [|unfold Queues.queue_lifo_remove, Queues.qof in E; by rewrite Hl in E].
    pose proof (queue_lifo_remove_refines h prio Q q l Hrep Hl) as H. rewrite E in H.
    destruct H as (h' & -> & ?). eauto.
  - intros (Q1 & E & [= <- <-])%bind_Some.
    assert (Queues.queued t Q = true) as [q Hq]%Queues.queued_spec.
    { unfold Queues.queue_dequeue in E. by destruct (Queues.queued t Q). }
    unfold Queues.qof in Hq. destruct (Q !! q) as [l|] eqn:Hl; simpl in Hq; [|set_solver].
    destruct (queue_dequeue_refines h prio Q q l Hrep Hl t Hq) as (h' & Q2 & -> & E2 & ?).
    rewrite E in E2. injection E2 as <-. eauto.
  - case_match eqn:Hg; [|done]. intros [= <- <-].
    destruct (free_fresh _ _ _ _ _ _ Hrep Hk Hg) as (Hf & Hp & l & Hl).
    destruct (ready_insert_refines h prio Q l t _ Hrep Hl Hf (rep_fuel _ _ _ _ _ Hrep Hl) Hp)
      as (h' & -> & ?). eauto.
  - case_match eqn:Hg; [|done]. intros [= <- <-].
    destruct (free_fresh _ _ _ _ _ _ Hrep Hk Hg) as (Hf & Hp & l & Hl).
    destruct (ready_insert_ahead_refines h prio Q l t _ Hrep Hl Hf (rep_fuel _ _ _ _ _ Hrep Hl)
      (Z.lt_le_incl _ _ Hp)) as (h' & -> & ?). eauto.
Qed.

(** C28.  Every sequence of queue operations that is legal on lists (a thread is
    linked only when it is in no queue) runs to completion on the intrusive
    doubly linked lists of chschd.c/chschd.h, returns the same threads, and
    leaves links that represent the list result: the search loops terminate,
    all other queues keep their links, order is FIFO or by priority exactly as
    on lists. *)
Theorem queue_ops_refine prio known os h Q rs Q' :
  rep h prio Q → (∀ t, known t = true → stored h prio t = true) →
  run_list prio known os Q = Some (rs, Q') →
  ∃ h', run_ptr os h = Some (map (option_map NT) rs, h') ∧ rep h' prio Q'.
Proof.
  revert h Q rs. induction os as [|o os IH]; intros h Q rs Hrep Hk; cbn [run_list run_ptr].
  - intros [= <- <-]. eauto.
  - intros ([r Q1] & E1 & ([rs1 Q2] & E2 & [= <- <-])%bind_Some)%bind_Some.
    destruct (exec_refines _ _ _ _ _ _ _ Hrep Hk E1) as (h1 & X1 & Hrep1).
    destruct (IH h1 Q1 rs1 Hrep1) as (h2 & X2 & Hrep2); [|done|].
    + unfold stored in *. by rewrite (m_prio_exec _ _ _ _ X1).
    + exists h2. rewrite X1. simpl. rewrite X2. done.
Qed.

End PtrQueue.
