(* ===== verification/Sys.v ===== *)
(** * Critical sections, context switch and queue access

    os/rt/include/chsys.h (lock, unlock, interrupt prologue and epilogue, the
    context switch), the accessors of the thread queues of chschd.h as
    computations on the kernel state, and the predicates used to state results:
    [post] for a computation that may switch context. *)

From S2P Require Import Prelude TimeMeas Kernel ThreadQueues.

(** ** Queue accessors *)

Definition qof (s : kst) (q : qref) : list tid := Queues.qof (k_q s) q.

(** The priority field of a thread. *)
Definition prio_of (s : kst) (t : tid) : Z :=
  match k_thd s !! t with Some th => p_prio th | None => NOPRIO end.

Definition queue_init (q : qref) : M unit :=
  modify (λ s, set_k_q (Queues.queue_init q (k_q s)) s).
Definition queue_isempty (q : qref) : M bool := gets (λ s, Queues.queue_isempty q (k_q s)).
Definition queue_notempty (q : qref) : M bool := gets (λ s, Queues.queue_notempty q (k_q s)).
Definition queue_insert (tp : tid) (q : qref) : M unit :=
  modify (λ s, set_k_q (Queues.queue_insert tp q (k_q s)) s).
Definition queue_prio_insert (tp : tid) (q : qref) : M unit :=
  modify (λ s, set_k_q (Queues.queue_prio_insert (prio_of s) tp q (k_q s)) s).
(** Removing from an empty queue would return the header as a thread. *)
Definition queue_fifo_remove (q : qref) : M tid :=
  r ← deref (λ s, Queues.queue_fifo_remove q (k_q s));
  modify (set_k_q r.2) ;; mret r.1.
Definition queue_lifo_remove (q : qref) : M tid :=
  r ← deref (λ s, Queues.queue_lifo_remove q (k_q s));
  modify (set_k_q r.2) ;; mret r.1.
Definition queue_dequeue (tp : tid) : M tid :=
  Q ← deref (λ s, Queues.queue_dequeue tp (k_q s)); modify (set_k_q Q) ;; mret tp.
Definition list_init (q : qref) : M unit := queue_init q.
Definition list_notempty (q : qref) : M bool := gets (λ s, Queues.queue_notempty q (k_q s)).
Definition list_insert (tp : tid) (q : qref) : M unit :=
  modify (λ s, set_k_q (Queues.list_insert tp q (k_q s)) s).
Definition list_remove (q : qref) : M tid :=
  r ← deref (λ s, Queues.list_remove q (k_q s)); modify (set_k_q r.2) ;; mret r.1.

(** [firstprio]: of an empty ready queue it is the header's [r_prio]. *)
Definition firstprio_of (s : kst) : Z :=
  match qof s QReady with [] => NOPRIO | t :: _ => prio_of s t end.

(** ** Critical sections (chsys.h) *)

Definition chSysDisable : M unit := dbg_check_disable.
Definition chSysSuspend : M unit := dbg_check_suspend.
Definition chSysEnable : M unit := dbg_check_enable.

Definition chSysLock : M unit := stats_start_measure_crit_thd ;; dbg_check_lock.

Definition chSysUnlock : M unit :=
  dbg_check_unlock ;;
  stats_stop_measure_crit_thd ;;
  s ← get;
  chDbgAssert (match qof s QReady with
               | [] => true
               | t :: _ => prio_of s t <=? prio_of s (k_cur s)
               end) "chSysUnlock".

Definition chSysLockFromISR : M unit := stats_start_measure_crit_isr ;; dbg_check_lock_from_isr.
Definition chSysUnlockFromISR : M unit := dbg_check_unlock_from_isr ;; stats_stop_measure_crit_isr.

(** [CH_IRQ_PROLOGUE] and the debug part of [CH_IRQ_EPILOGUE]. *)
Definition CH_IRQ_PROLOGUE : M unit := stats_increase_irq ;; dbg_check_enter_isr.
Definition CH_IRQ_EPILOGUE : M unit := dbg_check_leave_isr.

(** [chSysSwitch]: trace, statistics, then the port switches stacks; the calling
    function continues when its thread is current again. *)
Definition port_switch : M unit := λ s, Switch s (λ s', Done tt s').
Definition chSysSwitch (ntp otp : tid) : M unit :=
  dbg_trace otp ;; stats_ctxswc ntp otp ;; port_switch.

(** ** Reasoning about computations *)

(** [post I J r Q]: the computation result [r] neither halts nor faults; at
    every context switch [I] holds; resumed in any state that satisfies [J] it
    goes on; it ends in [Q]. *)
Fixpoint post {A} (I J : kst → Prop) (r : res A) (Q : A → kst → Prop) : Prop :=
  match r with
  | Done a s => Q a s
  | Halt _ _ | Fault => False
  | Switch s k => I s ∧ ∀ s', J s' → post I J (k s') Q
  end.

Lemma post_bind {A B} I J (r : res A) (k : A → kst → res B) Q :
  post I J r (λ a s, post I J (k a s) Q) → post I J (rbind r k) Q.
Proof. induction r as [a s|m s| |s c IH]; simpl; naive_solver. Qed.

Lemma post_mono {A} (I J : kst → Prop) (r : res A) (Q Q' : A → kst → Prop) :
  (∀ a s, Q a s → Q' a s) → post I J r Q → post I J r Q'.
Proof. induction r; simpl; naive_solver. Qed.

(** Thread context holding the kernel lock (S-class), and any context holding
    it (I-class). *)
Definition in_S (s : kst) : Prop := k_isr s = 0 ∧ 0 < k_lock s.
Definition in_I (s : kst) : Prop := 0 ≤ k_isr s ∧ 0 < k_lock s.
Definition unlocked (s : kst) : Prop := k_isr s = 0 ∧ k_lock s = 0.

Lemma in_S_I s : in_S s → in_I s.
Proof. unfold in_S, in_I. lia. Qed.

(** Elimination of the monad: one equation per primitive. *)
Lemma bind_eq {A B} (m : M A) (k : A → M B) s : (m ≫= k) s = rbind (m s) k.
Proof. done. Qed.

Lemma classI_ok s : in_I s → chDbgCheckClassI s = Done () s.
Proof.
  intros [? ?]. unfold chDbgCheckClassI. rewrite bind_eq. simpl.
  destruct (Z.ltb_spec (k_isr s) 0), (Z.leb_spec (k_lock s) 0); simpl; try lia. done.
Qed.

Lemma classS_ok s : in_S s → chDbgCheckClassS s = Done () s.
Proof.
  intros [E ?]. unfold chDbgCheckClassS. rewrite bind_eq. simpl. rewrite E. simpl.
  destruct (Z.leb_spec (k_lock s) 0); [lia|done].
Qed.

Lemma thd_ok s t th : k_thd s !! t = Some th → thd t s = Done th s.
Proof. intros E. unfold thd, deref. by rewrite E. Qed.

Lemma upd_thd_ok s t th f :
  k_thd s !! t = Some th → upd_thd t f s = Done () (set_k_thd (<[t := f th]> (k_thd s)) s).
Proof. intros E. unfold upd_thd. rewrite bind_eq, (thd_ok _ _ _ E). done. Qed.

Lemma rbind_done {A B} (a : A) s (k : A → kst → res B) : rbind (Done a s) k = k a s.
Proof. done. Qed.
Lemma rbind_switch {A B} s (c : kst → res A) (k : A → kst → res B) :
  rbind (Switch s c) k = Switch s (λ s', rbind (c s') k).
Proof. done. Qed.
Lemma rbind_halt {A B} m s (k : A → kst → res B) : rbind (Halt m s) k = Halt m s.
Proof. done. Qed.
Lemma mret_eq {A} (a : A) s : (mret a : M A) s = Done a s.
Proof. done. Qed.
Lemma get_eq s : get s = Done s s.
Proof. done. Qed.
Lemma gets_eq {A} (f : kst → A) s : gets f s = Done (f s) s.
Proof. done. Qed.
Lemma modify_eq f s : modify f s = Done () (f s).
Proof. done. Qed.
Lemma currp_eq s : currp s = Done (k_cur s) s.
Proof. done. Qed.
Lemma setcurrp_eq t s : setcurrp t s = Done () (set_k_cur t s).
Proof. done. Qed.
Lemma dbg_assert_true func s : chDbgAssert true func s = Done () s.
Proof. done. Qed.
Lemma dbg_check_true func s : chDbgCheck true func s = Done () s.
Proof. done. Qed.
Lemma when_true m s : when true m s = m s.
Proof. done. Qed.
Lemma when_false m s : when false m s = Done () s.
Proof. done. Qed.

Lemma rbind_done_inv {A B} (r : res A) (f : A → kst → res B) b s' :
  rbind r f = Done b s' → ∃ a s, r = Done a s ∧ f a s = Done b s'.
Proof. destruct r; simpl; naive_solver. Qed.

Create Rewrite HintDb kmon.
#[export] Hint Rewrite @bind_eq @rbind_done @rbind_switch @rbind_halt @mret_eq get_eq @gets_eq
  modify_eq currp_eq setcurrp_eq dbg_assert_true dbg_check_true when_true when_false : kmon.

(** Runs the monadic plumbing of a computation as far as it goes. *)
Ltac mgo := repeat (progress (autorewrite with kmon; cbn beta iota zeta)).

(** Shows the state the next computation runs in as [x]. *)
Ltac norm_state x := match goal with |- context [rbind (?m ?y) _] => change (m y) with (m x) end.

(** A context switch always reaches the port with the trace and the statistics
    updated; everything else of the state is unchanged. *)
Definition switch_st (ntp otp : tid) (th : thread) (s : kst) : kst :=
  let tb := k_trace s in
  let e := mkSwc (k_now s) (Some (k_cur s)) (Some (p_u th)) (Some (p_state th)) in
  let p := S (tb_ptr tb) in
  let s1 := set_k_trace
      (mkTB (if (CH_DBG_TRACE_BUFFER_SIZE <=? p)%nat then 0%nat else p)
            (<[tb_ptr tb := e]> (tb_buffer tb))) s in
  let k := k_stats s1 in
  let s2 := set_k_stats (mkKS (n_irq k) (u32 (n_ctxswc k + 1)) (m_crit_thd k) (m_crit_isr k)) s1 in
  let '(o', n') := TM.chTMChainMeasurementToX (k_rt s2) (pstats s2 otp) (pstats s2 ntp) in
  set_k_pstats (<[ntp := n']> (<[otp := o']> (k_pstats s2))) s2.

Lemma chSysSwitch_ok ntp otp th s :
  k_thd s !! otp = Some th →
  chSysSwitch ntp otp s = Switch (switch_st ntp otp th s) (λ s', Done () s').
Proof.
  intros E. unfold chSysSwitch, dbg_trace, stats_ctxswc.
  rewrite bind_eq, bind_eq, (thd_ok _ _ _ E). done.
Qed.

(** Entering and leaving a critical section changes only the lock counter and
    the statistics. *)
Definition same_data (s s' : kst) : Prop :=
  k_cur s' = k_cur s ∧ k_thd s' = k_thd s ∧ k_q s' = k_q s ∧ k_reg s' = k_reg s ∧
  k_vt s' = k_vt s ∧ k_vtlast s' = k_vtlast s ∧ k_now s' = k_now s ∧ k_alarm s' = k_alarm s ∧
  k_sem s' = k_sem s ∧ k_mtx s' = k_mtx s ∧ k_tref s' = k_tref s ∧ k_mbox s' = k_mbox s ∧
  k_ioq s' = k_ioq s ∧ k_evl s' = k_evl s ∧ k_evs s' = k_evs s ∧
  k_mem s' = k_mem s.

Definition in_ISR (s : kst) : Prop := 0 < k_isr s ∧ k_lock s = 0.

Lemma chSysLockFromISR_ok s :
  in_ISR s → ∃ s', chSysLockFromISR s = Done () s' ∧ in_I s' ∧ k_isr s' = k_isr s ∧ same_data s s'.
Proof.
  intros [Hi Hl]. unfold chSysLockFromISR, dbg_check_lock_from_isr, stats_start_measure_crit_isr. mgo.
  cbn [k_isr k_lock set_k_stats]. rewrite Hl. destruct (Z.leb_spec (k_isr s) 0); [lia|].
  rewrite Z.eqb_refl. cbn [negb orb]. eexists. split; [done|]. split; [split; simpl; lia|]. done.
Qed.

Lemma chSysUnlockFromISR_ok s :
  in_I s → 0 < k_isr s →
  ∃ s', chSysUnlockFromISR s = Done () s' ∧ in_ISR s' ∧ k_isr s' = k_isr s ∧ same_data s s'.
Proof.
  intros [_ Hl] Hi. unfold chSysUnlockFromISR, dbg_check_unlock_from_isr, stats_stop_measure_crit_isr. mgo.
  destruct (Z.leb_spec (k_isr s) 0), (Z.leb_spec (k_lock s) 0); try lia. cbn [negb orb].
  eexists. split; [done|]. split; [split; simpl; lia|]. done.
Qed.

Lemma irq_prologue_ok s : unlocked s → ∃ s', CH_IRQ_PROLOGUE s = Done () s' ∧ in_ISR s' ∧ k_isr s' = 1 ∧ same_data s s'.
Proof.
  intros [Hi Hl]. unfold CH_IRQ_PROLOGUE, stats_increase_irq, dbg_check_enter_isr. mgo.
  cbn [k_isr k_lock set_k_stats]. rewrite Hi, Hl. cbn [Z.ltb Z.compare Z.eqb negb orb]. mgo.
  eexists. split; [done|]. split_and!; try done.
Qed.

Lemma irq_epilogue_ok s : in_ISR s → k_isr s = 1 → ∃ s', CH_IRQ_EPILOGUE s = Done () s' ∧ unlocked s' ∧ same_data s s'.
Proof.
  intros [Hi Hl] Hi1. unfold CH_IRQ_EPILOGUE, dbg_check_leave_isr. mgo. rewrite Hi1, Hl. cbn [Z.leb Z.compare Z.eqb negb orb]. mgo.
  eexists. split; [done|]. split_and!; try done; simpl; lia.
Qed.

Lemma same_data_refl s : same_data s s.
Proof. by unfold same_data. Qed.

Lemma same_data_tr s1 s2 s3 : same_data s1 s2 → same_data s2 s3 → same_data s1 s3.
Proof. unfold same_data. intuition congruence. Qed.

(** Inside an interrupt handler, in a critical section or not. *)
Definition isr_locked (s : kst) : Prop := k_isr s = 1 ∧ 0 < k_lock s.
Definition isr_open (s : kst) : Prop := k_isr s = 1 ∧ k_lock s = 0.
