(* ===== verification/VTimers.v ===== *)
(** * Virtual timers (os/rt/src/chvt.c, os/rt/include/chvt.h)

    The tickless variant ([CH_CFG_ST_TIMEDELTA] = 2): armed timers are kept in
    a delta list relative to [vt_lasttime]; the port's free-running counter
    [k_now] is the time base and [k_alarm] the programmed compare value.  The
    list header, whose [vt_delta] is the largest value, ends every search.  A
    timer is armed exactly while it is linked ([vt_func] is cleared when it is
    unlinked), so being armed is being in [k_vt]. *)

From S2P Require Import Prelude TimeMeas Kernel ThreadQueues Sys.

(** ** Time conversion macros *)

Definition S2ST (sec : Z) : Z := u32 (u32 sec * CH_CFG_ST_FREQUENCY).
Definition MS2ST (msec : Z) : Z := u32 (u32 (u32 (u32 msec * CH_CFG_ST_FREQUENCY) + 999) / 1000).
Definition US2ST (usec : Z) : Z :=
  u32 (u32 (u32 (u32 usec * CH_CFG_ST_FREQUENCY) + 999999) / 1000000).
Definition ST2S (n : Z) : Z := u32 (u32 (n + CH_CFG_ST_FREQUENCY) - 1) / CH_CFG_ST_FREQUENCY.
Definition ST2MS (n : Z) : Z := u32 (u32 (u32 (n * 1000) + CH_CFG_ST_FREQUENCY) - 1) / CH_CFG_ST_FREQUENCY.
Definition ST2US (n : Z) : Z := u32 (u32 (u32 (n * 1000000) + CH_CFG_ST_FREQUENCY) - 1) / CH_CFG_ST_FREQUENCY.

(** Milliseconds to ticks and back: below seven minutes the conversion is
    exact (ten ticks a millisecond), it rounds up and never shortens a delay,
    and the inverse macro gives the argument back. *)
Theorem ms_ticks_roundtrip ms :
  0 ≤ ms → (ms + 1) * CH_CFG_ST_FREQUENCY < 2 ^ 32 →
  MS2ST ms = 10 * ms ∧ ST2MS (MS2ST ms) = ms ∧
  (∀ us, 0 ≤ us → us * CH_CFG_ST_FREQUENCY + 999999 < 2 ^ 32 → us ≤ 100 * US2ST us < us + 100).
Proof.
  unfold MS2ST, ST2MS, US2ST, CH_CFG_ST_FREQUENCY. intros H0 H1.
  assert (u32 (u32 (u32 (u32 ms * 10000) + 999) / 1000) = 10 * ms) as E.
  { rewrite (u32_small ms), (u32_small (ms * 10000)), (u32_small (_ + 999)) by (unfold is_u32; lia).
    replace (ms * 10000 + 999) with (999 + 10 * ms * 1000) by lia. rewrite Z_div_plus by lia.
    apply u32_small. unfold is_u32. simpl. lia. }
  rewrite E. split; [done|]. split.
  - rewrite (u32_small (10 * ms * 1000)), (u32_small (_ + 10000)), (u32_small (_ - 1)) by (unfold is_u32; lia).
    replace (10 * ms * 1000 + 10000 - 1) with (9999 + ms * 10000) by lia. rewrite Z_div_plus by lia. done.
  - intros us Hu1 Hu2. rewrite (u32_small us), (u32_small (us * 10000)), (u32_small (_ + 999999)) by (unfold is_u32; lia).
    pose proof (Z.div_mod (us * 10000 + 999999) 1000000 ltac:(lia)).
    pose proof (Z.mod_pos_bound (us * 10000 + 999999) 1000000 ltac:(lia)).
    rewrite u32_small by (unfold is_u32; lia). lia.
Qed.

(** Beyond that the 32-bit product wraps: a delay of 429497 milliseconds
    becomes three ticks. *)
Theorem MS2ST_wraps : MS2ST 429497 = 3 ∧ S2ST 429497 = 2704.
Proof. vm_compute. done. Qed.

(** ** The delta list *)

Definition set_vt_delta (d : Z) (v : vtimer) : vtimer := mkVT (vt_ref v) d (vt_func v).

(** The search of chVTDoSetI, [while (p->vt_delta < delta)], and the insertion
    in front of [p]; the header has the largest delta. *)
Fixpoint vt_insert (r : vtref) (fn : vtfunc) (delta : Z) (l : list vtimer) : list vtimer :=
  match l with
  | [] => [mkVT r delta fn]
  | p :: l' =>
      if vt_delta p <? delta then p :: vt_insert r fn (delta - vt_delta p) l'
      else mkVT r delta fn :: set_vt_delta (vt_delta p - delta) p :: l'
  end.

(** Unlinking: the delta goes to the next timer, if there is one. *)
Fixpoint vt_unlink (r : vtref) (l : list vtimer) : list vtimer :=
  match l with
  | [] => []
  | p :: l' =>
      if decide (vt_ref p = r) then
        match l' with
        | [] => []
        | n :: l'' => set_vt_delta (u32 (vt_delta n + vt_delta p)) n :: l''
        end
      else p :: vt_unlink r l'
  end.

Definition vt_armed (r : vtref) (l : list vtimer) : bool :=
  existsb (λ p, bool_decide (vt_ref p = r)) l.

(** ** Operations *)

Definition vt_init (s : kst) : kst := set_k_vtlast 0 (set_k_vt [] s).

Definition chVTGetSystemTimeX : M Z := gets k_now.
Definition chVTGetSystemTime : M Z :=
  chSysLock ;; systime ← chVTGetSystemTimeX; chSysUnlock ;; mret systime.
Definition chVTTimeElapsedSinceX (start : Z) : M Z :=
  now ← chVTGetSystemTimeX; mret (u32 (now - start)).
Definition chVTIsTimeWithinX (time start end_ : Z) : bool := u32 (time - start) <? u32 (end_ - start).
Definition chVTIsSystemTimeWithinX (start end_ : Z) : M bool :=
  now ← chVTGetSystemTimeX; mret (chVTIsTimeWithinX now start end_).
Definition chVTIsSystemTimeWithin (start end_ : Z) : M bool :=
  now ← chVTGetSystemTime; mret (chVTIsTimeWithinX now start end_).

Definition chVTIsArmedI (vtp : vtref) : M bool :=
  chDbgCheckClassI ;; gets (λ s, vt_armed vtp (k_vt s)).
Definition chVTIsArmed (vtp : vtref) : M bool :=
  chSysLock ;; b ← chVTIsArmedI vtp; chSysUnlock ;; mret b.

Definition port_timer_set_alarm (t : Z) : M unit := modify (set_k_alarm (Some t)).
Definition port_timer_start_alarm (t : Z) : M unit := modify (set_k_alarm (Some t)).
Definition port_timer_stop_alarm : M unit := modify (set_k_alarm None).

(** [delay], raised to the minimum the timer hardware can schedule. *)
Definition clamp (delay : Z) : Z :=
  if delay <? CH_CFG_ST_TIMEDELTA then CH_CFG_ST_TIMEDELTA else delay.

(** Setting a timer that is linked already would corrupt the list. *)
Definition chVTDoSetI (vtp : vtref) (delay : Z) (fn : vtfunc) : M unit :=
  chDbgCheckClassI ;;
  chDbgCheck (negb (delay =? TIME_IMMEDIATE)) "chVTDoSetI" ;;
  now ← chVTGetSystemTimeX;
  let delay := clamp delay in
  s ← get;
  if vt_armed vtp (k_vt s) then fault else
  match k_vt s with
  | [] =>
      modify (λ s, set_k_vt [mkVT vtp delay fn] (set_k_vtlast now s)) ;;
      port_timer_start_alarm (u32 (now + delay))
  | p :: _ =>
      let delta := u32 (now + delay - k_vtlast s) in
      when (delta <? vt_delta p) (port_timer_set_alarm (u32 (k_vtlast s + delta))) ;;
      modify (λ s, set_k_vt (vt_insert vtp fn delta (k_vt s)) s)
  end.

Definition chVTDoResetI (vtp : vtref) : M unit :=
  chDbgCheckClassI ;;
  s ← get;
  chDbgAssert (vt_armed vtp (k_vt s)) "chVTDoResetI" ;;
  match k_vt s with
  | [] => fault
  | p :: _ =>
      if decide (vt_ref p ≠ vtp) then modify (set_k_vt (vt_unlink vtp (k_vt s)))
      else
        let l := vt_unlink vtp (k_vt s) in
        modify (set_k_vt l) ;;
        match l with
        | [] => port_timer_stop_alarm
        | n :: _ =>
            now ← chVTGetSystemTimeX;
            let nowdelta := u32 (now - k_vtlast s) in
            if vt_delta n <=? nowdelta then mret ()
            else
              let delta := clamp (vt_delta n - nowdelta) in
              port_timer_set_alarm (u32 (k_vtlast s + nowdelta + delta))
        end
  end.

Definition chVTResetI (vtp : vtref) : M unit :=
  b ← chVTIsArmedI vtp; when b (chVTDoResetI vtp).
Definition chVTReset (vtp : vtref) : M unit := chSysLock ;; chVTResetI vtp ;; chSysUnlock.
Definition chVTSetI (vtp : vtref) (delay : Z) (fn : vtfunc) : M unit :=
  chVTResetI vtp ;; chVTDoSetI vtp delay fn.
Definition chVTSet (vtp : vtref) (delay : Z) (fn : vtfunc) : M unit :=
  chSysLock ;; chVTSetI vtp delay fn ;; chSysUnlock.

(** The expiry loop of chVTDoTickI, run by the timer interrupt.  [run] executes
    a callback; it runs outside the critical section.  The header as first
    element ends the loop, its delta being the largest value; if [now] is that
    far from [vt_lasttime] the header would be taken for a timer. *)
Fixpoint vt_expire (run : vtfunc → M unit) (fuel : nat) : M unit :=
  match fuel with
  | O => fault
  | S fuel =>
      s ← get;
      now ← chVTGetSystemTimeX;
      match k_vt s with
      | [] => if UINT32_MAX <=? u32 (now - k_vtlast s) then fault else mret ()
      | vtp :: l =>
          if vt_delta vtp <=? u32 (now - k_vtlast s) then
            modify (λ s, set_k_vt l (set_k_vtlast (u32 (k_vtlast s + vt_delta vtp)) s)) ;;
            when (match l with [] => true | _ => false end) port_timer_stop_alarm ;;
            chSysUnlockFromISR ;;
            run (vt_func vtp) ;;
            chSysLockFromISR ;;
            vt_expire run fuel
          else mret ()
      end
  end.

Definition chVTDoTickI (run : vtfunc → M unit) (fuel : nat) : M unit :=
  chDbgCheckClassI ;;
  vt_expire run fuel ;;
  s ← get;
  match k_vt s with
  | [] => mret ()
  | vtp :: _ =>
      now ← chVTGetSystemTimeX;
      let delta := clamp (u32 (k_vtlast s + vt_delta vtp - now)) in
      port_timer_set_alarm (u32 (now + delta)) ;;
      now' ← chVTGetSystemTimeX;
      chDbgAssert (u32 (now' - k_vtlast s) <=? u32 (now + delta - k_vtlast s)) "chVTDoTickI"
  end.

(** ** Frame facts for the scheduler: timers change only the timer fields *)

Definition same_core (s s' : kst) : Prop :=
  k_cur s' = k_cur s ∧ k_thd s' = k_thd s ∧ k_q s' = k_q s ∧ k_sem s' = k_sem s ∧
  k_mtx s' = k_mtx s ∧ k_tref s' = k_tref s ∧ k_mbox s' = k_mbox s ∧ k_ioq s' = k_ioq s ∧
  k_evl s' = k_evl s ∧ k_evs s' = k_evs s ∧ k_isr s' = k_isr s ∧ k_lock s' = k_lock s ∧
  k_now s' = k_now s ∧ k_reg s' = k_reg s ∧ k_mem s' = k_mem s.

#[export] Instance same_core_refl : Reflexive same_core.
Proof. intros s. unfold same_core. done. Qed.
#[export] Instance same_core_trans : Transitive same_core.
Proof. intros s1 s2 s3. unfold same_core. intuition congruence. Qed.

Lemma vt_insert_refs r fn d l : vt_ref <$> vt_insert r fn d l ≡ₚ r :: (vt_ref <$> l).
Proof.
  revert d. induction l as [|p l IH]; intros d; simpl; [done|].
  case_match; simpl; [|done]. rewrite IH. by constructor.
Qed.

Lemma vt_armed_spec r l : vt_armed r l = true ↔ r ∈ vt_ref <$> l.
Proof.
  unfold vt_armed. rewrite existsb_exists, list_elem_of_fmap. split.
  - intros (p & Hp%list_elem_of_In & Hb%bool_decide_eq_true). eauto.
  - intros (p & -> & Hp). exists p. split; [by apply list_elem_of_In|]. by apply bool_decide_eq_true.
Qed.

Lemma chVTDoSetI_ok r d fn s :
  in_I s → d ≠ TIME_IMMEDIATE → vt_armed r (k_vt s) = false →
  ∃ s', chVTDoSetI r d fn s = Done () s' ∧ same_core s s' ∧
        (vt_ref <$> k_vt s') ≡ₚ r :: (vt_ref <$> k_vt s).
Proof.
  intros HI Hd Ha. unfold chVTDoSetI, chVTGetSystemTimeX. mgo. rewrite (classI_ok s HI). mgo.
  destruct (Z.eqb_spec d TIME_IMMEDIATE); [done|]. cbn [negb]. mgo. rewrite Ha.
  destruct (k_vt s) as [|p l] eqn:E; unfold port_timer_start_alarm, port_timer_set_alarm.
  - mgo. eexists. split; [done|]. split; [done|]. done.
  - mgo. match goal with |- context [when ?b _] => destruct b end; mgo; eexists;
      (split; [done|]; split; [done|]); simpl; rewrite E; apply vt_insert_refs.
Qed.

Lemma chVTDoResetI_ok r s :
  in_I s → vt_armed r (k_vt s) = true → ∃ s', chVTDoResetI r s = Done () s' ∧ same_core s s'.
Proof.
  intros HI Ha. unfold chVTDoResetI, chVTGetSystemTimeX, port_timer_stop_alarm, port_timer_set_alarm.
  mgo. rewrite (classI_ok s HI). mgo. rewrite Ha. mgo.
  destruct (k_vt s) as [|p l] eqn:E; [done|]. case_decide; mgo.
  - eexists. split; [done|]. done.
  - destruct (vt_unlink r (p :: l)) as [|n l'] eqn:E'; [eexists; split; [done|]; done|].
    mgo. case_match; mgo; eexists; (split; [done|]); done.
Qed.

(** ** Deadlines *)

(** The absolute expiration time of every timer of a delta list whose first
    delta counts from [b]. *)
Fixpoint deadlines (b : Z) (l : list vtimer) : list (vtref * Z) :=
  match l with
  | [] => []
  | p :: l => (vt_ref p, b + vt_delta p) :: deadlines (b + vt_delta p) l
  end.

Definition deltas_ok (l : list vtimer) : Prop := Forall (λ p, 0 ≤ vt_delta p) l.
Definition total (l : list vtimer) : Z := foldr (λ p a, vt_delta p + a) 0 l.

Lemma total_nonneg l : deltas_ok l → 0 ≤ total l.
Proof. induction 1; simpl; lia. Qed.

Lemma total_app l k : total (l ++ k) = total l + total k.
Proof. induction l; simpl; lia. Qed.

(** The list is kept in the order of the deadlines. *)
Lemma deadlines_sorted l : ∀ b, deltas_ok l → StronglySorted (λ x y, x.2 ≤ y.2) (deadlines b l) ∧
  Forall (λ x : vtref * Z, b ≤ x.2) (deadlines b l).
Proof.
  induction l as [|p l IH]; intros b Hd; simpl; [split; constructor|].
  apply Forall_cons in Hd as [Hp Hd]. destruct (IH (b + vt_delta p) Hd) as [H1 H2]. split.
  - constructor; [done|]. eapply Forall_impl; [exact H2|]. by intros [].
  - constructor; simpl; [lia|]. eapply Forall_impl; [exact H2|]. intros []; simpl. lia.
Qed.

Lemma vt_insert_deadlines r fn l : ∀ b d,
  deltas_ok l → 0 ≤ d →
  deadlines b (vt_insert r fn d l) ≡ₚ (r, b + d) :: deadlines b l ∧ deltas_ok (vt_insert r fn d l).
Proof.
  induction l as [|p l IH]; intros b d Hl Hd; simpl.
  - split; [done|]. by repeat constructor.
  - apply Forall_cons in Hl as [Hp Hl]. destruct (Z.ltb_spec (vt_delta p) d) as [Hlt|Hge].
    + destruct (IH (b + vt_delta p) (d - vt_delta p) Hl) as [H1 H2]; [lia|]. split.
      * simpl. rewrite H1. replace (b + vt_delta p + (d - vt_delta p)) with (b + d) by lia. constructor.
      * by constructor.
    + split.
      * simpl. replace (b + d + (vt_delta p - d)) with (b + vt_delta p) by lia. done.
      * constructor; [done|]. constructor; [simpl; lia|done].
Qed.

(** Arming a timer: as long as the time since [vt_lasttime] plus the delay
    fits in a [systime_t], the new timer expires at the current time plus the
    delay (raised to the hardware minimum), every other timer keeps its
    deadline, and the list stays ordered. *)
Theorem chVTDoSetI_correct s r delay fn :
  in_I s → vt_armed r (k_vt s) = false → deltas_ok (k_vt s) → 0 < delay →
  is_u32 (k_now s) → is_u32 (k_vtlast s) →
  u32 (k_now s - k_vtlast s) + clamp delay < 2 ^ 32 →
  ∃ s' d, chVTDoSetI r delay fn s = Done () s' ∧ same_core s s' ∧ deltas_ok (k_vt s') ∧
    deadlines (k_vtlast s') (k_vt s') ≡ₚ (r, d) :: deadlines (k_vtlast s) (k_vt s) ∧
    u32 d = u32 (k_now s + clamp delay) ∧
    StronglySorted (λ x y, x.2 ≤ y.2) (deadlines (k_vtlast s') (k_vt s')).
Proof.
  intros HI Ha Hd Hdel Hn Hv Hfit.
  assert (0 < clamp delay) as Hc by (unfold clamp, CH_CFG_ST_TIMEDELTA; case_match; lia).
  unfold chVTDoSetI, chVTGetSystemTimeX. mgo. rewrite (classI_ok s HI). mgo.
  destruct (Z.eqb_spec delay TIME_IMMEDIATE) as [->|_]; [unfold TIME_IMMEDIATE in *; lia|]. cbn [negb]. mgo. rewrite Ha.
  destruct (k_vt s) as [|p l] eqn:E; unfold port_timer_start_alarm, port_timer_set_alarm.
  - mgo. eexists _, (k_now s + clamp delay). split; [done|]. split_and!; try done; simpl.
    + constructor; [simpl; lia|constructor].
    + constructor; [constructor|constructor].
  - set (delta := u32 (k_now s + clamp delay - k_vtlast s)).
    assert (delta = u32 (k_now s - k_vtlast s) + clamp delay) as Edelta.
    { unfold delta. replace (k_now s + clamp delay - k_vtlast s) with (k_now s - k_vtlast s + clamp delay) by lia.
      rewrite <-u32_add_l. pose proof (u32_range (k_now s - k_vtlast s)) as [? ?]. apply u32_small. unfold is_u32. lia. }
    pose proof (u32_range (k_now s - k_vtlast s)) as [Hu1 Hu2].
    destruct (vt_insert_deadlines r fn (p :: l) (k_vtlast s) delta Hd) as [H1 H2]; [lia|].
    mgo. exists (set_k_vt (vt_insert r fn delta (p :: l))
      (if delta <? vt_delta p then set_k_alarm (Some (u32 (k_vtlast s + delta))) s else s)), (k_vtlast s + delta).
    split_and!.
    + fold delta. destruct (delta <? vt_delta p); mgo; simpl; rewrite E; done.
    + by destruct (delta <? vt_delta p).
    + done.
    + simpl. by destruct (delta <? vt_delta p).
    + unfold delta. rewrite u32_add_r. f_equal. lia.
    + simpl. destruct (delta <? vt_delta p); by apply deadlines_sorted.
Qed.

Lemma vt_unlink_deadlines r l : ∀ b,
  deltas_ok l → total l < 2 ^ 32 → NoDup (vt_ref <$> l) →
  deadlines b (vt_unlink r l) = filter (λ x, x.1 ≠ r) (deadlines b l) ∧ deltas_ok (vt_unlink r l).
Proof.
  induction l as [|p l IH]; intros b Hd Ht Hn; [done|]. apply Forall_cons in Hd as [Hp Hd].
  simpl in Ht. apply NoDup_cons in Hn as [Hpn Hn]. pose proof (total_nonneg l Hd).
  cbn [vt_unlink deadlines]. destruct (decide (vt_ref p = r)) as [Hr|Hr].
  - rewrite filter_cons_False by naive_solver. subst r.
    assert (∀ c, filter (λ x : vtref * Z, x.1 ≠ vt_ref p) (deadlines c l) = deadlines c l) as Hf.
    { clear -Hpn. induction l as [|q l IH]; intros c; [done|]. cbn [deadlines].
      rewrite filter_cons_True by (simpl; set_solver). f_equal. apply IH. set_solver. }
    rewrite Hf. destruct l as [|n l]; [split; [done|constructor]|].
    apply Forall_cons in Hd as [Hq Hd]. simpl in Ht. pose proof (total_nonneg l Hd).
    cbn [deadlines set_vt_delta vt_delta vt_ref]. rewrite u32_small by (unfold is_u32; lia).
    replace (b + (vt_delta n + vt_delta p)) with (b + vt_delta p + vt_delta n) by lia.
    split; [done|]. constructor; [simpl; lia|done].
  - rewrite filter_cons_True by done. destruct (IH (b + vt_delta p) Hd) as [H1 H2]; [lia|done|].
    cbn [deadlines]. rewrite H1. split; [done|]. by constructor.
Qed.

(** Disarming a timer removes it and no other: every other timer keeps its
    deadline, and the system's other state does not change. *)
Theorem chVTDoResetI_correct s r :
  in_I s → vt_armed r (k_vt s) = true → deltas_ok (k_vt s) → total (k_vt s) < 2 ^ 32 →
  NoDup (vt_ref <$> k_vt s) →
  ∃ s', chVTDoResetI r s = Done () s' ∧ same_core s s' ∧ k_vtlast s' = k_vtlast s ∧ deltas_ok (k_vt s') ∧
    deadlines (k_vtlast s') (k_vt s') = filter (λ x, x.1 ≠ r) (deadlines (k_vtlast s) (k_vt s)) ∧
    vt_armed r (k_vt s') = false.
Proof.
  intros HI Ha Hd Ht Hn. destruct (vt_unlink_deadlines r (k_vt s) (k_vtlast s) Hd Ht Hn) as [H1 H2].
  assert (∃ s', chVTDoResetI r s = Done () s' ∧ same_core s s' ∧ k_vtlast s' = k_vtlast s ∧
            k_vt s' = vt_unlink r (k_vt s)) as (s' & E & Hc & Ev & El).
  { unfold chVTDoResetI, chVTGetSystemTimeX, port_timer_stop_alarm, port_timer_set_alarm.
    mgo. rewrite (classI_ok s HI). mgo. rewrite Ha. mgo.
    destruct (k_vt s) as [|p l] eqn:E; [done|]. case_decide; mgo.
    - eexists. split; [done|]. done.
    - destruct (vt_unlink r (p :: l)) as [|n l'] eqn:E'; [eexists; split; [done|]; done|].
      mgo. case_match; mgo; eexists; (split; [done|]); done. }
  exists s'. rewrite Ev, El. split_and!; try done.
  destruct (vt_armed r (vt_unlink r (k_vt s))) eqn:Er; [|done]. exfalso.
  apply vt_armed_spec in Er.
  assert (∀ b l, vt_ref <$> l = fst <$> deadlines b l) as Hf.
  { intros b l. revert b. induction l as [|p l IH]; intros b; simpl; [done|]. by rewrite <-IH. }
  rewrite (Hf (k_vtlast s)), H1 in Er. apply list_elem_of_fmap in Er as (x & -> & Hx).
  by apply list_elem_of_filter in Hx as [].
Qed.

(** ** Expiration *)

(** The armed timers with their callbacks and the ticks left from now, from a base
    [b] ticks from now. *)
Definition entry : Type := vtref * vtfunc * Z.
Fixpoint entries (b : Z) (l : list vtimer) : list entry :=
  match l with
  | [] => []
  | p :: l => (vt_ref p, vt_func p, b + vt_delta p) :: entries (b + vt_delta p) l
  end.
Definition elapsed (s : kst) : Z := u32 (k_now s - k_vtlast s).
Definition ticks_left (s : kst) : list entry := entries (- elapsed s) (k_vt s).
Definition due : list entry → list entry := filter (λ x, x.2 ≤ 0).
Definition future : list entry → list entry := filter (λ x, 0 < x.2).

Lemma due_yes x l : x.2 ≤ 0 → due (x :: l) = x :: due l.
Proof. intros. unfold due. by rewrite filter_cons_True. Qed.
Lemma due_no x l : 0 < x.2 → due (x :: l) = due l.
Proof. intros. unfold due. by rewrite filter_cons_False by lia. Qed.
Lemma future_yes x l : 0 < x.2 → future (x :: l) = x :: future l.
Proof. intros. unfold future. by rewrite filter_cons_True. Qed.
Lemma future_no x l : x.2 ≤ 0 → future (x :: l) = future l.
Proof. intros. unfold future. by rewrite filter_cons_False by lia. Qed.

(** A delta list in range, with distinct timers whose callbacks are theirs; the
    base of the list is more than [T] ticks less than a round of the counter
    behind. *)
Record vt_wf (owns : vtref → vtfunc → Prop) (T : Z) (s : kst) : Prop := {
  vw_deltas : deltas_ok (k_vt s);
  vw_total : total (k_vt s) < 2 ^ 32;
  vw_last : is_u32 (k_vtlast s);
  vw_now : is_u32 (k_now s);
  vw_elapsed : elapsed s < UINT32_MAX - T;
  vw_refs : NoDup (vt_ref <$> k_vt s);
  vw_owns : Forall (λ p, owns (vt_ref p) (vt_func p)) (k_vt s)
}.

Lemma elapsed_range s : 0 ≤ elapsed s < 2 ^ 32.
Proof. apply u32_range. Qed.

Lemma entries_none b l : deltas_ok l → 0 < b → due (entries b l) = [].
Proof.
  revert b. induction l as [|p l IH]; intros b Hd Hb; [done|]. apply Forall_cons in Hd as [Hp Hd]. simpl.
  rewrite due_no by (simpl; lia). apply IH; [done|lia].
Qed.

Lemma future_all l : due l = [] → future l = l.
Proof.
  induction l as [|x l IH]; [done|]. destruct (decide (x.2 ≤ 0)).
  - by rewrite due_yes.
  - rewrite due_no, future_yes by lia. intros E. f_equal. by apply IH.
Qed.

Lemma vt_insert_total r fn l : ∀ d, deltas_ok l → 0 ≤ d → total (vt_insert r fn d l) = Z.max d (total l).
Proof.
  induction l as [|p l IH]; intros d Hd Hp; simpl; [lia|]. apply Forall_cons in Hd as [Hq Hd]. pose proof (total_nonneg l Hd).
  destruct (Z.ltb_spec (vt_delta p) d); simpl; [rewrite IH by (done || lia); lia|lia].
Qed.
Lemma vt_insert_owns (owns : vtref → vtfunc → Prop) r fn l : ∀ d, owns r fn → Forall (λ p, owns (vt_ref p) (vt_func p)) l →
  Forall (λ p, owns (vt_ref p) (vt_func p)) (vt_insert r fn d l).
Proof.
  induction l as [|p l IH]; intros d Hr Hl; simpl; [by repeat constructor|]. apply Forall_cons in Hl as [Hp Hl].
  destruct (_ <? _); [constructor; [done|by apply IH]|by repeat constructor].
Qed.

(** A timer set in the future leaves those that are due alone. *)
Lemma vt_insert_entries r fn l : ∀ b d, deltas_ok l → 0 ≤ d → 0 < b + d →
  due (entries b (vt_insert r fn d l)) = due (entries b l) ∧
  future (entries b (vt_insert r fn d l)) ≡ₚ (r, fn, b + d) :: future (entries b l).
Proof.
  induction l as [|p l IH]; intros b d Hl Hd Hb; simpl.
  - by rewrite due_no, future_yes by (simpl; lia).
  - apply Forall_cons in Hl as [Hp Hl]. destruct (Z.ltb_spec (vt_delta p) d) as [Hlt|Hge].
    + destruct (IH (b + vt_delta p) (d - vt_delta p) Hl) as [H1 H2]; [lia|lia|]. simpl.
      replace (b + vt_delta p + (d - vt_delta p)) with (b + d) in H2 by lia.
      destruct (decide (b + vt_delta p ≤ 0)).
      * rewrite !due_yes, !(future_no (vt_ref p, _, _)) by (simpl; lia). by rewrite H1.
      * rewrite !due_no, !(future_yes (vt_ref p, _, _)) by (simpl; lia). split; [done|]. rewrite H2. constructor.
    + simpl. replace (b + d + (vt_delta p - d)) with (b + vt_delta p) by lia.
      by rewrite (due_no (r, fn, b + d)), (future_yes (r, fn, b + d)) by (simpl; lia).
Qed.

(** Arming a timer as the expiration sees it. *)
Lemma chVTDoSetI_left owns T s r delay fn :
  in_I s → vt_wf owns T s → r ∉ vt_ref <$> k_vt s → owns r fn → 0 < delay → clamp delay ≤ T →
  ∃ v t a, let s' := set_k_alarm a (set_k_vtlast t (set_k_vt v s)) in
    chVTDoSetI r delay fn s = Done () s' ∧ vt_wf owns T s' ∧ due (ticks_left s') = due (ticks_left s) ∧
    future (ticks_left s') ≡ₚ (r, fn, clamp delay) :: future (ticks_left s).
Proof.
  intros HI [Hd Ht Hl Hnow He Hn Ho] Hr Hf Hdel HT. unfold UINT32_MAX in He. pose proof (elapsed_range s) as Hel.
  assert (0 < clamp delay) as Hc by (unfold clamp, CH_CFG_ST_TIMEDELTA; case_match; lia).
  unfold chVTDoSetI, chVTGetSystemTimeX. mgo. rewrite (classI_ok s HI). mgo.
  destruct (Z.eqb_spec delay TIME_IMMEDIATE) as [->|_]; [unfold TIME_IMMEDIATE in *; lia|]. cbn [negb]. mgo.
  destruct (vt_armed r (k_vt s)) eqn:Ea; [by apply vt_armed_spec in Ea|].
  destruct (k_vt s) as [|p l] eqn:E; unfold port_timer_start_alarm, port_timer_set_alarm.
  - exists [mkVT r (clamp delay) fn], (k_now s), (Some (u32 (k_now s + clamp delay))). mgo. split; [done|].
    assert (elapsed (set_k_alarm (Some (u32 (k_now s + clamp delay))) (set_k_vtlast (k_now s) (set_k_vt [mkVT r (clamp delay) fn] s))) = 0) as E0.
    { unfold elapsed. simpl. by rewrite Z.sub_diag. }
    unfold ticks_left. rewrite E0, E. simpl. split; [|split].
    + split.
      * apply Forall_singleton. simpl. lia.
      * simpl. lia.
      * exact Hnow.
      * exact Hnow.
      * rewrite E0. unfold UINT32_MAX. lia.
      * apply NoDup_singleton.
      * by apply Forall_singleton.
    + by rewrite due_no by (simpl; lia).
    + by rewrite future_yes by (simpl; lia).
  - set (delta := u32 (k_now s + clamp delay - k_vtlast s)).
    assert (delta = elapsed s + clamp delay) as Edelta.
    { unfold delta, elapsed in *. replace (k_now s + clamp delay - k_vtlast s) with (k_now s - k_vtlast s + clamp delay) by lia.
      rewrite <-u32_add_l. apply u32_small. unfold is_u32. lia. }
    exists (vt_insert r fn delta (p :: l)), (k_vtlast s), (if delta <? vt_delta p then Some (u32 (k_vtlast s + delta)) else k_alarm s).
    mgo. fold delta. split.
    { destruct (delta <? vt_delta p); mgo; simpl; rewrite E; [done|]. by destruct s. }
    destruct (vt_insert_deadlines r fn (p :: l) 0 delta Hd) as [_ H2]; [lia|].
    destruct (vt_insert_entries r fn (p :: l) (- elapsed s) delta Hd) as [E1 E2]; [lia|lia|].
    replace (- elapsed s + delta) with (clamp delay) in E2 by lia.
    split; [|by unfold ticks_left; rewrite E].
    split; cbn [k_vt k_vtlast set_k_alarm set_k_vtlast set_k_vt].
    + done.
    + rewrite vt_insert_total by (done || lia). lia.
    + done.
    + done.
    + unfold UINT32_MAX, elapsed in *. simpl. lia.
    + rewrite vt_insert_refs. by constructor.
    + by apply vt_insert_owns.
Qed.

Section Expire.
(** A callback runs in the interrupt, outside the critical section, with its own
    timer no longer armed.  It may arm and disarm timers that are not due, as
    [effect] says of the future timers, and is recorded in the log; it returns, and
    the counter does not advance meanwhile. *)
Variable run : vtfunc → M unit.
Variable log : kst → list vtfunc.
Variable owns : vtref → vtfunc → Prop.
(** No callback sets a delay longer than [T]. *)
Variable T : Z.
Hypothesis HT : CH_CFG_ST_TIMEDELTA ≤ T.
Variable effect : vtref * vtfunc → list entry → list entry → Prop.
Hypothesis run_ok : ∀ r f s, in_ISR s → vt_wf owns T s → owns r f → r ∉ vt_ref <$> k_vt s →
  ∃ s', run f s = Done () s' ∧ in_ISR s' ∧ vt_wf owns T s' ∧ k_now s' = k_now s ∧
    due (ticks_left s') = due (ticks_left s) ∧ effect (r, f) (future (ticks_left s)) (future (ticks_left s')) ∧
    log s' = log s ++ [f].
(** The log is not part of the timer, lock or statistics state. *)
Hypothesis log_frame : ∀ s v t a k l,
  log (set_k_lock l (set_k_stats k (set_k_alarm a (set_k_vtlast t (set_k_vt v s))))) = log s.

(** The effects of callbacks one after the other. *)
Fixpoint effects (cs : list (vtref * vtfunc)) (a b : list entry) : Prop :=
  match cs with [] => a = b | c :: cs => ∃ m, effect c a m ∧ effects cs m b end.

Lemma log_same s s' : (∃ v t a k l, s' = set_k_lock l (set_k_stats k (set_k_alarm a (set_k_vtlast t (set_k_vt v s))))) →
  log s' = log s.
Proof using log_frame. intros (v & t & a & k & l & ->). apply log_frame. Qed.

Lemma vt_wf_same s s' : vt_wf owns T s → k_vt s' = k_vt s → k_vtlast s' = k_vtlast s → k_now s' = k_now s →
  vt_wf owns T s' ∧ ticks_left s' = ticks_left s.
Proof. intros [] Ev El En. unfold ticks_left, elapsed in *. split; [split|]; unfold elapsed; by rewrite ?Ev, ?El, ?En. Qed.

(** The first timer, due, is unlinked. *)
Lemma unlinked p l s : vt_wf owns T s → k_vt s = p :: l → vt_delta p ≤ elapsed s →
  ∀ s', k_vt s' = l → k_vtlast s' = u32 (k_vtlast s + vt_delta p) → k_now s' = k_now s →
  vt_wf owns T s' ∧ owns (vt_ref p) (vt_func p) ∧ vt_ref p ∉ vt_ref <$> k_vt s' ∧
  due (ticks_left s) = (vt_ref p, vt_func p, vt_delta p - elapsed s) :: due (ticks_left s') ∧
  future (ticks_left s) = future (ticks_left s').
Proof.
  intros [Hd Ht Hl Hnow He Hn Ho] Ev Hp s' Ev' El En. rewrite Ev in *. apply Forall_cons in Hd as [Hp0 Hd]. apply Forall_cons in Ho as [Ho1 Ho].
  apply NoDup_cons in Hn as [Hn1 Hn]. simpl in Ht. pose proof (total_nonneg l Hd). pose proof (elapsed_range s).
  assert (elapsed s' = elapsed s - vt_delta p) as Ee.
  { unfold elapsed in *. rewrite En, El, u32_sub_r, <-(u32_small (u32 (k_now s - k_vtlast s) - vt_delta p)) by (unfold is_u32; lia).
    rewrite u32_sub_l. f_equal. lia. }
  split; [split; rewrite ?Ev', ?El, ?En; [done|lia|apply u32_range|done|lia|done|done]|].
  split; [done|]. rewrite Ev'. split; [done|]. unfold ticks_left. rewrite Ev, Ev', Ee. simpl.
  replace (- (elapsed s - vt_delta p)) with (- elapsed s + vt_delta p) by lia.
  rewrite due_yes, future_no by (simpl; lia). split; [|done].
  do 2 f_equal. lia.
Qed.

(** One expired timer: unlinked, its callback run between unlock and lock. *)
Lemma expire_step (p : vtimer) l s :
  in_I s → 0 < k_isr s → vt_wf owns T s → k_vt s = p :: l → vt_delta p ≤ elapsed s →
  ∃ s', (∀ k : M unit,
         (modify (λ s, set_k_vt l (set_k_vtlast (u32 (k_vtlast s + vt_delta p)) s)) ;;
          when (match l with [] => true | _ => false end) port_timer_stop_alarm ;;
          chSysUnlockFromISR ;; run (vt_func p) ;; chSysLockFromISR ;; k) s = k s') ∧
    in_I s' ∧ 0 < k_isr s' ∧ vt_wf owns T s' ∧ k_now s' = k_now s ∧ log s' = log s ++ [vt_func p] ∧
    due (ticks_left s) = (vt_ref p, vt_func p, vt_delta p - elapsed s) :: due (ticks_left s') ∧
    effect (vt_ref p, vt_func p) (future (ticks_left s)) (future (ticks_left s')).
Proof using run_ok log_frame.
  intros HI Hi Hw Ev Hle. set (s1 := set_k_vt l (set_k_vtlast (u32 (k_vtlast s + vt_delta p)) s)).
  set (s2 := if match l with [] => true | _ => false end then set_k_alarm None s1 else s1).
  assert (when (match l with [] => true | _ => false end) port_timer_stop_alarm s1 = Done () s2) as E2.
  { unfold s2, port_timer_stop_alarm. by destruct l. }
  assert (∃ s3, chSysUnlockFromISR s2 = Done () s3 ∧ in_ISR s3 ∧ k_vt s3 = l ∧
    k_vtlast s3 = u32 (k_vtlast s + vt_delta p) ∧ k_now s3 = k_now s ∧ log s3 = log s) as (s3 & E3 & H3 & V3 & T3 & N3 & L3).
  { destruct (chSysUnlockFromISR_ok s2) as (s3 & E3 & I3 & _ & D3); [by unfold s2; destruct l|by unfold s2; destruct l|].
    exists s3. pose proof D3 as (_ & _ & _ & _ & -> & -> & -> & _). split_and!; try done; try (by unfold s2; destruct l).
    apply log_same. revert E3. unfold chSysUnlockFromISR, dbg_check_unlock_from_isr, stats_stop_measure_crit_isr. mgo.
    unfold chSysHalt, dbg_leave_lock. destruct (_ || _); [done|]. mgo. intros [= <-]. unfold s2, s1. destruct l.
    - by eexists [], _, _, _, _.
    - exists (v :: l), (u32 (k_vtlast s + vt_delta p)), (k_alarm s). by eexists _, _. }
  destruct (unlinked p l s Hw Ev Hle s3 V3 T3 N3) as (W3 & O3 & R3 & D3 & F3).
  destruct (run_ok _ _ s3 H3 W3 O3 R3) as (s4 & E4 & H4 & W4 & N4 & D4 & F4 & L4).
  destruct (chSysLockFromISR_ok s4 H4) as (s5 & E5 & I5 & Ei5 & D5). exists s5. split.
  { intros k. mgo. fold s1. rewrite E2. mgo. rewrite E3. mgo. rewrite E4. mgo. rewrite E5. by mgo. }
  pose proof D5 as (_ & _ & _ & _ & V5 & T5 & N5 & _). destruct (vt_wf_same s4 s5 W4 V5 T5 N5) as [W5 El5].
  rewrite El5, F3, D3, D4, N5, N4. split_and!; try done.
  - rewrite Ei5. apply H4.
  - rewrite <-L3, <-L4. apply log_same. revert E5.
    unfold chSysLockFromISR, dbg_check_lock_from_isr, stats_start_measure_crit_isr. mgo.
    unfold chSysHalt, dbg_enter_lock. destruct (_ || _); [done|]. mgo. intros [= <-].
    exists (k_vt s4), (k_vtlast s4), (k_alarm s4). eexists _, _. by destruct s4.
Qed.

(** The expiry loop: exactly the timers that are due are called, the loop
    ends with a first timer that is not due. *)
Lemma vt_expire_ok fuel : ∀ s,
  in_I s → 0 < k_isr s → vt_wf owns T s → (length (due (ticks_left s)) < fuel)%nat →
  ∃ s', vt_expire run fuel s = Done () s' ∧ log s' = log s ++ ((λ x, x.1.2) <$> due (ticks_left s)) ∧
    effects (fst <$> due (ticks_left s)) (future (ticks_left s)) (future (ticks_left s')) ∧ due (ticks_left s') = [] ∧
    vt_wf owns T s' ∧ k_now s' = k_now s ∧ in_I s'.
Proof using run_ok log_frame HT.
  induction fuel as [|fuel IH]; intros s HI Hi Hw Hf; [lia|]. simpl. unfold chVTGetSystemTimeX. mgo. fold (elapsed s).
  assert (due (ticks_left s) = [] → ∃ s', Done () s = Done () s' ∧ log s' = log s ++ ((λ x, x.1.2) <$> due (ticks_left s)) ∧
    effects (fst <$> due (ticks_left s)) (future (ticks_left s)) (future (ticks_left s')) ∧ due (ticks_left s') = [] ∧
    vt_wf owns T s' ∧ k_now s' = k_now s ∧ in_I s') as Hend.
  { intros E. exists s. rewrite E. simpl. by rewrite app_nil_r. }
  destruct (k_vt s) as [|p l] eqn:Ev.
  - pose proof (vw_elapsed _ _ _ Hw) as He. unfold CH_CFG_ST_TIMEDELTA in HT.
    destruct (Z.leb_spec UINT32_MAX (elapsed s)); [lia|]. mgo. apply Hend. unfold ticks_left. by rewrite Ev.
  - destruct (Z.leb_spec (vt_delta p) (elapsed s)) as [Hle|Hgt]; mgo.
    + destruct (expire_step p l s HI Hi Hw Ev Hle) as (s1 & E1 & I1 & Hi1 & W1 & N1 & L1 & D1 & F1).
      rewrite D1 in *. simpl in Hf. destruct (IH s1 I1 Hi1 W1) as (s' & E' & L' & F' & D' & W' & N' & I'); [lia|].
      exists s'. split; [rewrite <-E', <-E1; by mgo|]. rewrite L', L1, N', N1. simpl.
      split; [by rewrite <-app_assoc|]. split; [by eexists|]. done.
    + apply Hend. pose proof (vw_deltas _ _ _ Hw) as Hd. unfold ticks_left. rewrite Ev in *. apply Forall_cons in Hd as [Hp Hd].
      simpl. rewrite due_no by (simpl; lia). apply entries_none; [done|lia].
Qed.

(** C34.  The timer interrupt's handler: for callbacks that return, that may arm
    and disarm any timer that is not due in this interrupt (their own one again,
    for example) and during which the counter does not advance, the callbacks of
    exactly the timers that are due are called, once each and in the order of
    their deadlines; the timers armed in the end are those that were not due, as
    the callbacks have changed them one after the other; the first of them is not
    due, and the alarm is programmed for its deadline (at least the hardware
    minimum from now, which a timer one tick away is raised to).  The handler ends
    and its assertion on the alarm holds.  The base of the list is less than
    2^32 - 1 - T ticks behind, T being the longest delay the callbacks set, so that
    no deadline passes it (beyond, the header would be taken for a timer). *)
Theorem chVTDoTickI_correct fuel s :
  in_I s → 0 < k_isr s → vt_wf owns T s → (length (due (ticks_left s)) < fuel)%nat →
  ∃ s', chVTDoTickI run fuel s = Done () s' ∧
    log s' = log s ++ ((λ x, x.1.2) <$> due (ticks_left s)) ∧
    effects (fst <$> due (ticks_left s)) (future (ticks_left s)) (ticks_left s') ∧ vt_wf owns T s' ∧ k_now s' = k_now s ∧
    (∀ x l, ticks_left s' = x :: l → 0 < x.2 ∧ k_alarm s' = Some (u32 (k_now s + clamp x.2))).
Proof using run_ok log_frame HT.
  intros HI Hi Hw Hf. destruct (vt_expire_ok fuel s HI Hi Hw Hf) as (s1 & E1 & L1 & F1 & D1 & W1 & N1 & I1).
  unfold chVTDoTickI, chVTGetSystemTimeX, port_timer_set_alarm. mgo. rewrite (classI_ok s HI). mgo. rewrite E1. mgo.
  rewrite (future_all _ D1) in F1. destruct (k_vt s1) as [|p l] eqn:Ev.
  { exists s1. mgo. split_and!; try done. intros x k. unfold ticks_left. by rewrite Ev. }
  pose proof W1 as [Hd Ht Hl _ He _ _]. rewrite Ev in Hd, Ht. apply Forall_cons in Hd as [Hp Hd]. simpl in Ht. pose proof (total_nonneg l Hd).
  pose proof (elapsed_range s1) as Hr. set (lft := vt_delta p - elapsed s1).
  assert (ticks_left s1 = (vt_ref p, vt_func p, lft) :: entries lft l) as El.
  { unfold ticks_left. rewrite Ev. simpl. by replace (- elapsed s1 + vt_delta p) with lft by lia. }
  assert (0 < lft) as Hpos.
  { rewrite El in D1. destruct (decide (lft ≤ 0)); [by rewrite due_yes in D1|lia]. }
  mgo. assert (u32 (k_vtlast s1 + vt_delta p - k_now s1) = lft) as ->.
  { replace (k_vtlast s1 + vt_delta p - k_now s1) with (vt_delta p - (k_now s1 - k_vtlast s1)) by lia.
    rewrite <-u32_sub_r. apply u32_small. unfold is_u32. fold (elapsed s1). lia. }
  assert (clamp lft ≤ Z.max 2 lft ∧ 0 < clamp lft) as [Hc1 Hc2] by (unfold clamp, CH_CFG_ST_TIMEDELTA; case_match; lia).
  unfold CH_CFG_ST_TIMEDELTA, UINT32_MAX in *. simpl.
  assert (u32 (k_now s1 + clamp lft - k_vtlast s1) = elapsed s1 + clamp lft) as ->.
  { replace (k_now s1 + clamp lft - k_vtlast s1) with (k_now s1 - k_vtlast s1 + clamp lft) by lia.
    rewrite <-u32_add_l. apply u32_small. unfold is_u32. fold (elapsed s1). lia. }
  fold (elapsed s1). destruct (Z.leb_spec (elapsed s1) (elapsed s1 + clamp lft)); [|lia]. mgo.
  set (s2 := set_k_alarm _ s1). assert (log s2 = log s1) as L2.
  { apply log_same. exists (k_vt s1), (k_vtlast s1), (Some (u32 (k_now s1 + clamp lft))), (k_stats s1), (k_lock s1). by destruct s1. }
  destruct (vt_wf_same s1 s2 W1 eq_refl eq_refl eq_refl) as [W2 El2].
  exists s2. rewrite L2, El2. split_and!; try done. rewrite El. intros x k [= <- <-]. simpl. by rewrite N1.
Qed.
End Expire.
