(* ===== verification/Sched.v ===== *)
(** * The scheduler (os/rt/src/chschd.c, os/rt/include/chschd.h) *)

From S2P Require Import Prelude TimeMeas Kernel ThreadQueues Sys VTimers.

(** The counter operation the timeout handler uses (chsem.h). *)
Definition chSemFastSignalI (sp : addr) : M unit :=
  chDbgCheckClassI ;;
  c ← deref (λ s, k_sem s !! sp); c' ← cnt_inc c;
  modify (λ s, set_k_sem (<[sp := c']> (k_sem s)) s).

(** The search of chSchReadyI compares with the header's [r_prio] = [NOPRIO]: for
    a thread with that priority it would not stop. *)
Definition chSchReadyI (tp : tid) : M tid :=
  chDbgCheckClassI ;;
  th ← thd tp;
  chDbgAssert (bool_decide (p_state th ≠ CH_STATE_READY ∧ p_state th ≠ CH_STATE_FINAL))
    "chSchReadyI" ;;
  upd_thd tp (set_p_state CH_STATE_READY) ;;
  if p_prio th <=? NOPRIO then fault
  else queue_prio_insert tp QReady ;; mret tp.

Definition chSchGoSleepS (newstate : tstate) : M unit :=
  chDbgCheckClassS ;;
  otp ← currp;
  upd_thd otp (set_p_state newstate) ;;
  ntp ← queue_fifo_remove QReady;
  setcurrp ntp ;;
  upd_thd ntp (set_p_state CH_STATE_CURRENT) ;;
  chSysSwitch ntp otp.

(** The callback of the timeout timers: it runs in the timer interrupt. *)
Definition wakeup (tp : tid) : M unit :=
  chSysLockFromISR ;;
  th ← thd tp;
  match p_state th with
  | CH_STATE_READY => chSysUnlockFromISR
  | st =>
      match st with
      | CH_STATE_SUSPENDED =>
          match p_u th with
          | U_wttrp r => modify (λ s, set_k_tref (<[r := None]> (k_tref s)) s)
          | _ => fault
          end
      | CH_STATE_WTSEM =>
          match p_u th with
          | U_wtsemp a => chSemFastSignalI a ;; queue_dequeue tp ;; mret ()
          | _ => fault
          end
      | CH_STATE_WTCOND | CH_STATE_QUEUED => queue_dequeue tp ;; mret ()
      | _ => mret ()
      end ;;
      upd_thd tp (set_p_u (U_msg MSG_TIMEOUT)) ;;
      chSchReadyI tp ;;
      chSysUnlockFromISR
  end.

(** [currp->p_u.rdymsg]. *)
Definition rdymsg (tp : tid) : M Z :=
  th ← thd tp; match p_u th with U_msg m => mret m | _ => fault end.

Definition chSchGoSleepTimeoutS (newstate : tstate) (time : Z) : M Z :=
  chDbgCheckClassS ;;
  (if negb (TIME_INFINITE =? time) then
     ctp ← currp;
     chVTDoSetI (VTLocal ctp) time (VtWakeup ctp) ;;
     chSchGoSleepS newstate ;;
     b ← chVTIsArmedI (VTLocal ctp);
     when b (chVTDoResetI (VTLocal ctp))
   else chSchGoSleepS newstate) ;;
  ctp ← currp; rdymsg ctp.

Definition chSchWakeupS (ntp : tid) (msg : Z) : M unit :=
  chDbgCheckClassS ;;
  upd_thd ntp (set_p_u (U_msg msg)) ;;
  nth ← thd ntp;
  ctp ← currp;
  cth ← thd ctp;
  if p_prio nth <=? p_prio cth then chSchReadyI ntp ;; mret ()
  else
    otp ← chSchReadyI ctp;
    setcurrp ntp ;;
    upd_thd ntp (set_p_state CH_STATE_CURRENT) ;;
    chSysSwitch ntp otp.

Definition chSchIsRescRequiredI : M bool :=
  chDbgCheckClassI ;; gets (λ s, prio_of s (k_cur s) <? firstprio_of s).
Definition chSchCanYieldS : M bool :=
  chDbgCheckClassS ;; gets (λ s, prio_of s (k_cur s) <=? firstprio_of s).

Definition chSchIsPreemptionRequired : M bool :=
  gets (λ s, prio_of s (k_cur s) <? firstprio_of s).

Definition chSchDoRescheduleBehind : M unit :=
  otp ← currp;
  ntp ← queue_fifo_remove QReady;
  setcurrp ntp ;;
  upd_thd ntp (set_p_state CH_STATE_CURRENT) ;;
  chSchReadyI otp ;;
  chSysSwitch ntp otp.

Definition chSchDoRescheduleAhead : M unit :=
  otp ← currp;
  ntp ← queue_fifo_remove QReady;
  setcurrp ntp ;;
  upd_thd ntp (set_p_state CH_STATE_CURRENT) ;;
  upd_thd otp (set_p_state CH_STATE_READY) ;;
  modify (λ s, set_k_q (Queues.queue_prio_insert_ahead (prio_of s) otp QReady (k_q s)) s) ;;
  chSysSwitch ntp otp.

(** Without round robin ([CH_CFG_TIME_QUANTUM] = 0). *)
Definition chSchDoReschedule : M unit := chSchDoRescheduleAhead.

Definition chSchRescheduleS : M unit :=
  chDbgCheckClassS ;; b ← chSchIsRescRequiredI; when b chSchDoRescheduleAhead.

Definition chSchDoYieldS : M unit :=
  chDbgCheckClassS ;; b ← chSchCanYieldS; when b chSchDoRescheduleBehind.

Definition chSchPreemption : M unit :=
  s ← get;
  when (prio_of s (k_cur s) <=? firstprio_of s) chSchDoRescheduleAhead.

(** ** The queue invariant *)

(** The states in which a thread is linked in a queue. *)
Definition linked_state (st : tstate) : bool :=
  match st with
  | CH_STATE_READY | CH_STATE_QUEUED | CH_STATE_WTSEM | CH_STATE_WTMTX
  | CH_STATE_WTCOND | CH_STATE_WTEXIT | CH_STATE_SNDMSGQ => true
  | _ => false
  end.

(** What the state and the union of a thread say about the queue it is in. *)
Definition qstate (q : qref) (th : thread) : Prop :=
  match q with
  | QReady => p_state th = CH_STATE_READY
  | QSem a => p_state th = CH_STATE_WTSEM ∧ p_u th = U_wtsemp a
  | QMtx a => p_state th = CH_STATE_WTMTX ∧ p_u th = U_wtmtxp a
  | QCond a => p_state th = CH_STATE_WTCOND ∧ p_u th = U_wtobjp (QCond a)
  | QThq a => p_state th = CH_STATE_QUEUED
  | QMsg t => p_state th = CH_STATE_SNDMSGQ ∧ p_u th = U_wtobjp (QMsg t)
  | QWait t => p_state th = CH_STATE_WTEXIT
  end.

Definition by_prio (s : kst) (a b : tid) : Prop := prio_of s b ≤ prio_of s a.

(** The queues of a state, but for the threads in [X], which are in none. *)
Record qwf (X : gset tid) (s : kst) : Prop := {
  qw_nodup : ∀ q, NoDup (qof s q);
  qw_disj : ∀ q1 q2 t, t ∈ qof s q1 → t ∈ qof s q2 → q1 = q2;
  qw_mem : ∀ q t, t ∈ qof s q → ∃ th, k_thd s !! t = Some th ∧ qstate q th;
  qw_loc : ∀ t th, k_thd s !! t = Some th → t ∉ X → linked_state (p_state th) = true →
           ∃ q, t ∈ qof s q;
  qw_out : ∀ t q, t ∈ X → t ∉ qof s q;
  qw_sorted : StronglySorted (by_prio s) (qof s QReady);
  qw_prio : ∀ t th, k_thd s !! t = Some th → NOPRIO < p_prio th
}.

(** A state between kernel operations: exactly the current thread is in state
    CURRENT, and the queues are well formed. *)
Record wf (s : kst) : Prop := {
  wf_q : qwf {[k_cur s]} s;
  wf_cur : ∃ th, k_thd s !! k_cur s = Some th ∧ p_state th = CH_STATE_CURRENT;
  wf_uniq : ∀ t th, k_thd s !! t = Some th → p_state th = CH_STATE_CURRENT → t = k_cur s
}.

(** The current thread has the highest priority: what must hold when the kernel
    is unlocked. *)
Definition sched_ok (s : kst) : Prop :=
  ∀ t, t ∈ qof s QReady → prio_of s t ≤ prio_of s (k_cur s).

(** ** Lemmas on the invariant *)

Lemma qof_set_q s q l : qof (set_k_q (<[q := l]> (k_q s)) s) q = l.
Proof. apply Queues.qof_insert. Qed.
Lemma qof_set_q_ne s q q' l : q ≠ q' → qof (set_k_q (<[q := l]> (k_q s)) s) q' = qof s q'.
Proof. apply Queues.qof_insert_ne. Qed.

Lemma qwf_ext X s s' : k_thd s' = k_thd s → k_q s' = k_q s → qwf X s → qwf X s'.
Proof.
  intros E1 E2 [H1 H2 H3 H4 H5 H6 H7]. unfold by_prio, prio_of, qof in *.
  split; unfold by_prio, prio_of, qof; rewrite ?E1, ?E2; done.
Qed.

Lemma StronglySorted_impl {A} (R R' : A → A → Prop) l :
  (∀ x y, x ∈ l → y ∈ l → R x y → R' x y) → StronglySorted R l → StronglySorted R' l.
Proof.
  intros H Hs. induction Hs as [|x l Hs IH Hx]; constructor.
  - apply IH. intros; apply H; set_solver.
  - rewrite Forall_forall in Hx |- *. intros y Hy. apply H; [set_solver..|]. by apply Hx.
Qed.

Lemma StronglySorted_sublist {A} (R : A → A → Prop) l l' :
  l' `sublist_of` l → StronglySorted R l → StronglySorted R l'.
Proof.
  intros Hsub. induction Hsub as [|x l' l Hsub IH|x l' l Hsub IH]; intros Hs; [done|..];
    apply StronglySorted_inv in Hs as [Hs Hx]; [|auto].
  constructor; [auto|]. rewrite Forall_forall in Hx |- *. intros y Hy. apply Hx.
  by eapply elem_of_sublist.
Qed.

(** A priority insertion, behind ([cmp] is [<=?]) or ahead ([<?]) of equal
    priorities, keeps a queue sorted. *)
Lemma sorted_insert (pr : tid → Z) (cmp : Z → Z → bool) t l :
  (∀ x y, cmp x y = true → x ≤ y) → (∀ x y, cmp x y = false → y ≤ x) →
  StronglySorted (λ a b, pr b ≤ pr a) l →
  StronglySorted (λ a b, pr b ≤ pr a) (insert_span (λ c, cmp (pr t) (pr c)) t l).
Proof.
  intros Ht Hf Hs. rewrite insert_span_eq. set (p := λ c, cmp (pr t) (pr c)).
  pose proof (span_true p l) as H1. pose proof (span_false p l) as H2.
  rewrite <-(span_app p l) in Hs. destruct (span p l) as [a b]; simpl in *.
  induction a as [|x a IH]; simpl in *.
  - constructor; [done|]. destruct b as [|y b]; [constructor|].
    specialize (H2 y b eq_refl). apply StronglySorted_inv in Hs as [_ Hy].
    constructor; [by apply Hf|]. eapply Forall_impl; [exact Hy|].
    intros z Hz; simpl in *. etrans; [exact Hz|]. by apply Hf.
  - apply StronglySorted_inv in Hs as [Hs Hx]. apply Forall_cons in H1 as [H1 H1'].
    constructor; [by apply IH|]. rewrite Forall_app in Hx |- *. destruct Hx as [Hx1 Hx2].
    split; [done|]. constructor; [|done]. by apply Ht.
Qed.

Section QwfUpdates.
Context (X : gset tid) (s : kst).
Hypothesis Hw : qwf X s.

Lemma qof_thd T q : qof (set_k_thd T s) q = qof s q.
Proof. done. Qed.

(** Updating a thread without moving it. *)
Lemma qwf_thd t th th' :
  k_thd s !! t = Some th → p_prio th' = p_prio th →
  (∀ q, t ∈ qof s q → qstate q th') →
  (t ∉ X → linked_state (p_state th') = true → ∃ q, t ∈ qof s q) →
  qwf X (set_k_thd (<[t := th']> (k_thd s)) s).
Proof using Hw.
  intros E Ep Hq Hl. destruct Hw as [H1 H2 H3 H4 H5 H6 H7]. split; try done.
  - intros q t' Ht'. simpl. rewrite lookup_insert. case_decide; subst; [eauto|]. by apply H3.
  - intros t' th1. simpl. rewrite lookup_insert. case_decide; subst; [|by apply H4].
    intros [= <-]. apply Hl.
  - apply (StronglySorted_impl (by_prio s)); [|done].
    intros x y _ _. unfold by_prio, prio_of; simpl. rewrite !lookup_insert.
    repeat case_decide; subst; rewrite ?E, ?Ep; done.
  - intros t' th1. simpl. rewrite lookup_insert. case_decide; subst; [|by apply H7].
    intros [= <-]. rewrite Ep. by eapply H7.
Qed.

(** Updating a thread that is in no queue, its priority included. *)
Lemma qwf_thd_out t th' :
  t ∈ X → NOPRIO < p_prio th' → qwf X (set_k_thd (<[t := th']> (k_thd s)) s).
Proof using Hw.
  intros Ht Hp. destruct Hw as [H1 H2 H3 H4 H5 H6 H7].
  split; try done.
  - intros q t' Ht'. simpl. rewrite lookup_insert_ne; [by apply H3|]. intros <-. by eapply H5.
  - intros t' th1. simpl. rewrite lookup_insert. case_decide; subst; [|by apply H4]. done.
  - apply (StronglySorted_impl (by_prio s)); [|done].
    intros x y Hx Hy. unfold by_prio, prio_of; simpl.
    rewrite !lookup_insert_ne; [done|..]; intros <-; by eapply H5.
  - intros t' th1. simpl. rewrite lookup_insert. case_decide; subst; [|by apply H7]. by intros [= <-].
Qed.

(** Taking a thread out of a queue. *)
Lemma qwf_take q t l' :
  qof s q ≡ₚ t :: l' → l' `sublist_of` qof s q →
  qwf ({[t]} ∪ X) (set_k_q (<[q := l']> (k_q s)) s).
Proof using Hw.
  intros Hp Hsub. destruct Hw as [H1 H2 H3 H4 H5 H6 H7].
  assert (t ∉ l' ∧ NoDup l') as [Ht Hnd]. { rewrite <-NoDup_cons, <-Hp. done. }
  assert (∀ q' x, x ∈ qof (set_k_q (<[q := l']> (k_q s)) s) q' → x ∈ qof s q' ∧ x ≠ t) as Hin.
  { intros q' x. destruct (decide (q = q')) as [<-|].
    - rewrite qof_set_q, Hp. set_solver.
    - rewrite qof_set_q_ne by done. intros Hx. split; [done|]. intros ->.
      assert (q = q'); [|done]. apply (H2 q q' t); [|done]. rewrite Hp. set_solver. }
  split; simpl; try done.
  - intros q'. destruct (decide (q = q')) as [<-|]; [by rewrite qof_set_q|by rewrite qof_set_q_ne].
  - intros q1 q2 x [? _]%Hin [? _]%Hin. by eapply H2.
  - intros q' x [Hx _]%Hin. by apply H3.
  - intros x th Hx Hnx Hl. rewrite not_elem_of_union, not_elem_of_singleton in Hnx.
    destruct (H4 x th Hx (proj2 Hnx) Hl) as [q' Hq']. exists q'.
    destruct (decide (q = q')) as [<-|]; [|by rewrite qof_set_q_ne].
    rewrite qof_set_q. rewrite Hp in Hq'. set_solver.
  - intros x q' Hx Hx'. apply Hin in Hx' as [Hx' Hne]. apply (H5 x q'); set_solver.
  - apply (StronglySorted_impl (by_prio s)); [done|].
    destruct (decide (q = QReady)) as [->|].
    + rewrite qof_set_q. by eapply StronglySorted_sublist.
    + by rewrite qof_set_q_ne.
Qed.

(** Linking a thread that is in no queue. *)
Lemma qwf_put q t th l' :
  t ∈ X → k_thd s !! t = Some th → qstate q th → l' ≡ₚ t :: qof s q →
  (q = QReady → StronglySorted (by_prio s) l') →
  qwf (X ∖ {[t]}) (set_k_q (<[q := l']> (k_q s)) s).
Proof using Hw.
  intros Ht E Hst Hp Hs. destruct Hw as [H1 H2 H3 H4 H5 H6 H7].
  assert (∀ q' x, x ∈ qof (set_k_q (<[q := l']> (k_q s)) s) q' →
            x ∈ qof s q' ∨ (x = t ∧ q' = q)) as Hin.
  { intros q' x. destruct (decide (q = q')) as [<-|].
    - rewrite qof_set_q, Hp, elem_of_cons. naive_solver.
    - rewrite qof_set_q_ne by done. by left. }
  split; simpl; try done.
  - intros q'. destruct (decide (q = q')) as [<-|]; [|by rewrite qof_set_q_ne].
    rewrite qof_set_q, Hp, NoDup_cons. split; [by apply H5|done].
  - intros q1 q2 x Hx1 Hx2.
    apply Hin in Hx1 as [Hx1|[-> ->]], Hx2 as [Hx2|[Hx ->]]; subst; try done.
    + by eapply H2.
    + by destruct (H5 t q1 Ht).
    + by destruct (H5 t q2 Ht).
  - intros q' x [Hx|[-> ->]]%Hin; [by apply H3|eauto].
  - intros x thx Hx Hnx Hl. destruct (decide (x = t)) as [->|].
    + exists q. rewrite qof_set_q, Hp. set_solver.
    + destruct (H4 x thx Hx) as [q' Hq']; [set_solver|done|]. exists q'.
      destruct (decide (q = q')) as [<-|]; [|by rewrite qof_set_q_ne].
      rewrite qof_set_q, Hp. set_solver.
  - intros x q' Hx [Hx'|[-> ->]]%Hin; [|set_solver]. apply (H5 x q'); set_solver.
  - destruct (decide (q = QReady)) as [->|].
    + rewrite qof_set_q. by apply Hs.
    + by rewrite qof_set_q_ne.
Qed.
End QwfUpdates.

(** ** Effect of the scheduler operations *)

Definition put_thd (t : tid) (th : thread) (s : kst) : kst := set_k_thd (<[t := th]> (k_thd s)) s.
Definition put_q (q : qref) (l : list tid) (s : kst) : kst := set_k_q (<[q := l]> (k_q s)) s.

(** [tp] readied: in state READY behind the threads of not lower priority. *)
Definition ready_st (t : tid) (th : thread) (s : kst) : kst :=
  let s1 := put_thd t (set_p_state CH_STATE_READY th) s in
  put_q QReady (insert_span (λ c, prio_of s1 t <=? prio_of s1 c) t (qof s QReady)) s1.

(** The current thread replaced by [ntp], the head of the ready queue. *)
Definition run_st (ntp : tid) (nth : thread) (l : list tid) (s : kst) : kst :=
  put_thd ntp (set_p_state CH_STATE_CURRENT nth) (set_k_cur ntp (put_q QReady l s)).

Lemma put_thd_thd t a b s : put_thd t a (put_thd t b s) = put_thd t a s.
Proof. unfold put_thd, set_k_thd. simpl. by rewrite insert_insert_eq. Qed.
Lemma put_q_q q a b s : put_q q a (put_q q b s) = put_q q a s.
Proof. unfold put_q, set_k_q. simpl. by rewrite insert_insert_eq. Qed.
Lemma put_thd_q t a q l s : put_thd t a (put_q q l s) = put_q q l (put_thd t a s).
Proof. done. Qed.
Lemma qof_put_q q l s : qof (put_q q l s) q = l.
Proof. apply qof_set_q. Qed.
Lemma qof_put_q_ne q q' l s : q ≠ q' → qof (put_q q l s) q' = qof s q'.
Proof. apply qof_set_q_ne. Qed.
Lemma prio_of_put_q q l s : prio_of (put_q q l s) = prio_of s.
Proof. done. Qed.
Lemma qof_put_thd q t th s : qof (put_thd t th s) q = qof s q.
Proof. done. Qed.

Lemma prio_of_put t th s x :
  prio_of (put_thd t th s) x = if decide (t = x) then p_prio th else prio_of s x.
Proof. unfold prio_of; simpl. rewrite lookup_insert. by case_decide. Qed.

Lemma prio_of_put_same t th th' s x :
  k_thd s !! t = Some th → p_prio th' = p_prio th → prio_of (put_thd t th' s) x = prio_of s x.
Proof.
  intros E Ep. rewrite prio_of_put. case_decide; subst; [|done].
  unfold prio_of. by rewrite E.
Qed.

Lemma chSchReadyI_ok t th s :
  in_I s → k_thd s !! t = Some th → p_state th ≠ CH_STATE_READY → p_state th ≠ CH_STATE_FINAL →
  NOPRIO < p_prio th → chSchReadyI t s = Done t (ready_st t th s).
Proof.
  intros HI E H1 H2 Hp. unfold chSchReadyI. mgo. rewrite (classI_ok s HI). mgo.
  rewrite (thd_ok _ _ _ E). mgo. rewrite bool_decide_true by done. mgo.
  rewrite (upd_thd_ok _ _ _ _ E). mgo.
  destruct (Z.leb_spec (p_prio th) NOPRIO); [lia|]. done.
Qed.

Lemma qwf_ready X s t th :
  qwf X s → t ∈ X → k_thd s !! t = Some th → qwf (X ∖ {[t]}) (ready_st t th s).
Proof.
  intros Hw Ht E. unfold ready_st, put_q.
  assert (qwf X (put_thd t (set_p_state CH_STATE_READY th) s)) as Hw1.
  { apply qwf_thd_out; [done|done|]. simpl. by eapply qw_prio. }
  apply (qwf_put X _ Hw1 QReady t (set_p_state CH_STATE_READY th)); [done| |done| |].
  - simpl. apply lookup_insert_eq.
  - apply insert_span_perm.
  - intros _. apply (sorted_insert _ Z.leb); [lia|lia|]. apply (qw_sorted _ _ Hw1).
Qed.

Lemma ready_st_thd t th s x :
  k_thd (ready_st t th s) !! x = if decide (t = x) then Some (set_p_state CH_STATE_READY th) else k_thd s !! x.
Proof. simpl. apply lookup_insert. Qed.

Lemma ready_st_prio t th s x : k_thd s !! t = Some th → prio_of (ready_st t th s) x = prio_of s x.
Proof. intros E. by apply (prio_of_put_same t th (set_p_state CH_STATE_READY th) s x). Qed.

Lemma ready_st_elem t th s x : x ∈ qof (ready_st t th s) QReady ↔ x = t ∨ x ∈ qof s QReady.
Proof. unfold ready_st, put_q. rewrite qof_set_q, insert_span_perm, elem_of_cons. done. Qed.

Lemma ready_st_qof_ne t th s q : q ≠ QReady → qof (ready_st t th s) q = qof s q.
Proof. intros. unfold ready_st, put_q. by rewrite qof_set_q_ne. Qed.

(** A thread that is in no queue need not be excepted if its state says so. *)
Lemma qwf_drop X s t th :
  qwf X s → k_thd s !! t = Some th → linked_state (p_state th) = false → qwf (X ∖ {[t]}) s.
Proof.
  intros [H1 H2 H3 H4 H5 H6 H7] E Hl. split; try done.
  - intros x thx Hx Hnx Hlx. destruct (decide (x = t)) as [->|]; [congruence|].
    apply (H4 x thx); set_solver.
  - intros x q Hx. apply H5. set_solver.
Qed.

(** Dispatching the head of the ready queue. *)
Lemma run_st_wf s ntp nth l :
  qwf ∅ s → qof s QReady = ntp :: l → k_thd s !! ntp = Some nth →
  (∀ t th, k_thd s !! t = Some th → p_state th ≠ CH_STATE_CURRENT) →
  wf (run_st ntp nth l s) ∧ sched_ok (run_st ntp nth l s).
Proof.
  intros Hw Hq E Hnc.
  assert (qwf ({[ntp]} ∪ ∅) (put_q QReady l s)) as Hw1.
  { apply (qwf_take ∅); [done|by rewrite Hq|]. rewrite Hq. by constructor. }
  rewrite union_empty_r_L in Hw1.
  assert (qwf {[ntp]} (run_st ntp nth l s)) as Hw2.
  { apply qwf_thd_out; [by apply (qwf_ext _ (put_q QReady l s))|set_solver|].
    simpl. by eapply (qw_prio _ _ Hw). }
  split; [split|].
  - done.
  - exists (set_p_state CH_STATE_CURRENT nth). simpl. by rewrite lookup_insert_eq.
  - intros t th. simpl. rewrite lookup_insert. case_decide; [done|]. intros Ht Hst.
    by destruct (Hnc t th).
  - intros t Ht. unfold run_st in *. 
    rewrite !(prio_of_put_same ntp nth) by (done || apply E). simpl.
    change (t ∈ qof (put_q QReady l s) QReady) in Ht. unfold put_q in Ht. rewrite qof_set_q in Ht.
    pose proof (qw_sorted _ _ Hw) as Hs. rewrite Hq in Hs.
    apply StronglySorted_inv in Hs as [_ Hs]. rewrite Forall_forall in Hs. by apply Hs.
Qed.

(** Fields the scheduler does not touch. *)
Definition same_objs (s s' : kst) : Prop :=
  k_sem s' = k_sem s ∧ k_mtx s' = k_mtx s ∧ k_tref s' = k_tref s ∧ k_mbox s' = k_mbox s ∧
  k_ioq s' = k_ioq s ∧ k_evl s' = k_evl s ∧ k_evs s' = k_evs s ∧ k_vt s' = k_vt s ∧
  k_vtlast s' = k_vtlast s ∧ k_now s' = k_now s ∧ k_alarm s' = k_alarm s ∧
  k_isr s' = k_isr s ∧ k_lock s' = k_lock s ∧ k_reg s' = k_reg s ∧ k_mem s' = k_mem s.

#[export] Instance same_objs_refl : Reflexive same_objs.
Proof. intros s. unfold same_objs. done. Qed.
#[export] Instance same_objs_trans : Transitive same_objs.
Proof. intros s1 s2 s3. unfold same_objs. intuition congruence. Qed.

Lemma switch_st_core ntp otp th s :
  let s' := switch_st ntp otp th s in
  k_cur s' = k_cur s ∧ k_thd s' = k_thd s ∧ k_q s' = k_q s ∧ same_objs s s'.
Proof. done. Qed.

Lemma wf_ext s s' :
  k_cur s' = k_cur s → k_thd s' = k_thd s → k_q s' = k_q s → wf s → wf s'.
Proof.
  intros E1 E2 E3 [H1 H2 H3]. split.
  - rewrite E1. by apply (qwf_ext _ s).
  - by rewrite E1, E2.
  - rewrite E1, E2. done.
Qed.

Lemma sched_ok_ext s s' :
  k_cur s' = k_cur s → k_thd s' = k_thd s → k_q s' = k_q s → sched_ok s → sched_ok s'.
Proof.
  intros E1 E2 E3 H. unfold sched_ok, qof, prio_of in *. by rewrite E1, E2, E3.
Qed.

(** chSchGoSleepS switches to the head of the ready queue. *)
Lemma chSchGoSleepS_ok st s cth ntp nth l :
  in_S s → k_thd s !! k_cur s = Some cth → qof s QReady = ntp :: l →
  k_thd s !! ntp = Some nth → ntp ≠ k_cur s →
  chSchGoSleepS st s =
    Switch (switch_st ntp (k_cur s) (set_p_state st cth)
              (run_st ntp nth l (put_thd (k_cur s) (set_p_state st cth) s))) (λ s', Done () s').
Proof.
  intros HS Ec Hq En Hne. unfold chSchGoSleepS. mgo. rewrite (classS_ok s HS). mgo.
  rewrite (upd_thd_ok _ _ _ _ Ec). mgo. unfold queue_fifo_remove. mgo.
  unfold deref, Queues.queue_fifo_remove. simpl.
  unfold qof in Hq. rewrite Hq. mgo.
  rewrite (upd_thd_ok _ ntp nth) by (simpl; by rewrite lookup_insert_ne). mgo.
  rewrite (chSysSwitch_ok _ _ (set_p_state st cth));
    [done|simpl; rewrite lookup_insert_ne by done; by rewrite lookup_insert_eq].
Qed.

(** What holds at every context switch and whenever the kernel is about to be
    unlocked. *)
Definition K (s : kst) : Prop := wf s ∧ sched_ok s ∧ in_S s.

Lemma K_ext s s' :
  k_cur s' = k_cur s → k_thd s' = k_thd s → k_q s' = k_q s → k_isr s' = k_isr s →
  k_lock s' = k_lock s → K s → K s'.
Proof.
  intros E1 E2 E3 E4 E5 (H1 & H2 & H3). split_and!; [by apply (wf_ext s)|by apply (sched_ok_ext s)|].
  unfold in_S. by rewrite E4, E5.
Qed.

Lemma in_S_same s s' : same_objs s s' → in_S s → in_S s'.
Proof. unfold same_objs, in_S. intuition congruence. Qed.

(** The threads other than the one dispatched and the one switched out, and the
    queues other than the ready queue, stay as they are. *)
Definition same_others (a b : tid) (s s' : kst) : Prop :=
  (∀ q, q ≠ QReady → qof s' q = qof s q) ∧
  (∀ t, t ≠ a → t ≠ b → k_thd s' !! t = k_thd s !! t).

(** The fields of a thread the scheduler does not touch. *)
Definition static (th : thread) : thread := set_p_state CH_STATE_READY (set_p_u (U_msg 0) th).
Definition thd_static (s s' : kst) : Prop := ∀ t, static <$> k_thd s' !! t = static <$> k_thd s !! t.

#[export] Instance thd_static_refl : Reflexive thd_static.
Proof. by intros s t. Qed.
#[export] Instance thd_static_trans : Transitive thd_static.
Proof. intros s1 s2 s3 H1 H2 t. by rewrite H2, H1. Qed.

Lemma thd_static_prio s s' t : thd_static s s' → prio_of s' t = prio_of s t.
Proof.
  intros H. specialize (H t). unfold prio_of.
  destruct (k_thd s' !! t) as [th'|], (k_thd s !! t) as [th|]; simpl in H; try done.
  injection H. congruence.
Qed.

Lemma thd_static_inv s s' t th' :
  thd_static s s' → k_thd s' !! t = Some th' → ∃ th, k_thd s !! t = Some th ∧ static th' = static th.
Proof.
  intros H E. specialize (H t). rewrite E in H. destruct (k_thd s !! t) as [th|]; simpl in H; [|done].
  exists th. split; [done|]. congruence.
Qed.

Lemma thd_static_put s t th th' :
  k_thd s !! t = Some th → static th' = static th → thd_static s (put_thd t th' s).
Proof.
  intros E Es x. simpl. rewrite lookup_insert. case_decide; subst; [|done].
  rewrite E. simpl. by rewrite Es.
Qed.

Lemma thd_static_eq s s' : k_thd s' = k_thd s → thd_static s s'.
Proof. intros E t. by rewrite E. Qed.

(** Going to sleep, for a current thread already linked as [st] requires. *)
Lemma chSchGoSleepS_K st s cth ntp l :
  in_S s → k_thd s !! k_cur s = Some cth →
  qwf ∅ (put_thd (k_cur s) (set_p_state st cth) s) →
  st ≠ CH_STATE_CURRENT → st ≠ CH_STATE_READY →
  (∀ t th, k_thd s !! t = Some th → p_state th = CH_STATE_CURRENT → t = k_cur s) →
  qof s QReady = ntp :: l →
  ∃ s1, chSchGoSleepS st s = Switch s1 (λ s', Done () s') ∧ K s1 ∧ same_objs s s1 ∧
    k_cur s1 = ntp ∧ k_thd s1 !! k_cur s = Some (set_p_state st cth) ∧
    qof s1 QReady = l ∧ thd_static s s1 ∧ same_others ntp (k_cur s) s s1.
Proof.
  intros HS Ec Hw Hst Hst' Hu Hq.
  set (s0 := put_thd (k_cur s) (set_p_state st cth) s) in *.
  destruct (qw_mem _ _ Hw QReady ntp) as (nth & En & Hnst).
  { change (qof s0 QReady) with (qof s QReady). rewrite Hq. set_solver. }
  assert (ntp ≠ k_cur s) as Hne.
  { intros ->. simpl in En. rewrite lookup_insert_eq in En. injection En as <-. done. }
  assert (k_thd s !! ntp = Some nth) as En'. { simpl in En. by rewrite lookup_insert_ne in En. }
  exists (switch_st ntp (k_cur s) (set_p_state st cth) (run_st ntp nth l s0)).
  assert (wf (run_st ntp nth l s0) ∧ sched_ok (run_st ntp nth l s0)) as [Hwf Hok].
  { apply run_st_wf; [done|done|done|]. intros t th. simpl. rewrite lookup_insert.
    case_decide; [intros [= <-]; done|]. intros Ht Hc. by apply (Hu t th) in Hc. }
  split_and!; [by apply chSchGoSleepS_ok| |done|done| | | |split].
  - split_and!; [by apply (wf_ext (run_st ntp nth l s0))|by apply (sched_ok_ext (run_st ntp nth l s0))|done].
  - simpl. by rewrite lookup_insert_ne, lookup_insert_eq.
  - apply qof_set_q.
  - trans s0; [by apply (thd_static_put s _ cth)|].
    trans (put_thd ntp (set_p_state CH_STATE_CURRENT nth) s0); [by apply (thd_static_put s0 _ nth)|done].
  - intros q Hnq. apply (qof_set_q_ne s0). done.
  - intros t H1 H2. simpl. by rewrite !lookup_insert_ne.
Qed.

(** Preempting the current thread in favour of the head of the ready queue. *)
Definition swap_st (cmp : Z → Z → bool) (ntp : tid) (nth cth : thread) (l : list tid) (s : kst) : kst :=
  let s1 := put_thd (k_cur s) (set_p_state CH_STATE_READY cth) (run_st ntp nth l s) in
  put_q QReady (insert_span (λ c, cmp (prio_of s1 (k_cur s)) (prio_of s1 c)) (k_cur s) l) s1.

Lemma swap_st_K cmp s ntp nth cth l :
  (∀ x y, cmp x y = true → x ≤ y) → (∀ x y, cmp x y = false → y ≤ x) →
  wf s → in_S s → k_thd s !! k_cur s = Some cth → qof s QReady = ntp :: l →
  k_thd s !! ntp = Some nth → p_prio cth ≤ p_prio nth → K (swap_st cmp ntp nth cth l s).
Proof.
  intros Hc1 Hc2 [Hw Hcur Hu] HS Ec Hq En Hp.
  assert (ntp ≠ k_cur s) as Hne.
  { intros ->. apply (qw_out _ _ Hw (k_cur s) QReady); [set_solver|]. rewrite Hq. set_solver. }
  set (s1 := put_thd (k_cur s) (set_p_state CH_STATE_READY cth) (run_st ntp nth l s)).
  assert (qwf {[ntp; k_cur s]} s1) as Hw1.
  { apply qwf_thd_out; [apply qwf_thd_out|set_solver|simpl; by eapply qw_prio].
    - apply (qwf_ext _ (put_q QReady l s)); [done..|].
      apply (qwf_take {[k_cur s]} s); [done|by rewrite Hq|]. rewrite Hq. by constructor.
    - set_solver.
    - simpl. by eapply (qw_prio _ _ Hw). }
  assert (∀ x, prio_of s1 x = prio_of s x) as Hpr.
  { intros x. unfold s1. rewrite prio_of_put. case_decide; subst.
    - unfold prio_of. by rewrite Ec.
    - unfold run_st. rewrite prio_of_put. case_decide; subst; [|done]. unfold prio_of. by rewrite En. }
  assert (qof s1 QReady = l) as Hq1. { unfold s1. apply (qof_set_q s). }
  assert (qwf {[ntp]} (swap_st cmp ntp nth cth l s)) as Hw2.
  { replace {[ntp]} with (({[ntp; k_cur s]} : gset tid) ∖ {[k_cur s]}) by set_solver.
    apply (qwf_put _ s1 Hw1 QReady _ (set_p_state CH_STATE_READY cth)); [set_solver| |done| |].
    - simpl. by rewrite lookup_insert_eq.
    - rewrite Hq1. apply insert_span_perm.
    - intros _. pose proof (qw_sorted _ _ Hw1) as Hs1. rewrite Hq1 in Hs1. by apply sorted_insert. }
  split_and!; [split| |done].
  - done.
  - exists (set_p_state CH_STATE_CURRENT nth). simpl.
    rewrite lookup_insert_ne by done. by rewrite lookup_insert_eq.
  - intros t th. simpl. rewrite !lookup_insert.
    case_decide; [by intros [= <-]|]. case_decide; [done|]. intros Ht Hst. by destruct (Hu t th).
  - intros t Ht.
    change (prio_of s1 t ≤ prio_of s1 ntp). rewrite !Hpr.
    change (t ∈ qof (put_q QReady (insert_span (λ c, cmp (prio_of s1 (k_cur s)) (prio_of s1 c))
      (k_cur s) l) s1) QReady) in Ht.
    unfold put_q in Ht. rewrite qof_set_q, insert_span_perm, elem_of_cons in Ht.
    destruct Ht as [->|Ht].
    + unfold prio_of. by rewrite Ec, En.
    + pose proof (qw_sorted _ _ Hw) as Hs. rewrite Hq in Hs.
      apply StronglySorted_inv in Hs as [_ Hs]. rewrite Forall_forall in Hs. by apply Hs.
Qed.

Section Preempt.
Context (s : kst) (ntp : tid) (nth cth : thread) (l : list tid).
Hypothesis Hw : wf s.
Hypothesis Ec : k_thd s !! k_cur s = Some cth.
Hypothesis Hq : qof s QReady = ntp :: l.
Hypothesis En : k_thd s !! ntp = Some nth.

Lemma ready_head_ne : ntp ≠ k_cur s.
Proof using Hw Hq.
  intros E. apply (qw_out _ _ (wf_q _ Hw) (k_cur s) QReady); [by apply elem_of_singleton|].
  rewrite Hq, E. left.
Qed.

Lemma chSchDoRescheduleAhead_ok :
  chSchDoRescheduleAhead s =
    Switch (switch_st ntp (k_cur s) (set_p_state CH_STATE_READY cth) (swap_st Z.ltb ntp nth cth l s))
           (λ s', Done () s').
Proof using Hw Ec Hq En.
  pose proof ready_head_ne as Hne.
  unfold chSchDoRescheduleAhead. mgo. unfold queue_fifo_remove. mgo.
  unfold deref, Queues.queue_fifo_remove. pose proof Hq as Hq'. unfold qof in Hq'. rewrite Hq'. mgo.
  rewrite (upd_thd_ok _ ntp nth) by done. mgo.
  rewrite (upd_thd_ok _ (k_cur s) cth) by (simpl; by rewrite lookup_insert_ne). mgo.
  rewrite (chSysSwitch_ok _ _ (set_p_state CH_STATE_READY cth))
    by (simpl; by rewrite lookup_insert_eq).
  unfold swap_st, Queues.queue_prio_insert_ahead, run_st, put_thd, put_q. simpl.
  rewrite Queues.qof_insert. done.
Qed.

Lemma chSchDoRescheduleBehind_ok :
  in_I s → p_state cth = CH_STATE_CURRENT →
  chSchDoRescheduleBehind s =
    Switch (switch_st ntp (k_cur s) (set_p_state CH_STATE_READY cth) (swap_st Z.leb ntp nth cth l s))
           (λ s', Done () s').
Proof using Hw Ec Hq En.
  intros HI Hst. pose proof ready_head_ne as Hne.
  unfold chSchDoRescheduleBehind. mgo. unfold queue_fifo_remove. mgo.
  unfold deref, Queues.queue_fifo_remove. pose proof Hq as Hq'. unfold qof in Hq'. rewrite Hq'. mgo.
  rewrite (upd_thd_ok _ ntp nth) by done. mgo.
  rewrite (chSchReadyI_ok (k_cur s) cth); [..|by apply (qw_prio _ _ (wf_q _ Hw) _ _ Ec)]; mgo.
  - rewrite (chSysSwitch_ok _ _ (set_p_state CH_STATE_READY cth))
      by (simpl; by rewrite lookup_insert_eq).
    assert (swap_st Z.leb ntp nth cth l s = ready_st (k_cur s) cth (run_st ntp nth l s)) as ->; [|done].
    unfold swap_st, ready_st.
    assert (qof (run_st ntp nth l s) QReady = l) as -> by apply (qof_set_q s). done.
  - done.
  - simpl. by rewrite lookup_insert_ne.
  - congruence.
  - congruence.
Qed.
End Preempt.

(** ** Results *)

(** Leaving the critical section succeeds exactly when no ready thread has a
    higher priority than the current one. *)
Lemma chSysUnlock_ok s : K s → ∃ s', chSysUnlock s = Done () s' ∧ unlocked s' ∧
  k_cur s' = k_cur s ∧ k_thd s' = k_thd s ∧ k_q s' = k_q s ∧ k_sem s' = k_sem s.
Proof.
  intros (Hw & Hok & [Hi Hl]). unfold chSysUnlock, dbg_check_unlock. mgo.
  rewrite Hi. destruct (Z.leb_spec (k_lock s) 0); [lia|]. rewrite ?Z.eqb_refl. cbn [negb orb].
  unfold dbg_leave_lock, stats_stop_measure_crit_thd. mgo.
  match goal with |- context [chDbgAssert ?b] => assert (b = true) as -> end.
  { change (match qof s QReady with [] => true | t :: _ => prio_of s t <=? prio_of s (k_cur s) end = true).
    destruct (qof s QReady) as [|t l] eqn:E; [done|]. apply Z.leb_le, Hok. rewrite E. left. }
  mgo. eexists. split; [done|]. done.
Qed.

Lemma chSysUnlock_halts s t l :
  in_S s → qof s QReady = t :: l → prio_of s (k_cur s) < prio_of s t →
  ∃ s', chSysUnlock s = Halt "chSysUnlock" s'.
Proof.
  intros [Hi Hl] Hq Hlt. unfold chSysUnlock, dbg_check_unlock. mgo.
  rewrite Hi. destruct (Z.leb_spec (k_lock s) 0); [lia|]. rewrite ?Z.eqb_refl. cbn [negb orb].
  unfold dbg_leave_lock, stats_stop_measure_crit_thd. mgo.
  match goal with |- context [chDbgAssert ?b] => assert (b = false) as -> end.
  { change (match qof s QReady with [] => true | t :: _ => prio_of s t <=? prio_of s (k_cur s) end = false).
    rewrite Hq. by apply Z.leb_gt. }
  eexists. done.
Qed.

Lemma chSysLock_ok s : unlocked s → ∃ s', chSysLock s = Done () s' ∧ in_S s' ∧
  k_cur s' = k_cur s ∧ k_thd s' = k_thd s ∧ k_q s' = k_q s ∧ k_sem s' = k_sem s ∧
  k_mtx s' = k_mtx s ∧ k_tref s' = k_tref s ∧ k_vt s' = k_vt s ∧ k_now s' = k_now s.
Proof.
  intros [Hi Hl]. unfold chSysLock, dbg_check_lock, stats_start_measure_crit_thd. mgo.
  cbn [k_isr k_lock set_k_stats]. rewrite Hi, Hl. rewrite ?Z.eqb_refl. cbn [negb orb].
  eexists. split; [done|]. split; [|done]. split; simpl; [done|lia].
Qed.

Lemma firstprio_ready s t l : qof s QReady = t :: l → firstprio_of s = prio_of s t.
Proof. intros E. unfold firstprio_of. by rewrite E. Qed.

Lemma prio_of_thd s t th : k_thd s !! t = Some th → prio_of s t = p_prio th.
Proof. intros E. unfold prio_of. by rewrite E. Qed.

Lemma wf_ready_thd s t l : wf s → qof s QReady = t :: l →
  ∃ th, k_thd s !! t = Some th ∧ p_state th = CH_STATE_READY.
Proof. intros Hw E. apply (qw_mem _ _ (wf_q _ Hw) QReady). rewrite E. left. Qed.

(** The first ready thread is the one of highest priority. *)
Lemma sched_ok_first s : wf s → firstprio_of s ≤ prio_of s (k_cur s) → sched_ok s.
Proof.
  intros Hw Hp t Ht. unfold firstprio_of in Hp.
  pose proof (qw_sorted _ _ (wf_q _ Hw)) as Hs.
  destruct (qof s QReady) as [|x l] eqn:E; [set_solver|].
  apply StronglySorted_inv in Hs as [_ Hs]. rewrite Forall_forall in Hs.
  apply elem_of_cons in Ht as [->|Ht]; [done|]. etrans; [by apply Hs|done].
Qed.

(** The two outcomes of a reschedule. *)
Lemma chSchRescheduleS_cases s :
  wf s → in_S s →
  (chSchRescheduleS s = Done () s ∧ K s) ∨
  (∃ ntp nth cth l,
     k_thd s !! k_cur s = Some cth ∧ k_thd s !! ntp = Some nth ∧ qof s QReady = ntp :: l ∧
     prio_of s (k_cur s) < prio_of s ntp ∧ K (swap_st Z.ltb ntp nth cth l s) ∧
     chSchRescheduleS s =
       Switch (switch_st ntp (k_cur s) (set_p_state CH_STATE_READY cth) (swap_st Z.ltb ntp nth cth l s))
              (λ s', Done () s')).
Proof.
  intros Hw HS. unfold chSchRescheduleS, chSchIsRescRequiredI. mgo.
  rewrite (classS_ok s HS). mgo. rewrite (classI_ok s (in_S_I _ HS)). mgo.
  destruct (wf_cur s Hw) as (cth & Ec & _).
  destruct (Z.ltb_spec (prio_of s (k_cur s)) (firstprio_of s)) as [Hlt|Hge]; mgo.
  - right. destruct (qof s QReady) as [|ntp l] eqn:Hq.
    { pose proof (qw_prio _ _ (wf_q _ Hw) _ _ Ec) as Hp.
      unfold firstprio_of in Hlt. rewrite Hq, (prio_of_thd _ _ _ Ec) in Hlt. lia. }
    destruct (wf_ready_thd _ _ _ Hw Hq) as (nth & En & _).
    rewrite (firstprio_ready _ _ _ Hq) in Hlt. exists ntp, nth, cth, l.
    split_and!; [done..| |by apply chSchDoRescheduleAhead_ok].
    apply swap_st_K; try done; [lia..|].
    rewrite !(prio_of_thd _ _ _ Ec), !(prio_of_thd _ _ _ En) in Hlt. lia.
  - left. split; [done|]. split_and!; [done| |done]. by apply sched_ok_first.
Qed.

Lemma swap_st_prio cmp ntp nth cth l s x :
  wf s → k_thd s !! k_cur s = Some cth → k_thd s !! ntp = Some nth → qof s QReady = ntp :: l →
  prio_of (put_thd (k_cur s) (set_p_state CH_STATE_READY cth) (run_st ntp nth l s)) x = prio_of s x
  ∧ prio_of (swap_st cmp ntp nth cth l s) x = prio_of s x.
Proof.
  intros Hw Ec En Hq. pose proof (ready_head_ne s ntp l Hw Hq).
  assert (prio_of (put_thd (k_cur s) (set_p_state CH_STATE_READY cth) (run_st ntp nth l s)) x
          = prio_of s x); [|done].
  rewrite (prio_of_put_same _ cth); [|simpl; by rewrite lookup_insert_ne|done].
  unfold run_st. by rewrite (prio_of_put_same _ nth).
Qed.

Lemma swap_st_ready cmp ntp nth cth l s :
  wf s → k_thd s !! k_cur s = Some cth → k_thd s !! ntp = Some nth → qof s QReady = ntp :: l →
  qof (swap_st cmp ntp nth cth l s) QReady =
    insert_span (λ c, cmp (prio_of s (k_cur s)) (prio_of s c)) (k_cur s) l.
Proof.
  intros Hw Ec En Hq. unfold swap_st. etrans; [apply qof_set_q|].
  apply insert_span_ext. intros y _.
  by rewrite !(proj1 (swap_st_prio cmp ntp nth cth l s _ Hw Ec En Hq)).
Qed.

(** chSchRescheduleS: either no ready thread has a higher priority and the
    call changes nothing, or it switches to the first ready thread; the thread
    it preempts is READY in front of all threads of its own priority.  In both
    cases the invariant holds afterwards and the running thread has the highest
    priority of all ready threads. *)
Theorem chSchRescheduleS_correct s :
  wf s → in_S s →
  (chSchRescheduleS s = Done () s ∧ K s) ∨
  (∃ s1 ntp l a b, chSchRescheduleS s = Switch s1 (λ s', Done () s') ∧ K s1 ∧
     qof s QReady = ntp :: l ∧ k_cur s1 = ntp ∧ prio_of s (k_cur s) < prio_of s ntp ∧
     l = a ++ b ∧ qof s1 QReady = a ++ k_cur s :: b ∧
     Forall (λ t, prio_of s (k_cur s) < prio_of s t) a ∧
     (∀ t b', b = t :: b' → prio_of s t ≤ prio_of s (k_cur s))).
Proof.
  intros Hw HS.
  destruct (chSchRescheduleS_cases s Hw HS)
    as [?|(ntp & nth & cth & l & Ec & En & Hq & Hlt & HK & ->)]; [by left|right].
  set (s1 := swap_st Z.ltb ntp nth cth l s) in *.
  set (p := λ c, prio_of s (k_cur s) <? prio_of s c).
  exists (switch_st ntp (k_cur s) (set_p_state CH_STATE_READY cth) s1), ntp, l, (span p l).1, (span p l).2.
  split_and!; [done|by apply (K_ext s1)|done|done|done|by rewrite span_app| | |].
  - change (qof s1 QReady = (span p l).1 ++ k_cur s :: (span p l).2).
    rewrite <-insert_span_eq. by apply swap_st_ready.
  - eapply Forall_impl; [apply span_true|]. intros t Ht. by apply Z.ltb_lt.
  - intros t b' Hb. apply span_false in Hb. by apply Z.ltb_ge.
Qed.

(** As a computation that may switch. *)
Lemma chSchRescheduleS_post s (J : kst → Prop) :
  wf s → in_S s → (∀ s', J s' → K s') →
  post K J (chSchRescheduleS s) (λ _ s', K s').
Proof.
  intros Hw HS HJ.
  destruct (chSchRescheduleS_cases s Hw HS)
    as [[-> ?]|(ntp & nth & cth & l & Ec & En & Hq & Hlt & HK & ->)]; [done|].
  split; [by apply (K_ext (swap_st Z.ltb ntp nth cth l s))|]. intros s' Hs'. by apply HJ.
Qed.

(** Waking a thread that waits in no queue any more. *)
Section Wakeup.
Context (s : kst) (ntp : tid) (nth cth : thread) (msg : Z).
Hypothesis HS : in_S s.
Hypothesis Hw : qwf {[k_cur s; ntp]} s.
Hypothesis Ec : k_thd s !! k_cur s = Some cth.
Hypothesis Hcst : p_state cth = CH_STATE_CURRENT.
Hypothesis Hu : ∀ t th, k_thd s !! t = Some th → p_state th = CH_STATE_CURRENT → t = k_cur s.
Hypothesis En : k_thd s !! ntp = Some nth.
Hypothesis Hne : ntp ≠ k_cur s.
Hypothesis Hnst : p_state nth ≠ CH_STATE_READY ∧ p_state nth ≠ CH_STATE_FINAL.

Let nth' := set_p_u (U_msg msg) nth.
Let s1 := put_thd ntp nth' s.
Let Hw1 : qwf {[k_cur s; ntp]} s1.
Proof. apply qwf_thd_out; [done|set_solver|]. by eapply (qw_prio _ _ Hw _ _ En). Qed.
Let E1 : k_thd s1 !! ntp = Some nth'.
Proof. apply lookup_insert_eq. Qed.
Let E1c : k_thd s1 !! k_cur s = Some cth.
Proof. simpl. by rewrite lookup_insert_ne. Qed.

(** The woken thread does not preempt. *)
Lemma wake_ready_K :
  sched_ok s → p_prio nth ≤ p_prio cth → K (ready_st ntp nth' s1).
Proof using All.
  intros Hok Hp.
  assert (qwf {[k_cur s]} (ready_st ntp nth' s1)) as Hw2.
  { replace {[k_cur s]} with (({[k_cur s; ntp]} : gset tid) ∖ {[ntp]}) by set_solver.
    apply qwf_ready; [done|set_solver|done]. }
  assert (∀ x, prio_of (ready_st ntp nth' s1) x = prio_of s x) as Hpr.
  { intros x. rewrite ready_st_prio by done. by apply (prio_of_put_same _ nth). }
  split_and!; [split| |done].
  - done.
  - exists cth. rewrite ready_st_thd, decide_False by done. done.
  - intros t th. rewrite ready_st_thd. case_decide; [by intros [= <-]|].
    simpl. rewrite lookup_insert_ne by done. apply Hu.
  - intros t. rewrite ready_st_elem, !Hpr. intros [->|Ht]; [|by apply Hok].
    change (prio_of s ntp ≤ prio_of s (k_cur s)).
    by rewrite (prio_of_thd _ _ _ En), (prio_of_thd _ _ _ Ec).
Qed.

(** The woken thread preempts the current one. *)
Lemma wake_switch_K :
  sched_ok s → p_prio cth < p_prio nth →
  K (put_thd ntp (set_p_state CH_STATE_CURRENT nth') (set_k_cur ntp (ready_st (k_cur s) cth s1))).
Proof using All.
  intros Hok Hp. set (s2 := ready_st (k_cur s) cth s1).
  assert (qwf {[ntp]} s2) as Hw2.
  { replace {[ntp]} with (({[k_cur s; ntp]} : gset tid) ∖ {[k_cur s]}) by set_solver.
    apply qwf_ready; [done|set_solver|done]. }
  assert (k_thd s2 !! ntp = Some nth') as E2.
  { unfold s2. rewrite ready_st_thd, decide_False by done. done. }
  assert (∀ x, prio_of (put_thd ntp (set_p_state CH_STATE_CURRENT nth') (set_k_cur ntp s2)) x
               = prio_of s x) as Hpr.
  { intros x. rewrite (prio_of_put_same ntp nth') by done.
    change (prio_of (ready_st (k_cur s) cth s1) x = prio_of s x).
    rewrite ready_st_prio by done. by apply (prio_of_put_same _ nth). }
  split_and!; [split| |done].
  - apply qwf_thd_out; [by apply (qwf_ext _ s2)|set_solver|]. by eapply (qw_prio _ _ Hw _ _ En).
  - eexists. simpl. rewrite lookup_insert_eq. done.
  - intros t th. simpl. rewrite lookup_insert. case_decide; [done|].
    rewrite lookup_insert. case_decide; [by intros [= <-]|].
    rewrite lookup_insert_ne by done. intros Ht Hst. by destruct (Hu t th Ht Hst).
  - intros t Ht. rewrite !Hpr. change (t ∈ qof s2 QReady) in Ht.
    unfold s2 in Ht. rewrite ready_st_elem in Ht. simpl.
    rewrite (prio_of_thd _ _ _ En). destruct Ht as [->|Ht].
    + rewrite (prio_of_thd _ _ _ Ec). lia.
    + pose proof (Hok t Ht) as H. rewrite (prio_of_thd _ _ _ Ec) in H. lia.
Qed.

Lemma chSchWakeupS_ok :
  chSchWakeupS ntp msg s =
    if p_prio nth <=? p_prio cth then Done () (ready_st ntp nth' s1)
    else Switch (switch_st ntp (k_cur s) (set_p_state CH_STATE_READY cth)
           (put_thd ntp (set_p_state CH_STATE_CURRENT nth')
              (set_k_cur ntp (ready_st (k_cur s) cth s1)))) (λ s', Done () s').
Proof using All.
  unfold chSchWakeupS. mgo. rewrite (classS_ok s HS). mgo.
  rewrite (upd_thd_ok _ _ _ _ En). mgo. rewrite (thd_ok _ ntp nth') by done. mgo.
  rewrite (thd_ok _ _ cth) by done. mgo. change (p_prio nth') with (p_prio nth).
  destruct (p_prio nth <=? p_prio cth).
  - mgo. rewrite (chSchReadyI_ok ntp nth'); [done|by apply in_S_I|done|apply Hnst|apply Hnst|].
    by eapply (qw_prio _ _ Hw _ _ En).
  - mgo. rewrite (chSchReadyI_ok _ cth); [|by apply in_S_I|done|congruence|congruence|].
    + mgo. rewrite (upd_thd_ok _ ntp nth'); [mgo|].
      2: { etrans; [apply (ready_st_thd (k_cur s) cth s1)|]. by rewrite decide_False. }
      rewrite (chSysSwitch_ok _ _ (set_p_state CH_STATE_READY cth)); [done|].
      simpl. rewrite lookup_insert_ne by done. by rewrite lookup_insert_eq.
    + by eapply (qw_prio _ _ Hw _ _ Ec).
Qed.

Lemma chSchWakeupS_post (J : kst → Prop) :
  sched_ok s → (∀ s', J s' → K s') → post K J (chSchWakeupS ntp msg s) (λ _ s', K s').
Proof using All.
  intros Hok HJ. rewrite chSchWakeupS_ok. destruct (Z.leb_spec (p_prio nth) (p_prio cth)).
  - by apply wake_ready_K.
  - split; [|intros s' ?; by apply HJ]. eapply K_ext; [..|by apply wake_switch_K]; done.
Qed.
End Wakeup.

(** ** Waking a waiting thread *)

Lemma ready_st_put t th th0 s :
  k_thd s !! t = Some th0 → p_prio th = p_prio th0 → ready_st t th (put_thd t th s) = ready_st t th s.
Proof.
  intros E Ep. unfold ready_st, put_q, put_thd, set_k_q, set_k_thd. simpl. f_equal.
  - by rewrite insert_insert_eq.
  - f_equal. apply insert_span_ext. intros y _. unfold prio_of; simpl. by rewrite insert_insert_eq.
Qed.

Lemma ready_st_set_u t th u s :
  put_thd t (set_p_u u (set_p_state CH_STATE_READY th)) (ready_st t th s) = ready_st t (set_p_u u th) s.
Proof.
  unfold ready_st, put_q, put_thd, set_k_q, set_k_thd. simpl. f_equal.
  - by rewrite insert_insert_eq.
  - f_equal. apply insert_span_ext. intros y _. unfold prio_of; simpl.
    rewrite !lookup_insert. by repeat case_decide.
Qed.

Lemma qstate_waiting q th :
  q ≠ QReady → qstate q th →
  p_state th ≠ CH_STATE_READY ∧ p_state th ≠ CH_STATE_FINAL ∧ p_state th ≠ CH_STATE_CURRENT.
Proof. destruct q; simpl; intuition congruence. Qed.

(** [t] taken out of queue [q], where [l] remains, and readied with [m]. *)
Definition wake_st (q : qref) (l : list tid) (t : tid) (th : thread) (m : Z) (s : kst) : kst :=
  ready_st t (set_p_u (U_msg m) th) (put_q q l s).

Section WakeSt.
Context (s : kst) (q : qref) (t : tid) (l : list tid) (th : thread) (m : Z).
Hypothesis Hw : wf s.
Hypothesis Hq : qof s q ≡ₚ t :: l.
Hypothesis Hsub : l `sublist_of` qof s q.
Hypothesis Hqr : q ≠ QReady.
Hypothesis Et : k_thd s !! t = Some th.

Lemma wake_ne_cur : t ≠ k_cur s.
Proof using Hw Hq.
  intros E. apply (qw_out _ _ (wf_q _ Hw) (k_cur s) q); [by apply elem_of_singleton|].
  rewrite Hq, E. left.
Qed.

Lemma wake_state : p_state th ≠ CH_STATE_READY ∧ p_state th ≠ CH_STATE_FINAL.
Proof using Hw Hq Hqr Et.
  destruct (qw_mem _ _ (wf_q _ Hw) q t) as (th' & E & Hst); [rewrite Hq; left|].
  rewrite Et in E. injection E as <-.
  destruct (qstate_waiting _ _ Hqr Hst) as (? & ? & _). done.
Qed.

Lemma wake_prio : NOPRIO < p_prio th.
Proof using Hw Et. by eapply (qw_prio _ _ (wf_q _ Hw)). Qed.

Lemma take_qwf : qwf {[k_cur s; t]} (put_q q l s).
Proof using Hw Hq Hsub.
  replace {[k_cur s; t]} with ({[t]} ∪ {[k_cur s]} : gset tid) by (clear; set_solver).
  apply qwf_take; [apply Hw|done|done].
Qed.

Lemma wake_st_thd x :
  k_thd (wake_st q l t th m s) !! x =
    if decide (t = x) then Some (set_p_state CH_STATE_READY (set_p_u (U_msg m) th)) else k_thd s !! x.
Proof. exact (ready_st_thd t (set_p_u (U_msg m) th) (put_q q l s) x). Qed.

Lemma wake_st_q : qof (wake_st q l t th m s) q = l.
Proof using Hqr. unfold wake_st. rewrite ready_st_qof_ne by done. apply qof_set_q. Qed.

Lemma wake_st_q_ne q' : q' ≠ q → q' ≠ QReady → qof (wake_st q l t th m s) q' = qof s q'.
Proof. intros. unfold wake_st. rewrite ready_st_qof_ne by done. by apply qof_set_q_ne. Qed.

(** Readied with any update of the fields other than the priority. *)
Lemma ready_from_wf th' : p_prio th' = p_prio th → wf (ready_st t th' (put_q q l s)).
Proof using Hw Hq Hsub Hqr Et.
  intros Hp. pose proof wake_ne_cur as Hne. pose proof wake_prio as Hpr.
  rewrite <-(ready_st_put t th' th) by done. split.
  - change (k_cur (ready_st _ _ _)) with (k_cur s).
    replace {[k_cur s]} with (({[k_cur s; t]} : gset tid) ∖ {[t]}) by (clear -Hne; set_solver).
    apply qwf_ready; [|by apply elem_of_union_r, elem_of_singleton|by apply lookup_insert_eq].
    apply qwf_thd_out; [apply take_qwf|by apply elem_of_union_r, elem_of_singleton|lia].
  - destruct (wf_cur _ Hw) as (cth & Ec & Hc). exists cth.
    rewrite ready_st_thd, decide_False by done. simpl. by rewrite lookup_insert_ne.
  - intros x thx. rewrite ready_st_thd. case_decide; [by intros [= <-]|].
    simpl. rewrite lookup_insert_ne by done. apply (wf_uniq _ Hw).
Qed.

Lemma wake_st_wf : wf (wake_st q l t th m s).
Proof using Hw Hq Hsub Hqr Et. by apply ready_from_wf. Qed.

(** Reading the ready queue after the wake-up. *)
Lemma wake_st_ready x : x ∈ qof (wake_st q l t th m s) QReady ↔ x = t ∨ x ∈ qof s QReady.
Proof using Hqr. unfold wake_st. rewrite ready_st_elem. unfold put_q. by rewrite qof_set_q_ne. Qed.

(** The three shapes in which the sources write it. *)
Lemma wake_code_set_first :
  in_I s →
  rbind (upd_thd t (set_p_u (U_msg m)) (put_q q l s)) (λ _, chSchReadyI t)
    = Done t (wake_st q l t th m s).
Proof using Hw Hq Hqr Et.
  intros HI. rewrite (upd_thd_ok _ t th) by done. mgo.
  rewrite (chSchReadyI_ok t (set_p_u (U_msg m) th));
    [|done|apply lookup_insert_eq|apply wake_state|apply wake_state|apply wake_prio].
  f_equal. by apply (ready_st_put _ _ th).
Qed.

Lemma wake_code_set_after :
  in_I s →
  rbind (chSchReadyI t (put_q q l s)) (λ t', upd_thd t' (set_p_u (U_msg m)))
    = Done () (wake_st q l t th m s).
Proof using Hw Hq Hqr Et.
  intros HI.
  rewrite (chSchReadyI_ok t th); [|done|done|apply wake_state|apply wake_state|apply wake_prio].
  mgo. rewrite (upd_thd_ok _ t (set_p_state CH_STATE_READY th))
    by (rewrite ready_st_thd; by rewrite decide_True).
  f_equal. apply ready_st_set_u.
Qed.
End WakeSt.

Lemma queue_fifo_remove_ok q t l s :
  qof s q = t :: l → queue_fifo_remove q s = Done t (put_q q l s).
Proof.
  intros E. unfold queue_fifo_remove. mgo. unfold deref, Queues.queue_fifo_remove.
  unfold qof in E. by rewrite E.
Qed.

Lemma queue_lifo_remove_ok q t l s :
  qof s q = l ++ [t] → queue_lifo_remove q s = Done t (put_q q l s).
Proof.
  intros E. unfold queue_lifo_remove. mgo. unfold deref, Queues.queue_lifo_remove.
  unfold qof in E. rewrite E, reverse_snoc. simpl. by rewrite reverse_involutive.
Qed.

(** ** Blocking the current thread *)

Lemma K_core s s' : same_core s s' → K s → K s'.
Proof. unfold same_core. intros (?&?&?&?&?&?&?&?&?&?&?&?&?&?). by apply K_ext. Qed.

(** The current thread linked into [q], ready to sleep. *)
Definition block_st (q : qref) (l' : list tid) (cth : thread) (u : punion) (s : kst) : kst :=
  put_q q l' (put_thd (k_cur s) (set_p_u u cth) s).

Section Block.
Context (s : kst) (q : qref) (cth : thread) (u : punion) (st : tstate) (l' : list tid).
Context (ntp : tid) (l : list tid).
Hypothesis Hw : wf s.
Hypothesis HS : in_S s.
Hypothesis Ec : k_thd s !! k_cur s = Some cth.
Hypothesis Hqs : qstate q (set_p_state st (set_p_u u cth)).
Hypothesis Hqr : q ≠ QReady.
Hypothesis Hl' : l' ≡ₚ k_cur s :: qof s q.
Hypothesis Hr : qof s QReady = ntp :: l.

Lemma block_qwf s0 :
  k_thd s0 = <[k_cur s := set_p_u u cth]> (k_thd s) → k_q s0 = <[q := l']> (k_q s) →
  qwf ∅ (put_thd (k_cur s) (set_p_state st (set_p_u u cth)) s0).
Proof using All.
  intros E1 E2. set (th' := set_p_state st (set_p_u u cth)) in *.
  apply (qwf_ext _ (put_q q l' (put_thd (k_cur s) th' s))).
  - simpl. rewrite E1. by rewrite insert_insert_eq.
  - simpl. by rewrite E2.
  - replace ∅ with (({[k_cur s]} : gset tid) ∖ {[k_cur s]}) by (clear; set_solver).
    apply (qwf_put _ _) with (th := th').
    + apply qwf_thd_out; [apply Hw|by apply elem_of_singleton|].
      by apply (qw_prio _ _ (wf_q _ Hw) _ _ Ec).
    + by apply elem_of_singleton.
    + apply lookup_insert_eq.
    + done.
    + done.
    + done.
Qed.

(** [s0] is the blocked state, possibly with a timer set. *)
Lemma block_sleep s0 :
  same_core (block_st q l' cth u s) s0 →
  ∃ s1, chSchGoSleepS st s0 = Switch s1 (λ s', Done () s') ∧ K s1 ∧ same_objs s0 s1 ∧
    k_cur s1 = ntp ∧ k_thd s1 !! k_cur s = Some (set_p_state st (set_p_u u cth)) ∧
    qof s1 q = l' ∧ qof s1 QReady = l ∧
    (∀ q', q' ≠ q → q' ≠ QReady → qof s1 q' = qof s q') ∧ thd_static s s1.
Proof using All.
  intros Hc. pose proof Hc as (Ecur & Ethd & Eq & _ & _ & _ & _ & _ & _ & _ & Ei & El & _).
  simpl in Ecur, Ethd, Eq, Ei, El.
  assert (k_thd s0 !! k_cur s0 = Some (set_p_u u cth)) as Ec0.
  { rewrite Ecur, Ethd. apply lookup_insert_eq. }
  assert (st ≠ CH_STATE_CURRENT ∧ st ≠ CH_STATE_READY) as [Hst1 Hst2].
  { destruct (qstate_waiting _ _ Hqr Hqs) as (? & _ & ?). done. }
  destruct (chSchGoSleepS_K st s0 (set_p_u u cth) ntp l) as (s1 & -> & HK & Ho & E1 & E2 & E3 & Hst & E4 & E5).
  - unfold in_S. rewrite Ei, El. apply HS.
  - done.
  - rewrite Ecur. by apply block_qwf.
  - done.
  - done.
  - intros t th. rewrite Ethd, Ecur, lookup_insert. case_decide; [done|]. apply (wf_uniq _ Hw).
  - unfold qof. rewrite Eq. rewrite Queues.qof_insert_ne by done. apply Hr.
  - exists s1. rewrite Ecur in E2. split_and!; try done.
    + rewrite E4 by done. unfold qof. rewrite Eq. apply Queues.qof_insert.
    + intros q' H1 H2. rewrite E4 by done. unfold qof. rewrite Eq. by apply Queues.qof_insert_ne.
    + trans s0; [|done]. trans (put_thd (k_cur s) (set_p_u u cth) s); [by apply (thd_static_put s _ cth)|].
      by apply thd_static_eq.
Qed.
End Block.

(** What a thread resumed with a message does after [chSchGoSleepTimeoutS]. *)
Lemma rdymsg_ok s t th m : k_thd s !! t = Some th → p_u th = U_msg m → rdymsg t s = Done m s.
Proof. intros E Hu. unfold rdymsg. mgo. rewrite (thd_ok _ _ _ E). mgo. by rewrite Hu. Qed.

(** The states in which a thread that waited for a message can be resumed: it
    is current again, with a message. *)
Definition resumed (me : tid) (m : Z) (s : kst) : Prop :=
  K s ∧ k_cur s = me ∧ ∃ th, k_thd s !! me = Some th ∧ p_u th = U_msg m.

(** chSchGoSleepTimeoutS from a blocked state: one context switch, then the
    timer is disarmed if it has not fired and the message is returned. *)
Lemma chSchGoSleepTimeoutS_ok st time s :
  in_S s → vt_armed (VTLocal (k_cur s)) (k_vt s) = false → time ≠ TIME_IMMEDIATE →
  (∀ s0, same_core s s0 → ∃ s1, chSchGoSleepS st s0 = Switch s1 (λ s', Done () s') ∧ K s1 ∧ same_objs s0 s1) →
  ∃ s2 k, chSchGoSleepTimeoutS st time s = Switch s2 k ∧ K s2 ∧
    (∃ s0, same_core s s0 ∧ ∃ c, chSchGoSleepS st s0 = Switch s2 c) ∧
    ∀ s' m, resumed (k_cur s) m s' → ∃ s'', k s' = Done m s'' ∧ K s'' ∧ same_core s' s''.
Proof.
  intros HS Ha Ht Hgo. unfold chSchGoSleepTimeoutS. mgo. rewrite (classS_ok s HS). mgo.
  destruct (Z.eqb_spec TIME_INFINITE time) as [Hinf|Hfin]; cbn [negb]; mgo.
  - destruct (Hgo s) as (s2 & E & HK & Ho); [done|]. rewrite E. mgo.
    eexists _, _. split; [done|]. split; [done|]. split; [exists s; split; [done|eauto]|].
    intros s' m (HK' & Hcur & th & Eth & Hu). exists s'. mgo. rewrite Hcur.
    rewrite (rdymsg_ok _ _ _ _ Eth Hu). done.
  - destruct (chVTDoSetI_ok (VTLocal (k_cur s)) time (VtWakeup (k_cur s)) s) as (s0 & -> & Hc & _);
      [by apply in_S_I|done|done|]. mgo.
    destruct (Hgo s0 Hc) as (s2 & E & HK & Ho). rewrite E. mgo.
    eexists _, _. split; [done|]. split; [done|]. split; [exists s0; split; [done|eauto]|].
    intros s' m (HK' & Hcur & th & Eth & Hu). pose proof HK' as (_ & _ & HS').
    unfold chVTIsArmedI. mgo. rewrite (classI_ok s' (in_S_I _ HS')). mgo.
    destruct (vt_armed (VTLocal (k_cur s)) (k_vt s')) eqn:Ea; mgo.
    + destruct (chVTDoResetI_ok (VTLocal (k_cur s)) s') as (s'' & -> & Hc'); [by apply in_S_I|done|].
      mgo. pose proof Hc' as (Ecur' & Ethd' & _).
      exists s''. rewrite Ecur', Hcur.
      rewrite (rdymsg_ok s'' (k_cur s) th m); [|by rewrite Ethd'|done].
      split; [done|]. split; [by apply (K_core s')|done].
    + exists s'. rewrite Hcur, (rdymsg_ok _ _ _ _ Eth Hu). done.
Qed.

(** ** Waking a thread by itself *)

(** A thread leaves the queue it is in. *)
Lemma queue_dequeue_only q t s :
  (∀ q', t ∈ qof s q' → q = q') → t ∈ qof s q →
  queue_dequeue t s = Done t (put_q q (filter (λ x, x ≠ t) (qof s q)) s).
Proof.
  intros Ho Ht. unfold queue_dequeue, deref, Queues.queue_dequeue. mgo.
  assert (Queues.queued t (k_q s) = true) as -> by (apply Queues.queued_spec; by exists q).
  mgo. f_equal. unfold put_q. f_equal. apply map_eq. intros q'. rewrite lookup_fmap, lookup_insert.
  case_decide as E; subst.
  - unfold qof, Queues.qof in *. destruct (k_q s !! q') eqn:E; [done|]. simpl in Ht. set_solver.
  - destruct (k_q s !! q') as [l|] eqn:E'; simpl; [|done]. f_equal. apply filter_ne_notin.
    intros Hl. apply E, Ho. unfold qof, Queues.qof. by rewrite E'.
Qed.

Lemma queue_dequeue_ok X q t s :
  qwf X s → t ∈ qof s q →
  queue_dequeue t s = Done t (put_q q (filter (λ x, x ≠ t) (qof s q)) s).
Proof. intros Hw Ht. apply queue_dequeue_only; [|done]. intros q' Hq'. by apply (qw_disj _ _ Hw q q' t). Qed.

Lemma filter_ne_perm {A} `{EqDecision A} (x : A) l :
  NoDup l → x ∈ l → l ≡ₚ x :: filter (λ y, y ≠ x) l.
Proof.
  intros Hnd (a & b & ->)%list_elem_of_split. rewrite filter_ne_split by done.
  by rewrite Permutation_middle.
Qed.

Lemma filter_sublist {A} (P : A → Prop) `{∀ x, Decision (P x)} l : filter P l `sublist_of` l.
Proof.
  induction l as [|x l IH]; [done|].
  destruct (decide (P x)); [rewrite filter_cons_True by done|rewrite filter_cons_False by done];
    by constructor.
Qed.

Lemma qstate_linked q th : qstate q th → linked_state (p_state th) = true.
Proof. destruct q; simpl; [intros ->|intros [-> _]|intros [-> _]|intros [-> _]|intros ->|intros [-> _]|intros ->]; done. Qed.

(** The queue a state names. *)
Lemma qstate_inv q th :
  qstate q th →
  match p_state th with
  | CH_STATE_READY => q = QReady
  | CH_STATE_WTSEM => ∃ a, q = QSem a ∧ p_u th = U_wtsemp a
  | CH_STATE_WTMTX => ∃ a, q = QMtx a ∧ p_u th = U_wtmtxp a
  | CH_STATE_WTCOND => ∃ a, q = QCond a ∧ p_u th = U_wtobjp (QCond a)
  | CH_STATE_QUEUED => ∃ a, q = QThq a
  | CH_STATE_SNDMSGQ => ∃ t, q = QMsg t ∧ p_u th = U_wtobjp (QMsg t)
  | CH_STATE_WTEXIT => ∃ t, q = QWait t
  | _ => False
  end.
Proof.
  destruct q; simpl; [intros ->|intros [-> ->]|intros [-> ->]|intros [-> ->]|intros ->|intros [-> ->]|intros ->];
    eauto.
Qed.

(** A thread whose state says so is in no queue. *)
Lemma unlinked_notin X s t th q :
  qwf X s → k_thd s !! t = Some th → linked_state (p_state th) = false → t ∉ qof s q.
Proof.
  intros Hw E Hl Hq. destruct (qw_mem _ _ Hw q t Hq) as (th' & E' & Hst).
  rewrite E in E'. injection E' as <-. apply qstate_linked in Hst. congruence.
Qed.

Lemma qwf_add X s t : qwf X s → (∀ q, t ∉ qof s q) → qwf ({[t]} ∪ X) s.
Proof.
  intros [H1 H2 H3 H4 H5 H6 H7] Ht. split; try done.
  - intros x th Hx Hnx. apply H4; set_solver.
  - intros x q [->%elem_of_singleton|Hx]%elem_of_union; [done|]. by apply H5.
Qed.

(** A waiting thread that is in no queue becomes ready. *)
Lemma ready_free_wf s t th th' :
  wf s → k_thd s !! t = Some th → linked_state (p_state th) = false →
  p_state th ≠ CH_STATE_CURRENT → p_prio th' = p_prio th → wf (ready_st t th' s).
Proof.
  intros Hw Et Hl Hnc Hp. pose proof (qw_prio _ _ (wf_q _ Hw) _ _ Et) as Hpr.
  assert (t ≠ k_cur s) as Hne.
  { intros ->. destruct (wf_cur _ Hw) as (cth & Ec & Hc). congruence. }
  rewrite <-(ready_st_put t th' th) by done. split.
  - change (k_cur (ready_st t th' (put_thd t th' s))) with (k_cur s).
    replace {[k_cur s]} with (({[t]} ∪ {[k_cur s]} : gset tid) ∖ {[t]}) by (clear -Hne; set_solver).
    apply qwf_ready; [|by apply elem_of_union_l, elem_of_singleton|by apply lookup_insert_eq].
    apply qwf_thd_out; [|by apply elem_of_union_l, elem_of_singleton|lia].
    apply qwf_add; [apply Hw|]. intros q. by apply (unlinked_notin {[k_cur s]} s t th q (wf_q _ Hw)).
  - destruct (wf_cur _ Hw) as (cth & Ec & Hc). exists cth.
    rewrite ready_st_thd, decide_False by done. simpl. by rewrite lookup_insert_ne.
  - intros x thx. rewrite ready_st_thd. case_decide; [by intros [= <-]|].
    simpl. rewrite lookup_insert_ne by done. apply (wf_uniq _ Hw).
Qed.

(** ** Changing a priority *)

(** A thread gets another priority; the queue it is in, if that is ordered by
    priority, is reordered. *)
Lemma qwf_reprio X s t th th' q l' :
  qwf X s → k_thd s !! t = Some th → p_state th' = p_state th → p_u th' = p_u th →
  NOPRIO < p_prio th' → l' ≡ₚ qof s q → (t ∈ qof s QReady → q = QReady) →
  (q = QReady → StronglySorted (by_prio (put_thd t th' s)) l') →
  qwf X (put_q q l' (put_thd t th' s)).
Proof.
  intros [H1 H2 H3 H4 H5 H6 H7] Et Est Eu Hp Hl Hr Hs. set (s' := put_q q l' (put_thd t th' s)).
  assert (∀ q', qof s' q' ≡ₚ qof s q') as Hin.
  { intros q'. unfold s', put_q. destruct (decide (q = q')) as [<-|];
      [by rewrite qof_set_q|by rewrite qof_set_q_ne]. }
  assert (∀ q', qstate q' th → qstate q' th') as Hqs.
  { intros q'. destruct q'; simpl; by rewrite ?Est, ?Eu. }
  split.
  - intros q'. by rewrite Hin.
  - intros q1 q2 x. rewrite !Hin. apply H2.
  - intros q' x. rewrite Hin. intros Hx. destruct (H3 q' x Hx) as (thx & Ex & Hst). simpl.
    rewrite lookup_insert. case_decide; subst; [|eauto]. rewrite Et in Ex. injection Ex as <-. eauto.
  - intros x thx. simpl. rewrite lookup_insert. case_decide; subst.
    + intros [= <-] Hx Hlk. rewrite Est in Hlk. destruct (H4 x th Et Hx Hlk) as [q' Hq'].
      exists q'. by rewrite Hin.
    + intros Ex Hx Hlk. destruct (H4 x thx Ex Hx Hlk) as [q' Hq']. exists q'. by rewrite Hin.
  - intros x q' Hx. rewrite Hin. by apply H5.
  - destruct (decide (q = QReady)) as [->|Hne].
    + unfold s', put_q. rewrite qof_set_q. by apply Hs.
    + assert (qof s' QReady = qof s QReady) as -> by by apply (qof_set_q_ne (put_thd t th' s)).
      apply (StronglySorted_impl (by_prio s)); [|done]. intros x y Hx Hy.
      unfold by_prio. unfold s'. change (prio_of (put_q q l' (put_thd t th' s))) with (prio_of (put_thd t th' s)).
      rewrite !prio_of_put, !decide_False by (intros ->; naive_solver). done.
  - intros x thx. simpl. rewrite lookup_insert. case_decide; [by intros [= <-]|]. apply H7.
Qed.

Lemma qwf_qof_ext X s s' :
  k_thd s' = k_thd s → (∀ q, qof s' q = qof s q) → qwf X s → qwf X s'.
Proof.
  intros E1 E2 [H1 H2 H3 H4 H5 H6 H7]. unfold by_prio, prio_of in *.
  split; unfold by_prio, prio_of; try setoid_rewrite E2; rewrite ?E1; try done.
Qed.

(** [t], in queue [q], at the position its new priority gives it. *)
Definition reprio_st (t : tid) (th' : thread) (q : qref) (s : kst) : kst :=
  let s1 := put_thd t th' s in
  put_q q (insert_span (λ c, prio_of s1 t <=? prio_of s1 c) t (filter (λ x, x ≠ t) (qof s q))) s1.

Section Reprio.
Context (s : kst) (t : tid) (th th' : thread).
Hypothesis Hw : wf s.
Hypothesis Et : k_thd s !! t = Some th.
Hypothesis Est : p_state th' = p_state th.
Hypothesis Eu : p_u th' = p_u th.
Hypothesis Hp : NOPRIO < p_prio th'.

(** A queue sorted before is sorted after. *)
Lemma reprio_sorted q :
  StronglySorted (by_prio s) (qof s q) →
  StronglySorted (by_prio (reprio_st t th' q s)) (qof (reprio_st t th' q s) q).
Proof.
  intros Hs. unfold reprio_st, put_q. rewrite qof_set_q.
  change (by_prio _) with (λ a b, prio_of (put_thd t th' s) b ≤ prio_of (put_thd t th' s) a).
  apply (sorted_insert _ Z.leb); [lia|lia|].
  apply (StronglySorted_impl (by_prio s)).
  - intros x y Hx Hy. unfold by_prio. rewrite !prio_of_put, !decide_False; [done|..].
    + intros <-. apply list_elem_of_filter in Hx as [Hx _]. by apply Hx.
    + intros <-. apply list_elem_of_filter in Hy as [Hy _]. by apply Hy.
  - eapply StronglySorted_sublist; [apply filter_sublist|done].
Qed.

Lemma reprio_perm q q' : t ∈ qof s q → qof (reprio_st t th' q s) q' ≡ₚ qof s q'.
Proof using Hw.
  intros Hin. unfold reprio_st, put_q. destruct (decide (q = q')) as [<-|].
  - rewrite qof_set_q, insert_span_perm. symmetry. apply filter_ne_perm; [apply Hw|done].
  - by rewrite qof_set_q_ne.
Qed.

Lemma reprio_wf_of s' :
  qwf {[k_cur s]} s' → k_cur s' = k_cur s → k_thd s' = <[t := th']> (k_thd s) → wf s'.
Proof using Hw Et Est.
  intros Hq Ec Ek. split.
  - by rewrite Ec.
  - destruct (wf_cur _ Hw) as (cth & Ecur & Hc). rewrite Ec, Ek, lookup_insert.
    case_decide; subst; [|eauto]. eexists. split; [done|]. congruence.
  - intros x thx. rewrite Ek, Ec, lookup_insert. case_decide; subst; [|apply (wf_uniq _ Hw)].
    intros [= <-]. rewrite Est. by apply (wf_uniq _ Hw).
Qed.

Lemma reprio_wf q : t ∈ qof s q → wf (reprio_st t th' q s).
Proof using All.
  intros Hin. apply reprio_wf_of; [|done|done].
  eapply (qwf_reprio _ s t th th' q); [apply Hw|done..| | |].
  - pose proof (reprio_perm q q Hin) as HP. unfold reprio_st, put_q in HP. by rewrite qof_set_q in HP.
  - intros Hr. by apply (qw_disj _ _ (wf_q _ Hw) q QReady t).
  - intros ->. pose proof (reprio_sorted QReady (qw_sorted _ _ (wf_q _ Hw))) as HS.
    unfold reprio_st in HS. unfold put_q in HS. by rewrite qof_set_q in HS.
Qed.

(** The same for a thread whose queue is not ordered by priority. *)
Lemma reprio_free_wf : t ∉ qof s QReady → wf (put_thd t th' s).
Proof using All.
  intros Hn. apply reprio_wf_of; [|done|done].
  apply (qwf_qof_ext _ (put_q (QThq 1) (qof s (QThq 1)) (put_thd t th' s))); [done|..].
  - intros q. unfold put_q. destruct (decide (q = QThq 1)) as [->|];
      [by rewrite qof_set_q|by rewrite qof_set_q_ne].
  - by apply (qwf_reprio _ s t th th'); [apply Hw|..].
Qed.
End Reprio.

(** ** Updating the other fields of a thread *)

Lemma wf_put_same s t th th' :
  wf s → k_thd s !! t = Some th → p_prio th' = p_prio th → p_state th' = p_state th →
  p_u th' = p_u th → wf (put_thd t th' s).
Proof.
  intros Hw Et Ep Es Eu. apply (reprio_wf_of s t th th'); try done.
  apply (qwf_thd _ _ (wf_q _ Hw) t th th' Et Ep).
  - intros q Hq. destruct (qw_mem _ _ (wf_q _ Hw) q t Hq) as (? & ? & Hst). simplify_eq.
    destruct q; simpl in *; by rewrite ?Es, ?Eu.
  - intros Hn Hl. rewrite Es in Hl. by apply (qw_loc _ _ (wf_q _ Hw) t th).
Qed.

(** The current thread is in no queue: its priority may change too. *)
Lemma wf_put_cur s th th' :
  wf s → k_thd s !! k_cur s = Some th → p_state th' = CH_STATE_CURRENT → NOPRIO < p_prio th' →
  wf (put_thd (k_cur s) th' s).
Proof.
  intros Hw Et Es Hp. destruct (wf_cur _ Hw) as (cth & Ec & Hc). simplify_eq.
  apply (reprio_wf_of s (k_cur s) th th'); try done; [congruence|].
  apply qwf_thd_out; [apply Hw|by apply elem_of_singleton|done].
Qed.

Lemma sched_ok_put_same s t th th' :
  sched_ok s → k_thd s !! t = Some th → p_prio th' = p_prio th → sched_ok (put_thd t th' s).
Proof.
  intros Hok Et Ep x Hx. rewrite !(prio_of_put_same t th th') by done. by apply Hok.
Qed.

(** The waiting threads of a sorted queue are not above the first. *)
Lemma sorted_first s q w l x :
  StronglySorted (by_prio s) (qof s q) → qof s q = w :: l → x ∈ qof s q → prio_of s x ≤ prio_of s w.
Proof.
  intros Hs E Hx. rewrite E in Hs, Hx. apply StronglySorted_inv in Hs as [_ Hf].
  rewrite Forall_forall in Hf. apply elem_of_cons in Hx as [->|Hx]; [done|by apply Hf].
Qed.

(** ** Sleeping outside any queue *)

Section FreeSleep.
Context (s : kst) (cth : thread) (u : punion) (st : tstate) (ntp : tid) (l : list tid).
Hypothesis Hw : wf s.
Hypothesis HS : in_S s.
Hypothesis Ec : k_thd s !! k_cur s = Some cth.
Hypothesis Hst : linked_state st = false.
Hypothesis Hstc : st ≠ CH_STATE_CURRENT.
Hypothesis Hr : qof s QReady = ntp :: l.

Lemma free_sleep s0 :
  same_core (put_thd (k_cur s) (set_p_u u cth) s) s0 →
  ∃ s1, chSchGoSleepS st s0 = Switch s1 (λ s', Done () s') ∧ K s1 ∧ same_objs s0 s1 ∧
    k_cur s1 = ntp ∧ k_thd s1 !! k_cur s = Some (set_p_state st (set_p_u u cth)) ∧
    qof s1 QReady = l ∧ (∀ q', q' ≠ QReady → qof s1 q' = qof s q') ∧ thd_static s s1.
Proof using All.
  intros Hc. pose proof Hc as (Ecur & Ethd & Eq & _ & _ & _ & _ & _ & _ & _ & Ei & El & _).
  simpl in Ecur, Ethd, Eq, Ei, El.
  assert (k_thd s0 !! k_cur s0 = Some (set_p_u u cth)) as Ec0.
  { rewrite Ecur, Ethd. apply lookup_insert_eq. }
  assert (qwf ∅ (put_thd (k_cur s0) (set_p_state st (set_p_u u cth)) s0)) as Hq0.
  { apply (qwf_ext _ (put_thd (k_cur s) (set_p_state st (set_p_u u cth)) s)).
    - simpl. rewrite Ecur, Ethd. by rewrite insert_insert_eq.
    - simpl. by rewrite Eq.
    - replace ∅ with (({[k_cur s]} : gset tid) ∖ {[k_cur s]}) by (clear; set_solver).
      eapply qwf_drop; [|apply lookup_insert_eq|done].
      apply qwf_thd_out; [apply Hw|by apply elem_of_singleton|].
      by apply (qw_prio _ _ (wf_q _ Hw) _ _ Ec). }
  destruct (chSchGoSleepS_K st s0 (set_p_u u cth) ntp l) as (s1 & -> & HK & Ho & E1 & E2 & E3 & Hsta & E4 & E5).
  - unfold in_S. rewrite Ei, El. apply HS.
  - done.
  - done.
  - done.
  - intros ->. done.
  - intros t th. rewrite Ethd, Ecur, lookup_insert. case_decide; [done|]. apply (wf_uniq _ Hw).
  - unfold qof. rewrite Eq. apply Hr.
  - exists s1. rewrite Ecur in E2. split_and!; try done.
    + intros q' Hq'. rewrite E4 by done. unfold qof. by rewrite Eq.
    + trans s0; [|done]. trans (put_thd (k_cur s) (set_p_u u cth) s); [by apply (thd_static_put s _ cth)|].
      by apply thd_static_eq.
Qed.
End FreeSleep.

Lemma put_thd_comm t t' a b s : t ≠ t' → put_thd t a (put_thd t' b s) = put_thd t' b (put_thd t a s).
Proof. intros H. unfold put_thd, set_k_thd. simpl. by rewrite insert_insert_ne. Qed.
Lemma put_q_comm q q' a b s : q ≠ q' → put_q q a (put_q q' b s) = put_q q' b (put_q q a s).
Proof. intros H. unfold put_q, set_k_q. simpl. by rewrite insert_insert_ne. Qed.

(** Readying a thread and queueing another one commute. *)
Lemma ready_st_comm t th q X c cth c2 s :
  q ≠ QReady → t ≠ c → k_thd s !! c = Some cth → p_prio c2 = p_prio cth →
  ready_st t th (put_q q X (put_thd c c2 s)) = put_q q X (put_thd c c2 (ready_st t th s)).
Proof.
  intros Hq Ht Ec Hp. unfold ready_st.
  rewrite !put_thd_q, (put_thd_comm t c), (put_q_comm QReady q) by done. f_equal.
  rewrite qof_put_q_ne, qof_put_thd by done. f_equal. apply insert_span_ext. intros y _.
  rewrite !prio_of_put_q. f_equal; rewrite !prio_of_put; repeat case_decide; subst; try done;
    unfold prio_of; by rewrite Ec, Hp.
Qed.

(** ** Leaving the kernel *)

(** A state between two kernel calls, in thread context. *)
Definition user (s : kst) : Prop := wf s ∧ sched_ok s ∧ unlocked s.

Lemma unlock_user s : K s → ∃ s', chSysUnlock s = Done () s' ∧ user s' ∧ same_data s s'.
Proof.
  intros HK. pose proof HK as (Hw & Hok & [Hi Hl]).
  destruct (chSysUnlock_ok s HK) as (s' & E & Hu & E1 & E2 & E3 & _). exists s'. split; [done|].
  split; [split_and!; [by apply (wf_ext s)|by apply (sched_ok_ext s)|done]|].
  revert E. unfold chSysUnlock, dbg_check_unlock. mgo.
  rewrite Hi. destruct (Z.leb_spec (k_lock s) 0); [lia|]. rewrite ?Z.eqb_refl. cbn [negb orb].
  unfold dbg_leave_lock, stats_stop_measure_crit_thd. mgo.
  unfold chDbgAssert. case_match; [|done]. intros [= <-]. done.
Qed.

Lemma lock_user s : user s → ∃ s', chSysLock s = Done () s' ∧ K s' ∧ same_data s s'.
Proof.
  intros (Hw & Hok & Hu). destruct (chSysLock_ok s Hu) as (s' & E & HS & E1 & E2 & E3 & _).
  exists s'. split; [done|]. split; [split_and!; [by apply (wf_ext s)|by apply (sched_ok_ext s)|done]|].
  destruct Hu as [Hi Hl]. revert E. unfold chSysLock, dbg_check_lock, stats_start_measure_crit_thd. mgo.
  cbn [k_isr k_lock set_k_stats]. rewrite Hi, Hl, ?Z.eqb_refl. cbn [negb orb].
  unfold dbg_enter_lock. mgo. intros [= <-]. done.
Qed.

(** The tail [chSysUnlock(); return a;] *)
Lemma unlock_post {A} (a : A) s :
  K s → post K K (rbind (chSysUnlock s) (λ _ x, Done a x)) (λ r s', r = a ∧ user s').
Proof. intros HK. destruct (unlock_user s HK) as (s' & -> & Hu & _). done. Qed.

(** A function that ends with [chSysUnlock()]. *)
Lemma unlock_tail {A} (r : res A) :
  post K K r (λ _ s', K s') → post K K (rbind r (λ _, chSysUnlock)) (λ _ s', user s').
Proof.
  intros Hr. apply post_bind. eapply post_mono; [|exact Hr]. intros a s' HK.
  destruct (unlock_user s' HK) as (s'' & -> & Hu & _). done.
Qed.

(** The tail [chSchRescheduleS(); chSysUnlock(); return a;] *)
Lemma resched_unlock_post {A} (a : A) s :
  wf s → in_S s →
  post K K (rbind (chSchRescheduleS s) (λ _ x, rbind (chSysUnlock x) (λ _ y, Done a y)))
    (λ r s', r = a ∧ user s').
Proof.
  intros Hw HS. apply post_bind. eapply post_mono; [|by apply chSchRescheduleS_post].
  intros [] s' HK. by apply unlock_post.
Qed.

(** [chSchWakeupS] of a thread that is in no queue, from a state between
    operations. *)
Lemma wakeup_free_post s t th msg :
  qwf {[k_cur s; t]} s → in_S s → sched_ok s →
  (∃ cth, k_thd s !! k_cur s = Some cth ∧ p_state cth = CH_STATE_CURRENT) →
  (∀ x thx, k_thd s !! x = Some thx → p_state thx = CH_STATE_CURRENT → x = k_cur s) →
  k_thd s !! t = Some th → t ≠ k_cur s → p_state th ≠ CH_STATE_READY → p_state th ≠ CH_STATE_FINAL →
  post K K (chSchWakeupS t msg s) (λ _ s', K s').
Proof. intros Hq HS Hok (cth & Ec & Hc) Hu Et Hne H1 H2. by eapply (chSchWakeupS_post s t th cth msg). Qed.

Lemma wakeup_unlock_post {A} (a : A) s t th msg :
  qwf {[k_cur s; t]} s → in_S s → sched_ok s →
  (∃ cth, k_thd s !! k_cur s = Some cth ∧ p_state cth = CH_STATE_CURRENT) →
  (∀ x thx, k_thd s !! x = Some thx → p_state thx = CH_STATE_CURRENT → x = k_cur s) →
  k_thd s !! t = Some th → t ≠ k_cur s → p_state th ≠ CH_STATE_READY → p_state th ≠ CH_STATE_FINAL →
  post K K (rbind (chSchWakeupS t msg s) (λ _ x, rbind (chSysUnlock x) (λ _ y, Done a y)))
    (λ r s', r = a ∧ user s').
Proof.
  intros Hq HS Hok Hc Hu Et Hne H1 H2. apply post_bind.
  eapply post_mono; [|by eapply (wakeup_free_post s t th msg)].
  intros [] s' HK. by apply unlock_post.
Qed.

(** The same for a thread taken out of queue [q], where [l] remains. *)
Lemma wakeup_from_post s q t l th msg :
  K s → qof s q ≡ₚ t :: l → l `sublist_of` qof s q → q ≠ QReady → k_thd s !! t = Some th →
  post K K (chSchWakeupS t msg (put_q q l s)) (λ _ s', K s').
Proof.
  intros (Hw & Hok & HS) Hp Hsub Hq Et.
  pose proof (wake_state s q t l th Hw Hp Hq Et) as [H1 H2].
  apply (wakeup_free_post (put_q q l s) t th); try done.
  - by apply (take_qwf s q t l).
  - intros x Hx. unfold put_q in Hx. rewrite qof_set_q_ne in Hx by done. by apply Hok.
  - exact (wf_cur _ Hw).
  - exact (wf_uniq _ Hw).
  - by apply (wake_ne_cur s q t l).
Qed.
