(* ===== verification/Sem.v ===== *)
(** * Counting and binary semaphores (os/rt/src/chsem.c, os/rt/include/chsem.h, chbsem.h)

    [CH_CFG_USE_SEMAPHORES_PRIORITY] is FALSE: waiting threads queue in FIFO
    order.  The counter of a semaphore is [k_sem], its queue [QSem]. *)

From S2P Require Import Prelude TimeMeas Kernel ThreadQueues Sys VTimers Sched.

(** ** Operations *)

Definition sem_cnt (sp : addr) : M Z := deref (λ s, k_sem s !! sp).
Definition set_cnt (sp : addr) (n : Z) : M unit :=
  modify (λ s, set_k_sem (<[sp := n]> (k_sem s)) s).
Definition sem_insert (tp : tid) (sp : addr) : M unit := queue_insert tp (QSem sp).

(** The consistency condition asserted on entry of most operations. *)
Definition sem_consistent (c : Z) (l : list tid) : bool :=
  match l with [] => 0 <=? c | _ => c <? 0 end.
Definition sem_assert (sp : addr) (func : string) : M unit :=
  c ← sem_cnt sp; l ← gets (λ s, qof s (QSem sp)); chDbgAssert (sem_consistent c l) func.

Definition chSemObjectInit (sp : addr) (n : Z) : M unit :=
  chDbgCheck (0 <=? n) "chSemObjectInit" ;; queue_init (QSem sp) ;; set_cnt sp n.

(** [while (++cnt <= 0) chSchReadyI(queue_lifo_remove(q))->p_u.rdymsg = MSG_RESET;] *)
Fixpoint sem_reset_loop (fuel : nat) (sp : addr) (cnt : Z) : M unit :=
  match fuel with
  | O => fault
  | S fuel =>
      cnt' ← cnt_inc cnt;
      if cnt' <=? 0 then
        tp ← queue_lifo_remove (QSem sp);
        tp ← chSchReadyI tp;
        upd_thd tp (set_p_u (U_msg MSG_RESET)) ;;
        sem_reset_loop fuel sp cnt'
      else mret ()
  end.

Definition chSemResetI (sp : addr) (n : Z) : M unit :=
  chDbgCheckClassI ;;
  chDbgCheck (0 <=? n) "chSemResetI" ;;
  sem_assert sp "chSemResetI" ;;
  cnt ← sem_cnt sp;
  set_cnt sp n ;;
  sem_reset_loop (S (Z.to_nat (- cnt))) sp cnt.

Definition chSemReset (sp : addr) (n : Z) : M unit :=
  chSysLock ;; chSemResetI sp n ;; chSchRescheduleS ;; chSysUnlock.

Definition chSemWaitS (sp : addr) : M Z :=
  chDbgCheckClassS ;;
  sem_assert sp "chSemWaitS" ;;
  c ← sem_cnt sp; c' ← cnt_dec c; set_cnt sp c' ;;
  if c' <? 0 then
    ctp ← currp;
    upd_thd ctp (set_p_u (U_wtsemp sp)) ;;
    sem_insert ctp sp ;;
    chSchGoSleepS CH_STATE_WTSEM ;;
    ctp ← currp; rdymsg ctp
  else mret MSG_OK.

Definition chSemWait (sp : addr) : M Z :=
  chSysLock ;; msg ← chSemWaitS sp; chSysUnlock ;; mret msg.

Definition chSemWaitTimeoutS (sp : addr) (time : Z) : M Z :=
  chDbgCheckClassS ;;
  sem_assert sp "chSemWaitTimeoutS" ;;
  c ← sem_cnt sp; c' ← cnt_dec c; set_cnt sp c' ;;
  if c' <? 0 then
    if TIME_IMMEDIATE =? time then
      c'' ← cnt_inc c'; set_cnt sp c'' ;; mret MSG_TIMEOUT
    else
      ctp ← currp;
      upd_thd ctp (set_p_u (U_wtsemp sp)) ;;
      sem_insert ctp sp ;;
      chSchGoSleepTimeoutS CH_STATE_WTSEM time
  else mret MSG_OK.

Definition chSemWaitTimeout (sp : addr) (time : Z) : M Z :=
  chSysLock ;; msg ← chSemWaitTimeoutS sp time; chSysUnlock ;; mret msg.

Definition chSemSignal (sp : addr) : M unit :=
  sem_assert sp "chSemSignal" ;;
  chSysLock ;;
  c ← sem_cnt sp; c' ← cnt_inc c; set_cnt sp c' ;;
  (if c' <=? 0 then tp ← queue_fifo_remove (QSem sp); chSchWakeupS tp MSG_OK else mret ()) ;;
  chSysUnlock.

Definition chSemSignalI (sp : addr) : M unit :=
  chDbgCheckClassI ;;
  sem_assert sp "chSemSignalI" ;;
  c ← sem_cnt sp; c' ← cnt_inc c; set_cnt sp c' ;;
  if c' <=? 0 then
    tp ← queue_fifo_remove (QSem sp);
    upd_thd tp (set_p_u (U_msg MSG_OK)) ;;
    chSchReadyI tp ;; mret ()
  else mret ().

(** [chSchReadyI(queue_fifo_remove(q))->p_u.rdymsg = MSG_OK] *)
Definition sem_wake_next (sp : addr) : M unit :=
  tp ← queue_fifo_remove (QSem sp);
  tp ← chSchReadyI tp;
  upd_thd tp (set_p_u (U_msg MSG_OK)).

Fixpoint sem_add_loop (n : nat) (sp : addr) : M unit :=
  match n with
  | O => mret ()
  | S n =>
      c ← sem_cnt sp; c' ← cnt_inc c; set_cnt sp c' ;;
      (if c' <=? 0 then sem_wake_next sp else mret ()) ;;
      sem_add_loop n sp
  end.

Definition chSemAddCounterI (sp : addr) (n : Z) : M unit :=
  chDbgCheckClassI ;;
  chDbgCheck (0 <? n) "chSemAddCounterI" ;;
  sem_assert sp "chSemAddCounterI" ;;
  sem_add_loop (Z.to_nat n) sp.

Definition chSemSignalWait (sps spw : addr) : M Z :=
  sem_assert sps "chSemSignalWait" ;;
  sem_assert spw "chSemSignalWait" ;;
  chSysLock ;;
  c ← sem_cnt sps; c' ← cnt_inc c; set_cnt sps c' ;;
  (if c' <=? 0 then sem_wake_next sps else mret ()) ;;
  w ← sem_cnt spw; w' ← cnt_dec w; set_cnt spw w' ;;
  msg ← (if w' <? 0 then
           ctp ← currp;
           sem_insert ctp spw ;;
           upd_thd ctp (set_p_u (U_wtsemp spw)) ;;
           chSchGoSleepS CH_STATE_WTSEM ;;
           rdymsg ctp
         else chSchRescheduleS ;; mret MSG_OK);
  chSysUnlock ;; mret msg.

Definition chSemFastWaitI (sp : addr) : M unit :=
  chDbgCheckClassI ;; c ← sem_cnt sp; c' ← cnt_dec c; set_cnt sp c'.
Definition chSemGetCounterI (sp : addr) : M Z := chDbgCheckClassI ;; sem_cnt sp.

(** Binary semaphores: a semaphore whose counter does not exceed one. *)
Definition chBSemObjectInit (bsp : addr) (taken : bool) : M unit :=
  chSemObjectInit bsp (if taken then 0 else 1).
Definition chBSemWait (bsp : addr) : M Z := chSemWait bsp.
Definition chBSemWaitS (bsp : addr) : M Z := chDbgCheckClassS ;; chSemWaitS bsp.
Definition chBSemWaitTimeoutS (bsp : addr) (time : Z) : M Z :=
  chDbgCheckClassS ;; chSemWaitTimeoutS bsp time.
Definition chBSemWaitTimeout (bsp : addr) (time : Z) : M Z := chSemWaitTimeout bsp time.
Definition chBSemResetI (bsp : addr) (taken : bool) : M unit :=
  chDbgCheckClassI ;; chSemResetI bsp (if taken then 0 else 1).
Definition chBSemReset (bsp : addr) (taken : bool) : M unit :=
  chSemReset bsp (if taken then 0 else 1).
Definition chBSemSignalI (bsp : addr) : M unit :=
  chDbgCheckClassI ;; c ← sem_cnt bsp; when (c <? 1) (chSemSignalI bsp).
Definition chBSemSignal (bsp : addr) : M unit :=
  chSysLock ;; chBSemSignalI bsp ;; chSchRescheduleS ;; chSysUnlock.
Definition chBSemGetStateI (bsp : addr) : M bool :=
  chDbgCheckClassI ;; c ← sem_cnt bsp; mret (if 0 <? c then false else true).

(** ** The semaphore invariant *)

(** A negative counter is the number of waiting threads. *)
Definition sem_ok (c : Z) (l : list tid) : Prop := Z.of_nat (length l) = Z.max 0 (- c).

Definition sem_wf (s : kst) : Prop :=
  ∀ sp, match k_sem s !! sp with
        | Some c => sem_ok c (qof s (QSem sp)) ∧ is_s32 c
        | None => qof s (QSem sp) = []
        end.

Lemma sem_ok_consistent c l : sem_ok c l → sem_consistent c l = true.
Proof.
  unfold sem_ok, sem_consistent. destruct l; simpl; intros; [apply Z.leb_le|apply Z.ltb_lt]; lia.
Qed.

Lemma sem_wf_upd s s' sp c l :
  sem_wf s → k_sem s' = <[sp := c]> (k_sem s) → qof s' (QSem sp) = l →
  (∀ sp', sp' ≠ sp → qof s' (QSem sp') = qof s (QSem sp')) →
  sem_ok c l → is_s32 c → sem_wf s'.
Proof.
  intros Hs Ek Eq Eo Hok Hr sp'. rewrite Ek. destruct (decide (sp = sp')) as [<-|Hne].
  - rewrite lookup_insert_eq, Eq. done.
  - rewrite lookup_insert_ne by done. rewrite Eo by done. apply Hs.
Qed.

Lemma sem_wf_same s s' :
  sem_wf s → k_sem s' = k_sem s → (∀ sp, qof s' (QSem sp) = qof s (QSem sp)) → sem_wf s'.
Proof. intros Hs E1 E2 sp. rewrite E1, E2. apply Hs. Qed.

(** The assertion on entry holds in every well-formed state. *)
Lemma sem_assert_ok s sp c func :
  sem_wf s → k_sem s !! sp = Some c → sem_assert sp func s = Done () s.
Proof.
  intros Hs E. unfold sem_assert, sem_cnt. mgo. unfold deref. rewrite E. mgo.
  pose proof (Hs sp) as H. rewrite E in H. rewrite sem_ok_consistent by apply H. done.
Qed.

Lemma sem_cnt_ok s sp c : k_sem s !! sp = Some c → sem_cnt sp s = Done c s.
Proof. intros E. unfold sem_cnt, deref. by rewrite E. Qed.

Lemma cnt_inc_ok c s : c < INT32_MAX → cnt_inc c s = Done (c + 1) s.
Proof. intros H. unfold cnt_inc. destruct (Z.eqb_spec c INT32_MAX); [lia|done]. Qed.
Lemma cnt_dec_ok c s : INT32_MIN < c → cnt_dec c s = Done (c - 1) s.
Proof. intros H. unfold cnt_dec. destruct (Z.eqb_spec c INT32_MIN); [lia|done]. Qed.

(** ** Signal *)

Definition cnt_st (sp : addr) (c : Z) (s : kst) : kst := set_k_sem (<[sp := c]> (k_sem s)) s.

(** The effect of one signal: the oldest waiter, if any, is readied with MSG_OK. *)
Definition signal_st (sp : addr) (c : Z) (s : kst) : kst :=
  match qof s (QSem sp) with
  | [] => cnt_st sp (c + 1) s
  | t :: l =>
      match k_thd s !! t with
      | Some th => wake_st (QSem sp) l t th MSG_OK (cnt_st sp (c + 1) s)
      | None => cnt_st sp (c + 1) s
      end
  end.

Lemma wf_cnt sp c s : wf s → wf (cnt_st sp c s).
Proof. by apply wf_ext. Qed.

Section Signal.
Context (s : kst) (sp : addr) (c : Z).
Hypothesis Hw : wf s.
Hypothesis Hsw : sem_wf s.
Hypothesis HI : in_I s.
Hypothesis Ec : k_sem s !! sp = Some c.
Hypothesis Hc : c < INT32_MAX.

Lemma sem_at : sem_ok c (qof s (QSem sp)) ∧ is_s32 c.
Proof using Hsw Ec. pose proof (Hsw sp) as H. by rewrite Ec in H. Qed.

Lemma sem_waiter t l : qof s (QSem sp) = t :: l → ∃ th, k_thd s !! t = Some th ∧ p_state th = CH_STATE_WTSEM.
Proof using Hw.
  intros E. destruct (qw_mem _ _ (wf_q _ Hw) (QSem sp) t) as (th & Et & Hst & _); [rewrite E; left|eauto].
Qed.

Lemma signal_st_wf :
  wf (signal_st sp c s) ∧ sem_wf (signal_st sp c s) ∧
  k_sem (signal_st sp c s) = <[sp := c + 1]> (k_sem s) ∧
  qof (signal_st sp c s) (QSem sp) = tail (qof s (QSem sp)).
Proof using Hw Hsw Ec Hc.
  destruct sem_at as [Hok Hr]. unfold sem_ok, is_s32 in *. unfold signal_st.
  destruct (qof s (QSem sp)) as [|t l] eqn:E; simpl in Hok.
  - split_and!; [by apply wf_cnt| |done|done].
    apply (sem_wf_upd s _ sp (c + 1) []); [done|done|exact E|done| |]; unfold sem_ok, is_s32; simpl; lia.
  - destruct (sem_waiter t l E) as (th & Et & _). rewrite Et.
    assert (wf (wake_st (QSem sp) l t th MSG_OK (cnt_st sp (c + 1) s))) as Hw'.
    { apply wake_st_wf; [by apply wf_cnt| | |done|done].
      - change (qof s (QSem sp) ≡ₚ t :: l). by rewrite E.
      - change (l `sublist_of` qof s (QSem sp)). rewrite E. by constructor. }
    split_and!; [done| |done|by apply wake_st_q].
    eapply (sem_wf_upd s); [done|done|by apply wake_st_q| | |unfold is_s32; lia].
    + intros sp' Hne. by rewrite wake_st_q_ne by congruence.
    + unfold sem_ok. lia.
Qed.

Lemma chSemSignalI_ok : chSemSignalI sp s = Done () (signal_st sp c s).
Proof using All.
  destruct sem_at as [Hok Hr]. unfold sem_ok in Hok.
  unfold chSemSignalI. mgo. rewrite (classI_ok s HI). mgo. rewrite (sem_assert_ok _ _ _ _ Hsw Ec). mgo.
  rewrite (sem_cnt_ok _ _ _ Ec). mgo. rewrite cnt_inc_ok by done. unfold set_cnt. mgo.
  unfold signal_st. destruct (qof s (QSem sp)) as [|t l] eqn:E; simpl in Hok.
  - destruct (Z.leb_spec (c + 1) 0); [lia|]. done.
  - destruct (Z.leb_spec (c + 1) 0); [|lia]. mgo.
    rewrite (queue_fifo_remove_ok (QSem sp) t l) by done. mgo.
    destruct (sem_waiter t l E) as (th & Et & _). rewrite Et.
    assert (Hwk := wake_code_set_first (cnt_st sp (c + 1) s) (QSem sp) t l th MSG_OK
      (wf_cnt _ _ _ Hw) ltac:(change (qof s (QSem sp) ≡ₚ t :: l); by rewrite E) ltac:(done) Et HI).
    rewrite (upd_thd_ok _ t th), rbind_done in Hwk by done. rewrite (upd_thd_ok _ t th) by done. mgo.
    change (set_k_sem _ s) with (cnt_st sp (c + 1) s). by rewrite Hwk.
Qed.

(** The loop body of chSemAddCounterI and chSemSignalWait has the same effect. *)
Lemma sem_signal_body_ok {A} (k : M A) :
  (c ← sem_cnt sp; c' ← cnt_inc c; set_cnt sp c' ;;
   (if c' <=? 0 then sem_wake_next sp else mret ()) ;; k) s = k (signal_st sp c s).
Proof using All.
  destruct sem_at as [Hok Hr]. unfold sem_ok in Hok. mgo.
  rewrite (sem_cnt_ok _ _ _ Ec). mgo. rewrite cnt_inc_ok by done. unfold set_cnt. mgo.
  unfold signal_st. destruct (qof s (QSem sp)) as [|t l] eqn:E; simpl in Hok.
  - destruct (Z.leb_spec (c + 1) 0); [lia|]. done.
  - destruct (Z.leb_spec (c + 1) 0); [|lia]. unfold sem_wake_next. mgo.
    change (set_k_sem _ s) with (cnt_st sp (c + 1) s).
    rewrite (queue_fifo_remove_ok (QSem sp) t l) by done. mgo.
    destruct (sem_waiter t l E) as (th & Et & _). rewrite Et.
    rewrite (wake_code_set_after (cnt_st sp (c + 1) s) (QSem sp) t l th MSG_OK); [done|by apply wf_cnt| |done|done|done].
    change (qof s (QSem sp) ≡ₚ t :: l). by rewrite E.
Qed.
End Signal.

Lemma signal_st_ctx sp c s :
  k_cur (signal_st sp c s) = k_cur s ∧ k_isr (signal_st sp c s) = k_isr s ∧ k_lock (signal_st sp c s) = k_lock s.
Proof. unfold signal_st. by repeat case_match. Qed.

Lemma signal_st_in_I sp c s : in_I s → in_I (signal_st sp c s).
Proof. unfold signal_st. by repeat case_match. Qed.

(** [n] signals in a row. *)
Fixpoint repeatM (n : nat) (m : M unit) : M unit :=
  match n with O => mret () | S n => m ;; repeatM n m end.

Lemma sem_add_loop_signals n sp c s :
  wf s → sem_wf s → in_I s → k_sem s !! sp = Some c → c + Z.of_nat n ≤ INT32_MAX →
  sem_add_loop n sp s = repeatM n (chSemSignalI sp) s ∧
  ∃ s', sem_add_loop n sp s = Done () s' ∧ wf s' ∧ sem_wf s' ∧
    k_sem s' = <[sp := c + Z.of_nat n]> (k_sem s) ∧ qof s' (QSem sp) = drop n (qof s (QSem sp)).
Proof.
  revert c s. induction n as [|n IH]; intros c s Hw Hsw HI Ec Hn.
  - split; [done|]. exists s. split_and!; try done. by rewrite Z.add_0_r, insert_id.
  - cbn [sem_add_loop repeatM].
    assert (c < INT32_MAX) as Hc by lia.
    destruct (signal_st_wf s sp c Hw Hsw Ec Hc) as (Hw' & Hsw' & Ek & Eq).
    rewrite (sem_signal_body_ok s sp c Hw Hsw HI Ec Hc).
    mgo. rewrite (chSemSignalI_ok s sp c Hw Hsw HI Ec Hc). mgo.
    destruct (IH (c + 1) (signal_st sp c s)) as (E & s' & E' & Hw2 & Hsw2 & Ek2 & Eq2);
      [done|done|by apply signal_st_in_I|by rewrite Ek, lookup_insert_eq|lia|].
    split; [done|]. exists s'. split_and!; try done.
    + rewrite Ek2, Ek, insert_insert_eq. f_equal. lia.
    + rewrite Eq2, Eq. destruct (qof s (QSem sp)); simpl; [by rewrite drop_nil|done].
Qed.

(** chSemAddCounterI adds [n] exactly as [n] calls of chSemSignalI: the same
    final state, waking the first [n] waiters in FIFO order. *)
Theorem chSemAddCounterI_correct s sp c n :
  wf s → sem_wf s → in_I s → k_sem s !! sp = Some c → 0 < n → c + n ≤ INT32_MAX →
  chSemAddCounterI sp n s = repeatM (Z.to_nat n) (chSemSignalI sp) s ∧
  ∃ s', chSemAddCounterI sp n s = Done () s' ∧ wf s' ∧ sem_wf s' ∧
    k_sem s' = <[sp := c + n]> (k_sem s) ∧
    qof s' (QSem sp) = drop (Z.to_nat n) (qof s (QSem sp)).
Proof.
  intros Hw Hsw HI Ec Hn Hmax.
  destruct (sem_add_loop_signals (Z.to_nat n) sp c s) as (E1 & s' & E2 & R); try done; [lia|].
  rewrite Z2Nat.id in R by lia.
  assert (chSemAddCounterI sp n s = sem_add_loop (Z.to_nat n) sp s) as ->.
  { unfold chSemAddCounterI. mgo. rewrite (classI_ok s HI). mgo.
    destruct (Z.ltb_spec 0 n); [|lia]. mgo. by rewrite (sem_assert_ok _ _ _ _ Hsw Ec). }
  split; [done|]. exists s'. done.
Qed.

(** ** Reset *)

(** The loop wakes all waiters, the last one first. *)
Lemma sem_reset_loop_ok sp l : ∀ s cnt fuel,
  wf s → in_I s → qof s (QSem sp) = l → Z.of_nat (length l) = Z.max 0 (- cnt) → cnt < INT32_MAX →
  (length l < fuel)%nat →
  ∃ s', sem_reset_loop fuel sp cnt s = Done () s' ∧ wf s' ∧ in_I s' ∧
    k_sem s' = k_sem s ∧ (k_cur s' = k_cur s ∧ k_isr s' = k_isr s ∧ k_lock s' = k_lock s) ∧ qof s' (QSem sp) = [] ∧
    (∀ q, q ≠ QReady → q ≠ QSem sp → qof s' q = qof s q) ∧
    (∀ t, k_thd s' !! t = if decide (t ∈ l) then set_p_state CH_STATE_READY ∘ set_p_u (U_msg MSG_RESET) <$> k_thd s !! t
                          else k_thd s !! t).
Proof.
  induction l as [|t l IH] using rev_ind; intros s cnt [|fuel] Hw HI Hq Hlen Hc Hf; simpl in *; try lia.
  - mgo. rewrite cnt_inc_ok by done. mgo. destruct (Z.leb_spec (cnt + 1) 0); [lia|].
    exists s. split_and!; done.
  - rewrite length_app in Hlen, Hf; simpl in Hlen, Hf.
    mgo. rewrite cnt_inc_ok by done. mgo. destruct (Z.leb_spec (cnt + 1) 0); [|lia]. mgo.
    rewrite (queue_lifo_remove_ok (QSem sp) t l) by done. mgo.
    destruct (qw_mem _ _ (wf_q _ Hw) (QSem sp) t) as (th & Et & _); [rewrite Hq; set_solver|].
    assert (qof s (QSem sp) ≡ₚ t :: l) as Hp. { rewrite Hq. by rewrite Permutation_app_comm. }
    assert (t ∉ l) as Htl.
    { pose proof (qw_nodup _ _ (wf_q _ Hw) (QSem sp)) as Hnd. rewrite Hp in Hnd. by apply NoDup_cons in Hnd as []. }
    pose proof (wake_code_set_after s (QSem sp) t l th MSG_RESET Hw Hp ltac:(done) Et HI) as Hwk.
    rewrite (chSchReadyI_ok t th) in Hwk |- *;
      try (by eapply wake_prio || by eapply (wake_state s (QSem sp) t l)) || done.
    rewrite rbind_done in Hwk. mgo. rewrite Hwk. mgo.
    destruct (IH (wake_st (QSem sp) l t th MSG_RESET s) (cnt + 1) fuel) as (s' & E & R1 & R2 & R3 & (R4 & R4i & R4l) & R5 & R6 & R7);
      [|done|by apply wake_st_q|lia|unfold INT32_MAX in *; lia|lia|].
    { apply wake_st_wf; try done. rewrite Hq. apply sublist_inserts_r. done. }
    exists s'. split_and!; try done.
    + intros q H1 H2. rewrite R6 by done. by apply wake_st_q_ne.
    + intros x. rewrite R7, wake_st_thd. destruct (decide (t = x)) as [<-|Hne].
      * rewrite decide_False, decide_True by set_solver. by rewrite Et.
      * destruct (decide (x ∈ l)); [rewrite decide_True by set_solver|rewrite decide_False by set_solver]; done.
Qed.

Lemma chSemResetI_ok s sp c n :
  wf s → sem_wf s → in_I s → k_sem s !! sp = Some c → c < INT32_MAX → 0 ≤ n ≤ INT32_MAX →
  ∃ s', chSemResetI sp n s = Done () s' ∧ wf s' ∧ sem_wf s' ∧
    k_sem s' = <[sp := n]> (k_sem s) ∧ qof s' (QSem sp) = [] ∧
    (k_cur s' = k_cur s ∧ k_isr s' = k_isr s ∧ k_lock s' = k_lock s) ∧
    (∀ t, k_thd s' !! t =
       if decide (t ∈ qof s (QSem sp))
       then set_p_state CH_STATE_READY ∘ set_p_u (U_msg MSG_RESET) <$> k_thd s !! t
       else k_thd s !! t).
Proof.
  intros Hw Hsw HI Ec Hc Hn. destruct (sem_at s sp c Hsw Ec) as [Hok Hr]. unfold sem_ok in Hok.
  unfold chSemResetI. mgo. rewrite (classI_ok s HI). mgo.
  destruct (Z.leb_spec 0 n); [|lia]. mgo. rewrite (sem_assert_ok _ _ _ _ Hsw Ec). mgo.
  rewrite (sem_cnt_ok _ _ _ Ec). unfold set_cnt. mgo.
  destruct (sem_reset_loop_ok sp (qof s (QSem sp)) (cnt_st sp n s) c (S (Z.to_nat (- c))))
    as (s' & E & R1 & R2 & R3 & (R4 & R4i & R4l) & R5 & R6 & R7); [by apply wf_cnt|done|done|done|done|lia|].
  exists s'. split_and!; try done.
  apply (sem_wf_upd s _ sp n []); [done|done|done| | |]; unfold sem_ok, is_s32, INT32_MIN; simpl; try lia.
  intros sp' Hne. by rewrite R6 by congruence.
Qed.

(** chSemResetI: the counter becomes [n] and every waiting thread, the last
    one first, is readied with MSG_RESET; no other thread and no other queue
    but the ready queue changes. *)
Theorem chSemResetI_correct s sp c n :
  wf s → sem_wf s → in_I s → k_sem s !! sp = Some c → c < INT32_MAX → 0 ≤ n ≤ INT32_MAX →
  ∃ s', chSemResetI sp n s = Done () s' ∧ wf s' ∧ sem_wf s' ∧
    k_sem s' = <[sp := n]> (k_sem s) ∧ qof s' (QSem sp) = [] ∧
    (∀ t, k_thd s' !! t =
       if decide (t ∈ qof s (QSem sp))
       then set_p_state CH_STATE_READY ∘ set_p_u (U_msg MSG_RESET) <$> k_thd s !! t
       else k_thd s !! t).
Proof.
  intros Hw Hsw HI Ec Hc Hn. destruct (chSemResetI_ok s sp c n) as (s' & ? & ? & ? & ? & ? & _ & ?); try done.
  by exists s'.
Qed.

Lemma signal_st_thd s sp c t :
  wf s →
  k_thd (signal_st sp c s) !! t =
    if decide (head (qof s (QSem sp)) = Some t)
    then set_p_state CH_STATE_READY ∘ set_p_u (U_msg MSG_OK) <$> k_thd s !! t
    else k_thd s !! t.
Proof.
  intros Hw. unfold signal_st. destruct (qof s (QSem sp)) as [|x l] eqn:E; cbn [head].
  - by case_decide.
  - destruct (sem_waiter s sp Hw x l E) as (th & Et & _). rewrite Et, wake_st_thd.
    destruct (decide (x = t)) as [<-|].
    + rewrite decide_True by done. by rewrite Et.
    + rewrite decide_False by congruence. done.
Qed.

(** chSemSignalI: the counter is incremented; the oldest waiting thread, if
    there is one, leaves the queue and becomes ready with MSG_OK; no other
    thread changes and both invariants are kept. *)
Theorem chSemSignalI_correct s sp c :
  wf s → sem_wf s → in_I s → k_sem s !! sp = Some c → c < INT32_MAX →
  ∃ s', chSemSignalI sp s = Done () s' ∧ wf s' ∧ sem_wf s' ∧
    k_sem s' = <[sp := c + 1]> (k_sem s) ∧ qof s' (QSem sp) = tail (qof s (QSem sp)) ∧
    (∀ t, k_thd s' !! t =
       if decide (head (qof s (QSem sp)) = Some t)
       then set_p_state CH_STATE_READY ∘ set_p_u (U_msg MSG_OK) <$> k_thd s !! t
       else k_thd s !! t).
Proof.
  intros Hw Hsw HI Ec Hc. exists (signal_st sp c s).
  destruct (signal_st_wf s sp c Hw Hsw Ec Hc) as (H1 & H2 & H3 & H4).
  split_and!; [by apply chSemSignalI_ok|done..|]. intros t. by apply signal_st_thd.
Qed.

(** ** Wait *)

Definition wait_st (sp : addr) (c : Z) (cth : thread) (s : kst) : kst :=
  block_st (QSem sp) (qof s (QSem sp) ++ [k_cur s]) cth (U_wtsemp sp) (cnt_st sp (c - 1) s).

Section Wait.
Context (s : kst) (sp : addr) (c : Z) (cth : thread) (ntp : tid) (l : list tid).
Hypothesis HK : K s.
Hypothesis Hsw : sem_wf s.
Hypothesis Ec : k_sem s !! sp = Some c.
Hypothesis Hlo : INT32_MIN < c.
Hypothesis Hc : c ≤ 0.
Hypothesis Ecur : k_thd s !! k_cur s = Some cth.
Hypothesis Hr : qof s QReady = ntp :: l.

(** Going to sleep on the semaphore, with or without a timer. *)
Lemma wait_sleep s0 :
  same_core (wait_st sp c cth s) s0 →
  ∃ s1, chSchGoSleepS CH_STATE_WTSEM s0 = Switch s1 (λ s', Done () s') ∧ K s1 ∧ same_objs s0 s1 ∧
    sem_wf s1 ∧ k_cur s1 = ntp ∧ k_sem s1 = <[sp := c - 1]> (k_sem s) ∧
    k_thd s1 !! k_cur s = Some (set_p_state CH_STATE_WTSEM (set_p_u (U_wtsemp sp) cth)) ∧
    qof s1 (QSem sp) = qof s (QSem sp) ++ [k_cur s].
Proof using All.
  intros Hco. destruct HK as (Hw & Hok & HS).
  destruct (block_sleep (cnt_st sp (c - 1) s) (QSem sp) cth (U_wtsemp sp) CH_STATE_WTSEM
    (qof s (QSem sp) ++ [k_cur s]) ntp l (wf_cnt _ _ _ Hw) HS Ecur (conj eq_refl eq_refl) ltac:(done)
    ltac:(by rewrite Permutation_app_comm) Hr s0 Hco) as (s1 & E1 & HK1 & Ho & E2 & E3 & E4 & E5 & E6 & _).
  destruct (sem_at s sp c Hsw Ec) as [Hsok Hrg]. unfold sem_ok, is_s32 in *.
  assert (k_sem s1 = <[sp := c - 1]> (k_sem s)) as Ek.
  { destruct Ho as (-> & _). destruct Hco as (_ & _ & _ & -> & _). done. }
  exists s1. split_and!; try done.
  eapply sem_wf_upd; [done|exact Ek|exact E4| | |].
  - intros sp' Hne. apply (E6 (QSem sp')); congruence.
  - unfold sem_ok. rewrite length_app. simpl. lia.
  - unfold is_s32, INT32_MIN in *. lia.
Qed.

Lemma wait_link {A} (k : tid → M A) :
  (ctp ← currp; upd_thd ctp (set_p_u (U_wtsemp sp)) ;; sem_insert ctp sp ;; k ctp)
    (cnt_st sp (c - 1) s) = k (k_cur s) (wait_st sp c cth s).
Proof using Ecur.
  mgo. rewrite (upd_thd_ok _ _ cth) by done. mgo. unfold sem_insert, queue_insert. mgo. done.
Qed.
End Wait.

Lemma wait_prologue {A} s sp c func (k : Z → M A) :
  sem_wf s → k_sem s !! sp = Some c → INT32_MIN < c →
  (sem_assert sp func ;; c ← sem_cnt sp; c' ← cnt_dec c; set_cnt sp c' ;; k c') s
    = k (c - 1) (cnt_st sp (c - 1) s).
Proof.
  intros Hsw Ec Hlo. mgo. rewrite (sem_assert_ok _ _ _ _ Hsw Ec). mgo.
  rewrite (sem_cnt_ok _ _ _ Ec). mgo. rewrite cnt_dec_ok by done. done.
Qed.

Lemma cnt_st_id sp c s : k_sem s !! sp = Some c → cnt_st sp c s = s.
Proof. intros E. unfold cnt_st. rewrite insert_id by done. by destruct s. Qed.

Lemma cnt_st_st sp a b s : cnt_st sp a (cnt_st sp b s) = cnt_st sp a s.
Proof. unfold cnt_st, set_k_sem. simpl. by rewrite insert_insert_eq. Qed.

(** chSemWaitTimeoutS on every branch: a positive counter is decremented and
    the call returns MSG_OK; with TIME_IMMEDIATE and no unit available it returns
    MSG_TIMEOUT and the state is as it was; otherwise the caller is appended to
    the queue in state WTSEM, the kernel switches to the first ready thread with
    all invariants kept, and when the caller is resumed the call returns the
    message it was given. *)
Theorem chSemWaitTimeoutS_correct s sp c time ntp l :
  K s → sem_wf s → k_sem s !! sp = Some c → INT32_MIN < c →
  vt_armed (VTLocal (k_cur s)) (k_vt s) = false → qof s QReady = ntp :: l →
  (0 < c → ∃ s', chSemWaitTimeoutS sp time s = Done MSG_OK s' ∧ K s' ∧ sem_wf s' ∧
             k_sem s' = <[sp := c - 1]> (k_sem s) ∧ k_thd s' = k_thd s ∧ k_q s' = k_q s) ∧
  (c ≤ 0 → time = TIME_IMMEDIATE → chSemWaitTimeoutS sp time s = Done MSG_TIMEOUT s) ∧
  (c ≤ 0 → time ≠ TIME_IMMEDIATE →
     ∃ s1 k, chSemWaitTimeoutS sp time s = Switch s1 k ∧ K s1 ∧ sem_wf s1 ∧
       k_cur s1 = ntp ∧ k_sem s1 = <[sp := c - 1]> (k_sem s) ∧
       qof s1 (QSem sp) = qof s (QSem sp) ++ [k_cur s] ∧
       (p_state <$> k_thd s1 !! k_cur s) = Some CH_STATE_WTSEM ∧
       ∀ s' m, resumed (k_cur s) m s' → ∃ s'', k s' = Done m s'' ∧ K s'' ∧ same_core s' s'').
Proof.
  intros HK Hsw Ec Hlo Ha Hr. pose proof HK as (Hw & Hok & HS).
  destruct (sem_at s sp c Hsw Ec) as [Hsok Hrg]. unfold sem_ok, is_s32 in Hsok, Hrg.
  unfold chSemWaitTimeoutS. split_and!; intros Hc.
  - rewrite bind_eq, (classS_ok s HS), rbind_done, wait_prologue with (c := c) by done.
    destruct (Z.ltb_spec (c - 1) 0); [lia|]. eexists. split; [done|].
    split; [by apply (K_ext s)|]. split; [|done].
    apply (sem_wf_upd s _ sp (c - 1) (qof s (QSem sp))); [done|done|done|done| |];
      unfold sem_ok, is_s32, INT32_MIN, INT32_MAX in *; lia.
  - intros ->. rewrite bind_eq, (classS_ok s HS), rbind_done, wait_prologue with (c := c) by done.
    destruct (Z.ltb_spec (c - 1) 0); [|lia]. rewrite Z.eqb_refl. mgo.
    rewrite cnt_inc_ok by (unfold INT32_MAX; lia). unfold set_cnt. mgo.
    change (Done MSG_TIMEOUT (cnt_st sp (c - 1 + 1) (cnt_st sp (c - 1) s)) = Done MSG_TIMEOUT s).
    rewrite cnt_st_st, cnt_st_id; [done|]. rewrite Ec. f_equal. lia.
  - intros Ht. destruct (wf_cur _ Hw) as (cth & Ecur & _).
    rewrite bind_eq, (classS_ok s HS), rbind_done, wait_prologue with (c := c) by done.
    destruct (Z.ltb_spec (c - 1) 0); [|lia].
    destruct (Z.eqb_spec TIME_IMMEDIATE time); [congruence|]. rewrite wait_link with (cth := cth) by done.
    destruct (chSchGoSleepTimeoutS_ok CH_STATE_WTSEM time (wait_st sp c cth s))
      as (s2 & k & -> & HK2 & (s0 & Hco & c2 & E2) & Hres); [done..| |].
    { intros s0 Hco. destruct (wait_sleep s sp c cth ntp l HK Hsw Ec Hlo Hc Ecur Hr s0 Hco)
        as (s1 & ? & ? & ? & _). eauto. }
    destruct (wait_sleep s sp c cth ntp l HK Hsw Ec Hlo Hc Ecur Hr s0 Hco)
      as (s1 & E1 & _ & _ & R1 & R2 & R3 & R4 & R5).
    rewrite E1 in E2. injection E2 as <- _. exists s1, k. split_and!; try done. by rewrite R4.
Qed.

(** ** Timeouts *)

(** The states in which a thread sleeps with a timer set. *)
Definition timeout_state (st : tstate) : bool :=
  match st with
  | CH_STATE_SUSPENDED | CH_STATE_QUEUED | CH_STATE_WTSEM | CH_STATE_WTCOND
  | CH_STATE_SLEEPING | CH_STATE_WTOREVT | CH_STATE_WTANDEVT => true
  | _ => false
  end.

Section Timeout.
Context (s : kst) (t : tid) (th : thread).
Hypothesis Hw : wf s.
Hypothesis HI : in_I s.
Hypothesis Et : k_thd s !! t = Some th.

(** A thread dequeued and readied with MSG_TIMEOUT. *)
Lemma timeout_dequeue q :
  t ∈ qof s q → q ≠ QReady →
  let s' := wake_st q (filter (λ x, x ≠ t) (qof s q)) t th MSG_TIMEOUT s in
  queue_dequeue t s = Done t (put_q q (filter (λ x, x ≠ t) (qof s q)) s) ∧
  rbind (upd_thd t (set_p_u (U_msg MSG_TIMEOUT)) (put_q q (filter (λ x, x ≠ t) (qof s q)) s))
    (λ _, chSchReadyI t) = Done t s' ∧
  wf s' ∧ (∀ q', q' ≠ QReady → qof s' q' = filter (λ x, x ≠ t) (qof s q')).
Proof using Hw HI Et.
  intros Ht Hq s'. pose proof (qw_nodup _ _ (wf_q _ Hw) q) as Hnd.
  pose proof (filter_ne_perm t _ Hnd Ht) as Hp.
  pose proof (filter_sublist (λ x, x ≠ t) (qof s q)) as Hsub. split_and!.
  - by apply (queue_dequeue_ok _ q t s (wf_q _ Hw)).
  - by apply wake_code_set_first.
  - by apply wake_st_wf.
  - intros q' Hq'. destruct (decide (q' = q)) as [->|Hne].
    + by apply wake_st_q.
    + unfold s'. rewrite wake_st_q_ne by done. symmetry. apply filter_ne_notin.
      intros Hin. apply Hne. by apply (qw_disj _ _ (wf_q _ Hw) q' q t).
Qed.

(** The same for a thread that is in no queue. *)
Lemma timeout_free :
  linked_state (p_state th) = false → p_state th ≠ CH_STATE_CURRENT → p_state th ≠ CH_STATE_FINAL →
  let s' := ready_st t (set_p_u (U_msg MSG_TIMEOUT) th) s in
  rbind (upd_thd t (set_p_u (U_msg MSG_TIMEOUT)) s) (λ _, chSchReadyI t) = Done t s' ∧
  wf s' ∧ (∀ q', q' ≠ QReady → qof s' q' = filter (λ x, x ≠ t) (qof s q')).
Proof using Hw HI Et.
  intros Hl Hc Hf s'. split_and!.
  - rewrite (upd_thd_ok _ _ _ _ Et). mgo.
    rewrite (chSchReadyI_ok t (set_p_u (U_msg MSG_TIMEOUT) th)); [|done|apply lookup_insert_eq| |done|].
    + f_equal. by apply (ready_st_put _ _ th).
    + simpl. intros E. by rewrite E in Hl.
    + by apply (qw_prio _ _ (wf_q _ Hw) _ _ Et).
  - by apply (ready_free_wf s t th).
  - intros q' Hq'. unfold s'. rewrite ready_st_qof_ne by done. symmetry. apply filter_ne_notin.
    by apply (unlinked_notin _ _ _ _ _ (wf_q _ Hw) Et).
Qed.

Lemma linked_queue :
  linked_state (p_state th) = true → ∃ q, t ∈ qof s q ∧ qstate q th.
Proof using Hw Et.
  intros Hl. destruct (qw_loc _ _ (wf_q _ Hw) t th Et) as [q Hq]; [|done|].
  - intros ->%elem_of_singleton. destruct (wf_cur _ Hw) as (cth & Ec & Hc).
    rewrite Et in Ec. injection Ec as <-. by rewrite Hc in Hl.
  - exists q. split; [done|]. destruct (qw_mem _ _ (wf_q _ Hw) q t Hq) as (th' & E & Hst).
    rewrite Et in E. by injection E as <-.
Qed.

Lemma sem_wf_dequeued s' :
  sem_wf s → p_state th ≠ CH_STATE_WTSEM → k_sem s' = k_sem s →
  (∀ q', q' ≠ QReady → qof s' q' = filter (λ x, x ≠ t) (qof s q')) → sem_wf s'.
Proof using Hw Et.
  intros Hsw Hst Ek Hq. apply (sem_wf_same s); [done|done|]. intros sp. rewrite Hq by done.
  apply filter_ne_notin. intros Hin.
  destruct (qw_mem _ _ (wf_q _ Hw) _ _ Hin) as (th' & E & Hst' & _).
  rewrite Et in E. injection E as <-. done.
Qed.
End Timeout.

(** What a timeout leaves behind. *)
Record timed_out (t : tid) (th : thread) (s s' : kst) : Prop := {
  to_wf : wf s';
  to_sem_wf : sem_wf s';
  to_thd : ∀ x, k_thd s' !! x =
    if decide (t = x) then Some (set_p_state CH_STATE_READY (set_p_u (U_msg MSG_TIMEOUT) th))
    else k_thd s !! x;
  to_q : ∀ q, q ≠ QReady → qof s' q = filter (λ x, x ≠ t) (qof s q);
  to_ready : t ∈ qof s' QReady;
  to_sem : ∀ a, k_sem s' !! a =
    if decide (p_state th = CH_STATE_WTSEM ∧ p_u th = U_wtsemp a) then Z.succ <$> k_sem s !! a
    else k_sem s !! a;
  to_tref : ∀ r, p_state th = CH_STATE_SUSPENDED → p_u th = U_wttrp r → k_tref s' !! r = Some None
}.

Lemma timed_out_ext t th s0 s s' s1 :
  same_data s0 s → timed_out t th s s' → same_data s' s1 → timed_out t th s0 s1.
Proof.
  intros (A1&A2&A3&A4&A5&A6&A7&A8&A9&A10&A11&A12) [H1 H2 H3 H4 H5 H6 H7] (B1&B2&B3&B4&B5&B6&B7&B8&B9&B10&B11&B12).
  assert (∀ q, qof s q = qof s0 q) as Hq by (intros; unfold qof; by rewrite A3).
  assert (∀ q, qof s1 q = qof s' q) as Hq' by (intros; unfold qof; by rewrite B3).
  split.
  - by apply (wf_ext s').
  - by apply (sem_wf_same s').
  - intros x. by rewrite B2, H3, A2.
  - intros q Hne. rewrite Hq', H4, Hq by done. done.
  - by rewrite Hq'.
  - intros a. by rewrite B9, H6, A9.
  - intros r. rewrite B11. apply H7.
Qed.

Lemma wake_st_timed_out s t th q l :
  wf s → sem_wf s → k_thd s !! t = Some th → q ≠ QReady → (∀ a, q ≠ QSem a) → t ∈ qof s q →
  p_state th ≠ CH_STATE_SUSPENDED → p_state th ≠ CH_STATE_WTSEM →
  let s' := wake_st q l t th MSG_TIMEOUT s in
  wf s' → (∀ q', q' ≠ QReady → qof s' q' = filter (λ x, x ≠ t) (qof s q')) → timed_out t th s s'.
Proof.
  intros Hw Hsw Et Hq Hqs Hin H1 H2 s' Hw' Hq'. split; try done.
  - by apply (sem_wf_dequeued s t th Hw Et).
  - intros x. apply wake_st_thd.
  - apply wake_st_ready; [done|by left].
  - intros a. rewrite decide_False by naive_solver. done.
Qed.

Lemma ready_st_timed_out s s0 t th :
  wf s → sem_wf s → k_thd s !! t = Some th → p_state th ≠ CH_STATE_WTSEM →
  k_thd s0 = k_thd s → k_q s0 = k_q s → k_sem s0 = k_sem s →
  (∀ r, p_state th = CH_STATE_SUSPENDED → p_u th = U_wttrp r → k_tref s0 !! r = Some None) →
  let s' := ready_st t (set_p_u (U_msg MSG_TIMEOUT) th) s0 in
  wf s' → (∀ q', q' ≠ QReady → qof s' q' = filter (λ x, x ≠ t) (qof s0 q')) → timed_out t th s s'.
Proof.
  intros Hw Hsw Et Hst E1 E2 E3 Hr s' Hw' Hq.
  assert (∀ q', q' ≠ QReady → qof s' q' = filter (λ x, x ≠ t) (qof s q')) as Hq'.
  { intros q' Hne. rewrite Hq by done. unfold qof. by rewrite E2. }
  split; try done.
  - by apply (sem_wf_dequeued s t th Hw Et).
  - intros x. unfold s'. rewrite ready_st_thd, E1. done.
  - apply ready_st_elem. by left.
  - intros a. rewrite decide_False by naive_solver. simpl. by rewrite E3.
Qed.

(** The part of [wakeup] between the two ISR lock calls. *)
Definition wakeup_body (t : tid) (th : thread) : M tid :=
  match p_state th with
  | CH_STATE_SUSPENDED =>
      match p_u th with
      | U_wttrp r => modify (λ s, set_k_tref (<[r := None]> (k_tref s)) s)
      | _ => fault
      end
  | CH_STATE_WTSEM =>
      match p_u th with
      | U_wtsemp a => chSemFastSignalI a ;; queue_dequeue t ;; mret ()
      | _ => fault
      end
  | CH_STATE_WTCOND | CH_STATE_QUEUED => queue_dequeue t ;; mret ()
  | _ => mret ()
  end ;;
  upd_thd t (set_p_u (U_msg MSG_TIMEOUT)) ;;
  chSchReadyI t.

Definition timed_out_by (t : tid) (th : thread) (s : kst) (r : res tid) : Prop :=
  ∃ s', r = Done t s' ∧ timed_out t th s s' ∧ k_isr s' = k_isr s ∧ k_lock s' = k_lock s.

Section WakeupCases.
Context (s : kst) (t : tid) (th : thread).
Hypothesis Hw : wf s.
Hypothesis Hsw : sem_wf s.
Hypothesis HI : in_I s.
Hypothesis Et : k_thd s !! t = Some th.

Lemma wakeup_sem_ok a :
  p_state th = CH_STATE_WTSEM → p_u th = U_wtsemp a → t ∈ qof s (QSem a) →
  timed_out_by t th s (wakeup_body t th s).
Proof using All.
  intros Hst Hu Hin. pose proof (Hsw a) as Ha.
  destruct (k_sem s !! a) as [c|] eqn:Ec; [|rewrite Ha in Hin; set_solver].
  destruct Ha as [Hok Hr]. unfold sem_ok, is_s32 in *.
  assert (c < 0). { destruct (qof s (QSem a)); simpl in Hok; [set_solver|lia]. }
  destruct (timeout_dequeue (cnt_st a (c + 1) s) t th (wf_cnt _ _ _ Hw) HI Et (QSem a) Hin ltac:(done))
    as (E0 & E & Hw' & Hq). revert E Hw' Hq.
  set (s' := wake_st (QSem a) _ t th MSG_TIMEOUT _). intros E Hw' Hq.
  exists s'. split_and!; [|split|done|done].
  - unfold wakeup_body, chSemFastSignalI. rewrite Hst, Hu. mgo. rewrite (classI_ok s HI). mgo.
    unfold deref. rewrite Ec. mgo. rewrite cnt_inc_ok by (unfold INT32_MAX; lia). mgo.
    fold (cnt_st a (c + 1) s). rewrite E0. mgo. exact E.
  - done.
  - apply (sem_wf_upd s _ a (c + 1) (filter (λ x, x ≠ t) (qof s (QSem a)))); [done|done|by apply Hq| | |].
    + intros sp Hne. rewrite Hq by done. apply filter_ne_notin. intros Hin'. destruct Hne.
      assert (QSem sp = QSem a) by (by apply (qw_disj _ _ (wf_q _ Hw) _ _ t)). congruence.
    + unfold sem_ok. pose proof (filter_ne_perm t _ (qw_nodup _ _ (wf_q _ Hw) (QSem a)) Hin) as Hp.
      apply Permutation_length in Hp. simpl in Hp. lia.
    + unfold is_s32, INT32_MAX, INT32_MIN in *. lia.
  - intros x. etrans; [apply wake_st_thd|done].
  - apply Hq.
  - apply wake_st_ready; [done|by left].
  - intros a'. simpl. rewrite lookup_insert. destruct (decide (a = a')) as [<-|Hne].
    + rewrite decide_True by done. by rewrite Ec.
    + rewrite decide_False; [done|]. intros [_ E']. congruence.
  - intros r Hs. congruence.
Qed.

Lemma wakeup_queue_ok q :
  p_state th = CH_STATE_WTCOND ∨ p_state th = CH_STATE_QUEUED →
  q ≠ QReady → (∀ a, q ≠ QSem a) → t ∈ qof s q → timed_out_by t th s (wakeup_body t th s).
Proof using All.
  intros Hst Hqr Hqs Hin. destruct (timeout_dequeue s t th Hw HI Et q Hin Hqr) as (E0 & E & Hw' & Hq).
  eexists. split_and!.
  - unfold wakeup_body. destruct Hst as [-> | ->]; mgo; rewrite E0; mgo; exact E.
  - apply wake_st_timed_out; try done; destruct Hst as [-> | ->]; done.
  - done.
  - done.
Qed.

Lemma wakeup_free_ok s0 :
  wakeup_body t th s = rbind (upd_thd t (set_p_u (U_msg MSG_TIMEOUT)) s0) (λ _, chSchReadyI t) →
  linked_state (p_state th) = false → p_state th ≠ CH_STATE_CURRENT → p_state th ≠ CH_STATE_FINAL →
  k_cur s0 = k_cur s → k_thd s0 = k_thd s → k_q s0 = k_q s → k_sem s0 = k_sem s →
  k_isr s0 = k_isr s → k_lock s0 = k_lock s →
  (∀ r, p_state th = CH_STATE_SUSPENDED → p_u th = U_wttrp r → k_tref s0 !! r = Some None) →
  timed_out_by t th s (wakeup_body t th s).
Proof using All.
  intros Eb Hl Hc Hf E1 E2 E3 E4 E5 E6 Hr. rewrite Eb.
  destruct (timeout_free s0 t th) as (E & Hw' & Hq); try done.
  - by apply (wf_ext s).
  - unfold in_I. by rewrite E5, E6.
  - by rewrite E2.
  - eexists. split; [exact E|]. split; [|done].
    apply (ready_st_timed_out s s0); try done. intros Hst. by rewrite Hst in Hl.
Qed.

Lemma wakeup_body_ok :
  timeout_state (p_state th) = true → (p_state th = CH_STATE_SUSPENDED → ∃ r, p_u th = U_wttrp r) →
  timed_out_by t th s (wakeup_body t th s).
Proof using All.
  intros Hst Hr.
  assert (linked_state (p_state th) = true → ∃ q, t ∈ qof s q ∧ qstate q th) as Hl
    by apply (linked_queue s t th Hw Et).
  destruct (p_state th) eqn:Es; try done.
  - destruct (Hr eq_refl) as [r Hu].
    apply (wakeup_free_ok (set_k_tref (<[r := None]> (k_tref s)) s)); rewrite ?Es; try done.
    + unfold wakeup_body. by rewrite Es, Hu.
    + intros r' _ Hu'. rewrite Hu in Hu'. injection Hu' as <-. apply lookup_insert_eq.
  - destruct Hl as (q & Hin & Hq); [done|].
    apply (wakeup_queue_ok q); [by right|..|done]; destruct q; simpl in Hq; rewrite ?Es in Hq; naive_solver.
  - destruct Hl as (q & Hin & Hq); [done|].
    destruct q as [| a | | | | |]; simpl in Hq; rewrite ?Es in Hq; try naive_solver.
    apply (wakeup_sem_ok a); [done|apply Hq|done].
  - destruct Hl as (q & Hin & Hq); [done|].
    apply (wakeup_queue_ok q); [by left|..|done]; destruct q; simpl in Hq; rewrite ?Es in Hq; naive_solver.
  - apply (wakeup_free_ok s); rewrite ?Es; try done. unfold wakeup_body. by rewrite Es.
  - apply (wakeup_free_ok s); rewrite ?Es; try done. unfold wakeup_body. by rewrite Es.
  - apply (wakeup_free_ok s); rewrite ?Es; try done. unfold wakeup_body. by rewrite Es.
Qed.
End WakeupCases.

(** The timeout callback, run by the timer interrupt.  If the thread was made
    ready in the meantime nothing changes.  Otherwise the thread leaves the
    queue it waits in (a semaphore gets its unit back, a thread reference is
    cleared), becomes ready with MSG_TIMEOUT, no other thread changes, and the
    queue and the semaphore invariants hold. *)
Theorem wakeup_correct s t th :
  wf s → sem_wf s → in_ISR s → k_thd s !! t = Some th →
  (p_state th = CH_STATE_READY → ∃ s', wakeup t s = Done () s' ∧ in_ISR s' ∧ same_data s s') ∧
  (timeout_state (p_state th) = true →
   (p_state th = CH_STATE_SUSPENDED → ∃ r, p_u th = U_wttrp r) →
   ∃ s', wakeup t s = Done () s' ∧ in_ISR s' ∧ timed_out t th s s').
Proof.
  intros Hw Hsw HI Et. destruct (chSysLockFromISR_ok s HI) as (s1 & E1 & HI1 & Ei & Hd).
  pose proof Hd as (D1 & D2 & D3 & D4 & D5 & D6 & D7 & D8 & D9 & _).
  assert (0 < k_isr s1) as Hi1 by (rewrite Ei; apply HI).
  assert (k_thd s1 !! t = Some th) as Et1 by by rewrite D2. split.
  - intros Hst. destruct (chSysUnlockFromISR_ok s1 HI1 Hi1) as (s2 & E2 & HI2 & _ & Hd2).
    exists s2. unfold wakeup. mgo. rewrite E1. mgo. rewrite (thd_ok _ _ _ Et1). mgo. rewrite Hst.
    split_and!; [done|done|]. unfold same_data in *. intuition congruence.
  - intros Hst Hr.
    destruct (wakeup_body_ok s1 t th) as (s2 & E2 & Hto & Ei2 & El2); try done.
    { by apply (wf_ext s). } { apply (sem_wf_same s); [done|done|]. intros sp. unfold qof. by rewrite D3. }
    destruct (chSysUnlockFromISR_ok s2) as (s3 & E3 & HI3 & _ & Hd3);
      [unfold in_I; rewrite Ei2, El2; apply HI1|lia|].
    exists s3. split_and!; [|done|by apply (timed_out_ext t th s s1 s2)].
    unfold wakeup_body in E2. rewrite bind_eq in E2.
    apply rbind_done_inv in E2 as ([] & sa & Ea & E2). rewrite bind_eq in E2.
    apply rbind_done_inv in E2 as ([] & sb & Eb & E2).
    unfold wakeup. mgo. rewrite E1. mgo. rewrite (thd_ok _ _ _ Et1). mgo.
    destruct (p_state th); try done; rewrite bind_eq, Ea; mgo; rewrite Eb; mgo; rewrite E2; exact E3.
Qed.
