(* ===== verification/Mtx.v ===== *)
(** * Mutexes with priority inheritance (os/rt/src/chmtx.c, os/rt/include/chmtx.h)

    Non-recursive mutexes ([CH_CFG_USE_MUTEXES_RECURSIVE] is FALSE).  The
    mutexes a thread owns form a stack linked by [m_next] from [p_mtxlist];
    the threads waiting for a mutex queue in [QMtx] by priority. *)

From S2P Require Import Prelude TimeMeas Kernel ThreadQueues Sys VTimers Sched.

(** ** Operations *)

Definition mtx (mp : addr) : M mutex := deref (λ s, k_mtx s !! mp).
Definition set_mtx (mp : addr) (m : mutex) : M unit :=
  modify (λ s, set_k_mtx (<[mp := m]> (k_mtx s)) s).
Definition set_owner (mp : addr) (o : option tid) : M unit :=
  m ← mtx mp; set_mtx mp (mkMutex o (m_next m)).
Definition set_next (mp : addr) (n : option addr) : M unit :=
  m ← mtx mp; set_mtx mp (mkMutex (m_owner m) n).

(** [m_next] is not written by the initialisation: an unowned mutex's link is
    not used. *)
Definition chMtxObjectInit (mp : addr) : M unit :=
  queue_init (QMtx mp) ;;
  modify (λ s, set_k_mtx (<[mp := mkMutex None
    (match k_mtx s !! mp with Some m => m_next m | None => None end)]> (k_mtx s)) s).

(** The priority inheritance loop of chMtxLockS.  [wtmtxp] is read from the
    union also in state WTCOND: both queue headers are the first field of their
    object. *)
Fixpoint mtx_inherit (fuel : nat) (ctp tp : tid) : M unit :=
  match fuel with
  | O => fault
  | S fuel =>
      th ← thd tp;
      cth ← thd ctp;
      if p_prio th <? p_prio cth then
        upd_thd tp (set_p_prio (p_prio cth)) ;;
        match p_state th with
        | CH_STATE_WTMTX =>
            match p_u th with
            | U_wtmtxp m =>
                queue_dequeue tp ;;
                queue_prio_insert tp (QMtx m) ;;
                mx ← mtx m;
                match m_owner mx with
                | Some o => mtx_inherit fuel ctp o
                | None => fault
                end
            | _ => fault
            end
        | CH_STATE_WTCOND =>
            match p_u th with
            | U_wtobjp q => queue_dequeue tp ;; queue_prio_insert tp q
            | _ => fault
            end
        | CH_STATE_READY =>
            upd_thd tp (set_p_state CH_STATE_CURRENT) ;;
            queue_dequeue tp ;; chSchReadyI tp ;; mret ()
        | _ => mret ()
        end
      else mret ()
  end.

(** Taking a free mutex: the owner is set and the mutex pushed on the stack. *)
Definition mtx_take (mp : addr) (tp : tid) : M unit :=
  set_owner mp (Some tp) ;;
  th ← thd tp;
  set_next mp (p_mtxlist th) ;;
  upd_thd tp (set_p_mtxlist (Some mp)).

Definition chMtxLockS (mp : addr) : M unit :=
  ctp ← currp;
  chDbgCheckClassS ;;
  mx ← mtx mp;
  match m_owner mx with
  | Some tp =>
      n ← gets (λ s, size (k_thd s));
      mtx_inherit (S n) ctp tp ;;
      queue_prio_insert ctp (QMtx mp) ;;
      upd_thd ctp (set_p_u (U_wtmtxp mp)) ;;
      chSchGoSleepS CH_STATE_WTMTX ;;
      mx' ← mtx mp;
      chDbgAssert (bool_decide (m_owner mx' = Some ctp)) "chMtxLockS" ;;
      cth ← thd ctp;
      chDbgAssert (bool_decide (p_mtxlist cth = Some mp)) "chMtxLockS"
  | None => mtx_take mp ctp
  end.

Definition chMtxLock (mp : addr) : M unit := chSysLock ;; chMtxLockS mp ;; chSysUnlock.

Definition chMtxTryLockS (mp : addr) : M bool :=
  chDbgCheckClassS ;;
  mx ← mtx mp;
  match m_owner mx with
  | Some _ => mret false
  | None => ctp ← currp; mtx_take mp ctp ;; mret true
  end.

Definition chMtxTryLock (mp : addr) : M bool :=
  chSysLock ;; b ← chMtxTryLockS mp; chSysUnlock ;; mret b.

Definition chMtxQueueNotEmptyS (mp : addr) : M bool :=
  chDbgCheckClassS ;; queue_notempty (QMtx mp).

Definition chMtxGetNextMutexS : M (option addr) :=
  ctp ← currp; th ← thd ctp; mret (p_mtxlist th).

(** [lmp->m_queue.p_next->p_prio] *)
Definition mtx_first_prio (mp : addr) : M Z :=
  tp ← deref (λ s, head (qof s (QMtx mp))); th ← thd tp; mret (p_prio th).

(** The highest priority of the threads waiting for the mutexes on the stack. *)
Fixpoint mtx_newprio (fuel : nat) (lmp : option addr) (newprio : Z) : M Z :=
  match lmp with
  | None => mret newprio
  | Some m =>
      match fuel with
      | O => fault
      | S fuel =>
          b ← chMtxQueueNotEmptyS m;
          newprio' ← (if b : bool then
                        p ← mtx_first_prio m;
                        mret (if newprio <? p then p else newprio)
                      else mret newprio);
          mx ← mtx m;
          mtx_newprio fuel (m_next mx) newprio'
      end
  end.

(** Handing the mutex to the first thread of its queue. *)
Definition mtx_handover (mp : addr) : M tid :=
  tp ← queue_fifo_remove (QMtx mp);
  mtx_take mp tp ;;
  chSchReadyI tp.

(** The common part of chMtxUnlock and chMtxUnlockS; the result tells whether
    there was a waiting thread. *)
Definition mtx_unlock (mp : addr) (func : string) : M bool :=
  ctp ← currp;
  cth ← thd ctp;
  match p_mtxlist cth with
  | None => chSysHalt func
  | Some top =>
      tmx ← mtx top;
      chDbgAssert (bool_decide (m_owner tmx = Some ctp)) func ;;
      chDbgAssert (bool_decide (top = mp)) func ;;
      mx ← mtx mp;
      upd_thd ctp (set_p_mtxlist (m_next mx)) ;;
      b ← chMtxQueueNotEmptyS mp;
      if b : bool then
        cth ← thd ctp;
        n ← gets (λ s, size (k_mtx s));
        newprio ← mtx_newprio n (p_mtxlist cth) (p_realprio cth);
        upd_thd ctp (set_p_prio newprio) ;;
        mtx_handover mp ;; mret true
      else set_owner mp None ;; mret false
  end.

Definition chMtxUnlock (mp : addr) : M unit :=
  chSysLock ;;
  b ← mtx_unlock mp "chMtxUnlock";
  when b chSchRescheduleS ;;
  chSysUnlock.

Definition chMtxUnlockS (mp : addr) : M unit :=
  chDbgCheckClassS ;; mtx_unlock mp "chMtxUnlockS" ;; mret ().

Fixpoint mtx_unlock_all (fuel : nat) (ctp : tid) : M unit :=
  match fuel with
  | O => fault
  | S fuel =>
      cth ← thd ctp;
      match p_mtxlist cth with
      | None => mret ()
      | Some mp =>
          mx ← mtx mp;
          upd_thd ctp (set_p_mtxlist (m_next mx)) ;;
          b ← chMtxQueueNotEmptyS mp;
          (if b : bool then mtx_handover mp ;; mret () else set_owner mp None) ;;
          mtx_unlock_all fuel ctp
      end
  end.

Definition chMtxUnlockAll : M unit :=
  ctp ← currp;
  chSysLock ;;
  cth ← thd ctp;
  (match p_mtxlist cth with
   | None => mret ()
   | Some _ =>
       n ← gets (λ s, size (k_mtx s));
       mtx_unlock_all (S n) ctp ;;
       cth ← thd ctp;
       upd_thd ctp (set_p_prio (p_realprio cth)) ;;
       chSchRescheduleS
   end) ;;
  chSysUnlock.

(** ** The mutex invariant *)

Definition owner_of (s : kst) (m : addr) : option tid := mx ← k_mtx s !! m; m_owner mx.

(** [ms] is the chain of mutexes from [o] along [m_next]. *)
Fixpoint mchain (T : gmap addr mutex) (o : option addr) (ms : list addr) : Prop :=
  match ms with
  | [] => o = None
  | m :: ms' => o = Some m ∧ ∃ mx, T !! m = Some mx ∧ mchain T (m_next mx) ms'
  end.

(** The stack of every thread lists exactly the mutexes it owns, a mutex with
    waiting threads has an owner, and the waiting threads are in priority
    order. *)
Record mtx_shape (s : kst) : Prop := {
  ms_own : ∀ t th, k_thd s !! t = Some th →
    ∃ ms, mchain (k_mtx s) (p_mtxlist th) ms ∧ NoDup ms ∧ ∀ m, m ∈ ms ↔ owner_of s m = Some t;
  ms_live : ∀ m t, owner_of s m = Some t → is_Some (k_thd s !! t);
  ms_held : ∀ m w, w ∈ qof s (QMtx m) → is_Some (owner_of s m);
  ms_sorted : ∀ m, StronglySorted (by_prio s) (qof s (QMtx m))
}.

(** Priority inheritance: an owner's priority is not lower than that of any
    thread waiting for its mutex. *)
Definition pi_ok (s : kst) : Prop :=
  ∀ m t w, owner_of s m = Some t → w ∈ qof s (QMtx m) → prio_of s w ≤ prio_of s t.

Definition mtx_wf (s : kst) : Prop := mtx_shape s ∧ pi_ok s.

(** The effect of the inheritance loop: some threads of lower priority than [P]
    are raised to [P]; queues are only reordered. *)
Record inherits (P : Z) (s s' : kst) : Prop := {
  ih_cur : k_cur s' = k_cur s;
  ih_objs : same_objs s s';
  ih_thd : ∀ t, k_thd s' !! t = k_thd s !! t ∨
    ∃ th, k_thd s !! t = Some th ∧ p_prio th < P ∧ k_thd s' !! t = Some (set_p_prio P th);
  ih_q : ∀ q, qof s' q ≡ₚ qof s q
}.

Lemma inherits_refl P s : inherits P s s.
Proof. split; auto; done. Qed.

Lemma inherits_trans P s1 s2 s3 : inherits P s1 s2 → inherits P s2 s3 → inherits P s1 s3.
Proof.
  intros [A1 A2 A3 A4] [B1 B2 B3 B4]. split.
  - congruence.
  - by etrans.
  - intros t. destruct (B3 t) as [->|(th & E & Hp & ->)]; [done|].
    destruct (A3 t) as [<-|(th0 & E0 & Hp0 & E1)]; [by right; exists th|].
    right. exists th0. split_and!; [done..|]. rewrite E1 in E. injection E as <-. done.
  - intros q. by rewrite B4.
Qed.

(** One iteration: [tp] raised to [P]. *)
Section Boost.
Context (P : Z) (s s1 : kst) (tp : tid) (th : thread).
Hypothesis Hsh : mtx_shape s.
Hypothesis Et : k_thd s !! tp = Some th.
Hypothesis Hlt : p_prio th < P.
Hypothesis Ethd : k_thd s1 = <[tp := set_p_prio P th]> (k_thd s).
Hypothesis Ecur : k_cur s1 = k_cur s.
Hypothesis Eobj : same_objs s s1.
Hypothesis Eq : ∀ q, qof s1 q ≡ₚ qof s q.

Lemma boost_inherits : inherits P s s1.
Proof using All.
  split; [done..| |done]. intros t. rewrite Ethd, lookup_insert.
  case_decide; subst; [right; eauto|by left].
Qed.

Lemma boost_prio x : prio_of s1 x = if decide (tp = x) then P else prio_of s x.
Proof using Ethd. unfold prio_of. rewrite Ethd, lookup_insert. by case_decide. Qed.

Lemma boost_owner m : owner_of s1 m = owner_of s m.
Proof using Eobj. unfold owner_of. destruct Eobj as (_ & -> & _). done. Qed.

Lemma boost_shape :
  (∀ m, tp ∈ qof s (QMtx m) → StronglySorted (by_prio s1) (qof s1 (QMtx m))) →
  (∀ m, tp ∉ qof s (QMtx m) → qof s1 (QMtx m) = qof s (QMtx m)) → mtx_shape s1.
Proof using All.
  intros Hs1 Hs2. pose proof Eobj as (_ & Em & _). destruct Hsh as [H1 H2 H3 H4]. split.
  - intros t tht. rewrite Ethd, lookup_insert, Em. setoid_rewrite boost_owner.
    case_decide; subst; [|apply H1]. intros [= <-]. exact (H1 _ _ Et).
  - intros m t. rewrite boost_owner, Ethd. intros Ho. apply lookup_insert_is_Some'. right. by eapply H2.
  - intros m w. rewrite Eq, boost_owner. apply H3.
  - intros m. destruct (decide (tp ∈ qof s (QMtx m))) as [Hin|Hin]; [by apply Hs1|].
    rewrite Hs2 by done. apply (StronglySorted_impl (by_prio s)); [|done].
    intros x y Hx Hy. unfold by_prio. rewrite !boost_prio, !decide_False by (by intros ->). done.
Qed.

Lemma boost_pi m t w :
  (∀ m t w, owner_of s m = Some t → w ∈ qof s (QMtx m) →
     prio_of s w ≤ prio_of s t ∨ (t = tp ∧ prio_of s w ≤ P)) →
  owner_of s1 m = Some t → w ∈ qof s1 (QMtx m) →
  prio_of s1 w ≤ prio_of s1 t ∨ (w = tp ∧ tp ∈ qof s (QMtx m)).
Proof using All.
  intros Hpi. rewrite boost_owner, Eq, !boost_prio. intros Ho Hw.
  destruct (decide (tp = w)) as [->|Hne]; [by right|]. left.
  pose proof (Hpi m t w Ho Hw) as H. unfold prio_of in H at 2. 
  destruct (decide (tp = t)) as [->|].
  - rewrite Et in H. lia.
  - unfold prio_of at 2. naive_solver lia.
Qed.
End Boost.

(** The number of threads below priority [P]: it decreases with every
    iteration. *)
Definition low (P : Z) (T : gmap tid thread) : nat := size (filter (λ kv, p_prio kv.2 < P) T).

Lemma low_decr P T t th : T !! t = Some th → p_prio th < P → (low P (<[t := set_p_prio P th]> T) < low P T)%nat.
Proof.
  intros E Hp. unfold low. rewrite map_filter_insert_False by (simpl; lia).
  rewrite map_filter_delete.
  assert (filter (λ kv : tid * thread, p_prio kv.2 < P) T !! t = Some th) as E'
    by by apply map_lookup_filter_Some.
  rewrite map_size_delete_Some by eauto.
  assert (size (filter (λ kv : tid * thread, p_prio kv.2 < P) T) ≠ 0%nat); [|lia].
  intros Hz%map_size_empty_inv. rewrite Hz in E'. done.
Qed.

Lemma low_size P T : (low P T ≤ size T)%nat.
Proof. unfold low. apply map_subseteq_size, map_filter_subseteq. Qed.

(** ** The inheritance loop *)

Lemma linked_in s t th :
  wf s → k_thd s !! t = Some th → linked_state (p_state th) = true → ∃ q, t ∈ qof s q ∧ qstate q th.
Proof.
  intros Hw Et Hl. destruct (qw_loc _ _ (wf_q _ Hw) t th Et) as [q Hq]; [|done|].
  - intros ->%elem_of_singleton. destruct (wf_cur _ Hw) as (cth & Ec & Hc). by simplify_eq; rewrite Hc in Hl.
  - exists q. split; [done|]. destruct (qw_mem _ _ (wf_q _ Hw) q t Hq) as (th' & E & Hst). by simplify_eq.
Qed.

Lemma reprio_code s t th' q :
  (∀ q', t ∈ qof s q' → q = q') → t ∈ qof s q →
  rbind (queue_dequeue t (put_thd t th' s)) (λ _, queue_prio_insert t q) = Done () (reprio_st t th' q s).
Proof.
  intros Ho Ht. rewrite (queue_dequeue_only q) by done. mgo. unfold queue_prio_insert. mgo.
  unfold reprio_st, put_q, Queues.queue_prio_insert. simpl. rewrite Queues.qof_insert, insert_insert_eq. done.
Qed.

Lemma ready_code s t th th' :
  in_I s → wf s → k_thd s !! t = Some th → p_state th = CH_STATE_READY → th' = set_p_prio (p_prio th') th →
  NOPRIO < p_prio th' → t ∈ qof s QReady →
  (upd_thd t (set_p_state CH_STATE_CURRENT) ;; queue_dequeue t ;; chSchReadyI t ;; mret ()) (put_thd t th' s)
    = Done () (reprio_st t th' QReady s).
Proof.
  intros HI Hw Et Hst Eth Hp Ht. mgo. rewrite (upd_thd_ok _ t th') by apply lookup_insert_eq. mgo.
  rewrite (queue_dequeue_only QReady); [|intros q' Hq'; by apply (qw_disj _ _ (wf_q _ Hw) _ _ t)|done]. mgo.
  rewrite (chSchReadyI_ok t (set_p_state CH_STATE_CURRENT th')); [|done|apply lookup_insert_eq|done|done|done].
  mgo. f_equal.
  assert (set_p_state CH_STATE_READY (set_p_state CH_STATE_CURRENT th') = th') as E.
  { rewrite Eth. destruct th; simpl in *. by subst. }
  unfold ready_st, reprio_st. rewrite E. fold (put_thd t (set_p_state CH_STATE_CURRENT th') (put_thd t th' s)).
  rewrite !put_thd_q, !put_thd_thd, put_q_q, qof_put_q. done.
Qed.

Section InheritStep.
Context (s : kst) (tp : tid) (th : thread) (P : Z).
Hypothesis Hw : wf s.
Hypothesis Hsh : mtx_shape s.
Hypothesis Et : k_thd s !! tp = Some th.
Hypothesis Hlt : p_prio th < P.
Let th' := set_p_prio P th.

Lemma step_prio : NOPRIO < P.
Proof using Hw Et Hlt. pose proof (qw_prio _ _ (wf_q _ Hw) _ _ Et). lia. Qed.

Lemma step_queue q :
  tp ∈ qof s q → let s1 := reprio_st tp th' q s in
  wf s1 ∧ mtx_shape s1 ∧ inherits P s s1.
Proof using All.
  intros Hq s1. pose proof step_prio as HP.
  assert (∀ q', qof s1 q' ≡ₚ qof s q') as Hperm by (intros; by apply reprio_perm).
  split_and!.
  - by apply (reprio_wf s tp th).
  - apply (boost_shape P s s1 tp th); try done.
    + intros m Hm. assert (q = QMtx m) as -> by by apply (qw_disj _ _ (wf_q _ Hw) _ _ tp).
      apply reprio_sorted. apply Hsh.
    + intros m Hm. unfold s1, reprio_st, put_q. rewrite qof_set_q_ne; [done|]. by intros ->.
  - by apply (boost_inherits P s s1 tp th).
Qed.

Lemma step_free :
  tp ∉ qof s QReady → (∀ m, tp ∉ qof s (QMtx m)) → let s1 := put_thd tp th' s in
  wf s1 ∧ mtx_shape s1 ∧ inherits P s s1.
Proof using All.
  intros Hr Hm s1. pose proof step_prio as HP. split_and!.
  - by apply (reprio_free_wf s tp th).
  - apply (boost_shape P s s1 tp th); try done. intros m Hin. by destruct (Hm m).
  - by apply (boost_inherits P s s1 tp th).
Qed.

(** After the step the only pairs that may violate inheritance have [tp] as
    the waiting thread. *)
Lemma step_pi s1 :
  inherits P s s1 → k_thd s1 = <[tp := th']> (k_thd s) →
  (∀ m t w, owner_of s m = Some t → w ∈ qof s (QMtx m) →
     prio_of s w ≤ prio_of s t ∨ (t = tp ∧ prio_of s w ≤ P)) →
  ∀ m t w, owner_of s1 m = Some t → w ∈ qof s1 (QMtx m) →
    prio_of s1 w ≤ prio_of s1 t ∨ (w = tp ∧ tp ∈ qof s (QMtx m)).
Proof using All.
  intros [I1 I2 I3 I4] Ethd Hpi m t w. by apply (boost_pi P s s1 tp th).
Qed.

(** The last iteration: the raised thread waits for no mutex. *)
Lemma step_last :
  (∀ m t w, owner_of s m = Some t → w ∈ qof s (QMtx m) →
     prio_of s w ≤ prio_of s t ∨ (t = tp ∧ prio_of s w ≤ P)) →
  ∀ s1, (∀ m, tp ∉ qof s (QMtx m)) → wf s1 → mtx_shape s1 → inherits P s s1 →
    k_thd s1 = <[tp := th']> (k_thd s) →
    wf s1 ∧ mtx_shape s1 ∧ pi_ok s1 ∧ inherits P s s1 ∧ P ≤ prio_of s1 tp.
Proof using All.
  intros Hpi s1 Hm W1 S1 I1 E1. split_and!; try done.
  - intros m t w Ho Hin. destruct (step_pi s1 I1 E1 Hpi m t w Ho Hin) as [?|[_ ?]]; [done|].
    by destruct (Hm m).
  - rewrite (boost_prio P s s1 tp th E1), decide_True by done. done.
Qed.

Lemma inherits_prio s1 s2 :
  k_thd s1 = <[tp := th']> (k_thd s) → inherits P s1 s2 → P ≤ prio_of s2 tp.
Proof using Type.
  intros E1 I2. unfold prio_of. destruct (ih_thd _ _ _ I2 tp) as [-> |(th2 & _ & _ & ->)]; [|done].
  rewrite E1, lookup_insert_eq. done.
Qed.
End InheritStep.

Lemma mtx_inherit_ok P ctp fuel : ∀ s tp,
  wf s → in_I s → mtx_shape s → k_cur s = ctp → prio_of s ctp = P → is_Some (k_thd s !! tp) →
  (∀ m t w, owner_of s m = Some t → w ∈ qof s (QMtx m) →
     prio_of s w ≤ prio_of s t ∨ (t = tp ∧ prio_of s w ≤ P)) →
  (low P (k_thd s) < fuel)%nat →
  ∃ s', mtx_inherit fuel ctp tp s = Done () s' ∧ wf s' ∧ mtx_shape s' ∧ pi_ok s' ∧
    inherits P s s' ∧ P ≤ prio_of s' tp.
Proof.
  induction fuel as [|fuel IH]; intros s tp Hw HI Hsh Hc HP [th Et] Hpi Hfuel; [lia|].
  destruct (wf_cur _ Hw) as (cth & Ec & Hcst). rewrite Hc in Ec.
  rewrite (prio_of_thd _ _ _ Ec) in HP. simpl. mgo.
  rewrite (thd_ok _ _ _ Et). mgo. rewrite (thd_ok _ _ _ Ec). mgo. rewrite HP.
  destruct (Z.ltb_spec (p_prio th) P) as [Hlt|Hge].
  2: { mgo. exists s. rewrite (prio_of_thd _ _ _ Et). split_and!; try done; [|apply inherits_refl].
       intros m t w Ho Hin. destruct (Hpi m t w Ho Hin) as [?|[-> ?]]; [done|].
       rewrite (prio_of_thd _ _ _ Et). lia. }
  mgo. rewrite (upd_thd_ok _ _ _ _ Et). mgo.
  change (set_k_thd (<[tp := set_p_prio P th]> (k_thd s)) s) with (put_thd tp (set_p_prio P th) s).
  pose proof (step_last s tp th P Hw Hsh Et Hlt Hpi) as Hlast.
  assert (∀ q, tp ∈ qof s q → qstate q th) as Hqs.
  { intros q Hq. destruct (qw_mem _ _ (wf_q _ Hw) q tp Hq) as (? & ? & ?). by simplify_eq. }
  assert (∀ q q', tp ∈ qof s q → tp ∈ qof s q' → q = q') as Honly.
  { intros q q' ??. by apply (qw_disj _ _ (wf_q _ Hw) _ _ tp). }
  pose proof (linked_in s tp th Hw Et) as Hlk. pose proof (step_prio s tp th P Hw Et Hlt) as HP0.
  assert (p_state th ≠ CH_STATE_WTMTX → ∀ m, tp ∉ qof s (QMtx m)) as Hnm.
  { intros Hst m [? _]%Hqs. done. }
  destruct (p_state th) eqn:Es.
  3-6,9-16: mgo; exists (put_thd tp (set_p_prio P th) s); split; [done|];
    destruct (step_free s tp th P Hw Hsh Et Hlt) as (W1 & S1 & I1);
    [intros ?%Hqs; simpl in *; congruence|by apply Hnm|apply Hlast; [by apply Hnm|done..]].
  - destruct Hlk as (q & Hq & Hst); [done|].
    apply qstate_inv in Hst. rewrite Es in Hst. subst q.
    rewrite (ready_code s tp th) by done. exists (reprio_st tp (set_p_prio P th) QReady s). split; [done|].
    destruct (step_queue s tp th P Hw Hsh Et Hlt QReady Hq) as (W1 & S1 & I1).
    apply Hlast; [by apply Hnm|done..].
  - rewrite (wf_uniq _ Hw tp th Et Es), Hc, Ec in Et. simplify_eq. lia.
  - destruct Hlk as (q & Hq & Hst); [done|].
    apply qstate_inv in Hst. rewrite Es in Hst. destruct Hst as (m & -> & Hu). rewrite Hu. mgo.
    pose proof (reprio_code s tp (set_p_prio P th) (QMtx m) (λ q', Honly _ q' Hq) Hq) as Hcode.
    apply rbind_done_inv in Hcode as (? & sa & -> & Hcode). mgo. rewrite Hcode. mgo.
    destruct (step_queue s tp th P Hw Hsh Et Hlt (QMtx m) Hq) as (W1 & S1 & I1).
    set (s1 := reprio_st tp (set_p_prio P th) (QMtx m) s) in *.
    destruct (ms_held _ Hsh m tp Hq) as [o Ho]. unfold owner_of in Ho.
    destruct (k_mtx s !! m) as [mx|] eqn:Em; simpl in Ho; [|done].
    unfold mtx, deref. change (k_mtx s1) with (k_mtx s). rewrite Em. mgo. rewrite Ho.
    destruct (IH s1 o) as (s' & E & W2 & S2 & P2 & I2 & _); try done.
    + rewrite (boost_prio P s s1 tp th) by done. case_decide; [subst; simplify_eq; lia|].
      by rewrite (prio_of_thd _ _ _ Ec).
    + apply (ms_live _ S1 m). unfold owner_of. change (k_mtx s1) with (k_mtx s). by rewrite Em.
    + intros m' t w Ho' Hin.
      destruct (step_pi s tp th P Hw Hsh Et Hlt s1 I1 eq_refl Hpi m' t w Ho' Hin) as [?|[-> Hin']]; [by left|].
      right. assert (m' = m) as -> by (pose proof (Honly _ _ Hq Hin'); congruence).
      split; [|rewrite (boost_prio P s s1 tp th), decide_True by done; done].
      unfold owner_of in Ho'. change (k_mtx s1) with (k_mtx s) in Ho'. rewrite Em in Ho'. simpl in Ho'. congruence.
    + change (k_thd s1) with (<[tp := set_p_prio P th]> (k_thd s)).
      pose proof (low_decr P (k_thd s) tp th Et Hlt). lia.
    + exists s'. split_and!; try done.
      * by apply (inherits_trans P s s1).
      * by apply (inherits_prio s tp th P s1).
  - destruct Hlk as (q & Hq & Hst); [done|].
    apply qstate_inv in Hst. rewrite Es in Hst. destruct Hst as (a & -> & Hu). rewrite Hu. mgo.
    rewrite (reprio_code s tp (set_p_prio P th) (QCond a)); [|intros q' ?; by apply (Honly _ q')|done].
    destruct (step_queue s tp th P Hw Hsh Et Hlt (QCond a) Hq) as (W1 & S1 & I1).
    eexists. split; [done|]. apply Hlast; [by apply Hnm|done..].
Qed.

(** ** Taking and releasing *)

Definition take_st (mp : addr) (t : tid) (th : thread) (s : kst) : kst :=
  put_thd t (set_p_mtxlist (Some mp) th)
    (set_k_mtx (<[mp := mkMutex (Some t) (p_mtxlist th)]> (k_mtx s)) s).

Lemma mtx_take_ok mp t th s :
  is_Some (k_mtx s !! mp) → k_thd s !! t = Some th → mtx_take mp t s = Done () (take_st mp t th s).
Proof.
  intros [mx Em] Et. unfold mtx_take, set_owner, set_next, set_mtx, mtx. mgo.
  unfold deref at 1. rewrite Em. mgo. rewrite (thd_ok _ t th) by done. mgo.
  unfold deref. simpl. rewrite lookup_insert_eq. mgo. rewrite (upd_thd_ok _ t th) by done.
  unfold take_st, put_thd, set_k_thd, set_k_mtx. simpl. by rewrite insert_insert_eq.
Qed.

Lemma mchain_frame T mp x o ms : mp ∉ ms → mchain T o ms → mchain (<[mp := x]> T) o ms.
Proof.
  revert o. induction ms as [|m ms IH]; intros o Hn; simpl; [done|].
  intros (-> & mx & E & Hc). split; [done|]. exists mx. rewrite lookup_insert_ne by set_solver.
  split; [done|]. apply IH; [set_solver|done].
Qed.

(** The stacks list the owned mutexes but [mp]. *)
Definition stacks_but (mp : addr) (s : kst) : Prop :=
  ∀ t th, k_thd s !! t = Some th →
    ∃ ms, mchain (k_mtx s) (p_mtxlist th) ms ∧ NoDup ms ∧ ∀ m, m ∈ ms ↔ m ≠ mp ∧ owner_of s m = Some t.

Lemma stacks_free mp s : mtx_shape s → owner_of s mp = None → stacks_but mp s.
Proof.
  intros Hsh Hn t th Et. destruct (ms_own _ Hsh t th Et) as (ms & Hc & Hnd & Hm).
  exists ms. split_and!; [done..|]. intros m. rewrite Hm. split; [|by intros []].
  intros Ho. split; [|done]. by intros ->; simplify_eq.
Qed.

Lemma owner_insert s mp mx m :
  owner_of (set_k_mtx (<[mp := mx]> (k_mtx s)) s) m = if decide (mp = m) then m_owner mx else owner_of s m.
Proof. unfold owner_of. simpl. rewrite lookup_insert. by case_decide. Qed.

(** [mp] gets the owner [t] and is pushed on its stack. *)
Lemma take_stacks mp t th s :
  stacks_but mp s → k_thd s !! t = Some th →
  ∀ t' th', k_thd (take_st mp t th s) !! t' = Some th' →
    ∃ ms, mchain (k_mtx (take_st mp t th s)) (p_mtxlist th') ms ∧ NoDup ms ∧
      ∀ m, m ∈ ms ↔ owner_of (take_st mp t th s) m = Some t'.
Proof.
  intros Hst Et t' th'. simpl. rewrite lookup_insert. intros E'.
  assert (∀ m, owner_of (take_st mp t th s) m = if decide (mp = m) then Some t else owner_of s m) as Ho
    by (intros m; apply owner_insert).
  setoid_rewrite Ho. case_decide as Ht; subst.
  - injection E' as <-. destruct (Hst t' th Et) as (ms & Hc & Hnd & Hm).
    exists (mp :: ms). split_and!.
    + simpl. split; [done|]. eexists. rewrite lookup_insert_eq. split; [done|]. simpl.
      apply mchain_frame; [|done]. rewrite Hm. naive_solver.
    + constructor; [|done]. rewrite Hm. naive_solver.
    + intros m. rewrite elem_of_cons, Hm. case_decide; subst; naive_solver.
  - destruct (Hst t' th' E') as (ms & Hc & Hnd & Hm). exists ms. split_and!; [|done|].
    + apply mchain_frame; [|done]. rewrite Hm. naive_solver.
    + intros m. rewrite Hm. case_decide; subst; naive_solver.
Qed.

Section Take.
Context (s : kst) (mp : addr) (t : tid) (th : thread).
Hypothesis Hst : stacks_but mp s.
Hypothesis Hlive : ∀ m t, owner_of s m = Some t → is_Some (k_thd s !! t).
Hypothesis Hheld : ∀ m w, m ≠ mp → w ∈ qof s (QMtx m) → is_Some (owner_of s m).
Hypothesis Hsorted : ∀ m, StronglySorted (by_prio s) (qof s (QMtx m)).
Hypothesis Hpi : ∀ m t w, m ≠ mp → owner_of s m = Some t → w ∈ qof s (QMtx m) → prio_of s w ≤ prio_of s t.
Hypothesis Et : k_thd s !! t = Some th.
Hypothesis Hmp : ∀ w, w ∈ qof s (QMtx mp) → prio_of s w ≤ prio_of s t.

Lemma take_owner m : owner_of (take_st mp t th s) m = if decide (mp = m) then Some t else owner_of s m.
Proof. apply owner_insert. Qed.

Lemma take_prio x : prio_of (take_st mp t th s) x = prio_of s x.
Proof using Et. by apply (prio_of_put_same t th (set_p_mtxlist (Some mp) th)
  (set_k_mtx (<[mp := mkMutex (Some t) (p_mtxlist th)]> (k_mtx s)) s) x). Qed.

Lemma take_mtx_wf : mtx_wf (take_st mp t th s).
Proof using All.
  split; [split|].
  - by apply take_stacks.
  - intros m t'. rewrite take_owner. simpl. intros Ho. apply lookup_insert_is_Some'.
    case_decide; subst; [left; congruence|right; eauto].
  - intros m w Hw. rewrite take_owner. case_decide; [done|]. by apply (Hheld m w).
  - intros m. apply (StronglySorted_impl (by_prio s)); [|apply Hsorted].
    intros x y _ _. unfold by_prio. by rewrite !take_prio.
  - intros m t' w. rewrite take_owner, !take_prio. intros Ho Hin.
    case_decide; subst; [simplify_eq; by apply Hmp|by apply (Hpi m)].
Qed.
End Take.

(** The invariant depends on the static part of the threads, the mutexes and
    their queues. *)
Lemma mtx_wf_static s s' :
  mtx_shape s → thd_static s s' → k_mtx s' = k_mtx s →
  (∀ m w, w ∈ qof s' (QMtx m) → is_Some (owner_of s m)) →
  (∀ m, StronglySorted (by_prio s) (qof s' (QMtx m))) →
  (∀ m t w, owner_of s m = Some t → w ∈ qof s' (QMtx m) → prio_of s w ≤ prio_of s t) → mtx_wf s'.
Proof.
  intros Hsh Hst Em Hheld Hs Hpi.
  assert (∀ m, owner_of s' m = owner_of s m) as Ho by (intros; unfold owner_of; by rewrite Em).
  split; [split|].
  - intros t th' E. destruct (thd_static_inv _ _ _ _ Hst E) as (th & Et & Es).
    assert (p_mtxlist th' = p_mtxlist th) as -> by (by apply (f_equal p_mtxlist) in Es).
    rewrite Em. setoid_rewrite Ho. by apply (ms_own _ Hsh).
  - intros m t. rewrite Ho. intros Hot. destruct (ms_live _ Hsh m t Hot) as [th E].
    specialize (Hst t). rewrite E in Hst. by destruct (k_thd s' !! t).
  - intros m w. rewrite Ho. apply Hheld.
  - intros m. apply (StronglySorted_impl (by_prio s)); [|apply Hs].
    intros x y _ _. unfold by_prio. by rewrite !(thd_static_prio s s').
  - intros m t w. rewrite Ho, !(thd_static_prio s s') by done. apply Hpi.
Qed.

(** The prologue of chMtxLockS on a mutex that has an owner, up to the sleep. *)
Section LockWait.
Context (s : kst) (mp : addr) (mx : mutex) (o : tid) (ntp : tid) (l : list tid).
Hypothesis HK : K s.
Hypothesis Hm : mtx_wf s.
Hypothesis Em : k_mtx s !! mp = Some mx.
Hypothesis Eo : m_owner mx = Some o.
Hypothesis Hr : qof s QReady = ntp :: l.

Lemma lock_inherit :
  ∃ s', mtx_inherit (S (size (k_thd s))) (k_cur s) o s = Done () s' ∧ wf s' ∧ mtx_wf s' ∧
    inherits (prio_of s (k_cur s)) s s' ∧ prio_of s (k_cur s) ≤ prio_of s' o.
Proof using HK Hm Em Eo.
  destruct HK as (Hw & _ & HS). destruct Hm as [Hsh Hpi].
  assert (owner_of s mp = Some o) as Ho by (unfold owner_of; by rewrite Em).
  destruct (mtx_inherit_ok (prio_of s (k_cur s)) (k_cur s) (S (size (k_thd s))) s o)
    as (s' & E & W & S1 & P1 & I1 & Hp); try done.
  - by apply in_S_I.
  - by apply (ms_live _ Hsh mp).
  - intros m t w H1 H2. left. by apply (Hpi m).
  - pose proof (low_size (prio_of s (k_cur s)) (k_thd s)). lia.
  - by exists s'.
Qed.

Lemma inherits_cur s' th : inherits (prio_of s (k_cur s)) s s' → k_thd s !! k_cur s = Some th →
  k_thd s' !! k_cur s = Some th.
Proof using Type.
  intros I E. destruct (ih_thd _ _ _ I (k_cur s)) as [-> |(th' & E' & Hp & _)]; [done|].
  rewrite (prio_of_thd _ _ _ E') in Hp. lia.
Qed.

Lemma inherits_owner s' m : inherits (prio_of s (k_cur s)) s s' → owner_of s' m = owner_of s m.
Proof using Type. intros I. unfold owner_of. destruct (ih_objs _ _ _ I) as (_ & -> & _). done. Qed.

(** From the state after the loop: queue up and sleep. *)
Lemma lock_sleep s' cth :
  wf s' → mtx_wf s' → inherits (prio_of s (k_cur s)) s s' → prio_of s (k_cur s) ≤ prio_of s' o →
  k_thd s !! k_cur s = Some cth →
  let l' := insert_span (λ c, prio_of s' (k_cur s) <=? prio_of s' c) (k_cur s) (qof s' (QMtx mp)) in
  ∃ s1, chSchGoSleepS CH_STATE_WTMTX (block_st (QMtx mp) l' cth (U_wtmtxp mp) s') = Switch s1 (λ x, Done () x) ∧
    K s1 ∧ mtx_wf s1 ∧ thd_static s' s1 ∧ k_cur s ∈ qof s1 (QMtx mp) ∧
    (p_state <$> k_thd s1 !! k_cur s) = Some CH_STATE_WTMTX ∧ k_mtx s1 = k_mtx s.
Proof using All.
  intros W' M' I Hp Ec l'. destruct HK as (Hw & _ & HS).
  pose proof (ih_cur _ _ _ I) as Ecur. pose proof (inherits_cur s' cth I Ec) as Ec'.
  assert (∃ ntp' lr, qof s' QReady = ntp' :: lr) as (ntp' & lr & Hr').
  { pose proof (ih_q _ _ _ I QReady) as HP. rewrite Hr in HP.
    destruct (qof s' QReady); [by apply Permutation_nil_cons in HP|eauto]. }
  assert (l' ≡ₚ k_cur s :: qof s' (QMtx mp)) as Hl' by apply insert_span_perm.
  destruct (block_sleep s' (QMtx mp) cth (U_wtmtxp mp) CH_STATE_WTMTX l' ntp' lr) with
    (s0 := block_st (QMtx mp) l' cth (U_wtmtxp mp) s')
    as (s1 & E & K1 & O1 & _ & E2 & E3 & _ & E5 & E6); try done; rewrite ?Ecur; try done.
  { by apply (in_S_same s); [apply (ih_objs _ _ _ I)|]. }
  rewrite Ecur in E2. destruct M' as [Sh' Pi'].
  assert (k_mtx s1 = k_mtx s') as Em1 by (destruct O1 as (_ & -> & _); done).
  assert (∀ m, m ≠ mp → qof s1 (QMtx m) = qof s' (QMtx m)) as Hqn by (intros; apply E5; congruence).
  assert (owner_of s' mp = Some o) as Ho.
  { rewrite inherits_owner by done. unfold owner_of. by rewrite Em. }
  exists s1. split_and!; try done.
  - apply (mtx_wf_static s' s1); try done.
    + intros m w. destruct (decide (m = mp)) as [->|]; [rewrite Ho; eauto|]. rewrite Hqn by done. apply (ms_held _ Sh').
    + intros m. destruct (decide (m = mp)) as [->|]; [|rewrite Hqn by done; apply (ms_sorted _ Sh')].
      rewrite E3. apply (sorted_insert _ Z.leb); [lia|lia|]. apply (ms_sorted _ Sh').
    + intros m t w Hot. destruct (decide (m = mp)) as [->|]; [|rewrite Hqn by done; by apply (Pi' m)].
      rewrite E3, Hl', elem_of_cons. intros [->|Hin]; [|by apply (Pi' mp)].
      rewrite Ho in Hot. injection Hot as <-.
      rewrite (prio_of_thd _ _ _ Ec'). by rewrite (prio_of_thd _ _ _ Ec) in Hp.
  - rewrite E3, Hl'. left.
  - by rewrite E2.
  - rewrite Em1. by destruct (ih_objs _ _ _ I) as (_ & -> & _).
Qed.
End LockWait.

Lemma mtx_deref s mp mx : k_mtx s !! mp = Some mx → mtx mp s = Done mx s.
Proof. intros E. unfold mtx, deref. by rewrite E. Qed.

Lemma chMtxLockS_take s mp mx cth :
  K s → mtx_wf s → k_mtx s !! mp = Some mx → m_owner mx = None → k_thd s !! k_cur s = Some cth →
  let s' := take_st mp (k_cur s) cth s in chMtxLockS mp s = Done () s' ∧ K s' ∧ mtx_wf s'.
Proof.
  intros (Hw & Hok & HS) [Hsh Hpi] Em Ho Ec.
  assert (owner_of s mp = None) as Ho' by (unfold owner_of; by rewrite Em).
  split_and!.
  - unfold chMtxLockS. mgo. rewrite (classS_ok s HS). mgo. rewrite (mtx_deref _ _ _ Em). mgo. rewrite Ho.
    by apply mtx_take_ok.
  - set (s0 := set_k_mtx (<[mp := mkMutex (Some (k_cur s)) (p_mtxlist cth)]> (k_mtx s)) s).
    assert (wf s0) as W0 by by apply (wf_ext s).
    split_and!; [by apply (wf_put_same s0 _ cth)|by apply (sched_ok_put_same s0 _ cth)|done].
  - apply take_mtx_wf; try done.
    + by apply stacks_free.
    + apply (ms_live _ Hsh).
    + intros m w _. apply (ms_held _ Hsh).
    + apply (ms_sorted _ Hsh).
    + intros m t w _. apply Hpi.
    + intros w Hin. destruct (ms_held _ Hsh mp w Hin) as [x Hx]. congruence.
Qed.

(** Locking a free mutex: the caller becomes its owner, the mutex is on top
    of the caller's stack, the call returns and the invariants hold. *)
Theorem chMtxLockS_free s mp mx :
  K s → mtx_wf s → k_mtx s !! mp = Some mx → m_owner mx = None →
  ∃ s', chMtxLockS mp s = Done () s' ∧ K s' ∧ mtx_wf s' ∧ owner_of s' mp = Some (k_cur s) ∧
    (p_mtxlist <$> k_thd s' !! k_cur s) = Some (Some mp) ∧ (∀ t, prio_of s' t = prio_of s t).
Proof.
  intros HK Hm Em Ho. destruct (wf_cur _ (proj1 HK)) as (cth & Ec & Hc).
  destruct (chMtxLockS_take s mp mx cth HK Hm Em Ho Ec) as (E & HK' & Hm').
  exists (take_st mp (k_cur s) cth s). split_and!; try done.
  - rewrite take_owner, decide_True by done. done.
  - simpl. by rewrite lookup_insert_eq.
  - intros t. by apply take_prio.
Qed.

(** C29.  Locking a mutex that has an owner [o], with priority inheritance.  The
    caller is queued in priority order in state WTMTX and the kernel switches
    away with all invariants: every owner has at least the priority of the
    threads waiting for its mutexes, along the whole chain of owners.  Only
    priorities below the caller's change, and only to the caller's priority.
    When the caller runs again owning the mutex, the call returns. *)
Theorem chMtxLockS_wait s mp mx o ntp l :
  K s → mtx_wf s → k_mtx s !! mp = Some mx → m_owner mx = Some o → qof s QReady = ntp :: l →
  let P := prio_of s (k_cur s) in
  ∃ s1 k, chMtxLockS mp s = Switch s1 k ∧ K s1 ∧ mtx_wf s1 ∧ k_mtx s1 = k_mtx s ∧
    k_cur s ∈ qof s1 (QMtx mp) ∧ (p_state <$> k_thd s1 !! k_cur s) = Some CH_STATE_WTMTX ∧
    P ≤ prio_of s1 o ∧
    (∀ t, prio_of s1 t = prio_of s t ∨ (prio_of s t < P ∧ prio_of s1 t = P)) ∧
    (∀ s', owner_of s' mp = Some (k_cur s) → (p_mtxlist <$> k_thd s' !! k_cur s) = Some (Some mp) →
       k s' = Done () s').
Proof.
  intros HK Hm Em Eo Hr P. pose proof HK as (Hw & _ & HS). destruct (wf_cur _ Hw) as (cth & Ec & _).
  destruct (lock_inherit s mp mx o HK Hm Em Eo) as (s' & E' & W' & M' & I' & Hp').
  destruct (lock_sleep s mp mx o ntp l HK Hm Em Eo Hr s' cth W' M' I' Hp' Ec) as (s1 & E1 & K1 & M1 & T1 & Hin & Hst & Em1).
  eexists s1, _. split.
  { unfold chMtxLockS. mgo. rewrite (classS_ok s HS). mgo. rewrite (mtx_deref _ _ _ Em). mgo. rewrite Eo. mgo.
    rewrite E'. mgo. unfold queue_prio_insert. mgo.
    rewrite (upd_thd_ok _ (k_cur s) cth) by (by apply (inherits_cur s s')). mgo.
    unfold block_st in E1. rewrite (ih_cur _ _ _ I'), <-put_thd_q in E1.
    match type of E1 with chSchGoSleepS _ ?x = _ =>
      match goal with |- context [chSchGoSleepS _ ?y] => change y with x end end.
    rewrite E1. mgo. done. }
  split_and!; try done.
  - by rewrite (thd_static_prio s' s1).
  - intros t. rewrite (thd_static_prio s' s1) by done. unfold prio_of; fold P.
    destruct (ih_thd _ _ _ I' t) as [-> |(th & -> & Hlt & ->)]; [by left|by right].
  - intros s2 Ho Hl. unfold owner_of in Ho. destruct (k_mtx s2 !! mp) as [mx2|] eqn:Em2; [|done].
    mgo. rewrite (mtx_deref _ _ _ Em2). mgo. rewrite bool_decide_true by done. mgo.
    destruct (k_thd s2 !! k_cur s) as [th2|] eqn:E2; [|done]. rewrite (thd_ok _ _ _ E2). mgo.
    rewrite bool_decide_true; [done|]. simpl in Hl. congruence.
Qed.

(** ** Unlocking *)

(** The highest of [np] and the priorities of the first waiting threads. *)
Definition best (s : kst) (np : Z) (ms : list addr) : Z :=
  foldl (λ a m, match qof s (QMtx m) with
                | [] => a
                | w :: _ => if a <? prio_of s w then prio_of s w else a
                end) np ms.

Lemma mtx_newprio_ok s ms : ∀ fuel lmp np,
  wf s → in_S s → mchain (k_mtx s) lmp ms → (length ms ≤ fuel)%nat →
  mtx_newprio fuel lmp np s = Done (best s np ms) s.
Proof.
  induction ms as [|m ms IH]; intros fuel lmp np Hw HS; simpl.
  - intros -> _. by destruct fuel.
  - intros (-> & mx & Em & Hc) Hlen. destruct fuel as [|fuel]; [lia|]. simpl.
    unfold chMtxQueueNotEmptyS, queue_notempty. mgo. rewrite (classS_ok s HS). mgo.
    unfold Queues.queue_notempty, Queues.queue_isempty. fold (qof s (QMtx m)).
    destruct (qof s (QMtx m)) as [|w q] eqn:Eq; simpl; mgo.
    + rewrite (mtx_deref _ _ _ Em). mgo. apply IH; [done..|lia].
    + destruct (qw_mem _ _ (wf_q _ Hw) (QMtx m) w) as (wth & Ew & _); [rewrite Eq; left|].
      unfold mtx_first_prio. mgo. unfold deref. rewrite Eq. simpl. mgo. rewrite (thd_ok _ _ _ Ew). mgo.
      rewrite (mtx_deref _ _ _ Em). mgo. rewrite (prio_of_thd _ _ _ Ew). apply IH; [done..|lia].
Qed.

Lemma best_spec s ms : ∀ np,
  np ≤ best s np ms ∧
  (∀ m w q, m ∈ ms → qof s (QMtx m) = w :: q → prio_of s w ≤ best s np ms) ∧
  (best s np ms = np ∨ ∃ m w, m ∈ ms ∧ w ∈ qof s (QMtx m) ∧ prio_of s w = best s np ms).
Proof.
  induction ms as [|m ms IH]; intros np; [split_and!; [done|set_solver|by left]|].
  change (best s np (m :: ms)) with
    (best s (match qof s (QMtx m) with [] => np | w :: _ => if np <? prio_of s w then prio_of s w else np end) ms).
  set (np' := match qof s (QMtx m) with [] => np | _ => _ end).
  destruct (IH np') as (H1 & H2 & H3).
  assert (np ≤ np' ∧ (∀ w q, qof s (QMtx m) = w :: q → prio_of s w ≤ np') ∧
          (np' = np ∨ ∃ w, w ∈ qof s (QMtx m) ∧ prio_of s w = np')) as (G1 & G2 & G3).
  { unfold np'. destruct (qof s (QMtx m)) as [|w q]; [split_and!; [done|done|by left]|].
    destruct (Z.ltb_spec np (prio_of s w)); (split_and!; [lia|intros ?? [= <- <-]; lia|]).
    - right. exists w. split; [left|done].
    - by left. }
  split_and!.
  - lia.
  - intros m' w q [->|Hm]%elem_of_cons Eq; [|by eapply H2]. etrans; [by eapply G2|done].
  - destruct H3 as [E3|(m' & w & Hm & Hw & E)].
    + rewrite E3. destruct G3 as [->|(w & Hw & E)]; [by left|]. right. exists m, w. split_and!; [left|done..].
    + right. exists m', w. split_and!; [by right|done..].
Qed.

(** A chain without repetition is not longer than the number of mutexes. *)
Lemma mchain_length T o ms : NoDup ms → mchain T o ms → (length ms ≤ size T)%nat.
Proof.
  intros Hnd Hc.
  assert (list_to_set ms ⊆ dom T) as Hsub.
  { revert o Hc. clear Hnd. induction ms as [|m ms IH]; intros o; simpl; [set_solver|].
    intros (_ & mx & E & Hc). apply union_subseteq. split; [|by eapply IH].
    apply singleton_subseteq_l, elem_of_dom. eauto. }
  apply subseteq_size in Hsub. rewrite size_list_to_set in Hsub by done. by rewrite size_dom in Hsub.
Qed.

(** The priority the unlocking thread keeps: not below its own nor below that of
    any thread waiting for a mutex it still owns, and equal to one of them. *)
Definition effective_prio (s : kst) (t : tid) (real p : Z) : Prop :=
  real ≤ p ∧ (∀ m w, owner_of s m = Some t → w ∈ qof s (QMtx m) → prio_of s w ≤ p) ∧
  (p = real ∨ ∃ m w, owner_of s m = Some t ∧ w ∈ qof s (QMtx m) ∧ prio_of s w = p).

Section Unlock.
Context (s : kst) (mp : addr) (cth : thread) (mx : mutex).
Hypothesis Hw : wf s.
Hypothesis HS : in_S s.
Hypothesis Hm : mtx_wf s.
Hypothesis Ec : k_thd s !! k_cur s = Some cth.
Hypothesis El : p_mtxlist cth = Some mp.
Hypothesis Em : k_mtx s !! mp = Some mx.

Lemma unlock_stack :
  ∃ ms, mchain (k_mtx s) (m_next mx) ms ∧ NoDup ms ∧ mp ∉ ms ∧
    owner_of s mp = Some (k_cur s) ∧ (∀ m, m ∈ ms ↔ m ≠ mp ∧ owner_of s m = Some (k_cur s)).
Proof using Hm Ec El Em.
  destruct Hm as [Hsh _]. destruct (ms_own _ Hsh _ _ Ec) as (ms & Hc & Hnd & Hin). rewrite El in Hc.
  destruct ms as [|m ms]; simpl in Hc; [done|]. destruct Hc as ([= <-] & mx' & E & Hc). simplify_eq.
  apply NoDup_cons in Hnd as [Hn Hnd]. exists ms. split_and!; try done.
  - apply Hin. left.
  - intros m. specialize (Hin m). rewrite elem_of_cons in Hin. destruct (decide (m = mp)); naive_solver.
Qed.

(** The stack after [ctp->p_mtxlist = mp->m_next]. *)
Lemma unlock_pop th' : p_mtxlist th' = m_next mx → stacks_but mp (put_thd (k_cur s) th' s).
Proof using Hm Ec El Em.
  intros El' t th. simpl. rewrite lookup_insert. destruct unlock_stack as (ms & Hc & Hnd & Hn & Ho & Hin).
  case_decide as Ht; subst.
  - intros [= <-]. rewrite El'. exists ms. done.
  - intros Et. destruct Hm as [Hsh _]. destruct (ms_own _ Hsh _ _ Et) as (ms' & Hc' & Hnd' & Hin').
    exists ms'. split_and!; [done..|]. intros m. rewrite Hin'.
    change (owner_of (put_thd (k_cur s) th' s) m) with (owner_of s m). naive_solver congruence.
Qed.

Lemma unlock_enter {A} (k : tid → bool → M A) func (e : M A) :
  (ctp ← currp; cth ← thd ctp;
   match p_mtxlist cth with
   | None => e
   | Some top =>
       tmx ← mtx top;
       chDbgAssert (bool_decide (m_owner tmx = Some ctp)) func ;;
       chDbgAssert (bool_decide (top = mp)) func ;;
       mx ← mtx mp;
       upd_thd ctp (set_p_mtxlist (m_next mx)) ;;
       b ← chMtxQueueNotEmptyS mp; k ctp b
   end) s =
  k (k_cur s) (negb (bool_decide (qof s (QMtx mp) = []))) (put_thd (k_cur s) (set_p_mtxlist (m_next mx) cth) s).
Proof using HS Hm Ec El Em.
  destruct unlock_stack as (ms & _ & _ & _ & Ho & _). unfold owner_of in Ho. rewrite Em in Ho. simpl in Ho.
  mgo. rewrite (thd_ok _ _ _ Ec). mgo. rewrite El. mgo. rewrite !(mtx_deref _ _ _ Em). mgo.
  rewrite !bool_decide_true by done. mgo. rewrite (mtx_deref _ _ _ Em). mgo.
  rewrite (upd_thd_ok _ _ _ _ Ec). mgo. unfold chMtxQueueNotEmptyS, queue_notempty. mgo.
  rewrite classS_ok by done. mgo. unfold Queues.queue_notempty, Queues.queue_isempty.
  change (Queues.qof _ (QMtx mp)) with (qof s (QMtx mp)). unfold put_thd.
  by destruct (qof s (QMtx mp)).
Qed.

(** No thread waits: the mutex is free. *)
Lemma unlock_free :
  qof s (QMtx mp) = [] →
  let s' := set_k_mtx (<[mp := mkMutex None (m_next mx)]> (k_mtx s))
              (put_thd (k_cur s) (set_p_mtxlist (m_next mx) cth) s) in
  wf s' ∧ mtx_wf s'.
Proof using All.
  intros Hq s'. destruct (wf_cur _ Hw) as (? & ? & Hc). simplify_eq. destruct Hm as [Hsh Hpi].
  set (s0 := put_thd (k_cur s) (set_p_mtxlist (m_next mx) cth) s).
  assert (∀ m, owner_of s' m = if decide (mp = m) then None else owner_of s m) as Ho
    by (intros m; apply (owner_insert s0)).
  assert (∀ x, prio_of s' x = prio_of s x) as Hp by (intros; by apply (prio_of_put_same _ cth)).
  split; [by apply (wf_ext s0); [..|apply (wf_put_same s _ cth)]|]. split; [split|].
  - intros t th Et. destruct (unlock_pop (set_p_mtxlist (m_next mx) cth) eq_refl t th Et) as (ms & Hch & Hnd & Hin).
    exists ms. split_and!; [|done|].
    + apply mchain_frame; [|done]. rewrite Hin. naive_solver.
    + intros m. rewrite Hin, Ho. change (owner_of (put_thd _ _ s) m) with (owner_of s m).
      case_decide; naive_solver.
  - intros m t. rewrite Ho. case_decide; [done|]. intros Hot. simpl. apply lookup_insert_is_Some'. right.
    by apply (ms_live _ Hsh m).
  - intros m w Hin. rewrite Ho. change (qof s' (QMtx m)) with (qof s (QMtx m)) in Hin.
    case_decide; subst; [rewrite Hq in Hin; set_solver|by apply (ms_held _ Hsh m w)].
  - intros m. apply (StronglySorted_impl (by_prio s)); [|apply (ms_sorted _ Hsh m)].
    intros x y _ _. unfold by_prio. by rewrite !Hp.
  - intros m t w. rewrite Ho, !Hp. case_decide; [done|]. apply Hpi.
Qed.

(** The first waiting thread [w] gets the mutex; the caller's priority becomes
    [np]. *)
Context (w : tid) (rest : list tid) (wth : thread) (np : Z).
Hypothesis Hq : qof s (QMtx mp) = w :: rest.
Hypothesis Ew : k_thd s !! w = Some wth.
Hypothesis Hnp : NOPRIO < np.
Hypothesis Hmax : ∀ m x, m ≠ mp → owner_of s m = Some (k_cur s) → x ∈ qof s (QMtx m) → prio_of s x ≤ np.

Let cth' := set_p_prio np (set_p_mtxlist (m_next mx) cth).
Let s1 := put_thd (k_cur s) cth' s.
Let s2 := put_q (QMtx mp) rest s1.

Lemma hand_w_ne : w ≠ k_cur s.
Proof using Hw Hq.
  intros E. apply (qw_out _ _ (wf_q _ Hw) (k_cur s) (QMtx mp)); [by apply elem_of_singleton|].
  rewrite Hq, E. left.
Qed.

Lemma hand_wait_ne m x : x ∈ qof s (QMtx m) → x ≠ k_cur s.
Proof using Hw.
  intros Hx ->. by apply (qw_out _ _ (wf_q _ Hw) (k_cur s) (QMtx m)); [apply elem_of_singleton|].
Qed.

Lemma hand_prio x : prio_of s2 x = if decide (k_cur s = x) then np else prio_of s x.
Proof. apply (prio_of_put (k_cur s) cth' s). Qed.

Lemma hand_q m : qof s2 (QMtx m) = if decide (mp = m) then rest else qof s (QMtx m).
Proof.
  unfold s2. case_decide as E; [rewrite <-E; apply qof_put_q|]. rewrite qof_put_q_ne by congruence. done.
Qed.

Lemma hand_sub m : qof s2 (QMtx m) `sublist_of` qof s (QMtx m).
Proof using Hq. rewrite hand_q. case_decide as E; [rewrite <-E, Hq; by constructor|done]. Qed.

Lemma hand_mtx_wf : mtx_wf (take_st mp w wth s2).
Proof using All.
  destruct Hm as [Hsh Hpi]. pose proof hand_w_ne as Hne.
  assert (∀ m x, x ∈ qof s2 (QMtx m) → x ∈ qof s (QMtx m)) as Hin
    by (intros m x Hx; by eapply elem_of_sublist, hand_sub).
  assert (∀ m x, x ∈ qof s (QMtx m) → prio_of s2 x = prio_of s x) as Hp.
  { intros m x Hx. rewrite hand_prio, decide_False; [done|]. intros E. by apply (hand_wait_ne m x). }
  apply take_mtx_wf.
  - by apply (unlock_pop cth').
  - intros m t Hot. simpl. apply lookup_insert_is_Some'. right. by apply (ms_live _ Hsh m).
  - intros m x _ Hx. by apply (ms_held _ Hsh m x), Hin.
  - intros m. apply (StronglySorted_impl (by_prio s)).
    + intros x y Hx Hy. unfold by_prio. by rewrite !(Hp m) by by apply Hin.
    + eapply StronglySorted_sublist; [apply hand_sub|apply (ms_sorted _ Hsh)].
  - intros m t x Hmp Hot Hx. apply Hin in Hx. rewrite (Hp m x) by done. rewrite hand_prio.
    change (owner_of s m = Some t) in Hot. case_decide; subst; [by apply (Hmax m)|by apply (Hpi m)].
  - simpl. by rewrite lookup_insert_ne.
  - intros x Hx. apply Hin in Hx. rewrite !(Hp mp); [|rewrite Hq; left|done].
    by apply (sorted_first s (QMtx mp) w rest); [apply (ms_sorted _ Hsh)|..].
Qed.

Definition hand_st : kst := ready_st w (set_p_mtxlist (Some mp) wth) (take_st mp w wth s2).

Lemma hand_wf : wf hand_st ∧ mtx_wf hand_st.
Proof using All.
  pose proof hand_w_ne as Hne. pose proof hand_mtx_wf as [M1 M2]. destruct (wf_cur _ Hw) as (? & ? & Hc). simplify_eq.
  split.
  - unfold hand_st, take_st. rewrite (ready_st_put w _ wth); [|simpl; by rewrite lookup_insert_ne|done].
    set (s3 := set_k_mtx (<[mp := mkMutex (Some w) (p_mtxlist wth)]> (k_mtx s2)) s1).
    change (wf (ready_st w (set_p_mtxlist (Some mp) wth) (put_q (QMtx mp) rest s3))).
    apply (ready_from_wf s3 (QMtx mp) w rest wth); try done.
    + apply (wf_ext s1); [done..|]. by apply (wf_put_cur s cth).
    + change (qof s (QMtx mp) ≡ₚ w :: rest). by rewrite Hq.
    + change (rest `sublist_of` qof s (QMtx mp)). rewrite Hq. by constructor.
    + simpl. by rewrite lookup_insert_ne.
  - apply (mtx_wf_static (take_st mp w wth s2)); try done.
    + apply (thd_static_put _ w (set_p_mtxlist (Some mp) wth)); [apply lookup_insert_eq|done].
    + intros m x. unfold hand_st. rewrite ready_st_qof_ne by done. apply (ms_held _ M1).
    + intros m. unfold hand_st. rewrite ready_st_qof_ne by done. apply (ms_sorted _ M1).
    + intros m t x Hot. unfold hand_st. rewrite ready_st_qof_ne by done. by apply (M2 m).
Qed.

Lemma hand_st_prio x : prio_of hand_st x = if decide (k_cur s = x) then np else prio_of s x.
Proof using Hw Hq Ew.
  pose proof hand_w_ne as Hne. unfold hand_st. rewrite ready_st_prio by apply lookup_insert_eq.
  rewrite take_prio by (simpl; by rewrite lookup_insert_ne). apply hand_prio.
Qed.

Lemma hand_st_owner m : owner_of hand_st m = if decide (mp = m) then Some w else owner_of s m.
Proof. etrans; [apply (owner_insert s2)|done]. Qed.

Lemma hand_st_q m : qof hand_st (QMtx m) = if decide (mp = m) then rest else qof s (QMtx m).
Proof. unfold hand_st. rewrite ready_st_qof_ne by done. apply hand_q. Qed.

Lemma hand_st_cur : k_thd hand_st !! k_cur s = Some cth'.
Proof using Hw Hq.
  pose proof hand_w_ne as Hne. unfold hand_st. rewrite ready_st_thd, decide_False by done. simpl.
  rewrite lookup_insert_ne by done. by rewrite lookup_insert_eq.
Qed.

Lemma hand_st_w : k_thd hand_st !! w = Some (set_p_state CH_STATE_READY (set_p_mtxlist (Some mp) wth)).
Proof. unfold hand_st. by rewrite ready_st_thd, decide_True. Qed.

Lemma hand_effective :
  p_realprio cth ≤ np →
  (np = p_realprio cth ∨
     ∃ m x, m ≠ mp ∧ owner_of s m = Some (k_cur s) ∧ x ∈ qof s (QMtx m) ∧ prio_of s x = np) →
  effective_prio hand_st (k_cur s) (p_realprio cth) (prio_of hand_st (k_cur s)).
Proof using Hw Hq Ew Hmax.
  intros H1 H3. rewrite hand_st_prio, decide_True by done. split_and!; [done|..].
  - intros m x. rewrite hand_st_owner, hand_st_q, hand_st_prio. pose proof hand_w_ne.
    case_decide as Hd; [congruence|]. intros Ho Hx.
    rewrite decide_False by (intros E; by apply (hand_wait_ne m x)). by apply (Hmax m).
  - destruct H3 as [?|(m & x & Hne & Ho & Hx & E)]; [by left|]. right. exists m, x.
    rewrite hand_st_owner, hand_st_q, hand_st_prio, !(decide_False (P := mp = m)) by done.
    rewrite decide_False by (intros E'; by apply (hand_wait_ne m x)). done.
Qed.

Lemma hand_code : mtx_handover mp s1 = Done w hand_st.
Proof using Hw HS Hq Ew Em.
  pose proof hand_w_ne as Hne. unfold mtx_handover. mgo.
  rewrite (queue_fifo_remove_ok (QMtx mp) w rest) by done. mgo. fold s2.
  assert (k_thd s2 !! w = Some wth) as Ew2 by (simpl; by rewrite lookup_insert_ne).
  rewrite (mtx_take_ok mp w wth) by (done || by exists mx). mgo.
  destruct (qw_mem _ _ (wf_q _ Hw) (QMtx mp) w) as (? & ? & Hst & _); [rewrite Hq; left|]. simplify_eq.
  rewrite (chSchReadyI_ok w (set_p_mtxlist (Some mp) wth)); [done|by apply (in_S_I s)|apply lookup_insert_eq|..].
  - simpl. congruence.
  - simpl. congruence.
  - by apply (qw_prio _ _ (wf_q _ Hw) _ _ Ew).
Qed.
End Unlock.

Lemma unlock_newprio s mp cth mx :
  wf s → in_S s → mtx_wf s → k_thd s !! k_cur s = Some cth → p_mtxlist cth = Some mp →
  k_mtx s !! mp = Some mx →
  ∃ np, mtx_newprio (size (k_mtx s)) (m_next mx) (p_realprio cth)
          (put_thd (k_cur s) (set_p_mtxlist (m_next mx) cth) s)
        = Done np (put_thd (k_cur s) (set_p_mtxlist (m_next mx) cth) s) ∧
    p_realprio cth ≤ np ∧
    (∀ m x, m ≠ mp → owner_of s m = Some (k_cur s) → x ∈ qof s (QMtx m) → prio_of s x ≤ np) ∧
    (np = p_realprio cth ∨ ∃ m x, m ≠ mp ∧ owner_of s m = Some (k_cur s) ∧ x ∈ qof s (QMtx m) ∧ prio_of s x = np).
Proof.
  intros Hw HS Hm Ec El Em.
  destruct (unlock_stack s mp cth mx Hm Ec El Em) as (ms & Hc & Hnd & _ & _ & Hin).
  set (s0 := put_thd (k_cur s) (set_p_mtxlist (m_next mx) cth) s).
  assert (∀ x, prio_of s0 x = prio_of s x) as Hp by (intros; by apply (prio_of_put_same _ cth)).
  exists (best s0 (p_realprio cth) ms). split.
  { apply mtx_newprio_ok; [by apply (wf_put_same s _ cth)|done|done|by apply (mchain_length _ (m_next mx))]. }
  destruct (best_spec s0 ms (p_realprio cth)) as (H1 & H2 & H3). split_and!; [done|..].
  - intros m x Hne Ho Hx. change (qof s (QMtx m)) with (qof s0 (QMtx m)) in Hx.
    destruct (qof s0 (QMtx m)) as [|w q] eqn:Eq; [set_solver|].
    etrans; [|eapply (H2 m w q); [by apply Hin|done]]. rewrite Hp.
    apply (sorted_first s (QMtx m) w q); [apply Hm|done|]. by rewrite <-Eq in Hx.
  - destruct H3 as [H3|(m & x & Hmm & Hx & E)]; [by left|]. right. exists m, x.
    apply Hin in Hmm as [? ?]. rewrite Hp in E. done.
Qed.

Section UnlockCases.
Context (s : kst) (mp : addr) (cth : thread) (mx : mutex) (func : string).
Hypothesis Hw : wf s.
Hypothesis HS : in_S s.
Hypothesis Hm : mtx_wf s.
Hypothesis Ec : k_thd s !! k_cur s = Some cth.
Hypothesis El : p_mtxlist cth = Some mp.
Hypothesis Em : k_mtx s !! mp = Some mx.

Lemma mtx_unlock_none :
  qof s (QMtx mp) = [] →
  mtx_unlock mp func s =
    Done false (set_k_mtx (<[mp := mkMutex None (m_next mx)]> (k_mtx s))
                  (put_thd (k_cur s) (set_p_mtxlist (m_next mx) cth) s)).
Proof using All.
  intros Hq. unfold mtx_unlock. rewrite (unlock_enter s mp cth mx HS Hm Ec El Em).
  rewrite Hq, bool_decide_true by done. simpl. mgo. unfold set_owner, set_mtx. mgo.
  rewrite (mtx_deref _ _ mx) by done. mgo. done.
Qed.

Lemma mtx_unlock_some w rest wth :
  qof s (QMtx mp) = w :: rest → k_thd s !! w = Some wth → NOPRIO < p_realprio cth →
  ∃ np, mtx_unlock mp func s = Done true (hand_st s mp cth mx w rest wth np) ∧
    NOPRIO < np ∧ p_realprio cth ≤ np ∧
    (∀ m x, m ≠ mp → owner_of s m = Some (k_cur s) → x ∈ qof s (QMtx m) → prio_of s x ≤ np) ∧
    (np = p_realprio cth ∨
     ∃ m x, m ≠ mp ∧ owner_of s m = Some (k_cur s) ∧ x ∈ qof s (QMtx m) ∧ prio_of s x = np).
Proof using All.
  intros Hq Ew Hrp. destruct (unlock_newprio s mp cth mx Hw HS Hm Ec El Em) as (np & E & H1 & H2 & H3).
  exists np. split_and!; try done; [|lia].
  unfold mtx_unlock. rewrite (unlock_enter s mp cth mx HS Hm Ec El Em).
  rewrite Hq, bool_decide_false by done. simpl. mgo.
  rewrite (thd_ok _ _ (set_p_mtxlist (m_next mx) cth)) by apply lookup_insert_eq. mgo.
  change (k_mtx (put_thd _ _ s)) with (k_mtx s). simpl p_mtxlist. simpl p_realprio. rewrite E. mgo.
  rewrite (upd_thd_ok _ _ (set_p_mtxlist (m_next mx) cth)) by apply lookup_insert_eq. mgo.
  fold (put_thd (k_cur s) (set_p_prio np (set_p_mtxlist (m_next mx) cth))
    (put_thd (k_cur s) (set_p_mtxlist (m_next mx) cth) s)).
  rewrite put_thd_thd, (hand_code s mp cth mx Hw HS Em w rest wth np Hq Ew). mgo. done.
Qed.
End UnlockCases.

Lemma chMtxUnlockS_ok s mp cth mx :
  wf s → in_S s → mtx_wf s → k_thd s !! k_cur s = Some cth → p_mtxlist cth = Some mp →
  k_mtx s !! mp = Some mx → NOPRIO < p_realprio cth →
  ∃ s', chMtxUnlockS mp s = Done () s' ∧ wf s' ∧ mtx_wf s' ∧ in_S s' ∧ k_cur s' = k_cur s ∧
    (∀ x, x ∈ qof s QReady → x ∈ qof s' QReady) ∧
    (p_mtxlist <$> k_thd s' !! k_cur s) = Some (m_next mx) ∧
    match qof s (QMtx mp) with
    | [] => owner_of s' mp = None ∧ (∀ t, prio_of s' t = prio_of s t) ∧ k_q s' = k_q s
    | w :: rest =>
        owner_of s' mp = Some w ∧ qof s' (QMtx mp) = rest ∧
        (p_mtxlist <$> k_thd s' !! w) = Some (Some mp) ∧ (p_state <$> k_thd s' !! w) = Some CH_STATE_READY ∧
        w ∈ qof s' QReady ∧ effective_prio s' (k_cur s) (p_realprio cth) (prio_of s' (k_cur s)) ∧
        (∀ t, t ≠ k_cur s → prio_of s' t = prio_of s t)
    end.
Proof.
  intros Hw HS Hm Ec El Em Hrp. unfold chMtxUnlockS. mgo. rewrite (classS_ok s HS). mgo.
  destruct (qof s (QMtx mp)) as [|w rest] eqn:Eq.
  - rewrite (mtx_unlock_none s mp cth mx) by done. mgo. eexists. split; [done|].
    destruct (unlock_free s mp cth mx Hw HS Hm Ec El Em Eq) as [H1 H2]. split_and!; try done.
    + simpl. by rewrite lookup_insert_eq.
    + etrans; [apply (owner_insert (put_thd (k_cur s) (set_p_mtxlist (m_next mx) cth) s))|by rewrite decide_True].
    + intros t. by apply (prio_of_put_same _ cth).
  - destruct (qw_mem _ _ (wf_q _ Hw) (QMtx mp) w) as (wth & Ew & _); [rewrite Eq; left|].
    destruct (mtx_unlock_some s mp cth mx "chMtxUnlockS" Hw HS Hm Ec El Em w rest wth Eq Ew Hrp)
      as (np & -> & Hnp & H1 & H2 & H3). mgo.
    destruct (hand_wf s mp cth mx Hw HS Hm Ec El Em w rest wth np Eq Ew Hnp H2) as [W M1].
    pose proof (hand_w_ne s mp Hw w rest Eq) as Hne.
    eexists. split; [done|]. rewrite (hand_st_cur s mp cth mx Hw w rest wth np Eq).
    rewrite (hand_st_owner s mp cth mx w rest wth np), (hand_st_q s mp cth mx w rest wth np), !decide_True by done.
    rewrite (hand_st_w s mp cth mx w rest wth np). split_and!; try done.
    + intros x Hx. apply ready_st_elem. right. change (x ∈ qof (put_q (QMtx mp) rest s) QReady).
      by rewrite qof_put_q_ne.
    + apply ready_st_elem. by left.
    + by apply hand_effective.
    + intros t Ht. rewrite (hand_st_prio s mp cth mx Hw w rest wth np Eq Ew), decide_False by done. done.
Qed.

(** C30.  chMtxUnlockS by the owner of the mutex on top of its stack.  Without
    waiting threads the mutex becomes free.  Otherwise it goes to the first
    thread of the queue, which becomes ready as its owner, and the caller's
    priority is recomputed to exactly the highest of its own priority and of the
    threads still waiting for its other mutexes.  Both invariants hold. *)
Theorem chMtxUnlockS_correct s mp cth mx :
  wf s → in_S s → mtx_wf s → k_thd s !! k_cur s = Some cth → p_mtxlist cth = Some mp →
  k_mtx s !! mp = Some mx → NOPRIO < p_realprio cth →
  ∃ s', chMtxUnlockS mp s = Done () s' ∧ wf s' ∧ mtx_wf s' ∧
    (p_mtxlist <$> k_thd s' !! k_cur s) = Some (m_next mx) ∧
    match qof s (QMtx mp) with
    | [] => owner_of s' mp = None ∧ (∀ t, prio_of s' t = prio_of s t) ∧ k_q s' = k_q s
    | w :: rest =>
        owner_of s' mp = Some w ∧ qof s' (QMtx mp) = rest ∧
        (p_mtxlist <$> k_thd s' !! w) = Some (Some mp) ∧ (p_state <$> k_thd s' !! w) = Some CH_STATE_READY ∧
        w ∈ qof s' QReady ∧ effective_prio s' (k_cur s) (p_realprio cth) (prio_of s' (k_cur s)) ∧
        (∀ t, t ≠ k_cur s → prio_of s' t = prio_of s t)
    end.
Proof.
  intros Hw HS Hm Ec El Em Hrp.
  destruct (chMtxUnlockS_ok s mp cth mx Hw HS Hm Ec El Em Hrp) as (s' & ? & ? & ? & _ & _ & _ & ? & ?). by exists s'.
Qed.
