(* ===== verification/Memory.v ===== *)
(** * Memory allocators (os/rt/src/chmemcore.c, chheap.c, chmempools.c)

    The core allocator hands out consecutive blocks, a heap keeps its free
    blocks in a list sorted by address that is searched first-fit and coalesced
    on release, a pool keeps fixed size objects in a linked stack.  Pointers are
    32-bit addresses and every size computation wraps at 32 bits as [size_t]
    does on the target; [stkalign_t] has 8 bytes, as has the heap header. *)

From S2P Require Import Prelude TimeMeas Kernel ThreadQueues Sys VTimers Sched Mtx.

(** ** Access to the memory state *)

Definition set_core (n e : Z) (m : memst) : memst :=
  mkMemst n e (mem_hdr m) (mem_ph m) (mem_heap m) (mem_pool m).
Definition set_hdr (x : gmap Z heap_header) (m : memst) : memst :=
  mkMemst (nextmem m) (endmem m) x (mem_ph m) (mem_heap m) (mem_pool m).
Definition set_ph (x : gmap Z Z) (m : memst) : memst :=
  mkMemst (nextmem m) (endmem m) (mem_hdr m) x (mem_heap m) (mem_pool m).
Definition set_heap (x : gmap addr memory_heap) (m : memst) : memst :=
  mkMemst (nextmem m) (endmem m) (mem_hdr m) (mem_ph m) x (mem_pool m).
Definition set_pool (x : gmap addr memory_pool) (m : memst) : memst :=
  mkMemst (nextmem m) (endmem m) (mem_hdr m) (mem_ph m) (mem_heap m) x.

Definition upd_mem (f : memst → memst) : M unit := modify (λ s, set_k_mem (f (k_mem s)) s).

(** ** Alignment macros of chmemcore.h *)

Definition MEM_ALIGN_SIZE : Z := 8.
Definition MEM_ALIGN_MASK : Z := MEM_ALIGN_SIZE - 1.
Definition MEM_ALIGN_PREV (p : Z) : Z := Z.land p (not32 MEM_ALIGN_MASK).
Definition MEM_ALIGN_NEXT (p : Z) : Z := MEM_ALIGN_PREV (u32 (p + MEM_ALIGN_MASK)).
Definition MEM_IS_ALIGNED (p : Z) : bool := Z.land p MEM_ALIGN_MASK =? 0.

(** ** Core allocator *)

(** The linker symbols [__heap_base__] and [__heap_end__] are arguments. *)
Definition core_init (heap_base heap_end : Z) : M unit :=
  upd_mem (set_core (MEM_ALIGN_NEXT heap_base) (MEM_ALIGN_PREV heap_end)).

Definition chCoreAllocI (size : Z) : M Z :=
  chDbgCheckClassI ;;
  let size := MEM_ALIGN_NEXT size in
  m ← gets k_mem;
  if u32 (endmem m - nextmem m) <? size then mret 0
  else
    upd_mem (set_core (u32 (nextmem m + size)) (endmem m)) ;;
    mret (nextmem m).

Definition chCoreAlloc (size : Z) : M Z := chSysLock ;; p ← chCoreAllocI size; chSysUnlock ;; mret p.

Definition chCoreGetStatusX : M Z := m ← gets k_mem; mret (u32 (endmem m - nextmem m)).

(** ** Heap headers *)

Definition HDR : Z := 8. (* sizeof(union heap_header) *)

(** [LIMIT(p)]: the first address after the block. *)
Definition LIMIT (p size : Z) : Z := u32 (p + HDR + size).

Definition hh_next (h : heap_header) : option Z := match hh_u h with HNext n => Some n | HHeap _ => None end.

Abbreviation hdrs := (gmap Z heap_header) (only parsing).
Definition wr_next (p n : Z) (H : hdrs) : option hdrs := h ← H !! p; Some (<[p := mkHH (HNext n) (hh_size h)]> H).
Definition wr_size (p sz : Z) (H : hdrs) : option hdrs := h ← H !! p; Some (<[p := mkHH (hh_u h) sz]> H).
Definition wr_heap (p : Z) (heapp : addr) (H : hdrs) : option hdrs :=
  h ← H !! p; Some (<[p := mkHH (HHeap heapp) (hh_size h)]> H).

(** Taking the block [hp], the successor of [qp] in the free list, for [size]
    bytes: the whole block if the rest could not hold a header, else its first
    part, the rest taking its place in the list. *)
Definition heap_take (heapp : addr) (qp hp size : Z) (H : hdrs) : option hdrs :=
  h ← H !! hp;
  n ← hh_next h;
  H1 ← (if hh_size h <? u32 (size + HDR) then wr_next qp n H
        else
          let fp := u32 (hp + HDR + size) in
          let H1 := <[fp := mkHH (HNext n) (u32 (hh_size h - HDR - size))]> H in
          H2 ← wr_next qp fp H1;
          wr_size hp size H2);
  wr_heap hp heapp H1.

(** The search of chHeapAlloc: [Some (0, H)] when no block fits. *)
Fixpoint heap_search (fuel : nat) (heapp : addr) (qp size : Z) (H : hdrs) : option (Z * hdrs) :=
  match fuel with
  | O => None
  | S fuel =>
      q ← H !! qp;
      hp ← hh_next q;
      if hp =? 0 then Some (0, H)
      else
        h ← H !! hp;
        if size <=? hh_size h then
          H' ← heap_take heapp qp hp size H; Some (hp, H')
        else heap_search fuel heapp hp size H
  end.

(** [if (LIMIT(p) == n)] the block [p] takes over the block [n] that follows
    it. *)
Definition heap_absorb (p n : Z) (H : hdrs) : option hdrs :=
  h ← H !! p;
  if LIMIT p (hh_size h) =? n then
    nx ← H !! n; nn ← hh_next nx;
    H1 ← wr_size p (u32 (hh_size h + (hh_size nx + HDR))) H;
    wr_next p nn H1
  else Some H.

(** Insertion of the block [hp] after [qp], merging it with the block that
    follows and then with the block before. *)
Definition heap_link (qp hp : Z) (H : hdrs) : option hdrs :=
  q ← H !! qp; qn ← hh_next q;
  H1 ← wr_next hp qn H;
  H2 ← wr_next qp hp H1;
  h ← H2 !! hp; hn ← hh_next h;
  H3 ← heap_absorb hp hn H2;
  heap_absorb qp hp H3.

(** The loop of chHeapFree from [qp]; [inl] is a failed assertion. *)
Fixpoint heap_insert (fuel : nat) (first qp hp : Z) (H : hdrs) : option (string + hdrs) :=
  match fuel with
  | O => None
  | S fuel =>
      q ← H !! qp; qn ← hh_next q;
      if (hp <? qp) || (LIMIT qp (hh_size q) <=? hp) then
        if ((qp =? first) || (qp <? hp)) && ((qn =? 0) || (hp <? qn)) then
          H' ← heap_link qp hp H; Some (inr H')
        else heap_insert fuel first qn hp H
      else Some (inl "chHeapFree"%string)
  end.

(** The walk of chHeapStatus. *)
Fixpoint heap_count (fuel : nat) (qp n sz : Z) (H : hdrs) : option (Z * Z) :=
  match fuel with
  | O => None
  | S fuel =>
      q ← H !! qp; qn ← hh_next q;
      if qn =? 0 then Some (n, sz)
      else h ← H !! qn; heap_count fuel qn (u32 (n + 1)) (u32 (sz + hh_size h)) H
  end.

(** ** Heap operations *)

Definition default_heap : addr := 1%positive.
Definition heap_of (heapp : addr) : M memory_heap := deref (λ s, mem_heap (k_mem s) !! heapp).
Definition heap_arg (heapp : option addr) : addr := match heapp with Some h => h | None => default_heap end.

Definition H_LOCK (heapp : addr) : M unit := h ← heap_of heapp; chMtxLock (h_mtx h).
Definition H_UNLOCK (heapp : addr) : M unit := h ← heap_of heapp; chMtxUnlock (h_mtx h).

(** A computation on the heap headers; the number of headers bounds the walks
    over the free list. *)
Definition on_hdrs {A} (f : nat → hdrs → option (A * hdrs)) : M A :=
  m ← gets k_mem;
  match f (S (size (mem_hdr m))) (mem_hdr m) with
  | Some (a, H) => upd_mem (set_hdr H) ;; mret a
  | None => fault
  end.

Definition new_heap (heapp : addr) (hp : memory_heap) (first : heap_header) : M unit :=
  upd_mem (λ m, set_heap (<[heapp := hp]> (mem_heap m)) (set_hdr (<[h_free hp := first]> (mem_hdr m)) m)) ;;
  chMtxObjectInit (h_mtx hp).

(** [_heap_init]: the address of the header in [default_heap] and its mutex are
    arguments. *)
Definition heap_init (free : Z) (mtx : addr) : M unit :=
  new_heap default_heap (mkHeap PCoreAlloc free mtx) (mkHH (HNext 0) 0).

Definition chHeapObjectInit (heapp : addr) (free : Z) (mtx : addr) (buf size : Z) : M unit :=
  chDbgCheck (MEM_IS_ALIGNED buf && MEM_IS_ALIGNED size) "chHeapObjectInit" ;;
  new_heap heapp (mkHeap PNull free mtx) (mkHH (HNext buf) 0) ;;
  upd_mem (λ m, set_hdr (<[buf := mkHH (HNext 0) (u32 (size - HDR))]> (mem_hdr m)) m).

Section Provider.
(** The allocation functions the application passes to heaps and pools. *)
Variable user_provider : positive → Z → M Z.

Definition call_provider (p : provider) (size : Z) : M Z :=
  match p with
  | PNull => fault
  | PCoreAlloc => chCoreAlloc size
  | PCoreAllocI => chCoreAllocI size
  | PUser f => user_provider f size
  end.

Definition chHeapAlloc (heapp : option addr) (size : Z) : M Z :=
  let heapp := heap_arg heapp in
  let size := MEM_ALIGN_NEXT size in
  h ← heap_of heapp;
  H_LOCK heapp ;;
  hp ← on_hdrs (λ fuel H, heap_search fuel heapp (h_free h) size H);
  H_UNLOCK heapp ;;
  if negb (hp =? 0) then mret (u32 (hp + HDR))
  else
    h ← heap_of heapp;
    match h_provider h with
    | PNull => mret 0
    | prov =>
        hp ← call_provider prov (u32 (size + HDR));
        if hp =? 0 then mret 0
        else
          upd_mem (λ m, set_hdr (<[hp := mkHH (HHeap heapp) size]> (mem_hdr m)) m) ;;
          mret (u32 (hp + HDR))
    end.

(** ** Memory pools *)

Definition pool_of (mp : addr) : M memory_pool := deref (λ s, mem_pool (k_mem s) !! mp).
Definition set_mp_next (mp : addr) (n : Z) : M unit :=
  p ← pool_of mp;
  upd_mem (λ m, set_pool (<[mp := mkPool n (mp_object_size p) (mp_provider p)]> (mem_pool m)) m).

Definition chPoolObjectInit (mp : addr) (size : Z) (prov : provider) : M unit :=
  chDbgCheck (4 <=? size) "chPoolObjectInit" ;;
  upd_mem (λ m, set_pool (<[mp := mkPool 0 size prov]> (mem_pool m)) m).

Definition chPoolAllocI (mp : addr) : M Z :=
  chDbgCheckClassI ;;
  p ← pool_of mp;
  let objp := mp_next p in
  if negb (objp =? 0) then
    n ← deref (λ s, mem_ph (k_mem s) !! objp);
    set_mp_next mp n ;;
    mret objp
  else
    match mp_provider p with
    | PNull => mret objp
    | prov => call_provider prov (mp_object_size p)
    end.

Definition chPoolAlloc (mp : addr) : M Z := chSysLock ;; p ← chPoolAllocI mp; chSysUnlock ;; mret p.

Definition chPoolFreeI (mp : addr) (objp : Z) : M unit :=
  chDbgCheckClassI ;;
  chDbgCheck (negb (objp =? 0)) "chPoolFreeI" ;;
  p ← pool_of mp;
  upd_mem (λ m, set_ph (<[objp := mp_next p]> (mem_ph m)) m) ;;
  set_mp_next mp objp.

Definition chPoolFree (mp : addr) (objp : Z) : M unit := chSysLock ;; chPoolFreeI mp objp ;; chSysUnlock.
Definition chPoolAdd (mp : addr) (objp : Z) : M unit := chPoolFree mp objp.
Definition chPoolAddI (mp : addr) (objp : Z) : M unit := chDbgCheckClassI ;; chPoolFreeI mp objp.

Fixpoint pool_load (n : nat) (mp : addr) (p : Z) : M unit :=
  match n with
  | O => mret ()
  | S n =>
      chPoolAdd mp p ;;
      q ← pool_of mp;
      pool_load n mp (u32 (p + mp_object_size q))
  end.

Definition chPoolLoadArray (mp : addr) (p n : Z) : M unit :=
  chDbgCheck (negb (n =? 0)) "chPoolLoadArray" ;; pool_load (Z.to_nat n) mp p.

End Provider.

Definition chHeapFree (p : Z) : M unit :=
  chDbgCheck (negb (p =? 0)) "chHeapFree" ;;
  let hp := u32 (p - HDR) in
  hd ← deref (λ s, mem_hdr (k_mem s) !! hp);
  match hh_u hd with
  | HNext _ => fault
  | HHeap heapp =>
      h ← heap_of heapp;
      H_LOCK heapp ;;
      r ← on_hdrs (λ fuel H,
            r ← heap_insert fuel (h_free h) (h_free h) hp H;
            match r with inl e => Some (inl e, H) | inr H' => Some (inr tt, H') end);
      match r with
      | inl e => chSysHalt e
      | inr _ => H_UNLOCK heapp
      end
  end.

(** The pair of the number of free blocks and their total size. *)
Definition chHeapStatus (heapp : option addr) : M (Z * Z) :=
  let heapp := heap_arg heapp in
  h ← heap_of heapp;
  H_LOCK heapp ;;
  r ← on_hdrs (λ fuel H, r ← heap_count fuel (h_free h) 0 0 H; Some (r, H));
  H_UNLOCK heapp ;;
  mret r.

(** ** Free lists as lists of blocks *)

(** A block is the address of its header and the size it can hold. *)
Abbreviation block := (Z * Z)%type (only parsing).
Definition bend (b : block) : Z := b.1 + HDR + b.2.
Definition covers (b : block) (x : Z) : Prop := b.1 ≤ x < bend b.
Definition covered (l : list block) (x : Z) : Prop := Exists (λ b, covers b x) l.
Definition disjoint_blocks (a b : block) : Prop := bend a ≤ b.1 ∨ bend b ≤ a.1.

(** First fit. *)
Fixpoint alloc_list (n : Z) (l : list block) : option (block * list block) :=
  match l with
  | [] => None
  | (p, sz) :: l' =>
      if n <=? sz then
        if sz <? n + HDR then Some ((p, sz), l')
        else Some ((p, n), (p + HDR + n, sz - HDR - n) :: l')
      else '(b, r) ← alloc_list n l'; Some (b, (p, sz) :: r)
  end.

(** Joins [a] with the first block of [l] when it ends where that begins. *)
Definition glue (a : block) (l : list block) : list block :=
  match l with
  | [] => [a]
  | b :: l' => if bend a =? b.1 then (a.1, a.2 + (b.2 + HDR)) :: l' else a :: b :: l'
  end.

Fixpoint free_list (b : block) (l : list block) : list block :=
  match l with
  | [] => [b]
  | q :: l' => if b.1 <? q.1 then glue b l else glue q (free_list b l')
  end.

(** A well-formed free list: aligned blocks inside the address space, sorted,
    with a gap between any two (adjacent blocks are joined). *)
Definition block_ok (b : block) : Prop :=
  0 < b.1 ∧ 0 ≤ b.2 ∧ bend b < 2 ^ 32 ∧ (8 | b.1) ∧ (8 | b.2).
Definition gap (a b : block) : Prop := bend a < b.1.
Definition blocks_ok (l : list block) : Prop := Forall block_ok l ∧ StronglySorted gap l.

Lemma blocks_ok_cons b l : blocks_ok (b :: l) ↔ block_ok b ∧ Forall (gap b) l ∧ blocks_ok l.
Proof.
  unfold blocks_ok. rewrite Forall_cons. split.
  - intros [[? ?] Hs]. inversion Hs; naive_solver.
  - intros (? & ? & ? & ?). split; [done|]. by constructor.
Qed.

Lemma covered_cons b l x : covered (b :: l) x ↔ covers b x ∨ covered l x.
Proof. apply Exists_cons. Qed.
Lemma covered_nil x : covered [] x ↔ False.
Proof. apply Exists_nil. Qed.

Lemma covered_gap b l x : Forall (gap b) l → covered l x → bend b < x.
Proof.
  intros Hg. unfold covered. rewrite Exists_exists. intros (c & Hc & Hx).
  rewrite Forall_forall in Hg. specialize (Hg c Hc). unfold gap, covers in *. lia.
Qed.

Lemma glue_covered a l x : block_ok a → Forall block_ok l → covered (glue a l) x ↔ covers a x ∨ covered l x.
Proof.
  intros Ha Hl. destruct l as [|b l]; simpl; [by rewrite covered_cons|].
  apply Forall_cons in Hl as [Hb _]. destruct (Z.eqb_spec (bend a) b.1) as [E|]; rewrite !covered_cons; [|tauto].
  unfold covers, block_ok, bend, HDR in *. simpl.
  split; [intros [|]; [|tauto]|intros [|[|]]; [| |tauto]]; [|left; lia|left; lia].
  destruct (decide (x < b.1)); [left; lia|right; left; lia].
Qed.

Lemma glue_ok a l : block_ok a → blocks_ok l → Forall (λ b, bend a ≤ b.1) l → blocks_ok (glue a l).
Proof.
  intros Ha Hl Hf. destruct l as [|b l]; simpl; [apply blocks_ok_cons; split_and!; [done|constructor|done]|].
  apply blocks_ok_cons in Hl as (Hb & Hg & Hl). apply Forall_cons in Hf as [Hab Hf].
  destruct (Z.eqb_spec (bend a) b.1) as [E|Hne]; rewrite !blocks_ok_cons.
  - split_and!; [|eapply Forall_impl; [exact Hg|]; intros c|done].
    + unfold block_ok, bend, HDR in *. simpl in *. destruct Ha as (? & ? & ? & ? & ?), Hb as (? & ? & ? & ? & ?).
      split_and!; try done; try lia. apply Z.divide_add_r; [done|]. apply Z.divide_add_r; [done|]. by exists 1.
    + unfold gap, bend, HDR in *. simpl. lia.
  - split_and!; try done. apply Forall_cons. split; [unfold gap; lia|].
    eapply Forall_impl; [exact Hg|]. intros c. unfold gap, block_ok, bend, HDR in *. lia.
Qed.

Lemma free_list_ok b l : block_ok b → blocks_ok l → Forall (disjoint_blocks b) l →
  blocks_ok (free_list b l) ∧ ∀ x, covered (free_list b l) x ↔ covers b x ∨ covered l x.
Proof.
  intros Hb. induction l as [|q l IH]; intros Hl Hd; cbn [free_list].
  { split; [apply blocks_ok_cons; split_and!; [done|constructor|done]|intros; apply covered_cons]. }
  apply Forall_cons in Hd as [Hq Hd]. pose proof Hl as (Hbq & Hg & Hl')%blocks_ok_cons.
  assert (∀ c, c ∈ l → bend q < c.1) as Hgl by (intros c Hc; rewrite Forall_forall in Hg; by apply Hg).
  unfold block_ok, disjoint_blocks in Hb, Hbq, Hq. destruct (Z.ltb_spec b.1 q.1).
  - assert (bend b ≤ q.1) by (unfold bend, HDR in *; lia).
    split; [apply glue_ok; try done|intros; apply glue_covered; [done|apply Hl]].
    apply Forall_cons. split; [done|]. apply Forall_forall. intros c Hc. specialize (Hgl c Hc). unfold bend, HDR in *. lia.
  - destruct (IH Hl' Hd) as [IH1 IH2].
    assert (bend q ≤ b.1) as Hqb by (unfold bend, HDR in *; lia).
    split; [|intros x; rewrite glue_covered, IH2, covered_cons; [tauto|done|apply IH1]].
    apply glue_ok; [done|done|]. apply Forall_forall. intros c Hc.
    assert (Exists (λ d, covers d c.1) (b :: l)) as He.
    { assert (covered (free_list b l) c.1) as Hx.
      { apply Exists_exists. exists c. split; [done|]. assert (block_ok c) as Hco by (eapply Forall_forall; [apply IH1|done]).
        unfold block_ok, covers, bend, HDR in *. lia. }
      apply IH2 in Hx. by apply Exists_cons. }
    apply Exists_cons in He as [He|He]; [unfold covers, bend, HDR in *; lia|].
    apply Z.lt_le_incl. apply (covered_gap q l); [done|exact He].
Qed.

Lemma glue_gap a l : Forall (gap a) l → glue a l = a :: l.
Proof.
  destruct l as [|b l]; [done|]. intros [H _]%Forall_cons. simpl. unfold gap in H.
  destruct (Z.eqb_spec (bend a) b.1); [lia|done].
Qed.

Lemma block_ok_fst b : block_ok b → b.1 < bend b.
Proof. unfold block_ok, bend, HDR. lia. Qed.

Lemma free_list_front b l : block_ok b → Forall (gap b) l → free_list b l = b :: l.
Proof.
  intros Hb Hg. destruct l as [|q l]; [done|]. rewrite <-(glue_gap b (q :: l)) by done. cbn [free_list].
  apply Forall_cons in Hg as [Hq _]. apply block_ok_fst in Hb. unfold gap in Hq.
  destruct (Z.ltb_spec b.1 q.1); [done|lia].
Qed.

(** What first fit takes is a well-formed block of at least the requested size
    that overlaps no free block, and releasing it restores the list. *)
Lemma alloc_list_ok n l b l' :
  blocks_ok l → 0 ≤ n → (8 | n) → alloc_list n l = Some (b, l') →
  block_ok b ∧ n ≤ b.2 ∧ blocks_ok l' ∧ Forall (disjoint_blocks b) l' ∧ free_list b l' = l ∧
  (∀ c, Forall (gap c) l → gap c b ∧ Forall (gap c) l').
Proof.
  intros Hl Hn Hn8. revert b l' Hl. induction l as [|[p sz] l IH]; intros b l' Hl; [done|]. simpl.
  apply blocks_ok_cons in Hl as (Hb & Hg & Hl). destruct (Z.leb_spec n sz) as [Hle|Hgt].
  - destruct (Z.ltb_spec sz (n + HDR)) as [Hs|Hs]; intros [= <- <-].
    + split_and!; try done.
      * eapply Forall_impl; [exact Hg|]. intros c Hc. left. unfold gap in Hc. lia.
      * by apply free_list_front.
      * intros c [? ?]%Forall_cons. done.
    + set (r := (p + HDR + n, sz - HDR - n)). destruct Hb as (B1 & B2 & B3 & B4 & B5). unfold bend in *. simpl in *.
      assert (block_ok (p, n)) as Hpn by (unfold block_ok, bend, HDR in *; simpl; split_and!; done || lia).
      assert (8 | HDR) as H8 by by exists 1.
      assert (block_ok r) as Hr.
      { unfold block_ok, bend, r, HDR in *. simpl. split_and!; try lia.
        - apply Z.divide_add_r; [|done]. by apply Z.divide_add_r.
        - apply Z.divide_sub_r; [|done]. by apply Z.divide_sub_r. }
      assert (bend r = p + HDR + sz) as Er by (unfold r, bend, HDR; simpl; lia).
      assert (Forall (gap r) l) as Hgr by (eapply Forall_impl; [exact Hg|]; intros c; unfold gap; rewrite Er; done).
      split_and!; try done.
      * apply blocks_ok_cons. done.
      * apply Forall_cons. split; [left; unfold r, bend; simpl; lia|].
        eapply Forall_impl; [exact Hgr|]. intros c Hc. left. unfold gap in Hc. rewrite Er in Hc.
        unfold bend, HDR in *. simpl. lia.
      * cbn [free_list]. simpl. destruct (Z.ltb_spec p (p + HDR + n)); [|unfold HDR in *; lia].
        unfold bend. simpl. rewrite Z.eqb_refl. do 2 f_equal. lia.
      * intros c [Hc ?]%Forall_cons. unfold gap in *. simpl in *. split; [done|]. constructor; [|done].
        unfold r, HDR in *. simpl. lia.
  - destruct (alloc_list n l) as [[b0 r0]|] eqn:E; [|done]. intros [= <- <-].
    destruct (IH b0 r0 Hl eq_refl) as (I1 & I2 & I3 & I4 & I5 & I6). destruct (I6 _ Hg) as [G1 G2].
    assert (bend (p, sz) < b0.1) as Hlt by done. pose proof (block_ok_fst _ Hb). split_and!; try done.
    + by apply blocks_ok_cons.
    + constructor; [right; lia|done].
    + cbn [free_list]. destruct (Z.ltb_spec b0.1 (p, sz).1); [lia|]. rewrite I5. by apply glue_gap.
    + intros c [Hc ?]%Forall_cons. destruct (I6 c) as [? ?]; [done|]. split; [done|]. by constructor.
Qed.

Lemma alloc_list_none n l : alloc_list n l = None → Forall (λ b, b.2 < n) l.
Proof.
  induction l as [|[p sz] l IH]; simpl; [constructor|]. destruct (Z.leb_spec n sz); [by case_match|].
  destruct (alloc_list n l) as [[]|]; [done|]. intros _. constructor; [done|]. by apply IH.
Qed.

(** ** Free lists in memory *)

(** [l] is linked from [n] by the headers of its blocks. *)
Fixpoint hchain (H : hdrs) (n : Z) (l : list block) : Prop :=
  match l with
  | [] => n = 0
  | b :: l' => n = b.1 ∧ ∃ n', H !! b.1 = Some (mkHH (HNext n') b.2) ∧ hchain H n' l'
  end.

Lemma hchain_frame H H' n l :
  Forall block_ok l → (∀ x, covered l x → H' !! x = H !! x) → hchain H n l → hchain H' n l.
Proof.
  revert n. induction l as [|b l IH]; intros n Hok Hf; simpl; [done|]. apply Forall_cons in Hok as [Hb Hok].
  intros (-> & n' & E & Hc). split; [done|]. exists n'. split.
  - rewrite Hf; [done|]. apply covered_cons. left. apply block_ok_fst in Hb. unfold covers. lia.
  - apply IH; [done| |done]. intros x Hx. apply Hf, covered_cons. by right.
Qed.

Lemma not_covered_gap b l x : Forall (gap b) l → x ≤ bend b → ¬ covered l x.
Proof. intros Hg Hx Hc. apply (covered_gap b l) in Hc; [lia|done]. Qed.

Lemma heap_take_ok heapp qp qs hp sz n size l H :
  H !! qp = Some (mkHH (HNext hp) qs) → H !! hp = Some (mkHH (HNext n) sz) → hchain H n l →
  block_ok (hp, sz) → Forall (gap (hp, sz)) l → Forall block_ok l → ¬ covered ((hp, sz) :: l) qp → 0 ≤ size ≤ sz →
  ∃ H' n' b l', alloc_list size ((hp, sz) :: l) = Some (b, l') ∧ heap_take heapp qp hp size H = Some H' ∧ b.1 = hp ∧
    H' !! qp = Some (mkHH (HNext n') qs) ∧ hchain H' n' l' ∧ H' !! hp = Some (mkHH (HHeap heapp) b.2) ∧
    ∀ x, x ≠ qp → ¬ covers (hp, sz) x → H' !! x = H !! x.
Proof.
  intros Eq Eh Hc Hb Hg Hok Hq Hs. rewrite covered_cons in Hq. pose proof (block_ok_fst _ Hb) as Hlt.
  assert (qp ≠ hp) as Hne by (intros ->; apply Hq; left; unfold covers; simpl in *; lia).
  assert (∀ x, covered l x → x ≠ hp ∧ x ≠ qp ∧ bend (hp, sz) < x) as Hx.
  { intros x Hx. pose proof (covered_gap _ _ _ Hg Hx). split_and!; [simpl in *; lia| |done]. intros ->. tauto. }
  simpl. destruct (Z.leb_spec size sz) as [_|]; [|lia]. unfold heap_take. rewrite Eh. simpl.
  destruct Hb as (B1 & B2 & B3 & B4 & B5). unfold bend, HDR in B3. simpl in *.
  rewrite (u32_small (size + HDR)) by (unfold is_u32, HDR; lia).
  destruct (Z.ltb_spec sz (size + HDR)) as [Hlt'|Hge]; unfold wr_next, wr_size, wr_heap.
  - rewrite Eq. simpl. rewrite lookup_insert_ne, Eh by done. simpl.
    eexists _, n, (hp, sz), l. split_and!; try done.
    + rewrite lookup_insert_ne, lookup_insert_eq by done. done.
    + apply (hchain_frame H); [done| |done]. intros x Hcx. destruct (Hx x Hcx) as (? & ? & _).
      by rewrite !lookup_insert_ne.
    + by rewrite lookup_insert_eq.
    + intros x Hxq Hcv. assert (x ≠ hp) by (intros ->; apply Hcv; unfold covers, bend, HDR; simpl; lia).
      by rewrite !lookup_insert_ne.
  - rewrite (u32_small (hp + HDR + size)), (u32_small (sz - HDR - size)) by (unfold is_u32, HDR in *; lia).
    set (fp := hp + HDR + size).
    assert (covers (hp, sz) fp) as Hfp by (unfold covers, bend, fp, HDR in *; simpl; lia).
    assert (qp ≠ fp) as Hqf by (intros ->; tauto). assert (hp ≠ fp) as Hhf by (unfold fp, HDR; lia).
    rewrite lookup_insert_ne, Eq by done. simpl. rewrite !lookup_insert_ne, Eh by done. simpl.
    rewrite lookup_insert_eq. simpl.
    eexists _, fp, (hp, size), ((fp, sz - HDR - size) :: l). split_and!; try done.
    + rewrite !lookup_insert_ne, lookup_insert_eq by done. done.
    + simpl. split; [done|]. exists n. rewrite !lookup_insert_ne, lookup_insert_eq by done. split; [done|].
      apply (hchain_frame H); [done| |done]. intros x Hcx. destruct (Hx x Hcx) as (? & ? & ?).
      assert (x ≠ fp) by (unfold fp, bend, HDR in *; simpl in *; lia). by rewrite !lookup_insert_ne.
    + by rewrite lookup_insert_eq.
    + intros x Hxq Hcv. assert (x ≠ hp) by (intros ->; apply Hcv; unfold covers, bend, HDR; simpl; lia).
      assert (x ≠ fp) by (intros ->; done). by rewrite !lookup_insert_ne.
Qed.

Lemma heap_search_ok heapp size l : ∀ fuel qp qs n H,
  H !! qp = Some (mkHH (HNext n) qs) → hchain H n l → blocks_ok l → ¬ covered l qp → 0 ≤ size →
  (length l < fuel)%nat →
  match alloc_list size l with
  | None => heap_search fuel heapp qp size H = Some (0, H)
  | Some (b, l') => ∃ H' n', heap_search fuel heapp qp size H = Some (b.1, H') ∧
      H' !! qp = Some (mkHH (HNext n') qs) ∧ hchain H' n' l' ∧ H' !! b.1 = Some (mkHH (HHeap heapp) b.2) ∧
      ∀ x, x ≠ qp → ¬ covered l x → H' !! x = H !! x
  end.
Proof.
  induction l as [|[p sz] l IH]; intros [|fuel] qp qs n H Eq Hc Hok Hq Hs Hf; try (simpl in *; lia).
  - simpl in *. rewrite Eq. simpl. subst n. done.
  - pose proof Hok as (Hb & Hg & Hl)%blocks_ok_cons. cbn [hchain] in Hc. destruct Hc as (-> & n' & Eh & Hc).
    cbn [heap_search]. rewrite Eq. simpl in Eh |- *. pose proof Hb as (B1 & _). simpl in B1.
    destruct (Z.eqb_spec p 0); [lia|]. rewrite Eh. simpl.
    destruct (Z.leb_spec size sz) as [Hle|Hgt].
    + destruct (heap_take_ok heapp qp qs p sz n' size l H Eq Eh Hc Hb Hg (proj1 Hl) Hq (conj Hs Hle))
        as (H' & n2 & b & l' & E1 & E2 & E3 & E4 & E5 & E6 & E7).
      rewrite E2. simpl in E1. destruct (Z.leb_spec size sz); [|lia]. rewrite E1. simpl.
      exists H', n2. rewrite E3. split_and!; try done. intros x Hx Hcv. apply E7; [done|].
      intros Hv. apply Hcv, covered_cons. by left.
    + rewrite covered_cons in Hq.
      specialize (IH fuel p sz n' H Eh Hc Hl (not_covered_gap _ _ _ Hg (Z.lt_le_incl _ _ (block_ok_fst _ Hb))) Hs
        ltac:(simpl in Hf; lia)).
      destruct (alloc_list size l) as [[b l']|] eqn:Ea; simpl; [|exact IH].
      destruct IH as (H' & n2 & -> & E1 & E2 & E3 & E4).
      assert (qp ≠ p) by (intros ->; apply Hq; left; pose proof (block_ok_fst _ Hb); unfold covers; simpl in *; lia).
      exists H', p. split_and!; try done.
      * rewrite (E4 qp) by tauto. done.
      * by exists n2.
      * intros x Hxq Hcv. rewrite covered_cons in Hcv. apply E4; [|tauto]. intros ->. apply Hcv. left.
        pose proof (block_ok_fst _ Hb). unfold covers. simpl in *. lia.
Qed.

Lemma LIMIT_bend b : 0 ≤ b.1 → 0 ≤ b.2 → bend b < 2 ^ 32 → LIMIT b.1 b.2 = bend b.
Proof. intros. unfold LIMIT, bend, HDR in *. apply u32_small. unfold is_u32. lia. Qed.

Lemma heap_absorb_ok a n l H :
  H !! a.1 = Some (mkHH (HNext n) a.2) → hchain H n l → Forall block_ok l → ¬ covered l a.1 →
  0 ≤ a.1 → 0 ≤ a.2 → bend a < 2 ^ 32 →
  ∃ H', heap_absorb a.1 n H = Some H' ∧ hchain H' a.1 (glue a l) ∧ ∀ x, x ≠ a.1 → H' !! x = H !! x.
Proof.
  intros Ea Hc Hl Hn Ha1 Ha2 Ha3. unfold heap_absorb. rewrite Ea. simpl. rewrite LIMIT_bend by done.
  destruct l as [|[c cs] l]; simpl in Hc.
  - subst n. destruct (Z.eqb_spec (bend a) 0); [unfold bend, HDR in *; lia|].
    exists H. split; [done|]. split; [|done]. split; [done|]. by exists 0.
  - destruct Hc as (-> & n' & Ec & Hc). simpl. apply Forall_cons in Hl as [Hb Hl]. rewrite covered_cons in Hn.
    destruct (Z.eqb_spec (bend a) c) as [E|E].
    + rewrite Ec. simpl. unfold wr_size, wr_next. rewrite Ea. simpl. rewrite lookup_insert_eq. simpl.
      eexists. split; [done|]. split.
      * split; [done|]. simpl. exists n'. rewrite lookup_insert_eq. split.
        -- rewrite u32_small; [done|]. unfold is_u32, block_ok, bend, HDR in *. simpl in *. lia.
        -- apply (hchain_frame H); [done| |done]. intros x Hx. rewrite !lookup_insert_ne; [done|intros <-; tauto..].
      * intros x Hx. by rewrite !lookup_insert_ne.
    + exists H. split_and!; try done. simpl. split; [done|]. exists c. split; [done|]. split; [done|]. by exists n'.
Qed.

Lemma glue_head b l : ∃ sz l', glue b l = (b.1, sz) :: l'.
Proof. destruct l as [|c l]; simpl; [|case_match]; destruct b; eauto. Qed.

(** Linking the block [b] after the node [q] (a block, or the heap's own
    header as a block of size 0). *)
Lemma heap_link_ok q b u l H :
  hchain H q.1 (q :: l) → H !! b.1 = Some (mkHH u b.2) → block_ok b → blocks_ok l →
  0 ≤ q.1 → 0 ≤ q.2 → bend q < 2 ^ 32 → disjoint_blocks b q → ¬ covered l q.1 → ¬ covered l b.1 →
  Forall (λ c, bend b ≤ c.1) l →
  ∃ H', heap_link q.1 b.1 H = Some H' ∧ hchain H' q.1 (glue q (glue b l)) ∧
    ∀ x, x ≠ q.1 → x ≠ b.1 → H' !! x = H !! x.
Proof.
  intros (_ & n & Eq & Hc) Eb Hb Hl Hq1 Hq2 Hq3 Hd Hcq Hcb Hf. pose proof (block_ok_fst _ Hb) as Hlt.
  assert (q.1 ≠ b.1) as Hne by (unfold disjoint_blocks, bend, HDR, block_ok in *; lia).
  unfold heap_link. unfold wr_next at 1 2. rewrite Eq. simpl. rewrite Eb. simpl.
  rewrite lookup_insert_ne, Eq by done. simpl.
  set (H2 := <[q.1:=_]> _).
  assert (H2 !! b.1 = Some (mkHH (HNext n) b.2)) as E2b
    by (unfold H2; rewrite lookup_insert_ne, lookup_insert_eq by done; done).
  assert (hchain H2 n l) as Hc2.
  { apply (hchain_frame H); [apply Hl| |done]. intros x Hx. unfold H2.
    rewrite !lookup_insert_ne; [done|intros <-; done..]. }
  rewrite E2b. simpl. destruct Hb as (B1 & B2 & B3 & B45).
  destruct (heap_absorb_ok b n l H2 E2b Hc2 (proj1 Hl) Hcb (Z.lt_le_incl _ _ B1) B2 B3) as (H3 & -> & Hc3 & Hf3). simpl.
  assert (H3 !! q.1 = Some (mkHH (HNext b.1) q.2)) as E3q.
  { rewrite Hf3 by done. unfold H2. by rewrite lookup_insert_eq. }
  assert (blocks_ok (glue b l)) as Hg by (apply glue_ok; done).
  assert (¬ covered (glue b l) q.1) as Hcg.
  { rewrite glue_covered; [|done|apply Hl]. intros [Hx|Hx]; [|done]. unfold disjoint_blocks, covers, bend, HDR in *. lia. }
  destruct (heap_absorb_ok q b.1 (glue b l) H3 E3q Hc3 (proj1 Hg) Hcg Hq1 Hq2 Hq3) as (H4 & -> & Hc4 & Hf4).
  exists H4. split_and!; try done. intros x Hx1 Hx2. rewrite Hf4, Hf3 by done. unfold H2.
  by rewrite !lookup_insert_ne.
Qed.

Lemma disjoint_not_covered b l x : Forall (disjoint_blocks b) l → covers b x → ¬ covered l x.
Proof.
  unfold covered. rewrite Exists_exists, Forall_forall. intros Hd Hx (c & Hc & Hcx). specialize (Hd c Hc).
  unfold disjoint_blocks, covers in *. lia.
Qed.

Lemma disjoint_before b c l :
  block_ok b → blocks_ok (c :: l) → Forall (disjoint_blocks b) (c :: l) → b.1 < c.1 → Forall (λ d, bend b ≤ d.1) (c :: l).
Proof.
  intros Hb (Hc & Hg & _)%blocks_ok_cons [Hd _]%Forall_cons Hlt.
  assert (bend b ≤ c.1) by (unfold disjoint_blocks, block_ok, bend, HDR in *; lia). constructor; [done|].
  eapply Forall_impl; [exact Hg|]. intros d Hgd. pose proof (block_ok_fst _ Hc). unfold gap in Hgd. lia.
Qed.

Lemma heap_insert_ok first b u l : ∀ fuel q H,
  hchain H q.1 (q :: l) → H !! b.1 = Some (mkHH u b.2) → block_ok b → blocks_ok l →
  Forall (disjoint_blocks b) (q :: l) → 0 ≤ q.1 → 0 ≤ q.2 → bend q < 2 ^ 32 → ¬ covered l q.1 →
  q.1 = first ∨ q.1 < b.1 → Forall (λ c, bend q ≠ c.1) l → (length l < fuel)%nat →
  ∃ H', heap_insert fuel first q.1 b.1 H = Some (inr H') ∧ hchain H' q.1 (glue q (free_list b l)) ∧
    ∀ x, ¬ covered (q :: l) x → x ≠ b.1 → H' !! x = H !! x.
Proof.
  induction l as [|c l IH]; intros [|fuel] q H Hc Eb Hb Hl Hd Hq1 Hq2 Hq3 Hcq Hfst Hadj Hf; try (simpl in *; lia);
    pose proof Hc as (_ & n & Eq & Hn); pose proof Hd as [Hbq Hdl]%Forall_cons; pose proof (block_ok_fst _ Hb) as Hlt;
    cbn [heap_insert]; rewrite Eq; simpl; rewrite LIMIT_bend by done;
    (assert ((b.1 <? q.1) || (bend q <=? b.1) = true) as ->
       by (apply orb_true_iff; rewrite Z.ltb_lt, Z.leb_le; unfold disjoint_blocks in Hbq; lia));
    (assert ((q.1 =? first) || (q.1 <? b.1) = true) as -> by (apply orb_true_iff; rewrite Z.eqb_eq, Z.ltb_lt; tauto));
    (assert (¬ covered _ b.1) as Hcb by (apply (disjoint_not_covered b _ _ Hdl); unfold covers; lia));
    (assert (∀ L x, ¬ covered (q :: L) x → x ≠ q.1) as Hxq
       by (intros L x Hx ->; apply Hx, covered_cons; left; unfold covers, bend, HDR in *; lia)).
  - simpl in Hn. subst n. simpl.
    destruct (heap_link_ok q b u [] H Hc Eb Hb Hl Hq1 Hq2 Hq3 Hbq Hcq Hcb) as (H' & -> & Hc' & Hf'); [constructor|].
    exists H'. split_and!; try done. intros x Hx Hxb. apply Hf'; [by eapply Hxq|done].
  - cbn [hchain] in Hn. pose proof Hn as [-> _]. pose proof Hl as (Hco & Hg & Hl')%blocks_ok_cons.
    pose proof Hdl as [Hbc Hdl']%Forall_cons. pose proof (block_ok_fst _ Hco) as Hclt.
    assert (c.1 =? 0 = false) as -> by (apply Z.eqb_neq; unfold block_ok in Hco; lia). simpl.
    destruct (Z.ltb_spec b.1 c.1) as [Hbc'|Hge].
    + destruct (heap_link_ok q b u (c :: l) H Hc Eb Hb Hl Hq1 Hq2 Hq3 Hbq Hcq Hcb) as (H' & -> & Hc' & Hf');
        [by apply disjoint_before|].
      exists H'. split_and!; try done. intros x Hx Hxb. apply Hf'; [by eapply Hxq|done].
    + destruct (IH fuel c H) as (H' & -> & Hc' & Hf'); try done.
      * unfold block_ok in Hco. lia.
      * apply Hco.
      * apply Hco.
      * by apply (not_covered_gap c); [|lia].
      * right. unfold disjoint_blocks in Hbc. lia.
      * eapply Forall_impl; [exact Hg|]. intros d. unfold gap. lia.
      * simpl in Hf. lia.
      * exists H'. split; [done|]. rewrite covered_cons in Hcq. split.
        -- destruct (glue_head c (free_list b l)) as (sz & l' & Eg). rewrite Eg in Hc' |- *. simpl.
           apply Forall_cons in Hadj as [Hadj _]. destruct (Z.eqb_spec (bend q) c.1); [done|].
           split; [done|]. exists c.1. split; [|exact Hc']. rewrite Hf', Eq; [done|rewrite covered_cons; tauto|].
           unfold disjoint_blocks, bend, HDR in *. lia.
        -- intros x Hx Hxb. rewrite (covered_cons q) in Hx. apply Hf'; tauto.
Qed.

(** ** The heap's mutex *)

Definition same_kernel (s s' : kst) : Prop :=
  k_cur s' = k_cur s ∧ k_thd s' = k_thd s ∧ k_q s' = k_q s ∧ k_reg s' = k_reg s ∧
  k_vt s' = k_vt s ∧ k_vtlast s' = k_vtlast s ∧ k_now s' = k_now s ∧ k_alarm s' = k_alarm s ∧
  k_sem s' = k_sem s ∧ k_tref s' = k_tref s ∧ k_mbox s' = k_mbox s ∧ k_ioq s' = k_ioq s ∧
  k_evl s' = k_evl s ∧ k_evs s' = k_evs s.

Lemma mtx_wf_ext s s' : k_thd s' = k_thd s → k_mtx s' = k_mtx s → k_q s' = k_q s → mtx_wf s → mtx_wf s'.
Proof.
  intros E1 E2 E3 [Hsh Hpi]. assert (∀ q, qof s' q = qof s q) as Hq by (intros; unfold qof; by rewrite E3).
  apply (mtx_wf_static s); try done.
  - by apply thd_static_eq.
  - intros m w. rewrite Hq. apply (ms_held _ Hsh).
  - intros m. rewrite Hq. apply (ms_sorted _ Hsh).
  - intros m t w. rewrite Hq. apply Hpi.
Qed.

Lemma user_ext s s' : k_cur s' = k_cur s → k_thd s' = k_thd s → k_q s' = k_q s → k_isr s' = k_isr s →
  k_lock s' = k_lock s → user s → user s'.
Proof.
  intros E1 E2 E3 E4 E5 (Hw & Hok & Hu). split_and!; [by apply (wf_ext s)|by apply (sched_ok_ext s)|].
  unfold unlocked. by rewrite E4, E5.
Qed.

Lemma same_data_kernel s s' : same_data s s' → same_kernel s s' ∧ k_mtx s' = k_mtx s ∧ k_mem s' = k_mem s.
Proof. unfold same_data, same_kernel. tauto. Qed.

(** Locking a free mutex and unlocking it again with the memory changed in
    between: no switch, and only the memory and the mutex's link change. *)
Lemma with_mtx s mp mx :
  user s → mtx_wf s → k_mtx s !! mp = Some mx → m_owner mx = None →
  ∃ s1, chMtxLock mp s = Done () s1 ∧ k_mem s1 = k_mem s ∧
    ∀ m', ∃ s2, chMtxUnlock mp (set_k_mem m' s1) = Done () s2 ∧ k_mem s2 = m' ∧ user s2 ∧ mtx_wf s2 ∧
      same_kernel s s2 ∧ ∃ nx, k_mtx s2 = <[mp := mkMutex None nx]> (k_mtx s).
Proof.
  intros Hu Hm Em Ho. destruct (wf_cur _ (proj1 Hu)) as (cth & Ec & _).
  assert (qof s (QMtx mp) = []) as Hq.
  { destruct (qof s (QMtx mp)) as [|w l] eqn:E; [done|]. destruct (ms_held _ (proj1 Hm) mp w) as [x Hx]; [rewrite E; left|].
    unfold owner_of in Hx. rewrite Em in Hx. simpl in Hx. congruence. }
  destruct (lock_user s Hu) as (s0 & E0 & K0 & D0).
  pose proof D0 as (C0 & T0 & Q0 & _ & _ & _ & _ & _ & _ & M0 & _).
  destruct (chMtxLockS_take s0 mp mx cth K0 (mtx_wf_ext s s0 T0 M0 Q0 Hm)) as (Et & Kt & Mt);
    [by rewrite M0|done|by rewrite C0, T0|].
  destruct (unlock_user _ Kt) as (s1 & E1 & U1 & D1).
  exists s1. unfold chMtxLock. mgo. rewrite E0. mgo. rewrite Et. mgo. split; [done|].
  assert (k_mem s1 = k_mem s) as Emem by (destruct D0 as (_&_&_&_&_&_&_&_&_&_&_&_&_&_&_& <-); apply D1).
  split; [done|]. intros m'.
  assert (user (set_k_mem m' s1)) as U1' by by apply (user_ext s1).
  destruct (lock_user _ U1') as (s2 & E2 & K2 & D2).
  assert (mtx_wf s2) as Hm2.
  { apply (mtx_wf_ext (take_st mp (k_cur s0) cth s0)); [| | |done]; etrans; [apply D2|apply D1|apply D2|apply D1|apply D2|apply D1]. }
  set (cth1 := set_p_mtxlist (Some mp) cth).
  assert (k_thd s2 = <[k_cur s0 := cth1]> (k_thd s)) as T2 by (etrans; [apply D2|]; simpl; etrans; [apply D1|]; simpl; by rewrite T0).
  assert (k_mtx s2 = <[mp := mkMutex (Some (k_cur s0)) (p_mtxlist cth)]> (k_mtx s)) as M2
    by (etrans; [apply D2|]; simpl; etrans; [apply D1|]; simpl; by rewrite M0).
  assert (k_cur s2 = k_cur s0) as C2 by (etrans; [apply D2|apply D1]).
  assert (k_q s2 = k_q s) as Q2 by (etrans; [apply D2|]; simpl; etrans; [apply D1|]; done).
  assert (qof s2 (QMtx mp) = []) as Hq2 by (unfold qof; by rewrite Q2).
  assert (k_thd s2 !! k_cur s2 = Some cth1) as Ec2 by (rewrite T2, C2; apply lookup_insert_eq).
  assert (k_mtx s2 !! mp = Some (mkMutex (Some (k_cur s0)) (p_mtxlist cth))) as Em2 by (rewrite M2; apply lookup_insert_eq).
  pose proof K2 as (Hw2 & Hok2 & HS2).
  pose proof (mtx_unlock_none s2 mp cth1 _ "chMtxUnlock" Hw2 HS2 Hm2 Ec2 eq_refl Em2 Hq2) as Eu.
  destruct (unlock_free s2 mp cth1 _ Hw2 HS2 Hm2 Ec2 eq_refl Em2 Hq2) as [Hw3 Hm3].
  set (s3 := set_k_mtx _ _) in *.
  assert (K s3) as K3.
  { split_and!; [done| |done]. apply (sched_ok_ext (put_thd (k_cur s2) (set_p_mtxlist (p_mtxlist cth) cth1) s2)); [done..|].
    by apply (sched_ok_put_same s2 _ cth1). }
  destruct (unlock_user s3 K3) as (s4 & E4 & U4 & D4). exists s4.
  unfold chMtxUnlock. mgo. rewrite E2. mgo. rewrite Eu. mgo. fold s3. rewrite E4. split; [done|].
  assert (k_thd s3 = k_thd s) as T3.
  { unfold s3. simpl. rewrite T2, C2, insert_insert_eq. apply insert_id. rewrite C0, Ec. destruct cth. done. }
  split_and!; [by etrans; [apply D4|apply D2]|done|by apply (mtx_wf_ext s3); [apply D4..|]| |].
  - pose proof (same_data_kernel _ _ D4) as (S4 & _ & _). pose proof (same_data_kernel _ _ D2) as (S2 & _ & _).
    pose proof (same_data_kernel _ _ D1) as (S1 & _ & _). pose proof (same_data_kernel _ _ D0) as (S0 & _ & _).
    unfold same_kernel in *. rewrite T3 in S4. simpl in *. intuition congruence.
  - exists (p_mtxlist cth). etrans; [apply D4|]. simpl. by rewrite M2, insert_insert_eq.
Qed.

(** ** Alignment *)

Lemma mem_align_prev p : is_u32 p → MEM_ALIGN_PREV p = p / 8 * 8.
Proof.
  intros Hp. unfold MEM_ALIGN_PREV.
  assert (Z.land p (not32 MEM_ALIGN_MASK) = Z.ldiff p (Z.ones 3)) as ->.
  { apply Z.bits_inj'. intros n Hn. replace (not32 MEM_ALIGN_MASK) with (Z.ldiff (Z.ones 32) (Z.ones 3)) by reflexivity.
    rewrite Z.land_spec, !Z.ldiff_spec. destruct (Z.ltb_spec n 32) as [Hlt|Hge].
    - rewrite (Z.ones_spec_low 32) by lia. done.
    - assert (Z.testbit p n = false) as ->; [|done]. unfold is_u32 in Hp. destruct (decide (p = 0)) as [->|Hp0]; [apply Z.testbit_0_l|].
      apply Z.bits_above_log2; [lia|]. assert (Z.log2 p < 32) by (apply Z.log2_lt_pow2; lia). lia. }
  rewrite Z.ldiff_ones_r, Z.shiftl_mul_pow2, Z.shiftr_div_pow2 by lia. done.
Qed.

(** The rounding up of [MEM_ALIGN_NEXT], below the wrap-around. *)
Lemma mem_align_next p : 0 ≤ p → p + 7 < 2 ^ 32 → (8 | MEM_ALIGN_NEXT p) ∧ p ≤ MEM_ALIGN_NEXT p < p + 8.
Proof.
  intros H0 H1. unfold MEM_ALIGN_NEXT. change MEM_ALIGN_MASK with 7.
  rewrite u32_small by (unfold is_u32; lia). rewrite mem_align_prev by (unfold is_u32; lia).
  split; [by exists ((p + 7) / 8)|]. pose proof (Z.div_mod (p + 7) 8 ltac:(lia)).
  pose proof (Z.mod_pos_bound (p + 7) 8 ltac:(lia)). lia.
Qed.

Lemma mem_align_id p : is_u32 p → (8 | p) → p + 7 < 2 ^ 32 → MEM_ALIGN_NEXT p = p.
Proof.
  intros [? ?] [k ->] ?. destruct (mem_align_next (k * 8)) as ([j Ej] & ?); [lia..|]. lia.
Qed.

(** ** The core allocator *)

(** The core area: aligned bounds inside the address space. *)
Definition core_ok (m : memst) : Prop :=
  0 < nextmem m ∧ nextmem m ≤ endmem m ∧ endmem m < 2 ^ 32 ∧ (8 | nextmem m) ∧ (8 | endmem m).

Lemma chCoreAllocI_ok s size :
  in_I s → core_ok (k_mem s) → 0 ≤ size → size + 7 < 2 ^ 32 →
  let m := k_mem s in let n := MEM_ALIGN_NEXT size in
  if endmem m - nextmem m <? n then chCoreAllocI size s = Done 0 s
  else
    let s' := set_k_mem (set_core (nextmem m + n) (endmem m) m) s in
    chCoreAllocI size s = Done (nextmem m) s' ∧ core_ok (k_mem s').
Proof.
  intros HI (C1 & C2 & C3 & C4 & C5) H0 H1 m n. destruct (mem_align_next size H0 H1) as [A1 A2]. fold n in A1, A2.
  unfold chCoreAllocI. mgo. rewrite (classI_ok s HI). mgo. fold n. fold m.
  rewrite u32_small by (unfold is_u32, m; lia). destruct (Z.ltb_spec (endmem m - nextmem m) n) as [Hlt|Hge]; [done|].
  unfold upd_mem. mgo. rewrite u32_small by (unfold is_u32, m in *; lia). split; [done|].
  unfold core_ok. simpl. unfold m in *. split_and!; try done; try lia. by apply Z.divide_add_r.
Qed.

(** One request after the other; the results in order. *)
Fixpoint core_allocs (sizes : list Z) : M (list Z) :=
  match sizes with
  | [] => mret []
  | n :: sizes => p ← chCoreAllocI n; ps ← core_allocs sizes; mret (p :: ps)
  end.

(** The blocks handed out: those requests that did not return NULL. *)
Definition handed_out (sizes ps : list Z) : list (Z * Z) :=
  filter (λ pn, pn.1 ≠ 0) (zip ps sizes).

Lemma core_allocs_ok sizes : ∀ s,
  in_I s → core_ok (k_mem s) → Forall (λ n, 0 ≤ n ∧ n + 7 < 2 ^ 32) sizes →
  ∃ ps s', core_allocs sizes s = Done ps s' ∧ length ps = length sizes ∧ core_ok (k_mem s') ∧
    nextmem (k_mem s) ≤ nextmem (k_mem s') ∧ endmem (k_mem s') = endmem (k_mem s) ∧
    Forall (λ b, (8 | b.1) ∧ nextmem (k_mem s) ≤ b.1 ∧ b.1 + b.2 ≤ nextmem (k_mem s')) (handed_out sizes ps) ∧
    StronglySorted (λ a b, a.1 + a.2 ≤ b.1) (handed_out sizes ps).
Proof.
  induction sizes as [|n sizes IH]; intros s HI HC Hf; simpl.
  { exists [], s. split_and!; try done; constructor. }
  apply Forall_cons in Hf as [[H0 H1] Hf]. pose proof (chCoreAllocI_ok s n HI HC H0 H1) as Ha. simpl in Ha. mgo.
  destruct (mem_align_next n H0 H1) as [A1 A2]. pose proof HC as (C1 & C2 & C3 & C4 & C5).
  destruct (Z.ltb_spec (endmem (k_mem s) - nextmem (k_mem s)) (MEM_ALIGN_NEXT n)) as [Hlt|Hge].
  - rewrite Ha. mgo. destruct (IH s HI HC Hf) as (ps & s' & -> & L & R). mgo. exists (0 :: ps), s'.
    split; [done|]. split; [simpl; lia|]. unfold handed_out in *. simpl. rewrite filter_cons_False by naive_solver. done.
  - destruct Ha as [-> HC']. mgo. set (s1 := set_k_mem _ s) in *.
    destruct (IH s1 HI HC' Hf) as (ps & s' & -> & L & C' & Hn & He & HF & HS). mgo.
    exists (nextmem (k_mem s) :: ps), s'. split; [done|]. split; [simpl; lia|]. simpl in Hn, He.
    unfold handed_out in *. simpl. rewrite filter_cons_True by (simpl; lia).
    split_and!; try done; [lia| |].
    + constructor; [split_and!; simpl; [done|lia|lia]|]. eapply Forall_impl; [exact HF|]. simpl. intros b (? & ? & ?). split_and!; [done|lia|done].
    + constructor; [done|]. eapply Forall_impl; [exact HF|]. simpl. intros b (? & ? & ?). lia.
Qed.

(** Any series of requests to the core allocator (smaller than the address
    space less the alignment): every call returns; the blocks handed out are
    aligned, large enough, inside the core area, and follow each other without
    overlap; a request is refused exactly when the rest of the area is too
    small for its rounded size, and then nothing changes. *)
Theorem chCoreAllocI_correct sizes s :
  in_I s → core_ok (k_mem s) → Forall (λ n, 0 ≤ n ∧ n + 7 < 2 ^ 32) sizes →
  (∃ ps s', core_allocs sizes s = Done ps s' ∧ length ps = length sizes ∧ core_ok (k_mem s') ∧
    Forall (λ b, (8 | b.1) ∧ nextmem (k_mem s) ≤ b.1 ∧ b.1 + b.2 ≤ endmem (k_mem s)) (handed_out sizes ps) ∧
    StronglySorted (λ a b, a.1 + a.2 ≤ b.1) (handed_out sizes ps)) ∧
  (∀ n, n ∈ sizes → (∃ s', chCoreAllocI n s = Done 0 s') ↔
     endmem (k_mem s) - nextmem (k_mem s) < MEM_ALIGN_NEXT n) ∧
  (∀ n s', n ∈ sizes → chCoreAllocI n s = Done 0 s' → s' = s).
Proof.
  intros HI HC Hf. split.
  - destruct (core_allocs_ok sizes s HI HC Hf) as (ps & s' & E & L & C' & _ & He & HF & HS).
    exists ps, s'. split_and!; try done. eapply Forall_impl; [exact HF|]. simpl. intros b (? & ? & ?).
    destruct C' as (_ & ? & _). split_and!; [done..|lia].
  - rewrite Forall_forall in Hf.
    assert (∀ n, n ∈ sizes → if endmem (k_mem s) - nextmem (k_mem s) <? MEM_ALIGN_NEXT n
      then chCoreAllocI n s = Done 0 s else ∃ p s', 0 < p ∧ chCoreAllocI n s = Done p s') as Hn.
    { intros n Hn. destruct (Hf n Hn) as [H0 H1]. pose proof (chCoreAllocI_ok s n HI HC H0 H1) as Ha. simpl in Ha.
      case_match; [done|]. destruct Ha as [Ha _]. eexists _, _. split; [|done]. apply HC. }
    split.
    + intros n Hin. specialize (Hn n Hin). destruct (Z.ltb_spec (endmem (k_mem s) - nextmem (k_mem s)) (MEM_ALIGN_NEXT n)).
      * split; [done|]. intros _. by exists s.
      * destruct Hn as (p & s' & Hp & E). split; [|lia]. intros (s2 & E2). rewrite E in E2. injection E2 as -> ->. lia.
    + intros n s' Hin E. specialize (Hn n Hin). case_match; [congruence|].
      destruct Hn as (p & s2 & Hp & E2). rewrite E in E2. injection E2 as <- _. lia.
Qed.

(** ** The heap invariant *)

(** A block away from the heap's own header at [f], not even adjacent to its
    end (the mutex of the heap follows it). *)
Definition clear_of (f : Z) (b : block) : Prop := bend b ≤ f ∨ f + HDR < b.1.

(** The heap [heapp] with its mutex free and the free list [l]. *)
Definition heap_wf (heapp : addr) (h : memory_heap) (l : list block) (s : kst) : Prop :=
  mem_heap (k_mem s) !! heapp = Some h ∧ (∃ nx, k_mtx s !! h_mtx h = Some (mkMutex None nx)) ∧
  hchain (mem_hdr (k_mem s)) (h_free h) ((h_free h, 0) :: l) ∧ blocks_ok l ∧
  0 ≤ h_free h ∧ h_free h + HDR < 2 ^ 32 ∧ Forall (clear_of (h_free h)) l.

(** A block in use: its header names the heap. *)
Definition used (heapp : addr) (h : memory_heap) (b : block) (s : kst) : Prop :=
  mem_hdr (k_mem s) !! b.1 = Some (mkHH (HHeap heapp) b.2) ∧ block_ok b ∧ clear_of (h_free h) b.

Lemma clear_not_covered f l : Forall (clear_of f) l → ¬ covered l f.
Proof.
  unfold covered. rewrite Exists_exists, Forall_forall. intros Hf (b & Hb & Hx). specialize (Hf b Hb).
  unfold clear_of, covers, HDR in *. lia.
Qed.

Lemma hchain_elem H n l b : hchain H n l → b ∈ l → is_Some (H !! b.1).
Proof.
  revert n. induction l as [|c l IH]; intros n Hc Hb; [set_solver|]. destruct Hc as (_ & n' & E & Hc).
  apply elem_of_cons in Hb as [->|Hb]; [done|]. by apply (IH n').
Qed.

(** The number of headers bounds the length of a free list. *)
Lemma hchain_fuel H n l : hchain H n l → blocks_ok l → (length l < S (size H))%nat.
Proof.
  intros Hc [Hok Hs]. assert (NoDup (fst <$> l)) as Hnd.
  { clear Hc n. induction l as [|b l IH]; simpl; [constructor|]. apply Forall_cons in Hok as [Hb Hok].
    apply StronglySorted_inv in Hs as [Hs Hg]. constructor; [|by apply IH].
    intros (c & Ec & Hc)%list_elem_of_fmap. rewrite Forall_forall in Hg. specialize (Hg c Hc).
    apply block_ok_fst in Hb. unfold gap in Hg. lia. }
  assert ((list_to_set (fst <$> l) : gset Z) ⊆ dom H) as Hsub.
  { intros x Hx. apply elem_of_list_to_set, list_elem_of_fmap in Hx as (b & -> & Hb).
    apply elem_of_dom. by apply (hchain_elem H n l). }
  apply subseteq_size in Hsub. rewrite size_list_to_set, size_dom, length_fmap in Hsub by done. lia.
Qed.

Lemma on_hdrs_ok {A} (f : nat → hdrs → option (A * hdrs)) a H s :
  f (S (size (mem_hdr (k_mem s)))) (mem_hdr (k_mem s)) = Some (a, H) →
  on_hdrs f s = Done a (set_k_mem (set_hdr H (k_mem s)) s).
Proof. intros E. unfold on_hdrs, upd_mem. mgo. rewrite E. mgo. done. Qed.

Lemma heap_of_ok heapp h s : mem_heap (k_mem s) !! heapp = Some h → heap_of heapp s = Done h s.
Proof. intros E. unfold heap_of, deref. by rewrite E. Qed.

(** Running a computation on the headers under the heap's mutex. *)
Lemma heap_locked {A} (f : nat → hdrs → option (A * hdrs)) heapp h l s a H :
  user s → mtx_wf s → heap_wf heapp h l s →
  f (S (size (mem_hdr (k_mem s)))) (mem_hdr (k_mem s)) = Some (a, H) →
  ∃ s1 s', (∀ B (k : A → M B), (H_LOCK heapp ;; a ← on_hdrs f; k a) s = k a s1) ∧ H_UNLOCK heapp s1 = Done () s' ∧
    user s' ∧ mtx_wf s' ∧ same_kernel s s' ∧ k_mem s' = set_hdr H (k_mem s) ∧
    ∃ nx, k_mtx s' = <[h_mtx h := mkMutex None nx]> (k_mtx s).
Proof.
  intros Hu Hm (Eh & [nx Em] & _) Ef.
  destruct (with_mtx s (h_mtx h) _ Hu Hm Em eq_refl) as (s1 & E1 & M1 & Hun).
  destruct (Hun (set_hdr H (k_mem s))) as (s2 & E2 & M2 & U2 & W2 & S2 & N2).
  exists (set_k_mem (set_hdr H (k_mem s)) s1), s2. split; [|split; [|done]].
  - intros B k. unfold H_LOCK. mgo. rewrite (heap_of_ok heapp h s) by done. mgo. rewrite E1. mgo.
    rewrite <-M1 in Ef. rewrite (on_hdrs_ok f a H s1 Ef), M1. by mgo.
  - unfold H_UNLOCK. mgo. rewrite (heap_of_ok heapp h) by done. by mgo.
Qed.

Lemma heap_wf_new heapp h l l' H s s' :
  heap_wf heapp h l s → k_mem s' = set_hdr H (k_mem s) → (∃ nx, k_mtx s' = <[h_mtx h := mkMutex None nx]> (k_mtx s)) →
  hchain H (h_free h) ((h_free h, 0) :: l') → blocks_ok l' → Forall (clear_of (h_free h)) l' → heap_wf heapp h l' s'.
Proof.
  intros (Eh & _ & _ & _ & H1 & H2 & _) Em [nx En] Hc Hok Hf. unfold heap_wf. rewrite Em, En. simpl.
  refine (conj Eh (conj _ (conj Hc (conj Hok (conj H1 (conj H2 Hf)))))). exists nx. apply lookup_insert_eq.
Qed.

Lemma alloc_clear f n l b l' :
  blocks_ok l → 0 ≤ n → (8 | n) → alloc_list n l = Some (b, l') → Forall (clear_of f) l →
  clear_of f b ∧ Forall (clear_of f) l'.
Proof.
  intros Hl Hn H8. revert b l'. induction l as [|[p sz] l IH]; intros b l'; [done|]. simpl.
  apply blocks_ok_cons in Hl as (Hb & _ & Hl). intros Ea [Hc Hf]%Forall_cons. revert Ea.
  assert (0 ≤ sz) by apply Hb.
  destruct (Z.leb_spec n sz); [destruct (Z.ltb_spec sz (n + HDR)); intros [= <- <-]|].
  - done.
  - unfold clear_of, bend, HDR in *. simpl in *. split; [lia|]. constructor; [simpl; lia|done].
  - destruct (alloc_list n l) as [[b0 r0]|] eqn:E; [|done]. intros [= <- <-].
    destruct (IH Hl b0 r0 eq_refl Hf). split; [done|]. by constructor.
Qed.

Lemma chCoreAlloc_ok s size :
  user s → core_ok (k_mem s) → 0 ≤ size → size + 7 < 2 ^ 32 →
  let m := k_mem s in let n := MEM_ALIGN_NEXT size in
  ∃ p s', chCoreAlloc size s = Done p s' ∧ user s' ∧ same_kernel s s' ∧ k_mtx s' = k_mtx s ∧
    if endmem m - nextmem m <? n then p = 0 ∧ k_mem s' = m
    else p = nextmem m ∧ k_mem s' = set_core (nextmem m + n) (endmem m) m.
Proof.
  intros Hu HC H0 H1 m n. destruct (lock_user s Hu) as (s1 & E1 & K1 & D1).
  pose proof (same_data_kernel _ _ D1) as (S1 & X1 & M1).
  pose proof (chCoreAllocI_ok s1 size (in_S_I _ (proj2 (proj2 K1))) ltac:(by rewrite M1) H0 H1) as Ha.
  rewrite M1 in Ha. fold m n in Ha. simpl in Ha. unfold chCoreAlloc. mgo. rewrite E1. mgo.
  destruct (endmem m - nextmem m <? n).
  - rewrite Ha. mgo. destruct (unlock_user s1 K1) as (s2 & -> & U2 & D2). mgo. exists 0, s2.
    pose proof (same_data_kernel _ _ D2) as (S2 & X2 & M2). do 2 (split; [done|]).
    split; [unfold same_kernel in *; intuition congruence|]. split_and!; [congruence|done|by rewrite M2, M1].
  - destruct Ha as [-> _]. mgo. set (s1' := set_k_mem _ s1).
    assert (K s1') as K1' by by apply (K_ext s1).
    destruct (unlock_user s1' K1') as (s2 & -> & U2 & D2). mgo. exists (nextmem m), s2.
    pose proof (same_data_kernel _ _ D2) as (S2 & X2 & M2). do 2 (split; [done|]).
    split; [unfold same_kernel in *; simpl in *; intuition congruence|]. split_and!; [by rewrite X2|done|].
    by rewrite M2.
Qed.

Section HeapAlloc.
Context (up : positive → Z → M Z) (s : kst) (heapp : addr) (h : memory_heap) (l : list block) (size : Z).
Hypothesis Hu : user s.
Hypothesis Hm : mtx_wf s.
Hypothesis Hh : heap_wf heapp h l s.
Hypothesis H0 : 0 ≤ size.
Hypothesis H1 : size + 7 < 2 ^ 32.

(** A free block fits: it is taken from the list. *)
Lemma chHeapAlloc_ok b l' :
  alloc_list (MEM_ALIGN_NEXT size) l = Some (b, l') →
  ∃ s', chHeapAlloc up (Some heapp) size s = Done (b.1 + HDR) s' ∧ user s' ∧ mtx_wf s' ∧ same_kernel s s' ∧
    heap_wf heapp h l' s' ∧ used heapp h b s' ∧ size ≤ b.2 ∧ (8 | b.1 + HDR) ∧
    Forall (disjoint_blocks b) l' ∧ free_list b l' = l ∧
    (∀ x, x ≠ h_free h → ¬ covered l x → mem_hdr (k_mem s') !! x = mem_hdr (k_mem s) !! x).
Proof using All.
  intros Ea. destruct (mem_align_next size H0 H1) as [A1 A2]. pose proof Hh as (Eh & _ & Hc & Hok & F1 & F2 & Hf).
  destruct Hc as (_ & n & Eq & Hc). simpl in Eq. assert (0 ≤ MEM_ALIGN_NEXT size) as A3 by lia.
  pose proof (heap_search_ok heapp (MEM_ALIGN_NEXT size) l _ (h_free h) 0 n _ Eq Hc Hok
    (clear_not_covered _ _ Hf) A3 (hchain_fuel _ _ _ Hc Hok)) as Hs. rewrite Ea in Hs.
  destruct Hs as (H' & n' & Es & E1 & E2 & E3 & E4).
  destruct (alloc_list_ok _ _ _ _ Hok A3 A1 Ea) as (B1 & B2 & B3 & B4 & B5 & _).
  destruct (alloc_clear (h_free h) _ _ _ _ Hok A3 A1 Ea Hf) as [B6 B7].
  destruct (heap_locked (λ fuel H, heap_search fuel heapp (h_free h) (MEM_ALIGN_NEXT size) H) heapp h l s b.1 H' Hu Hm Hh Es)
    as (s1 & s' & E & Eun & U' & M' & S' & Em & En).
  exists s'. split.
  { unfold chHeapAlloc. cbn [heap_arg]. rewrite bind_eq, (heap_of_ok _ _ _ Eh), rbind_done. cbn beta zeta. rewrite E. mgo. rewrite Eun. mgo.
    pose proof B1 as (B11 & B12 & B13 & _). destruct (Z.eqb_spec b.1 0); [lia|]. simpl. mgo.
    rewrite u32_small; [done|]. unfold is_u32, bend, HDR in *. lia. }
  split_and!; try done.
  - apply (heap_wf_new _ _ _ _ _ _ _ Hh Em En); [split; [done|]; by exists n'|done|done].
  - unfold used. rewrite Em. done.
  - lia.
  - apply Z.divide_add_r; [apply B1|by exists 1].
  - rewrite Em. exact E4.
Qed.

(** No free block fits: what is left is the call of the provider. *)
Lemma chHeapAlloc_nofit :
  alloc_list (MEM_ALIGN_NEXT size) l = None →
  ∃ s', user s' ∧ mtx_wf s' ∧ same_kernel s s' ∧ heap_wf heapp h l s' ∧ k_mem s' = k_mem s ∧
    chHeapAlloc up (Some heapp) size s =
      match h_provider h with
      | PNull => mret 0
      | prov => hp ← call_provider up prov (u32 (MEM_ALIGN_NEXT size + HDR));
          if hp =? 0 then mret 0
          else upd_mem (λ m, set_hdr (<[hp := mkHH (HHeap heapp) (MEM_ALIGN_NEXT size)]> (mem_hdr m)) m) ;;
               mret (u32 (hp + HDR))
      end s'.
Proof using All.
  intros Ea. destruct (mem_align_next size H0 H1) as [A1 A2]. pose proof Hh as (Eh & _ & Hc & Hok & F1 & F2 & Hf).
  destruct Hc as (_ & n & Eq & Hc). simpl in Eq. assert (0 ≤ MEM_ALIGN_NEXT size) as A3 by lia.
  pose proof (heap_search_ok heapp (MEM_ALIGN_NEXT size) l _ (h_free h) 0 n _ Eq Hc Hok
    (clear_not_covered _ _ Hf) A3 (hchain_fuel _ _ _ Hc Hok)) as Hs. rewrite Ea in Hs.
  destruct (heap_locked (λ fuel H, heap_search fuel heapp (h_free h) (MEM_ALIGN_NEXT size) H) heapp h l s _ _ Hu Hm Hh Hs)
    as (s1 & s' & E & Eun & U' & M' & S' & Em & En).
  assert (k_mem s' = k_mem s) as Em' by (rewrite Em; by destruct (k_mem s)).
  assert (mem_heap (k_mem s') !! heapp = Some h) as Eh' by by rewrite Em'.
  exists s'. split_and!; try done.
  - apply (heap_wf_new _ _ _ _ _ _ _ Hh Em En); [split; [done|]; by exists n|done|done].
  - unfold chHeapAlloc. cbn [heap_arg]. rewrite bind_eq, (heap_of_ok _ _ _ Eh), rbind_done. cbn beta zeta.
    rewrite E. mgo. rewrite Eun. mgo. cbn [Z.eqb negb]. rewrite bind_eq, (heap_of_ok _ _ _ Eh'). by mgo.
Qed.

(** chHeapAlloc when no free block fits.  A heap without provider returns
    NULL and the memory is as it was.  The default heap asks the core
    allocator: it returns NULL if the core area is too small for the block and
    its header, and otherwise the address after the header of a new block at
    the start of the area, recorded as used; the free list is not changed. *)
Theorem chHeapAlloc_provider :
  alloc_list (MEM_ALIGN_NEXT size) l = None → size + 22 < 2 ^ 32 →
  (h_provider h = PNull →
   ∃ s', chHeapAlloc up (Some heapp) size s = Done 0 s' ∧ user s' ∧ mtx_wf s' ∧ same_kernel s s' ∧
     heap_wf heapp h l s' ∧ k_mem s' = k_mem s) ∧
  (let m := k_mem s in let b := (nextmem m, MEM_ALIGN_NEXT size) in
   h_provider h = PCoreAlloc → core_ok m → ¬ covered l (nextmem m) → clear_of (h_free h) b →
   if endmem m - nextmem m <? b.2 + HDR then
     ∃ s', chHeapAlloc up (Some heapp) size s = Done 0 s' ∧ user s' ∧ mtx_wf s' ∧ same_kernel s s' ∧
       heap_wf heapp h l s' ∧ k_mem s' = m
   else
     ∃ s', chHeapAlloc up (Some heapp) size s = Done (nextmem m + HDR) s' ∧ user s' ∧ mtx_wf s' ∧ same_kernel s s' ∧
       heap_wf heapp h l s' ∧ used heapp h b s' ∧ size ≤ b.2 ∧ nextmem (k_mem s') = bend b ∧
       endmem (k_mem s') = endmem m).
Proof using All.
  intros Ea H2. destruct (mem_align_next size H0 H1) as [A1 A2].
  pose proof Hh as (Eh & _ & (_ & n & Eq & Hc) & Hok & _). simpl in Eq.
  assert (MEM_ALIGN_NEXT size + HDR + 7 < 2 ^ 32) as A4 by (unfold HDR; lia).
  assert (is_u32 (MEM_ALIGN_NEXT size + HDR)) as A5 by (unfold is_u32, HDR in *; lia).
  destruct (chHeapAlloc_nofit Ea) as (s' & U' & M' & S' & Hh' & Em' & E). split.
  - intros Hp. exists s'. rewrite E, Hp. done.
  - intros m b Hp HC Hcv Hcl.
    assert (MEM_ALIGN_NEXT (MEM_ALIGN_NEXT size + HDR) = b.2 + HDR) as Hal.
    { apply mem_align_id; [done| |done]. apply Z.divide_add_r; [done|by exists 1]. }
    destruct (chCoreAlloc_ok s' (MEM_ALIGN_NEXT size + HDR) U') as (p & s2 & E2 & U2 & S2 & X2 & Hif);
      [by rewrite Em'|apply A5|done|].
    rewrite Em', Hal in Hif. fold m in Hif.
    assert (same_kernel s s2) as SS by (unfold same_kernel in *; intuition congruence).
    assert (mtx_wf s2) as W2 by (apply (mtx_wf_ext s'); [apply S2|done|apply S2|done]).
    assert (∀ Q, (if p =? 0 then mret 0 else upd_mem (λ m, set_hdr (<[p := mkHH (HHeap heapp) b.2]> (mem_hdr m)) m) ;;
                 mret (u32 (p + HDR))) s2 = Q → chHeapAlloc up (Some heapp) size s = Q) as Hgo2.
    { intros Q <-. rewrite E, Hp. unfold call_provider. mgo.
      rewrite (u32_small _ A5), E2. by mgo. }
    destruct Hh' as (Y1 & Y2 & Y3 & Y4). pose proof HC as (C1 & C2 & C3 & C4 & C5). fold m in C1, C2, C3, C4, C5.
    destruct (Z.ltb_spec (endmem m - nextmem m) (b.2 + HDR)) as [Hlt|Hge]; destruct Hif as [-> Em2].
    + exists s2. split; [by apply Hgo2|]. split_and!; try done.
      unfold heap_wf. rewrite X2, Em2. rewrite Em' in Y1, Y3. exact (conj Y1 (conj Y2 (conj Y3 Y4))).
    + set (H' := <[nextmem m := mkHH (HHeap heapp) b.2]> (mem_hdr m)).
      assert (nextmem m ≠ h_free h) as Hnf by (unfold clear_of, bend, HDR in Hcl; simpl in Hcl; lia).
      eexists. split.
      { apply Hgo2. destruct (Z.eqb_spec (nextmem m) 0); [lia|]. unfold upd_mem. mgo. rewrite Em2.
        rewrite u32_small by (unfold is_u32, HDR in *; simpl in *; lia). reflexivity. }
      split_and!; try done; simpl.
      * by apply (user_ext s2).
      * by apply (mtx_wf_ext s2).
      * unfold heap_wf. simpl. rewrite X2. refine (conj Eh (conj Y2 (conj _ Y4))). split; [done|]. exists n.
        rewrite lookup_insert_ne by done. split; [done|]. apply (hchain_frame (mem_hdr (k_mem s))); [apply Hok| |done].
        intros x Hx. rewrite lookup_insert_ne; [done|]. intros <-. done.
      * unfold used. simpl. rewrite lookup_insert_eq. split_and!; try done. unfold block_ok, bend, HDR in *. simpl in *.
        split_and!; try done; lia.
      * lia.
      * unfold bend, HDR. simpl. lia.
Qed.
End HeapAlloc.

(** ** Releasing a block *)

Lemma glue_clear f a l : clear_of f a → Forall (clear_of f) l → block_ok a → Forall (clear_of f) (glue a l).
Proof.
  intros Ha Hl Hb. destruct l as [|b l]; simpl; [by constructor|]. apply Forall_cons in Hl as [Hbl Hl].
  destruct (Z.eqb_spec (bend a) b.1); [|by rewrite !Forall_cons]. apply Forall_cons. split; [|done].
  unfold clear_of, block_ok, bend, HDR in *. simpl. lia.
Qed.

Lemma free_list_clear f b l :
  clear_of f b → block_ok b → Forall (clear_of f) l → Forall block_ok l → Forall (clear_of f) (free_list b l).
Proof.
  intros Hb Hok. induction l as [|q l IH]; intros Hl Hbs; cbn [free_list]; [by constructor|].
  apply Forall_cons in Hl as [Hq Hl]. apply Forall_cons in Hbs as [Hbq Hbs].
  case_match; apply glue_clear; try done; [by constructor|]. by apply IH.
Qed.

Lemma clear_header f b : block_ok b → clear_of f b → b.1 < f ∨ f + HDR < b.1.
Proof. intros Hb%block_ok_fst Hc. unfold clear_of in Hc. lia. Qed.

Lemma heap_free_headers heapp h l b s :
  heap_wf heapp h l s → used heapp h b s → Forall (disjoint_blocks b) l →
  ∃ H', heap_insert (S (size (mem_hdr (k_mem s)))) (h_free h) (h_free h) b.1 (mem_hdr (k_mem s)) = Some (inr H') ∧
    hchain H' (h_free h) ((h_free h, 0) :: free_list b l) ∧ blocks_ok (free_list b l) ∧
    Forall (clear_of (h_free h)) (free_list b l) ∧
    (∀ c, block_ok c → clear_of (h_free h) c → Forall (disjoint_blocks c) l → c.1 ≠ b.1 →
       H' !! c.1 = mem_hdr (k_mem s) !! c.1).
Proof.
  intros (Eh & _ & Hc & Hok & F1 & F2 & Hf) (Eb & Hb & Hcl) Hd. pose proof (block_ok_fst _ Hb) as Hlt.
  set (q := (h_free h, 0) : block).
  assert (disjoint_blocks b q) as Hbq.
  { unfold disjoint_blocks, clear_of, q, bend, HDR in *. simpl. lia. }
  assert (∀ c, block_ok c → clear_of (h_free h) c → bend q ≠ c.1) as Hne.
  { intros c Hc1 Hc2. pose proof (clear_header _ _ Hc1 Hc2). unfold q, bend, HDR in *. simpl. lia. }
  assert (Forall (λ c, bend q ≠ c.1) l) as Hadj.
  { apply Forall_forall. intros c Hin. apply Hne; [eapply Forall_forall; [apply Hok|done]|by eapply Forall_forall]. }
  destruct Hc as (_ & n & Eq & Hn).
  destruct (heap_insert_ok (h_free h) b (HHeap heapp) l (S (size (mem_hdr (k_mem s)))) q (mem_hdr (k_mem s)))
    as (H' & E & Hc' & Hfr); try done.
  - split; [done|]. by exists n.
  - by constructor.
  - unfold q, bend. simpl. lia.
  - by apply clear_not_covered.
  - by left.
  - by apply (hchain_fuel _ n).
  - destruct (free_list_ok b l Hb Hok Hd) as [Hok' _]. exists H'.
    assert (Forall (clear_of (h_free h)) (free_list b l)) as Hcl' by (apply free_list_clear; [done..|apply Hok]).
    split; [done|]. split; [|split_and!; try done].
    + assert (glue q (free_list b l) = q :: free_list b l) as <-; [|exact Hc'].
      destruct (free_list b l) as [|c l'] eqn:Ef; [done|]. simpl. apply Forall_cons in Hcl' as [Hcc _].
      destruct Hok' as [[Hco _]%Forall_cons _]. specialize (Hne c Hco Hcc).
      by destruct (Z.eqb_spec (bend q) c.1).
    + intros c Hco Hcc Hcd Hcb. apply Hfr; [|done]. rewrite covered_cons. intros [Hx|Hx].
      * pose proof (clear_header _ _ Hco Hcc). unfold covers, q, bend, HDR in *. simpl in Hx. lia.
      * revert Hx. apply (disjoint_not_covered c); [done|]. apply block_ok_fst in Hco. unfold covers. lia.
Qed.

(** A block in use that overlaps no free block goes back to the list. *)
Lemma chHeapFree_ok s heapp h l b :
  user s → mtx_wf s → heap_wf heapp h l s → used heapp h b s → Forall (disjoint_blocks b) l →
  ∃ s', chHeapFree (b.1 + HDR) s = Done () s' ∧ user s' ∧ mtx_wf s' ∧ same_kernel s s' ∧
    heap_wf heapp h (free_list b l) s' ∧
    (∀ x, covered (free_list b l) x ↔ covers b x ∨ covered l x) ∧
    (∀ c, used heapp h c s → Forall (disjoint_blocks c) l → c.1 ≠ b.1 → used heapp h c s').
Proof.
  intros Hu Hm Hh Hb Hd. destruct (heap_free_headers heapp h l b s Hh Hb Hd) as (H' & Ei & Hc & Hok & Hcl & Hfr).
  destruct (heap_locked (λ fuel H,
      r ← heap_insert fuel (h_free h) (h_free h) b.1 H;
      match r with inl e => Some (inl e, H) | inr H' => Some (inr tt : string + unit, H') end) heapp h l s (inr tt) H' Hu Hm Hh)
    as (s1 & s' & E & Eun & U' & M' & S' & Em & En); [by rewrite Ei|].
  exists s'. destruct Hb as (Eb & Hbo & Hbc). pose proof Hbo as (B1 & B2 & B3 & _). split.
  - unfold chHeapFree. mgo. assert (b.1 + HDR ≠ 0) by (unfold HDR; lia).
    destruct (Z.eqb_spec (b.1 + HDR) 0); [done|]. cbn [negb]. mgo.
    replace (u32 (b.1 + HDR - HDR)) with b.1 by (rewrite Z.add_simpl_r; symmetry; apply u32_small; unfold is_u32, bend, HDR in *; lia).
    unfold deref at 1. rewrite Eb. mgo. cbn [hh_u]. mgo. rewrite (heap_of_ok _ _ _ (proj1 Hh)). mgo.
    specialize (E unit (λ r, match r with inl e => chSysHalt e | inr _ => H_UNLOCK heapp end)).
    revert E. mgo. intros ->. done.
  - split_and!; try done.
    + by apply (heap_wf_new _ _ _ _ _ _ _ Hh Em En).
    + intros x. by apply free_list_ok; [|apply Hh|].
    + intros c (Ec & Hco & Hcc) Hcd Hcb. unfold used. rewrite Em. simpl. rewrite Hfr by done. done.
Qed.

(** C31.  chHeapFree of a block in use that overlaps no free block: the call
    returns, the free list is again sorted, its blocks have gaps between them
    (a block adjacent to the released one is merged with it, before and after),
    it covers exactly the bytes it covered before and those of the block, the
    headers of all other blocks in use are kept, the heap's mutex is free and
    the rest of the kernel is as it was. *)
Theorem chHeapFree_correct s heapp h l b :
  user s → mtx_wf s → heap_wf heapp h l s → used heapp h b s → Forall (disjoint_blocks b) l →
  ∃ s', chHeapFree (b.1 + HDR) s = Done () s' ∧ user s' ∧ mtx_wf s' ∧ same_kernel s s' ∧
    heap_wf heapp h (free_list b l) s' ∧
    (∀ x, covered (free_list b l) x ↔ covers b x ∨ covered l x) ∧
    (∀ c, used heapp h c s → Forall (disjoint_blocks c) l → c.1 ≠ b.1 → used heapp h c s').
Proof. apply chHeapFree_ok. Qed.

(** C32.  chHeapAlloc when a free block fits: the first one of the list is taken
    (split when the rest can hold a header), the call returns the aligned
    address after its header, the block has at least the requested size, is
    recorded as used and overlaps no block that is still free; the free list
    stays sorted, the heap's mutex is free again, and no header outside the
    free blocks is written.  Releasing the block at once restores the free list
    exactly. *)
Theorem chHeapAlloc_correct up s heapp h l size b l' :
  user s → mtx_wf s → heap_wf heapp h l s → 0 ≤ size → size + 7 < 2 ^ 32 →
  alloc_list (MEM_ALIGN_NEXT size) l = Some (b, l') →
  ∃ s', chHeapAlloc up (Some heapp) size s = Done (b.1 + HDR) s' ∧ user s' ∧ mtx_wf s' ∧ same_kernel s s' ∧
    heap_wf heapp h l' s' ∧ used heapp h b s' ∧ size ≤ b.2 ∧ (8 | b.1 + HDR) ∧
    Forall (disjoint_blocks b) l' ∧
    (∀ x, x ≠ h_free h → ¬ covered l x → mem_hdr (k_mem s') !! x = mem_hdr (k_mem s) !! x) ∧
    ∃ s2, chHeapFree (b.1 + HDR) s' = Done () s2 ∧ user s2 ∧ heap_wf heapp h l s2.
Proof.
  intros Hu Hm Hh H0 H1 Ea.
  destruct (chHeapAlloc_ok up s heapp h l size Hu Hm Hh H0 H1 b l' Ea)
    as (s' & E & Hu' & Hm' & Hs & Hh' & Hb & Hsz & H8 & Hd & Hfl & Hfr).
  destruct (chHeapFree_ok s' heapp h l' b Hu' Hm' Hh' Hb Hd) as (s2 & E2 & Hu2 & _ & _ & Hh2 & _).
  rewrite Hfl in Hh2. exists s'. do 10 (split; [done|]). by exists s2.
Qed.

(** [MEM_ALIGN_NEXT] wraps for the seven largest sizes: such a request gets a
    pointer to a block of no bytes instead of NULL. *)
Theorem chCoreAllocI_overflow s size :
  in_I s → core_ok (k_mem s) → 2 ^ 32 - 7 ≤ size < 2 ^ 32 →
  ∃ s', chCoreAllocI size s = Done (nextmem (k_mem s)) s' ∧ k_mem s' = k_mem s ∧ 0 < nextmem (k_mem s).
Proof.
  intros HI (C1 & C2 & C3 & _) Hs.
  assert (MEM_ALIGN_NEXT size = 0) as E.
  { unfold MEM_ALIGN_NEXT. change MEM_ALIGN_MASK with 7.
    assert (u32 (size + 7) = size + 7 - 2 ^ 32) as -> by (u32_solve).
    rewrite mem_align_prev by (unfold is_u32; lia). apply Z.mul_eq_0. left. apply Z.div_small. lia. }
  unfold chCoreAllocI. mgo. rewrite (classI_ok s HI). mgo. rewrite E.
  pose proof (u32_range (endmem (k_mem s) - nextmem (k_mem s))) as [? _].
  destruct (Z.ltb_spec (u32 (endmem (k_mem s) - nextmem (k_mem s))) 0); [lia|]. unfold upd_mem. mgo.
  eexists. split; [done|]. split; [|done]. simpl. rewrite Z.add_0_r, u32_small by (unfold is_u32; lia).
  by destruct (k_mem s).
Qed.

(** ** Memory pools *)

(** The free objects of a pool, the next one to hand out first. *)
Fixpoint pchain (P : gmap Z Z) (n : Z) (l : list Z) : Prop :=
  match l with
  | [] => n = 0
  | x :: l' => n = x ∧ x ≠ 0 ∧ ∃ n', P !! x = Some n' ∧ pchain P n' l'
  end.

Definition pool_wf (mp : addr) (sz : Z) (prov : provider) (l : list Z) (s : kst) : Prop :=
  (∃ n, mem_pool (k_mem s) !! mp = Some (mkPool n sz prov) ∧ pchain (mem_ph (k_mem s)) n l) ∧ NoDup l.

Lemma pchain_frame P x v n l : x ∉ l → pchain P n l → pchain (<[x := v]> P) n l.
Proof.
  revert n. induction l as [|y l IH]; intros n Hx; simpl; [done|]. intros (-> & Hy & n' & E & Hc).
  split_and!; [done..|]. exists n'. rewrite lookup_insert_ne by set_solver. split; [done|]. apply IH; [set_solver|done].
Qed.

Definition put_pool (mp : addr) (p : memory_pool) (P : gmap Z Z) (s : kst) : kst :=
  set_k_mem (set_pool (<[mp := p]> (mem_pool (k_mem s))) (set_ph P (k_mem s))) s.

Lemma chPoolFreeI_ok mp sz prov l x s :
  in_I s → pool_wf mp sz prov l s → x ≠ 0 → x ∉ l →
  ∃ s', chPoolFreeI mp x s = Done () s' ∧ pool_wf mp sz prov (x :: l) s' ∧
    ∃ p P, s' = put_pool mp p P s.
Proof.
  intros HI ((n & Ep & Hc) & Hnd) Hx Hl. unfold chPoolFreeI, set_mp_next, pool_of, upd_mem. mgo.
  rewrite (classI_ok s HI). mgo. destruct (Z.eqb_spec x 0); [done|]. cbn [negb]. mgo.
  unfold deref at 1. rewrite Ep. mgo. unfold deref. simpl. rewrite Ep. mgo. simpl.
  exists (put_pool mp (mkPool x sz prov) (<[x := n]> (mem_ph (k_mem s))) s). split; [done|]. split; [|by eexists _, _].
  split; [|by constructor]. exists x. simpl. rewrite lookup_insert_eq. split; [done|]. split_and!; [done..|].
  exists n. rewrite lookup_insert_eq. split; [done|]. by apply pchain_frame.
Qed.

Section Pools.
Context (up : positive → Z → M Z) (mp : addr).

Lemma chPoolAllocI_ok sz l s :
  in_I s → pool_wf mp sz PNull l s →
  ∃ s', chPoolAllocI up mp s = Done (default 0 (head l)) s' ∧ pool_wf mp sz PNull (tail l) s' ∧
    (s' = s ∨ ∃ p P, s' = put_pool mp p P s).
Proof.
  intros HI ((n & Ep & Hc) & Hnd). unfold chPoolAllocI, set_mp_next, pool_of, upd_mem. mgo.
  rewrite (classI_ok s HI). mgo. unfold deref at 1. rewrite Ep. mgo. simpl. destruct l as [|x l]; cbn [pchain] in Hc.
  - subst n. simpl. mgo. exists s. split; [done|]. split; [|by left]. split; [by exists 0|done].
  - destruct Hc as (-> & Hx & n' & E & Hc). destruct (Z.eqb_spec x 0); [done|]. cbn [negb]. mgo.
    unfold deref at 1. rewrite E. mgo. unfold deref. rewrite Ep. mgo. simpl.
    exists (put_pool mp (mkPool n' sz PNull) (mem_ph (k_mem s)) s). split; [by destruct s as [????????????????????? ? []]|]. split; [|right; by eexists _, _].
    apply NoDup_cons in Hnd as [_ Hnd]. split; [|done]. exists n'. simpl. by rewrite lookup_insert_eq.
Qed.

(** The pool as a stack. *)
Inductive poolop := PAlloc | PFree (x : Z).

(** Releasing NULL or an object that is in the pool is an error of the
    caller. *)
Definition pool_spec (o : poolop) (l : list Z) : option (Z * list Z) :=
  match o with
  | PAlloc => Some (default 0 (head l), tail l)
  | PFree x => if decide (x = 0 ∨ x ∈ l) then None else Some (0, x :: l)
  end.

Definition pool_exec (o : poolop) : M Z :=
  match o with PAlloc => chPoolAllocI up mp | PFree x => chPoolFreeI mp x ;; mret 0 end.

Fixpoint pool_spec_run (os : list poolop) (l : list Z) : option (list Z * list Z) :=
  match os with
  | [] => Some ([], l)
  | o :: os => '(r, l1) ← pool_spec o l; '(rs, l2) ← pool_spec_run os l1; Some (r :: rs, l2)
  end.

Fixpoint pool_run (os : list poolop) : M (list Z) :=
  match os with
  | [] => mret []
  | o :: os => r ← pool_exec o; rs ← pool_run os; mret (r :: rs)
  end.

(** Memory pools: any sequence of chPoolAllocI and chPoolFreeI (of objects
    that are not in the pool) on a pool without provider behaves as a stack:
    every call returns, the same objects come back in last-in first-out order,
    NULL exactly when the pool is empty, no object is handed out twice without
    being released, and nothing but the pool changes. *)
Theorem pool_refines os sz l s rs l' :
  in_I s → pool_wf mp sz PNull l s → pool_spec_run os l = Some (rs, l') →
  ∃ s', pool_run os s = Done rs s' ∧ pool_wf mp sz PNull l' s' ∧ in_I s' ∧
    (∃ m', s' = set_k_mem m' s ∧ mem_hdr m' = mem_hdr (k_mem s) ∧ mem_heap m' = mem_heap (k_mem s) ∧
       ∀ mp', mp' ≠ mp → mem_pool m' !! mp' = mem_pool (k_mem s) !! mp').
Proof.
  revert l s rs. induction os as [|o os IH]; intros l s rs HI Hp Hr; simpl in Hr |- *.
  - simplify_eq. exists s. split; [done|]. split_and!; try done. exists (k_mem s). by destruct s.
  - destruct (pool_spec o l) as [[r l1]|] eqn:Eo; [|done]. simpl in Hr.
    destruct (pool_spec_run os l1) as [[rs' l2]|] eqn:Er; [|done]. simplify_eq/=.
    assert (∃ s1, pool_exec o s = Done r s1 ∧ pool_wf mp sz PNull l1 s1 ∧ (s1 = s ∨ ∃ p P, s1 = put_pool mp p P s))
      as (s1 & E1 & W1 & D1).
    { destruct o as [|x]; simpl in Eo.
      - simplify_eq. destruct (chPoolAllocI_ok sz l s HI Hp) as (s1 & E & W & D). by exists s1.
      - case_decide as Hx; [done|]. simplify_eq. apply not_or_and in Hx as [? ?] || (assert (x ≠ 0 ∧ x ∉ l) as [? ?] by tauto).
        destruct (chPoolFreeI_ok mp sz PNull l x s HI Hp) as (s1 & E & W & D); [done..|].
        exists s1. simpl. mgo. rewrite E. mgo. split_and!; [done..|by right]. }
    assert (in_I s1) as HI1 by (destruct D1 as [->|(p & P & ->)]; done).
    destruct (IH l1 s1 rs' HI1 W1 Er) as (s' & E' & W' & I' & m' & -> & M1 & M2 & M3).
    mgo. rewrite E1. mgo. rewrite E'. mgo. eexists. split; [done|]. split_and!; [done..|].
    exists m'. destruct D1 as [->|(p & P & ->)]; [done|]. split_and!; try done.
    intros mp' Hne. rewrite M3 by done. simpl. by rewrite lookup_insert_ne.
Qed.
End Pools.
