(* ===== verification/Thd.v ===== *)
(** * Threads (os/rt/src/chthreads.c, os/rt/include/chthreads.h, chregistry.h)

    Creation, start, priority changes, sleeping, exit, thread references and
    threads queues.  A working area is named by the identifier of its thread;
    [PORT_SETUP_CONTEXT] and the stack contents belong to the port. *)

From S2P Require Import Prelude TimeMeas Kernel ThreadQueues Sys VTimers Sched.

(** ** Registry macros (chregistry.h) *)

Definition REG_INSERT (tp : tid) : M unit := modify (λ s, set_k_reg (k_reg s ++ [tp]) s).
Definition REG_REMOVE (tp : tid) : M unit :=
  modify (λ s, set_k_reg (filter (λ t, t ≠ tp) (k_reg s)) s).

Definition chRegSetThreadName (name : option string) : M unit :=
  ctp ← currp; upd_thd ctp (set_p_name name).
Definition chRegGetThreadNameX (tp : tid) : M (option string) := th ← thd tp; mret (p_name th).
Definition chRegSetThreadNameX (tp : tid) (name : option string) : M unit := upd_thd tp (set_p_name name).

(** ** Creation *)

(** The contents of the [thread_t] at the start of a working area, as the
    fill of [_thread_memfill] leaves them: every byte is [v].  Of the fields,
    [p_u], [p_msg] and [p_mpool] are not written by [_thread_init] and keep
    these values; the state, which no value [v] of the code represents, is
    written. *)
Definition _thread_memfill (v : Z) : thread :=
  let w := v * 16843009 in
  mkThread w None CH_STATE_WTSTART v v (U_msg (s32 w)) (s32 w) w None w (if w =? 0 then None else Some (Z.to_pos w)).

Definition CH_DBG_THREAD_FILL_VALUE : Z := 255.

(** The fields [_thread_init] writes, over the contents [th] of the working
    area. *)
Definition thread_fields (prio : Z) (th : thread) : thread :=
  mkThread prio None CH_STATE_WTSTART CH_FLAG_MODE_STATIC 1 (p_u th) (p_msg th) 0 None prio (p_mpool th).

(** [raw] is what the working area contains. *)
Definition _thread_init (raw : thread) (tp : tid) (prio : Z) : M tid :=
  modify (λ s, set_k_thd (<[tp := thread_fields prio raw]> (k_thd s)) s) ;;
  REG_INSERT tp ;;
  list_init (QWait tp) ;;
  queue_init (QMsg tp) ;;
  modify (λ s, set_k_pstats
    (<[tp := TM.chTMStartMeasurementX (k_rt s) TM.chTMObjectInit]> (k_pstats s)) s) ;;
  mret tp.

(** [wa0] is the port's [THD_WORKING_AREA_SIZE(0)]; a thread function is named
    by an identifier. *)
Definition chThdCreateI (wa0 : Z) (raw : thread) (wsp : tid) (size prio : Z) (pf : option positive) : M tid :=
  chDbgCheckClassI ;;
  chDbgCheck ((wa0 <=? size) && (prio <=? HIGHPRIO) && bool_decide (pf ≠ None)) "chThdCreateI" ;;
  _thread_init raw wsp prio.

Definition chThdCreateStatic (wa0 : Z) (wsp : tid) (size prio : Z) (pf : option positive) : M tid :=
  let raw := _thread_memfill CH_DBG_THREAD_FILL_VALUE in
  chSysLock ;;
  tp ← chThdCreateI wa0 raw wsp size prio pf;
  chSchWakeupS tp MSG_OK ;;
  chSysUnlock ;;
  mret tp.

Definition chThdStartI (tp : tid) : M tid :=
  th ← thd tp;
  chDbgAssert (bool_decide (p_state th = CH_STATE_WTSTART)) "chThdStartI" ;;
  chSchReadyI tp.

Definition chThdStart (tp : tid) : M tid :=
  chSysLock ;; tp ← chThdStartI tp; chSysUnlock ;; mret tp.

(** ** Inquiries and flags *)

Definition chThdGetSelfX : M tid := currp.
Definition chThdGetPriorityX : M Z := tp ← chThdGetSelfX; th ← thd tp; mret (p_prio th).
Definition chThdTerminatedX (tp : tid) : M bool :=
  th ← thd tp; mret (bool_decide (p_state th = CH_STATE_FINAL)).
Definition chThdShouldTerminateX : M bool :=
  tp ← chThdGetSelfX; th ← thd tp; mret (negb (Z.land (p_flags th) CH_FLAG_TERMINATE =? 0)).

Definition chThdSetPriority (newprio : Z) : M Z :=
  chDbgCheck (newprio <=? HIGHPRIO) "chThdSetPriority" ;;
  chSysLock ;;
  ctp ← currp;
  cth ← thd ctp;
  let oldprio := p_realprio cth in
  when ((p_prio cth =? p_realprio cth) || (p_prio cth <? newprio))
    (upd_thd ctp (set_p_prio newprio)) ;;
  upd_thd ctp (set_p_realprio newprio) ;;
  chSchRescheduleS ;;
  chSysUnlock ;;
  mret oldprio.

Definition chThdTerminate (tp : tid) : M unit :=
  chSysLock ;;
  th ← thd tp;
  upd_thd tp (set_p_flags (Z.lor (p_flags th) CH_FLAG_TERMINATE)) ;;
  chSysUnlock.

(** ** Sleeping *)

Definition chThdSleepS (time : Z) : M unit :=
  chDbgCheck (negb (time =? TIME_IMMEDIATE)) "chThdSleepS" ;;
  chSchGoSleepTimeoutS CH_STATE_SLEEPING time ;; mret ().

Definition chThdSleep (time : Z) : M unit := chSysLock ;; chThdSleepS time ;; chSysUnlock.

Definition chThdSleepUntil (time : Z) : M unit :=
  chSysLock ;;
  now ← chVTGetSystemTimeX;
  let time := u32 (time - now) in
  when (0 <? time) (chThdSleepS time) ;;
  chSysUnlock.

Definition chThdSleepUntilWindowed (prev next : Z) : M Z :=
  chSysLock ;;
  time ← chVTGetSystemTimeX;
  when (chVTIsTimeWithinX time prev next) (chThdSleepS (u32 (next - time))) ;;
  chSysUnlock ;;
  mret next.

Definition chThdYield : M unit := chSysLock ;; chSchDoYieldS ;; chSysUnlock.

(** ** Exit *)

(** [while (list_notempty(&tp->p_waiting)) chSchReadyI(list_remove(&tp->p_waiting));] *)
Fixpoint exit_release (fuel : nat) (tp : tid) : M unit :=
  match fuel with
  | O => fault
  | S fuel =>
      b ← list_notempty (QWait tp);
      if b : bool then w ← list_remove (QWait tp); chSchReadyI w ;; exit_release fuel tp
      else mret ()
  end.

Definition chThdExitS (msg : Z) : M unit :=
  tp ← currp;
  upd_thd tp (set_p_u (U_msg msg)) ;;
  n ← gets (λ s, length (qof s (QWait tp)));
  exit_release (S n) tp ;;
  th ← thd tp;
  when (Z.land (p_flags th) CH_FLAG_MODE_MASK =? CH_FLAG_MODE_STATIC) (REG_REMOVE tp) ;;
  chSchGoSleepS CH_STATE_FINAL ;;
  chDbgAssert false "chThdExitS".

Definition chThdExit (msg : Z) : M unit := chSysLock ;; chThdExitS msg.

(** ** Thread references *)

Definition tref (trp : addr) : M (option tid) := deref (λ s, k_tref s !! trp).
Definition set_tref (trp : addr) (v : option tid) : M unit :=
  modify (λ s, set_k_tref (<[trp := v]> (k_tref s)) s).

Definition chThdSuspendS (trp : addr) : M Z :=
  tp ← chThdGetSelfX;
  r ← tref trp;
  chDbgAssert (bool_decide (r = None)) "chThdSuspendS" ;;
  set_tref trp (Some tp) ;;
  upd_thd tp (set_p_u (U_wttrp trp)) ;;
  chSchGoSleepS CH_STATE_SUSPENDED ;;
  ctp ← chThdGetSelfX; rdymsg ctp.

Definition chThdSuspendTimeoutS (trp : addr) (timeout : Z) : M Z :=
  tp ← chThdGetSelfX;
  r ← tref trp;
  chDbgAssert (bool_decide (r = None)) "chThdSuspendTimeoutS" ;;
  if TIME_IMMEDIATE =? timeout then mret MSG_TIMEOUT
  else
    set_tref trp (Some tp) ;;
    upd_thd tp (set_p_u (U_wttrp trp)) ;;
    chSchGoSleepTimeoutS CH_STATE_SUSPENDED timeout.

Definition chThdResumeI (trp : addr) (msg : Z) : M unit :=
  r ← tref trp;
  match r with
  | None => mret ()
  | Some tp =>
      th ← thd tp;
      chDbgAssert (bool_decide (p_state th = CH_STATE_SUSPENDED)) "chThdResumeI" ;;
      set_tref trp None ;;
      upd_thd tp (set_p_u (U_msg msg)) ;;
      chSchReadyI tp ;; mret ()
  end.

Definition chThdResumeS (trp : addr) (msg : Z) : M unit :=
  r ← tref trp;
  match r with
  | None => mret ()
  | Some tp =>
      th ← thd tp;
      chDbgAssert (bool_decide (p_state th = CH_STATE_SUSPENDED)) "chThdResumeS" ;;
      set_tref trp None ;;
      chSchWakeupS tp msg
  end.

Definition chThdResume (trp : addr) (msg : Z) : M unit :=
  chSysLock ;; chThdResumeS trp msg ;; chSysUnlock.

(** ** Threads queues *)

Definition chThdQueueObjectInit (tqp : addr) : M unit := queue_init (QThq tqp).
Definition chThdQueueIsEmptyI (tqp : addr) : M bool := chDbgCheckClassI ;; queue_isempty (QThq tqp).

Definition chThdEnqueueTimeoutS (tqp : addr) (timeout : Z) : M Z :=
  if TIME_IMMEDIATE =? timeout then mret MSG_TIMEOUT
  else ctp ← currp; queue_insert ctp (QThq tqp) ;; chSchGoSleepTimeoutS CH_STATE_QUEUED timeout.

Definition chThdDoDequeueNextI (tqp : addr) (msg : Z) : M unit :=
  b ← queue_notempty (QThq tqp);
  chDbgAssert b "chThdDoDequeueNextI" ;;
  tp ← queue_fifo_remove (QThq tqp);
  th ← thd tp;
  chDbgAssert (bool_decide (p_state th = CH_STATE_QUEUED)) "chThdDoDequeueNextI" ;;
  upd_thd tp (set_p_u (U_msg msg)) ;;
  chSchReadyI tp ;; mret ().

Definition chThdDequeueNextI (tqp : addr) (msg : Z) : M unit :=
  b ← queue_notempty (QThq tqp); when b (chThdDoDequeueNextI tqp msg).

Fixpoint dequeue_all (fuel : nat) (tqp : addr) (msg : Z) : M unit :=
  match fuel with
  | O => fault
  | S fuel =>
      b ← queue_notempty (QThq tqp);
      if b : bool then chThdDoDequeueNextI tqp msg ;; dequeue_all fuel tqp msg else mret ()
  end.

Definition chThdDequeueAllI (tqp : addr) (msg : Z) : M unit :=
  n ← gets (λ s, length (qof s (QThq tqp))); dequeue_all (S n) tqp msg.

(** ** Results *)

(** Readying a thread that is in no queue, seen from the scheduler. *)
Lemma ready_free_sched s t th th' :
  sched_ok s → k_thd s !! t = Some th → p_prio th' = p_prio th → p_prio th ≤ prio_of s (k_cur s) →
  sched_ok (ready_st t th' s).
Proof.
  intros Hok Et Ep Hp x Hx. rewrite <-(ready_st_put t th' th) in Hx |- * by done.
  rewrite !ready_st_prio, !(prio_of_put_same t th th') by (done || apply lookup_insert_eq).
  apply ready_st_elem in Hx as [->|Hx]; [by rewrite (prio_of_thd _ _ _ Et)|by apply Hok].
Qed.

(** chThdStart readies the thread without a reschedule: it returns if the
    priority of the started thread is not above the caller's; otherwise the
    assertion of chSysUnlock halts the system. *)
Theorem chThdStart_correct s tp th :
  wf s → sched_ok s → unlocked s → k_thd s !! tp = Some th → p_state th = CH_STATE_WTSTART →
  (p_prio th ≤ prio_of s (k_cur s) →
     ∃ s', chThdStart tp s = Done tp s' ∧ wf s' ∧ sched_ok s' ∧ unlocked s' ∧ tp ∈ qof s' QReady ∧
       k_thd s' !! tp = Some (set_p_state CH_STATE_READY th)) ∧
  (prio_of s (k_cur s) < p_prio th → ∃ s', chThdStart tp s = Halt "chSysUnlock" s').
Proof.
  intros Hw Hok Hu Et Hst. destruct (chSysLock_ok s Hu) as (s1 & E1 & HS & Ec & Ethd & Eq & _).
  assert (wf s1) as W1 by by apply (wf_ext s). assert (sched_ok s1) as O1 by by apply (sched_ok_ext s).
  assert (k_thd s1 !! tp = Some th) as Et1 by by rewrite Ethd.
  assert (wf (ready_st tp th s1)) as W2 by (apply (ready_free_wf s1 tp th); by rewrite ?Hst).
  assert (prio_of s1 (k_cur s1) = prio_of s (k_cur s)) as Hpc by (unfold prio_of; by rewrite Ec, Ethd).
  assert (chThdStart tp s = rbind (chSysUnlock (ready_st tp th s1)) (λ _ s', Done tp s')) as E.
  { unfold chThdStart, chThdStartI. mgo. rewrite E1. mgo. rewrite (thd_ok _ _ _ Et1). mgo.
    rewrite bool_decide_true by done. mgo. rewrite (chSchReadyI_ok tp th); [done|by apply in_S_I|done|..].
    - congruence.
    - congruence.
    - by apply (qw_prio _ _ (wf_q _ Hw) _ _ Et). }
  split; intros Hp.
  - destruct (chSysUnlock_ok (ready_st tp th s1)) as (s' & E' & Hu' & Ec' & Ethd' & Eq' & _).
    { split_and!; [done| |done]. apply (ready_free_sched s1 tp th); try done. by rewrite Hpc. }
    exists s'. rewrite E' in E. split_and!.
    + done.
    + by apply (wf_ext (ready_st tp th s1)).
    + apply (sched_ok_ext (ready_st tp th s1)); try done.
      apply (ready_free_sched s1 tp th); try done. by rewrite Hpc.
    + done.
    + unfold qof. rewrite Eq'. apply ready_st_elem. by left.
    + rewrite Ethd', ready_st_thd, decide_True by done. done.
  - destruct (qof (ready_st tp th s1) QReady) as [|x l] eqn:Er.
    { assert (tp ∈ qof (ready_st tp th s1) QReady) as Hin by (apply ready_st_elem; by left). rewrite Er in Hin. set_solver. }
    destruct (chSysUnlock_halts (ready_st tp th s1) x l) as (s' & E'); try done.
    + rewrite ready_st_prio by done. change (k_cur (ready_st tp th s1)) with (k_cur s1). rewrite Hpc.
      assert (prio_of (ready_st tp th s1) tp ≤ prio_of (ready_st tp th s1) x) as Hx.
      { apply (sorted_first _ QReady x l); [apply W2|done|]. apply ready_st_elem. by left. }
      rewrite (ready_st_prio _ _ _ tp), (prio_of_thd _ _ _ Et1) in Hx by done. lia.
    + exists s'. by rewrite E, E'.
Qed.

(** ** Suspension *)

(** chThdSuspendTimeoutS: with TIME_IMMEDIATE it returns MSG_TIMEOUT and
    changes nothing; otherwise the reference names the caller, which sleeps in
    state SUSPENDED while the first ready thread runs, and the call returns the
    message the caller is resumed with. *)
Theorem chThdSuspendTimeoutS_correct s trp timeout ntp l :
  K s → k_tref s !! trp = Some None → vt_armed (VTLocal (k_cur s)) (k_vt s) = false →
  qof s QReady = ntp :: l →
  (timeout = TIME_IMMEDIATE → chThdSuspendTimeoutS trp timeout s = Done MSG_TIMEOUT s) ∧
  (timeout ≠ TIME_IMMEDIATE →
     ∃ s1 k, chThdSuspendTimeoutS trp timeout s = Switch s1 k ∧ K s1 ∧ k_cur s1 = ntp ∧
       k_tref s1 = <[trp := Some (k_cur s)]> (k_tref s) ∧
       (p_state <$> k_thd s1 !! k_cur s) = Some CH_STATE_SUSPENDED ∧
       (p_u <$> k_thd s1 !! k_cur s) = Some (U_wttrp trp) ∧
       ∀ s' m, resumed (k_cur s) m s' → ∃ s'', k s' = Done m s'' ∧ K s'' ∧ same_core s' s'').
Proof.
  intros HK Er Ha Hr. pose proof HK as (Hw & Hok & HS). destruct (wf_cur _ Hw) as (cth & Ec & _).
  unfold chThdSuspendTimeoutS, chThdGetSelfX, tref, set_tref. split; intros Ht.
  - mgo. unfold deref. rewrite Er. mgo.
    rewrite Ht, Z.eqb_refl. done.
  - mgo. unfold deref. rewrite Er. mgo.
    destruct (Z.eqb_spec TIME_IMMEDIATE timeout); [congruence|]. mgo.
    rewrite (upd_thd_ok _ _ cth) by done. mgo.
    set (s0 := set_k_tref (<[trp := Some (k_cur s)]> (k_tref s)) s).
    match goal with |- context [chSchGoSleepTimeoutS _ _ ?x] =>
      change x with (put_thd (k_cur s0) (set_p_u (U_wttrp trp) cth) s0) end.
    assert (wf s0) as W0 by by apply (wf_ext s).
    pose proof (free_sleep s0 cth (U_wttrp trp) CH_STATE_SUSPENDED ntp l W0 HS Ec ltac:(done) ltac:(done) Hr) as Hsl.
    destruct (chSchGoSleepTimeoutS_ok CH_STATE_SUSPENDED timeout (put_thd (k_cur s0) (set_p_u (U_wttrp trp) cth) s0))
      as (s2 & k & -> & HK2 & (sa & Hco & c2 & E2) & Hres); try done.
    { intros sa Hco. destruct (Hsl sa Hco) as (s1 & ? & ? & ? & _). eauto. }
    destruct (Hsl sa Hco) as (s1 & E1 & _ & Ho & R1 & R2 & R3 & R4 & R5).
    rewrite E1 in E2. injection E2 as <- _. exists s1, k. change (k_cur s0) with (k_cur s) in R2.
    split_and!; try done; [|by rewrite R2..].
    destruct Ho as (_ & _ & -> & _). destruct Hco as (_ & _ & _ & _ & _ & -> & _). done.
Qed.

(** chThdResumeI: an empty reference is left alone; otherwise the suspended
    thread becomes ready with the message, the reference is cleared and no other
    thread and no other queue but the ready queue changes. *)
Theorem chThdResumeI_correct s trp r msg :
  wf s → in_I s → k_tref s !! trp = Some r →
  match r with
  | None => chThdResumeI trp msg s = Done () s
  | Some t => ∀ th, k_thd s !! t = Some th → p_state th = CH_STATE_SUSPENDED →
      ∃ s', chThdResumeI trp msg s = Done () s' ∧ wf s' ∧ k_tref s' = <[trp := None]> (k_tref s) ∧
        (∀ x, k_thd s' !! x = if decide (t = x) then Some (set_p_state CH_STATE_READY (set_p_u (U_msg msg) th))
                              else k_thd s !! x) ∧
        (∀ x, x ∈ qof s' QReady ↔ x = t ∨ x ∈ qof s QReady) ∧
        (∀ q, q ≠ QReady → qof s' q = qof s q)
  end.
Proof.
  intros Hw HI Er. unfold chThdResumeI, tref, set_tref. destruct r as [t|].
  - intros th Et Hst. mgo. unfold deref. rewrite Er. mgo. rewrite (thd_ok _ _ _ Et). mgo.
    rewrite bool_decide_true by done. mgo.
    set (s0 := set_k_tref (<[trp := None]> (k_tref s)) s).
    assert (wf s0) as W0 by by apply (wf_ext s).
    rewrite (upd_thd_ok _ t th) by done. mgo.
    match goal with |- context [chSchReadyI _ ?x] => change x with (put_thd t (set_p_u (U_msg msg) th) s0) end.
    rewrite (chSchReadyI_ok t (set_p_u (U_msg msg) th)); [|done|apply lookup_insert_eq|..].
    2,3: simpl; congruence.
    2: by apply (qw_prio _ _ (wf_q _ Hw) _ _ Et).
    mgo. rewrite (ready_st_put t _ th) by done. eexists. split; [done|]. split_and!.
    + apply (ready_free_wf s0 t th); try done; by rewrite Hst.
    + done.
    + intros x. apply (ready_st_thd t (set_p_u (U_msg msg) th) s0).
    + intros x. apply (ready_st_elem t (set_p_u (U_msg msg) th) s0).
    + intros q Hq. by apply (ready_st_qof_ne t (set_p_u (U_msg msg) th) s0).
  - mgo. unfold deref. rewrite Er. mgo. done.
Qed.

(** ** Exit *)

(** All threads waiting for [tp] are readied. *)
Lemma exit_release_ok tp l : ∀ s fuel,
  wf s → in_S s → qof s (QWait tp) = l → (length l < fuel)%nat →
  ∃ s', exit_release fuel tp s = Done () s' ∧ wf s' ∧ in_S s' ∧ k_cur s' = k_cur s ∧
    qof s' (QWait tp) = [] ∧ (∀ x, x ∈ qof s' QReady ↔ x ∈ qof s QReady ∨ x ∈ l) ∧
    (∀ q, q ≠ QReady → q ≠ QWait tp → qof s' q = qof s q) ∧
    (∀ t, k_thd s' !! t = if decide (t ∈ l) then set_p_state CH_STATE_READY <$> k_thd s !! t else k_thd s !! t) ∧
    same_objs s s'.
Proof.
  induction l as [|w l IH]; intros s [|fuel] Hw HS Hq Hf; simpl in Hf; try lia; simpl.
  - unfold list_notempty, Queues.queue_notempty, Queues.queue_isempty. mgo. fold (qof s (QWait tp)).
    rewrite Hq. simpl. mgo. exists s. split_and!; try done. set_solver.
  - unfold list_notempty, list_remove, Queues.list_remove, Queues.queue_notempty, Queues.queue_isempty. mgo.
    fold (qof s (QWait tp)). rewrite Hq. simpl. mgo. unfold deref. fold (qof s (QWait tp)). rewrite Hq. mgo.
    destruct (qw_mem _ _ (wf_q _ Hw) (QWait tp) w) as (wth & Ew & Hst); [rewrite Hq; left|]. simpl in Hst.
    fold (put_q (QWait tp) l s).
    rewrite (chSchReadyI_ok w wth); [|by apply in_S_I|done|congruence|congruence|by apply (qw_prio _ _ (wf_q _ Hw) _ _ Ew)].
    mgo. pose proof (qw_nodup _ _ (wf_q _ Hw) (QWait tp)) as Hnd. rewrite Hq in Hnd.
    apply NoDup_cons in Hnd as [Hwl _]. set (s1 := ready_st w wth (put_q (QWait tp) l s)).
    assert (wf s1) as W1.
    { apply (ready_from_wf s (QWait tp) w l wth); try done; rewrite Hq; [done|by constructor]. }
    assert (qof s1 (QWait tp) = l) as Hq1.
    { unfold s1. rewrite ready_st_qof_ne by done. apply qof_put_q. }
    destruct (IH s1 fuel W1 HS Hq1) as (s' & E & R1 & R2 & R3 & R4 & R5 & R6 & R7 & R8); [lia|].
    exists s'. split_and!; try done.
    + intros x. rewrite R5. unfold s1. rewrite ready_st_elem, qof_put_q_ne by done. set_solver.
    + intros q H1 H2. rewrite R6 by done. unfold s1. rewrite ready_st_qof_ne by done. by apply qof_put_q_ne.
    + intros t. rewrite R7. unfold s1. rewrite ready_st_thd. destruct (decide (w = t)) as [<-|Hne].
      * rewrite decide_False, decide_True by set_solver. by rewrite Ew.
      * destruct (decide (t ∈ l)); [rewrite decide_True by set_solver|rewrite decide_False by set_solver]; done.
Qed.

Lemma put_u_id th : set_p_u (p_u th) th = th.
Proof. by destruct th. Qed.

(** chThdExitS: every thread waiting for the caller's end becomes ready (one
    of them may be the thread switched to), the caller is left in state FINAL
    with the exit code, a statically allocated thread leaves the registry, and
    the call never returns. *)
Theorem chThdExitS_correct s cth msg ntp l :
  K s → k_thd s !! k_cur s = Some cth → qof s QReady = ntp :: l →
  ∃ s1 k, chThdExitS msg s = Switch s1 k ∧ K s1 ∧
    (p_state <$> k_thd s1 !! k_cur s) = Some CH_STATE_FINAL ∧
    (p_u <$> k_thd s1 !! k_cur s) = Some (U_msg msg) ∧ qof s1 (QWait (k_cur s)) = [] ∧
    (∀ w, w ∈ qof s (QWait (k_cur s)) → w = k_cur s1 ∨ w ∈ qof s1 QReady) ∧
    k_reg s1 = (if Z.land (p_flags cth) CH_FLAG_MODE_MASK =? CH_FLAG_MODE_STATIC
                then filter (λ t, t ≠ k_cur s) (k_reg s) else k_reg s) ∧
    (∀ s', ∃ s'', k s' = Halt "chThdExitS" s'').
Proof.
  intros (Hw & Hok & HS) Ec Hr. destruct (wf_cur _ Hw) as (? & ? & Hc). simplify_eq.
  set (s0 := put_thd (k_cur s) (set_p_u (U_msg msg) cth) s).
  assert (wf s0) as W0.
  { apply (wf_put_cur s cth); [done|done|done|]. by apply (qw_prio _ _ (wf_q _ Hw) _ _ Ec). }
  destruct (exit_release_ok (k_cur s) (qof s (QWait (k_cur s))) s0 (S (length (qof s (QWait (k_cur s))))))
    as (s' & E & W' & HS' & Ec' & Q1 & Q2 & Q3 & T' & O'); [done|done|done|lia|].
  assert (k_thd s' !! k_cur s = Some (set_p_u (U_msg msg) cth)) as Ecth.
  { rewrite T', decide_False; [apply lookup_insert_eq|].
    by apply (qw_out _ _ (wf_q _ Hw)), elem_of_singleton. }
  destruct (qof s' QReady) as [|n' l'] eqn:Er.
  { specialize (Q2 ntp). change (qof s0 QReady) with (qof s QReady) in Q2. rewrite Hr in Q2. set_solver. }
  set (fl := Z.land (p_flags cth) CH_FLAG_MODE_MASK =? CH_FLAG_MODE_STATIC).
  set (s2 := if fl then set_k_reg (filter (λ t, t ≠ k_cur s) (k_reg s')) s' else s').
  assert (k_cur s2 = k_cur s' ∧ k_thd s2 = k_thd s' ∧ k_q s2 = k_q s' ∧ in_S s2) as (F1 & F2 & F3 & F4)
    by (unfold s2; by destruct fl).
  change (k_cur s0) with (k_cur s) in Ec'.
  assert (k_thd s2 !! k_cur s2 = Some (set_p_u (U_msg msg) cth)) as Ecth2 by by rewrite F1, F2, Ec'.
  destruct (free_sleep s2 (set_p_u (U_msg msg) cth) (U_msg msg) CH_STATE_FINAL n' l') with (s0 := s2)
    as (s1 & E1 & K1 & O1 & N1 & N2 & N3 & N4 & N5); try done.
  { by apply (wf_ext s'). }
  { unfold qof. by rewrite F3. }
  { unfold same_core, put_thd. simpl. by rewrite insert_id by (rewrite Ecth2; done). }
  rewrite F1, Ec' in N2. eexists s1, _. split.
  { unfold chThdExitS. mgo. rewrite (upd_thd_ok _ _ _ _ Ec). mgo.
    match goal with |- context [exit_release ?n _ ?x] =>
      change n with (S (length (qof s (QWait (k_cur s))))); change x with s0 end.
    rewrite E. mgo.
    rewrite (thd_ok _ _ _ Ecth). mgo. simpl p_flags. fold fl. unfold REG_REMOVE.
    unfold s2 in E1. destruct fl; mgo; rewrite E1; mgo; done. }
  split_and!; try done.
  - by rewrite N2.
  - by rewrite N2.
  - rewrite N4 by done. unfold qof. rewrite F3. exact Q1.
  - intros w Hwt. assert (w ∈ n' :: l') as [->|Hin]%elem_of_cons by (apply Q2; by right).
    + left. congruence.
    + right. by rewrite N3.
  - destruct O1 as (_&_&_&_&_&_&_&_&_&_&_&_&_& -> & _). unfold s2.
    destruct O' as (_&_&_&_&_&_&_&_&_&_&_&_&_& O' & _). destruct fl; simpl; by rewrite O'.
  - intros sx. mgo. eexists. done.
Qed.

(** ** Priority changes *)

(** The new priorities of the caller. *)
Definition reprio_self (newprio : Z) (cth : thread) : thread :=
  set_p_realprio newprio
    (set_p_prio (if (p_prio cth =? p_realprio cth) || (p_prio cth <? newprio) then newprio else p_prio cth) cth).

(** chThdSetPriority up to the reschedule. *)
Lemma chThdSetPriority_eq s cth newprio :
  user s → k_thd s !! k_cur s = Some cth → NOPRIO < newprio ≤ HIGHPRIO →
  ∃ s1, same_data s s1 ∧ K s1 ∧ wf (put_thd (k_cur s) (reprio_self newprio cth) s1) ∧
    chThdSetPriority newprio s =
      rbind (chSchRescheduleS (put_thd (k_cur s) (reprio_self newprio cth) s1))
        (λ _ x, rbind (chSysUnlock x) (λ _ y, Done (p_realprio cth) y)).
Proof.
  intros Hu Ec Hp. destruct (lock_user s Hu) as (s1 & E1 & K1 & Hd). pose proof K1 as (W1 & _ & _).
  pose proof Hd as (D1 & D2 & _). rewrite <-D1, <-D2 in Ec. exists s1. rewrite <-D1. split_and!; try done.
  - destruct (wf_cur _ W1) as (? & ? & Hc). simplify_eq. apply (wf_put_cur s1 cth); try done. simpl.
    case_match; [lia|]. by apply (qw_prio _ _ (wf_q _ W1) _ _ Ec).
  - unfold chThdSetPriority. mgo. destruct (Z.leb_spec newprio HIGHPRIO); [|lia]. mgo. rewrite E1. mgo.
    rewrite (thd_ok _ _ _ Ec). mgo. unfold reprio_self. destruct ((p_prio cth =? p_realprio cth) || (p_prio cth <? newprio)).
    + mgo. rewrite (upd_thd_ok _ _ _ _ Ec). mgo.
      rewrite (upd_thd_ok _ _ (set_p_prio newprio cth)) by apply lookup_insert_eq. mgo.
      fold (put_thd (k_cur s1) (set_p_prio newprio cth) s1).
      fold (put_thd (k_cur s1) (set_p_realprio newprio (set_p_prio newprio cth)) (put_thd (k_cur s1) (set_p_prio newprio cth) s1)).
      by rewrite put_thd_thd.
    + mgo. rewrite (upd_thd_ok _ _ _ _ Ec). mgo. by destruct cth.
Qed.

(** chThdSetPriority: the caller's own priority becomes [newprio]; its
    effective priority follows unless it is inherited and higher; the old
    priority is returned, and the kernel is left with the highest priority
    thread running: every context switch and the return satisfy the scheduler
    invariants. *)
Theorem chThdSetPriority_correct s cth newprio :
  user s → k_thd s !! k_cur s = Some cth → NOPRIO < newprio ≤ HIGHPRIO →
  ∃ s2, chThdSetPriority newprio s =
      rbind (chSchRescheduleS s2) (λ _ x, rbind (chSysUnlock x) (λ _ y, Done (p_realprio cth) y)) ∧
    wf s2 ∧ in_S s2 ∧
    k_thd s2 = <[k_cur s := set_p_realprio newprio
      (set_p_prio (if (p_prio cth =? p_realprio cth) || (p_prio cth <? newprio) then newprio else p_prio cth) cth)]>
      (k_thd s) ∧ k_q s2 = k_q s ∧
    post K K (chThdSetPriority newprio s) (λ r s', r = p_realprio cth ∧ user s').
Proof.
  intros Hu Ec Hp. destruct (chThdSetPriority_eq s cth newprio Hu Ec Hp) as (s1 & D & (_ & _ & HS1) & W2 & E).
  pose proof D as (D1 & D2 & D3 & _). exists (put_thd (k_cur s) (reprio_self newprio cth) s1). split_and!; try done.
  - simpl. by rewrite D2.
  - rewrite E. by apply resched_unlock_post.
Qed.

(** ** Creation *)

Definition created_st (raw : thread) (tp : tid) (prio : Z) (s : kst) : kst :=
  let s1 := put_thd tp (thread_fields prio raw) s in
  let s2 := set_k_reg (k_reg s ++ [tp]) s1 in
  let s3 := put_q (QMsg tp) [] (put_q (QWait tp) [] s2) in
  set_k_pstats (<[tp := TM.chTMStartMeasurementX (k_rt s) TM.chTMObjectInit]> (k_pstats s)) s3.

Lemma created_qof raw s tp prio q :
  qof s (QWait tp) = [] → qof s (QMsg tp) = [] → qof (created_st raw tp prio s) q = qof s q.
Proof.
  intros H1 H2. change (qof (put_q (QMsg tp) [] (put_q (QWait tp) [] s)) q = qof s q).
  destruct (decide (q = QMsg tp)) as [->|]; [by rewrite qof_put_q|].
  rewrite qof_put_q_ne by done. destruct (decide (q = QWait tp)) as [->|]; [by rewrite qof_put_q|].
  by rewrite qof_put_q_ne.
Qed.

(** A state [s'] that differs from [s] by a new thread, which is in no queue. *)
Section Created.
Context (s s' : kst) (tp : tid) (th : thread).
Hypothesis HK : K s.
Hypothesis Hn : k_thd s !! tp = None.
Hypothesis Et : k_thd s' = <[tp := th]> (k_thd s).
Hypothesis Eq : ∀ q, qof s' q = qof s q.
Hypothesis Ec : k_cur s' = k_cur s.
Hypothesis Hp : NOPRIO < p_prio th.
Hypothesis Hst : p_state th = CH_STATE_WTSTART.

Lemma created_pre :
  qwf {[k_cur s'; tp]} s' ∧ sched_ok s' ∧ tp ≠ k_cur s' ∧
  (∃ cth, k_thd s !! k_cur s = Some cth ∧ k_thd s' !! k_cur s' = Some cth ∧ p_state cth = CH_STATE_CURRENT) ∧
  (∀ x thx, k_thd s' !! x = Some thx → p_state thx = CH_STATE_CURRENT → x = k_cur s').
Proof using All.
  destruct HK as (Hw & Hok & _). destruct (wf_cur _ Hw) as (cth & Ecth & Hc).
  assert (tp ≠ k_cur s) as Hne by congruence.
  assert (∀ q, tp ∉ qof s q) as Hout.
  { intros q Hq. destruct (qw_mem _ _ (wf_q _ Hw) q tp Hq) as (? & ? & _). congruence. }
  assert (∀ x, x ≠ tp → prio_of s' x = prio_of s x) as Hpr.
  { intros x Hx. unfold prio_of. rewrite Et. by rewrite lookup_insert_ne by done. }
  rewrite Ec. split_and!; [..|done| |].
  - apply (qwf_qof_ext _ (put_thd tp th s)); [done|by intros q; rewrite Eq|].
    rewrite (union_comm_L {[k_cur s]}). apply qwf_thd_out; [|by apply elem_of_union_l, elem_of_singleton|done].
    by apply qwf_add; [apply Hw|].
  - intros x. rewrite Eq. intros Hx. rewrite Ec, !Hpr; [by apply Hok|done|]. intros ->. by apply (Hout QReady).
  - exists cth. rewrite Et. by rewrite lookup_insert_ne.
  - intros x thx. rewrite Et, lookup_insert. case_decide; [intros [= <-]; congruence|]. apply (wf_uniq _ Hw).
Qed.

Lemma wakeup_created {A} (a : A) msg :
  in_S s' →
  post K K (rbind (chSchWakeupS tp msg s') (λ _ x, rbind (chSysUnlock x) (λ _ y, Done a y))) (λ r s', r = a ∧ user s').
Proof using All.
  intros HS. destruct created_pre as (H1 & H2 & H3 & (cth & _ & H4 & H5) & H6).
  apply (wakeup_unlock_post a s' tp th); try done; [by exists cth|rewrite Et; apply lookup_insert_eq|by rewrite Hst..].
Qed.

(** A new thread of lower priority does not preempt. *)
Lemma wakeup_created_behind msg :
  in_S s' → p_prio th ≤ prio_of s (k_cur s) →
  ∃ s2, chSchWakeupS tp msg s' = Done () s2 ∧ K s2 ∧ k_cur s2 = k_cur s ∧ same_objs s' s2 ∧
    k_thd s2 = <[tp := set_p_state CH_STATE_READY (set_p_u (U_msg msg) th)]> (k_thd s) ∧
    (∀ q, q ≠ QReady → qof s2 q = qof s q) ∧ (∀ x, x ∈ qof s2 QReady ↔ x = tp ∨ x ∈ qof s QReady).
Proof using All.
  intros HS Hle. destruct created_pre as (H1 & H2 & H3 & (cth & Ecth & H4 & H5) & H6).
  assert (k_thd s' !! tp = Some th) as Etp by (rewrite Et; apply lookup_insert_eq).
  rewrite (prio_of_thd _ _ _ Ecth) in Hle. eexists. split.
  { rewrite (chSchWakeupS_ok s' tp th cth msg); try done; [|by rewrite Hst].
    destruct (Z.leb_spec (p_prio th) (p_prio cth)); [done|lia]. }
  split; [apply (wake_ready_K s' tp th cth msg); try done; by rewrite Hst|].
  split_and!; try done.
  - simpl. by rewrite Et, !insert_insert_eq.
  - intros q Hq. by rewrite ready_st_qof_ne, qof_put_thd, Eq.
  - intros x. by rewrite ready_st_elem, qof_put_thd, Eq.
Qed.
End Created.

Lemma chThdCreateI_ok wa0 raw tp size prio pf s :
  in_I s → wa0 ≤ size → prio ≤ HIGHPRIO → pf ≠ None →
  chThdCreateI wa0 raw tp size prio pf s = Done tp (created_st raw tp prio s).
Proof.
  intros HI H1 H2 H3. unfold chThdCreateI, _thread_init, REG_INSERT, list_init, queue_init. mgo.
  rewrite (classI_ok s HI). mgo. destruct (Z.leb_spec wa0 size), (Z.leb_spec prio HIGHPRIO); try lia.
  rewrite bool_decide_true by done. cbn [andb]. mgo. done.
Qed.

(** chThdCreateStatic up to the wakeup of the new thread. *)
Lemma chThdCreateStatic_eq wa0 tp size prio pf s :
  user s → wa0 ≤ size → prio ≤ HIGHPRIO → pf ≠ None →
  ∃ s1, same_data s s1 ∧ K s1 ∧
    chThdCreateStatic wa0 tp size prio pf s =
      rbind (chSchWakeupS tp MSG_OK (created_st (_thread_memfill CH_DBG_THREAD_FILL_VALUE) tp prio s1))
        (λ _ x, rbind (chSysUnlock x) (λ _ y, Done tp y)).
Proof.
  intros Hu H1 H2 H3. destruct (lock_user s Hu) as (s1 & E1 & K1 & D1). exists s1. split_and!; try done.
  unfold chThdCreateStatic. mgo. rewrite E1. mgo.
  rewrite chThdCreateI_ok; [|apply in_S_I, K1|done|lia|done]. by mgo.
Qed.

(** chThdCreateStatic on a fresh working area: the new thread is registered
    last with the given priority, an empty event and mutex state, one reference
    and no pending messages; it is readied or runs at once if its priority is
    higher, and the scheduler invariants hold at the context switch and at the
    return. *)
Theorem chThdCreateStatic_correct wa0 tp size prio pf s :
  user s → k_thd s !! tp = None → qof s (QWait tp) = [] → qof s (QMsg tp) = [] →
  wa0 ≤ size → NOPRIO < prio ≤ HIGHPRIO → pf ≠ None →
  let raw := _thread_memfill CH_DBG_THREAD_FILL_VALUE in
  ∃ s1, same_data s s1 ∧
    k_thd (created_st raw tp prio s1) !! tp
      = Some (mkThread prio None CH_STATE_WTSTART 0 1 (U_msg (-1)) (-1) 0 None prio (Some 4294967295%positive)) ∧
    k_reg (created_st raw tp prio s1) = k_reg s ++ [tp] ∧
    (∀ q, tp ∉ qof (created_st raw tp prio s1) q) ∧
    chThdCreateStatic wa0 tp size prio pf s =
      rbind (chSchWakeupS tp MSG_OK (created_st raw tp prio s1))
        (λ _ x, rbind (chSysUnlock x) (λ _ y, Done tp y)) ∧
    post K K (chThdCreateStatic wa0 tp size prio pf s) (λ r s', r = tp ∧ user s').
Proof.
  intros Hu Hn Hq1 Hq2 Hsz Hp Hpf raw.
  destruct (chThdCreateStatic_eq wa0 tp size prio pf s Hu Hsz ltac:(lia) Hpf) as (s1 & Hd & K1 & E).
  pose proof K1 as (W1 & _ & _). pose proof Hd as (D1 & D2 & D3 & D4 & _).
  assert (k_thd s1 !! tp = None) as Hn1 by by rewrite D2.
  assert (qof s1 (QWait tp) = [] ∧ qof s1 (QMsg tp) = []) as [Q1 Q2] by (unfold qof; by rewrite D3).
  exists s1. split_and!; try done.
  - simpl. rewrite lookup_insert_eq. done.
  - simpl. by rewrite D4.
  - intros q. rewrite created_qof by done. intros Hq.
    destruct (qw_mem _ _ (wf_q _ W1) q tp Hq) as (? & ? & _). congruence.
  - rewrite E. apply (wakeup_created s1 _ tp (thread_fields prio raw)); try done; [|simpl; lia|apply K1].
    intros q. by apply created_qof.
Qed.

(** ** Threads queues *)

(** The state after the oldest thread of a queue, if any, is readied with [msg]. *)
Definition dequeue_next_st (tqp : addr) (msg : Z) (s : kst) : kst :=
  match qof s (QThq tqp) with
  | [] => s
  | t :: l => match k_thd s !! t with Some th => wake_st (QThq tqp) l t th msg s | None => s end
  end.

Lemma dequeue_next_ok tqp msg s :
  wf s → in_I s → chThdDequeueNextI tqp msg s = Done () (dequeue_next_st tqp msg s).
Proof.
  intros Hw HI. unfold chThdDequeueNextI, chThdDoDequeueNextI, dequeue_next_st, queue_notempty,
    Queues.queue_notempty, Queues.queue_isempty. mgo. fold (qof s (QThq tqp)).
  destruct (qof s (QThq tqp)) as [|t l] eqn:Hq; simpl; mgo; [done|].
  fold (qof s (QThq tqp)). rewrite Hq. simpl. mgo. rewrite (queue_fifo_remove_ok (QThq tqp) t l) by done. mgo.
  destruct (qw_mem _ _ (wf_q _ Hw) (QThq tqp) t) as (th & Et & Hst); [rewrite Hq; left|]. simpl in Hst. rewrite Et.
  rewrite (thd_ok _ _ th) by done. mgo. rewrite bool_decide_true by done. mgo.
  assert (qof s (QThq tqp) ≡ₚ t :: l) as Hp by by rewrite Hq.
  pose proof (wake_code_set_first s (QThq tqp) t l th msg Hw Hp ltac:(done) Et HI) as Hwk.
  apply rbind_done_inv in Hwk as ([] & sa & -> & Hwk). mgo. rewrite Hwk. mgo. done.
Qed.

Lemma dequeue_next_facts tqp msg s :
  wf s →
  let s' := dequeue_next_st tqp msg s in
  wf s' ∧ k_cur s' = k_cur s ∧ k_isr s' = k_isr s ∧ k_lock s' = k_lock s ∧ k_ioq s' = k_ioq s ∧
  qof s' (QThq tqp) = tail (qof s (QThq tqp)) ∧
  (∀ t, k_thd s' !! t = if decide (head (qof s (QThq tqp)) = Some t)
     then set_p_state CH_STATE_READY ∘ set_p_u (U_msg msg) <$> k_thd s !! t else k_thd s !! t).
Proof.
  intros Hw s'. unfold s', dequeue_next_st. destruct (qof s (QThq tqp)) as [|t l] eqn:Hq; cbn [head tail].
  - split_and!; try done.
  - destruct (qw_mem _ _ (wf_q _ Hw) (QThq tqp) t) as (th & Et & _); [rewrite Hq; left|]. rewrite Et.
    split_and!; try done.
    + apply wake_st_wf; try done; rewrite Hq; [done|by constructor].
    + by apply wake_st_q.
    + intros x. rewrite wake_st_thd. destruct (decide (t = x)) as [<-|Hne].
      * rewrite decide_True by done. by rewrite Et.
      * rewrite decide_False by congruence. done.
Qed.

Lemma dequeue_next_events tqp msg s :
  k_evl (dequeue_next_st tqp msg s) = k_evl s ∧ k_evs (dequeue_next_st tqp msg s) = k_evs s.
Proof. unfold dequeue_next_st. destruct (qof s (QThq tqp)) as [|t l]; [done|]. by destruct (k_thd s !! t). Qed.

(** A step of the loop over a queue that holds a thread. *)
Lemma dequeue_all_step fuel tqp msg s t l :
  wf s → in_I s → qof s (QThq tqp) = t :: l →
  dequeue_all (S fuel) tqp msg s = dequeue_all fuel tqp msg (dequeue_next_st tqp msg s).
Proof.
  intros Hw HI Hq. pose proof (dequeue_next_ok tqp msg s Hw HI) as E. revert E.
  unfold chThdDequeueNextI. cbn [dequeue_all]. mgo.
  assert (queue_notempty (QThq tqp) s = Done true s) as ->.
  { unfold queue_notempty, Queues.queue_notempty, Queues.queue_isempty. mgo. fold (qof s (QThq tqp)). by rewrite Hq. }
  mgo. intros ->. by mgo.
Qed.

(** The whole queue is emptied and its threads are ready with [msg]. *)
Lemma dequeue_all_ok tqp msg : ∀ fuel s, wf s → in_I s → (length (qof s (QThq tqp)) < fuel)%nat →
  ∃ s', dequeue_all fuel tqp msg s = Done () s' ∧ wf s' ∧ k_cur s' = k_cur s ∧ k_isr s' = k_isr s ∧ k_lock s' = k_lock s ∧
    k_ioq s' = k_ioq s ∧ qof s' (QThq tqp) = [] ∧
    (∀ t, k_thd s' !! t = if decide (t ∈ qof s (QThq tqp))
       then set_p_state CH_STATE_READY ∘ set_p_u (U_msg msg) <$> k_thd s !! t else k_thd s !! t).
Proof.
  induction fuel as [|fuel IH]; intros s Hw HI Hf; [lia|]. destruct (qof s (QThq tqp)) as [|x l] eqn:Hq.
  - exists s. cbn [dequeue_all]. unfold queue_notempty, Queues.queue_notempty, Queues.queue_isempty. mgo.
    fold (qof s (QThq tqp)). rewrite Hq. split_and!; try done.
  - rewrite (dequeue_all_step _ _ _ _ x l) by done.
    destruct (dequeue_next_facts tqp msg s Hw) as (W1 & C1 & I1 & L1 & Q1 & H1 & T1). rewrite Hq in *. cbn [tail head] in *.
    destruct (IH (dequeue_next_st tqp msg s)) as (s' & E & W2 & C2 & I2 & L2 & Q2 & H2 & T2).
    { done. } { unfold in_I. by rewrite I1, L1. } { rewrite H1. simpl in Hf. lia. }
    exists s'. split; [done|]. split_and!; try done; try congruence. intros t. rewrite T2, H1, T1.
    pose proof (qw_nodup _ _ (wf_q _ Hw) (QThq tqp)) as Hnd. rewrite Hq in Hnd. apply NoDup_cons in Hnd as [Hx _].
    destruct (decide (t ∈ l)) as [Ht|Ht].
    + rewrite decide_False by congruence. by rewrite decide_True by by right.
    + destruct (decide (Some x = Some t)) as [[= ->]|Hne]; [by rewrite decide_True by by left|].
      rewrite decide_False; [done|]. intros [->|]%elem_of_cons; [by destruct Hne|done].
Qed.
