(* ===== verification/Dynamic.v ===== *)
(** * Dynamic threads and the registry (os/rt/src/chdynamic.c, chregistry.c,
      chThdWait of chthreads.c)

    Reference counted threads whose working areas come from a heap or a pool,
    and the walk over the registered threads.  A thread is identified by the
    address of its [thread_t], which is the start of its working area. *)

From S2P Require Import Prelude TimeMeas Kernel ThreadQueues Sys VTimers Sched Mtx Memory Thd.

(** ** References *)

Definition chThdAddRef (tp : tid) : M tid :=
  chSysLock ;;
  th ← thd tp;
  chDbgAssert (p_refs th <? 255) "chThdAddRef" ;;
  upd_thd tp (set_p_refs (u8 (p_refs th + 1))) ;;
  chSysUnlock ;;
  mret tp.

(** The last reference to a terminated thread frees its working area. *)
Definition chThdRelease (tp : tid) : M unit :=
  chSysLock ;;
  th ← thd tp;
  chDbgAssert (0 <? p_refs th) "chThdRelease" ;;
  upd_thd tp (set_p_refs (u8 (p_refs th - 1))) ;;
  th ← thd tp;
  let refs := p_refs th in
  chSysUnlock ;;
  th ← thd tp;
  if (refs =? 0) && bool_decide (p_state th = CH_STATE_FINAL) then
    let mode := Z.land (p_flags th) CH_FLAG_MODE_MASK in
    if mode =? CH_FLAG_MODE_HEAP then REG_REMOVE tp ;; chHeapFree (Z.pos tp)
    else if mode =? CH_FLAG_MODE_MPOOL then
      REG_REMOVE tp ;;
      match p_mpool th with Some mp => chPoolFree mp (Z.pos tp) | None => fault end
    else mret ()
  else mret ().

(** ** Waiting for a thread *)

Definition exitcode (tp : tid) : M Z :=
  th ← thd tp; match p_u th with U_msg m => mret m | _ => fault end.

Definition chThdWait (tp : tid) : M Z :=
  chSysLock ;;
  ctp ← currp;
  chDbgAssert (negb (bool_decide (tp = ctp))) "chThdWait" ;;
  th ← thd tp;
  chDbgAssert (0 <? p_refs th) "chThdWait" ;;
  when (negb (bool_decide (p_state th = CH_STATE_FINAL)))
    (list_insert ctp (QWait tp) ;; chSchGoSleepS CH_STATE_WTEXIT) ;;
  msg ← exitcode tp;
  chSysUnlock ;;
  chThdRelease tp ;;
  mret msg.

(** ** Creation in allocated memory *)

Section Create.
Variable user_provider : positive → Z → M Z.

Definition chThdCreateFromHeap (wa0 : Z) (heapp : option addr) (size prio : Z) (pf : option positive) : M (option tid) :=
  wsp ← chHeapAlloc user_provider heapp size;
  if wsp =? 0 then mret None
  else
    let raw := _thread_memfill CH_DBG_THREAD_FILL_VALUE in
    chSysLock ;;
    tp ← chThdCreateI wa0 raw (Z.to_pos wsp) size prio pf;
    upd_thd tp (set_p_flags CH_FLAG_MODE_HEAP) ;;
    chSchWakeupS tp MSG_OK ;;
    chSysUnlock ;;
    mret (Some tp).

Definition chThdCreateFromMemoryPool (wa0 : Z) (mp : addr) (prio : Z) (pf : option positive) : M (option tid) :=
  wsp ← chPoolAlloc user_provider mp;
  if wsp =? 0 then mret None
  else
    let raw := _thread_memfill CH_DBG_THREAD_FILL_VALUE in
    chSysLock ;;
    p ← pool_of mp;
    tp ← chThdCreateI wa0 raw (Z.to_pos wsp) (mp_object_size p) prio pf;
    upd_thd tp (set_p_flags CH_FLAG_MODE_MPOOL) ;;
    upd_thd tp (set_p_mpool (Some mp)) ;;
    chSchWakeupS tp MSG_OK ;;
    chSysUnlock ;;
    mret (Some tp).
End Create.

(** ** Registry *)

(** An empty registry has the list header as its first thread. *)
Definition chRegFirstThread : M tid :=
  chSysLock ;;
  tp ← deref (λ s, head (k_reg s));
  th ← thd tp;
  upd_thd tp (set_p_refs (u8 (p_refs th + 1))) ;;
  chSysUnlock ;;
  mret tp.

(** [tp->p_newer]: [Some None] is the list header, [None] a thread that is not
    registered. *)
Fixpoint p_newer (tp : tid) (l : list tid) : option (option tid) :=
  match l with
  | [] => None
  | t :: l' => if decide (t = tp) then Some (head l') else p_newer tp l'
  end.

Definition chRegNextThread (tp : tid) : M (option tid) :=
  chSysLock ;;
  ntp ← deref (λ s, p_newer tp (k_reg s));
  match ntp with
  | None => mret ()
  | Some n =>
      th ← thd n;
      chDbgAssert (p_refs th <? 255) "chRegNextThread" ;;
      upd_thd n (set_p_refs (u8 (p_refs th + 1)))
  end ;;
  chSysUnlock ;;
  chThdRelease tp ;;
  mret ntp.

(** The usual walk: [tp = chRegFirstThread(); do ... while ((tp =
    chRegNextThread(tp)) != NULL)], collecting the threads. *)
Fixpoint reg_walk_from (fuel : nat) (tp : tid) : M (list tid) :=
  match fuel with
  | O => fault
  | S fuel =>
      n ← chRegNextThread tp;
      match n with
      | None => mret [tp]
      | Some n => l ← reg_walk_from fuel n; mret (tp :: l)
      end
  end.
Definition reg_walk (fuel : nat) : M (list tid) := tp ← chRegFirstThread; reg_walk_from fuel tp.

(** ** Locked updates of a thread's other fields *)

(** What the kernel looks at in a thread. *)
Definition same_sched (th th' : thread) : Prop :=
  p_prio th' = p_prio th ∧ p_state th' = p_state th ∧ p_u th' = p_u th.

Lemma K_put_same s t th th' : K s → k_thd s !! t = Some th → same_sched th th' → K (put_thd t th' s).
Proof.
  intros (Hw & Hok & HS) Et (E1 & E2 & E3).
  split_and!; [by apply (wf_put_same s t th)|by apply (sched_ok_put_same s t th)|done].
Qed.

#[export] Instance same_data_trans : Transitive same_data.
Proof. intros s1 s2 s3. unfold same_data. intuition congruence. Qed.

Lemma same_data_put t th s s' : same_data s s' → same_data (put_thd t th s) (put_thd t th s').
Proof. unfold same_data. simpl. intuition congruence. Qed.

(** [chSysLock(); tp->... = ...; chSysUnlock();] *)
Lemma locked_put t th th' s :
  user s → k_thd s !! t = Some th → same_sched th th' →
  ∃ s1 s2, chSysLock s = Done () s1 ∧ same_data s s1 ∧ k_thd s1 !! t = Some th ∧
    chSysUnlock (put_thd t th' s1) = Done () s2 ∧ user s2 ∧ same_data (put_thd t th' s) s2.
Proof.
  intros Hu Et Hss. destruct (lock_user s Hu) as (s1 & E1 & K1 & D1).
  assert (k_thd s1 !! t = Some th) as Et1 by (destruct D1 as (_ & -> & _); done).
  destruct (unlock_user _ (K_put_same s1 t th th' K1 Et1 Hss)) as (s2 & E2 & U2 & D2).
  exists s1, s2. split_and!; try done. etrans; [by apply same_data_put|done].
Qed.

Lemma mtx_wf_put s t th th' :
  mtx_wf s → k_thd s !! t = Some th → p_prio th' = p_prio th → p_mtxlist th' = p_mtxlist th → mtx_wf (put_thd t th' s).
Proof.
  intros [Hsh Hpi] Et Ep El. pose proof (λ x, prio_of_put_same t th th' s x Et Ep) as Hp.
  split; [split|].
  - intros x thx. simpl. rewrite lookup_insert. case_decide; [|by apply (ms_own _ Hsh)].
    subst x. intros [= <-]. rewrite El. by apply (ms_own _ Hsh).
  - intros m x Ho. simpl. apply lookup_insert_is_Some'. right. by apply (ms_live _ Hsh m).
  - apply (ms_held _ Hsh).
  - intros m. apply (StronglySorted_impl (by_prio s)); [|apply (ms_sorted _ Hsh m)].
    intros x y _ _. unfold by_prio. by rewrite !Hp.
  - intros m x w Ho Hw. rewrite !Hp. by apply (Hpi m).
Qed.

(** ** Releasing a reference *)

(** The part of chThdRelease in the critical section. *)
Lemma release_lock tp th s :
  user s → k_thd s !! tp = Some th → 0 < p_refs th ≤ 255 →
  ∃ s2, user s2 ∧ same_data (put_thd tp (set_p_refs (p_refs th - 1) th) s) s2 ∧
    chThdRelease tp s =
      (if (p_refs th - 1 =? 0) && bool_decide (p_state th = CH_STATE_FINAL) then
         let mode := Z.land (p_flags th) CH_FLAG_MODE_MASK in
         if mode =? CH_FLAG_MODE_HEAP then REG_REMOVE tp ;; chHeapFree (Z.pos tp)
         else if mode =? CH_FLAG_MODE_MPOOL then
           REG_REMOVE tp ;;
           match p_mpool th with Some mp => chPoolFree mp (Z.pos tp) | None => fault end
         else mret ()
       else mret ()) s2.
Proof.
  intros Hu Et Hr. set (th' := set_p_refs (p_refs th - 1) th).
  destruct (locked_put tp th th' s Hu Et ltac:(done)) as (s1 & s2 & E1 & D1 & Et1 & E2 & U2 & D2).
  exists s2. split_and!; try done. unfold chThdRelease. mgo. rewrite E1. mgo. rewrite (thd_ok _ _ _ Et1). mgo.
  destruct (Z.ltb_spec 0 (p_refs th)); [|lia]. mgo. rewrite (upd_thd_ok _ _ _ _ Et1). mgo.
  assert (u8 (p_refs th - 1) = p_refs th - 1) as -> by (apply Z.mod_small; lia). fold th'.
  rewrite (thd_ok _ tp th') by (simpl; apply lookup_insert_eq). mgo.
  change (set_k_thd (<[tp := th']> (k_thd s1)) s1) with (put_thd tp th' s1). rewrite E2. mgo.
  rewrite (thd_ok _ tp th'); [mgo; done|]. destruct D2 as (_ & -> & _). simpl. apply lookup_insert_eq.
Qed.

(** Releasing a reference that is not the last, or of a living thread. *)
Lemma release_keep tp th s :
  user s → k_thd s !! tp = Some th → 0 < p_refs th ≤ 255 → p_refs th ≠ 1 ∨ p_state th ≠ CH_STATE_FINAL →
  ∃ s', chThdRelease tp s = Done () s' ∧ user s' ∧ same_data (put_thd tp (set_p_refs (p_refs th - 1) th) s) s'.
Proof.
  intros Hu Et Hr Hk. destruct (release_lock tp th s Hu Et Hr) as (s2 & U2 & D2 & ->). exists s2.
  assert ((p_refs th - 1 =? 0) && bool_decide (p_state th = CH_STATE_FINAL) = false) as ->; [|done].
  apply andb_false_iff. destruct Hk; [left; apply Z.eqb_neq; lia|right; by apply bool_decide_eq_false].
Qed.

Lemma user_reg r s : user s → user (set_k_reg r s).
Proof. by apply user_ext. Qed.

(** Releasing the last reference to a terminated thread of a heap. *)
Lemma release_last heapp h l b tp th s :
  user s → mtx_wf s → k_thd s !! tp = Some th → p_refs th = 1 → p_state th = CH_STATE_FINAL →
  Z.land (p_flags th) CH_FLAG_MODE_MASK = CH_FLAG_MODE_HEAP →
  heap_wf heapp h l s → used heapp h b s → Forall (disjoint_blocks b) l → b.1 + HDR = Z.pos tp →
  ∃ s', chThdRelease tp s = Done () s' ∧ user s' ∧ mtx_wf s' ∧ heap_wf heapp h (free_list b l) s' ∧
    same_kernel (set_k_reg (filter (λ t, t ≠ tp) (k_reg s)) (put_thd tp (set_p_refs (p_refs th - 1) th) s)) s' ∧
    (∀ c, used heapp h c s → Forall (disjoint_blocks c) l → c.1 ≠ b.1 → used heapp h c s').
Proof.
  intros Hu Hm Et H1 Hf Hmode Hh Hb Hd Hbt.
  destruct (release_lock tp th s Hu Et ltac:(lia)) as (s2 & U2 & D2 & ->).
  rewrite H1, Hf, bool_decide_true, Hmode by done. simpl. unfold REG_REMOVE. mgo.
  set (s3 := set_k_reg _ s2). destruct (same_data_kernel _ _ D2) as (K2 & X2 & Y2). simpl in X2, Y2.
  pose proof K2 as (_ & T2 & Q2 & R2 & _). simpl in T2, Q2, R2.
  assert (mtx_wf s3) as Hm3.
  { apply (mtx_wf_ext (put_thd tp (set_p_refs (p_refs th - 1) th) s)); [done..|]. by apply (mtx_wf_put s tp th). }
  assert (heap_wf heapp h l s3) as Hh3 by (unfold heap_wf; simpl; rewrite X2, Y2; exact Hh).
  assert (∀ c, used heapp h c s → used heapp h c s3) as Hus by (intros c; unfold used; simpl; by rewrite Y2).
  destruct (chHeapFree_ok s3 heapp h l b (user_reg _ _ U2) Hm3 Hh3 (Hus _ Hb) Hd) as (s4 & E4 & U4 & M4 & S4 & H4 & _ & Hk4).
  exists s4. rewrite <-Hbt. split_and!; try done; [|by intros c Hc; apply Hk4, Hus].
  unfold same_kernel in *. subst s3. simpl in *. rewrite H1 in *. simpl in *. rewrite R2 in S4. intuition congruence.
Qed.

(** chThdRelease: without a reference the system halts; a reference that is
    not the last, or the last one of a thread that has not terminated, is only
    counted down; the last reference to a terminated thread allocated from a
    heap removes it from the registry and returns its working area to the
    heap's free list. *)
Theorem chThdRelease_correct tp th s :
  user s → k_thd s !! tp = Some th → 0 ≤ p_refs th ≤ 255 →
  (p_refs th = 0 → ∃ s', chThdRelease tp s = Halt "chThdRelease" s') ∧
  (0 < p_refs th → p_refs th ≠ 1 ∨ p_state th ≠ CH_STATE_FINAL →
   ∃ s', chThdRelease tp s = Done () s' ∧ user s' ∧ same_data (put_thd tp (set_p_refs (p_refs th - 1) th) s) s') ∧
  (∀ heapp h l b, p_refs th = 1 → p_state th = CH_STATE_FINAL → Z.land (p_flags th) CH_FLAG_MODE_MASK = CH_FLAG_MODE_HEAP →
   mtx_wf s → heap_wf heapp h l s → used heapp h b s → Forall (disjoint_blocks b) l → b.1 + HDR = Z.pos tp →
   ∃ s', chThdRelease tp s = Done () s' ∧ user s' ∧ mtx_wf s' ∧ heap_wf heapp h (free_list b l) s' ∧
     k_reg s' = filter (λ t, t ≠ tp) (k_reg s) ∧ k_q s' = k_q s ∧ (∀ t, t ≠ tp → k_thd s' !! t = k_thd s !! t)).
Proof.
  intros Hu Et Hr. split_and!.
  - intros H0. destruct (lock_user s Hu) as (s1 & E1 & _ & D1).
    assert (k_thd s1 !! tp = Some th) as Et1 by (destruct D1 as (_ & -> & _); done).
    exists s1. unfold chThdRelease. mgo. rewrite E1. mgo. rewrite (thd_ok _ _ _ Et1). mgo. by rewrite H0.
  - intros H0 Hk. apply release_keep; [done|done|lia|done].
  - intros heapp h l b H1 Hf Hmode Hm Hh Hb Hd Hbt.
    destruct (release_last heapp h l b tp th s) as (s' & E & U & M & H & S & _); try done.
    exists s'. destruct S as (_ & T & Q & R & _). split_and!; try done. intros t Ht. rewrite T. simpl. by rewrite lookup_insert_ne.
Qed.

(** ** Walking the registry *)

Lemma locked_skip s :
  user s → ∃ s1 s2, chSysLock s = Done () s1 ∧ same_data s s1 ∧ chSysUnlock s1 = Done () s2 ∧ user s2 ∧ same_data s s2.
Proof.
  intros Hu. destruct (lock_user s Hu) as (s1 & E1 & K1 & D1).
  destruct (unlock_user s1 K1) as (s2 & E2 & U2 & D2). exists s1, s2. split_and!; try done. by etrans.
Qed.

Lemma p_newer_app pre tp post : tp ∉ pre → p_newer tp (pre ++ tp :: post) = Some (head post).
Proof.
  induction pre as [|x pre IH]; intros Hn; simpl.
  - by rewrite decide_True.
  - rewrite decide_False by set_solver. apply IH. set_solver.
Qed.

Definition bump (th : thread) : thread := set_p_refs (p_refs th + 1) th.

(** A later block that is clear of a freed one and of the free list stays clear. *)
Lemma disjoint_free_list c b l :
  block_ok c → block_ok b → blocks_ok l → Forall (disjoint_blocks b) l →
  disjoint_blocks c b → Forall (disjoint_blocks c) l → Forall (disjoint_blocks c) (free_list b l).
Proof.
  intros Hc Hb Hl Hbl Hcb Hcl. destruct (free_list_ok b l Hb Hl Hbl) as [[Hok _] Hcov].
  apply Forall_forall. intros q Hq. pose proof (proj1 (Forall_forall _ _) Hok q Hq) as Hqo.
  destruct (decide (disjoint_blocks c q)) as [|Hn]; [done|exfalso].
  set (x := Z.max c.1 q.1). unfold block_ok, disjoint_blocks, bend, HDR in *.
  assert (covered (free_list b l) x) as Hx.
  { apply Exists_exists. exists q. split; [done|]. unfold covers, bend, HDR. subst x. lia. }
  apply Hcov in Hx as [Hx|Hx]; [unfold covers, bend, HDR in *; subst x; lia|].
  apply Exists_exists in Hx as (r & Hr & Hx). pose proof (proj1 (Forall_forall _ _) Hcl r Hr).
  unfold covers, bend, HDR in *. subst x. lia.
Qed.

Section Walk.
(** The heap of the dynamic threads, and the blocks of the zombies: terminated
    threads without references that are still registered. *)
Variables (heapp : addr) (h : memory_heap).
Variable zb : tid → option block.

Definition zombie (th : thread) : Prop :=
  p_state th = CH_STATE_FINAL ∧ p_refs th = 0 ∧ Z.land (p_flags th) CH_FLAG_MODE_MASK = CH_FLAG_MODE_HEAP.

(** What a walk needs of the registered threads. *)
Definition reg_ok (s : kst) (t : tid) : Prop :=
  ∃ th, k_thd s !! t = Some th ∧ 0 ≤ p_refs th < 255 ∧
    match zb t with Some b => zombie th ∧ b.1 + HDR = Z.pos t | None => p_state th = CH_STATE_FINAL → 0 < p_refs th end.

(** The blocks of the zombies are in use, apart from each other and from the free
    list. *)
Record zombies_ok (ts : list tid) (l : list block) (s : kst) : Prop := {
  zo_used : ∀ t b, t ∈ ts → zb t = Some b → used heapp h b s ∧ Forall (disjoint_blocks b) l;
  zo_disj : ∀ t u b c, t ∈ ts → u ∈ ts → t ≠ u → zb t = Some b → zb u = Some c → disjoint_blocks b c
}.

(** What is left of the registry and of the heap once [t] has been passed. *)
Definition alive (l : list tid) : list tid := filter (λ t, zb t = None) l.
Definition freed (t : tid) (l : list block) : list block := match zb t with Some b => free_list b l | None => l end.

(** A state of the walk: the threads as in [s0], the registry [K], the free list [l],
    the threads [ts] still to come. *)
Record walked (s0 : kst) (K : list tid) (l : list block) (ts : list tid) (s : kst) : Prop := {
  wk_user : user s;
  wk_mtx : mtx_wf s;
  wk_heap : heap_wf heapp h l s;
  wk_kernel : same_kernel (set_k_reg K s0) s;
  wk_zombies : zombies_ok ts l s
}.

Lemma walked_put s0 K l ts s t th th' s' :
  walked s0 K l ts s → k_thd s0 !! t = Some th → p_prio th' = p_prio th → p_mtxlist th' = p_mtxlist th →
  same_data (put_thd t th' s) s' → user s' → walked (put_thd t th' s0) K l ts s'.
Proof.
  intros [Hu Hm Hh Hk [Hz1 Hz2]] Et Ep El D U. assert (k_thd s !! t = Some th) as Et' by (by destruct Hk as (_ & -> & _)).
  destruct (same_data_kernel _ _ D) as (K' & X & Y). simpl in X, Y. split; [done| | | |].
  - destruct K' as (_ & T & Q & _). apply (mtx_wf_ext (put_thd t th' s)); [done..|]. by apply (mtx_wf_put s t th).
  - unfold heap_wf. by rewrite X, Y.
  - unfold same_kernel in *. simpl in *. destruct Hk as (? & Tk & ?). rewrite Tk in K'. intuition congruence.
  - split; [|done]. intros u b Hu' Hb. unfold used. rewrite Y. by apply (Hz1 u b).
Qed.

Lemma walked_reg s0 s1 K l ts s : walked s0 K l ts s → same_kernel s0 s1 → walked s1 K l ts s.
Proof.
  intros [? ? ? Hk ?] S. split; try done. unfold same_kernel in *. simpl in *. intuition congruence.
Qed.

Lemma unbump s0 t th : k_thd s0 !! t = Some th → same_kernel (put_thd t (set_p_refs (p_refs (bump th) - 1) (bump th)) (put_thd t (bump th) s0)) s0.
Proof.
  intros Et. unfold same_kernel. simpl. split_and!; try done. symmetry. rewrite insert_insert_eq. apply insert_id. rewrite Et. f_equal.
  destruct th. unfold set_p_refs. simpl. f_equal. lia.
Qed.

(** The extra reference of the walk is given back: a zombie is removed and freed. *)
Lemma release_walked s0 pre t post th l s :
  let K := pre ++ t :: post in
  walked (put_thd t (bump th) s0) K l (t :: post) s → NoDup K → k_thd s0 !! t = Some th → reg_ok s0 t →
  ∃ s', chThdRelease t s = Done () s' ∧ walked s0 (pre ++ alive [t] ++ post) (freed t l) post s'.
Proof.
  intros K HW Hnd Et (th' & ? & Hr & Hz). simplify_eq. pose proof HW as [Hu Hm Hh Hk [Hz1 Hz2]].
  assert (k_thd s !! t = Some (bump th)) as Et' by (destruct Hk as (_ & -> & _); simpl; by rewrite lookup_insert_eq).
  unfold alive, freed. destruct (zb t) as [b|] eqn:Eb.
  - destruct Hz as ((Hf & H0 & Hmode) & Hbt). destruct (Hz1 t b ltac:(left) Eb) as [Hub Hd].
    destruct (release_last heapp h l b t (bump th) s Hu Hm Et') as (s' & E & U & M & H & S & Hk'); try done; [simpl; lia|].
    exists s'. split; [done|]. rewrite filter_cons_False by (by rewrite Eb). simpl.
    assert (filter (λ x, x ≠ t) K = pre ++ post) as EK by by apply filter_ne_split.
    split; [done|done|done| |].
    + pose proof (unbump s0 t th Et) as Ub. assert (k_reg s = K) as ER by (destruct Hk as (_ & _ & _ & -> & _); done).
      rewrite ER, EK in S. unfold same_kernel in *. simpl in *.
      destruct Hk as (? & Tk & ?). rewrite Tk in S. intuition congruence.
    + apply NoDup_middle in Hnd as [Hin _]. pose proof Hub as (_ & Hbo & _).
      split; [|intros u v c d Hu' Hv; apply Hz2; set_solver].
      intros u c Hu' Hc. destruct (Hz1 u c ltac:(set_solver) Hc) as [Huc Hdc]. pose proof Huc as (_ & Hco & _).
      assert (disjoint_blocks c b) as Hcb by (apply (Hz2 u t); try done; set_solver). split.
      * apply Hk'; [done|done|]. unfold disjoint_blocks, bend, block_ok, HDR in *. lia.
      * apply disjoint_free_list; try done. apply Hh.
  - rewrite filter_cons_True by done. simpl.
    destruct (release_keep t (bump th) s Hu Et') as (s' & E & U & D).
    { simpl. lia. }
    { simpl. destruct (decide (p_state th = CH_STATE_FINAL)) as [Hf|]; [specialize (Hz Hf); left; lia|by right]. }
    exists s'. split; [done|]. eapply walked_reg; [|by apply (unbump s0 t th)].
    destruct (walked_put _ _ _ _ s t (bump th) (set_p_refs (p_refs (bump th) - 1) (bump th)) s' HW) as [? ? ? ? [Hu1 Hu2]]; try done.
    { simpl. apply lookup_insert_eq. }
    split; try done. split; [intros u b Hin; apply Hu1; by right|intros u v b c Hin Hin'; apply Hu2; by right].
Qed.

(** One step of the walk moves the extra reference to the next thread. *)
Lemma chRegNextThread_ok s0 pre t post th l s :
  let K := pre ++ t :: post in
  walked (put_thd t (bump th) s0) K l (t :: post) s → NoDup K → k_thd s0 !! t = Some th →
  reg_ok s0 t → Forall (reg_ok s0) post →
  ∃ s', chRegNextThread t s = Done (head post) s' ∧
    match post with
    | [] => walked s0 (pre ++ alive [t]) (freed t l) [] s'
    | n :: _ => ∃ nth, k_thd s0 !! n = Some nth ∧ walked (put_thd n (bump nth) s0) (pre ++ alive [t] ++ post) (freed t l) post s'
    end.
Proof.
  intros K HW Hnd Et Ht Hpost. pose proof Hnd as [Hin _]%NoDup_middle.
  assert (k_reg s = K) as ER by (destruct (wk_kernel _ _ _ _ _ HW) as (_ & _ & _ & -> & _); done).
  assert (p_newer t (k_reg s) = Some (head post)) as Hp by (rewrite ER; apply p_newer_app; set_solver).
  pose proof (wk_user _ _ _ _ _ HW) as Hu. unfold chRegNextThread. mgo. destruct post as [|n post].
  - destruct (locked_skip s Hu) as (s1 & s2 & E1 & D1 & E2 & U2 & D2).
    assert (walked (put_thd t (bump th) s0) K l [t] s2) as HW2.
    { eapply walked_reg; [eapply (walked_put _ _ _ _ s t (bump th) (bump th)); [exact HW| | | | |exact U2]|]; try done.
      - simpl. apply lookup_insert_eq.
      - assert (k_thd s !! t = Some (bump th)) by (destruct (wk_kernel _ _ _ _ _ HW) as (_ & -> & _); simpl; apply lookup_insert_eq).
        etrans; [|exact D2]. unfold same_data. simpl. rewrite insert_id by done. done.
      - unfold same_kernel. simpl. by rewrite insert_insert_eq. }
    destruct (release_walked s0 pre t [] th l s2 HW2 Hnd Et Ht) as (s3 & E3 & HW3). rewrite app_nil_r in HW3.
    exists s3. split; [|done]. rewrite E1. mgo. unfold deref.
    assert (k_reg s1 = k_reg s) as -> by apply D1. rewrite Hp. simpl. mgo. rewrite E2. mgo. by rewrite E3.
  - apply Forall_cons in Hpost as [(nth & En & Hnr & Hnz) Hpost]. assert (n ≠ t) as Hne by set_solver.
    assert (k_thd s !! n = Some nth) as En'.
    { destruct (wk_kernel _ _ _ _ _ HW) as (_ & -> & _). simpl. by rewrite lookup_insert_ne. }
    destruct (locked_put n nth (bump nth) s Hu En' ltac:(done)) as (s1 & s2 & E1 & D1 & En1 & E2 & U2 & D2).
    assert (walked (put_thd t (bump th) (put_thd n (bump nth) s0)) K l (t :: n :: post) s2) as HW2.
    { rewrite put_thd_comm by done. eapply (walked_put _ _ _ _ s n nth (bump nth)); [exact HW| | | |exact D2|exact U2]; try done.
      simpl. rewrite lookup_insert_ne by (by apply not_eq_sym). exact En. }
    destruct (release_walked (put_thd n (bump nth) s0) pre t (n :: post) th l s2 HW2 Hnd) as (s3 & E3 & HW3).
    { simpl. by rewrite lookup_insert_ne. }
    { destruct Ht as (th' & ? & ?). exists th'. simpl. by rewrite lookup_insert_ne. }
    exists s3. split; [|by exists nth]. rewrite E1. mgo. unfold deref.
    assert (k_reg s1 = k_reg s) as -> by apply D1. rewrite Hp. cbn [head]. mgo. rewrite (thd_ok _ _ _ En1). mgo.
    destruct (Z.ltb_spec (p_refs nth) 255); [|lia]. mgo. rewrite (upd_thd_ok _ _ _ _ En1). mgo.
    assert (u8 (p_refs nth + 1) = p_refs nth + 1) as -> by (apply Z.mod_small; lia).
    change (set_k_thd _ s1) with (put_thd n (bump nth) s1). rewrite E2. mgo. by rewrite E3.
Qed.

Lemma alive_app a b : alive (a ++ b) = alive a ++ alive b.
Proof. apply filter_app. Qed.

Lemma reg_walk_from_ok s0 post : ∀ pre t th l s fuel,
  walked (put_thd t (bump th) s0) (pre ++ t :: post) l (t :: post) s → NoDup (pre ++ t :: post) → k_thd s0 !! t = Some th →
  Forall (reg_ok s0) (t :: post) → (length post < fuel)%nat →
  ∃ s', reg_walk_from fuel t s = Done (t :: post) s' ∧
    walked s0 (pre ++ alive (t :: post)) (foldl (λ l t, freed t l) l (t :: post)) [] s'.
Proof.
  induction post as [|n post IH]; intros pre t th l s [|fuel] HW Hnd Et Hok Hl; simpl in Hl; try lia;
    apply Forall_cons in Hok as [Ht Hok]; destruct (chRegNextThread_ok s0 pre t _ th l s HW Hnd Et Ht Hok) as (s1 & E1 & H1).
  - exists s1. split; [simpl; mgo; rewrite E1; by mgo|done].
  - destruct H1 as (nth & En & HW1). rewrite app_assoc in HW1.
    destruct (IH (pre ++ alive [t]) n nth (freed t l) s1 fuel HW1) as (s' & E' & HW'); [|done|done|lia|].
    { apply NoDup_app in Hnd as (H1 & H2 & H3). apply NoDup_cons in H3 as [H4 H5]. rewrite <-app_assoc.
      apply NoDup_app. split; [done|]. unfold alive. destruct (decide (zb t = None)).
      - rewrite filter_cons_True by done. simpl. split; [set_solver|]. by apply NoDup_cons.
      - rewrite filter_cons_False by done. simpl. split; [set_solver|done]. }
    exists s'. cbn [head] in E1. split; [cbn [reg_walk_from]; mgo; rewrite E1; mgo; rewrite E'; by mgo|].
    change (t :: n :: post) with ([t] ++ n :: post). by rewrite alive_app, app_assoc.
Qed.

End Walk.

(** ** Waiting for the end of a thread *)

(** The tail of chThdWait, once the thread has terminated. *)
Lemma wait_tail tp th m s :
  K s → k_thd s !! tp = Some th → p_u th = U_msg m →
  ∃ s', user s' ∧ same_data s s' ∧
    rbind (exitcode tp s) (λ msg x, rbind (chSysUnlock x) (λ _ y, rbind (chThdRelease tp y) (λ _ z, Done msg z)))
    = rbind (chThdRelease tp s') (λ _ z, Done m z).
Proof.
  intros HK Et Eu. destruct (unlock_user s HK) as (s' & E & U & D). exists s'. split_and!; try done.
  unfold exitcode. mgo. rewrite (thd_ok _ _ _ Et). mgo. rewrite Eu. mgo. rewrite E. by mgo.
Qed.

(** chThdWait: for a terminated thread it returns the exit code and releases
    the reference; otherwise the caller is put in front of the waiting list of
    the thread, sleeps in state WTEXIT while the first ready thread runs, and
    when it runs again returns the exit code of the thread, releasing the
    reference. *)
Theorem chThdWait_correct tp th s ntp l :
  user s → tp ≠ k_cur s → k_thd s !! tp = Some th → 0 < p_refs th ≤ 255 → qof s QReady = ntp :: l →
  (∀ m, p_state th = CH_STATE_FINAL → p_u th = U_msg m →
     ∃ s1, user s1 ∧ same_data s s1 ∧ chThdWait tp s = rbind (chThdRelease tp s1) (λ _ x, Done m x)) ∧
  (p_state th ≠ CH_STATE_FINAL →
     ∃ s1 k, chThdWait tp s = Switch s1 k ∧ K s1 ∧ k_cur s1 = ntp ∧
       qof s1 (QWait tp) = k_cur s :: qof s (QWait tp) ∧
       p_state <$> k_thd s1 !! k_cur s = Some CH_STATE_WTEXIT ∧ thd_static s s1 ∧
       ∀ s' th' m, K s' → k_thd s' !! tp = Some th' → p_u th' = U_msg m →
         ∃ s'', user s'' ∧ same_data s' s'' ∧ k s' = rbind (chThdRelease tp s'') (λ _ x, Done m x)).
Proof.
  intros Hu Hne Et Hr Hq. destruct (lock_user s Hu) as (s1 & E1 & K1 & D1).
  pose proof D1 as (D1c & D1t & D1q & _). assert (k_thd s1 !! tp = Some th) as Et1 by by rewrite D1t.
  unfold chThdWait. mgo. rewrite E1. mgo. rewrite D1c, bool_decide_false by done. cbn [negb]. mgo.
  rewrite (thd_ok _ _ _ Et1). mgo. destruct (Z.ltb_spec 0 (p_refs th)); [|lia]. mgo. split.
  - intros m Hf Eu. rewrite bool_decide_true by done. cbn [negb]. mgo.
    destruct (wait_tail tp th m s1 K1 Et1 Eu) as (s2 & U2 & D2 & E2). exists s2.
    split_and!; [done|by etrans|]. etrans; [|exact E2]. done.
  - intros Hf. rewrite bool_decide_false by done. cbn [negb]. unfold list_insert. mgo.
    destruct K1 as (W1 & O1 & HS1). destruct (wf_cur _ W1) as (cth & Ec & _).
    destruct (block_sleep s1 (QWait tp) cth (p_u cth) CH_STATE_WTEXIT (k_cur s1 :: qof s1 (QWait tp)) ntp l W1 HS1 Ec)
      with (s0 := put_q (QWait tp) (k_cur s1 :: qof s1 (QWait tp)) s1) as (s2 & E2 & K2 & _ & R1 & R2 & R3 & _ & _ & R4);
      [done|done|done|by unfold qof; rewrite D1q| |].
    { unfold same_core, block_st. simpl. split_and!; try done. by rewrite put_u_id, insert_id. }
    match goal with |- context [chSchGoSleepS _ ?x] =>
      change x with (put_q (QWait tp) (k_cur s :: qof s1 (QWait tp)) s1) end.
    rewrite D1c in E2. rewrite E2. mgo. eexists s2, _. split; [done|]. split_and!; try done.
    + rewrite R3, D1c. unfold qof. by rewrite D1q.
    + by rewrite <-D1c, R2.
    + trans s1; [by apply thd_static_eq|done].
    + intros s' th' m K' Et' Eu'. destruct (wait_tail tp th' m s' K' Et' Eu') as (s3 & U3 & D3 & E3).
      exists s3. by rewrite <-E3.
Qed.

(** ** Creation from the heap *)

(** chThdCreateFromHeap when a free block fits: the working area is taken
    from the heap and recorded as used, the new thread at its start is marked
    as heap allocated, registered last with one reference, and readied or run
    at once if its priority is higher; the scheduler invariants hold at the
    context switch and at the return.  A heap without provider where no block
    fits returns NULL and creates nothing. *)
Theorem chThdCreateFromHeap_correct up wa0 heapp h l size prio pf s :
  user s → mtx_wf s → heap_wf heapp h l s → 0 ≤ size → size + 22 < 2 ^ 32 →
  wa0 ≤ size → NOPRIO < prio ≤ HIGHPRIO → pf ≠ None →
  (∀ b l' tp, alloc_list (MEM_ALIGN_NEXT size) l = Some (b, l') → tp = Z.to_pos (b.1 + HDR) →
     k_thd s !! tp = None → qof s (QWait tp) = [] → qof s (QMsg tp) = [] →
     ∃ s2 th, heap_wf heapp h l' s2 ∧ used heapp h b s2 ∧ Z.pos tp = b.1 + HDR ∧
       k_thd s2 = <[tp := th]> (k_thd s) ∧ k_reg s2 = k_reg s ++ [tp] ∧
       p_flags th = CH_FLAG_MODE_HEAP ∧ p_refs th = 1 ∧ p_prio th = prio ∧ p_state th = CH_STATE_WTSTART ∧
       chThdCreateFromHeap up wa0 (Some heapp) size prio pf s =
         rbind (chSchWakeupS tp MSG_OK s2) (λ _ x, rbind (chSysUnlock x) (λ _ y, Done (Some tp) y)) ∧
       post K K (chThdCreateFromHeap up wa0 (Some heapp) size prio pf s) (λ r s', r = Some tp ∧ user s')) ∧
  (alloc_list (MEM_ALIGN_NEXT size) l = None → h_provider h = PNull →
     ∃ s', chThdCreateFromHeap up wa0 (Some heapp) size prio pf s = Done None s' ∧ user s' ∧ same_kernel s s' ∧
       k_mem s' = k_mem s).
Proof.
  intros Hu Hm Hh H0 H1 Hsz Hp Hpf. assert (size + 7 < 2 ^ 32) as H1' by lia. split.
  - intros b l' tp Ea -> Hn Q1 Q2. set (tp := Z.to_pos (b.1 + HDR)) in *.
    destruct (chHeapAlloc_ok up s heapp h l size Hu Hm Hh H0 H1' b l' Ea)
      as (s1 & E1 & U1 & M1 & S1 & Hh1 & Hb1 & _).
    assert (0 < b.1 + HDR) as Hpos by (destruct Hb1 as (_ & [??] & _); unfold HDR; lia).
    destruct (lock_user s1 U1) as (s2 & E2 & K2 & D2). pose proof (same_data_kernel _ _ D2) as (_ & X2 & Y2).
    pose proof S1 as (_ & S1t & S1q & S1r & _). pose proof D2 as (_ & D2t & D2q & D2r & _).
    set (raw := _thread_memfill CH_DBG_THREAD_FILL_VALUE).
    set (th := set_p_flags CH_FLAG_MODE_HEAP (thread_fields prio raw)).
    set (s3 := put_thd tp th (created_st raw tp prio s2)).
    assert (k_thd s3 = <[tp := th]> (k_thd s2)) as T3 by (simpl; by rewrite insert_insert_eq).
    assert (chThdCreateFromHeap up wa0 (Some heapp) size prio pf s =
       rbind (chSchWakeupS tp MSG_OK s3) (λ _ x, rbind (chSysUnlock x) (λ _ y, Done (Some tp) y))) as E.
    { unfold chThdCreateFromHeap. mgo. rewrite E1. mgo. destruct (Z.eqb_spec (b.1 + HDR) 0); [lia|]. mgo.
      rewrite E2. mgo. fold raw tp. rewrite chThdCreateI_ok; [|apply in_S_I, K2|done|lia|done]. mgo.
      rewrite (upd_thd_ok _ tp (thread_fields prio raw)) by (simpl; apply lookup_insert_eq). mgo. done. }
    exists s3, th. split_and!; try done.
    + unfold heap_wf. simpl. by rewrite X2, Y2.
    + unfold used. simpl. by rewrite Y2.
    + unfold tp. by rewrite Z2Pos.id.
    + by rewrite T3, D2t, S1t.
    + simpl. by rewrite D2r, S1r.
    + rewrite E. apply (wakeup_created s2 _ tp th); try done; [by rewrite D2t, S1t| |simpl; lia|apply K2].
      intros q. change (qof s3 q) with (qof (created_st raw tp prio s2) q).
      apply created_qof; unfold qof; by rewrite D2q, S1q.
  - intros Ea Hpr. destruct (chHeapAlloc_nofit up s heapp h l size Hu Hm Hh H0 H1' Ea) as (s' & U & _ & S & _ & Em & E).
    rewrite Hpr in E. exists s'. split_and!; try done. unfold chThdCreateFromHeap. mgo. rewrite E. by mgo.
Qed.
