(* ===== verification/System.v ===== *)
(** * System services (os/rt/src/chsys.c)

    Start of the kernel, the integrity check of the kernel lists, the critical
    sections that can be entered from any context, the realtime counter
    window and the polled delay. *)

From S2P Require Import Prelude TimeMeas Kernel ThreadQueues Sys VTimers Sched Sem Mtx Memory Thd.

#[export] Existing Instances PtrQueue.node_eq_dec PtrQueue.node_countable.

(** ** Start of the kernel *)

(** What the linker and the port fix: the addresses of the fields of [ch], of
    the default heap's header and mutex, the heap area, the size of the idle
    thread's working area and [THD_WORKING_AREA_SIZE(0)]; [idle_func] names
    [_idle_thread]. *)
Record sysconf := mkSysconf {
  mainthread : tid; idle_thread_wa : tid; idle_wa_size : Z; wa_size0 : Z; idle_func : positive;
  heap_base : Z; heap_end : Z; heap_free0 : Z; heap_mtx0 : addr
}.

(** [r_prio] is the priority of the ready queue's header. *)
Definition scheduler_init : M unit := queue_init QReady ;; modify (set_k_reg []).

(** The initialisation of the subsystems; [c0] and [c1] are the readings of the
    realtime counter in [_tm_init]. *)
Definition init_subsystems (c : sysconf) (c0 c1 : Z) : M unit :=
  scheduler_init ;;
  modify vt_init ;;
  modify (set_k_tmoff (TM.tm_init c0 c1)) ;;
  core_init (heap_base c) (heap_end c) ;;
  heap_init (heap_free0 c) (heap_mtx0 c) ;;
  modify (set_k_stats stats_init) ;;
  modify (λ s, set_k_trace (dbg_trace_init (k_trace s)) s).

(** The [thread_t] of the main thread is a field of [ch], zero at the start. *)
Definition chSysInit (c : sysconf) (c0 c1 : Z) : M unit :=
  init_subsystems c c0 c1 ;;
  tp ← _thread_init (_thread_memfill 0) (mainthread c) NORMALPRIO;
  setcurrp tp ;;
  ctp ← currp;
  upd_thd ctp (set_p_state CH_STATE_CURRENT) ;;
  chSysEnable ;;
  chRegSetThreadName (Some "main") ;;
  tp ← chThdCreateStatic (wa_size0 c) (idle_thread_wa c) (idle_wa_size c) IDLEPRIO (Some (idle_func c));
  chRegSetThreadNameX tp (Some "idle").

(** ** Integrity check *)

(** The links of one of the kernel's doubly linked rings. *)
Record links A `{Countable A} := mkLinks { l_next : gmap A A; l_prev : gmap A A }.
Arguments mkLinks {A _ _} _ _.
Arguments l_next {A _ _} _.
Arguments l_prev {A _ _} _.

Section Scan.
Context {A : Type} `{Countable A}.

(** [while (tp != hdr) { n += d; tp = tp->link; }], with the counter a 32-bit
    signed integer. *)
Fixpoint scan_ring (fuel : nat) (link : gmap A A) (hdr : A) (d : Z) (tp : A) (n : Z) : M Z :=
  match fuel with
  | O => fault
  | S fuel =>
      if decide (tp = hdr) then mret n
      else
        n' ← if d =? 1 then cnt_inc n else cnt_dec n;
        nx ← deref (λ _, link !! tp);
        scan_ring fuel link hdr d nx n'
  end.

(** Forward, then backward; [true] if the counts differ. *)
Definition check_ring (fuel : nat) (L : links A) (hdr : A) : M bool :=
  tp ← deref (λ _, l_next L !! hdr);
  n ← scan_ring fuel (l_next L) hdr 1 tp 0;
  tp ← deref (λ _, l_prev L !! hdr);
  n ← scan_ring fuel (l_prev L) hdr (-1) tp n;
  mret (negb (n =? 0)).
End Scan.

Definition CH_INTEGRITY_RLIST : Z := 1.
Definition CH_INTEGRITY_VTLIST : Z := 2.
Definition CH_INTEGRITY_REGISTRY : Z := 4.

(** The links of the ready list, of the timers list (header [None]) and of the
    registry (header [None]) are arguments: [kst] holds the lists they
    represent.  No port defines PORT_INTEGRITY_CHECK. *)
Definition chSysIntegrityCheckI (fuel : nat) (rlist : links PtrQueue.node) (vtlist : links (option positive))
    (registry : links (option tid)) (testmask : Z) : M bool :=
  chDbgCheckClassI ;;
  r ← if negb (Z.land testmask CH_INTEGRITY_RLIST =? 0) then check_ring fuel rlist (PtrQueue.NH QReady) else mret false;
  if r : bool then mret true else
  r ← if negb (Z.land testmask CH_INTEGRITY_VTLIST =? 0) then check_ring fuel vtlist None else mret false;
  if r : bool then mret true else
  r ← if negb (Z.land testmask CH_INTEGRITY_REGISTRY =? 0) then check_ring fuel registry None else mret false;
  if r : bool then mret true else mret false.

(** ** Timer tick, critical sections from any context *)

(** No time quantum, no profiling, an empty tick hook. *)
Definition chSysTimerHandlerI (run : vtfunc → M unit) (fuel : nat) : M unit :=
  chDbgCheckClassI ;; chVTDoTickI run fuel.

(** The port's status word is what the code tests of it: whether interrupts
    were enabled; [isr] is [port_is_isr_context()]. *)
Definition chSysGetStatusAndLockX (irq_enabled isr : bool) : M bool :=
  (if irq_enabled then if isr then chSysLockFromISR else chSysLock else mret ()) ;;
  mret irq_enabled.

Definition chSysRestoreStatusX (sts isr : bool) : M unit :=
  if sts then if isr then chSysUnlockFromISR else (chSchRescheduleS ;; chSysUnlock) else mret ().

(** ** Realtime counter *)

Definition chSysIsCounterWithinX (cnt start end_ : Z) : bool := u32 (cnt - start) <? u32 (end_ - start).

(** [rt i] is the [i]-th value read from the realtime counter. *)
Fixpoint polled_loop (fuel : nat) (rt : nat → Z) (start end_ : Z) (i : nat) : option nat :=
  match fuel with
  | O => None
  | S fuel => if chSysIsCounterWithinX (rt i) start end_ then polled_loop fuel rt start end_ (S i) else Some i
  end.
Definition chSysPolledDelayX (fuel : nat) (rt : nat → Z) (cycles : Z) : option nat :=
  let start := rt 0%nat in
  polled_loop fuel rt start (u32 (start + cycles)) 1.

(** ** The kernel starts in a well formed state *)

(** The memory when [chSysInit] is called: no thread exists, statically
    initialised objects have empty queues and free mutexes, and the debug
    counters are zero. *)
Record cleared (s : kst) : Prop := {
  cl_thd : k_thd s = ∅;
  cl_q : ∀ q, qof s q = [];
  cl_mtx : ∀ m, owner_of s m = None;
  cl_lock : unlocked s
}.

Record conf_ok (c : sysconf) : Prop := {
  co_ne : idle_thread_wa c ≠ mainthread c;
  co_wa : wa_size0 c ≤ idle_wa_size c;
  co_base : 0 < heap_base c;
  co_end : heap_base c + 7 < heap_end c < 2 ^ 32;
  co_free : 0 ≤ heap_free0 c ∧ heap_free0 c + HDR < 2 ^ 32
}.

Lemma core_init_ok b e m : 0 < b → b + 7 < e < 2 ^ 32 → core_ok (set_core (MEM_ALIGN_NEXT b) (MEM_ALIGN_PREV e) m).
Proof.
  intros Hb He. destruct (mem_align_next b) as [Hd Hn]; [lia..|].
  assert (MEM_ALIGN_PREV e = e / 8 * 8) as Ep by (apply mem_align_prev; unfold is_u32; lia).
  destruct Hd as [k Hk]. pose proof (Z.div_mod e 8 ltac:(done)). pose proof (Z.mod_pos_bound e 8 ltac:(done)).
  unfold core_ok. simpl. rewrite Ep. split_and!; try lia; [by exists k|by exists (e / 8)].
Qed.

(** A state without locked mutexes. *)
Lemma mtx_wf_free s :
  (∀ m, owner_of s m = None) → (∀ t th, k_thd s !! t = Some th → p_mtxlist th = None) →
  (∀ m, qof s (QMtx m) = []) → mtx_wf s.
Proof.
  intros Ho Hl Hq. split; [split|].
  - intros t th Et. exists []. split_and!; [by apply (Hl t)|constructor|]. intros m. rewrite Ho. set_solver.
  - intros m t. by rewrite Ho.
  - intros m w. rewrite Hq. set_solver.
  - intros m. rewrite Hq. constructor.
  - intros m t w. by rewrite Ho.
Qed.

(** A single running thread. *)
Lemma wf_single s t th :
  k_cur s = t → k_thd s = {[t := th]} → (∀ q, qof s q = []) → p_state th = CH_STATE_CURRENT → NOPRIO < p_prio th → wf s.
Proof.
  intros Ec Et Hq Hst Hp. split; [split|..].
  all: try (intros q; rewrite Hq; constructor).
  - intros q1 q2 x. rewrite Hq. set_solver.
  - intros q x. rewrite Hq. set_solver.
  - intros x thx. rewrite Et. intros [<- <-]%lookup_singleton_Some Hx. subst t. set_solver.
  - intros x q. rewrite Hq. set_solver.
  - rewrite Hq. constructor.
  - intros x thx. rewrite Et. by intros [<- <-]%lookup_singleton_Some.
  - exists th. rewrite Ec, Et. by rewrite lookup_singleton_eq.
  - intros x thx. rewrite Et. intros [<- <-]%lookup_singleton_Some. done.
Qed.

Definition main_thread : thread := mkThread NORMALPRIO (Some "main") CH_STATE_CURRENT 0 1 (U_msg 0) 0 0 None NORMALPRIO None.
Definition idle_thread : thread :=
  mkThread IDLEPRIO (Some "idle") CH_STATE_READY 0 1 (U_msg 0) (-1) 0 None IDLEPRIO (Some 4294967295%positive).

Lemma singleton_of {A} (l : list A) x : NoDup l → (∀ y, y ∈ l ↔ y = x) → l = [x].
Proof.
  intros Hnd Hl. destruct l as [|y l]; [pose proof (proj2 (Hl x) eq_refl); set_solver|].
  assert (y = x) as -> by (apply Hl; left). apply NoDup_cons in Hnd as [Hx _]. f_equal.
  destruct l as [|z l]; [done|]. assert (z = x) as -> by (apply Hl; right; left). by destruct Hx; left.
Qed.

Lemma user_set_name s t th n : user s → k_thd s !! t = Some th → user (put_thd t (set_p_name n th) s).
Proof.
  intros (Hw & Hok & Hu) Et. split_and!; [by apply (wf_put_same s t th)|by apply (sched_ok_put_same s t th)|done].
Qed.

(** The queues of a store after a header is initialised again. *)
Lemma qof_put_nil s q q' : (∀ q, qof s q = []) → qof (put_q q [] s) q' = [].
Proof.
  intros H. destruct (decide (q = q')) as [->|]; [apply qof_put_q|]. by rewrite qof_put_q_ne.
Qed.

Lemma init_subsystems_ok c c0 c1 s :
  cleared s → conf_ok c →
  ∃ s0, init_subsystems c c0 c1 s = Done () s0 ∧ cleared s0 ∧ k_reg s0 = [] ∧ k_vt s0 = [] ∧ k_sem s0 = k_sem s ∧
    core_ok (k_mem s0) ∧ heap_wf default_heap (mkHeap PCoreAlloc (heap_free0 c) (heap_mtx0 c)) [] s0.
Proof.
  intros [Ht Hq Ho Hl] [_ _ C3 C4 [C5 C6]].
  unfold init_subsystems, scheduler_init, core_init, heap_init, new_heap, chMtxObjectInit, queue_init, upd_mem. mgo.
  eexists. split; [reflexivity|]. split; [split|split_and!]; try done.
  - intros q. apply (qof_put_nil (put_q QReady [] s)). intros q'. by apply qof_put_nil.
  - intros m. unfold owner_of. simpl. rewrite lookup_insert. case_decide; [done|]. apply Ho.
  - by apply core_init_ok.
  - split_and!; simpl; try done.
    + apply lookup_insert_eq.
    + rewrite lookup_insert_eq. eauto.
    + split; [done|]. exists 0. by rewrite lookup_insert_eq.
    + split; constructor.
Qed.

(** chSysInit up to the creation of the idle thread: the caller is the main
    thread. *)
Lemma chSysInit_main c c0 c1 s :
  cleared s → conf_ok c →
  ∃ s1, user s1 ∧ k_cur s1 = mainthread c ∧ k_thd s1 = {[mainthread c := main_thread]} ∧ k_reg s1 = [mainthread c] ∧
    (∀ q, qof s1 q = []) ∧ k_vt s1 = [] ∧ k_sem s1 = k_sem s ∧ (∀ m, owner_of s1 m = None) ∧
    core_ok (k_mem s1) ∧ heap_wf default_heap (mkHeap PCoreAlloc (heap_free0 c) (heap_mtx0 c)) [] s1 ∧
    chSysInit c c0 c1 s =
      rbind (chThdCreateStatic (wa_size0 c) (idle_thread_wa c) (idle_wa_size c) IDLEPRIO (Some (idle_func c)) s1)
        (λ tp, chRegSetThreadNameX tp (Some "idle")).
Proof.
  intros Hc Hco. destruct (init_subsystems_ok c c0 c1 s Hc Hco) as (s0 & E0 & [Ht Hq Ho [Hi Hl]] & R0 & V0 & S0 & C0 & H0).
  set (tp := mainthread c). set (th := thread_fields NORMALPRIO (_thread_memfill 0)).
  set (s1 := set_k_cur tp (created_st (_thread_memfill 0) tp NORMALPRIO s0)).
  assert (k_thd s1 !! tp = Some th) as Et1 by (simpl; apply lookup_insert_eq).
  assert (∀ q, qof s1 q = []) as Hq1 by (intros q; etrans; [|apply (Hq q)]; by apply created_qof).
  set (s2 := put_thd tp main_thread s1).
  assert (k_thd s2 = {[tp := main_thread]}) as Et2 by (simpl; rewrite Ht, !insert_insert_eq; done).
  exists s2. split_and!; try done.
  - split_and!; [by apply (wf_single s2 tp main_thread)| |done]. intros x. change (qof s2 QReady) with (qof s1 QReady).
    rewrite Hq1. set_solver.
  - simpl. by rewrite R0.
  - unfold chSysInit, chSysEnable, dbg_check_enable, chRegSetThreadName. mgo. rewrite E0. mgo.
    change (_thread_init _ _ _ s0) with (Done tp (created_st (_thread_memfill 0) tp NORMALPRIO s0)). mgo.
    fold s1. change (k_cur s1) with tp. rewrite (upd_thd_ok _ _ _ _ Et1). mgo.
    change (set_k_thd _ s1) with (put_thd tp (set_p_state CH_STATE_CURRENT th) s1).
    change (k_isr (put_thd tp (set_p_state CH_STATE_CURRENT th) s1)) with (k_isr s0).
    change (k_lock (put_thd tp (set_p_state CH_STATE_CURRENT th) s1)) with (k_lock s0).
    rewrite Hi, Hl. cbn [Z.eqb negb orb]. mgo.
    change (k_cur (put_thd tp (set_p_state CH_STATE_CURRENT th) s1)) with tp.
    rewrite (upd_thd_ok _ tp (set_p_state CH_STATE_CURRENT th)) by apply lookup_insert_eq. mgo.
    match goal with |- context [chThdCreateStatic _ _ _ _ _ ?x] => replace x with s2; [done|] end.
    symmetry. apply put_thd_thd.
Qed.

(** C35.  chSysInit on cleared memory returns in the main thread at normal
    priority, with the idle thread as the only ready thread, both registered,
    no timer armed, the core allocator ready to use and the default heap
    empty; the scheduler, semaphore and mutex invariants hold. *)
Theorem chSysInit_correct c c0 c1 s :
  cleared s → conf_ok c → sem_wf s →
  ∃ s', chSysInit c c0 c1 s = Done () s' ∧ user s' ∧ sem_wf s' ∧ mtx_wf s' ∧ k_cur s' = mainthread c ∧
    qof s' QReady = [idle_thread_wa c] ∧ k_reg s' = [mainthread c; idle_thread_wa c] ∧
    k_thd s' = <[idle_thread_wa c := idle_thread]> {[mainthread c := main_thread]} ∧ k_vt s' = [] ∧
    core_ok (k_mem s') ∧ heap_wf default_heap (mkHeap PCoreAlloc (heap_free0 c) (heap_mtx0 c)) [] s'.
Proof.
  intros Hc Hco Hsem.
  destruct (chSysInit_main c c0 c1 s Hc Hco) as (s1 & U1 & Ec1 & Et1 & R1 & Q1 & V1 & S1 & O1 & C1 & H1 & ->).
  set (tp := idle_thread_wa c) in *. set (raw := _thread_memfill CH_DBG_THREAD_FILL_VALUE).
  destruct (chThdCreateStatic_eq (wa_size0 c) tp (idle_wa_size c) IDLEPRIO (Some (idle_func c)) s1 U1) as (s2 & D2 & K2 & ->);
    [apply Hco|done|done|]. fold raw.
  pose proof D2 as (Dc & Dt & Dq & Dr & Dv & _ & _ & _ & Ds & Dm & _ & _ & _ & _ & _ & Dmem).
  assert (∀ q, qof s2 q = []) as Q2 by (intros q; unfold qof; rewrite Dq; apply Q1).
  destruct (wakeup_created_behind s2 (created_st raw tp IDLEPRIO s2) tp (thread_fields IDLEPRIO raw)) with (msg := MSG_OK)
    as (s3 & -> & K3 & Ec3 & O3 & Et3 & Q3 & Rd3); try done.
  { rewrite Dt, Et1. apply lookup_singleton_ne. intros E. by apply (co_ne _ Hco). }
  { intros q. by apply created_qof. }
  { apply K2. }
  { rewrite Dc, Ec1. unfold prio_of. rewrite Dt, Et1, lookup_singleton_eq. done. }
  mgo. destruct (unlock_user s3 K3) as (s4 & -> & U4 & D4). mgo. unfold chRegSetThreadNameX.
  pose proof D4 as (Ec4 & Et4 & Eq4 & R4 & V4 & _ & _ & _ & S4 & X4 & _ & _ & _ & _ & _ & M4).
  set (th := set_p_state CH_STATE_READY (set_p_u (U_msg MSG_OK) (thread_fields IDLEPRIO raw))) in *.
  assert (k_thd s4 !! tp = Some th) as Et4' by (rewrite Et4, Et3; apply lookup_insert_eq).
  rewrite (upd_thd_ok _ _ _ _ Et4'). fold (put_thd tp (set_p_name (Some "idle") th) s4). set (s5 := put_thd _ _ s4).
  assert (∀ q, q ≠ QReady → qof s5 q = []) as Q5.
  { intros q Hne. unfold s5. rewrite qof_put_thd. unfold qof. rewrite Eq4. by etrans; [apply Q3|]. }
  assert (k_thd s5 = <[tp := idle_thread]> {[mainthread c := main_thread]}) as Et5.
  { simpl. rewrite Et4, Et3, insert_insert_eq, Dt, Et1. done. }
  assert (k_mtx s5 = k_mtx s1) as X5 by (simpl; rewrite X4; destruct O3 as (_ & -> & _); done).
  assert (k_mem s5 = k_mem s1) as M5 by (simpl; rewrite M4; destruct O3 as (_&_&_&_&_&_&_&_&_&_&_&_&_&_&->); done).
  exists s5. split; [done|]. split_and!.
  - exact (user_set_name s4 tp th _ U4 Et4').
  - intros sp. rewrite Q5 by done. specialize (Hsem sp). rewrite (cl_q _ Hc) in Hsem.
    assert (k_sem s5 = k_sem s) as ->; [|done]. simpl. rewrite S4. destruct O3 as (-> & _). simpl. by rewrite Ds.
  - apply mtx_wf_free; [|intros x thx|intros; by apply Q5].
    + intros m. unfold owner_of. rewrite X5. apply O1.
    + rewrite Et5, lookup_insert. case_decide; [by intros [= <-]|]. by intros [_ <-]%lookup_singleton_Some.
  - simpl. by rewrite Ec4, Ec3, Dc.
  - change (qof s4 QReady = [tp]). unfold qof. rewrite Eq4. fold (qof s3 QReady). apply singleton_of.
    + apply (qw_nodup _ _ (wf_q _ (proj1 K3))).
    + intros x. rewrite Rd3, Q2. set_solver.
  - simpl. rewrite R4. destruct O3 as (_&_&_&_&_&_&_&_&_&_&_&_&_&->&_). simpl. by rewrite Dr, R1.
  - done.
  - simpl. rewrite V4. destruct O3 as (_&_&_&_&_&_&_&->&_). simpl. by rewrite Dv.
  - by rewrite M5.
  - unfold heap_wf. by rewrite X5, M5.
Qed.

(** ** The integrity check counts both directions *)

Section ScanFacts.
Context {A : Type} `{Countable A}.

(** Following [link] from [tp] visits [l] and then reaches the header. *)
Fixpoint path (link : gmap A A) (hdr tp : A) (l : list A) : Prop :=
  match l with
  | [] => tp = hdr
  | x :: l' => tp = x ∧ x ≠ hdr ∧ ∃ nx, link !! x = Some nx ∧ path link hdr nx l'
  end.

(** The ring as seen forward ([f]) and backward ([b]). *)
Definition paths (L : links A) (hdr : A) (f b : list A) : Prop :=
  (∃ x, l_next L !! hdr = Some x ∧ path (l_next L) hdr x f) ∧
  (∃ y, l_prev L !! hdr = Some y ∧ path (l_prev L) hdr y b).

Lemma scan_ring_ok link hdr d l : ∀ fuel tp n s,
  path link hdr tp l → (length l < fuel)%nat → d = 1 ∨ d = -1 →
  INT32_MIN ≤ n + d * Z.of_nat (length l) ≤ INT32_MAX → is_s32 n →
  scan_ring fuel link hdr d tp n s = Done (n + d * Z.of_nat (length l)) s.
Proof.
  induction l as [|x l IH]; intros [|fuel] tp n s Hp Hf Hd Hb Hn; simpl in *; try lia.
  - rewrite decide_True by done. mgo. f_equal. lia.
  - destruct Hp as (-> & Hx & nx & El & Hp). rewrite decide_False by done. unfold is_s32 in *.
    assert ((if d =? 1 then cnt_inc n else cnt_dec n) s = Done (n + d) s) as E.
    { unfold cnt_inc, cnt_dec. destruct Hd as [-> | ->]; simpl.
      - destruct (Z.eqb_spec n INT32_MAX); [lia|done].
      - destruct (Z.eqb_spec n INT32_MIN); [lia|done]. }
    mgo. rewrite E. mgo. unfold deref. rewrite El. mgo. rewrite IH; [f_equal; lia|done|lia|done| |].
    + replace (n + d + d * Z.of_nat (length l)) with (n + d * Z.pos (Pos.of_succ_nat (length l))) by lia. done.
    + destruct Hd as [-> | ->]; lia.
Qed.

Lemma check_ring_ok fuel L hdr f b s :
  paths L hdr f b → (length f < fuel)%nat → (length b < fuel)%nat → Z.of_nat fuel ≤ INT32_MAX →
  check_ring fuel L hdr s = Done (negb (length f =? length b)%nat) s.
Proof.
  intros ((x & Ex & Hf) & (y & Ey & Hb)) H1 H2 H3. unfold INT32_MAX in H3. unfold check_ring. mgo. unfold deref. rewrite Ex. mgo.
  rewrite (scan_ring_ok _ _ _ f) by (done || lia || unfold is_s32, INT32_MIN, INT32_MAX; lia). mgo. rewrite Ey. mgo.
  rewrite (scan_ring_ok _ _ _ b) by (done || lia || unfold is_s32, INT32_MIN, INT32_MAX; lia). mgo. do 2 f_equal.
  destruct (Nat.eqb_spec (length f) (length b)) as [E|E].
  - apply Z.eqb_eq. lia.
  - apply Z.eqb_neq. lia.
Qed.
End ScanFacts.

(** A well linked queue has the same elements in both directions. *)
Lemma chain_forward h hdr L : ∀ x, PtrQueue.chain h (x :: L ++ [hdr]) → hdr ∉ L →
  ∃ y, PtrQueue.m_nxt h !! x = Some y ∧ path (PtrQueue.m_nxt h) hdr y L.
Proof.
  induction L as [|z L IH]; intros x Hc Hh; simpl in Hc; destruct Hc as [[Hn _] Hc].
  - by exists hdr.
  - destruct (IH z Hc) as (y & Ey & Hp); [set_solver|]. exists z. split; [done|]. split; [done|]. split; [set_solver|].
    by exists y.
Qed.

Lemma chain_backward h hdr L : ∀ x, PtrQueue.chain h (hdr :: L ++ [x]) → hdr ∉ L →
  ∃ y, PtrQueue.m_prv h !! x = Some y ∧ path (PtrQueue.m_prv h) hdr y (reverse L).
Proof.
  induction L as [|z L IH] using rev_ind; intros x Hc Hh.
  - destruct Hc as [[_ Hp] _]. by exists hdr.
  - rewrite <-app_assoc in Hc. change (hdr :: L ++ [z] ++ [x]) with ((hdr :: L) ++ z :: [x]) in Hc.
    apply PtrQueue.chain_mid in Hc as [Hc [[_ Hp] _]]. destruct (IH z Hc) as (y & Ey & Hpy); [set_solver|].
    exists z. split; [done|]. rewrite reverse_app. split; [done|]. split; [set_solver|]. by exists y.
Qed.

Lemma ring_paths h q l :
  PtrQueue.ring h q l →
  paths (mkLinks (PtrQueue.m_nxt h) (PtrQueue.m_prv h)) (PtrQueue.NH q) (PtrQueue.NT <$> l) (reverse (PtrQueue.NT <$> l)).
Proof.
  intros Hr. assert (PtrQueue.NH q ∉ PtrQueue.NT <$> l) by (rewrite list_elem_of_fmap; by intros (? & ? & _)).
  split; [by apply chain_forward|by apply chain_backward].
Qed.

(** The test selected by a bit of the mask finds different counts. *)
Definition differ {A} (testmask bit : Z) (f b : list A) : bool :=
  negb (Z.land testmask bit =? 0) && negb (length f =? length b)%nat.

(** chSysIntegrityCheckI ends for every ring that leads back to its header
    in both directions, and reports an error exactly when a selected list has
    a different number of elements forward and backward; it changes nothing. *)
Theorem chSysIntegrityCheckI_correct fuel rl vl rg rf rb vf vb gf gb testmask s :
  in_I s → paths rl (PtrQueue.NH QReady) rf rb → paths vl None vf vb → paths rg None gf gb →
  (length rf < fuel ∧ length rb < fuel ∧ length vf < fuel ∧ length vb < fuel ∧ length gf < fuel ∧ length gb < fuel)%nat →
  Z.of_nat fuel ≤ INT32_MAX →
  chSysIntegrityCheckI fuel rl vl rg testmask s =
    Done (differ testmask CH_INTEGRITY_RLIST rf rb || differ testmask CH_INTEGRITY_VTLIST vf vb
          || differ testmask CH_INTEGRITY_REGISTRY gf gb) s.
Proof.
  intros HI Hr Hv Hg Hl Hf. unfold chSysIntegrityCheckI, differ. mgo. rewrite (classI_ok s HI). mgo.
  destruct (negb (Z.land testmask CH_INTEGRITY_RLIST =? 0)); cbn [andb orb].
  1: rewrite (check_ring_ok fuel rl _ rf rb) by (done || lia); mgo; destruct (negb _); [by mgo|cbn [orb]]. 2: mgo.
  all: destruct (negb (Z.land testmask CH_INTEGRITY_VTLIST =? 0)); cbn [andb orb].
  all: mgo.
  all: try (rewrite (check_ring_ok fuel vl _ vf vb) by (done || lia); mgo; destruct (negb _); [by mgo|cbn [orb]]).
  all: mgo; destruct (negb (Z.land testmask CH_INTEGRITY_REGISTRY =? 0)); cbn [andb orb]; mgo; [|done].
  all: rewrite (check_ring_ok fuel rg _ gf gb) by (done || lia); mgo; destruct (negb _); by mgo.
Qed.

(** The links of a ready queue that represents the list [l], in whatever way
    the queue operations have built them, pass the ready list test. *)
Theorem integrity_ready_list h prio Q l fuel vl rg s :
  in_I s → PtrQueue.rep h prio Q → Q !! QReady = Some l → (length l < fuel)%nat → Z.of_nat fuel ≤ INT32_MAX →
  chSysIntegrityCheckI fuel (mkLinks (PtrQueue.m_nxt h) (PtrQueue.m_prv h)) vl rg CH_INTEGRITY_RLIST s = Done false s.
Proof.
  intros HI Hrep Hq Hl Hf. pose proof (ring_paths _ _ _ (PtrQueue.rep_ring _ _ _ Hrep QReady l Hq)) as Hp.
  unfold chSysIntegrityCheckI. mgo. rewrite (classI_ok s HI). mgo.
  change (negb (Z.land CH_INTEGRITY_RLIST CH_INTEGRITY_RLIST =? 0)) with true.
  change (negb (Z.land CH_INTEGRITY_RLIST CH_INTEGRITY_VTLIST =? 0)) with false.
  change (negb (Z.land CH_INTEGRITY_RLIST CH_INTEGRITY_REGISTRY =? 0)) with false. mgo.
  rewrite (check_ring_ok _ _ _ _ _ _ Hp) by (rewrite ?length_reverse, ?length_fmap; done). mgo.
  rewrite length_reverse, Nat.eqb_refl. by mgo.
Qed.

(** ** Critical sections from any context *)

(** chSysGetStatusAndLockX enters a critical section from a thread or an
    interrupt handler and does nothing inside one; chSysRestoreStatusX undoes
    it: in a thread a pending preemption is served first and the kernel is left
    with the highest priority thread running, in a handler only the section is
    left, and a nested section is not left. *)
Theorem sys_status_roundtrip s :
  (user s → ∃ s1, chSysGetStatusAndLockX true false s = Done true s1 ∧ K s1 ∧ same_data s s1) ∧
  (wf s → in_S s → post K K (chSysRestoreStatusX true false s) (λ _ s', user s')) ∧
  (in_ISR s → ∃ s1, chSysGetStatusAndLockX true true s = Done true s1 ∧ in_I s1 ∧ k_isr s1 = k_isr s ∧ same_data s s1) ∧
  (in_I s → 0 < k_isr s → ∃ s1, chSysRestoreStatusX true true s = Done () s1 ∧ in_ISR s1 ∧ same_data s s1) ∧
  (∀ isr, chSysGetStatusAndLockX false isr s = Done false s ∧ chSysRestoreStatusX false isr s = Done () s).
Proof.
  unfold chSysGetStatusAndLockX, chSysRestoreStatusX. split_and!.
  - intros Hu. destruct (lock_user s Hu) as (s1 & E & HK & D). exists s1. mgo. rewrite E. by mgo.
  - intros Hw HS. rewrite bind_eq. apply unlock_tail. by apply chSchRescheduleS_post.
  - intros HI. destruct (chSysLockFromISR_ok s HI) as (s1 & E & H1 & H2 & D). exists s1. mgo. rewrite E. by mgo.
  - intros HI Hp. destruct (chSysUnlockFromISR_ok s HI Hp) as (s1 & E & H1 & _ & D). by exists s1.
  - intros isr. by split.
Qed.

(** ** Realtime counter *)

(** The window test holds for the counter values reached within the length of
    the window from its start, whatever wraps around; an empty window
    ([start = end]) contains no value. *)
Theorem chSysIsCounterWithinX_correct cnt start end_ :
  is_u32 cnt → is_u32 start → is_u32 end_ →
  (chSysIsCounterWithinX cnt start end_ = true ↔ ∃ k, 0 ≤ k < u32 (end_ - start) ∧ cnt = u32 (start + k)) ∧
  chSysIsCounterWithinX cnt start start = false.
Proof.
  intros H1 H2 H3. unfold chSysIsCounterWithinX. split.
  - rewrite Z.ltb_lt. split.
    + intros Hlt. exists (u32 (cnt - start)). split; [split; [apply u32_range|done]|].
      rewrite u32_add_r. replace (start + (cnt - start)) with cnt by lia. symmetry. by apply u32_small.
    + intros (k & Hk & ->). rewrite u32_sub_l. replace (start + k - start) with k by lia.
      rewrite (u32_small k); [lia|]. pose proof (u32_range (end_ - start)). unfold is_u32 in *. lia.
  - rewrite Z.sub_diag. apply Z.ltb_ge. apply u32_range.
Qed.

Section PolledDelay.
(** [t i] is the time of the [i]-th reading of a counter that advances between
    readings, by no more than what is left of its range after the delay. *)
Context (t : nat → Z) (cycles : Z).
Hypothesis Hc : 0 < cycles < 2 ^ 32.
Hypothesis Hadv : ∀ i, t i < t (S i) ≤ t i + (2 ^ 32 - cycles).

Lemma elapsed_lower i : t 0%nat + Z.of_nat i ≤ t i.
Proof using Hadv. induction i as [|i IH]; [lia|]. specialize (Hadv i). lia. Qed.

Lemma within_elapsed i : 0 ≤ t i - t 0%nat < 2 ^ 32 →
  chSysIsCounterWithinX (u32 (t i)) (u32 (t 0%nat)) (u32 (u32 (t 0%nat) + cycles)) = (t i - t 0%nat <? cycles).
Proof using Hc.
  intros Hr. unfold chSysIsCounterWithinX. autorewrite with u32.
  replace (t 0%nat + cycles - t 0%nat) with cycles by lia. by rewrite !u32_small by (unfold is_u32; lia).
Qed.

Lemma polled_loop_ok fuel : ∀ i,
  (Z.to_nat cycles ≤ fuel + i)%nat → (0 < i)%nat → (∀ j, (j < i)%nat → t j - t 0%nat < cycles) →
  ∃ r, polled_loop (S fuel) (λ i, u32 (t i)) (u32 (t 0%nat)) (u32 (u32 (t 0%nat) + cycles)) i = Some r ∧
    cycles ≤ t r - t 0%nat ∧ (r ≤ fuel + i)%nat ∧ ∀ j, (j < r)%nat → t j - t 0%nat < cycles.
Proof using All.
  induction fuel as [|fuel IH]; intros i Hi Hpos Hj.
  all: assert (0 ≤ t i - t 0%nat < 2 ^ 32) as Hr
    by (pose proof (elapsed_lower i); destruct i as [|i]; [lia|]; pose proof (Hj i ltac:(lia)); specialize (Hadv i); lia).
  all: cbn [polled_loop]; rewrite within_elapsed by done; pose proof (elapsed_lower i).
  all: destruct (Z.ltb_spec (t i - t 0%nat) cycles).
  - lia.
  - exists i. split_and!; try done; lia.
  - destruct (IH (S i)) as (r & E & H1 & H2 & H3); [lia|lia| |].
    + intros j Hji. destruct (decide (j = i)) as [->|]; [done|]. apply Hj. lia.
    + exists r. split_and!; try done; lia.
  - exists i. split_and!; try done; lia.
Qed.
End PolledDelay.

(** chSysPolledDelayX ends after at most [cycles] readings of an advancing
    counter, at the first reading that is [cycles] or more after the start. *)
Theorem chSysPolledDelayX_ends t cycles :
  0 < cycles < 2 ^ 32 → (∀ i, t i < t (S i) ≤ t i + (2 ^ 32 - cycles)) →
  ∃ r, chSysPolledDelayX (Z.to_nat cycles) (λ i, u32 (t i)) cycles = Some r ∧
    cycles ≤ t r - t 0%nat ∧ (r ≤ Z.to_nat cycles)%nat ∧ ∀ j, (j < r)%nat → t j - t 0%nat < cycles.
Proof.
  intros Hc Hadv. destruct (polled_loop_ok t cycles Hc Hadv (Z.to_nat cycles - 1) 1) as (r & E & H1 & H2 & H3); [lia|lia| |].
  - intros j Hj. replace j with 0%nat by lia. lia.
  - exists r. replace (S (Z.to_nat cycles - 1)) with (Z.to_nat cycles) in E by lia. split_and!; try done. lia.
Qed.
