(* ===== verification/Exec.v ===== *)
(** * Threads and interrupts running together

    The operations of the other files describe one kernel call of one thread.
    Here threads run whole programs: a configuration holds the running thread,
    the result of its current kernel call, the calls it has still to make and
    the saved contexts of the other threads.  A context switch saves the
    continuation of the running thread and resumes the thread the scheduler has
    made current; between two calls an interrupt handler may run, which can
    preempt the thread on its way out (os/rt/ports/ARMCMx/chcore_v7m.c and
    chcoreasm_v7m.s).

    The programs use binary semaphores, yield and change priorities; handlers
    signal and reset semaphores. *)

From S2P Require Import Prelude TimeMeas Kernel ThreadQueues Sys VTimers Sched Sem Thd.

(** ** The port *)

(** First instructions of a new thread. *)
Definition port_thread_start : M unit := dbg_check_unlock ;; stats_stop_measure_crit_thd.

Definition port_switch_from_isr : M unit :=
  stats_start_measure_crit_thd ;; dbg_check_lock ;;
  chSchDoReschedule ;;
  dbg_check_unlock ;; stats_stop_measure_crit_thd.

(** [rettobase]: the handler returns to thread mode. *)
Definition port_irq_epilogue (rettobase : bool) : M unit :=
  when rettobase (b ← chSchIsPreemptionRequired; when b port_switch_from_isr).

(** ** Programs *)

Inductive call :=
  | CWait (bsp : addr) | CSignal (bsp : addr) | CReset (bsp : addr) (taken : bool)
  | CYield | CSetPriority (prio : Z).

Definition exec (c : call) : M unit :=
  match c with
  | CWait bsp => chBSemWait bsp ;; mret ()
  | CSignal bsp => chBSemSignal bsp
  | CReset bsp taken => chBSemReset bsp taken
  | CYield => chThdYield
  | CSetPriority prio => chThdSetPriority prio ;; mret ()
  end.

Inductive irq := ISignal (bsp : addr) | IReset (bsp : addr) (taken : bool).

Definition isr_body (i : irq) : M unit :=
  match i with ISignal bsp => chBSemSignalI bsp | IReset bsp taken => chBSemResetI bsp taken end.

(** A handler that is not nested. *)
Definition exec_irq (i : irq) : M unit :=
  CH_IRQ_PROLOGUE ;;
  chSysLockFromISR ;; isr_body i ;; chSysUnlockFromISR ;;
  CH_IRQ_EPILOGUE ;; port_irq_epilogue true.

(** ** Configurations and steps *)

(** A saved context: the rest of the interrupted kernel call, and the calls
    after it. *)
Record ctx := mkCtx { x_cont : kst → res unit; x_calls : list call }.

Record cfg := mkCfg { c_me : tid; c_pool : gmap tid ctx; c_calls : list call; c_res : res unit }.

Section Steps.
(** The program of each thread, and the interrupts that may occur. *)
Variable prog : tid → list call.
Variable irqs : irq → Prop.

(** A thread that has not run yet starts its function. *)
Definition resume (P : gmap tid ctx) (t : tid) : ctx := default (mkCtx port_thread_start (prog t)) (P !! t).

Inductive step : cfg → cfg → Prop :=
  | step_call me P c cs s : step (mkCfg me P (c :: cs) (Done () s)) (mkCfg me P cs (exec c s))
  | step_irq me P cs i s : irqs i → step (mkCfg me P cs (Done () s)) (mkCfg me P cs (exec_irq i s))
  | step_switch me P cs s k :
      let P' := <[me := mkCtx k cs]> P in
      let x := resume P' (k_cur s) in
      step (mkCfg me P cs (Switch s k)) (mkCfg (k_cur s) (delete (k_cur s) P') (x_calls x) (x_cont x s)).

Definition boot (s : kst) : cfg := mkCfg (k_cur s) ∅ (prog (k_cur s)) (Done () s).
End Steps.

(** ** The invariant of the whole system *)

Definition runnable (th : thread) : Prop := p_state th = CH_STATE_READY ∨ p_state th = CH_STATE_CURRENT.

Section Invariant.
(** The idle thread, and the binary semaphores the programs use. *)
Context (idle : tid) (D : gset addr).

(** A runnable thread has been given a message, the idle thread is always
    runnable, and a 32-bit counter can count the threads. *)
Record thr_ok (s : kst) : Prop := {
  to_msg : ∀ t th, k_thd s !! t = Some th → runnable th → ∃ m, p_u th = U_msg m;
  to_idle : ∃ th, k_thd s !! idle = Some th ∧ runnable th;
  to_many : Z.of_nat (size (k_thd s)) ≤ INT32_MAX
}.

(** The binary semaphores exist and their counters do not exceed one. *)
Record bsem_ok (s : kst) : Prop := {
  bs_wf : sem_wf s;
  bs_bin : ∀ sp c, k_sem s !! sp = Some c → c ≤ 1;
  bs_dom : ∀ sp, sp ∈ D → is_Some (k_sem s !! sp)
}.

Definition apps (s : kst) : Prop := thr_ok s ∧ bsem_ok s.

(** At a context switch, and between two calls. *)
Definition KI (s : kst) : Prop := K s ∧ apps s.
Definition UI (s : kst) : Prop := user s ∧ apps s.

(** Thread [t] has been made current. *)
Definition KJ (t : tid) (s : kst) : Prop := KI s ∧ k_cur s = t.
Definition UJ (t : tid) (s : kst) : Prop := UI s ∧ k_cur s = t.

(** *** What preserves it *)

(** A change of threads that makes threads runnable only with a message. *)
Definition thr_sim (th th' : thread) : Prop :=
  runnable th' → (∃ m, p_u th' = U_msg m) ∨ (p_u th' = p_u th ∧ runnable th).

Lemma thr_sim_keep th th' : p_u th' = p_u th → runnable th → thr_sim th th'.
Proof. intros E H _. by right. Qed.
Lemma thr_sim_refl th : thr_sim th th.
Proof. intros H. by right. Qed.

(** The idle thread does not change. *)
Lemma idle_same s th : thr_ok s → k_thd s !! idle = Some th → runnable th.
Proof. intros [_ (ith & Ei & Hi) _] E. by simplify_eq. Qed.

Lemma thr_ok_sim s s' :
  thr_ok s → dom (k_thd s') = dom (k_thd s) →
  (∀ t th th', k_thd s !! t = Some th → k_thd s' !! t = Some th' → thr_sim th th' ∧ (t = idle → runnable th')) →
  thr_ok s'.
Proof.
  intros [Hm (ith & Ei & Hi) Hn] Hd Hs. split.
  - intros t th' Et' Hr. assert (is_Some (k_thd s !! t)) as [th Et].
    { apply elem_of_dom. rewrite <-Hd. apply elem_of_dom. by eexists. }
    destruct (Hs t th th' Et Et') as [Ht _]. destruct (Ht Hr) as [?|[-> Hr']]; [done|by apply (Hm t th)].
  - assert (is_Some (k_thd s' !! idle)) as [ith' Ei'].
    { apply elem_of_dom. rewrite Hd. apply elem_of_dom. by eexists. }
    exists ith'. split; [done|]. by apply (Hs idle ith ith').
  - rewrite <-size_dom, Hd, size_dom. done.
Qed.

Lemma bsem_ok_same s s' :
  bsem_ok s → k_sem s' = k_sem s → (∀ sp, qof s' (QSem sp) = qof s (QSem sp)) → bsem_ok s'.
Proof.
  intros [H1 H2 H3] E1 E2. split; [by apply (sem_wf_same s)|intros sp c; rewrite E1; apply H2|intros sp; rewrite E1; apply H3].
Qed.

Lemma apps_ext s s' : k_thd s' = k_thd s → k_sem s' = k_sem s → k_q s' = k_q s → apps s → apps s'.
Proof.
  intros E1 E2 E3 [[Ht1 Ht2 Ht3] Hb]. split; [by split; rewrite E1|].
  apply (bsem_ok_same s); try done. intros sp. unfold qof. by rewrite E3.
Qed.

Lemma lock_UI t s : UJ t s → ∃ s1, chSysLock s = Done () s1 ∧ KJ t s1.
Proof.
  intros [[Hu Ha] Hc]. destruct (lock_user s Hu) as (s1 & E & HK & D1). exists s1. split; [done|].
  pose proof D1 as (E1 & E2 & E3 & _ & _ & _ & _ & _ & E9 & _). split; [|congruence]. split; [done|]. by apply (apps_ext s).
Qed.

Lemma unlock_KI t s : KJ t s → ∃ s1, chSysUnlock s = Done () s1 ∧ UJ t s1.
Proof.
  intros [[HK Ha] Hc]. destruct (unlock_user s HK) as (s1 & E & Hu & D1). exists s1. split; [done|].
  pose proof D1 as (E1 & E2 & E3 & _ & _ & _ & _ & _ & E9 & _). split; [|congruence]. split; [done|]. by apply (apps_ext s).
Qed.

(** Preemption keeps it. *)
Lemma apps_swap cmp s ntp nth cth l :
  wf s → k_thd s !! k_cur s = Some cth → k_thd s !! ntp = Some nth → qof s QReady = ntp :: l →
  apps s → apps (swap_st cmp ntp nth cth l s).
Proof.
  intros Hw Ec En Hq [Ht Hb]. pose proof (ready_head_ne s ntp l Hw Hq) as Hne.
  destruct (wf_cur _ Hw) as (? & ? & Hcst). simplify_eq.
  destruct (wf_ready_thd _ _ _ Hw Hq) as (? & ? & Hnst). simplify_eq.
  split; [apply (thr_ok_sim s)|apply (bsem_ok_same s)]; try done.
  - simpl. rewrite !dom_insert_L. apply elem_of_dom_2 in Ec, En. set_solver.
  - intros t th th' Et. simpl. rewrite !lookup_insert. repeat case_decide; intros Et'; simplify_eq.
    + split; [apply thr_sim_keep; [done|by right]|by left].
    + split; [apply thr_sim_keep; [done|by left]|by right].
    + split; [apply thr_sim_refl|intros ->; by apply (idle_same s)].
  - intros sp. unfold swap_st. rewrite qof_put_q_ne by done. rewrite qof_put_thd. unfold run_st. rewrite qof_put_thd.
    by apply qof_put_q_ne.
Qed.

Lemma switch_KI ntp otp th s : KI s → KI (switch_st ntp otp th s).
Proof. intros [HK Ha]. split; [by apply (K_ext s)|by apply (apps_ext s)]. Qed.

(** The reschedule at the end of an operation. *)
Lemma reschedule_post s :
  wf s → in_S s → apps s →
  post KI (KJ (k_cur s)) (chSchRescheduleS s) (λ _ s', KJ (k_cur s) s').
Proof.
  intros Hw HS Ha. destruct (chSchRescheduleS_cases s Hw HS)
    as [[-> HK]|(ntp & nth & cth & l & Ec & En & Hq & Hlt & HK & ->)]; [done|].
  split; [|by intros s']. apply switch_KI. split; [done|]. by apply apps_swap.
Qed.

Lemma resched_unlock_UJ s :
  wf s → in_S s → apps s →
  post KI (KJ (k_cur s)) (rbind (chSchRescheduleS s) (λ _, chSysUnlock)) (λ _ s', UJ (k_cur s) s').
Proof.
  intros Hw HS Ha. apply post_bind. eapply post_mono; [|by apply reschedule_post].
  intros [] s' HJ. destruct (unlock_KI _ _ HJ) as (s1 & -> & HU). done.
Qed.

(** *** Updates of several threads *)

Lemma thr_ok_upd (P : tid → Prop) `{∀ t, Decision (P t)} f s s' :
  thr_ok s → (∀ t, k_thd s' !! t = if decide (P t) then f <$> k_thd s !! t else k_thd s !! t) →
  (∀ th, ∃ m, p_u (f th) = U_msg m) → (∀ th, runnable (f th)) → thr_ok s'.
Proof.
  intros Ht E Hu Hr. apply (thr_ok_sim s); [done|..].
  - apply set_eq. intros t. rewrite !elem_of_dom, E. case_decide; [|done]. by rewrite fmap_is_Some.
  - intros t th th' Et. rewrite E, Et. case_decide; intros Et'; simplify_eq/=.
    + split; [intros _; by left|done].
    + split; [apply thr_sim_refl|intros ->; by apply (idle_same s)].
Qed.

(** *** Semaphore operations *)

Lemma bsem_at s sp : bsem_ok s → sp ∈ D → ∃ c, k_sem s !! sp = Some c ∧ c ≤ 1.
Proof. intros [H1 H2 H3] Hsp. destruct (H3 sp Hsp) as [c Ec]. exists c. split; [done|]. by apply (H2 sp). Qed.

Lemma bsem_ok_upd s s' sp c :
  bsem_ok s → sem_wf s' → k_sem s' = <[sp := c]> (k_sem s) → c ≤ 1 → bsem_ok s'.
Proof.
  intros [H1 H2 H3] Hw E Hc. split; [done|..].
  - intros x cx. rewrite E, lookup_insert. case_decide; [by intros [= <-]|apply H2].
  - intros x Hx. rewrite E. apply lookup_insert_is_Some'. right. by apply H3.
Qed.

(** What an I-class operation leaves for the caller. *)
Definition served (s s' : kst) : Prop :=
  wf s' ∧ apps s' ∧ k_cur s' = k_cur s ∧ k_isr s' = k_isr s ∧ k_lock s' = k_lock s.

Lemma chBSemSignalI_served s sp :
  wf s → in_I s → apps s → sp ∈ D → ∃ s', chBSemSignalI sp s = Done () s' ∧ served s s'.
Proof.
  intros Hw HI [Ht Hb] Hsp. destruct (bsem_at s sp Hb Hsp) as (c & Ec & Hc).
  unfold chBSemSignalI. mgo. rewrite (classI_ok s HI). mgo. rewrite (sem_cnt_ok _ _ _ Ec). mgo.
  destruct (Z.ltb_spec c 1) as [Hlt|]; [|exists s; by mgo]. mgo.
  assert (c < INT32_MAX) as Hmax by (unfold INT32_MAX; lia).
  rewrite (chSemSignalI_ok s sp c Hw (bs_wf _ Hb) HI Ec Hmax).
  destruct (signal_st_wf s sp c Hw (bs_wf _ Hb) Ec Hmax) as (W & S & Ek & _).
  exists (signal_st sp c s). split; [done|]. split; [done|]. split; [split|apply signal_st_ctx].
  - eapply (thr_ok_upd (λ t, head (qof s (QSem sp)) = Some t)); [done|intros t; by apply signal_st_thd|..].
    + intros th. by eexists.
    + intros th. by left.
  - apply (bsem_ok_upd s _ sp (c + 1)); try done. lia.
Qed.

Lemma chBSemResetI_served s sp (taken : bool) :
  wf s → in_I s → apps s → sp ∈ D → ∃ s', chSemResetI sp (if taken then 0 else 1) s = Done () s' ∧ served s s'.
Proof.
  intros Hw HI [Ht Hb] Hsp. destruct (bsem_at s sp Hb Hsp) as (c & Ec & Hc).
  destruct (chSemResetI_ok s sp c (if taken then 0 else 1)) as (s' & E & W & S & Ek & _ & Hctx & Hthd);
    [done|apply Hb|done|done|unfold INT32_MAX; lia|unfold INT32_MAX; destruct taken; lia|].
  exists s'. split; [done|]. split; [done|]. split; [split|done].
  - eapply (thr_ok_upd (λ t, t ∈ qof s (QSem sp))); [done|exact Hthd|intros th; by eexists|intros th; by left].
  - apply (bsem_ok_upd s _ sp (if taken then 0 else 1)); try done. destruct taken; lia.
Qed.

Lemma isr_body_served s i :
  wf s → in_I s → apps s → (match i with ISignal sp => sp ∈ D | IReset sp _ => sp ∈ D end) →
  ∃ s', isr_body i s = Done () s' ∧ served s s'.
Proof.
  intros Hw HI Ha Hi. destruct i as [sp|sp taken]; [by apply chBSemSignalI_served|].
  unfold isr_body, chBSemResetI. mgo. rewrite (classI_ok s HI). mgo. by apply chBSemResetI_served.
Qed.

(** The idle thread waits in the ready queue while another thread runs. *)
Lemma idle_ready s : wf s → thr_ok s → k_cur s ≠ idle → ∃ ntp l, qof s QReady = ntp :: l.
Proof.
  intros Hw Ht Hne. destruct (to_idle _ Ht) as (ith & Ei & Hi).
  assert (p_state ith = CH_STATE_READY) as Hst by (destruct Hi as [|Hc]; [done|by destruct Hne; symmetry; apply (wf_uniq _ Hw idle ith)]).
  destruct (qw_loc _ _ (wf_q _ Hw) idle ith Ei) as [q Hq]; [set_solver|by rewrite Hst|].
  destruct (qw_mem _ _ (wf_q _ Hw) q idle Hq) as (th' & Ei' & Hqs). simplify_eq.
  destruct q; simpl in Hqs; try (destruct Hqs; congruence); try congruence.
  destruct (qof s QReady) as [|ntp l]; [set_solver|eauto].
Qed.

Lemma nodup_size {A} (m : gmap tid A) (l : list tid) : NoDup l → (∀ t, t ∈ l → is_Some (m !! t)) → (length l ≤ size m)%nat.
Proof.
  intros Hnd Hl. rewrite <-(size_dom m), <-(size_list_to_set (C := gset tid) l) by done.
  apply subseteq_size. intros t Ht. apply elem_of_dom, Hl. set_solver.
Qed.

(** A counter cannot underflow: its negative value counts existing threads. *)
Lemma sem_low s sp c : wf s → apps s → k_sem s !! sp = Some c → INT32_MIN < c.
Proof.
  intros Hw [Ht Hb] Ec. destruct (sem_at s sp c (bs_wf _ Hb) Ec) as [Hok _]. unfold sem_ok in Hok.
  assert (length (qof s (QSem sp)) ≤ size (k_thd s))%nat as Hl.
  { apply nodup_size; [apply (qw_nodup _ _ (wf_q _ Hw))|]. intros t Hin.
    destruct (qw_mem _ _ (wf_q _ Hw) _ _ Hin) as (th & E & _). by eexists. }
  pose proof (to_many _ Ht). unfold INT32_MAX, INT32_MIN in *. lia.
Qed.

Lemma chSemWaitS_post t s sp :
  KJ t s → t ≠ idle → sp ∈ D → post KI (KJ t) (chSemWaitS sp s) (λ _ s', KJ t s').
Proof.
  intros [[HK Ha] Hcur] Hne Hsp. pose proof HK as (Hw & Hok & HS). pose proof Ha as [Ht Hb].
  destruct (bsem_at s sp Hb Hsp) as (c & Ec & Hc). pose proof (sem_low s sp c Hw Ha Ec) as Hlo.
  destruct (sem_at s sp c (bs_wf _ Hb) Ec) as [Hsok Hrg].
  unfold chSemWaitS. rewrite bind_eq, (classS_ok s HS), rbind_done. rewrite wait_prologue with (c := c); [|apply Hb|done|done].
  destruct (Z.ltb_spec (c - 1) 0) as [Hlt|Hge].
  - destruct (wf_cur _ Hw) as (cth & Ecur & Hcst). rewrite wait_link with (cth := cth) by done.
    destruct (idle_ready s Hw Ht) as (ntp & l & Hr); [congruence|].
    destruct (wait_sleep s sp c cth ntp l HK (bs_wf _ Hb) Ec Hlo ltac:(lia) Ecur Hr (wait_st sp c cth s) ltac:(done))
      as (s1 & E1 & K1 & O1 & S1 & C1 & Ek1 & _).
    destruct (wf_ready_thd _ _ _ Hw Hr) as (nth & En & Hnst). pose proof (ready_head_ne s ntp l Hw Hr) as Hnt.
    assert (k_thd s1 = <[ntp := set_p_state CH_STATE_CURRENT nth]>
      (<[k_cur s := set_p_state CH_STATE_WTSEM (set_p_u (U_wtsemp sp) cth)]> (k_thd s))) as Et1.
    { rewrite (chSchGoSleepS_ok _ _ (set_p_u (U_wtsemp sp) cth) ntp nth l) in E1.
      - injection E1 as <-. simpl. by rewrite insert_insert_eq.
      - done.
      - apply lookup_insert_eq.
      - etrans; [|exact Hr]. unfold wait_st, block_st. by rewrite qof_put_q_ne, qof_put_thd.
      - simpl. by rewrite lookup_insert_ne.
      - done. }
    rewrite bind_eq, E1, rbind_switch. cbn [post]. split.
    + split; [done|]. split; [|by apply (bsem_ok_upd s _ sp (c - 1)); try lia].
      apply (thr_ok_sim s); [done|..].
      * rewrite Et1, !dom_insert_L. apply elem_of_dom_2 in Ecur, En. set_solver.
      * intros x th th' Ex. rewrite Et1, !lookup_insert. repeat case_decide; intros Ex'; simplify_eq.
        -- split; [apply thr_sim_keep; [done|by left]|by right].
        -- split; [by intros [?|?]|intros Hi; by destruct Hne].
        -- split; [apply thr_sim_refl|intros ->; by apply (idle_same s)].
    + intros s' HJ'. rewrite rbind_done. mgo. pose proof HJ' as [[(W' & _ & _) [Ht' _]] Hc'].
      destruct (wf_cur _ W') as (cth' & Ecur' & Hcst'). destruct (to_msg _ Ht' _ _ Ecur') as [m Hm]; [by right|].
      rewrite (rdymsg_ok _ _ _ _ Ecur' Hm). done.
  - mgo. split; [|done]. split; [by apply (K_ext s)|]. split; [by destruct Ht|].
    apply (bsem_ok_upd s _ sp (c - 1)); [done| |done|lia].
    apply (sem_wf_upd s _ sp (c - 1) (qof s (QSem sp))); [apply Hb|done|done|done|..];
      unfold sem_ok, is_s32, INT32_MIN, INT32_MAX in *; lia.
Qed.

(** *** Every call *)

Definition call_ok (t : tid) (c : call) : Prop :=
  match c with
  | CWait sp => t ≠ idle ∧ sp ∈ D
  | CSignal sp | CReset sp _ => sp ∈ D
  | CYield => True
  | CSetPriority prio => NOPRIO < prio ≤ HIGHPRIO
  end.

Definition irq_ok (i : irq) : Prop := match i with ISignal sp | IReset sp _ => sp ∈ D end.

(** A call that serves a semaphore with an I-class function and reschedules. *)
Lemma served_post t s (m : M unit) :
  KJ t s → (∃ s', m s = Done () s' ∧ served s s') →
  post KI (KJ t) (rbind (m s) (λ _, chSchRescheduleS ;; chSysUnlock)) (λ _ s', UJ t s').
Proof.
  intros [[(Hw & Hok & HS) Ha] <-] (s' & -> & W' & A' & C' & I' & L'). rewrite rbind_done, bind_eq, <-C'.
  apply resched_unlock_UJ; [done| |done]. unfold in_S. by rewrite I', L'.
Qed.

Lemma yield_post t s : KJ t s → post KI (KJ t) (chSchDoYieldS s) (λ _ s', KJ t s').
Proof.
  intros [[HK Ha] <-]. pose proof HK as (Hw & Hok & HS). unfold chSchDoYieldS, chSchCanYieldS. mgo.
  rewrite (classS_ok s HS). mgo. rewrite (classS_ok s HS). mgo.
  destruct (Z.leb_spec (prio_of s (k_cur s)) (firstprio_of s)) as [Hle|]; mgo; [|done].
  destruct (wf_cur _ Hw) as (cth & Ec & Hcst). pose proof (qw_prio _ _ (wf_q _ Hw) _ _ Ec) as Hp.
  destruct (qof s QReady) as [|ntp l] eqn:Hq.
  { unfold firstprio_of in Hle. rewrite Hq, (prio_of_thd _ _ _ Ec) in Hle. lia. }
  destruct (wf_ready_thd _ _ _ Hw Hq) as (nth & En & _).
  rewrite (firstprio_ready _ _ _ Hq), (prio_of_thd _ _ _ Ec), (prio_of_thd _ _ _ En) in Hle.
  rewrite (chSchDoRescheduleBehind_ok s ntp nth cth l Hw Ec Hq En (in_S_I _ HS) Hcst).
  split; [|by intros s']. apply switch_KI. split; [|by apply apps_swap].
  apply swap_st_K; try done; intros x y; [by rewrite Z.leb_le|rewrite Z.leb_gt; lia].
Qed.

Lemma exec_post t s c : UJ t s → call_ok t c → post KI (KJ t) (exec c s) (λ _ s', UJ t s').
Proof.
  intros HU Hc. destruct (lock_UI t s HU) as (s1 & E1 & HJ). pose proof HJ as [[(W1 & _ & HS1) A1] C1].
  destruct c as [sp|sp|sp taken| |prio]; simpl in Hc; simpl exec.
  - destruct Hc as [Hne Hsp]. unfold chBSemWait, chSemWait. mgo. rewrite E1. mgo. apply post_bind, post_bind.
    eapply post_mono; [|by apply chSemWaitS_post]. intros m s2 HJ2. mgo.
    destruct (unlock_KI _ _ HJ2) as (s3 & -> & HU3). by mgo.
  - unfold chBSemSignal. mgo. rewrite E1. mgo. apply served_post; [done|]. apply chBSemSignalI_served; try done.
    by apply in_S_I.
  - unfold chBSemReset, chSemReset. mgo. rewrite E1. mgo. apply served_post; [done|].
    apply chBSemResetI_served; try done. by apply in_S_I.
  - unfold chThdYield. mgo. rewrite E1. mgo. apply post_bind. eapply post_mono; [|by apply yield_post].
    intros [] s2 HJ2. destruct (unlock_KI _ _ HJ2) as (s3 & -> & HU3). done.
  - destruct HU as [[Hu Ha] <-]. destruct (wf_cur _ (proj1 Hu)) as (cth & Ec & Hcst).
    destruct (chThdSetPriority_eq s cth prio Hu Ec Hc) as (s2 & D2 & K2 & W2 & E2). rewrite bind_eq, E2. clear E2.
    set (s3 := put_thd (k_cur s) (reprio_self prio cth) s2) in *. pose proof D2 as (D2c & D2t & D2q & _ & _ & _ & _ & _ & D2s & _).
    assert (apps s3) as A3.
    { destruct Ha as [Ht Hb]. split; [apply (thr_ok_sim s)|apply (bsem_ok_same s)]; try done.
      - simpl. rewrite D2t, dom_insert_L. apply elem_of_dom_2 in Ec. set_solver.
      - intros x th th' Ex. simpl. rewrite D2t, lookup_insert. case_decide; intros Ex'; simplify_eq.
        + split; [apply thr_sim_keep; [done|by right]|by right].
        + split; [apply thr_sim_refl|intros ->; by apply (idle_same s)].
      - intros sp. unfold qof. simpl. by rewrite D2q. }
    apply post_bind, post_bind. rewrite <-D2c. change (k_cur s2) with (k_cur s3).
    eapply post_mono; [|apply reschedule_post; [done|apply K2|done]]. intros [] s4 HJ4. cbn beta.
    destruct (unlock_KI _ _ HJ4) as (s5 & -> & HU5). by mgo.
Qed.

(** *** Thread start and interrupts *)

Lemma port_thread_start_ok t s : KJ t s → ∃ s', port_thread_start s = Done () s' ∧ UJ t s'.
Proof.
  intros [[(Hw & Hok & HS) Ha] Hc]. pose proof HS as [Hi Hl].
  unfold port_thread_start, dbg_check_unlock, stats_stop_measure_crit_thd, dbg_leave_lock. mgo.
  rewrite Hi. destruct (Z.leb_spec (k_lock s) 0); [lia|]. rewrite Z.eqb_refl. cbn [negb orb]. mgo.
  eexists. split; [done|]. split; [|done]. split; [|by apply (apps_ext s)].
  split_and!; [by apply (wf_ext s)|by apply (sched_ok_ext s)|done].
Qed.

(** What a handler does before the exit sequence of the port. *)
Lemma irq_served t s i :
  UJ t s → irq_ok i →
  ∃ s', wf s' ∧ apps s' ∧ unlocked s' ∧ k_cur s' = t ∧ exec_irq i s = port_irq_epilogue true s'.
Proof.
  intros [[(Hw & Hok & Hu) Ha] Hc] Hi.
  destruct (irq_prologue_ok s Hu) as (s1 & E1 & I1 & N1 & D1). pose proof D1 as (c1 & t1 & q1 & _ & _ & _ & _ & _ & m1 & _).
  destruct (chSysLockFromISR_ok s1 I1) as (s2 & E2 & I2 & N2 & D2). pose proof D2 as (c2 & t2 & q2 & _ & _ & _ & _ & _ & m2 & _).
  destruct (isr_body_served s2 i) as (s3 & E3 & W3 & A3 & C3 & N3 & L3).
  { apply (wf_ext s); congruence. } { done. } { apply (apps_ext s); congruence. } { by destruct i. }
  destruct (chSysUnlockFromISR_ok s3) as (s4 & E4 & I4 & N4 & D4).
  { unfold in_I. rewrite N3, L3. apply I2. } { lia. }
  pose proof D4 as (c4 & t4 & q4 & _ & _ & _ & _ & _ & m4 & _).
  destruct (irq_epilogue_ok s4 I4) as (s5 & E5 & U5 & D5); [lia|]. pose proof D5 as (c5 & t5 & q5 & _ & _ & _ & _ & _ & m5 & _).
  exists s5. split_and!.
  - apply (wf_ext s3); congruence.
  - apply (apps_ext s3); congruence.
  - done.
  - congruence.
  - unfold exec_irq. mgo. rewrite E1. mgo. rewrite E2. mgo. rewrite E3. mgo. rewrite E4. mgo. rewrite E5. by mgo.
Qed.

Lemma exec_irq_post t s i : UJ t s → irq_ok i → post KI (KJ t) (exec_irq i s) (λ _ s', UJ t s').
Proof.
  intros HU Hi. destruct (irq_served t s i HU Hi) as (s1 & W1 & A1 & U1 & C1 & ->).
  unfold port_irq_epilogue, chSchIsPreemptionRequired. mgo.
  destruct (Z.ltb_spec (prio_of s1 (k_cur s1)) (firstprio_of s1)) as [Hlt|Hge]; mgo.
  - assert (∃ s2, chSysLock s1 = Done () s2 ∧ same_data s1 s2 ∧ in_S s2) as (s2 & E2 & D2 & S2).
    { destruct U1 as [Hi1 Hl1]. unfold chSysLock, dbg_check_lock, stats_start_measure_crit_thd, dbg_enter_lock. mgo.
      cbn [k_isr k_lock set_k_stats]. rewrite Hi1, Hl1, ?Z.eqb_refl. cbn [negb orb]. mgo. eexists. split; [done|]. done. }
    pose proof D2 as (c2 & t2 & q2 & _ & _ & _ & _ & _ & m2 & _).
    assert (wf s2) as W2 by by apply (wf_ext s1). assert (apps s2) as A2 by by apply (apps_ext s1).
    assert (prio_of s2 (k_cur s2) < firstprio_of s2) as Hlt2.
    { unfold firstprio_of, prio_of, qof in *. by rewrite c2, t2, q2. }
    destruct (wf_cur _ W2) as (cth & Ec & Hcst). pose proof (qw_prio _ _ (wf_q _ W2) _ _ Ec) as Hp.
    destruct (qof s2 QReady) as [|ntp l] eqn:Hq.
    { unfold firstprio_of in Hlt2. rewrite Hq, (prio_of_thd _ _ _ Ec) in Hlt2. lia. }
    destruct (wf_ready_thd _ _ _ W2 Hq) as (nth & En & _).
    rewrite (firstprio_ready _ _ _ Hq), (prio_of_thd _ _ _ Ec), (prio_of_thd _ _ _ En) in Hlt2.
    assert (port_switch_from_isr s1 = rbind (chSchDoRescheduleAhead s2) (λ _, port_thread_start)) as ->.
    { unfold port_switch_from_isr. mgo. unfold chSysLock in E2. rewrite bind_eq in E2.
      apply rbind_done_inv in E2 as ([] & sa & Ea & E2). rewrite Ea. mgo. rewrite E2. mgo.
      unfold chSchDoReschedule. f_equal. }
    rewrite (chSchDoRescheduleAhead_ok s2 ntp nth cth l W2 Ec Hq En). cbn [rbind post]. split.
    + apply switch_KI. split; [|by apply apps_swap]. apply swap_st_K; try done; [intros x y; rewrite ?Z.ltb_lt, ?Z.ltb_ge; lia..|lia].
    + intros s' HJ. destruct (port_thread_start_ok t s' HJ) as (s3 & -> & HU3). done.
  - split; [|done]. split; [|done]. split_and!; [done| |done]. by apply sched_ok_first.
Qed.

(** *** All configurations *)

Variable prog : tid → list call.
Hypothesis Hprog : ∀ t, Forall (call_ok t) (prog t).

Definition ctx_safe (t : tid) (x : ctx) : Prop :=
  Forall (call_ok t) (x_calls x) ∧ ∀ s, KJ t s → post KI (KJ t) (x_cont x s) (λ _ s', UJ t s').

Record cfg_safe (g : cfg) : Prop := {
  cs_res : post KI (KJ (c_me g)) (c_res g) (λ _ s', UJ (c_me g) s');
  cs_calls : Forall (call_ok (c_me g)) (c_calls g);
  cs_pool : ∀ t x, c_pool g !! t = Some x → ctx_safe t x
}.

Lemma resume_safe P t : (∀ t x, P !! t = Some x → ctx_safe t x) → ctx_safe t (resume prog P t).
Proof using Hprog.
  intros HP. unfold resume. destruct (P !! t) as [x|] eqn:E; [by apply HP|]. split; [apply Hprog|].
  intros s HJ. simpl. destruct (port_thread_start_ok t s HJ) as (s' & -> & HU). done.
Qed.

Variable irqs : irq → Prop.
Hypothesis Hirqs : ∀ i, irqs i → irq_ok i.

Lemma step_safe g g' : cfg_safe g → step prog irqs g g' → cfg_safe g'.
Proof using Hprog Hirqs.
  intros [Hr Hc HP] Hs. destruct Hs as [me P c cs s|me P cs i s Hi|me P cs s k P' x]; simpl in *.
  - apply Forall_cons in Hc as [Hc Hcs]. split; [by apply exec_post|done|done].
  - split; [apply exec_irq_post; [done|by apply Hirqs]|done|done].
  - destruct Hr as [HK Hk].
    assert (∀ t x, P' !! t = Some x → ctx_safe t x) as HP'.
    { intros t y. unfold P'. rewrite lookup_insert. case_decide as Ht; [|apply HP]. intros [= <-]. by rewrite <-Ht. }
    destruct (resume_safe P' (k_cur s) HP') as [Hxc Hx]. split; simpl; [by apply Hx|done|].
    intros t y [_ Hy]%lookup_delete_Some. by apply HP'.
Qed.

Lemma reachable_safe g g' : rtc (step prog irqs) g g' → cfg_safe g → cfg_safe g'.
Proof using Hprog Hirqs. induction 1; [done|]. intros. by eauto using step_safe. Qed.
End Invariant.

(** C1.  Safety of a whole application.  Threads whose programs use existing binary
    semaphores, yield and set priorities, interleaved with handlers that signal
    and reset semaphores at any point between two calls: no assertion of the
    kernel ever fails and no undefined behaviour is reached (a result is never
    a halt or a fault); at every context switch and between any two calls the
    queues are well formed, the running thread has the highest priority of all
    ready threads, it is the one the scheduler made current, and every
    semaphore counter agrees with its queue.  An application never gets stuck:
    there is a next step unless the running program has ended. *)
Theorem application_safe idle D prog irqs s0 g :
  user s0 → thr_ok idle s0 → bsem_ok D s0 →
  (∀ t, Forall (call_ok idle D t) (prog t)) → (∀ i, irqs i → irq_ok D i) →
  rtc (step prog irqs) (boot prog s0) g →
  ((∃ s, c_res g = Done () s ∧ user s ∧ sem_wf s ∧ k_cur s = c_me g ∧
         (c_calls g = [] ∨ ∃ g', step prog irqs g g')) ∨
   (∃ s k, c_res g = Switch s k ∧ K s ∧ sem_wf s ∧ ∃ g', step prog irqs g g')).
Proof.
  intros Hu Ht Hb Hp Hi Hr.
  assert (cfg_safe idle D g) as [Hres _ _].
  { apply (reachable_safe idle D prog Hp irqs Hi _ _ Hr). split; simpl; [done|apply Hp|]. intros t x. by rewrite lookup_empty. }
  destruct g as [me P cs [[] s| | |s k]]; simpl in *; try done.
  - left. destruct Hres as [[Hus [_ Hbs]] Hme]. exists s. split_and!; [done|done|apply Hbs|done|].
    destruct cs as [|c cs]; [by left|]. right. eexists. apply step_call.
  - right. destruct Hres as [[HK [_ Hbs]] _]. exists s, k. split_and!; [done|done|apply Hbs|]. eexists. apply step_switch.
Qed.
