(* ===== verification/DSP.v ===== *)
(** * The DSP filter library (examples/DSP-Library)

    FIR and IIR filters of the example application: DataFilter.cpp,
    FuntionsMath.cpp, Filter.cpp, FIR.cpp, IIR.cpp and the sample loop of
    main.cpp.  The arrays live in blocks of the kernel heap; an access outside
    a block is undefined behaviour and has no result.  The members [Cont] of
    the classes are loop counters and appear as such. *)

From Stdlib Require Import SpecFloat Ring.
From S2P Require Import Prelude TimeMeas Kernel ThreadQueues Sys VTimers Sched Mtx Memory.

(** ** Arithmetic of [float]

    The filters only use zero, subtraction and the accumulation of a product,
    [acc += c * x], which the compiler may round once or twice. *)

Class Arith (F : Type) := { fzero : F; fsub : F → F → F; fmac : F → F → F → F }.

(** IEEE single precision, with the product rounded. *)
#[export] Instance binary32 : Arith spec_float :=
  {| fzero := S754_zero false; fsub := SFsub 24 128; fmac acc c x := SFadd 24 128 acc (SFmul 24 128 c x) |}.

(** Exact arithmetic. *)
#[export] Instance exact : Arith Z := {| fzero := 0; fsub := Z.sub; fmac acc c x := acc + c * x |}.

Definition BUFFER_SIZE : Z := 10.

Section DSP.
Context {F : Type} `{Arith F}.

(** ** Arrays *)

Record farray := mkArr { a_addr : Z; a_cells : list F }.

(** A [float *] member: never assigned, NULL, or an array. *)
Inductive fptr := FUninit | FNull | FArr (a : farray).

Definition cell (l : list F) (i : Z) : option F := if i <? 0 then None else l !! Z.to_nat i.
Definition rd (p : fptr) (i : Z) : option F := match p with FArr a => cell (a_cells a) i | _ => None end.
Definition wr (p : fptr) (i : Z) (v : F) : option fptr :=
  match p with
  | FArr a => match cell (a_cells a) i with
              | Some _ => Some (FArr (mkArr (a_addr a) (<[Z.to_nat i := v]> (a_cells a))))
              | None => None
              end
  | _ => None
  end.

(** ** FuntionsMath *)

(** [for (Cont = i; ...; Cont++)] with [n] iterations left. *)
Fixpoint sum_loop (n : nat) (i pCont pUpperLimit : Z) (pCoefficients pArray : Z → option F) (res : F) : option F :=
  match n with
  | O => Some res
  | S n =>
      c ← pCoefficients i;
      x ← pArray (pCont + pUpperLimit);
      sum_loop n (i + 1) (pCont - 1) pUpperLimit pCoefficients pArray (fmac res c x)
  end.

Definition sum (pUpperLimit pLowerLimit : Z) (pCoefficients pArray : Z → option F) (pCont : Z) : option F :=
  sum_loop (Z.to_nat (pUpperLimit - pLowerLimit + 1)) pLowerLimit pCont pUpperLimit pCoefficients pArray fzero.

(** ** DataFilter *)

Record DataFilter := mkDF {
  FilterOrder : Z;
  ArrayCoefficientsB : fptr; ArrayInputsX : fptr;
  ArrayCoefficientsA : fptr; ArrayInputsY : fptr
}.

Definition setFilterOrder (n : Z) (d : DataFilter) : DataFilter :=
  mkDF n (ArrayCoefficientsB d) (ArrayInputsX d) (ArrayCoefficientsA d) (ArrayInputsY d).
Definition set_B p d := mkDF (FilterOrder d) p (ArrayInputsX d) (ArrayCoefficientsA d) (ArrayInputsY d).
Definition set_X p d := mkDF (FilterOrder d) (ArrayCoefficientsB d) p (ArrayCoefficientsA d) (ArrayInputsY d).
Definition set_A p d := mkDF (FilterOrder d) (ArrayCoefficientsB d) (ArrayInputsX d) p (ArrayInputsY d).
Definition set_Y p d := mkDF (FilterOrder d) (ArrayCoefficientsB d) (ArrayInputsX d) (ArrayCoefficientsA d) p.

(** [for (Cont = i; ...; Cont++) dst[Cont] = src(dst, Cont);], [n] iterations. *)
Fixpoint copy_loop (n : nat) (i : Z) (src : fptr → Z → option F) (dst : fptr) : option fptr :=
  match n with
  | O => Some dst
  | S n => v ← src dst i; dst' ← wr dst i v; copy_loop n (i + 1) src dst'
  end.

(** The arguments of the setters are arrays of the caller. *)
Definition setArrayCoefficientsB (p : list F) (d : DataFilter) : option DataFilter :=
  a ← copy_loop (Z.to_nat (FilterOrder d + 1)) 0 (λ _ i, cell p i) (ArrayCoefficientsB d); Some (set_B a d).
Definition setArrayInitialConditionsX (p : list F) (d : DataFilter) : option DataFilter :=
  a ← copy_loop (Z.to_nat (FilterOrder d)) 0 (λ _ i, cell p i) (ArrayInputsX d); Some (set_X a d).
Definition setArrayCoefficientsA (p : list F) (d : DataFilter) : option DataFilter :=
  a ← copy_loop (Z.to_nat (FilterOrder d)) 0 (λ _ i, cell p (i + 1)) (ArrayCoefficientsA d); Some (set_A a d).
Definition setArrayInitialConditionsY (p : list F) (d : DataFilter) : option DataFilter :=
  a ← copy_loop (Z.to_nat (FilterOrder d)) 0 (λ _ i, cell p i) (ArrayInputsY d); Some (set_Y a d).

Definition moveArray (order : Z) (pArray : fptr) : option fptr :=
  copy_loop (Z.to_nat order) 0 (λ a i, rd a (i + BUFFER_SIZE)) pArray.

(** A call through a [FuntionsMath *], an address (NULL is 0): the method writes
    the member [Cont] of the object. *)
Definition math_sum (MathOperation up : Z) (c x : Z → option F) (pCont : Z) : option F :=
  if MathOperation =? 0 then None else sum up 0 c x pCont.

(** The initial conditions of the second direct form. *)
Fixpoint aux_loop (MathOperation : Z) (n : nat) (i : Z) (A X Y : fptr) : option fptr :=
  match n with
  | O => Some Y
  | S n =>
      _NumSum ← math_sum MathOperation i (rd A) (rd Y) 0;
      _NumX ← rd X (i + 1);
      Y' ← wr Y (i + 1) (fsub _NumX _NumSum);
      aux_loop MathOperation n (i + 1) A X Y'
  end.

Definition aux_array (MathOperation : Z) (d : DataFilter) : option DataFilter :=
  x0 ← rd (ArrayInputsX d) 0;
  Y ← wr (ArrayInputsY d) 0 x0;
  Y ← aux_loop MathOperation (Z.to_nat (FilterOrder d - 1)) 0 (ArrayCoefficientsA d) (ArrayInputsX d) Y;
  Some (set_Y Y d).

(** ** Construction in heap memory *)

Section Build.
Variable user_provider : positive → Z → M Z.
(** What fresh memory at an address contains. *)
Variable junk : Z → nat → F.

Definition lift {A} (o : option A) : M A := match o with Some a => mret a | None => fault end.

(** [(float* ) chHeapAlloc(NULL, sizeof(float) * n)] *)
Definition alloc_floats (n : Z) : M fptr :=
  let size := u32 (4 * u32 n) in
  p ← chHeapAlloc user_provider None size;
  mret (if p =? 0 then FNull else FArr (mkArr p (junk p <$> seq 0 (Z.to_nat (size / 4))))).

(** [sizeof(FuntionsMath)] is 4. *)
Definition createArrayAux (d : DataFilter) : M DataFilter :=
  MathOperation ← chHeapAlloc user_provider None 4;
  lift (aux_array MathOperation d).

(** The object [d] is what the memory of [this] contains: [FilterOrder] is read
    before it is set. *)
Definition newDataFilter_FIR (pFilterOrder : Z) (pX pB : list F) (d : DataFilter) : M DataFilter :=
  B ← alloc_floats (pFilterOrder + 1);
  X ← alloc_floats (FilterOrder d + BUFFER_SIZE);
  let d := setFilterOrder pFilterOrder (set_X X (set_B B d)) in
  d ← lift (setArrayInitialConditionsX pX d);
  lift (setArrayCoefficientsB pB d).

Definition newDataFilter_IIR1 (pFilterOrder : Z) (pX pB pY pA : list F) (d : DataFilter) : M DataFilter :=
  B ← alloc_floats (pFilterOrder + 1);
  X ← alloc_floats (FilterOrder d + BUFFER_SIZE);
  A ← alloc_floats pFilterOrder;
  Y ← alloc_floats (FilterOrder d + BUFFER_SIZE);
  let d := setFilterOrder pFilterOrder (set_Y Y (set_A A (set_X X (set_B B d)))) in
  d ← lift (setArrayInitialConditionsX pX d);
  d ← lift (setArrayCoefficientsB pB d);
  d ← lift (setArrayInitialConditionsY pY d);
  lift (setArrayCoefficientsA pA d).

Definition newDataFilter_IIR2 (pFilterOrder : Z) (pX pB pA : list F) (d : DataFilter) : M DataFilter :=
  B ← alloc_floats (pFilterOrder + 1);
  X ← alloc_floats (FilterOrder d + BUFFER_SIZE);
  A ← alloc_floats pFilterOrder;
  Y ← alloc_floats (FilterOrder d + BUFFER_SIZE);
  let d := setFilterOrder pFilterOrder (set_Y Y (set_A A (set_X X (set_B B d)))) in
  d ← lift (setArrayInitialConditionsX pX d);
  d ← lift (setArrayCoefficientsB pB d);
  d ← lift (setArrayCoefficientsA pA d);
  createArrayAux d.

(** [delete] of a member array. *)
Definition free_floats (p : fptr) : M unit :=
  match p with FArr a => chHeapFree (a_addr a) | FNull => chHeapFree 0 | FUninit => fault end.
Definition DataFilter_destroy (d : DataFilter) : M unit :=
  free_floats (ArrayCoefficientsB d) ;; free_floats (ArrayCoefficientsA d) ;;
  free_floats (ArrayInputsY d) ;; free_floats (ArrayInputsX d).

(** ** Filter *)

(** [MathOperation] is an address, NULL is 0; [f_data] is the object
    [InitialDataFilter] points to. *)
Record Filter := mkFilter { MathOperation : Z; InitialDataFilter : Z; f_data : DataFilter; ContBuffer : Z }.

Definition setInitialDataFilter (ptr : Z) (d : DataFilter) : M Filter :=
  p ← chHeapAlloc user_provider None 4;
  mret (mkFilter p ptr d 0).
End Build.

(** The destructor of a derived class ends with the one of its base. *)
Definition Filter_destroy (f : Filter) : M unit := chHeapFree (MathOperation f) ;; chHeapFree (InitialDataFilter f).
Definition FIR_destroy (f : Filter) : M unit :=
  chHeapFree (MathOperation f) ;; chHeapFree (InitialDataFilter f) ;; Filter_destroy f.
Definition IIR_destroy (f : Filter) : M unit :=
  chHeapFree (MathOperation f) ;; chHeapFree (InitialDataFilter f) ;; Filter_destroy f.

(** ** FIR *)

Definition FIR_directFormI (pData : F) (f : Filter) : option (F * Filter) :=
  let d := f_data f in
  let n := FilterOrder d in
  '(X, c) ← (if ContBuffer f =? BUFFER_SIZE then X ← moveArray n (ArrayInputsX d); Some (X, 0)
             else Some (ArrayInputsX d, ContBuffer f));
  X ← wr X (n + c) pData;
  r ← math_sum (MathOperation f) n (rd (ArrayCoefficientsB d)) (rd X) c;
  Some (r, mkFilter (MathOperation f) (InitialDataFilter f) (set_X X d) (c + 1)).

(** The second form of the FIR class has the same body. *)
Definition FIR_directFormII (pData : F) (f : Filter) : option (F * Filter) := FIR_directFormI pData f.

(** ** IIR *)

Definition IIR_directFormI (pData : F) (f : Filter) : option (F * Filter) :=
  let d := f_data f in
  let n := FilterOrder d in
  '(X, Y, c) ← (if ContBuffer f =? BUFFER_SIZE then
                  X ← moveArray n (ArrayInputsX d); Y ← moveArray n (ArrayInputsY d); Some (X, Y, 0)
                else Some (ArrayInputsX d, ArrayInputsY d, ContBuffer f));
  X ← wr X (n + c) pData;
  rx ← math_sum (MathOperation f) n (rd (ArrayCoefficientsB d)) (rd X) c;
  ry ← math_sum (MathOperation f) (n - 1) (rd (ArrayCoefficientsA d)) (rd Y) c;
  let r := fsub rx ry in
  Y ← wr Y (n + c) r;
  Some (r, mkFilter (MathOperation f) (InitialDataFilter f) (set_Y Y (set_X X d)) (c + 1)).

Definition IIR_directFormII (pData : F) (f : Filter) : option (F * Filter) :=
  let d := f_data f in
  let n := FilterOrder d in
  '(X, V, c) ← (if ContBuffer f =? BUFFER_SIZE then
                  X ← moveArray n (ArrayInputsX d); V ← moveArray n (ArrayInputsY d); Some (X, V, 0)
                else Some (ArrayInputsX d, ArrayInputsY d, ContBuffer f));
  X ← wr X (n + c) pData;
  s ← math_sum (MathOperation f) (n - 1) (rd (ArrayCoefficientsA d)) (rd V) c;
  V ← wr V (n + c) (fsub pData s);
  r ← math_sum (MathOperation f) n (rd (ArrayCoefficientsB d)) (rd V) c;
  Some (r, mkFilter (MathOperation f) (InitialDataFilter f) (set_Y V (set_X X d)) (c + 1)).

(** ** The sample loop of Thread1 *)

(** TipoFiltro: 1 is IIR direct form I, 0 is FIR, anything else IIR direct form
    II.  The delays, the LED and the output of the results are left out. *)
Definition filter_sample (tipo : Z) : F → Filter → option (F * Filter) :=
  if tipo =? 1 then IIR_directFormI else if tipo =? 0 then FIR_directFormI else IIR_directFormII.

Fixpoint filter_all (form : F → Filter → option (F * Filter)) (xs : list F) (f : Filter) : option (list F * Filter) :=
  match xs with
  | [] => Some ([], f)
  | x :: xs => '(y, f1) ← form x f; '(ys, f2) ← filter_all form xs f1; Some (y :: ys, f2)
  end.

(** The data and the samples of the application: newDataFilter as main calls it,
    setInitialDataFilter and the sample loop as Thread1 calls them; [d] is what
    the memory of the DataFilter object contains before.  The two threads run
    the parts one after the other. *)
Section App.
Variable user_provider : positive → Z → M Z.
Variable junk : Z → nat → F.

Definition newDataFilter (TipoFiltro pFilterOrder : Z) (pX pB pY pA : list F) (d : DataFilter) : M DataFilter :=
  if TipoFiltro =? 1 then newDataFilter_IIR1 user_provider junk pFilterOrder pX pB pY pA d
  else if TipoFiltro =? 0 then newDataFilter_FIR user_provider junk pFilterOrder pX pB d
  else newDataFilter_IIR2 user_provider junk pFilterOrder pX pB pA d.

Definition filtering (TipoFiltro pFilterOrder : Z) (pX pB pY pA : list F) (ptr : Z) (d : DataFilter) (xs : list F) :
    M (list F) :=
  d ← newDataFilter TipoFiltro pFilterOrder pX pB pY pA d;
  f ← setInitialDataFilter user_provider ptr d;
  r ← lift (filter_all (filter_sample TipoFiltro) xs f);
  mret r.1.
End App.

(** ** Difference equations

    Signals are lists, newest sample first. *)

(** [((0 + c0 x0) + c1 x1) + ...], over the coefficients there are samples for. *)
Definition dot (cs xs : list F) : F := foldl (λ acc p, fmac acc p.1 p.2) fzero (zip cs xs).

(** y[n] = b0 x[n] + b1 x[n-1] + ... *)
Fixpoint fir_spec (b h : list F) (xs : list F) : list F :=
  match xs with [] => [] | x :: xs => dot b (x :: h) :: fir_spec b (x :: h) xs end.

(** y[n] = (b0 x[n] + b1 x[n-1] + ...) - (a1 y[n-1] + a2 y[n-2] + ...) *)
Fixpoint iir1_spec (b a hx hy : list F) (xs : list F) : list F :=
  match xs with
  | [] => []
  | x :: xs => let y := fsub (dot b (x :: hx)) (dot a hy) in y :: iir1_spec b a (x :: hx) (y :: hy) xs
  end.

(** v[n] = x[n] - (a1 v[n-1] + ...), y[n] = b0 v[n] + b1 v[n-1] + ... *)
Fixpoint iir2_spec (b a hv : list F) (xs : list F) : list F :=
  match xs with
  | [] => []
  | x :: xs => let v := fsub x (dot a hv) in dot b (v :: hv) :: iir2_spec b a (v :: hv) xs
  end.

(** The internal signal of the second form over the initial conditions [xs],
    oldest first. *)
Fixpoint aux_go (a hv : list F) (xs : list F) : list F :=
  match xs with [] => hv | x :: xs => aux_go a (fsub x (dot a hv) :: hv) xs end.
Definition aux_spec (a : list F) (xs : list F) : list F :=
  match xs with [] => [] | x :: xs => aux_go a [x] xs end.

(** ** Arrays and loops *)

#[local] Arguments cell : simpl never.
#[local] Arguments rd : simpl never.
#[local] Arguments wr : simpl never.
#[local] Arguments Z.of_nat : simpl never.

Lemma cell_nat (l : list F) (i : nat) : cell l (Z.of_nat i) = l !! i.
Proof. unfold cell. destruct (Z.ltb_spec (Z.of_nat i) 0); [lia|]. by rewrite Nat2Z.id. Qed.

Lemma rd_nat a l (i : nat) z : z = Z.of_nat i → rd (FArr (mkArr a l)) z = l !! i.
Proof. intros ->. apply cell_nat. Qed.

Lemma wr_nat a l (i : nat) z v :
  z = Z.of_nat i → (i < length l)%nat → wr (FArr (mkArr a l)) z v = Some (FArr (mkArr a (<[i := v]> l))).
Proof.
  intros -> Hi. unfold wr, a_cells. rewrite cell_nat. destruct (lookup_lt_is_Some_2 l i Hi) as [w ->].
  by rewrite Nat2Z.id.
Qed.

Lemma wr_out a l (i : nat) z v : z = Z.of_nat i → (length l ≤ i)%nat → wr (FArr (mkArr a l)) z v = None.
Proof. intros -> Hi. unfold wr, a_cells. by rewrite cell_nat, lookup_ge_None_2. Qed.

(** The fold of [sum] from any accumulator. *)
Definition macs (acc : F) (cs xs : list F) : F := foldl (λ acc p, fmac acc p.1 p.2) acc (zip cs xs).

Lemma sum_loop_eq (C X : Z → option F) up cs :
  ∀ xs i co res,
    (∀ k c, cs !! k = Some c → C (i + Z.of_nat k) = Some c) →
    (∀ k, (k < length cs)%nat → ∃ x, xs !! k = Some x ∧ X (co + up - Z.of_nat k) = Some x) →
    sum_loop (length cs) i co up C X res = Some (macs res cs xs).
Proof.
  induction cs as [|c cs IH]; intros xs i co res HC HX; [done|].
  destruct (HX 0%nat) as (x & Ex & EX); [simpl; lia|]. destruct xs as [|x' xs]; [done|]. injection Ex as ->.
  simpl. pose proof (HC 0%nat c eq_refl) as EC. rewrite Z.add_0_r in EC. rewrite Z.sub_0_r in EX.
  rewrite EC. simpl. rewrite EX. simpl. apply IH.
  - intros k d Hk. replace (i + 1 + Z.of_nat k) with (i + Z.of_nat (S k)) by lia. by apply HC.
  - intros k Hk. destruct (HX (S k)) as (y & Ey & EY); [simpl; lia|]. exists y. split; [done|].
    by replace (co - 1 + up - Z.of_nat k) with (co + up - Z.of_nat (S k)) by lia.
Qed.

(** A sum over [length cs] coefficients from 0. *)
Lemma math_sum_eq mo (C X : Z → option F) co cs xs :
  mo ≠ 0 →
  (∀ k c, cs !! k = Some c → C (Z.of_nat k) = Some c) →
  (∀ k, (k < length cs)%nat → ∃ x, xs !! k = Some x ∧ X (co + (Z.of_nat (length cs) - 1) - Z.of_nat k) = Some x) →
  math_sum mo (Z.of_nat (length cs) - 1) C X co = Some (dot cs xs).
Proof.
  intros Hm HC HX. unfold math_sum, sum. destruct (Z.eqb_spec mo 0); [done|].
  replace (Z.to_nat _) with (length cs) by lia. by apply sum_loop_eq.
Qed.

(** The copy of an array of the caller: the first [n] cells change. *)
Lemma copy_loop_list (src : fptr → Z → option F) (p : list F) a n :
  (∀ dst k, src dst (Z.of_nat k) = p !! k) →
  ∀ i l, (i + n ≤ length p)%nat → (i + n ≤ length l)%nat →
  ∃ l', copy_loop n (Z.of_nat i) src (FArr (mkArr a l)) = Some (FArr (mkArr a l')) ∧ length l' = length l ∧
        ∀ k, l' !! k = if decide (i ≤ k < i + n)%nat then p !! k else l !! k.
Proof.
  intros Hsrc.
  induction n as [|n IH]; intros i l Hp Hl.
  - exists l. split; [done|]. split; [done|]. intros k. case_decide; [lia|done].
  - simpl. rewrite Hsrc. destruct (lookup_lt_is_Some_2 p i) as [v Ev]; [lia|]. rewrite Ev. simpl. rewrite (wr_nat _ _ i) by (done || lia). simpl.
    replace (Z.of_nat i + 1) with (Z.of_nat (S i)) by lia.
    destruct (IH (S i) (<[i := v]> l)) as (l' & E & Hlen & Hk).
    { lia. } { rewrite length_insert. lia. }
    exists l'. split; [done|]. rewrite length_insert in Hlen. split; [done|]. intros k. rewrite Hk.
    destruct (decide (k = i)) as [->|Hne].
    + rewrite decide_False, decide_True by lia. by rewrite list_lookup_insert_eq by lia.
    + repeat case_decide; try lia; [done|]. by rewrite list_lookup_insert_ne by done.
Qed.

(** moveArray copies forward within one array: no cell is read after it has
    been overwritten. *)
Lemma move_loop_eq a n :
  ∀ i l, (i + n + 10 ≤ length l)%nat →
  ∃ l', copy_loop n (Z.of_nat i) (λ a z, rd a (z + BUFFER_SIZE)) (FArr (mkArr a l)) = Some (FArr (mkArr a l')) ∧
        length l' = length l ∧ ∀ k, l' !! k = if decide (i ≤ k < i + n)%nat then l !! (k + 10)%nat else l !! k.
Proof.
  induction n as [|n IH]; intros i l Hl.
  - exists l. split; [done|]. split; [done|]. intros k. case_decide; [lia|done].
  - cbn [copy_loop]. rewrite (rd_nat _ _ (i + 10)) by (unfold BUFFER_SIZE; lia).
    destruct (lookup_lt_is_Some_2 l (i + 10)) as [v Ev]; [lia|]. rewrite Ev. simpl.
    rewrite (wr_nat _ _ i) by (done || lia). simpl. replace (Z.of_nat i + 1) with (Z.of_nat (S i)) by lia.
    destruct (IH (S i) (<[i := v]> l)) as (l' & E & Hlen & Hk); [rewrite length_insert; lia|].
    exists l'. split; [done|]. rewrite length_insert in Hlen. split; [done|]. intros k. rewrite Hk.
    destruct (decide (k = i)) as [->|Hne].
    + rewrite decide_False, decide_True by lia. rewrite list_lookup_insert_eq by lia. done.
    + repeat case_decide; try lia; by rewrite list_lookup_insert_ne by lia.
Qed.

(** ** Histories in buffers

    [buffer L N c p h]: [p] is an array of [L] cells whose first [N + c] cells are
    the newest samples of the history [h], oldest first. *)
Definition buffer (L N c : nat) (p : fptr) (h : list F) : Prop :=
  ∃ a l, p = FArr (mkArr a l) ∧ length l = L ∧
    ∀ k, (k < N + c)%nat → ∃ x, h !! k = Some x ∧ l !! (N + c - 1 - k)%nat = Some x.

(** The array [p] starts with [cs]. *)
Definition coefs (p : fptr) (cs : list F) : Prop :=
  ∃ a l, p = FArr (mkArr a l) ∧ ∀ k c, cs !! k = Some c → l !! k = Some c.

Lemma buffer_write L N c p h x :
  buffer L N c p h → (N + c < L)%nat →
  ∃ p', wr p (Z.of_nat N + Z.of_nat c) x = Some p' ∧ buffer L N (S c) p' (x :: h).
Proof.
  intros (a & l & -> & Hl & Hk) Hc. eexists. split; [apply (wr_nat _ _ (N + c)); lia|].
  exists a, (<[(N + c)%nat := x]> l). split; [done|]. split; [by rewrite length_insert|].
  intros [|k] Hlt.
  - exists x. split; [done|]. replace (N + S c - 1 - 0)%nat with (N + c)%nat by lia. by rewrite list_lookup_insert_eq by lia.
  - destruct (Hk k) as (y & Ey & El); [lia|]. exists y. split; [done|].
    replace (N + S c - 1 - S k)%nat with (N + c - 1 - k)%nat by lia. by rewrite list_lookup_insert_ne by lia.
Qed.

Lemma buffer_full L N c p h x : buffer L N c p h → (L ≤ N + c)%nat → wr p (Z.of_nat N + Z.of_nat c) x = None.
Proof. intros (a & l & -> & Hl & _) Hc. apply (wr_out _ _ (N + c)); lia. Qed.

Lemma buffer_move L N p h :
  buffer L N 10 p h → (N + 10 ≤ L)%nat → ∃ p', moveArray (Z.of_nat N) p = Some p' ∧ buffer L N 0 p' h.
Proof.
  intros (a & l & -> & Hl & Hk) HL. unfold moveArray. rewrite Nat2Z.id.
  destruct (move_loop_eq a N 0 l) as (l' & E & Hlen & Hk'); [lia|]. eexists. split; [exact E|].
  exists a, l'. split; [done|]. split; [lia|]. intros k Hlt. destruct (Hk k) as (y & Ey & El); [lia|]. exists y. split; [done|].
  rewrite Hk', decide_True by lia. by replace (N + 0 - 1 - k + 10)%nat with (N + 10 - 1 - k)%nat by lia.
Qed.

(** The sums of the filters run over the newest samples. *)
Lemma buffer_sum L N c mo A cs p h co up :
  mo ≠ 0 → coefs A cs → buffer L N c p h → (length cs ≤ N + c)%nat →
  up = Z.of_nat (length cs) - 1 → co + up = Z.of_nat N + Z.of_nat c - 1 →
  math_sum mo up (rd A) (rd p) co = Some (dot cs h).
Proof.
  intros Hm (a & la & -> & HA) (b & l & -> & Hl & Hk) Hn -> Hco. apply math_sum_eq; [done|..].
  - intros k d Hd. rewrite (rd_nat _ _ k) by done. by apply HA.
  - intros k Hlt. destruct (Hk k) as (x & Ex & El); [lia|]. exists x. split; [done|].
    by rewrite (rd_nat _ _ (N + c - 1 - k)) by lia.
Qed.

(** ** Invariants of the filter objects *)

(** A FIR filter of order [N] with coefficients [b] that has seen the inputs [h];
    the input array has [L] cells. *)
Definition fir_inv (L N : nat) (b h : list F) (f : Filter) : Prop :=
  MathOperation f ≠ 0 ∧ FilterOrder (f_data f) = Z.of_nat N ∧ length b = S N ∧ coefs (ArrayCoefficientsB (f_data f)) b ∧
  ∃ c : nat, (c ≤ 10)%nat ∧ ContBuffer f = Z.of_nat c ∧ buffer L N c (ArrayInputsX (f_data f)) h.

(** An IIR filter: [hy] is the history of the outputs in the first form, of the
    internal signal in the second. *)
Definition iir_inv (L N : nat) (b a hx hy : list F) (f : Filter) : Prop :=
  MathOperation f ≠ 0 ∧ FilterOrder (f_data f) = Z.of_nat N ∧ length b = S N ∧ length a = N ∧
  coefs (ArrayCoefficientsB (f_data f)) b ∧ coefs (ArrayCoefficientsA (f_data f)) a ∧
  ∃ c : nat, (c ≤ 10)%nat ∧ ContBuffer f = Z.of_nat c ∧
    buffer L N c (ArrayInputsX (f_data f)) hx ∧ buffer L N c (ArrayInputsY (f_data f)) hy.

(** Room for one more sample. *)
Definition room (L N : nat) (c : Z) : Prop := (N + 10 ≤ L)%nat ∨ (c < 10 ∧ Z.of_nat N + c < Z.of_nat L).

Lemma fir_step L N b h f x :
  fir_inv L N b h f → room L N (ContBuffer f) →
  ∃ f', FIR_directFormI x f = Some (dot b (x :: h), f') ∧ fir_inv L N b (x :: h) f'.
Proof.
  intros (Hm & HN & Hb & HB & c & Hc & Ec & HX) HL. unfold FIR_directFormI. rewrite Ec in HL. rewrite HN, Ec.
  assert (∃ X c', (if Z.of_nat c =? BUFFER_SIZE then X ← moveArray (Z.of_nat N) (ArrayInputsX (f_data f)); Some (X, 0)
     else Some (ArrayInputsX (f_data f), Z.of_nat c)) = Some (X, Z.of_nat c') ∧ (c' < 10)%nat ∧ (N + c' < L)%nat ∧ buffer L N c' X h)
    as (X & c' & -> & Hc' & HcL & HX').
  { unfold BUFFER_SIZE. destruct (Z.eqb_spec (Z.of_nat c) 10).
    - replace c with 10%nat in * by lia. destruct HL as [HL|]; [|lia]. destruct (buffer_move _ _ _ _ HX HL) as (X & -> & HX').
      exists X, 0%nat. eauto with lia.
    - eexists _, c. split; [done|]. destruct HL; (split; [lia|]; split; [lia|done]). }
  simpl. destruct (buffer_write _ _ _ _ _ x HX') as (X' & -> & HX''); [lia|]. simpl.
  rewrite (buffer_sum _ _ _ _ _ _ _ _ _ _ Hm HB HX'') by lia. simpl. eexists. split; [done|].
  unfold fir_inv. simpl. split_and!; try done. exists (S c'). split; [lia|]. split; [lia|done].
Qed.

(** The part both forms of the IIR class share. *)
Lemma iir_room L N c X Y hx hy :
  (c ≤ 10)%nat → buffer L N c X hx → buffer L N c Y hy → room L N (Z.of_nat c) →
  ∃ X' Y' c', (if Z.of_nat c =? BUFFER_SIZE then
                 X ← moveArray (Z.of_nat N) X; Y ← moveArray (Z.of_nat N) Y; Some (X, Y, 0)
               else Some (X, Y, Z.of_nat c)) = Some (X', Y', Z.of_nat c') ∧
    (c' < 10)%nat ∧ (N + c' < L)%nat ∧ buffer L N c' X' hx ∧ buffer L N c' Y' hy.
Proof.
  intros Hc HX HY HL. unfold BUFFER_SIZE. destruct (Z.eqb_spec (Z.of_nat c) 10).
  - replace c with 10%nat in * by lia. destruct HL as [HL|]; [|lia]. destruct (buffer_move _ _ _ _ HX HL) as (X' & -> & HX').
    destruct (buffer_move _ _ _ _ HY HL) as (Y' & -> & HY'). exists X', Y', 0%nat. eauto 6 with lia.
  - exists X, Y, c. destruct HL; eauto 6 with lia.
Qed.

Lemma iir1_step L N b a hx hy f x :
  iir_inv L N b a hx hy f → room L N (ContBuffer f) →
  let y := fsub (dot b (x :: hx)) (dot a hy) in
  ∃ f', IIR_directFormI x f = Some (y, f') ∧ iir_inv L N b a (x :: hx) (y :: hy) f'.
Proof.
  intros (Hm & HN & Hb & Ha & HB & HA & c & Hc & Ec & HX & HY) HL y. unfold IIR_directFormI. rewrite Ec in HL. rewrite HN, Ec.
  destruct (iir_room _ _ _ _ _ _ _ Hc HX HY HL) as (X1 & Y1 & c' & -> & Hc' & HcL & HX1 & HY1). simpl.
  destruct (buffer_write _ _ _ _ _ x HX1) as (X2 & -> & HX2); [lia|]. simpl.
  rewrite (buffer_sum _ _ _ _ _ _ _ _ _ _ Hm HB HX2) by lia. simpl.
  rewrite (buffer_sum _ _ _ _ _ _ _ _ _ _ Hm HA HY1) by lia. simpl. fold y.
  destruct (buffer_write _ _ _ _ _ y HY1) as (Y2 & -> & HY2); [lia|]. simpl. eexists. split; [done|].
  unfold iir_inv. simpl. split_and!; try done. exists (S c'). split_and!; (lia || done).
Qed.

Lemma iir2_step L N b a hx hv f x :
  iir_inv L N b a hx hv f → room L N (ContBuffer f) →
  let v := fsub x (dot a hv) in
  ∃ f', IIR_directFormII x f = Some (dot b (v :: hv), f') ∧ iir_inv L N b a (x :: hx) (v :: hv) f'.
Proof.
  intros (Hm & HN & Hb & Ha & HB & HA & c & Hc & Ec & HX & HV) HL v. unfold IIR_directFormII. rewrite Ec in HL. rewrite HN, Ec.
  destruct (iir_room _ _ _ _ _ _ _ Hc HX HV HL) as (X1 & V1 & c' & -> & Hc' & HcL & HX1 & HV1). simpl.
  destruct (buffer_write _ _ _ _ _ x HX1) as (X2 & -> & HX2); [lia|]. simpl.
  rewrite (buffer_sum _ _ _ _ _ _ _ _ _ _ Hm HA HV1) by lia. simpl. fold v.
  destruct (buffer_write _ _ _ _ _ v HV1) as (V2 & -> & HV2); [lia|]. simpl.
  rewrite (buffer_sum _ _ _ _ _ _ _ _ _ _ Hm HB HV2) by lia. simpl. eexists. split; [done|].
  unfold iir_inv. simpl. split_and!; try done. exists (S c'). split_and!; (lia || done).
Qed.

(** ** Runs *)

Lemma fir_run L N b xs : ∀ h f,
  fir_inv L N b h f → (N + 10 ≤ L)%nat → ∃ f', filter_all FIR_directFormI xs f = Some (fir_spec b h xs, f').
Proof.
  induction xs as [|x xs IH]; intros h f Hf HL; [by eexists|]. simpl.
  destruct (fir_step _ _ _ _ _ x Hf (or_introl HL)) as (f1 & -> & Hf1). simpl. destruct (IH _ _ Hf1 HL) as (f2 & ->). by eexists.
Qed.

Lemma iir1_run L N b a xs : ∀ hx hy f,
  iir_inv L N b a hx hy f → (N + 10 ≤ L)%nat →
  ∃ f', filter_all IIR_directFormI xs f = Some (iir1_spec b a hx hy xs, f').
Proof.
  induction xs as [|x xs IH]; intros hx hy f Hf HL; [by eexists|]. simpl.
  destruct (iir1_step _ _ _ _ _ _ _ x Hf (or_introl HL)) as (f1 & -> & Hf1). simpl. destruct (IH _ _ _ Hf1 HL) as (f2 & ->). by eexists.
Qed.

Lemma iir2_run L N b a xs : ∀ hx hv f,
  iir_inv L N b a hx hv f → (N + 10 ≤ L)%nat →
  ∃ f', filter_all IIR_directFormII xs f = Some (iir2_spec b a hv xs, f').
Proof.
  induction xs as [|x xs IH]; intros hx hv f Hf HL; [by eexists|]. simpl.
  destruct (iir2_step _ _ _ _ _ _ _ x Hf (or_introl HL)) as (f1 & -> & Hf1). simpl. destruct (IH _ _ _ Hf1 HL) as (f2 & ->). by eexists.
Qed.

(** ** Construction *)

Lemma set_coefs_eq (src : fptr → Z → option F) p (n : nat) ar :
  (∀ dst k, src dst (Z.of_nat k) = p !! k) → length p = n → (n ≤ length (a_cells ar))%nat →
  ∃ q, copy_loop n 0 src (FArr ar) = Some q ∧ coefs q p.
Proof.
  intros Hsrc Hp Hl. destruct ar as [a l]. simpl in Hl.
  destruct (copy_loop_list src p a n Hsrc 0 l) as (l' & E & _ & Hk); [lia..|].
  eexists. split; [exact E|]. exists a, l'. split; [done|]. intros k c Ec.
  pose proof (lookup_lt_Some _ _ _ Ec). rewrite Hk, decide_True by lia. done.
Qed.

Lemma set_history_eq p (n : nat) ar :
  length p = n → (n ≤ length (a_cells ar))%nat →
  ∃ q, copy_loop n 0 (λ _ i, cell p i) (FArr ar) = Some q ∧ buffer (length (a_cells ar)) n 0 q (reverse p).
Proof.
  intros Hp Hl. destruct ar as [a l]. simpl in *.
  destruct (copy_loop_list (λ _ i, cell p i) p a n (λ _ k, cell_nat p k) 0 l) as (l' & E & Hlen & Hk); [lia..|].
  eexists. split; [exact E|]. exists a, l'. split; [done|]. split; [done|]. intros k Hlt.
  destruct (lookup_lt_is_Some_2 p (length p - S k)) as [x Ex]; [lia|]. exists x. split.
  - by rewrite reverse_lookup by lia.
  - rewrite Hk, decide_True by lia. by replace (n + 0 - 1 - k)%nat with (length p - S k)%nat by lia.
Qed.

Lemma dot_take a h : dot (take (length h) a) h = dot a h.
Proof.
  unfold dot. f_equal. generalize h. clear h. induction a as [|c a IH]; intros [|x h]; simpl; [done..|]. by rewrite IH.
Qed.

Lemma aux_loop_eq mo L Lx A X a hX xs : ∀ i hv Y,
  mo ≠ 0 → coefs A a → buffer Lx (S i + length xs) 0 X (reverse xs ++ hX) →
  buffer L (S i) 0 Y hv → length hv = S i → (S i + length xs ≤ L)%nat → (i + length xs ≤ length a)%nat →
  ∃ Y', aux_loop mo (length xs) (Z.of_nat i) A X Y = Some Y' ∧ buffer L (S i + length xs) 0 Y' (aux_go a hv xs).
Proof.
  revert hX. induction xs as [|x xs IH]; intros hX i hv Y Hm HA HX HY Hv HL Ha.
  { exists Y. split; [done|]. simpl. by rewrite Nat.add_0_r. }
  cbn [aux_loop length]. simpl in HL, Ha. assert (length (take (S i) a) = S i) as Hta by (rewrite length_take; lia).
  rewrite (buffer_sum L (S i) 0 mo A (take (S i) a) Y hv); [|done| |done|lia|lia|lia].
  2:{ destruct HA as (aa & la & -> & HA). exists aa, la. split; [done|]. intros k c Hk. apply lookup_take_Some in Hk as [Hk _]. by apply HA. }
  rewrite <-Hv, dot_take, Hv. simpl.
  assert (rd X (Z.of_nat i + 1) = Some x) as ->.
  { destruct HX as (aX & lX & -> & _ & Hk). rewrite (rd_nat _ _ (S i)) by lia. simpl in Hk.
    destruct (Hk (length xs)) as (x' & Ex & El); [lia|].
    rewrite reverse_cons, <-app_assoc, lookup_app_r, length_reverse, Nat.sub_diag in Ex by (rewrite length_reverse; lia).
    simpl in Ex. rewrite Ex. rewrite <-El. f_equal. lia. }
  simpl. destruct (buffer_write L (S i) 0 Y hv (fsub x (dot a hv)) HY) as (Y1 & EY & HY1); [lia|].
  replace (Z.of_nat i + 1) with (Z.of_nat (S i) + Z.of_nat 0) by lia. rewrite EY. simpl.
  replace (Z.of_nat (S i) + Z.of_nat 0) with (Z.of_nat (S i)) by lia.
  destruct (IH (x :: hX) (S i) (fsub x (dot a hv) :: hv) Y1) as (Y2 & E & HY2); try done; simpl; try lia.
  - rewrite reverse_cons, <-app_assoc in HX. simpl in HX. by replace (S (S (i + length xs))) with (S (i + S (length xs))) by lia.
  - unfold buffer in *. by replace (S (S i) + 0)%nat with (S i + 1)%nat by lia.
  - exists Y2. split; [done|]. simpl in HY2. by replace (S (i + S (length xs))) with (S (S (i + length xs))) by lia.
Qed.

Section Application.
Variable up : positive → Z → M Z.
Variable junk : Z → nat → F.

Lemma lift_some {A B} (a : A) (k : A → M B) s : (lift (Some a) ≫= k) s = k a s.
Proof. done. Qed.

(** [n] floats are allocated in [s]. *)
Definition floats (n : Z) (s : kst) (a : farray) (s' : kst) : Prop := alloc_floats up junk n s = Done (FArr a) s'.

Lemma floats_length n s a s' : 0 ≤ n < 2 ^ 30 → floats n s a s' → length (a_cells a) = Z.to_nat n.
Proof.
  unfold floats, alloc_floats. intros Hn E. unfold mbind, M_bind, rbind in E.
  destruct (chHeapAlloc up None (u32 (4 * u32 n)) s) as [p s1| | |]; try done.
  unfold mret, M_ret in E. destruct (p =? 0); [done|]. injection E as <- <-. simpl. rewrite length_fmap, length_seq.
  unfold u32. rewrite (Z.mod_small n) by lia. rewrite Z.mod_small by lia. f_equal.
  rewrite Z.mul_comm. apply Z.div_mul. lia.
Qed.

(** The order, the arguments of newDataFilter, and the memory of the object,
    whose [FilterOrder] is [N0] before the call. *)
Variables (N : nat) (pX pB pY pA : list F) (d0 : DataFilter) (N0 : Z) (ptr : Z).
Hypothesis HpX : length pX = N.
Hypothesis HpB : length pB = S N.
Hypothesis HpA : length pA = S N.
Hypothesis HpY : length pY = N.
Hypothesis HN : Z.of_nat N < 2 ^ 29.
Hypothesis HN0 : FilterOrder d0 = N0 ∧ 0 ≤ N0 < 2 ^ 29.

(** The four setters on allocated arrays. *)
Lemma setB_ok d s ar s' :
  FilterOrder d = Z.of_nat N → ArrayCoefficientsB d = FArr ar → floats (Z.of_nat N + 1) s ar s' →
  ∃ q, setArrayCoefficientsB pB d = Some (set_B q d) ∧ coefs q pB.
Proof using HN HpB.
  clear HpX HpA HpY HN0.
  intros EN EB Ea. apply floats_length in Ea; [|lia]. unfold setArrayCoefficientsB. rewrite EN, EB.
  destruct (set_coefs_eq (λ _ i, cell pB i) pB (Z.to_nat (Z.of_nat N + 1)) ar) as (q & -> & Hq); [|lia|lia|by exists q].
  intros _ k. apply cell_nat.
Qed.

Lemma setA_ok d s ar s' :
  FilterOrder d = Z.of_nat N → ArrayCoefficientsA d = FArr ar → floats (Z.of_nat N) s ar s' →
  ∃ q, setArrayCoefficientsA pA d = Some (set_A q d) ∧ coefs q (tail pA).
Proof using HN HpA.
  clear HpX HpB HpY HN0.
  intros EN EA Ea. apply floats_length in Ea; [|lia]. unfold setArrayCoefficientsA. rewrite EN, EA.
  destruct (set_coefs_eq (λ _ i, cell pA (i + 1)) (tail pA) (Z.to_nat (Z.of_nat N)) ar) as (q & -> & Hq);
    [|destruct pA; simpl in *; lia|lia|by exists q].
  intros _ k. replace (Z.of_nat k + 1) with (Z.of_nat (S k)) by lia. rewrite cell_nat. by destruct pA.
Qed.

Lemma setX_ok d s ar s' :
  FilterOrder d = Z.of_nat N → ArrayInputsX d = FArr ar → Z.of_nat N ≤ N0 + 10 → floats (N0 + 10) s ar s' →
  ∃ q, setArrayInitialConditionsX pX d = Some (set_X q d) ∧ buffer (Z.to_nat (N0 + 10)) N 0 q (reverse pX).
Proof using HN0 HpX.
  clear HpB HpA HpY HN.
  intros EN EX Hle Ea. apply floats_length in Ea; [|lia]. unfold setArrayInitialConditionsX. rewrite EN, EX, Nat2Z.id.
  destruct (set_history_eq pX N ar) as (q & -> & Hq); [done|lia|]. exists q. split; [done|]. by rewrite <-Ea.
Qed.

Lemma setY_ok d s ar s' :
  FilterOrder d = Z.of_nat N → ArrayInputsY d = FArr ar → Z.of_nat N ≤ N0 + 10 → floats (N0 + 10) s ar s' →
  ∃ q, setArrayInitialConditionsY pY d = Some (set_Y q d) ∧ buffer (Z.to_nat (N0 + 10)) N 0 q (reverse pY).
Proof using HN0 HpY.
  clear HpX HpB HpA HN.
  intros EN EY Hle Ea. apply floats_length in Ea; [|lia]. unfold setArrayInitialConditionsY. rewrite EN, EY, Nat2Z.id.
  destruct (set_history_eq pY N ar) as (q & -> & Hq); [done|lia|]. exists q. split; [done|]. by rewrite <-Ea.
Qed.

(** ** The three constructors *)

(** The next call of the body is the setter of [lem], on the array allocated by [E]. *)
Ltac setter lem E H := edestruct lem as (? & -> & H); [..|exact E|]; [done..|].

Lemma new_fir_ok s arB s1 arX s2 :
  floats (Z.of_nat N + 1) s arB s1 → floats (N0 + 10) s1 arX s2 → Z.of_nat N ≤ N0 + 10 →
  ∃ d, newDataFilter_FIR up junk (Z.of_nat N) pX pB d0 s = Done d s2 ∧
    ∀ mo, mo ≠ 0 → fir_inv (Z.to_nat (N0 + 10)) N pB (reverse pX) (mkFilter mo ptr d 0).
Proof using HN HN0 HpB HpX.
  clear HpA HpY.
  intros EB EX Hle. destruct HN0 as [E0 _]. unfold newDataFilter_FIR. rewrite bind_eq, EB, rbind_done, bind_eq, E0.
  unfold BUFFER_SIZE. rewrite EX, rbind_done. cbn zeta.
  setter setX_ok EX HX. rewrite lift_some. cbn beta.
  setter setB_ok EB HB.
  unfold lift. rewrite mret_eq. eexists. split; [done|]. intros mo Hm. unfold fir_inv. simpl.
  split_and!; try done. exists 0%nat. split_and!; [lia|done|done].
Qed.

Lemma new_iir1_ok s arB s1 arX s2 arA s3 arY s4 :
  floats (Z.of_nat N + 1) s arB s1 → floats (N0 + 10) s1 arX s2 →
  floats (Z.of_nat N) s2 arA s3 → floats (N0 + 10) s3 arY s4 → Z.of_nat N ≤ N0 + 10 →
  ∃ d, newDataFilter_IIR1 up junk (Z.of_nat N) pX pB pY pA d0 s = Done d s4 ∧
    ∀ mo, mo ≠ 0 → iir_inv (Z.to_nat (N0 + 10)) N pB (tail pA) (reverse pX) (reverse pY) (mkFilter mo ptr d 0).
Proof using HN HN0 HpB HpX HpA HpY.
  intros EB EX EA EY Hle. destruct HN0 as [E0 _]. unfold newDataFilter_IIR1.
  rewrite bind_eq, EB, rbind_done, bind_eq, E0. unfold BUFFER_SIZE.
  rewrite EX, rbind_done, bind_eq, EA, rbind_done, bind_eq, EY, rbind_done. cbn zeta.
  setter setX_ok EX HX. rewrite lift_some. cbn beta.
  setter setB_ok EB HB. rewrite lift_some. cbn beta.
  setter setY_ok EY HY. rewrite lift_some. cbn beta.
  setter setA_ok EA HA.
  unfold lift. rewrite mret_eq. eexists. split; [done|]. intros mo Hm. unfold iir_inv. simpl.
  split_and!; try done; [destruct pA; simpl in *; lia|]. exists 0%nat. split_and!; [lia|done..].
Qed.

Lemma aux_array_ok mo d L a arY :
  mo ≠ 0 ∨ (N ≤ 1)%nat → FilterOrder d = Z.of_nat N → coefs (ArrayCoefficientsA d) a → length a = N →
  buffer L N 0 (ArrayInputsX d) (reverse pX) → ArrayInputsY d = FArr arY → length (a_cells arY) = L → (0 < L)%nat → (N ≤ L)%nat →
  ∃ q, aux_array mo d = Some (set_Y q d) ∧ buffer L N 0 q (aux_spec a pX).
Proof using HpX.
  clear HpB HpA HpY HN HN0. intros Hm' EN HA Ha HX EY HL H0 HNL.
  assert (∃ mo', mo' ≠ 0 ∧ aux_array mo d = aux_array mo' d) as (mo' & Hm & ->).
  { destruct Hm' as [Hm|Hle]; [by exists mo|]. exists 1. split; [done|]. unfold aux_array. rewrite EN.
    by replace (Z.to_nat (Z.of_nat N - 1)) with 0%nat by lia. }
  clear Hm' mo. rename mo' into mo. destruct arY as [ay ly]. simpl in HL. unfold aux_array.
  rewrite EN, EY. destruct HX as (ax & lx & EX & Hlx & Hk). rewrite EX, (rd_nat _ _ 0) by done.
  destruct (lookup_lt_is_Some_2 lx 0) as [x0 Ex0]; [lia|]. rewrite Ex0. simpl. rewrite (wr_nat _ _ 0) by (done || lia). simpl.
  destruct pX as [|x xs]; simpl in HpX.
  { replace (Z.to_nat (Z.of_nat N - 1)) with 0%nat by lia. simpl. eexists. split; [done|].
    eexists _, _. split; [done|]. split; [by rewrite length_insert|]. intros k Hlt. lia. }
  assert (x0 = x) as ->.
  { destruct (Hk (length xs)) as (y & Ey & El); [lia|].
    rewrite reverse_cons, lookup_app_r, length_reverse, Nat.sub_diag in Ey by (rewrite length_reverse; lia).
    replace (N + 0 - 1 - length xs)%nat with 0%nat in El by lia. simpl in Ey. congruence. }
  destruct (aux_loop_eq mo L L (ArrayCoefficientsA d) (ArrayInputsX d) a [x] xs 0 [x] (FArr (mkArr ay (<[0%nat := x]> ly))))
    as (Y' & E & HY'); try done; simpl; try lia.
  - rewrite HpX, EX. exists ax, lx. rewrite reverse_cons in Hk. by split_and!.
  - eexists _, _. split; [done|]. split; [by rewrite length_insert|]. intros k Hlt. assert (k = 0)%nat as -> by lia.
    exists x. split; [done|]. by rewrite list_lookup_insert_eq by lia.
  - rewrite EX in E. replace (Z.to_nat (Z.of_nat N - 1)) with (length xs) by lia. replace 0 with (Z.of_nat 0) by lia. rewrite E. simpl.
    eexists. split; [done|]. simpl in HY'. by rewrite HpX in HY'.
Qed.

Lemma new_iir2_ok s arB s1 arX s2 arA s3 arY s4 p s5 :
  floats (Z.of_nat N + 1) s arB s1 → floats (N0 + 10) s1 arX s2 →
  floats (Z.of_nat N) s2 arA s3 → floats (N0 + 10) s3 arY s4 →
  chHeapAlloc up None 4 s4 = Done p s5 → p ≠ 0 ∨ (N ≤ 1)%nat → Z.of_nat N ≤ N0 + 10 →
  ∃ d, newDataFilter_IIR2 up junk (Z.of_nat N) pX pB pA d0 s = Done d s5 ∧
    ∀ mo, mo ≠ 0 →
      iir_inv (Z.to_nat (N0 + 10)) N pB (tail pA) (reverse pX) (aux_spec (tail pA) pX) (mkFilter mo ptr d 0).
Proof using HN HN0 HpB HpX HpA.
  clear HpY. intros EB EX EA EY Ep Hp Hle. destruct HN0 as [E0 _]. unfold newDataFilter_IIR2.
  rewrite bind_eq, EB, rbind_done, bind_eq, E0. unfold BUFFER_SIZE.
  rewrite EX, rbind_done, bind_eq, EA, rbind_done, bind_eq, EY, rbind_done. cbn zeta.
  setter setX_ok EX HX. rewrite lift_some. cbn beta.
  setter setB_ok EB HB. rewrite lift_some. cbn beta.
  setter setA_ok EA HA. rewrite lift_some. cbn beta.
  unfold createArrayAux. rewrite bind_eq, Ep, rbind_done. apply floats_length in EY; [|lia].
  edestruct (aux_array_ok p) as (y & -> & HY); [done|done|exact HA| |exact HX|done|exact EY|lia|lia|].
  { destruct pA; simpl in *; lia. }
  unfold lift. rewrite mret_eq. eexists. split; [done|]. intros mo Hm. unfold iir_inv. simpl.
  split_and!; try done; [destruct pA; simpl in *; lia|]. exists 0%nat. split_and!; [lia|done..].
Qed.

(** ** Whole runs *)

Lemma filtering_eq tipo s d s1 p s2 xs ys f' :
  newDataFilter up junk tipo (Z.of_nat N) pX pB pY pA d0 s = Done d s1 →
  chHeapAlloc up None 4 s1 = Done p s2 →
  filter_all (filter_sample tipo) xs (mkFilter p ptr d 0) = Some (ys, f') →
  filtering up junk tipo (Z.of_nat N) pX pB pY pA ptr d0 xs s = Done ys s2.
Proof using.
  clear HpX HpB HpA HpY HN HN0. intros Ed Ep Ef. unfold filtering. rewrite bind_eq, Ed, rbind_done.
  unfold setInitialDataFilter. rewrite bind_eq, bind_eq, Ep, rbind_done, mret_eq, rbind_done, Ef. done.
Qed.

Lemma iir1_filtering s arB s1 arX s2 arA s3 arY s4 p s5 xs :
  floats (Z.of_nat N + 1) s arB s1 → floats (N0 + 10) s1 arX s2 →
  floats (Z.of_nat N) s2 arA s3 → floats (N0 + 10) s3 arY s4 →
  chHeapAlloc up None 4 s4 = Done p s5 → p ≠ 0 → Z.of_nat N ≤ N0 →
  filtering up junk 1 (Z.of_nat N) pX pB pY pA ptr d0 xs s =
    Done (iir1_spec pB (tail pA) (reverse pX) (reverse pY) xs) s5.
Proof using HN HN0 HpB HpX HpA HpY.
  intros EB EX EA EY Ep Hp Hle. destruct (new_iir1_ok _ _ _ _ _ _ _ _ _ EB EX EA EY) as (d & Ed & Hd); [lia|].
  destruct (iir1_run _ _ _ _ xs _ _ _ (Hd p Hp)) as (f' & Ef); [lia|]. by eapply filtering_eq.
Qed.

Lemma iir2_filtering tipo s arB s1 arX s2 arA s3 arY s4 q s5 p s6 xs :
  tipo ≠ 0 → tipo ≠ 1 →
  floats (Z.of_nat N + 1) s arB s1 → floats (N0 + 10) s1 arX s2 →
  floats (Z.of_nat N) s2 arA s3 → floats (N0 + 10) s3 arY s4 →
  chHeapAlloc up None 4 s4 = Done q s5 → q ≠ 0 →
  chHeapAlloc up None 4 s5 = Done p s6 → p ≠ 0 → Z.of_nat N ≤ N0 →
  filtering up junk tipo (Z.of_nat N) pX pB pY pA ptr d0 xs s =
    Done (iir2_spec pB (tail pA) (aux_spec (tail pA) pX) xs) s6.
Proof using HN HN0 HpB HpX HpA.
  clear HpY. intros T0 T1 EB EX EA EY Eq Hq Ep Hp Hle. apply Z.eqb_neq in T0, T1.
  destruct (new_iir2_ok _ _ _ _ _ _ _ _ _ _ _ EB EX EA EY Eq (or_introl Hq)) as (d & Ed & Hd); [lia|].
  destruct (iir2_run _ _ _ _ xs _ _ _ (Hd p Hp)) as (f' & Ef); [lia|].
  eapply filtering_eq; [unfold newDataFilter; rewrite T0, T1; exact Ed|exact Ep|].
  unfold filter_sample. rewrite T0, T1. exact Ef.
Qed.

(** C5.  The FIR filter (TipoFiltro 0) on any list of samples: when the heap has
    room for the arrays and the buffer is allocated for the order in use, the
    run ends normally, every array access is inside its array, and the n-th
    output is b0 x[n] + ... + bN x[n-N], accumulated in this order, over the
    samples and the initial conditions, in whatever arithmetic [float] has. *)
Theorem fir_correct s arB s1 arX s2 p s3 xs :
  floats (Z.of_nat N + 1) s arB s1 → floats (N0 + 10) s1 arX s2 →
  chHeapAlloc up None 4 s2 = Done p s3 → p ≠ 0 → Z.of_nat N ≤ N0 →
  filtering up junk 0 (Z.of_nat N) pX pB pY pA ptr d0 xs s = Done (fir_spec pB (reverse pX) xs) s3.
Proof using HN HN0 HpB HpX.
  clear HpA HpY. intros EB EX Ep Hp Hle. destruct (new_fir_ok _ _ _ _ _ EB EX) as (d & Ed & Hd); [lia|].
  destruct (fir_run _ _ _ xs _ _ (Hd p Hp)) as (f' & Ef); [lia|]. by eapply filtering_eq.
Qed.

(** C2.  The IIR filter in direct form I (TipoFiltro 1) on any list of samples:
    when the heap has room for the four arrays and the FuntionsMath object and
    the memory of the DataFilter object contains a FilterOrder that is not smaller
    than the order in use (the buffers are allocated for that value), the run ends
    normally, no array is accessed out of bounds, and the outputs are
    y[n] = (b0 x[n] + ... + bN x[n-N]) - (a1 y[n-1] + ... + aN y[n-N]) from the
    initial conditions of both signals, in whatever arithmetic [float] has. *)
Theorem iir1_correct s arB s1 arX s2 arA s3 arY s4 p s5 xs :
  floats (Z.of_nat N + 1) s arB s1 → floats (N0 + 10) s1 arX s2 →
  floats (Z.of_nat N) s2 arA s3 → floats (N0 + 10) s3 arY s4 →
  chHeapAlloc up None 4 s4 = Done p s5 → p ≠ 0 → Z.of_nat N ≤ N0 →
  filtering up junk 1 (Z.of_nat N) pX pB pY pA ptr d0 xs s =
    Done (iir1_spec pB (tail pA) (reverse pX) (reverse pY) xs) s5.
Proof using HN HN0 HpB HpX HpA HpY. apply iir1_filtering. Qed.

(** C4.  The IIR filter in direct form II (any other TipoFiltro) on any list of
    samples: when the six allocations of the run find room in the heap and the
    memory of the DataFilter object contains a FilterOrder that is not smaller
    than the order in use (the buffers are allocated for that value), the run ends
    normally, no array is accessed out of bounds, and the outputs are those of
    v[n] = x[n] - (a1 v[n-1] + ...), y[n] = b0 v[n] + b1 v[n-1] + ..., where
    createArrayAux computes v over the initial conditions by the same recurrence. *)
Theorem iir2_correct tipo s arB s1 arX s2 arA s3 arY s4 q s5 p s6 xs :
  tipo ≠ 0 → tipo ≠ 1 →
  floats (Z.of_nat N + 1) s arB s1 → floats (N0 + 10) s1 arX s2 →
  floats (Z.of_nat N) s2 arA s3 → floats (N0 + 10) s3 arY s4 →
  chHeapAlloc up None 4 s4 = Done q s5 → q ≠ 0 →
  chHeapAlloc up None 4 s5 = Done p s6 → p ≠ 0 → Z.of_nat N ≤ N0 →
  filtering up junk tipo (Z.of_nat N) pX pB pY pA ptr d0 xs s =
    Done (iir2_spec pB (tail pA) (aux_spec (tail pA) pX) xs) s6.
Proof using HN HN0 HpB HpX HpA. apply iir2_filtering. Qed.
End Application.

(** ** A buffer allocated for a smaller order *)

Definition xlen (p : fptr) : Z := match p with FArr a => Z.of_nat (length (a_cells a)) | _ => 0 end.

Lemma wr_inv p i v p' : wr p i v = Some p' → xlen p' = xlen p ∧ i < xlen p.
Proof.
  unfold wr, cell. destruct p as [| |[a l]]; try done. simpl. destruct (Z.ltb_spec i 0); [done|].
  destruct (l !! Z.to_nat i) eqn:E; [|done]. intros [= <-]. simpl. rewrite length_insert. apply lookup_lt_Some in E. lia.
Qed.

Lemma copy_loop_len n : ∀ i src p p', copy_loop n i src p = Some p' → xlen p' = xlen p.
Proof.
  induction n as [|n IH]; simpl; intros i src p p'; [by intros [= <-]|].
  destruct (src p i) as [v|]; simpl; [|done]. destruct (wr p i v) as [q|] eqn:E; simpl; [|done].
  intros Hc. apply IH in Hc. apply wr_inv in E. lia.
Qed.

(** Each form writes its sample at [FilterOrder + ContBuffer]. *)
Lemma sample_inv tipo x f y f' :
  filter_sample tipo x f = Some (y, f') → ContBuffer f < 10 →
  ContBuffer f' = ContBuffer f + 1 ∧ FilterOrder (f_data f') = FilterOrder (f_data f) ∧
  xlen (ArrayInputsX (f_data f')) = xlen (ArrayInputsX (f_data f)) ∧
  FilterOrder (f_data f) + ContBuffer f < xlen (ArrayInputsX (f_data f)).
Proof.
  intros E Hc. assert (ContBuffer f =? BUFFER_SIZE = false) as Eb by (apply Z.eqb_neq; unfold BUFFER_SIZE; lia).
  unfold filter_sample, FIR_directFormI, IIR_directFormI, IIR_directFormII in E.
  destruct (tipo =? 1); [|destruct (tipo =? 0)]; rewrite Eb in E; simpl in E;
    (destruct (wr (ArrayInputsX (f_data f)) _ x) as [X|] eqn:EX; [|done]); simpl in E;
    repeat (match type of E with context [?o ≫= _] => destruct o; [|done] end; simpl in E);
    apply wr_inv in EX; injection E as <- <-; simpl; lia.
Qed.

Lemma run_inv tipo xs : ∀ f r,
  filter_all (filter_sample tipo) xs f = Some r → ContBuffer f < 10 → 10 ≤ ContBuffer f + Z.of_nat (length xs) →
  FilterOrder (f_data f) + 10 ≤ xlen (ArrayInputsX (f_data f)).
Proof.
  induction xs as [|x xs IH]; simpl; intros f r E Hc Hl; [lia|].
  destruct (filter_sample tipo x f) as [[y f1]|] eqn:Ef; [|done]. simpl in E.
  destruct (filter_all (filter_sample tipo) xs f1) as [r1|] eqn:Er; [|done].
  apply sample_inv in Ef as (Ec & EN & EX & Hlt); [|done].
  destruct (decide (ContBuffer f = 9)); [lia|]. specialize (IH _ _ Er). lia.
Qed.

Lemma bind_done {A B} (m : M A) (k : A → M B) s b s' :
  (m ≫= k) s = Done b s' → ∃ a s1, m s = Done a s1 ∧ k a s1 = Done b s'.
Proof. rewrite bind_eq. destruct (m s); simpl; try done. eauto. Qed.

(** What the setters keep. *)
Definition shape (d : DataFilter) : Z * Z := (FilterOrder d, xlen (ArrayInputsX d)).

Lemma lift_inv {A} (o : option A) s (a : A) s' : lift o s = Done a s' → o = Some a ∧ s = s'.
Proof. destruct o; simpl; [|done]. by intros [= <- <-]. Qed.
Lemma lift_done {A} (o : option A) s (a : A) s' : lift o s = Done a s' → o = Some a.
Proof. by intros [? _]%lift_inv. Qed.

Lemma setX_shape p d d' : setArrayInitialConditionsX p d = Some d' → shape d' = shape d.
Proof.
  unfold setArrayInitialConditionsX, shape. destruct (copy_loop _ _ _ _) eqn:E; [|done]. intros [= <-]. simpl.
  by rewrite (copy_loop_len _ _ _ _ _ E).
Qed.
Lemma setB_shape p d d' : setArrayCoefficientsB p d = Some d' → shape d' = shape d.
Proof. unfold setArrayCoefficientsB. destruct (copy_loop _ _ _ _); [|done]. by intros [= <-]. Qed.
Lemma setA_shape p d d' : setArrayCoefficientsA p d = Some d' → shape d' = shape d.
Proof. unfold setArrayCoefficientsA. destruct (copy_loop _ _ _ _); [|done]. by intros [= <-]. Qed.
Lemma setY_shape p d d' : setArrayInitialConditionsY p d = Some d' → shape d' = shape d.
Proof. unfold setArrayInitialConditionsY. destruct (copy_loop _ _ _ _); [|done]. by intros [= <-]. Qed.
Lemma aux_shape mo d d' : aux_array mo d = Some d' → shape d' = shape d.
Proof.
  unfold aux_array. destruct (rd _ _); simpl; [|done]. destruct (wr _ _ _); simpl; [|done].
  destruct (aux_loop _ _ _ _ _ _); simpl; [|done]. by intros [= <-].
Qed.

Lemma alloc_xlen up junk n s p s' : 0 ≤ n < 2 ^ 30 → alloc_floats up junk n s = Done p s' → xlen p ≤ n.
Proof.
  intros Hn E. destruct p as [| |a]; simpl; [lia..|]. rewrite (floats_length up junk n s a s' Hn E). lia.
Qed.

(** Takes a successful run of a constructor apart, from its first call to its last. *)
Ltac peel E :=
  repeat (let E1 := fresh "E" in apply bind_done in E as (? & ? & E1 & E); cbn beta zeta in E; try (apply lift_inv in E1 as [E1 <-])).

Lemma newDataFilter_shape up junk tipo n pX pB pY pA d0 s d s' :
  newDataFilter up junk tipo n pX pB pY pA d0 s = Done d s' → 0 ≤ FilterOrder d0 < 2 ^ 29 →
  FilterOrder d = n ∧ xlen (ArrayInputsX d) ≤ FilterOrder d0 + 10.
Proof.
  intros E Hn. assert (∃ X s1 s2, alloc_floats up junk (FilterOrder d0 + BUFFER_SIZE) s1 = Done X s2 ∧ shape d = (n, xlen X))
    as (X & s1 & s2 & EX & Es).
  { unfold newDataFilter in E. destruct (tipo =? 1); [|destruct (tipo =? 0)];
      unfold newDataFilter_IIR1, newDataFilter_FIR, newDataFilter_IIR2, createArrayAux in E; peel E; apply lift_done in E;
      eexists _, _, _; apply and_comm.
    - split; [erewrite (setA_shape _ _ _ E), setY_shape, setB_shape, setX_shape by eassumption; reflexivity|eassumption].
    - split; [erewrite (setB_shape _ _ _ E), setX_shape by eassumption; reflexivity|eassumption].
    - split; [erewrite (aux_shape _ _ _ E), setA_shape, setB_shape, setX_shape by eassumption; reflexivity|eassumption]. }
  apply alloc_xlen in EX; [|unfold BUFFER_SIZE; lia]. injection Es as -> ->. unfold BUFFER_SIZE in EX. lia.
Qed.

Lemma copy_loop_room n : ∀ i src p p', copy_loop n i src p = Some p' → (0 < n)%nat → i + Z.of_nat n ≤ xlen p.
Proof.
  induction n as [|n IH]; simpl; intros i src p p' E Hn; [lia|].
  destruct (src p i) as [v|]; simpl in E; [|done]. destruct (wr p i v) as [q|] eqn:Ew; simpl in E; [|done].
  apply wr_inv in Ew as [Hq Hi]. destruct n as [|n]; [lia|]. apply IH in E; lia.
Qed.

Lemma xlen_pos p : 0 < xlen p → ∃ a, p = FArr a.
Proof. destruct p as [| |a]; simpl; [lia|lia|by exists a]. Qed.

(** No run of ten samples ends normally. *)
Lemma overflow_not_done up junk tipo n pX pB pY pA ptr d0 xs s r s' :
  0 ≤ FilterOrder d0 < 2 ^ 29 → FilterOrder d0 < n → (10 ≤ length xs)%nat →
  filtering up junk tipo n pX pB pY pA ptr d0 xs s ≠ Done r s'.
Proof.
  intros H0 Hn Hl E. unfold filtering in E. apply bind_done in E as (d & s1 & Ed & E).
  apply bind_done in E as (f & s2 & Ef & E). apply bind_done in E as (r1 & s3 & Er & _). apply lift_done in Er.
  unfold setInitialDataFilter in Ef. apply bind_done in Ef as (p & s4 & _ & Ef). injection Ef as <- <-.
  apply newDataFilter_shape in Ed as [EN EX]; [|done]. apply run_inv in Er; simpl in *; lia.
Qed.

(** What a setter that returns says about its array. *)
Lemma setX_room (N : nat) p d d' : setArrayInitialConditionsX p d = Some d' → FilterOrder d = Z.of_nat N → (0 < N)%nat →
  (∃ q, d' = set_X q d) ∧ Z.of_nat N ≤ xlen (ArrayInputsX d).
Proof.
  unfold setArrayInitialConditionsX. intros E EN Hp. rewrite EN in E. destruct (copy_loop _ _ _ _) eqn:Ec; [|done]. injection E as <-. split; [by eexists|].
  apply copy_loop_room in Ec; lia.
Qed.
Lemma setY_room (N : nat) p d d' : setArrayInitialConditionsY p d = Some d' → FilterOrder d = Z.of_nat N → (0 < N)%nat →
  (∃ q, d' = set_Y q d) ∧ Z.of_nat N ≤ xlen (ArrayInputsY d).
Proof.
  unfold setArrayInitialConditionsY. intros E EN Hp. rewrite EN in E. destruct (copy_loop _ _ _ _) eqn:Ec; [|done]. injection E as <-. split; [by eexists|].
  apply copy_loop_room in Ec; lia.
Qed.
Lemma setB_room (N : nat) p d d' : setArrayCoefficientsB p d = Some d' → FilterOrder d = Z.of_nat N →
  (∃ q, d' = set_B q d) ∧ 0 < xlen (ArrayCoefficientsB d).
Proof.
  unfold setArrayCoefficientsB. intros E EN. rewrite EN in E. destruct (copy_loop _ _ _ _) eqn:Ec; [|done]. injection E as <-. split; [by eexists|].
  apply copy_loop_room in Ec; lia.
Qed.
Lemma setA_room (N : nat) p d d' : setArrayCoefficientsA p d = Some d' → FilterOrder d = Z.of_nat N → (0 < N)%nat →
  (∃ q, d' = set_A q d) ∧ 0 < xlen (ArrayCoefficientsA d).
Proof.
  unfold setArrayCoefficientsA. intros E EN Hp. rewrite EN in E. destruct (copy_loop _ _ _ _) eqn:Ec; [|done]. injection E as <-. split; [by eexists|].
  apply copy_loop_room in Ec; lia.
Qed.

Lemma aux_room mo d d' : aux_array mo d = Some d' → 0 < xlen (ArrayInputsY d) ∧ (mo ≠ 0 ∨ FilterOrder d ≤ 1).
Proof.
  unfold aux_array. intros E. destruct (rd _ _) as [x|]; simpl in E; [|done]. destruct (wr _ _ _) as [Y|] eqn:Ew; simpl in E; [|done].
  apply wr_inv in Ew as [_ Hy]. split; [done|]. destruct (Z.to_nat (FilterOrder d - 1)) eqn:En; [right; lia|left].
  intros ->. simpl in E. done.
Qed.

Section Overflow.
Variable up : positive → Z → M Z.
Variable junk : Z → nat → F.
Variables (N : nat) (pX pB pY pA : list F) (d0 : DataFilter) (N0 ptr tipo : Z).
Hypothesis HpX : length pX = N.
Hypothesis HpB : length pB = S N.
Hypothesis HpA : length pA = S N.
Hypothesis HpY : length pY = N.
Hypothesis HN : Z.of_nat N < 2 ^ 29.
Hypothesis HN0 : FilterOrder d0 = N0 ∧ 0 ≤ N0 < 2 ^ 29.
Hypothesis Hsmall : N0 < Z.of_nat N.
Notation L := (Z.to_nat (N0 + 10)).

(** A filter object in use. *)
Definition in_use (f : Filter) : Prop :=
  if tipo =? 1 then ∃ hx hy, iir_inv L N pB (tail pA) hx hy f
  else if tipo =? 0 then ∃ h, fir_inv L N pB h f
  else ∃ hx hv, iir_inv L N pB (tail pA) hx hv f.

Lemma in_use_step f x : in_use f → room L N (ContBuffer f) → ∃ y f', filter_sample tipo x f = Some (y, f') ∧ in_use f'.
Proof.
  unfold in_use, filter_sample. intros Hf Hr. destruct (tipo =? 1); [|destruct (tipo =? 0)].
  - destruct Hf as (hx & hy & Hf). destruct (iir1_step _ _ _ _ _ _ _ x Hf Hr) as (f' & E & Hf'). eexists _, f'. split; [exact E|by eexists _, _].
  - destruct Hf as (h & Hf). destruct (fir_step _ _ _ _ _ x Hf Hr) as (f' & E & Hf'). eexists _, f'. split; [exact E|by eexists].
  - destruct Hf as (hx & hv & Hf). destruct (iir2_step _ _ _ _ _ _ _ x Hf Hr) as (f' & E & Hf'). eexists _, f'. split; [exact E|by eexists _, _].
Qed.

Lemma in_use_shape f : in_use f → FilterOrder (f_data f) = Z.of_nat N ∧ xlen (ArrayInputsX (f_data f)) = Z.of_nat L.
Proof.
  assert (∀ c p h, buffer L N c p h → xlen p = Z.of_nat L) as Hb by (intros c p h (a & l & -> & <- & _); done).
  unfold in_use. destruct (tipo =? 1); [|destruct (tipo =? 0)].
  - intros (hx & hy & (_ & E & _ & _ & _ & _ & c & _ & _ & HX & _)). split; [exact E|by eapply Hb].
  - intros (h & (_ & E & _ & _ & c & _ & _ & HX)). split; [exact E|by eapply Hb].
  - intros (hx & hy & (_ & E & _ & _ & _ & _ & c & _ & _ & HX & _)). split; [exact E|by eapply Hb].
Qed.

(** The samples that still fit. *)
Lemma fill_run (k : nat) : ∀ xs f, in_use f → Z.of_nat N + ContBuffer f + Z.of_nat k = N0 + 10 → (k ≤ length xs)%nat →
  ∃ ys f', filter_all (filter_sample tipo) (take k xs) f = Some (ys, f') ∧ in_use f' ∧ Z.of_nat N + ContBuffer f' = N0 + 10.
Proof using Hsmall.
  clear HpX HpB HpA HpY HN HN0.
  induction k as [|k IH]; intros xs f Hf Hc Hl; [exists [], f; split_and!; [done|done|lia]|].
  destruct xs as [|x xs]; [simpl in Hl; lia|]. destruct (in_use_step f x Hf) as (y & f1 & E & Hf1); [right; lia|].
  destruct (sample_inv _ _ _ _ _ E) as (Ec & _); [lia|]. simpl in Hl.
  destruct (IH xs f1 Hf1) as (ys & f' & E' & Hf' & Hc'); [lia|lia|]. exists (y :: ys), f'. simpl. rewrite E. simpl. rewrite E'. done.
Qed.

Lemma new_fir_in_use s d s1 : newDataFilter_FIR up junk (Z.of_nat N) pX pB d0 s = Done d s1 →
  ∀ mo, mo ≠ 0 → fir_inv L N pB (reverse pX) (mkFilter mo ptr d 0).
Proof using HpX HpB HN HN0 Hsmall.
  clear HpA HpY. intros E. pose proof E as E'. unfold newDataFilter_FIR in E'. peel E'. apply lift_done in E'.
  destruct HN0 as [EN0 HN0']. rewrite EN0 in E1. unfold BUFFER_SIZE in E1. assert (0 < Z.of_nat N) as Hp by lia.
  apply (setX_room N) in E2 as [[q ->] HX]; [|done|lia]. apply (setB_room N) in E' as [_ HB]; [|done]. cbn in HX, HB.
  apply xlen_pos in HB as [arB ->]. destruct (xlen_pos _ (Z.lt_le_trans _ _ _ Hp HX)) as [arX ->].
  pose proof (floats_length up junk (N0 + 10) _ _ _ ltac:(lia) E1) as Hl. simpl in HX.
  destruct (new_fir_ok up junk N pX pB d0 N0 ptr HpX HpB HN HN0 _ _ _ _ _ E0 E1) as (d' & Ed & Hd'); [lia|].
  rewrite E in Ed. by injection Ed as ->.
Qed.

Lemma new_iir1_in_use s d s1 : newDataFilter_IIR1 up junk (Z.of_nat N) pX pB pY pA d0 s = Done d s1 →
  ∀ mo, mo ≠ 0 → iir_inv L N pB (tail pA) (reverse pX) (reverse pY) (mkFilter mo ptr d 0).
Proof using HpX HpB HpA HpY HN HN0 Hsmall.
  intros E. pose proof E as E'. unfold newDataFilter_IIR1 in E'. peel E'. apply lift_done in E'.
  destruct HN0 as [EN0 HN0']. rewrite EN0 in E1, E3. unfold BUFFER_SIZE in E1, E3. assert (0 < Z.of_nat N) as Hp by lia.
  apply (setX_room N) in E4 as [[q ->] HX]; [|done|lia]. apply (setB_room N) in E5 as [[q' ->] HB]; [|done].
  apply (setY_room N) in E6 as [[q'' ->] HY]; [|done|lia]. apply (setA_room N) in E' as [_ HA]; [|done|lia]. cbn in HX, HB, HY, HA.
  apply xlen_pos in HB as [arB ->]. apply xlen_pos in HA as [arA ->].
  destruct (xlen_pos _ (Z.lt_le_trans _ _ _ Hp HX)) as [arX ->]. destruct (xlen_pos _ (Z.lt_le_trans _ _ _ Hp HY)) as [arY ->].
  pose proof (floats_length up junk (N0 + 10) _ _ _ ltac:(lia) E1) as Hl. simpl in HX.
  destruct (new_iir1_ok up junk N pX pB pY pA d0 N0 ptr HpX HpB HpA HpY HN HN0 _ _ _ _ _ _ _ _ _ E0 E1 E2 E3) as (d' & Ed & Hd'); [lia|].
  rewrite E in Ed. by injection Ed as ->.
Qed.

Lemma new_iir2_in_use s d s1 : newDataFilter_IIR2 up junk (Z.of_nat N) pX pB pA d0 s = Done d s1 →
  ∀ mo, mo ≠ 0 → iir_inv L N pB (tail pA) (reverse pX) (aux_spec (tail pA) pX) (mkFilter mo ptr d 0).
Proof using HpX HpB HpA HN HN0 Hsmall.
  clear HpY. intros E. pose proof E as E'. unfold newDataFilter_IIR2, createArrayAux in E'. peel E'. apply lift_done in E'.
  destruct HN0 as [EN0 HN0']. rewrite EN0 in E1, E3. unfold BUFFER_SIZE in E1, E3. assert (0 < Z.of_nat N) as Hp by lia.
  apply (setX_room N) in E4 as [[q ->] HX]; [|done|lia]. apply (setB_room N) in E5 as [[q' ->] HB]; [|done].
  apply (setA_room N) in E6 as [[q'' ->] HA]; [|done|lia]. apply aux_room in E' as [HY Hmo]. cbn in HX, HB, HY, HA, Hmo.
  apply xlen_pos in HB as [arB ->]. apply xlen_pos in HA as [arA ->]. apply xlen_pos in HY as [arY ->].
  destruct (xlen_pos _ (Z.lt_le_trans _ _ _ Hp HX)) as [arX ->].
  pose proof (floats_length up junk (N0 + 10) _ _ _ ltac:(lia) E1) as Hl. simpl in HX.
  destruct (new_iir2_ok up junk N pX pB pA d0 N0 ptr HpX HpB HpA HN HN0 _ _ _ _ _ _ _ _ _ _ _ E0 E1 E2 E3 E7) as (d' & Ed & Hd'); [|lia|].
  { destruct Hmo; [by left|right; lia]. }
  rewrite E in Ed. by injection Ed as ->.
Qed.

Lemma new_in_use s d s1 mo : newDataFilter up junk tipo (Z.of_nat N) pX pB pY pA d0 s = Done d s1 → mo ≠ 0 →
  in_use (mkFilter mo ptr d 0).
Proof using HpX HpB HpA HpY HN HN0 Hsmall.
  unfold newDataFilter, in_use. intros E Hm. destruct (tipo =? 1); [|destruct (tipo =? 0)].
  - eexists _, _. by eapply new_iir1_in_use.
  - eexists. by eapply new_fir_in_use.
  - eexists _, _. by eapply new_iir2_in_use.
Qed.

Lemma buffer_fits K c p (h : list F) : buffer K N c p h → (N + c ≤ K)%nat.
Proof.
  intros (a & l & _ & <- & Hk). destruct (decide (N + c = 0)%nat); [lia|].
  destruct (Hk 0%nat) as (x & _ & Hx); [lia|]. apply lookup_lt_Some in Hx. lia.
Qed.

Lemma in_use_fits f : in_use f → Z.of_nat N + ContBuffer f ≤ Z.of_nat L.
Proof.
  unfold in_use. destruct (tipo =? 1); [|destruct (tipo =? 0)].
  - intros (hx & hy & (_ & _ & _ & _ & _ & _ & c & _ & -> & HX%buffer_fits & _)). lia.
  - intros (h & (_ & _ & _ & _ & c & _ & -> & HX%buffer_fits)). lia.
  - intros (hx & hy & (_ & _ & _ & _ & _ & _ & c & _ & -> & HX%buffer_fits & _)). lia.
Qed.

Lemma filter_sample_refused x f : ContBuffer f < 10 →
  wr (ArrayInputsX (f_data f)) (FilterOrder (f_data f) + ContBuffer f) x = None → filter_sample tipo x f = None.
Proof.
  intros Hc Ew. assert (ContBuffer f =? BUFFER_SIZE = false) as Eb by (apply Z.eqb_neq; unfold BUFFER_SIZE; lia).
  unfold filter_sample, FIR_directFormI, IIR_directFormI, IIR_directFormII.
  destruct (tipo =? 1); [|destruct (tipo =? 0)]; rewrite Eb; simpl; by rewrite Ew.
Qed.

(** C6.  The constructors allocate the sample buffers for the FilterOrder that is
    in the memory of the object before they set it (DataFilter.cpp:10, 30, 52).
    When that value is not negative, below 2^29 (so that the size of the
    allocation does not wrap) and smaller than the order in use, no run of ten
    samples ends normally, whatever the kind of the filter.  When the construction
    succeeds, the run handles the samples that fit, and the next one, still one of
    the first ten, is written to the cell right behind the end of the input
    buffer. *)
Theorem filtering_overflow s xs : (10 ≤ length xs)%nat →
  (∀ r s', filtering up junk tipo (Z.of_nat N) pX pB pY pA ptr d0 xs s ≠ Done r s') ∧
  (∀ d s1 f s2, newDataFilter up junk tipo (Z.of_nat N) pX pB pY pA d0 s = Done d s1 →
     setInitialDataFilter up ptr d s1 = Done f s2 → MathOperation f ≠ 0 →
     ∃ k x ys f', Z.of_nat k = N0 + 10 - Z.of_nat N ∧ (k < 10)%nat ∧ xs !! k = Some x ∧
       filter_all (filter_sample tipo) (take k xs) f = Some (ys, f') ∧
       let i := FilterOrder (f_data f') + ContBuffer f' in
       i = xlen (ArrayInputsX (f_data f')) ∧ wr (ArrayInputsX (f_data f')) i x = None ∧ filter_sample tipo x f' = None).
Proof using HpX HpB HpA HpY HN HN0 Hsmall.
  intros Hl. destruct HN0 as [EN0 Hb]. split; [intros r s'; apply overflow_not_done; lia|].
  intros d s1 f s2 Ed Ef Hm. unfold setInitialDataFilter in Ef. apply bind_done in Ef as (p & s4 & _ & Ef). injection Ef as <- <-.
  pose proof (new_in_use _ _ _ _ Ed Hm) as Hf. pose proof (in_use_fits _ Hf) as Hr. cbn in Hr.
  set (k := Z.to_nat (N0 + 10 - Z.of_nat N)). destruct (xs !! k) as [x|] eqn:Ex; [|apply lookup_ge_None in Ex; lia].
  destruct (fill_run k xs _ Hf) as (ys & f' & E & Hf' & Hc); [cbn; lia|lia|].
  destruct (in_use_shape _ Hf') as [EN EX]. exists k, x, ys, f'. split; [lia|]. split; [lia|]. split; [exact Ex|]. split; [exact E|]. cbn zeta.
  assert (FilterOrder (f_data f') + ContBuffer f' = xlen (ArrayInputsX (f_data f'))) as Ei by lia.
  assert (wr (ArrayInputsX (f_data f')) (FilterOrder (f_data f') + ContBuffer f') x = None) as Ew.
  { destruct (wr _ _ x) eqn:Ew; [|done]. apply wr_inv in Ew. lia. }
  split_and!; [exact Ei|exact Ew|]. apply filter_sample_refused; [lia|done].
Qed.
End Overflow.
End DSP.

(** ** The direct forms agree in exact arithmetic

    In any commutative ring: integers, rationals, reals. *)

Definition ring_arith {R} (rO : R) (radd rmul rsub : R → R → R) : Arith R :=
  {| fzero := rO; fsub := rsub; fmac acc c x := radd acc (rmul c x) |}.

Section Exact.
Context {R : Type} (rO rI : R) (radd rmul rsub : R → R → R) (ropp : R → R).
Hypothesis Rth : ring_theory rO rI radd rmul rsub ropp eq.
Add Ring R_ring : Rth.
#[local] Instance RA : Arith R := ring_arith rO radd rmul rsub.
#[local] Infix "⊕" := radd (at level 50, left associativity).
#[local] Infix "⊖" := rsub (at level 50, left associativity).
#[local] Infix "⊗" := rmul (at level 40, left associativity).
Implicit Types a b h hv xs : list R.
#[local] Arguments dot : simpl never.

Lemma macs_exact cs xs : ∀ acc : R, macs acc cs xs = acc ⊕ dot cs xs.
Proof using Rth.
  unfold dot, macs. induction (zip cs xs) as [|[c x] l IH]; intros acc; cbn; [ring|]. rewrite IH. symmetry. rewrite IH. cbn. ring.
Qed.

Lemma dot_nil_l h : dot [] h = rO.
Proof. done. Qed.
Lemma dot_nil_r b : dot b [] = rO.
Proof. by destruct b. Qed.
Lemma dot_cons c (x : R) cs xs : dot (c :: cs) (x :: xs) = c ⊗ x ⊕ dot cs xs.
Proof using Rth. transitivity (macs (rO ⊕ c ⊗ x) cs xs); [done|]. rewrite macs_exact. ring. Qed.

Lemma dot_zeros b h k : dot b (h ++ replicate k rO) = dot b h.
Proof using Rth.
  revert k h. induction b as [|c b IH]; intros k h; [done|]. destruct h as [|x h]; simpl.
  - rewrite dot_nil_r. destruct k; [done|]. simpl. rewrite dot_cons. change (replicate k rO) with ([] ++ replicate k rO).
    rewrite IH, dot_nil_r. ring.
  - by rewrite !dot_cons, IH.
Qed.

(** The input and the output that belong to an internal signal, newest first. *)
Fixpoint input_of a hv : list R := match hv with [] => [] | v :: hv => (v ⊕ dot a hv) :: input_of a hv end.
Fixpoint output_of b hv : list R := match hv with [] => [] | v :: hv' => dot b hv :: output_of b hv' end.

Lemma output_nil hv a : dot a (output_of [] hv) = rO.
Proof using Rth. revert hv. induction a as [|c a IH]; intros [|v hv]; simpl; [done..|]. rewrite dot_cons, IH, dot_nil_l. ring. Qed.

Lemma output_cons a : ∀ c b hv, dot a (output_of (c :: b) hv) = c ⊗ dot a hv ⊕ dot a (output_of b (tail hv)).
Proof using Rth.
  induction a as [|d a IH]; intros c b [|v hv]; simpl; rewrite ?dot_nil_l, ?dot_nil_r; [ring..|].
  rewrite !dot_cons, IH. destruct hv as [|w hv]; simpl; rewrite ?dot_nil_l, ?dot_nil_r, ?dot_cons; ring.
Qed.

(** Exchanging the two convolutions. *)
Lemma conv_swap a : ∀ b v hv, dot b (input_of a (v :: hv)) = dot b (v :: hv) ⊕ dot a (output_of b hv).
Proof using Rth.
  induction b as [|c b IH]; intros v hv; [rewrite !dot_nil_l, output_nil; ring|].
  cbn [input_of]. rewrite !dot_cons, output_cons. destruct hv as [|w hv]; [simpl; rewrite ?dot_nil_r; ring|].
  rewrite IH. simpl. ring.
Qed.

Lemma forms_spec_agree a b xs : ∀ hv, iir1_spec b a (input_of a hv) (output_of b hv) xs = iir2_spec b a hv xs.
Proof using Rth.
  induction xs as [|x xs IH]; intros hv; [done|]. cbn [iir1_spec iir2_spec fsub RA ring_arith]. cbn zeta.
  set (v := x ⊖ dot a hv). assert (x :: input_of a hv = input_of a (v :: hv)) as ->.
  { cbn [input_of]. f_equal. subst v. ring. }
  rewrite conv_swap. replace (dot b (v :: hv) ⊕ _ ⊖ _) with (dot b (v :: hv)) by ring. f_equal. apply IH.
Qed.

Lemma iir1_zeros a b k xs : ∀ hx hy,
  iir1_spec b a (hx ++ replicate k rO) (hy ++ replicate k rO) xs = iir1_spec b a hx hy xs.
Proof using Rth.
  induction xs as [|x xs IH]; intros hx hy; [done|]. simpl. rewrite (dot_zeros a), (dot_zeros b (x :: hx) k : dot b (x :: hx ++ _) = _).
  f_equal. apply (IH (x :: hx) (_ :: hy)).
Qed.

Lemma iir2_drop a b ps xs : ∀ hv, drop (length ps) (iir2_spec b a hv (ps ++ xs)) = iir2_spec b a (aux_go a hv ps) xs.
Proof. induction ps as [|x ps IH]; intros hv; [done|]. simpl. apply IH. Qed.

Lemma aux_go_nil a ps : aux_go a [] ps = aux_spec a ps.
Proof using Rth.
  destruct ps as [|x ps]; [done|]. cbn [aux_go aux_spec fsub RA ring_arith]. rewrite dot_nil_r. by replace (x ⊖ rO) with x by ring.
Qed.

(** The outputs of form II from the initial conditions are those of form I that
    started at rest before them. *)
Lemma forms_agree N a b pX xs : length pX = N →
  iir2_spec b a (aux_spec a pX) xs = drop N (iir1_spec b a (replicate N rO) (replicate N rO) (pX ++ xs)).
Proof using Rth.
  intros Hp. rewrite (iir1_zeros a b N (pX ++ xs) [] [] : iir1_spec b a (replicate N rO) (replicate N rO) _ = _), <-Hp.
  rewrite (forms_spec_agree a b (pX ++ xs) [] : iir1_spec b a [] [] _ = _). by rewrite iir2_drop, aux_go_nil.
Qed.

Lemma reverse_replicate (n : nat) (x : R) : reverse (replicate n x) = replicate n x.
Proof.
  induction n as [|n IH]; [done|]. cbn [replicate]. by rewrite reverse_cons, IH, <-replicate_cons_app.
Qed.

Section Runs.
Variable up : positive → Z → M Z.
Variable junk : Z → nat → R.
Variables (N : nat) (pX pB pY pA : list R) (d0 d1 : @DataFilter R) (N0 N1 : Z) (ptr0 ptr1 : Z).
Hypothesis HpX : length pX = N.
Hypothesis HpB : length pB = S N.
Hypothesis HpA : length pA = S N.
Hypothesis HN : Z.of_nat N < 2 ^ 29.
Hypothesis H0 : FilterOrder d0 = N0 ∧ 0 ≤ N0 < 2 ^ 29.
Hypothesis H1 : FilterOrder d1 = N1 ∧ 0 ≤ N1 < 2 ^ 29.
Hypothesis Hle0 : Z.of_nat N ≤ N0.
Hypothesis Hle1 : Z.of_nat N ≤ N1.

(** C3.  In exact arithmetic (any commutative ring) the two direct forms of the
    IIR class are the same filter, from construction to the last sample: a run of
    the application with form II, whose internal signal createArrayAux starts from
    the initial conditions [pX], gives on the inputs [xs] the samples a run with
    form I started at rest gives on them after the inputs [pX].  As in the
    theorems on each form, the allocations of both runs find room in the heap and
    the FilterOrder found in the memory of the objects is not smaller than the
    order in use. *)
Theorem direct_forms_agree tipo xs
    s arB s1 arX s2 arA s3 arY s4 p s5 s' arB' s1' arX' s2' arA' s3' arY' s4' q' s5' p' s6' :
  floats up junk (Z.of_nat N + 1) s arB s1 → floats up junk (N0 + 10) s1 arX s2 →
  floats up junk (Z.of_nat N) s2 arA s3 → floats up junk (N0 + 10) s3 arY s4 →
  chHeapAlloc up None 4 s4 = Done p s5 → p ≠ 0 →
  tipo ≠ 0 → tipo ≠ 1 →
  floats up junk (Z.of_nat N + 1) s' arB' s1' → floats up junk (N1 + 10) s1' arX' s2' →
  floats up junk (Z.of_nat N) s2' arA' s3' → floats up junk (N1 + 10) s3' arY' s4' →
  chHeapAlloc up None 4 s4' = Done q' s5' → q' ≠ 0 → chHeapAlloc up None 4 s5' = Done p' s6' → p' ≠ 0 →
  let rest := replicate N rO in
  ∃ ys, filtering up junk 1 (Z.of_nat N) rest pB rest pA ptr0 d0 (pX ++ xs) s = Done ys s5 ∧
        filtering up junk tipo (Z.of_nat N) pX pB pY pA ptr1 d1 xs s' = Done (drop N ys) s6'.
Proof using HpX HpB HpA HN H0 H1 Hle0 Hle1 Rth.
  intros EB EX EA EY Ep Hp T0 T1 EB' EX' EA' EY' Eq' Hq' Ep' Hp' rest. eexists. split.
  - by apply (iir1_filtering up junk N rest pB rest pA d0 N0 ptr0 (length_replicate _ _) HpB HpA (length_replicate _ _) HN H0
      s arB s1 arX s2 arA s3 arY s4 p s5 (pX ++ xs)).
  - subst rest. rewrite reverse_replicate, <-forms_agree by done.
    by apply (iir2_filtering up junk N pX pB pY pA d1 N1 ptr1 HpX HpB HpA HN H1 tipo
      s' arB' s1' arX' s2' arA' s3' arY' s4' q' s5' p' s6' xs).
Qed.
End Runs.
End Exact.
