(* ===== verification/Streams.v ===== *)
(** * Streams (os/hal/include/hal_streams.h, os/hal/lib/streams)

    The interface BaseSequentialStream as a class of computations with a put
    operation, and its implementations memstreams.c and nullstreams.c. *)

From S2P Require Import Prelude TimeMeas Kernel.

(** ** The interface

    [M] are the computations that use one stream; [sput] is the method put of
    its table, chSequentialStreamPut, and [sfault] is undefined behaviour. *)
Class Stream (M : Type → Type) := {
  sret :: MRet M;
  sbind :: MBind M;
  sput : Z → M Z;
  sfault : ∀ {A}, M A
}.

(** What a client relies on: the monad laws up to an equivalence. *)
Class StreamLaws (M : Type → Type) `{Stream M} := {
  s_equiv :: ∀ A, Equiv (M A);
  s_equivalence :: ∀ A, Equivalence (≡@{M A});
  s_bind_proper :: ∀ A B, Proper (pointwise_relation A (≡@{M B}) ==> (≡@{M A}) ==> (≡@{M B})) (mbind (M := M));
  ret_bind {A B} (a : A) (k : A → M B) : mret a ≫= k ≡ k a;
  bind_assoc {A B C} (m : M A) (k : A → M B) (l : B → M C) : (m ≫= k) ≫= l ≡ m ≫= (λ a, k a ≫= l)
}.

(** Writing bytes one after the other, whatever the results. *)
Fixpoint put_all {M} `{Stream M} (bs : list Z) : M unit :=
  match bs with [] => mret tt | b :: bs => sput b ≫= λ _, put_all bs end.

Section Laws.
Context {M : Type → Type} `{StreamLaws M}.

Lemma bind_ext {A B} (m : M A) (k k' : A → M B) : (∀ a, k a ≡ k' a) → m ≫= k ≡ m ≫= k'.
Proof. intros Hk. apply s_bind_proper; [exact Hk|reflexivity]. Qed.

Lemma put_all_nil {A} (k : M A) : put_all [] ≫= (λ _, k) ≡ k.
Proof. apply (ret_bind tt (λ _, k)). Qed.

Lemma put_all_cons {A} b bs (k : M A) : put_all (b :: bs) ≫= (λ _, k) ≡ sput b ≫= λ _, put_all bs ≫= λ _, k.
Proof. simpl. by rewrite bind_assoc. Qed.

Lemma put_all_app {A} l1 l2 (k : M A) : put_all (l1 ++ l2) ≫= (λ _, k) ≡ put_all l1 ≫= λ _, put_all l2 ≫= λ _, k.
Proof.
  induction l1 as [|b l1 IH]; [by rewrite put_all_nil|]. rewrite <-app_comm_cons, !put_all_cons.
  apply bind_ext. intros _. exact IH.
Qed.
End Laws.

(** Computations that may fail on a state. *)
Definition stM (S A : Type) : Type := S → option (A * S).
#[export] Instance stM_ret S : MRet (stM S) := λ A a s, Some (a, s).
#[export] Instance stM_bind S : MBind (stM S) := λ A B k m s, '(a, s) ← m s; k a s.

Definition stM_stream (S : Type) (put : Z → stM S Z) : Stream (stM S) := {| sput := put; sfault := λ A _, None |}.

(** ** Memory streams (memstreams.c) *)

Record MemoryStream := mkMS { ms_buffer : list Z; ms_size : nat; ms_eos : nat; ms_offset : nat }.

Definition msObjectInit (buffer : list Z) (size eos : nat) : MemoryStream := mkMS buffer size eos 0.

(** The comparison [msp->size - msp->eos <= 0] of unsigned numbers is an equality. *)
Definition ms_put (b : Z) : stM MemoryStream Z := λ msp,
  if (ms_size msp =? ms_eos msp)%nat then Some (MSG_RESET, msp)
  else if (ms_eos msp <? length (ms_buffer msp))%nat then
    Some (MSG_OK, mkMS (<[ms_eos msp := b]> (ms_buffer msp)) (ms_size msp) (S (ms_eos msp)) (ms_offset msp))
  else None.

Definition ms_get : stM MemoryStream Z := λ msp,
  if (ms_eos msp =? ms_offset msp)%nat then Some (MSG_RESET, msp)
  else
    b ← ms_buffer msp !! ms_offset msp;
    Some (b, mkMS (ms_buffer msp) (ms_size msp) (ms_eos msp) (S (ms_offset msp))).

(** memcpy of [bs] to position [i]. *)
Definition mem_write (i : nat) (bs l : list Z) : option (list Z) :=
  if (i + length bs <=? length l)%nat then Some (take i l ++ bs ++ drop (i + length bs) l) else None.

(** [n] limited to the difference of two unsigned numbers. *)
Definition ms_limit (hi lo n : nat) : nat :=
  let avail := u32 (Z.of_nat hi - Z.of_nat lo) in if avail <? Z.of_nat n then Z.to_nat avail else n.

Definition ms_writes (bp : list Z) : stM MemoryStream nat := λ msp,
  let n := ms_limit (ms_size msp) (ms_eos msp) (length bp) in
  l ← mem_write (ms_eos msp) (take n bp) (ms_buffer msp);
  Some (n, mkMS l (ms_size msp) (ms_eos msp + n) (ms_offset msp)).

(** The bytes read are the result. *)
Definition ms_reads (n : nat) : stM MemoryStream (list Z) := λ msp,
  let n := ms_limit (ms_eos msp) (ms_offset msp) n in
  if (ms_offset msp + n <=? length (ms_buffer msp))%nat then
    Some (take n (drop (ms_offset msp) (ms_buffer msp)),
          mkMS (ms_buffer msp) (ms_size msp) (ms_eos msp) (ms_offset msp + n))
  else None.

#[export] Instance memory_stream : Stream (stM MemoryStream) := stM_stream _ ms_put.

(** Computations on a state are equivalent when they agree on every state. *)
#[export] Instance stM_laws S put : StreamLaws (stM S) (H := stM_stream S put).
Proof.
  refine (Build_StreamLaws _ (stM_stream S put) (λ A m m', ∀ s, m s = m' s) _ _ _ _).
  - intros A. split; [by intros m s|by intros m m' Hm s|]. intros m1 m2 m3 H1 H2 s. by rewrite H1.
  - intros A B k k' Hk m m' Hm s. unfold mbind. simpl. unfold stM_bind. rewrite Hm. destruct (m' s) as [[a s']|]; [|done].
    apply Hk.
  - done.
  - intros A B C m k l s. unfold mbind. simpl. unfold stM_bind. simpl. by destruct (m s) as [[a s']|].
Defined.

#[export] Instance memory_stream_laws : StreamLaws _ := stM_laws _ ms_put.

(** ** The null stream (nullstreams.c) *)

Definition null_put (b : Z) : stM unit Z := λ s, Some (MSG_OK, s).
Definition null_get : stM unit Z := λ s, Some (4, s).
Definition null_writes (bp : list Z) : stM unit nat := λ s, Some (length bp, s).
Definition null_reads (n : nat) : stM unit (list Z) := λ s, Some ([], s).

#[export] Instance null_stream : Stream (stM unit) := stM_stream _ null_put.
#[export] Instance null_stream_laws : StreamLaws _ := stM_laws _ null_put.
