(* ===== verification/Floats.v ===== *)
(** * Exact operations on binary floating point numbers

    Lemmas on SpecFloat double precision: the results of the operations whose
    exact value fits the significand.  A finite number [m * 2^e] is compared
    through the integer [m * 2^(e + 1074)], as no exponent is below -1074. *)

From Stdlib Require Export SpecFloat.
From S2P Require Import Prelude.

#[local] Notation K := 1074.

Definition dround := binary_round 53 1024.
Definition daux (s : bool) (m e : Z) := binary_round_aux 53 1024 s m e loc_Exact.

(** [x] is the number [v / 2^1074] with sign [s]; its exponent is at least [b]. *)
Definition is_fin (x : spec_float) (s : bool) (v b : Z) : Prop :=
  ∃ m e, x = S754_finite s m e ∧ Z.max b (- K) ≤ e ∧ Zpos m * 2 ^ (e + K) = v.

(** ** Digits *)

Lemma digits_bounds m : 2 ^ (Zpos (digits2_pos m) - 1) ≤ Zpos m < 2 ^ Zpos (digits2_pos m).
Proof.
  induction m as [m IH|m IH|]; simpl; [| |done].
  1,2: replace (Z.pos (Pos.succ (digits2_pos m))) with (Z.pos (digits2_pos m) + 1) by lia;
       rewrite Z.pow_add_r by lia; replace (Z.pos (digits2_pos m) + 1 - 1) with (Z.pos (digits2_pos m) - 1 + 1) by lia;
       rewrite Z.pow_add_r by lia; lia.
Qed.

Lemma digits_lt m n : 0 ≤ n → Zpos m < 2 ^ n → Zpos (digits2_pos m) ≤ n.
Proof.
  intros Hn Hm. destruct (digits_bounds m) as [Hlo _]. destruct (Z.le_gt_cases (Zpos (digits2_pos m)) n); [done|].
  assert (2 ^ n ≤ 2 ^ (Zpos (digits2_pos m) - 1)) by (apply Z.pow_le_mono_r; lia). lia.
Qed.

(** ** Shifts without loss *)

Lemma shr_1_even m : shr_1 (Build_shr_record (m * 2) false false) = Build_shr_record m false false.
Proof. rewrite Z.mul_comm. by destruct m. Qed.

Lemma shr_iter p : ∀ m, SpecFloat.iter_pos shr_1 p (Build_shr_record (m * 2 ^ Zpos p) false false) = Build_shr_record m false false.
Proof.
  induction p as [p IH|p IH|]; intros m.
  - cbn [SpecFloat.iter_pos]. replace (m * 2 ^ Zpos p~1) with (m * 2 ^ Zpos p * 2 ^ Zpos p * 2).
    { by rewrite shr_1_even, !IH. }
    replace (Zpos p~1) with (Zpos p + Zpos p + 1) by lia. rewrite !Z.pow_add_r by lia. lia.
  - cbn [SpecFloat.iter_pos]. replace (m * 2 ^ Zpos p~0) with (m * 2 ^ Zpos p * 2 ^ Zpos p) by
      (replace (Zpos p~0) with (Zpos p + Zpos p) by lia; rewrite Z.pow_add_r by lia; lia).
    by rewrite !IH.
  - apply shr_1_even.
Qed.

Lemma shr_exact m e k : 0 ≤ k →
  shr (Build_shr_record (m * 2 ^ k) false false) e k = (Build_shr_record m false false, e + k).
Proof.
  intros Hk. destruct k as [|k|k]; [|simpl; by rewrite shr_iter|lia].
  simpl. rewrite Z.add_0_r. do 2 f_equal. lia.
Qed.

Lemma shr_none r e k : k ≤ 0 → shr r e k = (r, e).
Proof. by destruct k. Qed.

Lemma fexp_eq x : fexp 53 1024 x = Z.max (x - 53) (- K).
Proof. done. Qed.

(** ** Rounding a significand whose digits beyond 53 are zeros *)

Lemma shr_fexp_exact m e :
  - K ≤ e → let k := Z.max 0 (Zpos (digits2_pos m) - 53) in
  ∀ m', Zpos m = m' * 2 ^ k → shr_fexp 53 1024 (Zpos m) e loc_Exact = (Build_shr_record m' false false, e + k).
Proof.
  intros He k m' Em. unfold shr_fexp. simpl shr_record_of_loc. rewrite fexp_eq. cbn [Zdigits2].
  destruct (Z.le_gt_cases (Zpos (digits2_pos m)) 53).
  - rewrite shr_none by lia. subst k. replace (Z.max 0 _) with 0 in * by lia. rewrite Z.add_0_r.
    do 2 f_equal. lia.
  - rewrite Em. replace (Z.max _ _ - e) with k by lia. apply shr_exact. lia.
Qed.

Lemma daux_exact s m e c j :
  Zpos m = c * 2 ^ j → 0 < c < 2 ^ 53 → 0 ≤ j → - K ≤ e ≤ 900 → Zpos (digits2_pos m) + e ≤ 1024 →
  is_fin (daux s (Zpos m) e) s (Zpos m * 2 ^ (e + K)) e.
Proof.
  intros Em Hc Hj He Hd. set (k := Z.max 0 (Zpos (digits2_pos m) - 53)).
  assert (k ≤ j) as Hkj.
  { assert (Zpos (digits2_pos m) ≤ 53 + j); [|lia]. apply digits_lt; [lia|]. rewrite Em, Z.pow_add_r by lia.
    apply Z.mul_lt_mono_pos_r; lia. }
  set (m' := c * 2 ^ (j - k)). assert (0 < m') by (apply Z.mul_pos_pos; [lia|apply Z.pow_pos_nonneg; lia]).
  assert (Zpos m = m' * 2 ^ k) as Em'.
  { rewrite Em. unfold m'. rewrite <-Z.mul_assoc, <-Z.pow_add_r by lia. do 2 f_equal. lia. }
  unfold daux, binary_round_aux. rewrite (shr_fexp_exact m e (proj1 He) m' Em'). fold k. cbn [shr_m loc_of_shr_record round_nearest_even].
  destruct m' as [|p|p] eqn:Ep; [lia| |lia].
  assert (Zpos (digits2_pos p) ≤ 53) as Hp.
  { apply digits_lt; [lia|]. destruct (digits_bounds m) as [_ Hm]. destruct (Z.le_gt_cases (Zpos (digits2_pos m)) 53).
    - assert (2 ^ Zpos (digits2_pos m) ≤ 2 ^ 53) by (apply Z.pow_le_mono_r; lia).
      assert (Zpos p * 1 ≤ Zpos p * 2 ^ k) by (apply Z.mul_le_mono_nonneg_l; [lia|]; assert (0 < 2 ^ k) by (apply Z.pow_pos_nonneg; lia); lia).
      lia.
    - replace (Zpos (digits2_pos m)) with (53 + k) in Hm by lia. rewrite Em', Z.pow_add_r in Hm by lia.
      apply Z.mul_lt_mono_pos_r in Hm; [done|apply Z.pow_pos_nonneg; lia]. }
  unfold shr_fexp. rewrite fexp_eq. cbn [Zdigits2]. rewrite shr_none by lia. cbn [shr_m shr_record_of_loc].
  assert (Zpos (digits2_pos p) + k ≤ Zpos (digits2_pos m)).
  { destruct (digits_bounds m) as [_ Hm]. destruct (digits_bounds p) as [Hlo _]. rewrite Em' in Hm.
    assert (2 ^ (Zpos (digits2_pos p) - 1 + k) < 2 ^ Zpos (digits2_pos m)) as Hlt.
    { rewrite Z.pow_add_r by lia. eapply Z.le_lt_trans; [|exact Hm]. apply Z.mul_le_mono_nonneg_r; [apply Z.pow_nonneg; lia|done]. }
    apply Z.pow_lt_mono_r_iff in Hlt; lia. }
  rewrite (proj2 (Z.leb_le _ _)) by lia. exists p, (e + k). split; [done|]. split; [lia|].
  rewrite Em', <-Z.mul_assoc, <-Z.pow_add_r by lia. do 2 f_equal. lia.
Qed.

Lemma shift_pos_eq m d : Zpos (Pos.iter xO m d) = Zpos m * 2 ^ Zpos d.
Proof.
  induction d as [|d IH] using Pos.peano_ind; [simpl; lia|].
  rewrite Pos.iter_succ, Pos2Z.inj_xO, IH, Pos2Z.inj_succ, Z.pow_succ_r by lia. lia.
Qed.

Lemma shl_align_eq m e e' : e' ≤ e → Zpos (fst (shl_align m e e')) = Zpos m * 2 ^ (e - e').
Proof.
  intros He. unfold shl_align. destruct (e' - e) as [|d|d] eqn:E; simpl; [|lia|].
  - replace (e - e') with 0 by lia. lia.
  - rewrite shift_pos_eq. f_equal. f_equal. lia.
Qed.

Lemma pow_split a b : 0 ≤ a → 0 ≤ b → 2 ^ (a + b) = 2 ^ a * 2 ^ b.
Proof. intros. apply Z.pow_add_r; lia. Qed.

Lemma dround_exact s m e c j :
  Zpos m = c * 2 ^ j → 0 < c < 2 ^ 53 → 0 ≤ j → - K ≤ e ≤ 900 → Zpos (digits2_pos m) + e ≤ 1024 →
  is_fin (dround s m e) s (Zpos m * 2 ^ (e + K)) (e - 52).
Proof.
  intros Em Hc Hj He Hd. unfold dround, binary_round. rewrite fexp_eq.
  set (e' := Z.max (Zpos (digits2_pos m) + e - 53) (- K)). unfold shl_align.
  destruct (e' - e) as [|d|d] eqn:Ed.
  1,2: destruct (daux_exact s m e c j Em Hc Hj He Hd) as (m' & e2 & E & He2 & Ev); exists m', e2;
       (split; [exact E|]); (split; [lia|exact Ev]).
  assert (Zpos (Pos.iter xO m d) = c * 2 ^ (j + Zpos d)) as Em'.
  { rewrite shift_pos_eq, Em, pow_split by lia. lia. }
  assert (Zpos (digits2_pos (Pos.iter xO m d)) ≤ Zpos (digits2_pos m) + Zpos d).
  { apply digits_lt; [lia|]. rewrite shift_pos_eq, pow_split by lia. apply Z.mul_lt_mono_pos_r; [lia|].
    apply digits_bounds. }
  destruct (daux_exact s (Pos.iter xO m d) e' c (j + Zpos d) Em' Hc) as (m' & e2 & E & He2 & Ev); [lia..|].
  exists m', e2. split; [exact E|]. split; [lia|]. rewrite Ev, shift_pos_eq, <-Z.mul_assoc, <-Z.pow_add_r by lia.
  do 2 f_equal. lia.
Qed.

(** A value written with a small significand is [0] or a small significand and
    zero digits in any other way of writing it. *)
Lemma significand m a c b : Zpos m * 2 ^ a = c * 2 ^ b → 0 ≤ a → 0 ≤ b → 0 < c →
  ∃ c' j, Zpos m = c' * 2 ^ j ∧ 0 ≤ j ∧ 0 < c' ≤ c.
Proof.
  intros E Ha Hb Hc. destruct (Z.le_gt_cases a b).
  - exists c, (b - a). split; [|lia]. replace b with (b - a + a) in E by lia. rewrite pow_split, Z.mul_assoc in E by lia.
    apply Z.mul_reg_r in E; [done|]. apply Z.pow_nonzero; lia.
  - exists (Zpos m), 0. split; [lia|]. split; [lia|]. split; [lia|].
    replace a with (a - b + b) in E by lia. rewrite pow_split, Z.mul_assoc in E by lia.
    apply Z.mul_reg_r in E; [|apply Z.pow_nonzero; lia]. rewrite <-E.
    assert (0 < 2 ^ (a - b)) by (apply Z.pow_pos_nonneg; lia). nia.
Qed.

(** Conversion of an integer. *)
Definition of_int (n : Z) : spec_float := binary_normalize 53 1024 n 0 false.

Lemma of_int_exact n : 0 < n < 2 ^ 53 → is_fin (of_int n) false (n * 2 ^ K) (-52).
Proof.
  intros Hn. destruct n as [|m|m]; [lia| |lia]. unfold of_int. simpl binary_normalize.
  destruct (dround_exact false m 0 (Zpos m) 0) as (m' & e & E & He & Ev); [lia..| |].
  - assert (Zpos (digits2_pos m) ≤ 53) by (apply digits_lt; lia). lia.
  - exists m', e. split; [exact E|]. split; [lia|exact Ev].
Qed.

(** [(long)x]: towards zero, undefined out of range. *)
Definition trunc_long (x : spec_float) : option Z :=
  match x with
  | S754_zero _ => Some 0
  | S754_finite s m e =>
      let a := if 0 <=? e then Zpos m * 2 ^ e else Zpos m / 2 ^ (- e) in
      let v := if s then - a else a in
      if (INT32_MIN <=? v) && (v <=? INT32_MAX) then Some v else None
  | _ => None
  end.

Lemma floor_eq m e : - K ≤ e → (if 0 <=? e then Zpos m * 2 ^ e else Zpos m / 2 ^ (- e)) = (Zpos m * 2 ^ (e + K)) / 2 ^ K.
Proof.
  intros He. destruct (Z.leb_spec 0 e).
  - rewrite pow_split, Z.mul_assoc, Z.div_mul by lia. done.
  - replace (2 ^ K) with (2 ^ (- e) * 2 ^ (e + K)) by (rewrite <-pow_split by lia; f_equal; lia).
    rewrite Z.div_mul_cancel_r; [done|apply Z.pow_nonzero; lia..].
Qed.

Lemma trunc_eq x v b : is_fin x false v b → v / 2 ^ K < 2 ^ 31 → trunc_long x = Some (v / 2 ^ K).
Proof.
  intros (m & e & -> & He & <-) Hv. unfold trunc_long. rewrite floor_eq by lia.
  assert (0 ≤ Zpos m * 2 ^ (e + K) / 2 ^ K) by (apply Z.div_pos; [apply Z.mul_nonneg_nonneg; [lia|apply Z.pow_nonneg; lia]|apply Z.pow_pos_nonneg; lia]).
  rewrite (proj2 (Z.leb_le _ _)), (proj2 (Z.leb_le _ _)); unfold INT32_MIN, INT32_MAX; [done|lia|lia].
Qed.

Lemma pow_bound m a b : Zpos m * 2 ^ a < 2 ^ b → 0 ≤ a → a < b.
Proof.
  intros H Ha. destruct (Z.lt_ge_cases a b); [done|]. assert (2 ^ b ≤ 2 ^ a) by (apply Z.pow_le_mono_r; lia).
  assert (0 < 2 ^ a) by (apply Z.pow_pos_nonneg; lia). nia.
Qed.

(** ** The fraction of a single precision number *)

Section Fraction.
Variables (m : positive) (e : Z).
Hypothesis Hm : Zpos m < 2 ^ 24.
Hypothesis He : - 149 ≤ e ≤ 900.
Let v := Zpos m * 2 ^ (e + K).
Let L := v / 2 ^ K.
Let r := v mod 2 ^ K.
Hypothesis HL : L < 2 ^ 31.

Lemma fraction_significand : r ≠ 0 → e < 0 ∧ r = (Zpos m - L * 2 ^ (- e)) * 2 ^ (e + K).
Proof.
  intros Hr. destruct (Z.le_gt_cases 0 e).
  - destruct Hr. subst r v. rewrite pow_split, Z.mul_assoc by lia. apply Z.mod_mul. apply Z.pow_nonzero; lia.
  - split; [done|]. subst r. rewrite Z.mod_eq by (apply Z.pow_nonzero; lia). fold L. subst v.
    replace (2 ^ K) with (2 ^ (- e) * 2 ^ (e + K)) by (rewrite <-pow_split by lia; f_equal; lia). lia.
Qed.

Lemma L_nonneg : 0 ≤ L.
Proof. apply Z.div_pos; [apply Z.mul_nonneg_nonneg; [lia|apply Z.pow_nonneg; lia]|apply Z.pow_pos_nonneg; lia]. Qed.

Lemma r_bounds : 0 ≤ r < 2 ^ K.
Proof. apply Z.mod_pos_bound. apply Z.pow_pos_nonneg; lia. Qed.

Definition fraction : spec_float := SFsub 53 1024 (S754_finite false m e) (of_int L).

Lemma fraction_exact : if r =? 0 then fraction = S754_zero false else is_fin fraction false r (-201).
Proof.
  pose proof L_nonneg as HL0. pose proof r_bounds as Hr. unfold fraction.
  destruct (Z.eq_dec L 0) as [EL|EL].
  - assert (r = v) as Er by (unfold r; rewrite Z.mod_eq by (apply Z.pow_nonzero; lia); fold L; lia).
    rewrite EL. assert (0 < v) by (apply Z.mul_pos_pos; [lia|apply Z.pow_pos_nonneg; lia]).
    rewrite (proj2 (Z.eqb_neq _ _)) by lia. rewrite Er. exists m, e. split; [done|]. split; [lia|done].
  - destruct (of_int_exact L) as (mL & eL & -> & HeL & EvL); [lia|]. unfold SFsub.
    set (ez := Z.min e eL). rewrite !shl_align_eq by lia. simpl cond_Zopp.
    set (z := Zpos m * 2 ^ (e - ez) - Zpos mL * 2 ^ (eL - ez)).
    assert (z * 2 ^ (ez + K) = r) as Ez.
    { unfold z. rewrite Z.mul_sub_distr_r, <-!Z.mul_assoc, <-!Z.pow_add_r by lia.
      replace (e - ez + (ez + K)) with (e + K) by lia. replace (eL - ez + (ez + K)) with (eL + K) by lia.
      rewrite EvL. fold v. unfold r. rewrite Z.mod_eq by (apply Z.pow_nonzero; lia). fold L. lia. }
    assert (0 < 2 ^ (ez + K)) as Hp by (apply Z.pow_pos_nonneg; lia).
    destruct (Z.eqb_spec r 0) as [E0|E0].
    + assert (z = 0) as -> by nia. done.
    + assert (0 < z) as Hz by nia. destruct z as [|p|p] eqn:Ep; [lia| |lia].
      destruct (fraction_significand E0) as [He0 Er].
      assert (Zpos p * 2 ^ (ez + K) = (Zpos m - L * 2 ^ (- e)) * 2 ^ (e + K)) as Esig by lia.
      assert (0 < Zpos m - L * 2 ^ (- e)) as Hc.
      { assert (0 < 2 ^ (e + K)) by (apply Z.pow_pos_nonneg; lia). nia. }
      destruct (significand _ _ _ _ Esig) as (c & j & Ec & Hj & Hcc); [lia..|].
      assert (0 ≤ L * 2 ^ (- e)) by (apply Z.mul_nonneg_nonneg; [lia|apply Z.pow_nonneg; lia]).
      destruct (dround_exact false p ez c j Ec) as (m' & e' & E & He' & Ev); [lia|lia|lia| |].
      * assert (Zpos (digits2_pos p) ≤ - ez); [|lia]. apply digits_lt; [lia|].
        apply (Z.mul_lt_mono_pos_r (2 ^ (ez + K))); [done|]. rewrite <-pow_split by lia.
        replace (- ez + (ez + K)) with K by lia. lia.
      * exists m', e'. split; [exact E|]. split; [lia|]. by rewrite Ev.
Qed.

(** The fraction times a power of ten has 45 significant digits and is exact. *)
Lemma scaled_exact p : 1 ≤ p ≤ 9 →
  trunc_long (SFmul 53 1024 fraction (of_int (10 ^ p))) = Some (r * 10 ^ p / 2 ^ K).
Proof.
  intros Hp. pose proof r_bounds as Hr. pose proof fraction_exact as HF.
  assert (10 ^ p = 5 ^ p * 2 ^ p) as EP by (rewrite <-Z.pow_mul_l; done).
  assert (0 < 5 ^ p ≤ 5 ^ 9) as H5 by (split; [apply Z.pow_pos_nonneg; lia|apply Z.pow_le_mono_r; lia]).
  assert (0 < 10 ^ p ≤ 10 ^ 9) as H10 by (split; [apply Z.pow_pos_nonneg; lia|apply Z.pow_le_mono_r; lia]).
  destruct (of_int_exact (10 ^ p)) as (mP & eP & EqP & HeP & EvP); [lia|]. rewrite EqP.
  destruct (Z.eqb_spec r 0) as [E0|E0]; [rewrite HF, E0; done|].
  destruct HF as (mF & eF & EqF & HeF & EvF). rewrite EqF. simpl SFmul.
  destruct (fraction_significand E0) as [He0 Er].
  assert (Zpos mF * 2 ^ (eF + K) = (Zpos m - L * 2 ^ (- e)) * 2 ^ (e + K)) as Esig by lia.
  assert (0 < Zpos m - L * 2 ^ (- e)) as Hc.
  { assert (0 < 2 ^ (e + K)) by (apply Z.pow_pos_nonneg; lia). nia. }
  destruct (significand _ _ _ _ Esig) as (c & j & Ec & Hj & Hcc); [lia..|].
  assert (0 ≤ L * 2 ^ (- e)) by (apply Z.mul_nonneg_nonneg; [apply L_nonneg|apply Z.pow_nonneg; lia]).
  assert (Zpos mP * 2 ^ (eP + K) = 5 ^ p * 2 ^ (p + K)) as EsigP by (rewrite EvP, EP, pow_split by lia; lia).
  destruct (significand _ _ _ _ EsigP) as (cP & jP & EcP & HjP & HcP); [lia..|].
  assert (Zpos (mF * mP) * 2 ^ (eF + eP + K) = r * 10 ^ p) as Ev.
  { apply (Z.mul_reg_r _ _ (2 ^ K)); [apply Z.pow_nonzero; lia|].
    rewrite <-!Z.mul_assoc, <-pow_split by lia. replace (eF + eP + K + K) with ((eF + K) + (eP + K)) by lia.
    rewrite pow_split by lia. rewrite <-EvP, <-EvF. lia. }
  assert (r * 10 ^ p < 2 ^ K * 10 ^ p) as Hrp by (apply Z.mul_lt_mono_pos_r; lia).
  assert (Zpos mF * 2 ^ (eF + K) < 2 ^ K) as EvF' by lia.
  assert (Zpos mP * 2 ^ (eP + K) < 2 ^ (30 + K)) as EvP' by (rewrite EvP, pow_split by lia; lia).
  destruct (daux_exact false (mF * mP) (eF + eP) (c * cP) (j + jP)) as (m' & e' & E & He' & Ev'); [|nia|lia| | |].
  - rewrite Pos2Z.inj_mul, Ec, EcP, pow_split by lia. lia.
  - apply pow_bound in EvF'; [|lia]. apply pow_bound in EvP'; lia.
  - apply pow_bound in EvF'; [|lia]. apply pow_bound in EvP'; [|lia].
    assert (Zpos (digits2_pos (mF * mP)) ≤ 30 - (eF + eP)); [|lia]. apply digits_lt; [lia|].
    apply (Z.mul_lt_mono_pos_r (2 ^ (eF + eP + K))); [apply Z.pow_pos_nonneg; lia|]. rewrite Ev, <-pow_split by lia.
    replace (30 - (eF + eP) + (eF + eP + K)) with (30 + K) by lia. rewrite pow_split by lia.
    eapply Z.lt_le_trans; [apply Hrp|]. rewrite Z.mul_comm. apply Z.mul_le_mono_nonneg_r; lia.
  - unfold daux in E. change (xorb false false) with false. rewrite E. rewrite Ev in Ev'. rewrite <-Ev'.
    apply (trunc_eq _ _ (eF + eP)); [by exists m', e'|]. rewrite Ev'. apply Z.div_lt_upper_bound; [lia|].
    eapply Z.lt_le_trans; [apply Hrp|]. apply Z.mul_le_mono_nonneg_l; lia.
Qed.
End Fraction.
