(* ===== verification/Printf.v ===== *)
(** * Formatted output (os/hal/lib/streams/chprintf.c)

    [char] is unsigned, [int] and [long] have 32 bits.  The buffer [tmpbuf] is a
    list of cells with bounds-checked accesses; a C string is the list of its
    bytes, the terminator being behind the last one. *)

From S2P Require Import Prelude TimeMeas Kernel Streams Floats.

Definition MAX_FILLER : Z := 11.
Definition FLOAT_PRECISION : Z := 9.

(** Assignment to the cell [i] of an array. *)
Definition poke (i v : Z) (b : list Z) : option (list Z) :=
  if (0 <=? i) && (i <? Z.of_nat (length b)) then Some (<[Z.to_nat i := u8 v]> b) else None.
Definition peek (i : Z) (b : list Z) : option Z := if i <? 0 then None else b !! Z.to_nat i.

(** ** Numbers *)

(** The first loop; [l] and [ll] have type long, [radix] is unsigned, so the
    quotients are those of unsigned numbers. *)
Fixpoint digits_loop (fuel : nat) (radix q l ll : Z) (b : list Z) : option (Z * list Z) :=
  match fuel with
  | O => None
  | S fuel =>
      let i := u32 l `mod` radix in
      let i := i + 48 in
      let i := if 57 <? i then i + (65 - 48 - 10) else i in
      let q := q - 1 in
      b ← poke q i b;
      let l := s32 (u32 l / radix) in
      let ll := s32 (u32 ll / radix) in
      if ll =? 0 then Some (q, b) else digits_loop fuel radix q l ll b
  end.

(** [do *p++ = *q++; while (--i);] with [i = S n]. *)
Fixpoint copy_down (n : nat) (p q : Z) (b : list Z) : option (Z * list Z) :=
  c ← peek q b;
  b ← poke p c b;
  match n with O => Some (p + 1, b) | S n => copy_down n (p + 1) (q + 1) b end.

Definition long_to_string_with_divisor (p num radix divisor : Z) (b : list Z) : option (Z * list Z) :=
  let l := num in
  let ll := if divisor =? 0 then num else divisor in
  '(q, b) ← digits_loop 33 radix (p + MAX_FILLER) l ll b;
  let i := p + MAX_FILLER - q in
  copy_down (Z.to_nat (i - 1)) p q b.

Definition ch_ltoa (p num radix : Z) (b : list Z) : option (Z * list Z) := long_to_string_with_divisor p num radix 0 b.

Definition pow10 : list Z := [10; 100; 1000; 10000; 100000; 1000000; 10000000; 100000000; 1000000000].

Definition ftoa (p : Z) (num : spec_float) (precision : Z) (b : list Z) : option (Z * list Z) :=
  let precision := if (precision =? 0) || (FLOAT_PRECISION <? precision) then FLOAT_PRECISION else precision in
  precision ← pow10 !! Z.to_nat (precision - 1);
  l ← trunc_long num;
  '(p, b) ← long_to_string_with_divisor p l 10 0 b;
  b ← poke p 46 b;
  l ← trunc_long (SFmul 53 1024 (SFsub 53 1024 num (of_int l)) (of_int precision));
  long_to_string_with_divisor (p + 1) l 10 (precision / 10) b.

(** ** Arguments *)

Inductive varg :=
  | AInt (z : Z)
  | AUInt (z : Z)
  | ALong (z : Z)
  | AULong (z : Z)
  | ADouble (x : spec_float)
  | AStr (s : option (list Z)).

(** va_arg of an argument of another type is undefined, but for the signed and
    unsigned variants of a type when the value has both. *)
Definition va_int (ap : list varg) : option (Z * list varg) :=
  match ap with
  | AInt z :: ap => Some (z, ap)
  | AUInt z :: ap => if z <=? INT32_MAX then Some (z, ap) else None
  | _ => None
  end.
Definition va_uint (ap : list varg) : option (Z * list varg) :=
  match ap with
  | AUInt z :: ap => Some (z, ap)
  | AInt z :: ap => if 0 <=? z then Some (z, ap) else None
  | _ => None
  end.
Definition va_long (ap : list varg) : option (Z * list varg) :=
  match ap with
  | ALong z :: ap => Some (z, ap)
  | AULong z :: ap => if z <=? INT32_MAX then Some (z, ap) else None
  | _ => None
  end.
Definition va_ulong (ap : list varg) : option (Z * list varg) :=
  match ap with
  | AULong z :: ap => Some (z, ap)
  | ALong z :: ap => if 0 <=? z then Some (z, ap) else None
  | _ => None
  end.
Definition va_double (ap : list varg) : option (spec_float * list varg) :=
  match ap with ADouble x :: ap => Some (x, ap) | _ => None end.
Definition va_str (ap : list varg) : option (option (list Z) * list varg) :=
  match ap with AStr s :: ap => Some (s, ap) | _ => None end.

(** [(float)x] *)
Definition to_float (x : spec_float) : spec_float :=
  match x with S754_finite s m e => binary_round 24 128 s m e | _ => x end.

(** ** Conversion specifications *)

(** A pointer into the format: [None] is behind the terminator. *)
Definition cptr := option (list Z).

Definition is_digit (c : Z) : bool := (48 <=? c) && (c <=? 57).

(** The loops that read the width and the precision, from the value [acc]; the
    result is the character that ends the number. *)
Fixpoint read_num (l : list Z) (ap : list varg) (acc : Z) : option (Z * cptr * list varg * Z) :=
  match l with
  | [] => Some (0, None, ap, acc)
  | c :: l =>
      if is_digit c then
        let acc := acc * 10 + (c - 48) in if INT32_MAX <? acc then None else read_num l ap acc
      else if c =? 42 then
        '(v, ap) ← va_int ap;
        let acc := acc * 10 + u8 v in if INT32_MAX <? acc then None else read_num l ap acc
      else Some (c, Some l, ap, acc)
  end.

Record spec := mkSpec { left_align : bool; filler : Z; width : Z; precision : Z; is_long : bool; conv : Z }.

(** [if ( *fmt == c) { fmt++; ... }] *)
Definition take_flag (c : Z) (l : list Z) : bool * list Z :=
  match l with x :: l' => if x =? c then (true, l') else (false, l) | [] => (false, l) end.

(** What follows the [%]. *)
Definition read_spec (l : list Z) (ap : list varg) : option (spec * cptr * list varg) :=
  let '(la, l) := take_flag 45 l in
  let '(zero, l) := take_flag 48 l in
  '(c, p, ap, w) ← read_num l ap 0;
  '(c, p, ap, prec) ← (if c =? 46 then l ← p; read_num l ap 0 else Some (c, p, ap, 0));
  '(c, p, long) ← (if (c =? 108) || (c =? 76) then
                     l ← p; match l with [] => Some (c, Some [], true) | c' :: l' => Some (c', Some l', true) end
                   else Some (c, p, (65 <=? c) && (c <=? 90)));
  Some (mkSpec la (if zero : bool then 48 else 32) w prec long c, p, ap).

(** [for (p = s; *p && (--precision >= 0); p++);]: the number of steps. *)
Fixpoint str_scan (s : list Z) (precision : Z) : Z :=
  match s with
  | [] => 0
  | c :: s => if c =? 0 then 0 else if precision - 1 <? 0 then 0 else 1 + str_scan s (precision - 1)
  end.

(** The string "(null)". *)
Definition null_string : list Z := [40; 110; 117; 108; 108; 41].

(** The sign of a negative number, and the position behind it. *)
Definition put_sign (neg : bool) (b : list Z) : option (Z * list Z) :=
  if neg then b ← poke 0 45 b; Some (1, b) else Some (0, b).

(** The switch: the bytes from [s] on, the number [i = p - s] of those to print,
    the filler, and the buffer. *)
Definition convert (d : spec) (ap : list varg) (b : list Z) : option (list Z * Z * Z * list varg * list Z) :=
  let c := conv d in
  if c =? 99 then
    '(v, ap) ← va_int ap; b ← poke 0 v b; Some (b, 1, 32, ap, b)
  else if c =? 115 then
    '(s, ap) ← va_str ap;
    let s := default null_string s in
    let prec := if precision d =? 0 then 32767 else precision d in
    Some (s ++ [0], str_scan s prec, 32, ap, b)
  else if (c =? 68) || (c =? 100) || (c =? 73) || (c =? 105) then
    '(l, ap) ← (if is_long d then va_long ap else va_int ap);
    if l =? INT32_MIN then None
    else
      '(p, b) ← put_sign (l <? 0) b;
      '(p, b) ← ch_ltoa p (Z.abs l) 10 b;
      Some (b, p, filler d, ap, b)
  else if c =? 102 then
    '(x, ap) ← va_double ap;
    let f := to_float x in
    let neg := SFltb f (S754_zero false) in
    let f := if neg then SFopp f else f in
    '(p, b) ← put_sign neg b;
    '(p, b) ← ftoa p f (precision d) b;
    Some (b, p, filler d, ap, b)
  else
    let unsigned_common radix :=
      '(l, ap) ← (if is_long d then va_ulong ap else va_uint ap);
      '(p, b) ← ch_ltoa 0 (s32 l) radix b;
      Some (b, p, filler d, ap, b) in
    if (c =? 88) || (c =? 120) then unsigned_common 16
    else if (c =? 85) || (c =? 117) then unsigned_common 10
    else if (c =? 79) || (c =? 111) then unsigned_common 8
    else b ← poke 0 c b; Some (b, 1, filler d, ap, b).

(** ** Output *)

Section Print.
Context {M : Type → Type} `{Stream M}.

(** chSequentialStreamPut and [n++]. *)
Definition put_n (c n : Z) : M Z := sput (u8 c) ≫= λ _, if n =? INT32_MAX then sfault else mret (n + 1).

(** [k] fillers. *)
Fixpoint fill (k : nat) (c n : Z) : M Z :=
  match k with O => mret n | S k => put_n c n ≫= fill k c end.

(** [while (--i >= 0)]: [i] bytes from [s]. *)
Fixpoint out (i : nat) (s : list Z) (n : Z) : M Z :=
  match i with
  | O => mret n
  | S i => match s with [] => sfault | c :: s => put_n c n ≫= out i s end
  end.

(** The part behind the switch. *)
Definition emit (la : bool) (filler width : Z) (s : list Z) (i n : Z) : M Z :=
  let width := if width - i <? 0 then 0 else width - i in
  let width := if la then width else - width in
  match s with
  | [] => sfault
  | c :: s' =>
      if width <? 0 then
        if (c =? 45) && (filler =? 48) then
          put_n c n ≫= λ n, fill (Z.to_nat (- width)) filler n ≫= out (Z.to_nat (i - 1)) s'
        else fill (Z.to_nat (- width)) filler n ≫= out (Z.to_nat i) s
      else out (Z.to_nat i) s n ≫= fill (Z.to_nat width) filler
  end.

(** The main loop. *)
Fixpoint print_loop (fuel : nat) (fmt : cptr) (ap : list varg) (b : list Z) (n : Z) : M Z :=
  match fuel, fmt with
  | O, _ | _, None => sfault
  | S fuel, Some [] => mret n
  | S fuel, Some (c :: l) =>
      if c =? 0 then mret n
      else if negb (c =? 37) then put_n c n ≫= print_loop fuel (Some l) ap b
      else
        match read_spec l ap with
        | None => sfault
        | Some (d, fmt, ap) =>
            match convert d ap b with
            | None => sfault
            | Some (s, i, filler, ap, b) =>
                emit (left_align d) filler (width d) s i n ≫= print_loop fuel fmt ap b
            end
        end
  end.

(** [b] is what tmpbuf contains at the start; each directive takes at least one
    character of the format. *)
Definition chvprintf (b fmt : list Z) (ap : list varg) : M Z := print_loop (S (length fmt)) (Some fmt) ap b 0.
End Print.

(** [None] is undefined behaviour; the result is the contents of [str] and the
    returned number. *)
Definition chsnprintf (b str : list Z) (size : nat) (fmt : list Z) (ap : list varg) : option (list Z * Z) :=
  let size_wo_nul := (if (0 <? size) then size - 1 else 0)%nat in
  let ms := msObjectInit str size_wo_nul 0 in
  '(retval, ms) ← chvprintf (M := stM MemoryStream) b fmt ap ms;
  if (ms_eos ms <? size)%nat then
    str ← poke (Z.of_nat (ms_eos ms)) 0 (ms_buffer ms);
    Some (str, retval)
  else Some (ms_buffer ms, retval).

(** ** Numerals *)

Definition digit (d : Z) : Z := if 9 <? d then d + 55 else d + 48.
Definition undigit (c : Z) : Z := if c <=? 57 then c - 48 else c - 55.

(** The [k] low digits of [n]. *)
Fixpoint low_digits (radix : Z) (k : nat) (n : Z) : list Z :=
  match k with O => [] | S k => low_digits radix k (n / radix) ++ [digit (n `mod` radix)] end.

(** The number of digits, at least one, of a number below [2^fuel]. *)
Fixpoint ndigits (fuel : nat) (radix n : Z) : nat :=
  match fuel with
  | O => 1
  | S fuel => if n / radix =? 0 then 1%nat else S (ndigits fuel radix (n / radix))
  end.

Definition show (radix n : Z) : list Z := low_digits radix (ndigits 32 radix n) n.

(** Reading digits behind the value [acc]. *)
Definition dvalue (radix acc : Z) (ds : list Z) : Z := foldl (λ a c, a * radix + undigit c) acc ds.

Section Numerals.
Variable radix : Z.
Hypothesis Hr : 2 ≤ radix ≤ 16.

Lemma low_digits_length k : ∀ n, length (low_digits radix k n) = k.
Proof using. induction k as [|k IH]; intros n; simpl; [done|]. rewrite length_app, IH. simpl. lia. Qed.

Lemma undigit_digit d : 0 ≤ d < 16 → undigit (digit d) = d.
Proof using.
  intros Hd. unfold undigit, digit. destruct (Z.ltb_spec 9 d).
  - destruct (Z.leb_spec (d + 55) 57); lia.
  - destruct (Z.leb_spec (d + 48) 57); lia.
Qed.

Lemma dvalue_app acc l1 l2 : dvalue radix acc (l1 ++ l2) = dvalue radix (dvalue radix acc l1) l2.
Proof using. apply foldl_app. Qed.

Lemma dvalue_low k : ∀ acc n, 0 ≤ n → dvalue radix acc (low_digits radix k n) = acc * radix ^ Z.of_nat k + n `mod` radix ^ Z.of_nat k.
Proof.
  induction k as [|k IH]; intros acc n Hn; [simpl; rewrite Z.mod_1_r; lia|].
  cbn [low_digits]. rewrite dvalue_app, IH by (apply Z.div_pos; lia). unfold dvalue. simpl foldl.
  rewrite undigit_digit by (pose proof (Z.mod_pos_bound n radix); lia).
  rewrite Nat2Z.inj_succ, Z.pow_succ_r by lia.
  rewrite (Z.rem_mul_r n radix (radix ^ Z.of_nat k)) by (lia || (apply Z.pow_pos_nonneg; lia)). lia.
Qed.

Lemma ndigits_bound fuel : ∀ n, 0 ≤ n < 2 ^ Z.of_nat fuel → n < radix ^ Z.of_nat (ndigits fuel radix n).
Proof.
  induction fuel as [|fuel IH]; intros n Hn; [simpl in *; lia|]. cbn [ndigits].
  rewrite Nat2Z.inj_succ, Z.pow_succ_r in Hn by lia.
  destruct (Z.eqb_spec (n / radix) 0) as [E|E].
  - apply Z.div_small_iff in E; [|lia]. simpl. lia.
  - assert (n / radix < radix ^ Z.of_nat (ndigits fuel radix (n / radix))) as Hlt.
    { apply IH. split; [apply Z.div_pos; lia|]. apply Z.div_lt_upper_bound; [lia|]. nia. }
    rewrite Nat2Z.inj_succ, Z.pow_succ_r by lia. pose proof (Z.div_mod n radix). pose proof (Z.mod_pos_bound n radix). nia.
Qed.

Lemma ndigits_le fuel : ∀ k n, 0 ≤ n < radix ^ Z.of_nat (S k) → (ndigits fuel radix n ≤ S k)%nat.
Proof.
  induction fuel as [|fuel IH]; intros k n Hn; simpl; [lia|].
  destruct (Z.eqb_spec (n / radix) 0) as [E|E]; [lia|].
  rewrite Nat2Z.inj_succ, Z.pow_succ_r in Hn by lia. destruct k as [|k].
  - destruct E. apply Z.div_small. simpl in Hn. lia.
  - apply le_n_S, IH. split; [apply Z.div_pos; lia|]. apply Z.div_lt_upper_bound; lia.
Qed.

Lemma ndigits_pos fuel n : (1 ≤ ndigits fuel radix n)%nat.
Proof using. destruct fuel; simpl; [lia|]. case_match; lia. Qed.

Lemma show_value acc n : 0 ≤ n < 2 ^ 32 → dvalue radix acc (show radix n) = acc * radix ^ Z.of_nat (ndigits 32 radix n) + n.
Proof.
  intros Hn. unfold show. rewrite dvalue_low by lia. f_equal. apply Z.mod_small. split; [lia|].
  apply (ndigits_bound 32). simpl. lia.
Qed.
End Numerals.

(** ** Cells *)

Lemma bind_some {A B} (a : A) (k : A → option B) : Some a ≫= k = k a.
Proof. done. Qed.

Lemma poke_eq (i : nat) z v (b : list Z) :
  z = Z.of_nat i → (i < length b)%nat → poke z v b = Some (take i b ++ u8 v :: drop (S i) b).
Proof.
  intros -> Hi. unfold poke. rewrite (proj2 (Z.leb_le _ _)), (proj2 (Z.ltb_lt _ _)) by lia. simpl. f_equal.
  rewrite Nat2Z.id. by rewrite insert_take_drop.
Qed.

Lemma peek_eq (i : nat) z (b : list Z) : z = Z.of_nat i → peek z b = b !! i.
Proof. intros ->. unfold peek. destruct (Z.ltb_spec (Z.of_nat i) 0); [lia|]. by rewrite Nat2Z.id. Qed.

Lemma u32_s32 x : u32 (s32 x) = u32 x.
Proof.
  unfold u32, s32. rewrite Zminus_mod_idemp_l. f_equal. lia.
Qed.

Lemma digit_u8 d : 0 ≤ d < 16 → u8 (digit d) = digit d.
Proof. intros Hd. unfold u8, digit. apply Z.mod_small. case_match; lia. Qed.

Lemma digits_loop_S fuel radix q l ll b : 2 ≤ radix ≤ 16 →
  digits_loop (S fuel) radix q l ll b =
    b ← poke (q - 1) (digit (u32 l `mod` radix)) b;
    if u32 ll / radix =? 0 then Some (q - 1, b)
    else digits_loop fuel radix (q - 1) (s32 (u32 l / radix)) (s32 (u32 ll / radix)) b.
Proof.
  intros Hr. cbn [digits_loop]. cbn zeta.
  replace (if 57 <? _ then _ else _) with (digit (u32 l `mod` radix)) by
    (unfold digit; destruct (Z.ltb_spec 57 (u32 l `mod` radix + 48)), (Z.ltb_spec 9 (u32 l `mod` radix)); lia).
  replace (s32 (u32 ll / radix) =? 0) with (u32 ll / radix =? 0); [done|].
  destruct (Z.eqb_spec (u32 ll / radix) 0) as [->|Hne]; [done|]. symmetry. apply Z.eqb_neq. intros E.
  pose proof (u32_s32 (u32 ll / radix)) as E'. pose proof (u32_range ll) as Hll. unfold is_u32 in Hll.
  rewrite E, (u32_small (u32 ll / radix)) in E'; [by rewrite <-E' in Hne|]. split; [apply Z.div_pos; lia|]. apply Z.div_lt_upper_bound; lia.
Qed.

Lemma u32_quot l radix : 2 ≤ radix → u32 (s32 (u32 l / radix)) = u32 l / radix.
Proof.
  intros Hr. rewrite u32_s32, u32_small; [done|]. pose proof (u32_range l). unfold is_u32 in *.
  split; [apply Z.div_pos; lia|]. apply Z.div_lt_upper_bound; lia.
Qed.

Lemma digits_loop_ok radix fuel : 2 ≤ radix ≤ 16 → ∀ q l ll b,
  u32 ll < 2 ^ Z.of_nat (S fuel) → let k := ndigits fuel radix (u32 ll) in
  (k ≤ q)%nat → (q ≤ length b)%nat →
  digits_loop (S fuel) radix (Z.of_nat q) l ll b =
    Some (Z.of_nat (q - k), take (q - k) b ++ low_digits radix k (u32 l) ++ drop q b).
Proof.
  intros Hr. induction fuel as [|fuel IH]; intros q l ll b Hll k Hk Hq;
    assert (0 ≤ u32 l `mod` radix < 16) as Hd by (pose proof (Z.mod_pos_bound (u32 l) radix); lia);
    assert (1 ≤ k)%nat as Hk1 by apply ndigits_pos; pose proof (u32_range ll) as Hu; unfold is_u32 in Hu;
    rewrite digits_loop_S, (poke_eq (q - 1)) by lia; rewrite bind_some; rewrite digit_u8 by done; replace (S (q - 1)) with q by lia.
  - rewrite Z.div_small by (simpl in Hll; lia). subst k. simpl. f_equal. f_equal. lia.
  - subst k. cbn [ndigits] in *. destruct (Z.eqb_spec (u32 ll / radix) 0) as [E|E].
    + simpl. f_equal. f_equal. lia.
    + replace (Z.of_nat q - 1) with (Z.of_nat (q - 1)) by lia.
      rewrite IH; rewrite ?u32_quot by lia.
      * f_equal. f_equal; [lia|]. set (k := ndigits fuel radix (u32 ll / radix)) in *.
        rewrite take_app_le, take_take, drop_app_length' by (rewrite length_take; lia).
        simpl. rewrite <-app_assoc. simpl. f_equal. f_equal. lia.
      * apply Z.div_lt_upper_bound; [lia|]. rewrite (Nat2Z.inj_succ (S fuel)), Z.pow_succ_r in Hll by lia. nia.
      * lia.
      * rewrite length_app, length_take. simpl. rewrite length_drop. lia.
Qed.

#[local] Arguments ndigits : simpl never.
#[local] Arguments digits_loop : simpl never.

Definition bytes (l : list Z) : Prop := Forall (λ c, u8 c = c) l.

Lemma drop_lookup (b : list Z) q c l : drop q b = c :: l → b !! q = Some c ∧ drop (S q) b = l ∧ (q < length b)%nat.
Proof.
  intros E. assert (drop q b !! 0%nat = Some c) as E0 by by rewrite E. rewrite lookup_drop, Nat.add_0_r in E0.
  split; [done|]. split; [|by apply lookup_lt_Some in E0]. replace (S q) with (q + 1)%nat by lia. by rewrite <-drop_drop, E.
Qed.

Lemma copy_down_ok ds : ∀ c (p q : nat) b rest,
  drop q b = c :: ds ++ rest → bytes (c :: ds) → (p ≤ q)%nat →
  copy_down (length ds) (Z.of_nat p) (Z.of_nat q) b =
    Some (Z.of_nat (p + S (length ds)), take p b ++ c :: ds ++ drop (p + S (length ds)) b).
Proof.
  induction ds as [|d ds IH]; intros c p q b rest E Hb Hp; apply drop_lookup in E as (Eq & Ed & Hq);
    apply Forall_cons in Hb as [Hc Hb]; cbn [copy_down length].
  - rewrite (peek_eq q), Eq, bind_some, (poke_eq p), bind_some, Hc by lia. simpl. f_equal. f_equal; [lia|].
    do 3 f_equal. lia.
  - rewrite (peek_eq q), Eq, bind_some, (poke_eq p), bind_some, Hc by lia.
    replace (Z.of_nat p + 1) with (Z.of_nat (S p)) by lia. replace (Z.of_nat q + 1) with (Z.of_nat (S q)) by lia.
    set (b1 := take p b ++ c :: drop (S p) b).
    assert (take (S p) b1 = take p b ++ [c]) as E1.
    { unfold b1. rewrite (app_assoc _ [c] _ : take p b ++ c :: _ = _). apply take_app_length'.
      rewrite length_app, length_take. simpl. lia. }
    assert (∀ k, (S p ≤ k)%nat → drop k b1 = drop k b) as E2.
    { intros k Hk. unfold b1. rewrite drop_app_ge by (rewrite length_take; lia). rewrite length_take.
      replace (k - p `min` length b)%nat with (S (k - S p)) by lia. simpl. rewrite drop_drop. f_equal. lia. }
    rewrite (IH d (S p) (S q) b1 rest); [|by rewrite E2 by lia|done|lia].
    rewrite E1, E2 by lia. replace (p + S (S (length ds)))%nat with (S p + S (length ds))%nat by lia.
    by rewrite <-app_assoc.
Qed.

Lemma low_digits_bytes radix k : 2 ≤ radix ≤ 16 → ∀ n, bytes (low_digits radix k n).
Proof.
  intros Hr. induction k as [|k IH]; intros n; simpl; [constructor|]. apply Forall_app. split; [apply IH|].
  constructor; [|constructor]. apply digit_u8. pose proof (Z.mod_pos_bound n radix). lia.
Qed.

(** The digits are written at [p] and the cells before it are kept. *)
Lemma to_string_ok radix (p : nat) num divisor b : 2 ≤ radix ≤ 16 →
  let k := ndigits 32 radix (u32 (if divisor =? 0 then num else divisor)) in
  (k ≤ 11)%nat → (p + 11 ≤ length b)%nat →
  ∃ rest, long_to_string_with_divisor (Z.of_nat p) num radix divisor b =
            Some (Z.of_nat (p + k), take p b ++ low_digits radix k (u32 num) ++ rest) ∧
          (p + k + length rest = length b)%nat.
Proof.
  intros Hr k Hk Hp. unfold long_to_string_with_divisor, MAX_FILLER. cbn zeta.
  set (ll := if divisor =? 0 then num else divisor) in *.
  replace (Z.of_nat p + 11) with (Z.of_nat (p + 11)) by lia.
  assert (1 ≤ k)%nat as Hk1 by apply ndigits_pos.
  rewrite (digits_loop_ok radix 32 Hr) by (try lia; pose proof (u32_range ll); unfold is_u32 in *; simpl; lia).
  fold k. rewrite bind_some. set (b1 := _ ++ _).
  assert (length b1 = length b) as Hb1.
  { unfold b1. rewrite !length_app, length_take, low_digits_length, length_drop. lia. }
  destruct (low_digits radix k (u32 num)) as [|c ds] eqn:Eds.
  { apply (f_equal length) in Eds. rewrite low_digits_length in Eds. simpl in Eds. lia. }
  assert (length ds = (k - 1)%nat) as Hds by (pose proof (low_digits_length radix k (u32 num)) as E; rewrite Eds in E; simpl in E; lia).
  replace (Z.to_nat _) with (length ds) by lia.
  rewrite (copy_down_ok ds c p (p + 11 - k) b1 (drop (p + 11) b)).
  - exists (drop (p + k) b1). replace (p + S (length ds))%nat with (p + k)%nat by lia. split.
    + f_equal. f_equal. f_equal. unfold b1. rewrite take_app_le by (rewrite length_take; lia).
      rewrite take_take. f_equal. lia.
    + rewrite length_drop. lia.
  - unfold b1. rewrite drop_app_length'; [done|]. rewrite length_take. lia.
  - rewrite <-Eds. by apply low_digits_bytes.
  - lia.
Qed.

Lemma ch_ltoa_ok radix (p : nat) num b : radix = 8 ∨ radix = 10 ∨ radix = 16 → (p + 11 ≤ length b)%nat →
  ∃ rest, ch_ltoa (Z.of_nat p) num radix b =
            Some (Z.of_nat (p + length (show radix (u32 num))), take p b ++ show radix (u32 num) ++ rest) ∧
          (p + length (show radix (u32 num)) + length rest = length b)%nat.
Proof.
  intros Hr Hp. assert (2 ≤ radix ≤ 16) as Hr' by lia. pose proof (u32_range num) as Hu. unfold is_u32 in Hu.
  destruct (to_string_ok radix p num 0 b Hr') as (rest & E & Hl); [|done|].
  - change (if 0 =? 0 then num else 0) with num. apply (ndigits_le _ Hr' 32 10). split; [lia|].
    change (Z.of_nat 11) with 11. assert (8 ^ 11 ≤ radix ^ 11) by (apply Z.pow_le_mono_l; lia). lia.
  - exists rest. unfold show. rewrite low_digits_length. split; [exact E|exact Hl].
Qed.

Lemma show_length_10 n : 0 ≤ n < 2 ^ 32 → (length (show 10 n) ≤ 10)%nat.
Proof. intros Hn. unfold show. rewrite low_digits_length. apply (ndigits_le 10 ltac:(lia) 32 9). change (Z.of_nat 10) with 10. lia. Qed.

(** ** Decimal fractions

    [⌊|x| 10^p⌋] *)
Definition scaled_abs (x : spec_float) (p : Z) : Z :=
  match x with
  | S754_finite _ m e => if 0 <=? e then Zpos m * 2 ^ e * 10 ^ p else (Zpos m * 10 ^ p) / 2 ^ (- e)
  | _ => 0
  end.

Definition digits_of_precision (prec : Z) : Z := if (prec =? 0) || (9 <? prec) then 9 else prec.

Definition show_abs (x : spec_float) (prec : Z) : list Z :=
  let p := digits_of_precision prec in
  let sc := scaled_abs x p in
  show 10 (sc / 10 ^ p) ++ 46 :: low_digits 10 (Z.to_nat p) (sc `mod` 10 ^ p).

(** A finite single precision number in the range of [long]. *)
Definition printable (x : spec_float) : Prop :=
  valid_binary 24 128 x = true ∧ match x with S754_nan | S754_infinity _ => False | _ => True end ∧ scaled_abs x 0 < 2 ^ 31.

Lemma valid_single s m e : valid_binary 24 128 (S754_finite s m e) = true →
  Zpos m < 2 ^ 24 ∧ -149 ≤ e ≤ 104 ∧ to_float (S754_finite s m e) = S754_finite s m e.
Proof.
  simpl. unfold bounded, canonical_mantissa. intros [Hc He]%andb_prop. apply Z.eqb_eq in Hc. apply Z.leb_le in He.
  assert (fexp 24 128 (Zpos (digits2_pos m) + e) = Z.max (Zpos (digits2_pos m) + e - 24) (-149)) as Ef by done.
  pose proof (digits_bounds m) as [_ Hm]. split; [|split; [lia|]].
  - eapply Z.lt_le_trans; [exact Hm|]. apply Z.pow_le_mono_r; lia.
  - unfold binary_round. rewrite Hc. unfold shl_align. rewrite Z.sub_diag.
    unfold binary_round_aux, shr_fexp. cbn [Zdigits2 shr_record_of_loc]. rewrite Hc, Z.sub_diag.
    cbn [shr shr_m loc_of_shr_record round_nearest_even Zdigits2 shr_record_of_loc].
    rewrite Hc, Z.sub_diag. cbn [shr shr_m]. by rewrite (proj2 (Z.leb_le _ _)) by lia.
Qed.

Lemma scaled_split m e p : -149 ≤ e → 0 ≤ p →
  let v := Zpos m * 2 ^ (e + 1074) in
  let sc := if 0 <=? e then Zpos m * 2 ^ e * 10 ^ p else (Zpos m * 10 ^ p) / 2 ^ (- e) in
  sc / 10 ^ p = v / 2 ^ 1074 ∧ sc `mod` 10 ^ p = (v `mod` 2 ^ 1074) * 10 ^ p / 2 ^ 1074.
Proof.
  intros He Hp v sc. assert (0 < 10 ^ p) as H10 by (apply Z.pow_pos_nonneg; lia).
  assert (0 < 2 ^ 1074) as HK by lia.
  assert (sc = v * 10 ^ p / 2 ^ 1074) as Esc.
  { unfold sc, v. destruct (Z.leb_spec 0 e).
    - rewrite pow_split by lia. replace (Zpos m * (2 ^ e * 2 ^ 1074) * 10 ^ p) with (Zpos m * 2 ^ e * 10 ^ p * 2 ^ 1074) by lia.
      symmetry. apply Z.div_mul. lia.
    - replace (2 ^ 1074) with (2 ^ (- e) * 2 ^ (e + 1074)) by (rewrite <-pow_split by lia; f_equal; lia).
      replace (Zpos m * 2 ^ (e + 1074) * 10 ^ p) with (Zpos m * 10 ^ p * 2 ^ (e + 1074)) by lia.
      symmetry. apply Z.div_mul_cancel_r; apply Z.pow_nonzero; lia. }
  pose proof (Z.div_mod v (2 ^ 1074)) as Ev. pose proof (Z.mod_pos_bound v (2 ^ 1074) HK) as Hr.
  set (L := v / 2 ^ 1074) in *. set (r := v `mod` 2 ^ 1074) in *.
  assert (sc = L * 10 ^ p + r * 10 ^ p / 2 ^ 1074) as Esum.
  { rewrite Esc. rewrite Ev by lia. replace ((2 ^ 1074 * L + r) * 10 ^ p) with (r * 10 ^ p + L * 10 ^ p * 2 ^ 1074) by lia.
    rewrite Z.div_add by lia. lia. }
  assert (0 ≤ r * 10 ^ p / 2 ^ 1074 < 10 ^ p).
  { split; [apply Z.div_pos; nia|]. apply Z.div_lt_upper_bound; [lia|]. apply Z.mul_lt_mono_pos_r; lia. }
  rewrite Esum. split.
  - rewrite Z.add_comm, Z.div_add by lia. rewrite Z.div_small; lia.
  - rewrite Z.add_comm, Z.mod_add by lia. apply Z.mod_small. lia.
Qed.

Lemma ndigits_pow10 p : 1 ≤ p ≤ 9 → ndigits 32 10 (10 ^ p / 10) = Z.to_nat p ∧ u32 (10 ^ p / 10) = 10 ^ p / 10 ∧ 10 ^ p / 10 ≠ 0.
Proof.
  intros Hp. assert (p = 1 ∨ p = 2 ∨ p = 3 ∨ p = 4 ∨ p = 5 ∨ p = 6 ∨ p = 7 ∨ p = 8 ∨ p = 9) as Hc by lia.
  repeat destruct Hc as [->|Hc]; try subst p; (split_and!; vm_compute; [reflexivity|reflexivity|discriminate]).
Qed.

Lemma pow10_eq p : 1 ≤ p ≤ 9 → pow10 !! Z.to_nat (p - 1) = Some (10 ^ p).
Proof.
  intros Hp. assert (p = 1 ∨ p = 2 ∨ p = 3 ∨ p = 4 ∨ p = 5 ∨ p = 6 ∨ p = 7 ∨ p = 8 ∨ p = 9) as Hc by lia.
  repeat destruct Hc as [->|Hc]; try subst p; reflexivity.
Qed.

Definition abs_float (x : spec_float) : spec_float := if SFltb x (S754_zero false) then SFopp x else x.

(** The two numbers ftoa prints. *)
Lemma ftoa_parts x p : printable x → 1 ≤ p ≤ 9 →
  let n := abs_float x in let sc := scaled_abs x p in
  trunc_long n = Some (sc / 10 ^ p) ∧ 0 ≤ sc / 10 ^ p < 2 ^ 31 ∧
  trunc_long (SFmul 53 1024 (SFsub 53 1024 n (of_int (sc / 10 ^ p))) (of_int (10 ^ p))) = Some (sc `mod` 10 ^ p).
Proof.
  intros (Hv & Hf & Hr) Hp n sc. destruct x as [s|s| |s m e]; [|done|done|].
  - assert (10 ^ p ≠ 0) by (apply Z.pow_nonzero; lia). subst sc. simpl. rewrite Z.div_0_l, Z.mod_0_l by done.
    destruct (of_int_exact (10 ^ p)) as (mP & eP & -> & _).
    { assert (10 ^ p ≤ 10 ^ 9) by (apply Z.pow_le_mono_r; lia). assert (0 < 10 ^ p) by (apply Z.pow_pos_nonneg; lia). lia. }
    subst n. by destruct s.
  - destruct (valid_single _ _ _ Hv) as (Hm & He & _). assert (n = S754_finite false m e) as -> by by destruct s.
    destruct (scaled_split m e p) as [E1 E2]; [lia..|]. unfold sc. cbn [scaled_abs]. rewrite E1, E2.
    destruct (scaled_split m e 0) as [E3 _]; [lia..|]. cbn [scaled_abs] in Hr. rewrite Z.pow_0_r, Z.div_1_r in E3.
    rewrite Z.pow_0_r, E3 in Hr.
    assert (0 ≤ Zpos m * 2 ^ (e + 1074) / 2 ^ 1074) by
      (apply Z.div_pos; [apply Z.mul_nonneg_nonneg; [lia|apply Z.pow_nonneg; lia]|apply Z.pow_pos_nonneg; lia]).
    split; [apply (trunc_eq _ _ e); [exists m, e; split_and!; [done|lia|done]|lia]|]. split; [lia|].
    apply (scaled_exact m e); lia.
Qed.

Lemma ftoa_ok (p : nat) x prec b : printable x → 0 ≤ prec → (p ≤ 1)%nat → (23 ≤ length b)%nat →
  ∃ rest, ftoa (Z.of_nat p) (abs_float x) prec b =
            Some (Z.of_nat (p + length (show_abs x prec)), take p b ++ show_abs x prec ++ rest) ∧
          (p + length (show_abs x prec) + length rest = length b)%nat.
Proof.
  intros Hx Hprec Hp Hb. unfold ftoa, show_abs. cbn zeta. fold (digits_of_precision prec).
  change (if (prec =? 0) || (FLOAT_PRECISION <? prec) then FLOAT_PRECISION else prec) with (digits_of_precision prec).
  set (pr := digits_of_precision prec). assert (1 ≤ pr ≤ 9) as Hpr.
  { unfold pr, digits_of_precision. destruct (Z.eqb_spec prec 0), (Z.ltb_spec 9 prec); simpl; lia. }
  rewrite (pow10_eq pr Hpr), bind_some. destruct (ftoa_parts x pr Hx Hpr) as (E1 & HL & E2).
  set (sc := scaled_abs x pr) in *. rewrite E1, bind_some.
  assert (u32 (sc / 10 ^ pr) = sc / 10 ^ pr) as EuL by (apply u32_small; unfold is_u32; lia).
  destruct (ch_ltoa_ok 10 p (sc / 10 ^ pr) b) as (r1 & F1 & Hr1); [tauto|lia|]. rewrite EuL in F1, Hr1.
  unfold ch_ltoa in F1. rewrite F1, bind_some. set (i := show 10 (sc / 10 ^ pr)) in *.
  assert (length i ≤ 10)%nat as Hi by (apply show_length_10; lia).
  set (b1 := take p b ++ i ++ r1) in *.
  assert (length b1 = length b) as Hb1 by (unfold b1; rewrite !length_app, length_take; lia).
  rewrite (poke_eq (p + length i)), bind_some, E2, bind_some by lia.
  assert (take (p + length i) b1 = take p b ++ i) as Et.
  { unfold b1. rewrite app_assoc. apply take_app_length'. rewrite length_app, length_take. lia. }
  rewrite Et. set (b2 := (take p b ++ i) ++ u8 46 :: drop (S (p + length i)) b1).
  assert (length b2 = length b) as Hb2.
  { unfold b2. rewrite !length_app, length_take. simpl. rewrite length_drop. lia. }
  assert (take (p + length i + 1) b2 = take p b ++ i ++ [46]) as Et2.
  { unfold b2. rewrite (app_assoc _ [u8 46] _ : _ ++ u8 46 :: _ = _). rewrite take_app_length'; [by rewrite <-app_assoc|].
    rewrite !length_app, length_take. simpl. lia. }
  destruct (ndigits_pow10 pr Hpr) as (End & Eu10 & Hnz).
  destruct (to_string_ok 10 (p + length i + 1) (sc `mod` 10 ^ pr) (10 ^ pr / 10) b2) as (r2 & F2 & Hr2); [lia| |lia|];
    rewrite (proj2 (Z.eqb_neq _ _) Hnz), Eu10, End in *; [lia|].
  replace (Z.of_nat (p + length i) + 1) with (Z.of_nat (p + length i + 1)) by lia. rewrite F2.
  assert (10 ^ pr ≤ 10 ^ 9) by (apply Z.pow_le_mono_r; lia).
  assert (u32 (sc `mod` 10 ^ pr) = sc `mod` 10 ^ pr) as ->.
  { apply u32_small. pose proof (Z.mod_pos_bound sc (10 ^ pr)). unfold is_u32. lia. }
  rewrite length_app. simpl. rewrite low_digits_length. exists r2. split; [|lia].
  rewrite Et2, <-!app_assoc. simpl. f_equal. f_equal. lia.
Qed.

(** ** Formats as data

    What a format means, independently of how it is read: literal characters and
    directives %[-][0][width][.precision][l]c. *)

Inductive number := NNone | NNum (n : Z) | NStar.
Inductive item := Lit (c : Z) | Dir (la zero : bool) (w : number) (prec : option number) (lm : bool) (c : Z).

Definition number_text (w : number) : list Z := match w with NNone => [] | NNum n => show 10 n | NStar => [42] end.
Definition item_text (i : item) : list Z :=
  match i with
  | Lit c => [c]
  | Dir la zero w prec lm c =>
      37 :: (if la then [45] else []) ++ (if zero then [48] else []) ++ number_text w ++
      (match prec with Some p => 46 :: number_text p | None => [] end) ++ (if lm then [108] else []) ++ [c]
  end.

(** The value of a width or precision; an argument is read into a [char]. *)
Definition number_value (w : number) (ap : list varg) : option (Z * list varg) :=
  match w with
  | NNone => Some (0, ap)
  | NNum n => Some (n, ap)
  | NStar => '(v, ap) ← va_int ap; if (0 <=? v) && (v <=? 255) then Some (v, ap) else None
  end.

(** The text of an argument, and whether the filler may be [0]. *)
Definition arg_text (c : Z) (long : bool) (prec : Z) (ap : list varg) : option (list Z * bool * list varg) :=
  if c =? 99 then '(v, ap) ← va_int ap; Some ([u8 v], false, ap)
  else if c =? 115 then
    '(s, ap) ← va_str ap;
    let s := default null_string s in
    if forallb (λ c, (0 <? c) && (c <? 256)) s then
      Some (take (Z.to_nat (if prec =? 0 then 32767 else prec)) s, false, ap)
    else None
  else if (c =? 68) || (c =? 100) || (c =? 73) || (c =? 105) then
    '(l, ap) ← (if long then va_long ap else va_int ap);
    if (- 2 ^ 31 <? l) && (l <? 2 ^ 31) then
      Some ((if l <? 0 then [45] else []) ++ show 10 (Z.abs l), true, ap)
    else None
  else
    let unsigned radix :=
      '(l, ap) ← (if long then va_ulong ap else va_uint ap);
      if (0 <=? l) && (l <? 2 ^ 32) then Some (show radix l, true, ap) else None in
    if (c =? 88) || (c =? 120) then unsigned 16
    else if (c =? 85) || (c =? 117) then unsigned 10
    else if (c =? 79) || (c =? 111) then unsigned 8
    else None.

(** A number as [%f] prints it. *)
Definition float_text (x : spec_float) (prec : Z) : list Z :=
  (if SFltb x (S754_zero false) then [45] else []) ++ show_abs x prec.

(** Padding: on the right, behind the sign with zeros, or on the left. *)
Definition field (la : bool) (filler w : Z) (body : list Z) : list Z :=
  let pad := replicate (Z.to_nat (w - Z.of_nat (length body))) filler in
  if la then body ++ pad
  else match body with
       | c :: rest => if (c =? 45) && (filler =? 48) then c :: pad ++ rest else pad ++ body
       | [] => pad ++ body
       end.

(** The output of an item; [None] when the arguments do not fit it. *)
Inductive renders : item → list varg → list Z → list varg → Prop :=
  | render_lit c ap : u8 c = c → c ≠ 0 → c ≠ 37 → renders (Lit c) ap [c] ap
  | render_arg la zero w prec lm c ap wv ap1 pv ap2 body z ap3 :
      number_value w ap = Some (wv, ap1) → number_value (default NNone prec) ap1 = Some (pv, ap2) →
      arg_text c (lm || ((65 <=? c) && (c <=? 90))) pv ap2 = Some (body, z, ap3) →
      renders (Dir la zero w prec lm c) ap (field la (if zero && z then 48 else 32) wv body) ap3
  | render_float la zero w prec lm ap wv ap1 pv ap2 x ap3 :
      number_value w ap = Some (wv, ap1) → number_value (default NNone prec) ap1 = Some (pv, ap2) →
      va_double ap2 = Some (x, ap3) → printable x →
      renders (Dir la zero w prec lm 102) ap (field la (if zero then 48 else 32) wv (float_text x pv)) ap3.

Inductive render_all : list item → list varg → list Z → Prop :=
  | render_nil ap : render_all [] ap []
  | render_cons i l ap bs ap' bs' : renders i ap bs ap' → render_all l ap' bs' → render_all (i :: l) ap (bs ++ bs').

(** A width does not start with [0], and numbers are in the range of [int]. *)
Definition number_ok (lo : Z) (w : number) : Prop := match w with NNum n => lo ≤ n ≤ INT32_MAX | _ => True end.
Definition item_ok (i : item) : Prop :=
  match i with
  | Lit _ => True
  | Dir _ _ w prec _ _ => number_ok 1 w ∧ number_ok 0 (default NNone prec)
  end.

(** ** Reading a directive *)

Lemma dvalue_mono ds : Forall (λ c, is_digit c = true) ds → ∀ acc, 0 ≤ acc → acc ≤ dvalue 10 acc ds.
Proof.
  unfold dvalue. induction 1 as [|c ds Hc _ IH]; intros acc Ha; simpl; [lia|].
  unfold is_digit in Hc. apply andb_prop in Hc as [H1%Z.leb_le H2%Z.leb_le].
  assert (0 ≤ undigit c) by (unfold undigit; rewrite (proj2 (Z.leb_le c 57)); lia).
  etransitivity; [|apply IH]; lia.
Qed.

Lemma read_digits ds l ap : Forall (λ c, is_digit c = true) ds → ∀ acc, 0 ≤ acc → dvalue 10 acc ds ≤ INT32_MAX →
  read_num (ds ++ l) ap acc = read_num l ap (dvalue 10 acc ds).
Proof.
  induction 1 as [|c ds Hc Hds IH]; intros acc Ha Hd; simpl; [done|]. rewrite Hc.
  unfold is_digit in Hc. apply andb_prop in Hc as [H1%Z.leb_le H2%Z.leb_le].
  assert (undigit c = c - 48) as E by (unfold undigit; by rewrite (proj2 (Z.leb_le c 57))).
  unfold dvalue in Hd |- *. simpl in Hd |- *. rewrite E in *. fold (dvalue 10 (acc * 10 + (c - 48)) ds) in *.
  assert (acc * 10 + (c - 48) ≤ dvalue 10 (acc * 10 + (c - 48)) ds) by (apply dvalue_mono; [done|lia]).
  rewrite (proj2 (Z.ltb_ge _ _)) by lia. apply IH; lia.
Qed.

Lemma low_digits_decimal k : ∀ n, Forall (λ c, is_digit c = true) (low_digits 10 k n).
Proof.
  induction k as [|k IH]; intros n; simpl; [constructor|]. apply Forall_app. split; [apply IH|]. constructor; [|constructor].
  pose proof (Z.mod_pos_bound n 10). unfold is_digit, digit. rewrite (proj2 (Z.ltb_ge _ _)) by lia.
  apply andb_true_intro. split; apply Z.leb_le; lia.
Qed.

(** A width or precision in front of a character that ends it. *)
Lemma read_number lo w c l ap v ap' : 0 ≤ lo → number_ok lo w → number_value w ap = Some (v, ap') →
  is_digit c = false → c ≠ 42 →
  read_num (number_text w ++ c :: l) ap 0 = Some (c, Some l, ap', v).
Proof.
  intros Hlo Hw Hv Hc H42. apply Z.eqb_neq in H42.
  assert (∀ ap v, read_num (c :: l) ap v = Some (c, Some l, ap, v)) as Hend by (intros; simpl; by rewrite Hc, H42).
  destruct w as [|n|]; simpl in Hv.
  - injection Hv as <- <-. apply Hend.
  - injection Hv as <- <-. simpl in Hw. assert (0 ≤ n < 2 ^ 32) as Hn by (unfold INT32_MAX in Hw; lia).
    pose proof (show_value 10 ltac:(lia) 0 n Hn) as Es. unfold number_text.
    rewrite read_digits; [rewrite Es; apply Hend|apply low_digits_decimal|lia|lia].
  - cbn [number_text app]. cbn [read_num]. simpl (is_digit 42). cbn iota. simpl (42 =? 42). cbn iota.
    destruct (va_int ap) as [[x ap1]|]; [|done]. simpl in Hv |- *.
    destruct ((0 <=? x) && (x <=? 255)) eqn:E; [|done]. injection Hv as <- <-.
    apply andb_prop in E as [E1%Z.leb_le E2%Z.leb_le]. assert (u8 x = x) as -> by (unfold u8; apply Z.mod_small; lia).
    rewrite (proj2 (Z.ltb_ge _ _)) by (unfold INT32_MAX; lia). apply Hend.
Qed.

(** The conversion characters. *)
Definition is_conv (c : Z) : bool := existsb (Z.eqb c) [99; 115; 68; 100; 73; 105; 102; 88; 120; 85; 117; 79; 111].

Lemma conv_props c : is_conv c = true →
  is_digit c = false ∧ c ≠ 42 ∧ c ≠ 45 ∧ c ≠ 46 ∧ c ≠ 48 ∧ (c =? 108) || (c =? 76) = false.
Proof.
  unfold is_conv. intros H. apply existsb_exists in H as (x & Hx & E%Z.eqb_eq). subst x.
  repeat (destruct Hx as [<-|Hx]; [by split_and!|]). done.
Qed.

Lemma low_head fuel : ∀ n, 0 < n < 2 ^ Z.of_nat fuel → ∃ c t, low_digits 10 (ndigits fuel 10 n) n = c :: t ∧ 49 ≤ c ≤ 57.
Proof.
  induction fuel as [|fuel IH]; intros n Hn; [simpl in Hn; lia|].
  change (ndigits (S fuel) 10 n) with (if n / 10 =? 0 then 1%nat else S (ndigits fuel 10 (n / 10))).
  rewrite Nat2Z.inj_succ, Z.pow_succ_r in Hn by lia. destruct (Z.eqb_spec (n / 10) 0) as [E|E].
  - apply Z.div_small_iff in E; [|lia]. simpl. rewrite Z.mod_small by lia. eexists _, _. split; [done|].
    unfold digit. rewrite (proj2 (Z.ltb_ge _ _)); lia.
  - assert (0 ≤ n / 10) by (apply Z.div_pos; lia). assert (n / 10 < 2 ^ Z.of_nat fuel) by (apply Z.div_lt_upper_bound; lia).
    destruct (IH (n / 10)) as (c & t & Ec & Hc); [lia|]. simpl. rewrite Ec. simpl. eauto.
Qed.

Lemma take_flag_yes c l : take_flag c (c :: l) = (true, l).
Proof. simpl. by rewrite Z.eqb_refl. Qed.

Lemma take_flag_no c x l : x ≠ c → take_flag c (x :: l) = (false, x :: l).
Proof. intros E%Z.eqb_neq. simpl. by rewrite E. Qed.

(** What starts with neither [-] nor [0]. *)
Lemma number_head w c l : number_ok 1 w → c ≠ 45 → c ≠ 48 →
  ∃ x t, number_text w ++ c :: l = x :: t ∧ x ≠ 45 ∧ x ≠ 48.
Proof.
  intros Hw H1 H2. destruct w as [|n|]; simpl; [by eexists _, _| |by eexists _, _].
  destruct (low_head 32 n) as (x & t & E & Hx); [simpl in Hw; unfold INT32_MAX in Hw; change (Z.of_nat 32) with 32; lia|].
  unfold show. rewrite E. simpl. eexists _, _. split; [done|lia].
Qed.

Lemma read_spec_ok la zero w prec (lm : bool) c l ap wv ap1 pv ap2 :
  is_conv c = true → item_ok (Dir la zero w prec lm c) →
  number_value w ap = Some (wv, ap1) → number_value (default NNone prec) ap1 = Some (pv, ap2) →
  read_spec ((if la then [45] else []) ++ (if zero then [48] else []) ++ number_text w ++
    (match prec with Some p => 46 :: number_text p | None => [] end) ++ (if lm then [108] else []) ++ c :: l) ap =
  Some (mkSpec la (if zero then 48 else 32) wv pv (lm || ((65 <=? c) && (c <=? 90))) c, Some l, ap2).
Proof.
  intros Hc [Hw Hp] Ew Ep. apply conv_props in Hc as (Hdig & H42 & H45 & H46 & H48 & Hl).
  set (c1 := if lm then 108 else c). set (l1 := if lm then c :: l else l).
  assert ((if lm then [108] else []) ++ c :: l = c1 :: l1) as -> by by destruct lm.
  assert (is_digit c1 = false ∧ c1 ≠ 42 ∧ c1 ≠ 45 ∧ c1 ≠ 46 ∧ c1 ≠ 48) as (D1 & N42 & N45 & N46 & N48) by by destruct lm.
  set (c2 := match prec with Some p => 46 | None => c1 end).
  set (l2 := match prec with Some p => number_text p ++ c1 :: l1 | None => l1 end).
  assert ((match prec with Some p => 46 :: number_text p | None => [] end) ++ c1 :: l1 = c2 :: l2) as -> by by destruct prec.
  assert (is_digit c2 = false ∧ c2 ≠ 42 ∧ c2 ≠ 45 ∧ c2 ≠ 48) as (D2 & M42 & M45 & M48) by by destruct prec.
  destruct (number_head w c2 l2 Hw M45 M48) as (x & t & Et & Hx45 & Hx48). rewrite Et.
  assert (read_spec ((if la then [45] else []) ++ (if zero then [48] else []) ++ x :: t) ap =
    '(c, p, ap, w) ← read_num (x :: t) ap 0;
    '(c, p, ap, prec) ← (if c =? 46 then l ← p; read_num l ap 0 else Some (c, p, ap, 0));
    '(c, p, long) ← (if (c =? 108) || (c =? 76) then
                       l ← p; match l with [] => Some (c, Some [], true) | c' :: l' => Some (c', Some l', true) end
                     else Some (c, p, (65 <=? c) && (c <=? 90)));
    Some (mkSpec la (if zero then 48 else 32) w prec long c, p, ap)) as ->.
  { unfold read_spec. destruct la; cbn [app].
    - rewrite take_flag_yes. destruct zero; cbn [app]; [by rewrite take_flag_yes|by rewrite take_flag_no].
    - destruct zero; cbn [app]; [by rewrite (take_flag_no 45), take_flag_yes by done|by rewrite !take_flag_no]. }
  rewrite <-Et, (read_number 1 w c2 l2 ap wv ap1), bind_some by (done || lia).
  replace (if c2 =? 46 then _ else _) with (Some (c1, Some l1 : cptr, ap2, pv)).
  2:{ symmetry. subst c2 l2. destruct prec as [p|].
      - rewrite Z.eqb_refl, bind_some. apply (read_number 0); (done || lia).
      - rewrite (proj2 (Z.eqb_neq _ _) N46). by injection Ep as <- <-. }
  rewrite bind_some. subst c1 l1. destruct lm; simpl; [done|]. by rewrite Hl.
Qed.

(** ** The switch *)

Lemma put_sign_ok (neg : bool) b : (23 ≤ length b)%nat →
  let t := if neg then [45] else [] in
  ∃ b', put_sign neg b = Some (Z.of_nat (length t), b') ∧ length b' = length b ∧ take (length t) b' = t.
Proof.
  intros Hb t. unfold put_sign. destruct neg; subst t; [|by exists b].
  rewrite (poke_eq 0), bind_some by (done || lia). eexists. split; [done|]. simpl. destruct b; simpl in *; [lia|done].
Qed.

Lemma show_bytes radix n : 2 ≤ radix ≤ 16 → bytes (show radix n).
Proof. intros. by apply low_digits_bytes. Qed.

Lemma show_nonempty radix n : show radix n ≠ [].
Proof.
  intros E. apply (f_equal length) in E. unfold show in E. rewrite low_digits_length in E.
  pose proof (ndigits_pos radix 32 n). simpl in E. lia.
Qed.

Lemma str_scan_ok s : forallb (λ c, (0 <? c) && (c <? 256)) s = true →
  bytes s ∧ ∀ prec, 0 ≤ prec → str_scan s prec = Z.of_nat (length (take (Z.to_nat prec) s)).
Proof.
  induction s as [|c s IH]; simpl; intros H.
  - split; [constructor|]. intros prec _. by destruct (Z.to_nat prec).
  - apply andb_prop in H as [[H1%Z.ltb_lt H2%Z.ltb_lt]%andb_prop H]. destruct (IH H) as [Hb Hs]. split.
    + constructor; [|done]. unfold u8. apply Z.mod_small. lia.
    + intros prec Hp. rewrite (proj2 (Z.eqb_neq c 0)) by lia. destruct (Z.ltb_spec (prec - 1) 0).
      * by replace prec with 0 by lia.
      * rewrite Hs by lia. replace (Z.to_nat prec) with (S (Z.to_nat (prec - 1))) by lia. simpl. lia.
Qed.

Lemma take_bytes n s : bytes s → bytes (take n s).
Proof. apply Forall_take. Qed.

(** What [convert] returns when [body] is to be printed. *)
Definition converted (d : spec) (ap : list varg) (b body : list Z) (fl : Z) (ap' : list varg) : Prop :=
  ∃ s b', convert d ap b = Some (s, Z.of_nat (length body), fl, ap', b') ∧ length b' = length b ∧
          take (length body) s = body ∧ s ≠ [] ∧ bytes body ∧ (fl = 48 → body ≠ []).

Lemma converted_buffer d ap b body rest ap' : body ≠ [] → bytes body →
  convert d ap b = Some (body ++ rest, Z.of_nat (length body), filler d, ap', body ++ rest) →
  length (body ++ rest) = length b → converted d ap b body (filler d) ap'.
Proof.
  intros H0 Hb E Hl. exists (body ++ rest), (body ++ rest). split; [exact E|]. split; [done|].
  split; [by apply take_app_length'|]. split; [by destruct body|]. by split.
Qed.

Lemma signed_ok c d ap b l ap' :
  (c =? 68) || (c =? 100) || (c =? 73) || (c =? 105) = true → conv d = c → (23 ≤ length b)%nat →
  (if is_long d then va_long ap else va_int ap) = Some (l, ap') → - 2 ^ 31 < l < 2 ^ 31 →
  converted d ap b ((if l <? 0 then [45] else []) ++ show 10 (Z.abs l)) (filler d) ap'.
Proof.
  intros Hc Ed Hb El Hl. destruct (put_sign_ok (l <? 0) b Hb) as (b1 & E1 & Hb1 & Et). set (t := if l <? 0 then [45] else []) in *.
  assert (length t ≤ 1)%nat as Ht by (unfold t; destruct (l <? 0); simpl; auto).
  destruct (ch_ltoa_ok 10 (length t) (Z.abs l) b1) as (rest & E2 & Hr); [tauto|lia|].
  rewrite (u32_small (Z.abs l)) in E2, Hr by (unfold is_u32; lia).
  apply (converted_buffer _ _ _ _ rest).
  - intros [_ E]%app_eq_nil. by apply show_nonempty in E.
  - apply Forall_app. split; [unfold t; destruct (l <? 0); repeat constructor|apply show_bytes; lia].
  - unfold convert. rewrite Ed. assert (c =? 99 = false ∧ c =? 115 = false) as [-> ->].
    { split; apply Z.eqb_neq; intros ->; done. }
    rewrite Hc, El, bind_some. rewrite (proj2 (Z.eqb_neq l INT32_MIN)) by (unfold INT32_MIN; lia).
    rewrite E1, bind_some, E2, bind_some, Et, length_app. by rewrite <-app_assoc.
  - rewrite !length_app. lia.
Qed.

Lemma unsigned_ok c d ap b l ap' radix :
  (((c =? 88) || (c =? 120) = true ∧ radix = 16) ∨ ((c =? 85) || (c =? 117) = true ∧ radix = 10) ∨
   ((c =? 79) || (c =? 111) = true ∧ radix = 8)) → conv d = c → (23 ≤ length b)%nat →
  (if is_long d then va_ulong ap else va_uint ap) = Some (l, ap') → 0 ≤ l < 2 ^ 32 →
  converted d ap b (show radix l) (filler d) ap'.
Proof.
  intros Hc Ed Hb El Hl. assert (radix = 8 ∨ radix = 10 ∨ radix = 16) as Hr by tauto.
  destruct (ch_ltoa_ok radix 0 (s32 l) b Hr) as (rest & E2 & Hlen); [lia|].
  rewrite u32_s32, (u32_small l) in E2, Hlen by done. simpl in Hlen. change (Z.of_nat 0) with 0 in E2.
  apply (converted_buffer _ _ _ _ rest).
  - apply show_nonempty.
  - apply show_bytes. lia.
  - unfold convert. rewrite Ed.
    assert ((c = 88 ∨ c = 120) ∧ radix = 16 ∨ (c = 85 ∨ c = 117) ∧ radix = 10 ∨ (c = 79 ∨ c = 111) ∧ radix = 8) as Hc'.
    { rewrite !orb_true_iff, !Z.eqb_eq in Hc. tauto. }
    destruct Hc' as [[[->| ->] ->]|[[[->| ->] ->]|[[->| ->] ->]]]; cbn -[ch_ltoa]; rewrite El, bind_some, E2, bind_some; done.
  - rewrite length_app. lia.
Qed.

Lemma char_ok d ap b v ap' : conv d = 99 → (23 ≤ length b)%nat → va_int ap = Some (v, ap') →
  converted d ap b [u8 v] 32 ap'.
Proof.
  intros Ed Hb Ev. unfold converted, convert. rewrite Ed, Ev. cbn -[poke]. rewrite (poke_eq 0), bind_some by (done || lia).
  eexists _, _. split; [done|]. destruct b as [|x b]; [simpl in Hb; lia|]. simpl. split_and!; try done.
  constructor; [|constructor]. unfold u8. by rewrite Z.mod_mod.
Qed.

Lemma string_ok d ap b s ap' : conv d = 115 → 0 ≤ precision d → va_str ap = Some (s, ap') →
  let s := default null_string s in
  forallb (λ c, (0 <? c) && (c <? 256)) s = true →
  converted d ap b (take (Z.to_nat (if precision d =? 0 then 32767 else precision d)) s) 32 ap'.
Proof.
  intros Ed Hp Ev s' Hs. destruct (str_scan_ok s' Hs) as [Hb Hscan]. unfold converted, convert. rewrite Ed, Ev. cbn -[str_scan Z.to_nat take].
  set (pr := if precision d =? 0 then 32767 else precision d). assert (0 ≤ pr) by (unfold pr; destruct (precision d =? 0); lia).
  fold s'. rewrite Hscan by done. eexists _, _. split; [done|]. split; [done|]. split; [|split; [by destruct s'|]].
  - rewrite take_app_le by (rewrite length_take; lia). rewrite length_take.
    destruct (Nat.le_ge_cases (Z.to_nat pr) (length s')).
    + by rewrite Nat.min_l by lia.
    + rewrite Nat.min_r by lia. by rewrite !take_ge by lia.
  - split; [by apply take_bytes|done].
Qed.

Lemma float_ok d ap b x ap' : conv d = 102 → 0 ≤ precision d → (23 ≤ length b)%nat →
  va_double ap = Some (x, ap') → printable x → converted d ap b (float_text x (precision d)) (filler d) ap'.
Proof.
  intros Ed Hp Hb Ev Hx. assert (to_float x = x) as Ex.
  { destruct x as [s|s| |s m e]; [done..|]. destruct Hx as (Hv & _). apply (valid_single _ _ _ Hv). }
  set (neg := SFltb x (S754_zero false)). destruct (put_sign_ok neg b Hb) as (b1 & E1 & Hb1 & Et).
  unfold float_text. fold neg. set (t := if neg then [45] else []) in *.
  assert (length t ≤ 1)%nat as Ht by (unfold t; destruct neg; simpl; auto).
  destruct (ftoa_ok (length t) x (precision d) b1 Hx Hp Ht) as (rest & E2 & Hr); [lia|].
  apply (converted_buffer _ _ _ _ rest).
  - intros [_ E]%app_eq_nil. unfold show_abs in E. by apply app_eq_nil in E as [_ E].
  - apply Forall_app. split; [unfold t; destruct neg; repeat constructor|]. unfold show_abs. apply Forall_app.
    split; [apply show_bytes; lia|]. constructor; [done|apply low_digits_bytes; lia].
  - unfold convert. rewrite Ed, Ev. cbn -[to_float ftoa put_sign SFltb]. rewrite Ex. fold neg. rewrite E1, bind_some.
    change (if neg then SFopp x else x) with (abs_float x). rewrite E2, bind_some, Et, length_app. by rewrite <-app_assoc.
  - rewrite !length_app. lia.
Qed.

Lemma arg_ok d ap b body z ap' : 0 ≤ precision d → (23 ≤ length b)%nat →
  arg_text (conv d) (is_long d) (precision d) ap = Some (body, z, ap') →
  is_conv (conv d) = true ∧ converted d ap b body (if z then filler d else 32) ap'.
Proof.
  intros Hp Hb. unfold arg_text. destruct (Z.eqb_spec (conv d) 99) as [E|_].
  { destruct (va_int ap) as [[v ap1]|] eqn:Ev; [|done]. intros [= <- <- <-]. rewrite E. split; [done|by apply char_ok]. }
  destruct (Z.eqb_spec (conv d) 115) as [E|_].
  { destruct (va_str ap) as [[s ap1]|] eqn:Ev; [|done]. simpl. case_match eqn:Es; [|done]. intros [= <- <- <-].
    rewrite E. split; [done|by apply string_ok]. }
  destruct (_ || _) eqn:Ec.
  { intros E. split.
    - unfold is_conv. rewrite !orb_true_iff, !Z.eqb_eq in Ec. destruct Ec as [[[->| ->]| ->]| ->]; done.
    - destruct (if is_long d then va_long ap else va_int ap) as [[l ap1]|] eqn:El; [|done]. simpl in E.
      destruct (_ && _) eqn:Hl; [|done]. apply andb_prop in Hl as [H1%Z.ltb_lt H2%Z.ltb_lt]. injection E as <- <- <-.
      by apply (signed_ok (conv d)). }
  intros E. assert (∃ radix, (((conv d =? 88) || (conv d =? 120) = true ∧ radix = 16) ∨
     ((conv d =? 85) || (conv d =? 117) = true ∧ radix = 10) ∨ ((conv d =? 79) || (conv d =? 111) = true ∧ radix = 8)) ∧
     ('(l, ap) ← (if is_long d then va_ulong ap else va_uint ap);
      if (0 <=? l) && (l <? 2 ^ 32) then Some (show radix l, true, ap) else None) = Some (body, z, ap')) as (radix & Hr & E').
  { destruct ((conv d =? 88) || (conv d =? 120)); [exists 16; tauto|].
    destruct ((conv d =? 85) || (conv d =? 117)); [exists 10; tauto|].
    destruct ((conv d =? 79) || (conv d =? 111)); [exists 8; tauto|done]. }
  split.
  - unfold is_conv. rewrite !orb_true_iff, !Z.eqb_eq in Hr. destruct Hr as [[[->| ->] _]|[[[->| ->] _]|[[->| ->] _]]]; done.
  - destruct (if is_long d then va_ulong ap else va_uint ap) as [[l ap1]|] eqn:El; [|done]. simpl in E'.
    destruct (_ && _) eqn:Hl; [|done]. apply andb_prop in Hl as [H1%Z.leb_le H2%Z.ltb_lt]. injection E' as <- <- <-.
    by apply (unsigned_ok (conv d)).
Qed.

(** ** Output *)

Section Output.
Context {M : Type → Type} `{StreamLaws M}.

Lemma put_n_ok c n : u8 c = c → n < INT32_MAX → put_n c n ≡@{M Z} put_all [c] ≫= λ _, mret (n + 1).
Proof.
  intros Hc Hn. unfold put_n. rewrite Hc, put_all_cons. apply bind_ext. intros _. rewrite put_all_nil.
  by rewrite (proj2 (Z.eqb_neq _ _)) by lia.
Qed.

Lemma put_then {A} c n (k : Z → M A) : u8 c = c → n < INT32_MAX → put_n c n ≫= k ≡ put_all [c] ≫= λ _, k (n + 1).
Proof.
  intros Hc Hn. rewrite put_n_ok, bind_assoc by done. apply bind_ext. intros _. apply ret_bind.
Qed.

Lemma fill_ok {A} k c : u8 c = c → ∀ n (f : Z → M A), n + Z.of_nat k ≤ INT32_MAX →
  fill k c n ≫= f ≡ put_all (replicate k c) ≫= λ _, f (n + Z.of_nat k).
Proof.
  intros Hc. induction k as [|k IH]; intros n f Hn.
  - simpl. rewrite !ret_bind. by rewrite Z.add_0_r.
  - cbn [fill replicate]. rewrite bind_assoc, put_then by (done || lia). rewrite !put_all_cons. apply bind_ext. intros _.
    rewrite put_all_nil, IH by lia. apply bind_ext. intros _. by replace (n + 1 + Z.of_nat k) with (n + Z.of_nat (S k)) by lia.
Qed.

Lemma out_ok {A} i : ∀ s n (f : Z → M A), (i ≤ length s)%nat → bytes (take i s) → n + Z.of_nat i ≤ INT32_MAX →
  out i s n ≫= f ≡ put_all (take i s) ≫= λ _, f (n + Z.of_nat i).
Proof.
  induction i as [|i IH]; intros s n f Hi Hb Hn.
  - simpl. rewrite !ret_bind. by rewrite Z.add_0_r.
  - destruct s as [|c s]; simpl in Hi; [lia|]. simpl take in Hb. apply Forall_cons in Hb as [Hc Hb].
    cbn [out take]. rewrite bind_assoc, put_then by (done || lia). rewrite !put_all_cons. apply bind_ext. intros _.
    rewrite put_all_nil, IH by (done || lia). apply bind_ext. intros _. by replace (n + 1 + Z.of_nat i) with (n + Z.of_nat (S i)) by lia.
Qed.

Lemma field_pad la fl w body : length (field la fl w body) = (length body + Z.to_nat (w - Z.of_nat (length body)))%nat.
Proof.
  unfold field. destruct la; [by rewrite length_app, length_replicate|].
  destruct body as [|c body]; [simpl; by rewrite length_app, length_replicate|].
  destruct (_ && _); simpl; rewrite length_app, length_replicate; simpl; lia.
Qed.

Lemma emit_ok {A} la fl w s body n (f : Z → M A) :
  take (length body) s = body → s ≠ [] → bytes body → u8 fl = fl → (fl = 48 → body ≠ []) →
  n + Z.of_nat (length (field la fl w body)) ≤ INT32_MAX →
  emit la fl w s (Z.of_nat (length body)) n ≫= f ≡
    put_all (field la fl w body) ≫= λ _, f (n + Z.of_nat (length (field la fl w body))).
Proof.
  intros Hs Hs0 Hb Hfl H48 Hn. rewrite field_pad in *. unfold emit. set (i := length body) in *.
  set (k := Z.to_nat (w - Z.of_nat i)) in *.
  replace (if w - Z.of_nat i <? 0 then 0 else w - Z.of_nat i) with (Z.of_nat k)
    by (destruct (Z.ltb_spec (w - Z.of_nat i) 0); lia).
  destruct s as [|c s]; [done|]. assert (i ≤ length (c :: s))%nat as Hi.
  { apply (f_equal length) in Hs. rewrite length_take in Hs. lia. }
  assert (Z.of_nat i + Z.of_nat k = Z.of_nat (i + k)) as Esum by lia.
  destruct la.
  - rewrite (proj2 (Z.ltb_ge _ _)) by lia. rewrite Nat2Z.id, Nat2Z.id, bind_assoc, out_ok by (rewrite ?Hs; done || lia).
    rewrite Hs. unfold field. rewrite put_all_app. apply bind_ext. intros _.
    rewrite fill_ok by (done || lia). apply bind_ext. intros _. by rewrite <-Z.add_assoc, Esum.
  - destruct (Nat.eq_dec k 0) as [Ek|Ek].
    + rewrite Ek. simpl Z.of_nat. rewrite (proj2 (Z.ltb_ge _ _)) by lia.
      rewrite Nat2Z.id, bind_assoc, out_ok by (rewrite ?Hs; done || lia). rewrite Hs.
      assert (field false fl w body = body) as ->.
      { unfold field. fold i k. rewrite Ek. destruct body as [|x body]; [done|]. by destruct (_ && _). }
      apply bind_ext. intros _. simpl. rewrite ret_bind. by rewrite Nat.add_0_r.
    + rewrite (proj2 (Z.ltb_lt _ _)) by lia. 
      rewrite Z.opp_involutive.
      destruct ((c =? 45) && (fl =? 48)) eqn:Esign.
      * pose proof Esign as Esign'. apply andb_prop in Esign as [_ E48%Z.eqb_eq]. destruct body as [|x body]; [by destruct H48|].
        simpl in Hs. injection Hs as <- Hs. apply Forall_cons in Hb as [Hc Hb].
        unfold field. rewrite Esign'. fold i k. simpl in i.
        rewrite bind_assoc, put_then by (done || lia). rewrite !put_all_cons. apply bind_ext. intros _.
        rewrite put_all_nil, Nat2Z.id, bind_assoc, fill_ok, put_all_app by (done || lia). apply bind_ext. intros _.
        replace (Z.to_nat (Z.of_nat i - 1)) with (length body) by lia.
        rewrite out_ok by (rewrite ?Hs; simpl in *; done || lia). rewrite Hs. apply bind_ext. intros _.
        replace (n + 1 + Z.of_nat k + Z.of_nat (length body)) with (n + Z.of_nat (i + k)) by lia. done.
      * rewrite Nat2Z.id, Nat2Z.id, bind_assoc, fill_ok by (done || lia).
        assert (field false fl w body = replicate k fl ++ body) as ->.
        { unfold field. fold i k. destruct body as [|x body]; [done|]. simpl in Hs. injection Hs as <- _. by rewrite Esign. }
        rewrite put_all_app. apply bind_ext. intros _. rewrite out_ok by (rewrite ?Hs; done || lia). rewrite Hs.
        apply bind_ext. intros _. replace (n + Z.of_nat k + Z.of_nat i) with (n + Z.of_nat (i + k)) by lia. done.
Qed.
End Output.

(** ** The whole format *)

Lemma number_nonneg lo w ap v ap' : 0 ≤ lo → number_ok lo w → number_value w ap = Some (v, ap') → 0 ≤ v.
Proof.
  intros Hlo Hw Hv. destruct w as [|n|]; simpl in *; [by injection Hv as <- <-|injection Hv as <- <-; lia|].
  destruct (va_int ap) as [[x ap1]|]; [|done]. simpl in Hv. destruct (_ && _) eqn:E; [|done].
  injection Hv as <- <-. apply andb_prop in E as [E%Z.leb_le _]. done.
Qed.

Lemma items_length l : (length l ≤ length (concat (item_text <$> l)))%nat.
Proof.
  induction l as [|i l IH]; [done|]. rewrite fmap_cons. cbn [concat length]. rewrite length_app. destruct i; simpl; lia.
Qed.

Section Format.
Context {M : Type → Type} `{StreamLaws M}.

(** One directive. *)
Lemma directive_ok la (zero : bool) w prec (lm : bool) c ap wv ap1 pv ap2 body fl ap3 b n rest fuel :
  item_ok (Dir la zero w prec lm c) → is_conv c = true → (23 ≤ length b)%nat →
  number_value w ap = Some (wv, ap1) → number_value (default NNone prec) ap1 = Some (pv, ap2) →
  let d := mkSpec la (if zero then 48 else 32) wv pv (lm || ((65 <=? c) && (c <=? 90))) c in
  converted d ap2 b body fl ap3 → (fl = 48 ∨ fl = 32) →
  n + Z.of_nat (length (field la fl wv body)) ≤ INT32_MAX →
  ∃ b', length b' = length b ∧
    print_loop (S fuel) (Some (item_text (Dir la zero w prec lm c) ++ rest)) ap b n ≡@{M Z}
      put_all (field la fl wv body) ≫= λ _, print_loop fuel (Some rest) ap3 b' (n + Z.of_nat (length (field la fl wv body))).
Proof.
  intros Hi Hc Hb Ew Ep d (s & b' & Ecv & Hb' & Hs & Hs0 & Hby & H48) Hfl Hn. exists b'. split; [done|].
  cbn [item_text]. rewrite <-app_comm_cons, <-!app_assoc. cbn [print_loop app].
  change (37 =? 0) with false. change (negb (37 =? 37)) with false. cbn iota.
  rewrite (read_spec_ok la zero w prec lm c rest ap wv ap1 pv ap2 Hc Hi Ew Ep). fold d. rewrite Ecv.
  apply emit_ok; try done. by destruct Hfl as [->| ->].
Qed.

Lemma item_loop i ap bs ap' b n rest fuel : renders i ap bs ap' → item_ok i → (23 ≤ length b)%nat →
  n + Z.of_nat (length bs) ≤ INT32_MAX →
  ∃ b', length b' = length b ∧
    print_loop (S fuel) (Some (item_text i ++ rest)) ap b n ≡@{M Z}
      put_all bs ≫= λ _, print_loop fuel (Some rest) ap' b' (n + Z.of_nat (length bs)).
Proof.
  intros Hr Hi Hb. destruct Hr as [c ap Hc H0' H37|la zero w prec lm c ap wv ap1 pv ap2 body z ap3 Ew Ep Ea|
    la zero w prec lm ap wv ap1 pv ap2 x ap3 Ew Ep Ex Hx]; intros Hn.
  - exists b. split; [done|]. simpl in Hn |- *. rewrite (proj2 (Z.eqb_neq _ _) H0'), (proj2 (Z.eqb_neq _ _) H37).
    cbn [negb]. apply (put_then c n (print_loop fuel (Some rest) ap b) Hc). lia.
  - pose proof Hi as [Hw Hp]. assert (0 ≤ pv) as Hpv by (eapply (number_nonneg 0); [done|exact Hp|exact Ep]).
    destruct (arg_ok (mkSpec la (if zero then 48 else 32) wv pv (lm || ((65 <=? c) && (c <=? 90))) c) ap2 b body z ap3)
      as [Hc Hcv]; [done..|]. simpl filler in Hcv.
    assert ((if z then if zero then 48 else 32 else 32) = if zero && z then 48 else 32) as E by by destruct zero, z.
    rewrite E in Hcv. by eapply directive_ok; [..|destruct zero, z; simpl; tauto|].
  - pose proof Hi as [Hw Hp]. assert (0 ≤ pv) as Hpv by (eapply (number_nonneg 0); [done|exact Hp|exact Ep]).
    eapply directive_ok; [done|done|done|exact Ew|exact Ep| |destruct zero; tauto|done].
    by apply (float_ok (mkSpec la (if zero then 48 else 32) wv pv (lm || ((65 <=? 102) && (102 <=? 90))) 102)).
Qed.

Lemma items_loop l ap bs : render_all l ap bs → Forall item_ok l → ∀ b n fuel, (23 ≤ length b)%nat →
  n + Z.of_nat (length bs) ≤ INT32_MAX → (length l < fuel)%nat →
  print_loop fuel (Some (concat (item_text <$> l))) ap b n ≡@{M Z} put_all bs ≫= λ _, mret (n + Z.of_nat (length bs)).
Proof.
  induction 1 as [ap|i l ap bs ap' bs' Hi _ IH]; intros Hok b n fuel Hb Hn Hf; (destruct fuel as [|fuel]; [lia|]).
  - simpl. rewrite ret_bind. by rewrite Z.add_0_r.
  - apply Forall_cons in Hok as [Hi' Hok]. rewrite length_app in Hn. simpl in Hf.
    rewrite fmap_cons. cbn [concat]. destruct (item_loop i ap bs ap' b n (concat (item_text <$> l)) fuel Hi Hi' Hb) as (b' & Hb' & ->); [lia|].
    rewrite put_all_app. apply bind_ext. intros _. rewrite IH by (done || lia). apply bind_ext. intros _.
    by rewrite length_app, Nat2Z.inj_add, Z.add_assoc.
Qed.

Lemma chvprintf_ok b l ap bs : render_all l ap bs → Forall item_ok l → (23 ≤ length b)%nat →
  Z.of_nat (length bs) ≤ INT32_MAX →
  chvprintf b (concat (item_text <$> l)) ap ≡@{M Z} put_all bs ≫= λ _, mret (Z.of_nat (length bs)).
Proof.
  intros Hr Hok Hb Hn. unfold chvprintf. pose proof (items_length l).
  rewrite (items_loop l ap bs Hr Hok) by (done || lia).
  by rewrite Z.add_0_l.
Qed.
End Format.

(** C7.  Formatted output on any stream: for a format made of literal characters
    and directives %[-][0][width|*][.precision|*][l]c and arguments that fit it,
    chvprintf puts exactly the bytes the format stands for, in order, whatever
    the stream answers, returns their number, and stays inside tmpbuf. *)
Theorem chvprintf_correct {M} `{StreamLaws M} b l ap bs :
  render_all l ap bs → Forall item_ok l → (23 ≤ length b)%nat → Z.of_nat (length bs) ≤ INT32_MAX →
  chvprintf b (concat (item_text <$> l)) ap ≡@{M Z} put_all bs ≫= λ _, mret (Z.of_nat (length bs)).
Proof. apply chvprintf_ok. Qed.

(** ** Strings *)

Lemma put_all_ms bs : ∀ msp, (ms_eos msp ≤ ms_size msp)%nat → (ms_size msp ≤ length (ms_buffer msp))%nat →
  let k := Nat.min (ms_size msp - ms_eos msp) (length bs) in
  put_all (M := stM MemoryStream) bs msp =
    Some (tt, mkMS (take (ms_eos msp) (ms_buffer msp) ++ take k bs ++ drop (ms_eos msp + k) (ms_buffer msp))
                (ms_size msp) (ms_eos msp + k) (ms_offset msp)).
Proof.
  induction bs as [|b bs IH]; intros [buf size eos off] H1 H2; simpl in H1, H2; cbn zeta; cbn [ms_buffer ms_size ms_eos ms_offset].
  - rewrite Nat.min_0_r, Nat.add_0_r. simpl. by rewrite take_drop.
  - cbn [put_all]. unfold mbind at 1. simpl sbind. unfold stM_bind at 1. unfold sput. simpl. unfold ms_put. simpl.
    destruct (Nat.eqb_spec size eos) as [->|Hne].
    + simpl. rewrite IH by done. cbn [ms_buffer ms_size ms_eos ms_offset]. rewrite Nat.sub_diag. simpl. done.
    + rewrite (proj2 (Nat.ltb_lt _ _)) by lia. simpl. rewrite IH by (simpl; rewrite ?length_insert; lia).
      cbn [ms_buffer ms_size ms_eos ms_offset].
      replace (Nat.min (size - eos) (S (length bs))) with (S (Nat.min (size - S eos) (length bs))) by lia.
      set (k := Nat.min (size - S eos) (length bs)). do 3 f_equal; [|lia].
      rewrite insert_take_drop by lia. rewrite take_app_ge by (rewrite length_take; lia).
      rewrite length_take. replace (S eos - eos `min` length buf)%nat with 1%nat by lia. simpl. rewrite <-app_assoc. simpl.
      rewrite drop_app_ge by (rewrite length_take; lia). rewrite length_take.
      replace (S (eos + k) - eos `min` length buf)%nat with (S k) by lia. simpl. rewrite drop_drop.
      by replace (S eos + k)%nat with (eos + S k)%nat by lia.
Qed.

Lemma chsnprintf_ok b str size l ap bs :
  render_all l ap bs → Forall item_ok l → (23 ≤ length b)%nat → Z.of_nat (length bs) ≤ INT32_MAX → (size ≤ length str)%nat →
  chsnprintf b str size (concat (item_text <$> l)) ap =
    Some (match size with
          | O => str
          | S n => take n bs ++ 0 :: drop (S (Nat.min n (length bs))) str
          end, Z.of_nat (length bs)).
Proof.
  intros Hr Hok Hb Hn Hs. unfold chsnprintf.
  pose proof (chvprintf_ok (M := stM MemoryStream) b l ap bs Hr Hok Hb Hn) as E.
  set (n := (if (0 <? size)%nat then size - 1 else 0)%nat). rewrite (E (msObjectInit str n 0)).
  assert (n ≤ length str)%nat by (unfold n; destruct (Nat.ltb_spec 0 size); lia).
  assert (∀ (X : Z) ms, (put_all (M := stM MemoryStream) bs ≫= λ _, mret X) ms = '(_, ms') ← put_all (M := stM MemoryStream) bs ms; Some (X, ms'))
    as -> by done.
  rewrite put_all_ms by (simpl; lia). cbn. rewrite Nat.sub_0_r.
  set (k := Nat.min n (length bs)). unfold n in *. destruct size as [|m]; simpl.
  - subst k. simpl. done.
  - assert (k = Nat.min m (length bs)) as Ek by (unfold k; simpl; lia). clearbody k. rewrite (proj2 (Nat.leb_le _ _)) by lia.
    rewrite (poke_eq k) by (rewrite ?length_app, ?length_take, ?length_drop; lia). simpl. do 2 f_equal.
    rewrite take_app_le by (rewrite length_take; lia). rewrite take_take, Nat.min_id.
    rewrite drop_app_ge by (rewrite length_take; lia). rewrite drop_drop, length_take.
    replace (k + (S k - k `min` length bs))%nat with (S k) by lia. f_equal; [|by subst k].
    destruct (Nat.le_ge_cases m (length bs)); [f_equal; lia|]. by rewrite !take_ge by lia.
Qed.

(** chsnprintf writes at most [size] bytes: the longest prefix of the output
    that fits in [size - 1], and a terminator behind it; the rest of [str] is
    untouched, and the length of the whole output is returned. *)
Theorem chsnprintf_correct b str size l ap bs :
  render_all l ap bs → Forall item_ok l → (23 ≤ length b)%nat → Z.of_nat (length bs) ≤ INT32_MAX → (size ≤ length str)%nat →
  chsnprintf b str size (concat (item_text <$> l)) ap =
    Some (match size with
          | O => str
          | S n => take n bs ++ 0 :: drop (S (Nat.min n (length bs))) str
          end, Z.of_nat (length bs)).
Proof. apply chsnprintf_ok. Qed.

(** ** Reading numbers back *)

(** A signed decimal number: spaces, a sign, digits up to another character. *)
Fixpoint take_digits (l : list Z) : list Z :=
  match l with c :: l => if is_digit c then c :: take_digits l else [] | [] => [] end.
Fixpoint skip_spaces (l : list Z) : list Z :=
  match l with c :: l' => if c =? 32 then skip_spaces l' else l | [] => [] end.
Definition read_int (l : list Z) : Z :=
  match skip_spaces l with
  | [] => 0
  | c :: l' => if c =? 45 then - dvalue 10 0 (take_digits l') else dvalue 10 0 (take_digits (c :: l'))
  end.

Lemma take_digits_app ds l : Forall (λ c, is_digit c = true) ds →
  match l with c :: _ => is_digit c = false | [] => True end → take_digits (ds ++ l) = ds.
Proof.
  induction 1 as [|c ds Hc _ IH]; intros Hl; simpl.
  - destruct l as [|c l]; [done|]. simpl. by rewrite Hl.
  - by rewrite Hc, IH.
Qed.

Lemma skip_spaces_app k l : skip_spaces (replicate k 32 ++ l) = skip_spaces l.
Proof. induction k as [|k IH]; simpl; [done|]. exact IH. Qed.

Lemma dvalue_zeros k acc ds : dvalue 10 acc (replicate k 48 ++ ds) = dvalue 10 (acc * 10 ^ Z.of_nat k) ds.
Proof.
  revert acc. induction k as [|k IH]; intros acc; [simpl; f_equal; lia|].
  simpl replicate. cbn [app]. change (dvalue 10 acc (48 :: replicate k 48 ++ ds)) with (dvalue 10 (acc * 10 + 0) (replicate k 48 ++ ds)).
  rewrite IH, Nat2Z.inj_succ, Z.pow_succ_r by lia. f_equal. lia.
Qed.

Lemma show_digits n : Forall (λ c, is_digit c = true) (show 10 n).
Proof. apply low_digits_decimal. Qed.

(** A field of a signed number, unless zeros are put behind it. *)
Lemma read_field la (zero : bool) w v : - 2 ^ 31 < v < 2 ^ 31 → la && zero = false →
  read_int (field la (if zero then 48 else 32) w ((if v <? 0 then [45] else []) ++ show 10 (Z.abs v))) = v.
Proof.
  intros Hv Hz. pose proof (show_value 10 ltac:(lia) 0 (Z.abs v)) as Es. rewrite Z.mul_0_l, Z.add_0_l in Es.
  pose proof (show_digits (Z.abs v)) as Hd. destruct (show 10 (Z.abs v)) as [|d ds] eqn:Esh; [by apply show_nonempty in Esh|].
  assert (is_digit d = true) as Hd0 by by inversion Hd.
  assert (d ≠ 45 ∧ d ≠ 32) as [Hd45 Hd32] by (split; intros ->; done).
  assert (∀ k l, take_digits (replicate k 48 ++ d :: ds ++ replicate l 32) = replicate k 48 ++ d :: ds) as Ht.
  { intros k l. rewrite (app_assoc _ (d :: ds) _ : replicate k 48 ++ d :: ds ++ _ = _). apply take_digits_app; [|by destruct l]. apply Forall_app. split; [|done].
    by apply Forall_replicate. }
  assert (∀ k l, read_int ((if v <? 0 then [45] else []) ++ replicate k 48 ++ d :: ds ++ replicate l 32) = v) as Hread.
  { intros k l. unfold read_int. destruct (Z.ltb_spec v 0); cbn [app].
    - simpl skip_spaces. cbn iota beta. simpl (45 =? 45). cbn iota. rewrite (Ht k l), dvalue_zeros, Z.mul_0_l, Es by lia. simpl. lia.
    - assert (∃ x t, replicate k 48 ++ d :: ds ++ replicate l 32 = x :: t ∧ x ≠ 45 ∧ x ≠ 32) as (x & t & Ex & N1 & N2).
      { destruct k; simpl; eexists _, _; (split; [reflexivity|]); lia. }
      rewrite Ex. simpl skip_spaces. rewrite (proj2 (Z.eqb_neq _ _) N2), (proj2 (Z.eqb_neq _ _) N1), <-Ex.
      rewrite (Ht k l), dvalue_zeros, Z.mul_0_l, Es by lia. lia. }
  unfold field. set (k := Z.to_nat _).
  assert (read_int ((if v <? 0 then [45] else []) ++ d :: ds) = v) as Hbare by (rewrite <-(Hread 0%nat 0%nat) at 2; by rewrite app_nil_r).
  destruct la; [destruct zero; [done|]; rewrite <-app_assoc; apply (Hread 0%nat k)|]. destruct zero.
  - pose proof (Hread k 0%nat) as Hk. rewrite app_nil_r in Hk. destruct (v <? 0); cbn [app] in *; [exact Hk|].
    by rewrite (proj2 (Z.eqb_neq _ _) Hd45).
  - assert (∀ t, read_int (replicate k 32 ++ t) = read_int t) as Hsp by (intros t; unfold read_int; by rewrite skip_spaces_app).
    change (32 =? 48) with false. destruct (v <? 0); cbn [app] in *; rewrite andb_false_r; by rewrite Hsp.
Qed.

(** C9.  Printing an [int] other than the smallest one in decimal ([%d] with a width
    from 1 to 60 given in the format, into a buffer of 64 bytes) and reading the
    text back gives the number, for either alignment and either filler, except
    zeros on the right.  The smallest [int] overflows in [l = -l] and zeros on the
    right change the number; both are excluded here. *)
Theorem decimal_roundtrip b str la (zero : bool) w v :
  - 2 ^ 31 < v < 2 ^ 31 → la && zero = false → 0 < w ≤ 60 → (23 ≤ length b)%nat → (64 ≤ length str)%nat →
  ∃ text n rest, chsnprintf b str 64 (item_text (Dir la zero (NNum w) None false 100)) [AInt v] = Some (text ++ 0 :: rest, n) ∧
    Z.of_nat (length text) = n ∧ read_int text = v.
Proof.
  intros Hv Hz Hw Hb Hs. set (bs := field la (if zero then 48 else 32) w ((if v <? 0 then [45] else []) ++ show 10 (Z.abs v))).
  assert (render_all [Dir la zero (NNum w) None false 100] [AInt v] bs) as Hr.
  { rewrite <-(app_nil_r bs). econstructor; [|constructor]. unfold bs.
    replace (if zero then 48 else 32) with (if zero && true then 48 else 32) by (by rewrite andb_true_r).
    eapply (render_arg la zero (NNum w) None false 100 [AInt v] w [AInt v] 0 [AInt v] _ true); [done|done|].
    unfold arg_text. cbn -[show]. rewrite (proj2 (Z.ltb_lt _ _)), (proj2 (Z.ltb_lt _ _)) by lia. done. }
  assert (length bs ≤ 63)%nat as Hlen.
  { unfold bs. rewrite field_pad, length_app. pose proof (show_length_10 (Z.abs v)). destruct (v <? 0); simpl length; lia. }
  pose proof (chsnprintf_ok b str 64 [Dir la zero (NNum w) None false 100] [AInt v] bs Hr) as E.
  rewrite fmap_cons, fmap_nil in E. cbn [concat] in E. rewrite app_nil_r in E.
  exists bs, (Z.of_nat (length bs)), (drop (S (length bs)) str). rewrite E; [|repeat constructor; simpl; unfold INT32_MAX; lia|done|unfold INT32_MAX; lia|done].
  split; [|split; [done|by apply read_field]]. rewrite take_ge by lia. by rewrite Nat.min_r by lia.
Qed.

(** C8.  Printing a finite single precision number of absolute value below 2^31
    with [%.pf], p from 0 to 9, into a buffer of 64 bytes: a sign for negative
    numbers, an integer part, a point and as many digits as the precision says
    (nine for 0); read as one decimal numeral the digits are exactly
    [⌊|x| 10^p⌋], so the printed number is below [|x|] by less than [10^-p], with
    no rounding error in the double arithmetic of ftoa.  For 2^31 and above,
    infinities and NaN the conversion to [long] in ftoa is undefined. *)
Theorem float_digits b str x p :
  printable x → 0 ≤ p ≤ 9 → (23 ≤ length b)%nat → (64 ≤ length str)%nat →
  let dp := digits_of_precision p in
  ∃ i f rest, chsnprintf b str 64 (item_text (Dir false false NNone (Some (NNum p)) false 102)) [ADouble x] =
      Some (((if SFltb x (S754_zero false) then [45] else []) ++ i ++ [46] ++ f) ++ 0 :: rest,
            Z.of_nat (length ((if SFltb x (S754_zero false) then [45] else []) ++ i ++ [46] ++ f))) ∧
    Forall (λ c, is_digit c = true) (i ++ f) ∧ Z.of_nat (length f) = dp ∧ i ≠ [] ∧
    dvalue 10 0 (i ++ f) = scaled_abs x dp.
Proof.
  intros Hx Hp Hb Hs dp. assert (1 ≤ dp ≤ 9) as Hdp.
  { unfold dp, digits_of_precision. destruct (Z.eqb_spec p 0), (Z.ltb_spec 9 p); simpl; lia. }
  assert (0 < 10 ^ dp) as H10 by (apply Z.pow_pos_nonneg; lia).
  set (sc := scaled_abs x dp). destruct (ftoa_parts x dp Hx Hdp) as (_ & HL & _). fold sc in HL.
  pose proof (Z.mod_pos_bound sc (10 ^ dp) H10) as Hm.
  set (i := show 10 (sc / 10 ^ dp)). set (f := low_digits 10 (Z.to_nat dp) (sc `mod` 10 ^ dp)).
  set (text := (if SFltb x (S754_zero false) then [45] else []) ++ i ++ [46] ++ f).
  assert (field false 32 0 (float_text x p) = text) as Ef.
  { unfold field. replace (Z.to_nat _) with 0%nat by lia. change (float_text x p) with text. simpl.
    destruct text; [done|]. by rewrite andb_false_r. }
  assert (render_all [Dir false false NNone (Some (NNum p)) false 102] [ADouble x] text) as Hr.
  { rewrite <-(app_nil_r text), <-Ef. econstructor; [|constructor].
    by eapply (render_float false false NNone (Some (NNum p)) false). }
  assert (length f = Z.to_nat dp) as Hf by apply low_digits_length.
  assert (length text ≤ 63)%nat as Hlen.
  { unfold text. rewrite !length_app, Hf. pose proof (show_length_10 (sc / 10 ^ dp)). fold i in H.
    destruct (SFltb x (S754_zero false)); simpl length; lia. }
  exists i, f, (drop (S (length text)) str). fold text. split_and!.
  - pose proof (chsnprintf_ok b str 64 _ _ _ Hr) as E. rewrite fmap_cons, fmap_nil in E. cbn [concat] in E. rewrite app_nil_r in E.
    rewrite E; [|repeat constructor; simpl; unfold INT32_MAX; lia|done|unfold INT32_MAX; lia|done].
    rewrite take_ge by lia. by rewrite Nat.min_r by lia.
  - apply Forall_app. split; [apply show_digits|apply low_digits_decimal].
  - rewrite Hf. lia.
  - apply show_nonempty.
  - rewrite dvalue_app. unfold i. rewrite show_value by lia. unfold f. rewrite dvalue_low by lia.
    rewrite Z2Nat.id by lia. rewrite Z.mod_mod by lia. pose proof (Z.div_mod sc (10 ^ dp)). lia.
Qed.
