(* ===== verification/MBox.v ===== *)
(** * Mailboxes (os/rt/src/chmboxes.c, os/rt/include/chmboxes.h)

    A mailbox is a circular buffer of messages with two counting semaphores:
    [mb_emptysem] counts the free slots, [mb_fullsem] the stored messages.  The
    pointers are indices into the buffer; [mb_top] is its length. *)

From S2P Require Import Prelude Ring TimeMeas Kernel ThreadQueues Sys VTimers Sched Sem.

(** ** The circular buffer *)

Definition set_mb_buf (b : list Z) (w r : nat) (mb : mailbox) : mailbox :=
  mkMB b w r (mb_fullsem mb) (mb_emptysem mb).

(** A pointer incremented goes from [mb_top] back to [mb_buffer]; decremented
    below [mb_buffer] it goes to [mb_top - 1]. *)
Definition mb_succ (mb : mailbox) (p : nat) : nat := ring_succ (length (mb_buffer mb)) p.
Definition mb_pred (mb : mailbox) (p : nat) : nat := ring_pred (length (mb_buffer mb)) p.

(** [*mbp->mb_wrptr++ = msg] with the wrap; an access outside the buffer is a
    fault. *)
Definition mb_push (msg : Z) (mb : mailbox) : option mailbox :=
  if (mb_wrptr mb <? length (mb_buffer mb))%nat then
    Some (set_mb_buf (<[mb_wrptr mb := msg]> (mb_buffer mb)) (mb_succ mb (mb_wrptr mb)) (mb_rdptr mb) mb)
  else None.

(** [if (--mbp->mb_rdptr < mbp->mb_buffer) ...; *mbp->mb_rdptr = msg] *)
Definition mb_push_ahead (msg : Z) (mb : mailbox) : option mailbox :=
  let r := mb_pred mb (mb_rdptr mb) in
  if (r <? length (mb_buffer mb))%nat then
    Some (set_mb_buf (<[r := msg]> (mb_buffer mb)) (mb_wrptr mb) r mb)
  else None.

(** [*msgp = *mbp->mb_rdptr++] with the wrap. *)
Definition mb_pop (mb : mailbox) : option (Z * mailbox) :=
  m ← mb_buffer mb !! mb_rdptr mb;
  Some (m, set_mb_buf (mb_buffer mb) (mb_wrptr mb) (mb_succ mb (mb_rdptr mb)) mb).

(** ** Operations *)

Definition mbox (mbp : addr) : M mailbox := deref (λ s, k_mbox s !! mbp).
Definition set_mbox (mbp : addr) (mb : mailbox) : M unit :=
  modify (λ s, set_k_mbox (<[mbp := mb]> (k_mbox s)) s).
Definition mb_update (mbp : addr) (f : mailbox → option mailbox) : M unit :=
  mb ← mbox mbp; mb' ← deref (λ _, f mb); set_mbox mbp mb'.

(** The buffer of [n] messages at [buf] has the contents [buf]; the semaphores
    are the fields of the mailbox, named by [full] and [empty]. *)
Definition chMBObjectInit (mbp full empty : addr) (buf : list Z) (n : Z) : M unit :=
  chDbgCheck (0 <? n) "chMBObjectInit" ;;
  set_mbox mbp (mkMB buf 0 0 full empty) ;;
  chSemObjectInit empty n ;;
  chSemObjectInit full 0.

Definition chMBResetI (mbp : addr) : M unit :=
  chDbgCheckClassI ;;
  mb ← mbox mbp;
  set_mbox mbp (set_mb_buf (mb_buffer mb) 0 0 mb) ;;
  chSemResetI (mb_emptysem mb) (Z.of_nat (length (mb_buffer mb))) ;;
  chSemResetI (mb_fullsem mb) 0.

Definition chMBReset (mbp : addr) : M unit :=
  chSysLock ;; chMBResetI mbp ;; chSchRescheduleS ;; chSysUnlock.

Definition chMBPostS (mbp : addr) (msg timeout : Z) : M Z :=
  chDbgCheckClassS ;;
  mb ← mbox mbp;
  rdymsg ← chSemWaitTimeoutS (mb_emptysem mb) timeout;
  when (rdymsg =? MSG_OK)
    (mb_update mbp (mb_push msg) ;; chSemSignalI (mb_fullsem mb) ;; chSchRescheduleS) ;;
  mret rdymsg.

Definition chMBPost (mbp : addr) (msg timeout : Z) : M Z :=
  chSysLock ;; rdymsg ← chMBPostS mbp msg timeout; chSysUnlock ;; mret rdymsg.

Definition chMBPostI (mbp : addr) (msg : Z) : M Z :=
  chDbgCheckClassI ;;
  mb ← mbox mbp;
  c ← chSemGetCounterI (mb_emptysem mb);
  if c <=? 0 then mret MSG_TIMEOUT
  else
    chSemFastWaitI (mb_emptysem mb) ;;
    mb_update mbp (mb_push msg) ;;
    chSemSignalI (mb_fullsem mb) ;;
    mret MSG_OK.

Definition chMBPostAheadS (mbp : addr) (msg timeout : Z) : M Z :=
  chDbgCheckClassS ;;
  mb ← mbox mbp;
  rdymsg ← chSemWaitTimeoutS (mb_emptysem mb) timeout;
  when (rdymsg =? MSG_OK)
    (mb_update mbp (mb_push_ahead msg) ;; chSemSignalI (mb_fullsem mb) ;; chSchRescheduleS) ;;
  mret rdymsg.

Definition chMBPostAhead (mbp : addr) (msg timeout : Z) : M Z :=
  chSysLock ;; rdymsg ← chMBPostAheadS mbp msg timeout; chSysUnlock ;; mret rdymsg.

Definition chMBPostAheadI (mbp : addr) (msg : Z) : M Z :=
  chDbgCheckClassI ;;
  mb ← mbox mbp;
  c ← chSemGetCounterI (mb_emptysem mb);
  if c <=? 0 then mret MSG_TIMEOUT
  else
    chSemFastWaitI (mb_emptysem mb) ;;
    mb_update mbp (mb_push_ahead msg) ;;
    chSemSignalI (mb_fullsem mb) ;;
    mret MSG_OK.

(** Reading a message: the result is the message written to [*msgp]. *)
Definition mb_take (mbp : addr) : M Z :=
  mb ← mbox mbp; r ← deref (λ _, mb_pop mb); set_mbox mbp r.2 ;; mret r.1.

(** The returned pair is the result and the message, if one was fetched. *)
Definition chMBFetchS (mbp : addr) (timeout : Z) : M (Z * option Z) :=
  chDbgCheckClassS ;;
  mb ← mbox mbp;
  rdymsg ← chSemWaitTimeoutS (mb_fullsem mb) timeout;
  if rdymsg =? MSG_OK then
    m ← mb_take mbp; chSemSignalI (mb_emptysem mb) ;; chSchRescheduleS ;; mret (rdymsg, Some m)
  else mret (rdymsg, None).

Definition chMBFetch (mbp : addr) (timeout : Z) : M (Z * option Z) :=
  chSysLock ;; r ← chMBFetchS mbp timeout; chSysUnlock ;; mret r.

Definition chMBFetchI (mbp : addr) : M (Z * option Z) :=
  chDbgCheckClassI ;;
  mb ← mbox mbp;
  c ← chSemGetCounterI (mb_fullsem mb);
  if c <=? 0 then mret (MSG_TIMEOUT, None)
  else
    chSemFastWaitI (mb_fullsem mb) ;;
    m ← mb_take mbp;
    chSemSignalI (mb_emptysem mb) ;;
    mret (MSG_OK, Some m).

Definition chMBGetSizeI (mbp : addr) : M Z := mb ← mbox mbp; mret (Z.of_nat (length (mb_buffer mb))).
Definition chMBGetFreeCountI (mbp : addr) : M Z :=
  chDbgCheckClassI ;; mb ← mbox mbp; chSemGetCounterI (mb_emptysem mb).
Definition chMBGetUsedCountI (mbp : addr) : M Z :=
  chDbgCheckClassI ;; mb ← mbox mbp; chSemGetCounterI (mb_fullsem mb).
Definition chMBPeekI (mbp : addr) : M Z :=
  chDbgCheckClassI ;; mb ← mbox mbp; deref (λ _, mb_buffer mb !! mb_rdptr mb).

(** ** Refinement of a bounded double-ended queue *)

Inductive mbop := MPost (m : Z) | MPostAhead (m : Z) | MFetch.

(** The specification: a list of at most [n] messages. *)
Definition mb_spec (n : nat) (o : mbop) (l : list Z) : (Z * option Z) * list Z :=
  match o with
  | MPost m => if (length l <? n)%nat then ((MSG_OK, None), l ++ [m]) else ((MSG_TIMEOUT, None), l)
  | MPostAhead m => if (length l <? n)%nat then ((MSG_OK, None), m :: l) else ((MSG_TIMEOUT, None), l)
  | MFetch => match l with m :: l' => ((MSG_OK, Some m), l') | [] => ((MSG_TIMEOUT, None), []) end
  end.

Definition mb_exec (mbp : addr) (o : mbop) : M (Z * option Z) :=
  match o with
  | MPost m => r ← chMBPostI mbp m; mret (r, None)
  | MPostAhead m => r ← chMBPostAheadI mbp m; mret (r, None)
  | MFetch => chMBFetchI mbp
  end.

Fixpoint mb_spec_run (n : nat) (os : list mbop) (l : list Z) : list (Z * option Z) * list Z :=
  match os with
  | [] => ([], l)
  | o :: os => let '(r, l1) := mb_spec n o l in let '(rs, l2) := mb_spec_run n os l1 in (r :: rs, l2)
  end.

Fixpoint mb_run (mbp : addr) (os : list mbop) : M (list (Z * option Z)) :=
  match os with
  | [] => mret []
  | o :: os => r ← mb_exec mbp o; rs ← mb_run mbp os; mret (r :: rs)
  end.

(** The mailbox [mbp] of [n] slots holds [l]; the two counters agree with it. *)
Definition mb_inv (mbp : addr) (n : nat) (l : list Z) (s : kst) : Prop :=
  ∃ mb, k_mbox s !! mbp = Some mb ∧ ring_rep (mb_buffer mb) (mb_wrptr mb) (mb_rdptr mb) l ∧
    length (mb_buffer mb) = n ∧ Z.of_nat n ≤ INT32_MAX ∧ mb_fullsem mb ≠ mb_emptysem mb ∧
    k_sem s !! mb_fullsem mb = Some (Z.of_nat (length l)) ∧
    k_sem s !! mb_emptysem mb = Some (Z.of_nat n - Z.of_nat (length l)).

Lemma mbox_ok s mbp mb : k_mbox s !! mbp = Some mb → mbox mbp s = Done mb s.
Proof. intros E. unfold mbox, deref. by rewrite E. Qed.

(** Taking a unit of a semaphore whose counter is positive. *)
Lemma sem_take_wf s sp c : sem_wf s → k_sem s !! sp = Some c → 0 < c → sem_wf (cnt_st sp (c - 1) s).
Proof.
  intros Hs E Hc. destruct (sem_at s sp c Hs E) as [Hok Hr]. unfold sem_ok, is_s32 in *.
  apply (sem_wf_upd s _ sp (c - 1) (qof s (QSem sp))); try done; unfold sem_ok, is_s32, INT32_MIN in *; lia.
Qed.

Lemma chSemFastWaitI_ok s sp c :
  in_I s → k_sem s !! sp = Some c → INT32_MIN < c → chSemFastWaitI sp s = Done () (cnt_st sp (c - 1) s).
Proof.
  intros HI E Hc. unfold chSemFastWaitI, set_cnt. mgo. rewrite (classI_ok s HI). mgo.
  rewrite (sem_cnt_ok _ _ _ E). mgo. rewrite cnt_dec_ok by done. done.
Qed.

Lemma chSemGetCounterI_ok s sp c : in_I s → k_sem s !! sp = Some c → chSemGetCounterI sp s = Done c s.
Proof.
  intros HI E. unfold chSemGetCounterI. mgo. rewrite (classI_ok s HI). mgo. by rewrite (sem_cnt_ok _ _ _ E).
Qed.

Definition mb_st (mbp : addr) (mb : mailbox) (s : kst) : kst := set_k_mbox (<[mbp := mb]> (k_mbox s)) s.

Section MBStep.
Context (s : kst) (mbp : addr) (mb : mailbox) (sa sb : addr) (ca cb : Z).
Hypothesis Hw : wf s.
Hypothesis Hs : sem_wf s.
Hypothesis HI : in_I s.
Hypothesis Em : k_mbox s !! mbp = Some mb.
Hypothesis Ea : k_sem s !! sa = Some ca.
Hypothesis Eb : k_sem s !! sb = Some cb.
Hypothesis Hab : sa ≠ sb.
Hypothesis Ha : 0 < ca.
Hypothesis Hb : 0 ≤ cb < INT32_MAX.

(** A unit moved from semaphore [sa] to [sb] around a buffer access. *)
Lemma mb_move mb' :
  let s1 := mb_st mbp mb' (cnt_st sa (ca - 1) s) in
  let s2 := cnt_st sb (cb + 1) s1 in
  chSemSignalI sb s1 = Done () s2 ∧ wf s2 ∧ sem_wf s2 ∧ in_I s2 ∧ k_mbox s2 = <[mbp := mb']> (k_mbox s) ∧
    k_sem s2 !! sa = Some (ca - 1) ∧ k_sem s2 !! sb = Some (cb + 1).
Proof using Hw Hs HI Ea Eb Hab Ha Hb.
  intros s1 s2.
  assert (wf s1) as W1 by by apply (wf_ext s).
  assert (sem_wf s1) as S1 by (apply (sem_wf_same (cnt_st sa (ca - 1) s)); [by apply sem_take_wf|done|done]).
  assert (k_sem s1 !! sb = Some cb) as Eb1 by (simpl; by rewrite lookup_insert_ne).
  assert (qof s1 (QSem sb) = []) as Hq.
  { destruct (sem_at s1 sb cb S1 Eb1) as [Hok _]. unfold sem_ok in Hok.
    destruct (qof s1 (QSem sb)); [done|]. simpl in Hok. lia. }
  assert (signal_st sb cb s1 = s2) as E by (unfold signal_st; by rewrite Hq).
  destruct (signal_st_wf s1 sb cb W1 S1 Eb1) as (W2 & S2 & _); [lia|]. rewrite E in W2, S2.
  split_and!; try done.
  - rewrite <-E. apply chSemSignalI_ok; try done; lia.
  - simpl. by rewrite lookup_insert_ne, lookup_insert_eq.
  - simpl. by rewrite lookup_insert_eq.
Qed.
End MBStep.

Lemma mb_update_ok s mbp mb mb' f :
  k_mbox s !! mbp = Some mb → f mb = Some mb' → mb_update mbp f s = Done () (mb_st mbp mb' s).
Proof.
  intros E1 E2. unfold mb_update, set_mbox. mgo. rewrite (mbox_ok _ _ _ E1). mgo. unfold deref. by rewrite E2.
Qed.

Definition mb_good (mbp : addr) (n : nat) (l : list Z) (s : kst) : Prop :=
  wf s ∧ sem_wf s ∧ in_I s ∧ mb_inv mbp n l s.

(** A post on either side. *)
Lemma mb_post_ok s mbp n l msg (ahead : bool) :
  mb_good mbp n l s →
  let f := if ahead then mb_push_ahead msg else mb_push msg in
  let l' := if ahead then msg :: l else l ++ [msg] in
  ∃ s', (mb ← mbox mbp;
         c ← chSemGetCounterI (mb_emptysem mb);
         if c <=? 0 then mret MSG_TIMEOUT
         else
           chSemFastWaitI (mb_emptysem mb) ;; mb_update mbp f ;; chSemSignalI (mb_fullsem mb) ;; mret MSG_OK) s
        = Done (if (length l <? n)%nat then MSG_OK else MSG_TIMEOUT) s' ∧
    mb_good mbp n (if (length l <? n)%nat then l' else l) s'.
Proof.
  intros (Hw & Hs & HI & mb & Em & Hrep & Hn & Hmax & Hne & Ef & Ee) f l'.
  mgo. rewrite (mbox_ok _ _ _ Em). mgo. rewrite (chSemGetCounterI_ok _ _ _ HI Ee). mgo.
  pose proof (rr_len _ _ _ _ Hrep) as Hlen.
  destruct (Nat.ltb_spec (length l) n) as [Hl|Hl]; destruct (Z.leb_spec (Z.of_nat n - Z.of_nat (length l)) 0); try lia.
  2: { mgo. exists s. split; [done|]. split_and!; [done..|]. by exists mb. }
  mgo. rewrite (chSemFastWaitI_ok _ _ _ HI Ee) by (unfold INT32_MIN; lia). mgo.
  assert (∃ mb', f mb = Some mb' ∧ ring_rep (mb_buffer mb') (mb_wrptr mb') (mb_rdptr mb') l' ∧
            length (mb_buffer mb') = n ∧ mb_fullsem mb' = mb_fullsem mb ∧ mb_emptysem mb' = mb_emptysem mb)
    as (mb' & Ef' & Hrep' & Hn' & F1 & F2).
  { unfold f, l'. destruct ahead; unfold mb_push, mb_push_ahead.
    - destruct (ring_push_ahead _ _ _ _ msg Hrep) as [Hr Hrep']; [lia|]. unfold mb_pred.
      destruct (Nat.ltb_spec (ring_pred (length (mb_buffer mb)) (mb_rdptr mb)) (length (mb_buffer mb))); [|lia].
      eexists. split; [done|]. simpl. rewrite length_insert. done.
    - destruct (ring_push _ _ _ _ msg Hrep) as [Hr Hrep']; [lia|].
      destruct (Nat.ltb_spec (mb_wrptr mb) (length (mb_buffer mb))); [|lia].
      eexists. split; [done|]. simpl. rewrite length_insert. done. }
  rewrite (mb_update_ok _ mbp mb mb') by done. mgo.
  destruct (mb_move s mbp (mb_emptysem mb) (mb_fullsem mb) (Z.of_nat n - Z.of_nat (length l)) (Z.of_nat (length l))
    Hw Hs HI Ee Ef ltac:(done) ltac:(lia) ltac:(lia) mb') as (E & W2 & S2 & I2 & M2 & A2 & B2).
  rewrite E. mgo. eexists. split; [done|]. split_and!; [done..|]. exists mb'. rewrite M2, F1, F2, B2, A2.
  split_and!; try done.
  - by rewrite lookup_insert_eq.
  - f_equal. unfold l'. destruct ahead; rewrite ?length_app; simpl; lia.
  - f_equal. unfold l'. destruct ahead; rewrite ?length_app; simpl; lia.
Qed.

Lemma mb_fetch_ok s mbp n l :
  mb_good mbp n l s →
  ∃ s', chMBFetchI mbp s = Done (mb_spec n MFetch l).1 s' ∧ mb_good mbp n (mb_spec n MFetch l).2 s'.
Proof.
  intros (Hw & Hs & HI & mb & Em & Hrep & Hn & Hmax & Hne & Ef & Ee).
  unfold chMBFetchI. mgo. rewrite (classI_ok s HI). mgo. rewrite (mbox_ok _ _ _ Em). mgo.
  rewrite (chSemGetCounterI_ok _ _ _ HI Ef). mgo. pose proof (rr_len _ _ _ _ Hrep) as Hlen.
  destruct l as [|m l]; simpl in *.
  - mgo. exists s. split; [done|]. split_and!; [done..|]. by exists mb.
  - mgo. rewrite (chSemFastWaitI_ok _ _ _ HI Ef) by (unfold INT32_MIN; lia). mgo.
    destruct (ring_pop _ _ _ _ _ Hrep) as [Hm Hrep'].
    unfold mb_take, set_mbox, mb_pop. mgo. rewrite (mbox_ok _ _ mb) by done. mgo. unfold deref. rewrite Hm. simpl. mgo.
    destruct (mb_move s mbp (mb_fullsem mb) (mb_emptysem mb) (Z.of_nat (S (length l))) (Z.of_nat n - Z.of_nat (S (length l)))
      Hw Hs HI Ef Ee Hne ltac:(lia) ltac:(lia) (set_mb_buf (mb_buffer mb) (mb_wrptr mb) (mb_succ mb (mb_rdptr mb)) mb))
      as (E & W2 & S2 & I2 & M2 & A2 & B2).
    match goal with |- context [chSemSignalI _ ?x] => match type of E with chSemSignalI _ ?y = _ => change x with y end end.
    rewrite E. mgo. eexists. split; [done|]. split_and!; [done..|].
    eexists. rewrite M2, lookup_insert_eq. split; [done|].
    cbn [mb_fullsem mb_emptysem mb_buffer mb_wrptr mb_rdptr set_mb_buf]. rewrite A2, B2.
    split_and!; try done; f_equal; lia.
Qed.

Lemma mb_step_ok s mbp n l o :
  mb_good mbp n l s →
  ∃ s', mb_exec mbp o s = Done (mb_spec n o l).1 s' ∧ mb_good mbp n (mb_spec n o l).2 s'.
Proof.
  intros HG. pose proof HG as (_ & _ & HI & _). destruct o as [m|m|]; [..|by apply mb_fetch_ok]; simpl.
  - destruct (mb_post_ok s mbp n l m false HG) as (s' & E & HG'). exists s'. unfold chMBPostI. mgo.
    rewrite (classI_ok s HI). mgo. rewrite bind_eq in E. rewrite E. mgo. by destruct (length l <? n)%nat.
  - destruct (mb_post_ok s mbp n l m true HG) as (s' & E & HG'). exists s'. unfold chMBPostAheadI. mgo.
    rewrite (classI_ok s HI). mgo. rewrite bind_eq in E. rewrite E. mgo. by destruct (length l <? n)%nat.
Qed.

(** C33.  Any sequence of chMBPostI, chMBPostAheadI and chMBFetchI on a mailbox of
    [n] slots behaves as the bounded double-ended queue: the same results and
    messages, in the same order, with MSG_TIMEOUT exactly on posting to a full
    or fetching from an empty mailbox, and the pointers, the two semaphore
    counters and the kernel invariants stay consistent. *)
Theorem mailbox_refines mbp n os : ∀ s l,
  wf s → sem_wf s → in_I s → mb_inv mbp n l s →
  ∃ s', mb_run mbp os s = Done (mb_spec_run n os l).1 s' ∧
    wf s' ∧ sem_wf s' ∧ in_I s' ∧ mb_inv mbp n (mb_spec_run n os l).2 s'.
Proof.
  induction os as [|o os IH]; intros s l Hw Hs HI Hm; simpl; [by exists s|].
  destruct (mb_step_ok s mbp n l o) as (s1 & E1 & W1 & S1 & I1 & M1); [done|].
  mgo. rewrite E1. mgo. destruct (mb_spec n o l) as [r l1]; simpl in *.
  destruct (IH s1 l1 W1 S1 I1 M1) as (s2 & E2 & R). rewrite E2. mgo. exists s2.
  by destruct (mb_spec_run n os l1).
Qed.
