(* ===== verification/Evt.v ===== *)
(** * Event flags (os/rt/src/chevents.c, os/rt/include/chevents.h)

    [eventmask_t] and [eventflags_t] are 32-bit words.  The listeners of an
    event source are a chain from [es_next]; the newest is first. *)

From S2P Require Import Prelude TimeMeas Kernel ThreadQueues Sys VTimers Sched.

Definition EVENT_MASK (eid : Z) : Z := u32 (Z.shiftl 1 eid).
Definition ALL_EVENTS : Z := UINT32_MAX.

Definition listener_of (elp : addr) : M listener := deref (λ s, k_evl s !! elp).
Definition set_listener (elp : addr) (el : listener) : M unit :=
  modify (λ s, set_k_evl (<[elp := el]> (k_evl s)) s).
Definition source (esp : addr) : M (list addr) := deref (λ s, k_evs s !! esp).
Definition set_source (esp : addr) (l : list addr) : M unit :=
  modify (λ s, set_k_evs (<[esp := l]> (k_evs s)) s).

Definition chEvtObjectInit (esp : addr) : M unit := set_source esp [].

Definition chEvtRegisterMaskWithFlags (esp elp : addr) (events wflags : Z) : M unit :=
  chSysLock ;;
  l ← source esp;
  set_source esp (elp :: l) ;;
  ctp ← currp;
  set_listener elp (mkEL ctp events 0 wflags) ;;
  chSysUnlock.
Definition chEvtRegisterMask (esp elp : addr) (events : Z) : M unit :=
  chEvtRegisterMaskWithFlags esp elp events UINT32_MAX.
Definition chEvtRegister (esp elp : addr) (event : Z) : M unit :=
  chEvtRegisterMask esp elp (EVENT_MASK event).

(** The chain without the first occurrence of [elp]. *)
Fixpoint unlink (elp : addr) (l : list addr) : list addr :=
  match l with
  | [] => []
  | x :: l' => if decide (x = elp) then l' else x :: unlink elp l'
  end.

Definition chEvtUnregister (esp elp : addr) : M unit :=
  chSysLock ;; l ← source esp; set_source esp (unlink elp l) ;; chSysUnlock.

Definition chEvtIsListeningI (esp : addr) : M bool :=
  l ← source esp; mret (match l with [] => false | _ => true end).

Definition chEvtGetAndClearEvents (events : Z) : M Z :=
  chSysLock ;;
  ctp ← currp; cth ← thd ctp;
  let m := Z.land (p_epending cth) events in
  upd_thd ctp (set_p_epending (Z.land (p_epending cth) (not32 events))) ;;
  chSysUnlock ;; mret m.

Definition chEvtAddEvents (events : Z) : M Z :=
  chSysLock ;;
  ctp ← currp; cth ← thd ctp;
  upd_thd ctp (set_p_epending (Z.lor (p_epending cth) events)) ;;
  cth ← thd ctp;
  let events := p_epending cth in
  chSysUnlock ;; mret events.

(** Whether the pending events end the wait of a thread; the mask is read from
    the union only in the two waiting states. *)
Definition evt_ready (th : thread) : option bool :=
  match p_state th, p_u th with
  | CH_STATE_WTOREVT, U_ewmask m => Some (negb (Z.land (p_epending th) m =? 0))
  | CH_STATE_WTANDEVT, U_ewmask m => Some (Z.land (p_epending th) m =? m)
  | CH_STATE_WTOREVT, _ | CH_STATE_WTANDEVT, _ => None
  | _, _ => Some false
  end.

Definition chEvtSignalI (tp : tid) (events : Z) : M unit :=
  chDbgCheckClassI ;;
  th ← thd tp;
  upd_thd tp (set_p_epending (Z.lor (p_epending th) events)) ;;
  th ← thd tp;
  b ← deref (λ _, evt_ready th);
  if b : bool then upd_thd tp (set_p_u (U_msg MSG_OK)) ;; chSchReadyI tp ;; mret ()
  else mret ().

Definition chEvtSignal (tp : tid) (events : Z) : M unit :=
  chSysLock ;; chEvtSignalI tp events ;; chSchRescheduleS ;; chSysUnlock.

Definition chEvtBroadcastOne (elp : addr) (flags : Z) : M unit :=
  el ← listener_of elp;
  let el := mkEL (el_listener el) (el_events el) (Z.lor (el_flags el) flags) (el_wflags el) in
  set_listener elp el ;;
  when ((flags =? 0) || negb (Z.land (el_flags el) (el_wflags el) =? 0))
    (chEvtSignalI (el_listener el) (el_events el)).

Fixpoint broadcast_loop (l : list addr) (flags : Z) : M unit :=
  match l with
  | [] => mret ()
  | elp :: l => chEvtBroadcastOne elp flags ;; broadcast_loop l flags
  end.

Definition chEvtBroadcastFlagsI (esp : addr) (flags : Z) : M unit :=
  chDbgCheckClassI ;; l ← source esp; broadcast_loop l flags.

Definition chEvtBroadcastFlags (esp : addr) (flags : Z) : M unit :=
  chSysLock ;; chEvtBroadcastFlagsI esp flags ;; chSchRescheduleS ;; chSysUnlock.
Definition chEvtBroadcast (esp : addr) : M unit := chEvtBroadcastFlags esp 0.
Definition chEvtBroadcastI (esp : addr) : M unit := chEvtBroadcastFlagsI esp 0.

Definition chEvtGetAndClearFlagsI (elp : addr) : M Z :=
  el ← listener_of elp;
  set_listener elp (mkEL (el_listener el) (el_events el) 0 (el_wflags el)) ;;
  mret (el_flags el).
Definition chEvtGetAndClearFlags (elp : addr) : M Z :=
  chSysLock ;; flags ← chEvtGetAndClearFlagsI elp; chSysUnlock ;; mret flags.

(** The dispatch loop: [handlers] is the table of callbacks. *)
Fixpoint dispatch_loop (handlers : Z → option (M unit)) (fuel : nat) (eid events : Z) : M unit :=
  if events =? 0 then mret ()
  else
    match fuel with
    | O => fault
    | S fuel =>
        if negb (Z.land events (EVENT_MASK eid) =? 0) then
          match handlers eid with
          | None => chSysHalt "chEvtDispatch"
          | Some h => h ;; dispatch_loop handlers fuel (eid + 1) (Z.land events (not32 (EVENT_MASK eid)))
          end
        else dispatch_loop handlers fuel (eid + 1) events
    end.

Definition chEvtDispatch (handlers : Z → option (M unit)) (events : Z) : M unit :=
  dispatch_loop handlers 32 0 events.

(** ** Waiting *)

(** [m ^= m & (m - 1)]: the lowest set bit. *)
Definition lowest (m : Z) : Z := Z.lxor m (Z.land m (u32 (m - 1))).

Definition clear_pending (ctp : tid) (m : Z) : M unit :=
  cth ← thd ctp; upd_thd ctp (set_p_epending (Z.land (p_epending cth) (not32 m))).

Definition pending (ctp : tid) (events : Z) : M Z :=
  cth ← thd ctp; mret (Z.land (p_epending cth) events).

Definition chEvtWaitOne (events : Z) : M Z :=
  ctp ← currp;
  chSysLock ;;
  m ← pending ctp events;
  m ← (if m =? 0 then
         upd_thd ctp (set_p_u (U_ewmask events)) ;; chSchGoSleepS CH_STATE_WTOREVT ;; pending ctp events
       else mret m);
  let m := lowest m in
  clear_pending ctp m ;; chSysUnlock ;; mret m.

Definition chEvtWaitAny (events : Z) : M Z :=
  ctp ← currp;
  chSysLock ;;
  m ← pending ctp events;
  m ← (if m =? 0 then
         upd_thd ctp (set_p_u (U_ewmask events)) ;; chSchGoSleepS CH_STATE_WTOREVT ;; pending ctp events
       else mret m);
  clear_pending ctp m ;; chSysUnlock ;; mret m.

Definition chEvtWaitAll (events : Z) : M Z :=
  ctp ← currp;
  chSysLock ;;
  m ← pending ctp events;
  (if negb (m =? events) then
     upd_thd ctp (set_p_u (U_ewmask events)) ;; chSchGoSleepS CH_STATE_WTANDEVT
   else mret ()) ;;
  clear_pending ctp events ;; chSysUnlock ;; mret events.

(** The wait of the timeout variants: [None] stands for the early return of 0. *)
Definition evt_sleep (ctp : tid) (st : tstate) (events time : Z) : M bool :=
  if TIME_IMMEDIATE =? time then mret false
  else
    upd_thd ctp (set_p_u (U_ewmask events)) ;;
    msg ← chSchGoSleepTimeoutS st time; mret (MSG_OK <=? msg).

Definition chEvtWaitOneTimeout (events time : Z) : M Z :=
  ctp ← currp;
  chSysLock ;;
  m ← pending ctp events;
  r ← (if m =? 0 then
         b ← evt_sleep ctp CH_STATE_WTOREVT events time;
         if b : bool then m ← pending ctp events; mret (Some m) else mret None
       else mret (Some m));
  match r with
  | None => chSysUnlock ;; mret 0
  | Some m => let m := lowest m in clear_pending ctp m ;; chSysUnlock ;; mret m
  end.

Definition chEvtWaitAnyTimeout (events time : Z) : M Z :=
  ctp ← currp;
  chSysLock ;;
  m ← pending ctp events;
  r ← (if m =? 0 then
         b ← evt_sleep ctp CH_STATE_WTOREVT events time;
         if b : bool then m ← pending ctp events; mret (Some m) else mret None
       else mret (Some m));
  match r with
  | None => chSysUnlock ;; mret 0
  | Some m => clear_pending ctp m ;; chSysUnlock ;; mret m
  end.

Definition chEvtWaitAllTimeout (events time : Z) : M Z :=
  ctp ← currp;
  chSysLock ;;
  m ← pending ctp events;
  b ← (if negb (m =? events) then evt_sleep ctp CH_STATE_WTANDEVT events time else mret true);
  if b : bool then clear_pending ctp events ;; chSysUnlock ;; mret events
  else chSysUnlock ;; mret 0.

(** ** Signalling *)

(** A thread that waits for events has its mask in the union. *)
Definition evt_wf (s : kst) : Prop :=
  ∀ t th, k_thd s !! t = Some th → p_state th = CH_STATE_WTOREVT ∨ p_state th = CH_STATE_WTANDEVT →
    ∃ m, p_u th = U_ewmask m.

(** The thread after [events] were added: readied if its wait is over. *)
Definition signalled (events : Z) (th : thread) : thread :=
  let th1 := set_p_epending (Z.lor (p_epending th) events) th in
  match evt_ready th1 with
  | Some true => set_p_state CH_STATE_READY (set_p_u (U_msg MSG_OK) th1)
  | _ => th1
  end.

Lemma evt_ready_state th : evt_ready th = Some true →
  p_state th = CH_STATE_WTOREVT ∨ p_state th = CH_STATE_WTANDEVT.
Proof. unfold evt_ready. destruct (p_state th); try done; auto. Qed.

Section SignalI.
Context (s : kst) (tp : tid) (th : thread) (events : Z).
Hypothesis Hw : wf s.
Hypothesis He : evt_wf s.
Hypothesis HI : in_I s.
Hypothesis Et : k_thd s !! tp = Some th.

Lemma chEvtSignalI_ok :
  ∃ s', chEvtSignalI tp events s = Done () s' ∧ wf s' ∧ evt_wf s' ∧ in_I s' ∧ k_cur s' = k_cur s ∧
    k_isr s' = k_isr s ∧ k_evl s' = k_evl s ∧ k_evs s' = k_evs s ∧
    (∀ x, k_thd s' !! x = if decide (tp = x) then Some (signalled events th) else k_thd s !! x) ∧
    (∀ q, q ≠ QReady → qof s' q = qof s q) ∧
    (∀ x, x ∈ qof s' QReady ↔ x ∈ qof s QReady ∨
       (x = tp ∧ evt_ready (set_p_epending (Z.lor (p_epending th) events) th) = Some true)) ∧
    k_ioq s' = k_ioq s.
Proof using All.
  unfold chEvtSignalI. mgo. rewrite (classI_ok s HI). mgo. rewrite (thd_ok _ _ _ Et). mgo.
  rewrite (upd_thd_ok _ _ _ _ Et). mgo. unfold signalled.
  set (th1 := set_p_epending (Z.lor (p_epending th) events) th). fold (put_thd tp th1 s).
  rewrite (thd_ok _ tp th1) by apply lookup_insert_eq. mgo.
  assert (wf (put_thd tp th1 s)) as W1 by by apply (wf_put_same s tp th).
  assert (is_Some (evt_ready th1)) as [b Eb].
  { unfold evt_ready. destruct (p_state th1) eqn:Es; eauto;
      (destruct (He tp th Et) as [m Hm]; [by auto|]); change (p_u th1) with (p_u th); rewrite Hm; eauto. }
  unfold deref. rewrite Eb. mgo. destruct b.
  - assert (p_state th = CH_STATE_WTOREVT ∨ p_state th = CH_STATE_WTANDEVT) as Hst
      by by apply (evt_ready_state th1).
    mgo. rewrite (upd_thd_ok _ tp th1) by apply lookup_insert_eq. mgo.
    fold (put_thd tp (set_p_u (U_msg MSG_OK) th1) (put_thd tp th1 s)). rewrite put_thd_thd.
    rewrite (chSchReadyI_ok tp (set_p_u (U_msg MSG_OK) th1)); [|done|apply lookup_insert_eq|..].
    2,3: simpl; destruct Hst; congruence.
    2: by apply (qw_prio _ _ (wf_q _ Hw) _ _ Et).
    mgo. rewrite (ready_st_put tp _ th) by done.
    eexists. split; [done|]. split_and!; try done.
    + apply (ready_free_wf s tp th); try done; by destruct Hst as [-> | ->].
    + intros x thx. rewrite ready_st_thd. case_decide; [intros [= <-]; by intros [?|?]|]. apply He.
    + intros x. by rewrite ready_st_thd.
    + intros q Hq. by apply ready_st_qof_ne.
    + intros x. rewrite ready_st_elem. naive_solver.
  - mgo. eexists. split; [done|]. split_and!; try done.
    + intros x thx. simpl. rewrite lookup_insert. case_decide; [|apply He].
      intros [= <-]. apply (He tp th Et).
    + intros x. simpl. rewrite lookup_insert. done.
    + intros x. naive_solver.
Qed.
End SignalI.

(** ** Broadcast *)

(** Whether a listener lets [flags] through, and the events its thread gets. *)
Definition el_match (flags : Z) (el : listener) : bool :=
  (flags =? 0) || negb (Z.land (Z.lor (el_flags el) flags) (el_wflags el) =? 0).
Definition el_add (flags : Z) (el : listener) : listener :=
  mkEL (el_listener el) (el_events el) (Z.lor (el_flags el) flags) (el_wflags el).

(** The events sent to thread [t] by the listeners [l], in order. *)
Definition sent (E : gmap addr listener) (flags : Z) (l : list addr) (t : tid) : list Z :=
  omap (λ elp, el ← E !! elp;
    if bool_decide (el_listener el = t) && el_match flags el then Some (el_events el) else None) l.

Definition signal_all (es : list Z) (th : thread) : thread := foldl (λ th e, signalled e th) th es.

Lemma sent_ext E E' flags l t :
  (∀ elp, elp ∈ l → E' !! elp = E !! elp) → sent E' flags l t = sent E flags l t.
Proof.
  intros H. unfold sent. induction l as [|x l IH]; [done|]. cbn [omap list_omap].
  rewrite (H x) by set_solver. rewrite IH by set_solver. done.
Qed.

Lemma broadcast_one_ok s elp el flags :
  wf s → evt_wf s → in_I s → k_evl s !! elp = Some el → is_Some (k_thd s !! el_listener el) →
  ∃ s', chEvtBroadcastOne elp flags s = Done () s' ∧ wf s' ∧ evt_wf s' ∧ in_I s' ∧
    k_evl s' = <[elp := el_add flags el]> (k_evl s) ∧ k_evs s' = k_evs s ∧
    (∀ t, k_thd s' !! t = signal_all (sent (k_evl s) flags [elp] t) <$> k_thd s !! t) ∧
    k_ioq s' = k_ioq s ∧ (∀ q, q ≠ QReady → qof s' q = qof s q) ∧ k_isr s' = k_isr s.
Proof.
  intros Hw He HI Eel [th Et]. unfold chEvtBroadcastOne, listener_of, set_listener. mgo.
  unfold deref. rewrite Eel. mgo. fold (el_add flags el).
  set (s0 := set_k_evl (<[elp := el_add flags el]> (k_evl s)) s).
  assert (wf s0) as W0 by by apply (wf_ext s).
  change ((flags =? 0) || negb (Z.land (el_flags (el_add flags el)) (el_wflags (el_add flags el)) =? 0))
    with (el_match flags el).
  assert (∀ t, sent (k_evl s) flags [elp] t =
     if bool_decide (el_listener el = t) && el_match flags el then [el_events el] else []) as Hsent.
  { intros t. unfold sent. cbn [omap list_omap]. rewrite Eel. simpl. by destruct (_ && _). }
  destruct (el_match flags el) eqn:Hmt; mgo.
  - destruct (chEvtSignalI_ok s0 (el_listener el) th (el_events el) W0 He HI Et)
      as (s' & E & W1 & E1 & I1 & _ & N1 & L1 & L2 & T1 & Q1 & _ & O1).
    exists s'. split_and!; try done. intros t. rewrite T1, Hsent, andb_true_r.
    case_decide as Ht; subst; [rewrite bool_decide_true by done|rewrite bool_decide_false by done].
    + by rewrite Et.
    + change (k_thd s0) with (k_thd s). by destruct (k_thd s !! t).
  - exists s0. split_and!; try done. intros t. rewrite Hsent, andb_false_r. simpl.
    by destruct (k_thd s !! t).
Qed.

Lemma broadcast_loop_ok flags l : ∀ s,
  wf s → evt_wf s → in_I s → NoDup l →
  (∀ elp, elp ∈ l → ∃ el, k_evl s !! elp = Some el ∧ is_Some (k_thd s !! el_listener el)) →
  ∃ s', broadcast_loop l flags s = Done () s' ∧ wf s' ∧ evt_wf s' ∧ in_I s' ∧ k_evs s' = k_evs s ∧
    (∀ elp, k_evl s' !! elp = if decide (elp ∈ l) then el_add flags <$> k_evl s !! elp else k_evl s !! elp) ∧
    (∀ t, k_thd s' !! t = signal_all (sent (k_evl s) flags l t) <$> k_thd s !! t) ∧
    k_ioq s' = k_ioq s ∧ (∀ q, q ≠ QReady → qof s' q = qof s q) ∧ k_isr s' = k_isr s.
Proof.
  induction l as [|x l IH]; intros s Hw He HI Hnd Hl; simpl.
  - exists s. split_and!; try done. intros t. by destruct (k_thd s !! t).
  - apply NoDup_cons in Hnd as [Hx Hnd]. destruct (Hl x) as (el & Eel & Hth); [left|].
    destruct (broadcast_one_ok s x el flags Hw He HI Eel Hth) as (s1 & E1 & W1 & V1 & I1 & L1 & S1 & T1 & O1 & Q1 & N1).
    mgo. rewrite E1. mgo.
    destruct (IH s1 W1 V1 I1 Hnd) as (s2 & E2 & W2 & V2 & I2 & S2 & L2 & T2 & O2 & Q2 & N2).
    { intros elp Help. destruct (Hl elp) as (el' & E' & Hth'); [by right|]. exists el'.
      rewrite L1, lookup_insert_ne by set_solver. split; [done|]. rewrite T1. by apply fmap_is_Some. }
    exists s2. split_and!; try done.
    + congruence.
    + intros elp. rewrite L2, L1. destruct (decide (elp = x)) as [->|Hne].
      * rewrite decide_False, decide_True by set_solver. by rewrite lookup_insert_eq, Eel.
      * rewrite lookup_insert_ne by done.
        destruct (decide (elp ∈ l)); [rewrite decide_True by set_solver|rewrite decide_False by set_solver]; done.
    + intros t. rewrite T2, T1. rewrite (sent_ext (k_evl s)).
      2: { intros elp Help. rewrite L1, lookup_insert_ne; [done|]. set_solver. }
      rewrite <-option_fmap_compose. destruct (k_thd s !! t) as [th|]; [|done]. simpl. f_equal.
      unfold signal_all. rewrite <-foldl_app. f_equal.
      unfold sent. simpl. rewrite Eel. simpl. by destruct (_ && _).
    + congruence.
    + intros q Hq. by rewrite Q2, Q1.
    + congruence.
Qed.

(** The listeners [l] of a source exist, and so do their threads. *)
Definition src_ok (esp : addr) (l : list addr) (s : kst) : Prop :=
  k_evs s !! esp = Some l ∧ NoDup l ∧
    ∀ elp, elp ∈ l → ∃ el, k_evl s !! elp = Some el ∧ is_Some (k_thd s !! el_listener el).

Lemma src_ok_ext esp l s s' :
  k_evs s' = k_evs s → k_evl s' = k_evl s → (∀ t, is_Some (k_thd s !! t) → is_Some (k_thd s' !! t)) →
  src_ok esp l s → src_ok esp l s'.
Proof.
  intros E1 E2 Ht (H1 & H2 & H3). rewrite <-E1 in H1. split_and!; [done..|]. intros elp He. rewrite E2.
  destruct (H3 elp He) as (el & ? & ?). eauto.
Qed.

Lemma chEvtBroadcastFlagsI_ok s esp l flags :
  wf s → evt_wf s → in_I s → src_ok esp l s →
  ∃ s', chEvtBroadcastFlagsI esp flags s = Done () s' ∧ wf s' ∧ evt_wf s' ∧ in_I s' ∧ src_ok esp l s' ∧
    (∀ elp, k_evl s' !! elp = if decide (elp ∈ l) then el_add flags <$> k_evl s !! elp else k_evl s !! elp) ∧
    k_ioq s' = k_ioq s ∧ (∀ q, q ≠ QReady → qof s' q = qof s q) ∧ k_isr s' = k_isr s.
Proof.
  intros Hw He HI (Es & Hnd & Hl).
  destruct (broadcast_loop_ok flags l s Hw He HI Hnd Hl) as (s' & E & W & V & I & S & L & T & O & Q & N).
  exists s'. split_and!; try done.
  - unfold chEvtBroadcastFlagsI, source. mgo. rewrite (classI_ok s HI). mgo. unfold deref. by rewrite Es.
  - split_and!; [congruence|done|]. intros elp Help. destruct (Hl elp Help) as (el & Eel & Hth).
    exists (el_add flags el). rewrite L, decide_True, Eel by done. split; [done|]. simpl. rewrite T. by apply fmap_is_Some.
Qed.

(** chEvtBroadcastFlagsI: every listener of the source accumulates the
    flags; each thread receives, in the order of the chain, exactly the events
    of its listeners whose flag filter matches (all of them if [flags] is 0), is
    readied as soon as its wait condition holds, and keeps all its earlier
    pending events. *)
Theorem chEvtBroadcastFlagsI_correct s esp l flags :
  wf s → evt_wf s → in_I s → k_evs s !! esp = Some l → NoDup l →
  (∀ elp, elp ∈ l → ∃ el, k_evl s !! elp = Some el ∧ is_Some (k_thd s !! el_listener el)) →
  ∃ s', chEvtBroadcastFlagsI esp flags s = Done () s' ∧ wf s' ∧ evt_wf s' ∧ k_evs s' = k_evs s ∧
    (∀ elp, k_evl s' !! elp = if decide (elp ∈ l) then el_add flags <$> k_evl s !! elp else k_evl s !! elp) ∧
    (∀ t, k_thd s' !! t = signal_all (sent (k_evl s) flags l t) <$> k_thd s !! t) ∧
    (∀ t th, k_thd s !! t = Some th →
       p_epending <$> k_thd s' !! t = Some (foldl Z.lor (p_epending th) (sent (k_evl s) flags l t))).
Proof.
  intros Hw He HI Es Hnd Hl.
  destruct (broadcast_loop_ok flags l s Hw He HI Hnd Hl) as (s' & E & W & V & _ & S & L & T & _).
  exists s'. split_and!; try done.
  - unfold chEvtBroadcastFlagsI, source. mgo. rewrite (classI_ok s HI). mgo. unfold deref. by rewrite Es.
  - intros t th Et. rewrite T, Et. simpl. f_equal. unfold signal_all. generalize (sent (k_evl s) flags l t).
    intros es. clear Et. revert th. induction es as [|e es IH]; intros th; [done|]. simpl. rewrite IH. f_equal.
    unfold signalled. by destruct (evt_ready _) as [[]|].
Qed.

(** ** Dispatch *)

(** The events of [events] from [eid] on, lowest first. *)
Fixpoint event_ids (n : nat) (eid events : Z) : list Z :=
  match n with
  | O => []
  | S n => if Z.testbit events eid then eid :: event_ids n (eid + 1) events else event_ids n (eid + 1) events
  end.

(** Calling the handlers of a list of events one after the other. *)
Fixpoint call_all (handlers : Z → option (M unit)) (ids : list Z) : M unit :=
  match ids with
  | [] => mret ()
  | i :: ids => match handlers i with Some h => h ;; call_all handlers ids | None => chSysHalt "chEvtDispatch" end
  end.

Lemma event_mask_eq eid : 0 ≤ eid < 32 → EVENT_MASK eid = 2 ^ eid.
Proof.
  intros H. unfold EVENT_MASK. rewrite Z.shiftl_1_l. apply u32_small. split; [apply Z.pow_nonneg; lia|].
  apply Z.pow_lt_mono_r; lia.
Qed.

Lemma land_pow2 x k : 0 ≤ k → Z.land x (2 ^ k) = if Z.testbit x k then 2 ^ k else 0.
Proof.
  intros Hk. apply Z.bits_inj'. intros i Hi. rewrite Z.land_spec.
  destruct (Z.eq_dec i k) as [->|Hne].
  - rewrite Z.pow2_bits_true by done. destruct (Z.testbit x k); rewrite ?Z.pow2_bits_true, ?Z.bits_0; done.
  - rewrite Z.pow2_bits_false by done. destruct (Z.testbit x k);
      rewrite ?Z.pow2_bits_false, ?Z.bits_0, andb_false_r; done.
Qed.

Lemma not32_bits x i : 0 ≤ i → Z.testbit (not32 x) i = xorb (Z.testbit x i) (bool_decide (i < 32)).
Proof.
  intros Hi. unfold not32. rewrite Z.lxor_spec. f_equal. change UINT32_MAX with (Z.ones 32).
  case_bool_decide; [by rewrite Z.ones_spec_low by lia|by rewrite Z.ones_spec_high by lia].
Qed.

Lemma event_ids_ext n : ∀ eid e e', (∀ i, eid ≤ i → Z.testbit e i = Z.testbit e' i) → event_ids n eid e = event_ids n eid e'.
Proof.
  induction n as [|n IH]; intros eid e e' H; simpl; [done|].
  rewrite (H eid) by lia. rewrite (IH _ e e'); [done|]. intros i Hi. apply H. lia.
Qed.

Lemma event_ids_zero n eid : event_ids n eid 0 = [].
Proof. revert eid. induction n as [|n IH]; intros eid; simpl; [done|]. rewrite Z.bits_0. apply IH. Qed.

Lemma bits_below_zero e : 0 ≤ e → (∀ i, 0 ≤ i → Z.testbit e i = false) → e = 0.
Proof. intros He H. apply Z.bits_inj'. intros i Hi. by rewrite H, Z.bits_0. Qed.

Lemma dispatch_loop_ok handlers fuel : ∀ eid e,
  0 ≤ e → 0 ≤ eid → eid + Z.of_nat fuel = 32 →
  (∀ i, 0 ≤ i → i < eid ∨ 32 ≤ i → Z.testbit e i = false) →
  dispatch_loop handlers fuel eid e = call_all handlers (event_ids fuel eid e).
Proof.
  induction fuel as [|fuel IH]; intros eid e He Heid Hf Hb; simpl.
  - rewrite (bits_below_zero e) by (try done; intros; apply Hb; lia). done.
  - destruct (Z.eqb_spec e 0) as [->|Hne]; [by rewrite Z.bits_0, event_ids_zero|].
    rewrite event_mask_eq, land_pow2 by lia. destruct (Z.testbit e eid) eqn:Eb.
    + destruct (Z.eqb_spec (2 ^ eid) 0) as [E0|_]; [pose proof (Z.pow_pos_nonneg 2 eid); lia|]. simpl.
      destruct (handlers eid) as [h|]; [|done].
      assert (∀ i, 0 ≤ i → Z.testbit (Z.land e (not32 (2 ^ eid))) i = if bool_decide (i = eid) then false else Z.testbit e i) as Hl.
      { intros i Hi. rewrite Z.land_spec, not32_bits by done. destruct (decide (i = eid)) as [->|Hie].
        - rewrite Z.pow2_bits_true, !bool_decide_true by lia. by rewrite andb_false_r.
        - rewrite Z.pow2_bits_false, (bool_decide_false (i = eid)) by done.
          case_bool_decide; [by rewrite andb_true_r|]. rewrite andb_false_r. symmetry. apply Hb; lia. }
      rewrite IH; try lia.
      * rewrite (event_ids_ext fuel (eid + 1) _ e); [done|]. intros i Hi. rewrite Hl by lia.
        rewrite bool_decide_false by lia. done.
      * apply Z.land_nonneg. by left.
      * intros i Hi Hr. rewrite Hl by done. case_bool_decide; [done|]. apply Hb; lia.
    + simpl. apply IH; try lia. intros i Hi Hr.
      destruct (Z.eq_dec i eid) as [->|]; [done|]. apply Hb; lia.
Qed.

(** chEvtDispatch terminates and calls the handlers of exactly the events
    in the mask, each once, in increasing order of the event identifier (the
    system halts at an event without handler). *)
Theorem chEvtDispatch_correct handlers events :
  is_u32 events → chEvtDispatch handlers events = call_all handlers (event_ids 32 0 events).
Proof.
  intros [H1 H2]. apply dispatch_loop_ok; try lia. intros i Hi [?|Hge]; [lia|].
  destruct (Z.eq_dec events 0) as [->|]; [apply Z.bits_0|].
  apply Z.bits_above_log2; [done|]. apply Z.log2_lt_pow2; [lia|].
  apply Z.lt_le_trans with (2 ^ 32); [done|]. apply Z.pow_le_mono_r; lia.
Qed.

(** ** Waiting *)

Lemma low_bit_exists m : 0 < m → ∃ k q, 0 ≤ k ∧ 0 ≤ q ∧ m = 2 ^ k * (2 * q + 1).
Proof.
  intros Hm. destruct m as [|p|p]; try lia. clear Hm. induction p as [p IH|p IH|].
  - exists 0, (Z.pos p). lia.
  - destruct IH as (k & q & Hk & Hq & E). exists (k + 1), q. split_and!; [lia|lia|].
    rewrite Z.pow_add_r by lia. lia.
  - exists 0, 0. lia.
Qed.

(** [m ^= m & (m - 1)] keeps exactly the lowest set bit of [m]. *)
Lemma lowest_bit m : 0 < m < 2 ^ 32 →
  ∃ k, 0 ≤ k < 32 ∧ lowest m = 2 ^ k ∧ Z.testbit m k = true ∧ (∀ j, 0 ≤ j < k → Z.testbit m j = false).
Proof.
  intros [H0 H1]. destruct (low_bit_exists m H0) as (k & q & Hk & Hq & E). exists k.
  assert (0 < 2 ^ k) as Hpk by (apply Z.pow_pos_nonneg; lia).
  assert (∀ j, 0 ≤ j < k → Z.testbit m j = false) as Hlow.
  { intros j Hj. rewrite E, Z.mul_comm, Z.mul_pow2_bits_low by lia. done. }
  assert (Z.testbit m k = true) as Hmk.
  { rewrite E, Z.mul_comm, Z.mul_pow2_bits by lia. rewrite Z.sub_diag, Z.bit0_odd, Z.add_1_r, Z.odd_succ.
    apply Z.even_spec. by exists q. }
  assert (∀ j, k ≤ j → Z.testbit (m - 1) j = Z.testbit (2 ^ k * (2 * q)) j) as Hhigh.
  { intros j Hj. rewrite <-(Z.sub_add k j), <-!Z.shiftr_spec by lia. f_equal.
    rewrite !Z.shiftr_div_pow2 by lia. rewrite (Z.mul_comm (2 ^ k) (2 * q)), Z.div_mul by lia.
    symmetry. apply Z.div_unique with (2 ^ k - 1); [left; lia|lia]. }
  split_and!; try done.
  - destruct (Z.lt_ge_cases k 32); [done|]. pose proof (Z.pow_le_mono_r 2 32 k). nia.
  - unfold lowest. rewrite u32_small by (unfold is_u32; lia). apply Z.bits_inj'. intros j Hj.
    rewrite Z.lxor_spec, Z.land_spec. destruct (Z.lt_trichotomy j k) as [Hlt|[->|Hgt]].
    + rewrite Hlow, Z.pow2_bits_false by lia. done.
    + rewrite Hmk, Hhigh, Z.pow2_bits_true by lia.
      rewrite Z.mul_comm, Z.mul_pow2_bits, Z.sub_diag, Z.bit0_odd by lia. rewrite Z.odd_mul. done.
    + rewrite Hhigh, Z.pow2_bits_false by lia.
      assert (Z.testbit m j = Z.testbit (2 ^ k * (2 * q)) j) as ->; [|by destruct (Z.testbit _ j)].
      rewrite E, !(Z.mul_comm (2 ^ k)), !Z.mul_pow2_bits by lia.
      replace (j - k) with (Z.succ (j - k - 1)) by lia.
      rewrite Z.testbit_odd_succ, Z.testbit_even_succ by lia. done.
Qed.

Lemma land_u32 a b : is_u32 a → is_u32 b → is_u32 (Z.land a b).
Proof.
  intros [A1 A2] [B1 B2]. split; [apply Z.land_nonneg; by left|].
  destruct (Z.eq_dec (Z.land a b) 0) as [->|Hne]; [lia|].
  apply Z.log2_lt_pow2; [pose proof (proj2 (Z.land_nonneg a b) (or_introl A1)); lia|].
  eapply Z.le_lt_trans; [by apply Z.log2_land|]. apply Z.min_lt_iff. left.
  destruct (Z.eq_dec a 0) as [->|]; [simpl; lia|]. apply Z.log2_lt_pow2; lia.
Qed.

(** The tail of the event waits: clear [m], unlock, return it. *)
Lemma clear_unlock s cth m :
  K s → k_thd s !! k_cur s = Some cth →
  ∃ s', (clear_pending (k_cur s) m ;; chSysUnlock ;; mret m) s = Done m s' ∧ user s' ∧
    k_thd s' = <[k_cur s := set_p_epending (Z.land (p_epending cth) (not32 m)) cth]> (k_thd s).
Proof.
  intros (Hw & Hok & HS) Ec.
  set (s1 := put_thd (k_cur s) (set_p_epending (Z.land (p_epending cth) (not32 m)) cth) s).
  destruct (unlock_user s1) as (s' & E & Hu & _ & Ht & _).
  { split_and!; [by apply (wf_put_same s _ cth)|by apply (sched_ok_put_same s _ cth)|done]. }
  exists s'. unfold clear_pending. mgo. rewrite (thd_ok _ _ _ Ec). mgo. rewrite (upd_thd_ok _ _ _ _ Ec). mgo.
  norm_state s1. by rewrite E.
Qed.

(** chEvtWaitOneTimeout.  If a requested event is pending the call returns at
    once the one with the lowest number and clears only that one.  Otherwise
    TIME_IMMEDIATE returns 0 and changes no thread; any other time puts the
    caller to sleep in state WTOREVT with its mask, and when it is resumed the
    call returns 0 for a negative message, or else the lowest requested event
    then pending. *)
Theorem chEvtWaitOneTimeout_correct s cth events time ntp l :
  user s → k_thd s !! k_cur s = Some cth → is_u32 events → is_u32 (p_epending cth) →
  vt_armed (VTLocal (k_cur s)) (k_vt s) = false → qof s QReady = ntp :: l →
  let m := Z.land (p_epending cth) events in
  (m ≠ 0 → ∃ i s', chEvtWaitOneTimeout events time s = Done (2 ^ i) s' ∧ user s' ∧
     0 ≤ i < 32 ∧ Z.testbit m i = true ∧ (∀ j, 0 ≤ j < i → Z.testbit m j = false) ∧
     k_thd s' = <[k_cur s := set_p_epending (Z.land (p_epending cth) (not32 (2 ^ i))) cth]> (k_thd s)) ∧
  (m = 0 → time = TIME_IMMEDIATE →
     ∃ s', chEvtWaitOneTimeout events time s = Done 0 s' ∧ user s' ∧ k_thd s' = k_thd s) ∧
  (m = 0 → time ≠ TIME_IMMEDIATE →
     ∃ s1 k, chEvtWaitOneTimeout events time s = Switch s1 k ∧ K s1 ∧ k_cur s1 = ntp ∧
       k_thd s1 !! k_cur s = Some (set_p_state CH_STATE_WTOREVT (set_p_u (U_ewmask events) cth)) ∧
       ∀ s' msg th', resumed (k_cur s) msg s' → k_thd s' !! k_cur s = Some th' →
         ∃ s'', k s' = Done (if msg <? MSG_OK then 0 else lowest (Z.land (p_epending th') events)) s'' ∧ user s'').
Proof.
  intros Hu Ec He Hp Ha Hr m. destruct (lock_user s Hu) as (s1 & E1 & HK1 & Hd).
  pose proof Hd as (D1 & D2 & D3 & _ & D5 & _). pose proof HK1 as (W1 & O1 & HS1).
  assert (k_thd s1 !! k_cur s = Some cth) as Ec1 by by rewrite D2.
  assert (k_thd s1 !! k_cur s1 = Some cth) as Ec1' by by rewrite D1.
  unfold chEvtWaitOneTimeout, pending. split_and!; intros Hm.
  - assert (0 < m < 2 ^ 32) as Hm32 by (pose proof (land_u32 _ _ Hp He : is_u32 m) as [??]; lia).
    destruct (lowest_bit m Hm32) as (i & Hi & Hl & Hb & Hj).
    destruct (clear_unlock s1 cth (2 ^ i) HK1 Ec1') as (s' & E & Hu' & Ht). rewrite D1, D2 in Ht.
    exists i, s'. mgo. rewrite E1. mgo. rewrite (thd_ok _ _ _ Ec1). mgo. fold m.
    destruct (Z.eqb_spec m 0); [done|]. mgo. rewrite Hl.
    rewrite D1, bind_eq in E. rewrite E. done.
  - intros ->. destruct (unlock_user s1 HK1) as (s' & E & Hu' & _ & Ht & _). exists s'.
    mgo. rewrite E1. mgo. rewrite (thd_ok _ _ _ Ec1). mgo. fold m. rewrite Hm. simpl. mgo.
    unfold evt_sleep. cbn [TIME_IMMEDIATE Z.eqb]. mgo. rewrite E. mgo. split_and!; [done|done|]. congruence.
  - intros Ht. mgo. rewrite E1. mgo. rewrite (thd_ok _ _ _ Ec1). mgo. fold m. rewrite Hm. simpl. mgo.
    unfold evt_sleep. destruct (Z.eqb_spec TIME_IMMEDIATE time); [congruence|]. mgo.
    rewrite (upd_thd_ok _ _ _ _ Ec1). mgo. fold (put_thd (k_cur s) (set_p_u (U_ewmask events) cth) s1).
    assert (qof s1 QReady = ntp :: l) as Hr1 by (unfold qof; by rewrite D3).
    pose proof (free_sleep s1 cth (U_ewmask events) CH_STATE_WTOREVT ntp l W1 HS1 Ec1' ltac:(done) ltac:(done) Hr1) as Hsl.
    rewrite D1 in Hsl.
    destruct (chSchGoSleepTimeoutS_ok CH_STATE_WTOREVT time (put_thd (k_cur s) (set_p_u (U_ewmask events) cth) s1))
      as (s2 & k & -> & HK2 & (sa & Hco & c2 & E2) & Hres); try done.
    { simpl. by rewrite D1, D5. }
    { intros sa Hco. destruct (Hsl sa Hco) as (sx & ? & ? & ? & _). eauto. }
    destruct (Hsl sa Hco) as (sx & Ex & _ & Ho & R1 & R2 & _). rewrite Ex in E2. injection E2 as <- _.
    change (k_cur (put_thd _ _ s1)) with (k_cur s1) in Hres. rewrite D1 in Hres.
    mgo. eexists sx, _. split; [done|]. split_and!; try done.
    intros s' msg th' Hresd Eth'. destruct (Hres s' msg Hresd) as (s'' & -> & HK'' & Hco'').
    pose proof Hresd as (_ & Hcur & _). pose proof Hco'' as (C1 & C2 & _). mgo.
    rewrite (Z.leb_antisym msg MSG_OK). destruct (msg <? MSG_OK); simpl; mgo.
    + destruct (unlock_user s'' HK'') as (sf & -> & Huf & _). mgo. exists sf. done.
    + assert (k_thd s'' !! k_cur s = Some th') as Eth2 by by rewrite C2.
      rewrite (thd_ok _ _ _ Eth2). mgo.
      destruct (clear_unlock s'' th' (lowest (Z.land (p_epending th') events)) HK'') as (sf & Ef & Huf & _);
        [by rewrite C1, Hcur|]. rewrite C1, Hcur, bind_eq in Ef. rewrite Ef. eauto.
Qed.
