(* ===== verification/Msg.v ===== *)
(** * Synchronous messages (os/rt/src/chmsg.c, os/rt/include/chmsg.h)

    Senders queue in FIFO order ([CH_CFG_USE_MESSAGES_PRIORITY] is FALSE) on the
    receiver's [p_msgqueue], here [QMsg]. *)

From S2P Require Import Prelude TimeMeas Kernel ThreadQueues Sys VTimers Sched.

Definition msg_insert (tp : tid) (qp : qref) : M unit := queue_insert tp qp.

Definition chMsgSend (tp : tid) (msg : Z) : M Z :=
  ctp ← currp;
  chSysLock ;;
  upd_thd ctp (set_p_msg msg) ;;
  upd_thd ctp (set_p_u (U_wtobjp (QMsg tp))) ;;
  msg_insert ctp (QMsg tp) ;;
  th ← thd tp;
  (if decide (p_state th = CH_STATE_WTMSG) then chSchReadyI tp ;; mret () else mret ()) ;;
  chSchGoSleepS CH_STATE_SNDMSGQ ;;
  msg ← rdymsg ctp;
  chSysUnlock ;;
  mret msg.

Definition chMsgIsPendingI (tp : tid) : M bool := chDbgCheckClassI ;; queue_notempty (QMsg tp).
Definition chMsgGet (tp : tid) : M Z := th ← thd tp; mret (p_msg th).

Definition chMsgWait : M tid :=
  chSysLock ;;
  ctp ← currp;
  b ← chMsgIsPendingI ctp;
  (if b : bool then mret () else chSchGoSleepS CH_STATE_WTMSG) ;;
  ctp ← currp;
  tp ← queue_fifo_remove (QMsg ctp);
  upd_thd tp (set_p_state CH_STATE_SNDMSG) ;;
  chSysUnlock ;;
  mret tp.

Definition chMsgReleaseS (tp : tid) (msg : Z) : M unit := chDbgCheckClassS ;; chSchWakeupS tp msg.

Definition chMsgRelease (tp : tid) (msg : Z) : M unit :=
  chSysLock ;;
  th ← thd tp;
  chDbgAssert (bool_decide (p_state th = CH_STATE_SNDMSG)) "chMsgRelease" ;;
  chMsgReleaseS tp msg ;;
  chSysUnlock.

(** ** Results *)

(** The sender's part up to the sleep: it is queued with its message. *)
Definition send_st (tp : tid) (msg : Z) (cth : thread) (s : kst) : kst :=
  block_st (QMsg tp) (qof s (QMsg tp) ++ [k_cur s]) (set_p_msg msg cth) (U_wtobjp (QMsg tp)) s.

Section Send.
Context (s : kst) (tp : tid) (th cth : thread) (msg : Z) (ntp : tid) (l : list tid).
Hypothesis HK : K s.
Hypothesis Ec : k_thd s !! k_cur s = Some cth.
Hypothesis Et : k_thd s !! tp = Some th.
Hypothesis Hne : tp ≠ k_cur s.
Hypothesis Hr : qof s QReady = ntp :: l.

(** The state in which the sender goes to sleep: a receiver that waits for a
    message has been readied. *)
Definition send_ready : kst :=
  if decide (p_state th = CH_STATE_WTMSG) then ready_st tp th s else s.

Lemma send_ready_wf : wf send_ready.
Proof using HK Et.
  destruct HK as (Hw & _). unfold send_ready. case_decide as Hst; [|done].
  apply (ready_free_wf s tp th); by rewrite ?Hst.
Qed.

Lemma send_ready_facts :
  k_cur send_ready = k_cur s ∧ in_S send_ready ∧ k_thd send_ready !! k_cur s = Some cth ∧
  same_objs s send_ready ∧ thd_static s send_ready ∧
  (∀ q, q ≠ QReady → qof send_ready q = qof s q) ∧ (∃ n' l', qof send_ready QReady = n' :: l') ∧
  (p_state th = CH_STATE_WTMSG → tp ∈ qof send_ready QReady).
Proof using HK Ec Et Hne Hr.
  destruct HK as (Hw & _ & HS). unfold send_ready. case_decide as Hst.
  - split_and!; try done.
    + rewrite ready_st_thd, decide_False by done. done.
    + by apply (thd_static_put s tp th).
    + intros q Hq. by apply ready_st_qof_ne.
    + destruct (qof (ready_st tp th s) QReady) as [|x l'] eqn:E; [|eauto].
      assert (tp ∈ qof (ready_st tp th s) QReady) as Hin by (apply ready_st_elem; by left).
      rewrite E in Hin. set_solver.
    + intros _. apply ready_st_elem. by left.
  - split_and!; try done. eauto.
Qed.
End Send.

(** The order of readying the receiver and queueing the sender does not matter
    for the state. *)
Lemma send_code s tp th cth msg :
  in_S s → wf s → k_thd s !! k_cur s = Some cth → k_thd s !! tp = Some th → tp ≠ k_cur s →
  (upd_thd (k_cur s) (set_p_msg msg) ;;
   upd_thd (k_cur s) (set_p_u (U_wtobjp (QMsg tp))) ;;
   msg_insert (k_cur s) (QMsg tp) ;;
   th ← thd tp;
   (if decide (p_state th = CH_STATE_WTMSG) then chSchReadyI tp ;; mret () else mret ())) s
  = Done () (block_st (QMsg tp) (qof s (QMsg tp) ++ [k_cur s]) (set_p_msg msg cth) (U_wtobjp (QMsg tp))
               (send_ready s tp th)).
Proof.
  intros HS Hw Ec Et Hne. mgo. rewrite (upd_thd_ok _ _ _ _ Ec). mgo.
  rewrite (upd_thd_ok _ _ (set_p_msg msg cth)) by apply lookup_insert_eq. mgo.
  unfold msg_insert, queue_insert. mgo.
  fold (put_thd (k_cur s) (set_p_msg msg cth) s).
  fold (put_thd (k_cur s) (set_p_u (U_wtobjp (QMsg tp)) (set_p_msg msg cth)) (put_thd (k_cur s) (set_p_msg msg cth) s)).
  rewrite put_thd_thd. set (c2 := set_p_u (U_wtobjp (QMsg tp)) (set_p_msg msg cth)).
  norm_state (put_q (QMsg tp) (qof s (QMsg tp) ++ [k_cur s]) (put_thd (k_cur s) c2 s)).
  rewrite (thd_ok _ tp th) by (simpl; by rewrite lookup_insert_ne). mgo.
  unfold send_ready, block_st. case_decide as Hst.
  - mgo. rewrite (chSchReadyI_ok tp th); [|by apply (in_S_I s)| | | |].
    + mgo. f_equal. by apply (ready_st_comm tp th (QMsg tp) _ (k_cur s) cth).
    + simpl. by rewrite lookup_insert_ne.
    + congruence.
    + congruence.
    + by apply (qw_prio _ _ (wf_q _ Hw) _ _ Et).
  - mgo. done.
Qed.

(** chMsgSend: the sender is appended to the receiver's queue with its
    message and sleeps in state SNDMSGQ; a receiver waiting for a message becomes
    ready (or is the thread switched to); the scheduler invariants hold at the
    switch, and when the sender is resumed the call returns the receiver's
    answer. *)
Theorem chMsgSend_correct s tp th cth msg ntp l :
  user s → k_thd s !! k_cur s = Some cth → k_thd s !! tp = Some th → tp ≠ k_cur s →
  qof s QReady = ntp :: l →
  ∃ s1 k, chMsgSend tp msg s = Switch s1 k ∧ K s1 ∧
    qof s1 (QMsg tp) = qof s (QMsg tp) ++ [k_cur s] ∧
    (p_state <$> k_thd s1 !! k_cur s) = Some CH_STATE_SNDMSGQ ∧
    (p_msg <$> k_thd s1 !! k_cur s) = Some msg ∧
    (p_state th = CH_STATE_WTMSG → k_cur s1 = tp ∨ tp ∈ qof s1 QReady) ∧
    (∀ s' m, resumed (k_cur s) m s' → ∃ s'', k s' = Done m s'' ∧ user s'').
Proof.
  intros Hu Ec Et Hne Hr. destruct (lock_user s Hu) as (s0 & E0 & HK0 & Hd).
  pose proof Hd as (D1 & D2 & D3 & _). pose proof HK0 as (W0 & _ & HS0). rewrite <-D1 in Ec, Hne. rewrite <-D2 in Ec, Et.
  assert (qof s0 QReady = ntp :: l) as Hr0 by (unfold qof; by rewrite D3).
  destruct (send_ready_facts s0 tp th cth ntp l HK0 Ec Et Hne Hr0) as (F1 & F2 & F3 & F4 & F5 & F6 & (n' & l' & F7) & F8).
  pose proof (send_ready_wf s0 tp th HK0 Et) as Wr.
  pose proof (send_code s0 tp th cth msg HS0 W0 Ec Et Hne) as Hcode.
  set (sr := send_ready s0 tp th) in *.
  assert (wf (put_thd (k_cur s0) (set_p_msg msg cth) sr)) as Wm by by apply (wf_put_same sr _ cth).
  assert (block_st (QMsg tp) (qof s0 (QMsg tp) ++ [k_cur s0]) (set_p_msg msg cth) (U_wtobjp (QMsg tp)) sr =
          block_st (QMsg tp) (qof s0 (QMsg tp) ++ [k_cur s0]) (set_p_msg msg cth) (U_wtobjp (QMsg tp))
            (put_thd (k_cur s0) (set_p_msg msg cth) sr)) as Eb.
  { unfold block_st. change (k_cur (put_thd _ _ sr)) with (k_cur sr). rewrite F1, put_thd_thd. done. }
  rewrite Eb in Hcode.
  destruct (block_sleep (put_thd (k_cur s0) (set_p_msg msg cth) sr) (QMsg tp) (set_p_msg msg cth) (U_wtobjp (QMsg tp))
    CH_STATE_SNDMSGQ (qof s0 (QMsg tp) ++ [k_cur s0]) n' l') with
    (s0 := block_st (QMsg tp) (qof s0 (QMsg tp) ++ [k_cur s0]) (set_p_msg msg cth) (U_wtobjp (QMsg tp))
            (put_thd (k_cur s0) (set_p_msg msg cth) sr))
    as (s1 & E1 & K1 & O1 & N1 & N2 & N3 & N4 & _); try done.
  { change (k_cur (put_thd _ _ sr)) with (k_cur sr). rewrite F1. apply lookup_insert_eq. }
  { change (k_cur (put_thd _ _ sr)) with (k_cur sr). rewrite qof_put_thd, F1, F6 by done.
    by rewrite Permutation_app_comm. }
  change (k_cur (put_thd _ _ sr)) with (k_cur sr) in N2. rewrite F1, D1 in N2.
  eexists s1, _. split.
  { unfold chMsgSend. mgo. rewrite E0. mgo. rewrite <-D1.
    rewrite bind_eq in Hcode. apply rbind_done_inv in Hcode as ([] & sa & Ea & Hcode). rewrite Ea. mgo.
    rewrite bind_eq in Hcode. apply rbind_done_inv in Hcode as ([] & sb & Eb' & Hcode). rewrite Eb'. mgo.
    rewrite bind_eq in Hcode. apply rbind_done_inv in Hcode as ([] & sc & Ec' & Hcode). rewrite Ec'. mgo.
    rewrite bind_eq in Hcode. apply rbind_done_inv in Hcode as (th' & sd & Ed & Hcode). rewrite Ed. mgo.
    rewrite Hcode. mgo. rewrite E1. mgo. done. }
  split_and!; try done.
  - rewrite N3, D1. unfold qof. by rewrite D3.
  - by rewrite N2.
  - by rewrite N2.
  - intros Hst. apply F8 in Hst. rewrite F7 in Hst. apply elem_of_cons in Hst as [->|Hin]; [by left|right].
    by rewrite N4.
  - intros s' m (HK' & Hcur & th' & Eth' & Hu'). mgo. rewrite D1, (rdymsg_ok _ _ _ _ Eth' Hu'). mgo.
    destruct (unlock_user s' HK') as (sf & -> & Huf & _). mgo. eauto.
Qed.

(** chMsgWait with a pending sender: the oldest sender leaves the queue and
    waits in state SNDMSG for the answer; its message is what chMsgGet returns. *)
Theorem chMsgWait_pending s t rest th :
  user s → qof s (QMsg (k_cur s)) = t :: rest → k_thd s !! t = Some th →
  ∃ s', chMsgWait s = Done t s' ∧ user s' ∧ qof s' (QMsg (k_cur s)) = rest ∧
    k_thd s' = <[t := set_p_state CH_STATE_SNDMSG th]> (k_thd s) ∧ chMsgGet t s' = Done (p_msg th) s'.
Proof.
  intros Hu Hq Et. destruct (lock_user s Hu) as (s0 & E0 & HK0 & Hd).
  pose proof Hd as (D1 & D2 & D3 & _). pose proof HK0 as (W0 & O0 & HS0).
  assert (qof s0 (QMsg (k_cur s)) = t :: rest) as Hq0 by (unfold qof; by rewrite D3).
  assert (k_thd s0 !! t = Some th) as Et0 by by rewrite D2.
  destruct (qw_mem _ _ (wf_q _ W0) (QMsg (k_cur s)) t) as (? & ? & Hst & _); [rewrite Hq0; left|]. simplify_eq.
  set (s1 := put_thd t (set_p_state CH_STATE_SNDMSG th) (put_q (QMsg (k_cur s)) rest s0)).
  assert (t ≠ k_cur s0) as Hne by (by apply (wake_ne_cur s0 (QMsg (k_cur s)) t rest W0); rewrite Hq0).
  assert (K s1) as HK1.
  { split_and!; [split| |done].
    - change (k_cur s1) with (k_cur s0).
      replace {[k_cur s0]} with (({[k_cur s0; t]} : gset tid) ∖ {[t]}) by (clear -Hne; set_solver).
      eapply qwf_drop; [|apply lookup_insert_eq|done].
      apply qwf_thd_out; [|by apply elem_of_union_r, elem_of_singleton|by apply (qw_prio _ _ (wf_q _ W0) _ _ Et0)].
      apply (take_qwf s0 (QMsg (k_cur s)) t rest W0); rewrite Hq0; [done|by constructor].
    - destruct (wf_cur _ W0) as (c & Ec & Hc). exists c. simpl. by rewrite lookup_insert_ne.
    - intros x thx. simpl. rewrite lookup_insert. case_decide; [by intros [= <-]|]. apply (wf_uniq _ W0).
    - intros x Hx. unfold s1. rewrite !(prio_of_put_same t th) by done.
      change (x ∈ qof (put_q (QMsg (k_cur s)) rest s0) QReady) in Hx. rewrite qof_put_q_ne in Hx by done. by apply O0. }
  destruct (unlock_user s1 HK1) as (s' & E' & Hu' & _ & B2 & B3 & _). exists s'.
  assert (k_thd s' !! t = Some (set_p_state CH_STATE_SNDMSG th)) as Et' by (rewrite B2; apply lookup_insert_eq).
  split_and!; try done.
  - unfold chMsgWait, chMsgIsPendingI, queue_notempty, Queues.queue_notempty, Queues.queue_isempty.
    mgo. rewrite E0. mgo. rewrite (classI_ok s0 (in_S_I _ HS0)). mgo. rewrite D1.
    fold (qof s0 (QMsg (k_cur s))). rewrite Hq0. simpl. mgo. rewrite D1.
    rewrite (queue_fifo_remove_ok _ t rest) by done. mgo. rewrite (upd_thd_ok _ t th) by done. mgo.
    norm_state s1. rewrite E'. mgo. done.
  - unfold qof. rewrite B3. apply (qof_put_q (QMsg (k_cur s)) rest s0).
  - rewrite B2. simpl. by rewrite D2.
  - unfold chMsgGet. mgo. by rewrite (thd_ok _ _ _ Et').
Qed.

(** chMsgRelease wakes the sender with the answer: the scheduler invariants
    hold at every switch and at the return. *)
Theorem chMsgRelease_correct s t th msg :
  user s → k_thd s !! t = Some th → p_state th = CH_STATE_SNDMSG →
  post K K (chMsgRelease t msg s) (λ _ s', user s').
Proof.
  intros Hu Et Hst. destruct (lock_user s Hu) as (s0 & E0 & (W0 & O0 & HS0) & Hd).
  pose proof Hd as (D1 & D2 & D3 & _).
  assert (k_thd s0 !! t = Some th) as Et0 by by rewrite D2.
  unfold chMsgRelease, chMsgReleaseS. mgo. rewrite E0. mgo. rewrite (thd_ok _ _ _ Et0). mgo.
  rewrite bool_decide_true by done. mgo. rewrite (classS_ok s0 HS0). mgo.
  assert (t ≠ k_cur s0) as Hne.
  { intros ->. destruct (wf_cur _ W0) as (? & ? & ?). congruence. }
  apply unlock_tail, (wakeup_free_post s0 t th msg); try done; try apply W0; try congruence.
  - rewrite union_comm_L. apply qwf_add; [apply W0|]. intros q.
    by apply (unlinked_notin {[k_cur s0]} s0 t th q); [apply W0|..]; rewrite ?Hst.
Qed.
