(* ===== verification/Cond.v ===== *)
(** * Condition variables (os/rt/src/chcond.c)

    Waiting threads queue by priority in [QCond]; the mutex released by a wait
    is the one on top of the caller's stack. *)

From S2P Require Import Prelude TimeMeas Kernel ThreadQueues Sys VTimers Sched Mtx.

Definition chCondObjectInit (cp : addr) : M unit := queue_init (QCond cp).

Definition chCondSignal (cp : addr) : M unit :=
  chSysLock ;;
  b ← queue_notempty (QCond cp);
  (if b : bool then tp ← queue_fifo_remove (QCond cp); chSchWakeupS tp MSG_OK else mret ()) ;;
  chSysUnlock.

Definition chCondSignalI (cp : addr) : M unit :=
  chDbgCheckClassI ;;
  b ← queue_notempty (QCond cp);
  if b : bool then
    tp ← queue_fifo_remove (QCond cp);
    upd_thd tp (set_p_u (U_msg MSG_OK)) ;;
    chSchReadyI tp ;; mret ()
  else mret ().

(** [while (queue_notempty(q)) chSchReadyI(queue_fifo_remove(q))->p_u.rdymsg = MSG_RESET;] *)
Fixpoint broadcast_all (fuel : nat) (cp : addr) : M unit :=
  match fuel with
  | O => fault
  | S fuel =>
      b ← queue_notempty (QCond cp);
      if b : bool then
        tp ← queue_fifo_remove (QCond cp);
        tp ← chSchReadyI tp;
        upd_thd tp (set_p_u (U_msg MSG_RESET)) ;;
        broadcast_all fuel cp
      else mret ()
  end.

Definition chCondBroadcastI (cp : addr) : M unit :=
  chDbgCheckClassI ;; n ← gets (λ s, length (qof s (QCond cp))); broadcast_all (S n) cp.

Definition chCondBroadcast (cp : addr) : M unit :=
  chSysLock ;; chCondBroadcastI cp ;; chSchRescheduleS ;; chSysUnlock.

Definition chCondWaitS (cp : addr) : M Z :=
  ctp ← currp;
  chDbgCheckClassS ;;
  cth ← thd ctp;
  chDbgAssert (bool_decide (p_mtxlist cth ≠ None)) "chCondWaitS" ;;
  top ← chMtxGetNextMutexS;
  mp ← deref (λ _, top);
  chMtxUnlockS mp ;;
  upd_thd ctp (set_p_u (U_wtobjp (QCond cp))) ;;
  queue_prio_insert ctp (QCond cp) ;;
  chSchGoSleepS CH_STATE_WTCOND ;;
  msg ← rdymsg ctp;
  chMtxLockS mp ;;
  mret msg.

Definition chCondWait (cp : addr) : M Z := chSysLock ;; msg ← chCondWaitS cp; chSysUnlock ;; mret msg.

Definition chCondWaitTimeoutS (cp : addr) (time : Z) : M Z :=
  chDbgCheckClassS ;;
  chDbgCheck (negb (time =? TIME_IMMEDIATE)) "chCondWaitTimeoutS" ;;
  ctp ← currp;
  cth ← thd ctp;
  chDbgAssert (bool_decide (p_mtxlist cth ≠ None)) "chCondWaitTimeoutS" ;;
  top ← chMtxGetNextMutexS;
  mp ← deref (λ _, top);
  chMtxUnlockS mp ;;
  upd_thd ctp (set_p_u (U_wtobjp (QCond cp))) ;;
  queue_prio_insert ctp (QCond cp) ;;
  msg ← chSchGoSleepTimeoutS CH_STATE_WTCOND time;
  (if negb (msg =? MSG_TIMEOUT) then chMtxLockS mp else mret ()) ;;
  mret msg.

Definition chCondWaitTimeout (cp : addr) (time : Z) : M Z :=
  chSysLock ;; msg ← chCondWaitTimeoutS cp time; chSysUnlock ;; mret msg.

(** ** Results *)

(** The broadcast loop readies all waiting threads with MSG_RESET. *)
Lemma broadcast_all_ok cp l : ∀ s fuel,
  wf s → in_I s → qof s (QCond cp) = l → (length l < fuel)%nat →
  ∃ s', broadcast_all fuel cp s = Done () s' ∧ wf s' ∧ in_I s' ∧ k_cur s' = k_cur s ∧ k_isr s' = k_isr s ∧
    qof s' (QCond cp) = [] ∧ (∀ q, q ≠ QReady → q ≠ QCond cp → qof s' q = qof s q) ∧
    (∀ x, x ∈ qof s' QReady ↔ x ∈ qof s QReady ∨ x ∈ l) ∧
    (∀ t, k_thd s' !! t = if decide (t ∈ l)
       then set_p_state CH_STATE_READY ∘ set_p_u (U_msg MSG_RESET) <$> k_thd s !! t else k_thd s !! t).
Proof.
  induction l as [|t l IH]; intros s [|fuel] Hw HI Hq Hf; simpl in Hf; try lia; simpl;
    unfold queue_notempty, Queues.queue_notempty, Queues.queue_isempty; mgo; fold (qof s (QCond cp)); rewrite Hq; simpl.
  - mgo. exists s. split_and!; try done. set_solver.
  - mgo. rewrite (queue_fifo_remove_ok (QCond cp) t l) by done. mgo.
    destruct (qw_mem _ _ (wf_q _ Hw) (QCond cp) t) as (th & Et & _); [rewrite Hq; left|].
    assert (qof s (QCond cp) ≡ₚ t :: l) as Hp by by rewrite Hq.
    assert (t ∉ l) as Htl.
    { pose proof (qw_nodup _ _ (wf_q _ Hw) (QCond cp)) as Hnd. rewrite Hq in Hnd. by apply NoDup_cons in Hnd as []. }
    pose proof (wake_code_set_after s (QCond cp) t l th MSG_RESET Hw Hp ltac:(done) Et HI) as Hwk.
    apply rbind_done_inv in Hwk as (t' & sa & -> & Hwk). mgo. rewrite Hwk. mgo.
    destruct (IH (wake_st (QCond cp) l t th MSG_RESET s) fuel) as (s' & E & R1 & R2 & R3 & R4 & R5 & R6 & R7 & R8);
      [|done|by apply wake_st_q|lia|].
    { apply wake_st_wf; try done. rewrite Hq. by constructor. }
    exists s'. split_and!; try done.
    + intros q H1 H2. rewrite R6 by done. by apply wake_st_q_ne.
    + intros x. rewrite R7, wake_st_ready by done. set_solver.
    + intros x. rewrite R8, wake_st_thd. destruct (decide (t = x)) as [<-|Hne].
      * rewrite decide_False, decide_True by set_solver. by rewrite Et.
      * destruct (decide (x ∈ l)); [rewrite decide_True by set_solver|rewrite decide_False by set_solver]; done.
Qed.

(** chCondBroadcastI: all threads waiting on the condition variable, and no
    others, become ready with MSG_RESET, and the queue is empty. *)
Theorem chCondBroadcastI_correct s cp :
  wf s → in_I s →
  ∃ s', chCondBroadcastI cp s = Done () s' ∧ wf s' ∧ qof s' (QCond cp) = [] ∧
    (∀ q, q ≠ QReady → q ≠ QCond cp → qof s' q = qof s q) ∧
    (∀ x, x ∈ qof s' QReady ↔ x ∈ qof s QReady ∨ x ∈ qof s (QCond cp)) ∧
    (∀ t, k_thd s' !! t = if decide (t ∈ qof s (QCond cp))
       then set_p_state CH_STATE_READY ∘ set_p_u (U_msg MSG_RESET) <$> k_thd s !! t else k_thd s !! t).
Proof.
  intros Hw HI. unfold chCondBroadcastI. mgo. rewrite (classI_ok s HI). mgo.
  destruct (broadcast_all_ok cp (qof s (QCond cp)) s (S (length (qof s (QCond cp)))))
    as (s' & E & R1 & _ & _ & _ & R); [done..|lia|]. exists s'. naive_solver.
Qed.

(** chCondWaitS releases the caller's top mutex and queues the caller on the
    condition variable in one step: at the switch the mutex already belongs to
    its first waiting thread (or is free), the caller is in state WTCOND, and all
    invariants hold; when the caller is resumed it locks the mutex again and
    returns the message. *)
Theorem chCondWaitS_correct s cp mp mx cth ntp l :
  K s → mtx_wf s → k_thd s !! k_cur s = Some cth → p_mtxlist cth = Some mp → k_mtx s !! mp = Some mx →
  NOPRIO < p_realprio cth → qof s QReady = ntp :: l →
  ∃ s1 k, chCondWaitS cp s = Switch s1 k ∧ K s1 ∧ mtx_wf s1 ∧
    owner_of s1 mp = head (qof s (QMtx mp)) ∧ k_cur s ∈ qof s1 (QCond cp) ∧
    (p_state <$> k_thd s1 !! k_cur s) = Some CH_STATE_WTCOND ∧
    (∀ s' m, resumed (k_cur s) m s' → k s' = rbind (chMtxLockS mp s') (λ _ x, Done m x)).
Proof.
  intros (Hw & Hok & HS) Hm Ec El Em Hrp Hr.
  destruct (chMtxUnlockS_ok s mp cth mx Hw HS Hm Ec El Em Hrp)
    as (s2 & E2 & W2 & M2 & HS2 & Ec2 & Hready & _ & Hcase).
  assert (owner_of s2 mp = head (qof s (QMtx mp))) as Ho.
  { destruct (qof s (QMtx mp)); by destruct Hcase. }
  destruct (wf_cur _ W2) as (cth2 & Ecth2 & _). 
  destruct (qof s2 QReady) as [|n' l'] eqn:Er.
  { specialize (Hready ntp). rewrite Hr in Hready. set_solver. }
  set (sx := put_thd (k_cur s2) (set_p_u (U_wtobjp (QCond cp)) cth2) s2).
  set (l2 := insert_span (λ c, prio_of sx (k_cur s2) <=? prio_of sx c) (k_cur s2) (qof s2 (QCond cp))).
  destruct (block_sleep s2 (QCond cp) cth2 (U_wtobjp (QCond cp)) CH_STATE_WTCOND l2 n' l') with
    (s0 := block_st (QCond cp) l2 cth2 (U_wtobjp (QCond cp)) s2)
    as (s1 & E1 & K1 & O1 & N1 & N2 & N3 & N4 & N5 & N6); try done.
  { apply insert_span_perm. }
  destruct M2 as [Sh2 Pi2]. assert (k_mtx s1 = k_mtx s2) as Em1 by (destruct O1 as (_ & -> & _); done).
  rewrite Ec2 in N2. eexists s1, _. split.
  { unfold chCondWaitS, chMtxGetNextMutexS. mgo. rewrite (classS_ok s HS). mgo. rewrite (thd_ok _ _ _ Ec). mgo.
    rewrite bool_decide_true by congruence. mgo. rewrite (thd_ok _ _ _ Ec). mgo. rewrite El. unfold deref. mgo.
    rewrite E2. mgo. rewrite <-Ec2. rewrite (upd_thd_ok _ _ _ _ Ecth2). mgo. unfold queue_prio_insert. mgo.
    norm_state (block_st (QCond cp) l2 cth2 (U_wtobjp (QCond cp)) s2). rewrite E1. mgo. done. }
  split_and!; try done.
  - apply (mtx_wf_static s2); try done.
    + intros m w. rewrite N5 by done. apply (ms_held _ Sh2).
    + intros m. rewrite N5 by done. apply (ms_sorted _ Sh2).
    + intros m t w Hot. rewrite N5 by done. by apply (Pi2 m).
  - unfold owner_of. rewrite Em1. exact Ho.
  - rewrite N3, <-Ec2. unfold l2. rewrite insert_span_perm. left.
  - by rewrite N2.
  - intros s' m (_ & Hcur & th' & Eth' & Hu'). mgo. rewrite Ec2, (rdymsg_ok _ _ _ _ Eth' Hu'). done.
Qed.
