(* ===== verification/IOQueues.v ===== *)
(** * I/O queues (os/rt/src/chqueues.c, os/rt/include/chqueues.h)

    Byte queues between a thread and an interrupt handler.  [q_counter] is the
    number of bytes of an input queue and the number of free slots of an output
    queue.  [notify] runs a notification callback; [fuel] bounds how often a
    waiting thread may be resumed without finding a byte (a slot). *)

From S2P Require Import Prelude Ring TimeMeas Kernel ThreadQueues Sys VTimers Sched Thd.

(** ** Access *)

Definition ioq (qp : addr) : M ioqueue := deref (λ s, k_ioq s !! qp).
Definition set_ioq (qp : addr) (q : ioqueue) : M unit :=
  modify (λ s, set_k_ioq (<[qp := q]> (k_ioq s)) s).

Definition q_set (c : Z) (b : list Z) (w r : nat) (q : ioqueue) : ioqueue :=
  mkIOQ (q_waiting q) c b w r (q_notify q).

Definition chQSizeX (q : ioqueue) : Z := Z.of_nat (length (q_buffer q)).
Definition chQSpaceI (q : ioqueue) : Z := q_counter q.

(** [*q->q_wrptr++ = b] with the wrap and the counter changed by [d]. *)
Definition q_write (d b : Z) (q : ioqueue) : option ioqueue :=
  if (q_wrptr q <? length (q_buffer q))%nat then
    Some (q_set (q_counter q + d) (<[q_wrptr q := b]> (q_buffer q))
            (ring_succ (length (q_buffer q)) (q_wrptr q)) (q_rdptr q) q)
  else None.

(** [b = *q->q_rdptr++] with the wrap and the counter changed by [d]. *)
Definition q_read (d : Z) (q : ioqueue) : option (Z * ioqueue) :=
  b ← q_buffer q !! q_rdptr q;
  Some (b, q_set (q_counter q + d) (q_buffer q) (q_wrptr q) (ring_succ (length (q_buffer q)) (q_rdptr q)) q).

(** ** Input queues *)

Definition chIQObjectInit (iqp waiting : addr) (buf : list Z) (infy : option positive) : M unit :=
  chThdQueueObjectInit waiting ;; set_ioq iqp (mkIOQ waiting 0 buf 0 0 infy).

Definition chIQGetFullI (iqp : addr) : M Z := chDbgCheckClassI ;; q ← ioq iqp; mret (chQSpaceI q).
Definition chIQGetEmptyI (iqp : addr) : M Z :=
  chDbgCheckClassI ;; q ← ioq iqp; mret (chQSizeX q - chQSpaceI q).
Definition chIQIsEmptyI (iqp : addr) : M bool := chDbgCheckClassI ;; q ← ioq iqp; mret (chQSpaceI q =? 0).
Definition chIQIsFullI (iqp : addr) : M bool :=
  chDbgCheckClassI ;; q ← ioq iqp; mret ((q_wrptr q =? q_rdptr q)%nat && negb (q_counter q =? 0)).

Definition chIQResetI (iqp : addr) : M unit :=
  chDbgCheckClassI ;;
  q ← ioq iqp;
  set_ioq iqp (q_set 0 (q_buffer q) 0 0 q) ;;
  chThdDequeueAllI (q_waiting q) Q_RESET.

Definition chIQPutI (iqp : addr) (b : Z) : M Z :=
  chDbgCheckClassI ;;
  full ← chIQIsFullI iqp;
  if full : bool then mret Q_FULL
  else
    q ← ioq iqp;
    q' ← deref (λ _, q_write 1 b q);
    set_ioq iqp q' ;;
    chThdDequeueNextI (q_waiting q) Q_OK ;;
    mret Q_OK.

Section Notify.
Variable notify : positive → M unit.

Definition run_notify (f : option positive) : M unit :=
  match f with Some g => notify g | None => mret () end.

(** The inner wait loop of chIQGetTimeout: the result is a negative message or
    [None] when there is a byte. *)
Fixpoint iq_wait (fuel : nat) (iqp : addr) (timeout : Z) : M (option Z) :=
  empty ← chIQIsEmptyI iqp;
  if empty : bool then
    match fuel with
    | O => fault
    | S fuel =>
        q ← ioq iqp;
        msg ← chThdEnqueueTimeoutS (q_waiting q) timeout;
        if msg <? Q_OK then mret (Some msg) else iq_wait fuel iqp timeout
    end
  else mret None.

Definition iq_take (iqp : addr) : M Z :=
  q ← ioq iqp; r ← deref (λ _, q_read (-1) q); set_ioq iqp r.2 ;; mret r.1.

Definition chIQGetTimeout (fuel : nat) (iqp : addr) (timeout : Z) : M Z :=
  chSysLock ;;
  q ← ioq iqp;
  run_notify (q_notify q) ;;
  w ← iq_wait fuel iqp timeout;
  match w with
  | Some msg => chSysUnlock ;; mret msg
  | None => b ← iq_take iqp; chSysUnlock ;; mret b
  end.

Definition chIQGet (fuel : nat) (iqp : addr) : M Z := chIQGetTimeout fuel iqp TIME_INFINITE.

(** The wait of chIQReadTimeout stops on any message but [Q_OK]. *)
Fixpoint iq_wait_ok (fuel : nat) (iqp : addr) (timeout : Z) : M bool :=
  empty ← chIQIsEmptyI iqp;
  if empty : bool then
    match fuel with
    | O => fault
    | S fuel =>
        q ← ioq iqp;
        msg ← chThdEnqueueTimeoutS (q_waiting q) timeout;
        if negb (msg =? Q_OK) then mret false else iq_wait_ok fuel iqp timeout
    end
  else mret true.

(** The bytes read so far are the result; the caller holds the lock on entry. *)
Fixpoint iq_read_loop (n fuel : nat) (nfy : option positive) (iqp : addr) (timeout : Z) (acc : list Z) : M (list Z) :=
  match n with
  | O => mret acc
  | S n =>
      chSysLock ;;
      run_notify nfy ;;
      ok ← iq_wait_ok fuel iqp timeout;
      if ok : bool then
        b ← iq_take iqp;
        chSysUnlock ;;
        iq_read_loop n fuel nfy iqp timeout (acc ++ [b])
      else chSysUnlock ;; mret acc
  end.

Definition chIQReadTimeout (fuel : nat) (iqp : addr) (n : nat) (timeout : Z) : M (list Z) :=
  q ← ioq iqp;
  chDbgCheck (0 <? n)%nat "chIQReadTimeout" ;;
  iq_read_loop n fuel (q_notify q) iqp timeout [].

(** ** Output queues *)

Definition chOQObjectInit (oqp waiting : addr) (buf : list Z) (onfy : option positive) : M unit :=
  chThdQueueObjectInit waiting ;; set_ioq oqp (mkIOQ waiting (Z.of_nat (length buf)) buf 0 0 onfy).

Definition chOQGetFullI (oqp : addr) : M Z :=
  chDbgCheckClassI ;; q ← ioq oqp; mret (chQSizeX q - chQSpaceI q).
Definition chOQGetEmptyI (oqp : addr) : M Z := chDbgCheckClassI ;; q ← ioq oqp; mret (chQSpaceI q).
Definition chOQIsEmptyI (oqp : addr) : M bool :=
  chDbgCheckClassI ;; q ← ioq oqp; mret ((q_wrptr q =? q_rdptr q)%nat && negb (q_counter q =? 0)).
Definition chOQIsFullI (oqp : addr) : M bool := chDbgCheckClassI ;; q ← ioq oqp; mret (chQSpaceI q =? 0).

Definition chOQResetI (oqp : addr) : M unit :=
  chDbgCheckClassI ;;
  q ← ioq oqp;
  set_ioq oqp (q_set (chQSizeX q) (q_buffer q) 0 0 q) ;;
  chThdDequeueAllI (q_waiting q) Q_RESET.

Fixpoint oq_wait (fuel : nat) (oqp : addr) (timeout : Z) : M (option Z) :=
  full ← chOQIsFullI oqp;
  if full : bool then
    match fuel with
    | O => fault
    | S fuel =>
        q ← ioq oqp;
        msg ← chThdEnqueueTimeoutS (q_waiting q) timeout;
        if msg <? Q_OK then mret (Some msg) else oq_wait fuel oqp timeout
    end
  else mret None.

Definition oq_store (oqp : addr) (b : Z) : M unit :=
  q ← ioq oqp; q' ← deref (λ _, q_write (-1) b q); set_ioq oqp q'.

Definition chOQPutTimeout (fuel : nat) (oqp : addr) (b timeout : Z) : M Z :=
  chSysLock ;;
  w ← oq_wait fuel oqp timeout;
  match w with
  | Some msg => chSysUnlock ;; mret msg
  | None =>
      oq_store oqp b ;;
      q ← ioq oqp;
      run_notify (q_notify q) ;;
      chSysUnlock ;; mret Q_OK
  end.

Definition chOQPut (fuel : nat) (oqp : addr) (b : Z) : M Z := chOQPutTimeout fuel oqp b TIME_INFINITE.

Definition chOQGetI (oqp : addr) : M Z :=
  chDbgCheckClassI ;;
  empty ← chOQIsEmptyI oqp;
  if empty : bool then mret Q_EMPTY
  else
    q ← ioq oqp;
    r ← deref (λ _, q_read 1 q);
    set_ioq oqp r.2 ;;
    chThdDequeueNextI (q_waiting q) Q_OK ;;
    mret r.1.

Fixpoint oq_wait_ok (fuel : nat) (oqp : addr) (timeout : Z) : M bool :=
  full ← chOQIsFullI oqp;
  if full : bool then
    match fuel with
    | O => fault
    | S fuel =>
        q ← ioq oqp;
        msg ← chThdEnqueueTimeoutS (q_waiting q) timeout;
        if negb (msg =? Q_OK) then mret false else oq_wait_ok fuel oqp timeout
    end
  else mret true.

(** The number of bytes written is the result. *)
Fixpoint oq_write_loop (bs : list Z) (fuel : nat) (nfy : option positive) (oqp : addr) (timeout w : Z) : M Z :=
  match bs with
  | [] => mret w
  | b :: bs =>
      chSysLock ;;
      ok ← oq_wait_ok fuel oqp timeout;
      if ok : bool then
        oq_store oqp b ;;
        run_notify nfy ;;
        chSysUnlock ;;
        oq_write_loop bs fuel nfy oqp timeout (w + 1)
      else chSysUnlock ;; mret w
  end.

Definition chOQWriteTimeout (fuel : nat) (oqp : addr) (bs : list Z) (timeout : Z) : M Z :=
  q ← ioq oqp;
  chDbgCheck (match bs with [] => false | _ => true end) "chOQWriteTimeout" ;;
  oq_write_loop bs fuel (q_notify q) oqp timeout 0.

End Notify.

(** ** The queues as bounded byte FIFOs *)

(** The input queue [iqp] holds the bytes [l], oldest first. *)
Definition iq_inv (iqp : addr) (l : list Z) (s : kst) : Prop :=
  ∃ q, k_ioq s !! iqp = Some q ∧ ring_rep (q_buffer q) (q_wrptr q) (q_rdptr q) l ∧
    q_counter q = Z.of_nat (length l).

(** The output queue [oqp] holds the bytes [l], oldest first. *)
Definition oq_inv (oqp : addr) (l : list Z) (s : kst) : Prop :=
  ∃ q, k_ioq s !! oqp = Some q ∧ ring_rep (q_buffer q) (q_wrptr q) (q_rdptr q) l ∧
    q_counter q = Z.of_nat (length (q_buffer q)) - Z.of_nat (length l).

Lemma ioq_ok s qp q : k_ioq s !! qp = Some q → ioq qp s = Done q s.
Proof. intros E. unfold ioq, deref. by rewrite E. Qed.

Definition ioq_st (qp : addr) (q : ioqueue) (s : kst) : kst := set_k_ioq (<[qp := q]> (k_ioq s)) s.

(** The fullness test of an input queue (the emptiness test of an output queue). *)
Lemma iq_full_test q l :
  ring_rep (q_buffer q) (q_wrptr q) (q_rdptr q) l → q_counter q = Z.of_nat (length l) →
  (q_wrptr q =? q_rdptr q)%nat && negb (q_counter q =? 0) = (length (q_buffer q) <=? length l)%nat.
Proof.
  intros Hr Hc. pose proof (rr_rd _ _ _ _ Hr). pose proof (rr_len _ _ _ _ Hr). pose proof (ring_eq _ _ _ _ Hr) as He.
  destruct (Nat.eqb_spec (q_wrptr q) (q_rdptr q)) as [E|E], (Z.eqb_spec (q_counter q) 0), (Nat.leb_spec (length (q_buffer q)) (length l));
    simpl; try lia; try done.
  - apply He in E as [->|]; simpl in *; lia.
Qed.

Lemma oq_empty_test q l :
  ring_rep (q_buffer q) (q_wrptr q) (q_rdptr q) l →
  q_counter q = Z.of_nat (length (q_buffer q)) - Z.of_nat (length l) →
  (q_wrptr q =? q_rdptr q)%nat && negb (q_counter q =? 0) = bool_decide (l = []).
Proof.
  intros Hr Hc. pose proof (rr_rd _ _ _ _ Hr). pose proof (rr_len _ _ _ _ Hr). pose proof (ring_eq _ _ _ _ Hr) as He.
  destruct (Nat.eqb_spec (q_wrptr q) (q_rdptr q)) as [E|E], (Z.eqb_spec (q_counter q) 0); simpl;
    case_bool_decide as Hl; subst; simpl in *; try lia; try done.
  - apply He in E as [->|]; [done|]. lia.
  - destruct E. apply He. by left.
Qed.

Lemma chIQPutI_ok s iqp q l b :
  wf s → in_I s → k_ioq s !! iqp = Some q → iq_inv iqp l s →
  ((length (q_buffer q) ≤ length l)%nat → chIQPutI iqp b s = Done Q_FULL s) ∧
  ((length l < length (q_buffer q))%nat →
     ∃ s', chIQPutI iqp b s = Done Q_OK s' ∧ wf s' ∧ in_I s' ∧ iq_inv iqp (l ++ [b]) s' ∧
       qof s' (QThq (q_waiting q)) = tail (qof s (QThq (q_waiting q))) ∧
       (∀ t, k_thd s' !! t = if decide (head (qof s (QThq (q_waiting q))) = Some t)
          then set_p_state CH_STATE_READY ∘ set_p_u (U_msg Q_OK) <$> k_thd s !! t else k_thd s !! t) ∧
       k_evl s' = k_evl s ∧ k_evs s' = k_evs s ∧ k_isr s' = k_isr s ∧ (∃ q', k_ioq s' = <[iqp := q']> (k_ioq s) ∧ length (q_buffer q') = length (q_buffer q))).
Proof.
  intros Hw HI Eq (q' & Eq' & Hr & Hc). simplify_eq.
  assert (chIQIsFullI iqp s = Done (length (q_buffer q) <=? length l)%nat s) as Ef.
  { unfold chIQIsFullI. mgo. rewrite (classI_ok s HI). mgo. rewrite (ioq_ok _ _ _ Eq). mgo.
    by rewrite (iq_full_test q l). }
  unfold chIQPutI. split; intros Hl; mgo; rewrite (classI_ok s HI); mgo; rewrite Ef; mgo.
  - destruct (Nat.leb_spec (length (q_buffer q)) (length l)); [done|lia].
  - destruct (Nat.leb_spec (length (q_buffer q)) (length l)); [lia|]. mgo. rewrite (ioq_ok _ _ _ Eq). mgo.
    destruct (ring_push _ _ _ _ b Hr Hl) as [Hwr Hr']. unfold q_write.
    destruct (Nat.ltb_spec (q_wrptr q) (length (q_buffer q))); [|lia]. unfold deref, set_ioq. mgo.
    set (q' := q_set _ _ _ _ q). set (s1 := ioq_st iqp q' s).
    assert (wf s1) as W1 by by apply (wf_ext s). norm_state s1. rewrite (dequeue_next_ok _ _ s1 W1 HI). mgo.
    destruct (dequeue_next_facts (q_waiting q) Q_OK s1 W1) as (W2 & _ & I2 & L2 & Q2 & H2 & T2).
    eexists. split; [done|]. split_and!; try done.
    + unfold in_I. rewrite I2, L2. apply HI.
    + exists q'. rewrite Q2. simpl. rewrite lookup_insert_eq. split; [done|]. split; [done|].
      rewrite length_app. simpl. lia.
    + apply (dequeue_next_events (q_waiting q) Q_OK s1).
    + apply (dequeue_next_events (q_waiting q) Q_OK s1).
    + exists q'. split; [exact Q2|]. apply length_insert.
Qed.

(** chIQPutI: on a full queue it returns Q_FULL and changes nothing;
    otherwise the byte is appended, the oldest thread waiting for data, if any,
    becomes ready with Q_OK and no other thread changes. *)
Theorem chIQPutI_correct s iqp q l b :
  wf s → in_I s → k_ioq s !! iqp = Some q → iq_inv iqp l s →
  ((length (q_buffer q) ≤ length l)%nat → chIQPutI iqp b s = Done Q_FULL s) ∧
  ((length l < length (q_buffer q))%nat →
     ∃ s', chIQPutI iqp b s = Done Q_OK s' ∧ wf s' ∧ in_I s' ∧ iq_inv iqp (l ++ [b]) s' ∧
       qof s' (QThq (q_waiting q)) = tail (qof s (QThq (q_waiting q))) ∧
       (∀ t, k_thd s' !! t = if decide (head (qof s (QThq (q_waiting q))) = Some t)
          then set_p_state CH_STATE_READY ∘ set_p_u (U_msg Q_OK) <$> k_thd s !! t else k_thd s !! t)).
Proof.
  intros Hw HI Eq Hi. destruct (chIQPutI_ok s iqp q l b Hw HI Eq Hi) as [H1 H2]. split; [done|].
  intros Hl. destruct (H2 Hl) as (s' & ? & ? & ? & ? & ? & ? & _). by exists s'.
Qed.

(** chOQGetI: on an empty queue it returns Q_EMPTY and changes nothing;
    otherwise the oldest byte is returned and removed, and the oldest thread
    waiting for room, if any, becomes ready with Q_OK. *)
Theorem chOQGetI_correct s oqp q l :
  wf s → in_I s → k_ioq s !! oqp = Some q → oq_inv oqp l s →
  match l with
  | [] => chOQGetI oqp s = Done Q_EMPTY s
  | b :: l' =>
      ∃ s', chOQGetI oqp s = Done b s' ∧ wf s' ∧ in_I s' ∧ oq_inv oqp l' s' ∧
        qof s' (QThq (q_waiting q)) = tail (qof s (QThq (q_waiting q))) ∧
        (∀ t, k_thd s' !! t = if decide (head (qof s (QThq (q_waiting q))) = Some t)
           then set_p_state CH_STATE_READY ∘ set_p_u (U_msg Q_OK) <$> k_thd s !! t else k_thd s !! t) ∧
        k_evl s' = k_evl s ∧ k_evs s' = k_evs s ∧ k_isr s' = k_isr s ∧ (∃ q', k_ioq s' = <[oqp := q']> (k_ioq s) ∧ length (q_buffer q') = length (q_buffer q))
  end.
Proof.
  intros Hw HI Eq (q' & Eq' & Hr & Hc). simplify_eq.
  assert (chOQIsEmptyI oqp s = Done (bool_decide (l = [])) s) as Ee.
  { unfold chOQIsEmptyI. mgo. rewrite (classI_ok s HI). mgo. rewrite (ioq_ok _ _ _ Eq). mgo.
    by rewrite (oq_empty_test q l). }
  unfold chOQGetI. destruct l as [|b l]; mgo; rewrite (classI_ok s HI); mgo; rewrite Ee; mgo; [done|].
  rewrite bool_decide_false by done. mgo. rewrite (ioq_ok _ _ _ Eq). mgo.
  destruct (ring_pop _ _ _ _ _ Hr) as [Hb Hr']. unfold q_read, deref, set_ioq. rewrite Hb. simpl. mgo.
  set (q' := q_set _ _ _ _ q). set (s1 := ioq_st oqp q' s).
  assert (wf s1) as W1 by by apply (wf_ext s). norm_state s1. rewrite (dequeue_next_ok _ _ s1 W1 HI). mgo.
  destruct (dequeue_next_facts (q_waiting q) Q_OK s1 W1) as (W2 & _ & I2 & L2 & Q2 & H2 & T2).
  eexists. split; [done|]. split_and!; try done.
  - unfold in_I. rewrite I2, L2. apply HI.
  - exists q'. rewrite Q2. cbn [k_ioq set_k_ioq ioq_st s1]. rewrite lookup_insert_eq. split; [done|]. split; [done|].
    simpl in *. lia.
  - apply (dequeue_next_events (q_waiting q) Q_OK s1).
  - apply (dequeue_next_events (q_waiting q) Q_OK s1).
  - exists q'. split; [exact Q2|done].
Qed.
