(* ===== verification/UsbBase.v ===== *)
(** * The USB driver: data and register level operations
      (os/hal/include/usb.h, the types and the simple operations of
      os/hal/ports/STM32/LLD/OTGv1/usb_lld.c and usb_lld.h)

    A driver is a record beside the kernel state.  The registers of the OTG
    peripheral hold what was last written to them; what the hardware shows when
    it is read (interrupt flags, FIFO levels) is an argument, and the waits for
    the hardware to finish a reset or a flush are left out. *)

From S2P Require Import Prelude TimeMeas Kernel ThreadQueues Sys VTimers Sched Thd.

(** ** Types of usb.h *)

Inductive usbstate := USB_UNINIT | USB_STOP | USB_READY | USB_SELECTED | USB_ACTIVE.
Inductive usbepstatus := EP_STATUS_DISABLED | EP_STATUS_STALLED | EP_STATUS_ACTIVE.
Inductive usbep0state :=
  | USB_EP0_WAITING_SETUP | USB_EP0_TX | USB_EP0_WAITING_TX0 | USB_EP0_WAITING_STS
  | USB_EP0_RX | USB_EP0_SENDING_STS | USB_EP0_ERROR.
Inductive usbevent :=
  | USB_EVENT_RESET | USB_EVENT_ADDRESS | USB_EVENT_CONFIGURED | USB_EVENT_SUSPEND | USB_EVENT_WAKEUP | USB_EVENT_STALLED.
#[export] Instance usbstate_eq_dec : EqDecision usbstate.
Proof. solve_decision. Defined.
#[export] Instance usbep0state_eq_dec : EqDecision usbep0state.
Proof. solve_decision. Defined.

(** Where a transfer reads or writes: the fields [status] and [configuration] of
    the driver, the constant status words, or a buffer of the application. *)
Inductive uptr := PNull | PStatus | PConfiguration | PZeroStatus | PActiveStatus | PHaltedStatus | PMem (a : addr).

Record USBDescriptor := mkUD { ud_size : Z; ud_string : uptr }.

(** ** Types of usb_lld.h

    Functions of the application are named by numbers. *)

Record USBConfig := mkUC { event_cb : option positive; get_descriptor_cb : positive; requests_hook_cb : option positive; sof_cb : option positive }.

(** An endpoint callback. *)
Inductive epcb := Ep0Setup | Ep0In | Ep0Out | EpUser (f : positive).

(** USBInEndpointState and USBOutEndpointState have the same layout and share
    the memory of the endpoint 0; a linear buffer is a place and a position. *)
Inductive epmode := Linear (p : uptr) (off : nat) | Queue (q : addr).
Record epstate := mkES {
  es_queued : bool;
  es_size : Z;
  es_cnt : Z;
  es_mode : epmode;
  es_totsize : Z
}.
Definition set_es_queued (v : bool) (r : epstate) : epstate := mkES v (es_size r) (es_cnt r) (es_mode r) (es_totsize r).
Definition set_es_size (v : Z) (r : epstate) : epstate := mkES (es_queued r) v (es_cnt r) (es_mode r) (es_totsize r).
Definition set_es_cnt (v : Z) (r : epstate) : epstate := mkES (es_queued r) (es_size r) v (es_mode r) (es_totsize r).
Definition set_es_mode (v : epmode) (r : epstate) : epstate := mkES (es_queued r) (es_size r) (es_cnt r) v (es_totsize r).
Definition set_es_totsize (v : Z) (r : epstate) : epstate := mkES (es_queued r) (es_size r) (es_cnt r) (es_mode r) v.

Record USBEndpointConfig := mkEPC {
  ep_mode : Z; setup_cb : option epcb; in_cb : option epcb; out_cb : option epcb; in_maxsize : Z; out_maxsize : Z;
  in_state : option addr; out_state : option addr; in_multiplier : Z; setup_buf : option addr
}.

Record otg_params := mkOP { rx_fifo_size : Z; otg_ram_size : Z; num_endpoints : nat }.

(** The registers, and the words written to each transmit FIFO. *)
Record otg_in_ep := mkIE {
  DIEPCTL : Z;
  DIEPTSIZ : Z
}.
Definition set_DIEPCTL (v : Z) (r : otg_in_ep) : otg_in_ep := mkIE v (DIEPTSIZ r).
Definition set_DIEPTSIZ (v : Z) (r : otg_in_ep) : otg_in_ep := mkIE (DIEPCTL r) v.
Record otg_out_ep := mkOE {
  DOEPCTL : Z;
  DOEPTSIZ : Z
}.
Definition set_DOEPCTL (v : Z) (r : otg_out_ep) : otg_out_ep := mkOE v (DOEPTSIZ r).
Definition set_DOEPTSIZ (v : Z) (r : otg_out_ep) : otg_out_ep := mkOE (DOEPCTL r) v.
Record otg_regs := mkOTG {
  GAHBCFG : Z;
  GUSBCFG : Z;
  GCCFG : Z;
  PCGCCTL : Z;
  GINTMSK : Z;
  GRXFSIZ : Z;
  DIEPTXF0 : Z;
  DIEPTXF : list Z;
  DCFG : Z;
  DIEPMSK : Z;
  DOEPMSK : Z;
  DAINTMSK : Z;
  DIEPEMPMSK : Z;
  ie : list otg_in_ep;
  oe : list otg_out_ep;
  FIFO : list (list Z)
}.
Definition set_GAHBCFG (v : Z) (r : otg_regs) : otg_regs := mkOTG v (GUSBCFG r) (GCCFG r) (PCGCCTL r) (GINTMSK r) (GRXFSIZ r) (DIEPTXF0 r) (DIEPTXF r) (DCFG r) (DIEPMSK r) (DOEPMSK r) (DAINTMSK r) (DIEPEMPMSK r) (ie r) (oe r) (FIFO r).
Definition set_GUSBCFG (v : Z) (r : otg_regs) : otg_regs := mkOTG (GAHBCFG r) v (GCCFG r) (PCGCCTL r) (GINTMSK r) (GRXFSIZ r) (DIEPTXF0 r) (DIEPTXF r) (DCFG r) (DIEPMSK r) (DOEPMSK r) (DAINTMSK r) (DIEPEMPMSK r) (ie r) (oe r) (FIFO r).
Definition set_GCCFG (v : Z) (r : otg_regs) : otg_regs := mkOTG (GAHBCFG r) (GUSBCFG r) v (PCGCCTL r) (GINTMSK r) (GRXFSIZ r) (DIEPTXF0 r) (DIEPTXF r) (DCFG r) (DIEPMSK r) (DOEPMSK r) (DAINTMSK r) (DIEPEMPMSK r) (ie r) (oe r) (FIFO r).
Definition set_PCGCCTL (v : Z) (r : otg_regs) : otg_regs := mkOTG (GAHBCFG r) (GUSBCFG r) (GCCFG r) v (GINTMSK r) (GRXFSIZ r) (DIEPTXF0 r) (DIEPTXF r) (DCFG r) (DIEPMSK r) (DOEPMSK r) (DAINTMSK r) (DIEPEMPMSK r) (ie r) (oe r) (FIFO r).
Definition set_GINTMSK (v : Z) (r : otg_regs) : otg_regs := mkOTG (GAHBCFG r) (GUSBCFG r) (GCCFG r) (PCGCCTL r) v (GRXFSIZ r) (DIEPTXF0 r) (DIEPTXF r) (DCFG r) (DIEPMSK r) (DOEPMSK r) (DAINTMSK r) (DIEPEMPMSK r) (ie r) (oe r) (FIFO r).
Definition set_GRXFSIZ (v : Z) (r : otg_regs) : otg_regs := mkOTG (GAHBCFG r) (GUSBCFG r) (GCCFG r) (PCGCCTL r) (GINTMSK r) v (DIEPTXF0 r) (DIEPTXF r) (DCFG r) (DIEPMSK r) (DOEPMSK r) (DAINTMSK r) (DIEPEMPMSK r) (ie r) (oe r) (FIFO r).
Definition set_DIEPTXF0 (v : Z) (r : otg_regs) : otg_regs := mkOTG (GAHBCFG r) (GUSBCFG r) (GCCFG r) (PCGCCTL r) (GINTMSK r) (GRXFSIZ r) v (DIEPTXF r) (DCFG r) (DIEPMSK r) (DOEPMSK r) (DAINTMSK r) (DIEPEMPMSK r) (ie r) (oe r) (FIFO r).
Definition set_DIEPTXF (v : list Z) (r : otg_regs) : otg_regs := mkOTG (GAHBCFG r) (GUSBCFG r) (GCCFG r) (PCGCCTL r) (GINTMSK r) (GRXFSIZ r) (DIEPTXF0 r) v (DCFG r) (DIEPMSK r) (DOEPMSK r) (DAINTMSK r) (DIEPEMPMSK r) (ie r) (oe r) (FIFO r).
Definition set_DCFG (v : Z) (r : otg_regs) : otg_regs := mkOTG (GAHBCFG r) (GUSBCFG r) (GCCFG r) (PCGCCTL r) (GINTMSK r) (GRXFSIZ r) (DIEPTXF0 r) (DIEPTXF r) v (DIEPMSK r) (DOEPMSK r) (DAINTMSK r) (DIEPEMPMSK r) (ie r) (oe r) (FIFO r).
Definition set_DIEPMSK (v : Z) (r : otg_regs) : otg_regs := mkOTG (GAHBCFG r) (GUSBCFG r) (GCCFG r) (PCGCCTL r) (GINTMSK r) (GRXFSIZ r) (DIEPTXF0 r) (DIEPTXF r) (DCFG r) v (DOEPMSK r) (DAINTMSK r) (DIEPEMPMSK r) (ie r) (oe r) (FIFO r).
Definition set_DOEPMSK (v : Z) (r : otg_regs) : otg_regs := mkOTG (GAHBCFG r) (GUSBCFG r) (GCCFG r) (PCGCCTL r) (GINTMSK r) (GRXFSIZ r) (DIEPTXF0 r) (DIEPTXF r) (DCFG r) (DIEPMSK r) v (DAINTMSK r) (DIEPEMPMSK r) (ie r) (oe r) (FIFO r).
Definition set_DAINTMSK (v : Z) (r : otg_regs) : otg_regs := mkOTG (GAHBCFG r) (GUSBCFG r) (GCCFG r) (PCGCCTL r) (GINTMSK r) (GRXFSIZ r) (DIEPTXF0 r) (DIEPTXF r) (DCFG r) (DIEPMSK r) (DOEPMSK r) v (DIEPEMPMSK r) (ie r) (oe r) (FIFO r).
Definition set_DIEPEMPMSK (v : Z) (r : otg_regs) : otg_regs := mkOTG (GAHBCFG r) (GUSBCFG r) (GCCFG r) (PCGCCTL r) (GINTMSK r) (GRXFSIZ r) (DIEPTXF0 r) (DIEPTXF r) (DCFG r) (DIEPMSK r) (DOEPMSK r) (DAINTMSK r) v (ie r) (oe r) (FIFO r).
Definition set_ie (v : list otg_in_ep) (r : otg_regs) : otg_regs := mkOTG (GAHBCFG r) (GUSBCFG r) (GCCFG r) (PCGCCTL r) (GINTMSK r) (GRXFSIZ r) (DIEPTXF0 r) (DIEPTXF r) (DCFG r) (DIEPMSK r) (DOEPMSK r) (DAINTMSK r) (DIEPEMPMSK r) v (oe r) (FIFO r).
Definition set_oe (v : list otg_out_ep) (r : otg_regs) : otg_regs := mkOTG (GAHBCFG r) (GUSBCFG r) (GCCFG r) (PCGCCTL r) (GINTMSK r) (GRXFSIZ r) (DIEPTXF0 r) (DIEPTXF r) (DCFG r) (DIEPMSK r) (DOEPMSK r) (DAINTMSK r) (DIEPEMPMSK r) (ie r) v (FIFO r).
Definition set_FIFO (v : list (list Z)) (r : otg_regs) : otg_regs := mkOTG (GAHBCFG r) (GUSBCFG r) (GCCFG r) (PCGCCTL r) (GINTMSK r) (GRXFSIZ r) (DIEPTXF0 r) (DIEPTXF r) (DCFG r) (DIEPMSK r) (DOEPMSK r) (DAINTMSK r) (DIEPEMPMSK r) (ie r) (oe r) v.

(** ** The driver *)

Record usbdrv := mkUSB {
  u_state : usbstate;
  u_config : option USBConfig;
  u_transmitting : Z;
  u_receiving : Z;
  u_epc : list (option USBEndpointConfig);
  u_in_params : list (option addr);
  u_out_params : list (option addr);
  u_ep0state : usbep0state;
  u_ep0next : uptr;
  u_ep0n : Z;
  u_ep0endcb : option positive;
  u_setup : list Z;
  u_status : Z;
  u_address : Z;
  u_configuration : Z;
  u_otg : otg_regs;
  u_params : otg_params;
  u_pmnext : Z;
  u_txpending : Z;
  u_wait : addr;
  u_tr : option tid;
  u_eps : gmap addr epstate;
  u_mem : gmap addr (list Z)
}.
Definition set_u_state (v : usbstate) (r : usbdrv) : usbdrv := mkUSB v (u_config r) (u_transmitting r) (u_receiving r) (u_epc r) (u_in_params r) (u_out_params r) (u_ep0state r) (u_ep0next r) (u_ep0n r) (u_ep0endcb r) (u_setup r) (u_status r) (u_address r) (u_configuration r) (u_otg r) (u_params r) (u_pmnext r) (u_txpending r) (u_wait r) (u_tr r) (u_eps r) (u_mem r).
Definition set_u_config (v : option USBConfig) (r : usbdrv) : usbdrv := mkUSB (u_state r) v (u_transmitting r) (u_receiving r) (u_epc r) (u_in_params r) (u_out_params r) (u_ep0state r) (u_ep0next r) (u_ep0n r) (u_ep0endcb r) (u_setup r) (u_status r) (u_address r) (u_configuration r) (u_otg r) (u_params r) (u_pmnext r) (u_txpending r) (u_wait r) (u_tr r) (u_eps r) (u_mem r).
Definition set_u_transmitting (v : Z) (r : usbdrv) : usbdrv := mkUSB (u_state r) (u_config r) v (u_receiving r) (u_epc r) (u_in_params r) (u_out_params r) (u_ep0state r) (u_ep0next r) (u_ep0n r) (u_ep0endcb r) (u_setup r) (u_status r) (u_address r) (u_configuration r) (u_otg r) (u_params r) (u_pmnext r) (u_txpending r) (u_wait r) (u_tr r) (u_eps r) (u_mem r).
Definition set_u_receiving (v : Z) (r : usbdrv) : usbdrv := mkUSB (u_state r) (u_config r) (u_transmitting r) v (u_epc r) (u_in_params r) (u_out_params r) (u_ep0state r) (u_ep0next r) (u_ep0n r) (u_ep0endcb r) (u_setup r) (u_status r) (u_address r) (u_configuration r) (u_otg r) (u_params r) (u_pmnext r) (u_txpending r) (u_wait r) (u_tr r) (u_eps r) (u_mem r).
Definition set_u_epc (v : list (option USBEndpointConfig)) (r : usbdrv) : usbdrv := mkUSB (u_state r) (u_config r) (u_transmitting r) (u_receiving r) v (u_in_params r) (u_out_params r) (u_ep0state r) (u_ep0next r) (u_ep0n r) (u_ep0endcb r) (u_setup r) (u_status r) (u_address r) (u_configuration r) (u_otg r) (u_params r) (u_pmnext r) (u_txpending r) (u_wait r) (u_tr r) (u_eps r) (u_mem r).
Definition set_u_in_params (v : list (option addr)) (r : usbdrv) : usbdrv := mkUSB (u_state r) (u_config r) (u_transmitting r) (u_receiving r) (u_epc r) v (u_out_params r) (u_ep0state r) (u_ep0next r) (u_ep0n r) (u_ep0endcb r) (u_setup r) (u_status r) (u_address r) (u_configuration r) (u_otg r) (u_params r) (u_pmnext r) (u_txpending r) (u_wait r) (u_tr r) (u_eps r) (u_mem r).
Definition set_u_out_params (v : list (option addr)) (r : usbdrv) : usbdrv := mkUSB (u_state r) (u_config r) (u_transmitting r) (u_receiving r) (u_epc r) (u_in_params r) v (u_ep0state r) (u_ep0next r) (u_ep0n r) (u_ep0endcb r) (u_setup r) (u_status r) (u_address r) (u_configuration r) (u_otg r) (u_params r) (u_pmnext r) (u_txpending r) (u_wait r) (u_tr r) (u_eps r) (u_mem r).
Definition set_u_ep0state (v : usbep0state) (r : usbdrv) : usbdrv := mkUSB (u_state r) (u_config r) (u_transmitting r) (u_receiving r) (u_epc r) (u_in_params r) (u_out_params r) v (u_ep0next r) (u_ep0n r) (u_ep0endcb r) (u_setup r) (u_status r) (u_address r) (u_configuration r) (u_otg r) (u_params r) (u_pmnext r) (u_txpending r) (u_wait r) (u_tr r) (u_eps r) (u_mem r).
Definition set_u_ep0next (v : uptr) (r : usbdrv) : usbdrv := mkUSB (u_state r) (u_config r) (u_transmitting r) (u_receiving r) (u_epc r) (u_in_params r) (u_out_params r) (u_ep0state r) v (u_ep0n r) (u_ep0endcb r) (u_setup r) (u_status r) (u_address r) (u_configuration r) (u_otg r) (u_params r) (u_pmnext r) (u_txpending r) (u_wait r) (u_tr r) (u_eps r) (u_mem r).
Definition set_u_ep0n (v : Z) (r : usbdrv) : usbdrv := mkUSB (u_state r) (u_config r) (u_transmitting r) (u_receiving r) (u_epc r) (u_in_params r) (u_out_params r) (u_ep0state r) (u_ep0next r) v (u_ep0endcb r) (u_setup r) (u_status r) (u_address r) (u_configuration r) (u_otg r) (u_params r) (u_pmnext r) (u_txpending r) (u_wait r) (u_tr r) (u_eps r) (u_mem r).
Definition set_u_ep0endcb (v : option positive) (r : usbdrv) : usbdrv := mkUSB (u_state r) (u_config r) (u_transmitting r) (u_receiving r) (u_epc r) (u_in_params r) (u_out_params r) (u_ep0state r) (u_ep0next r) (u_ep0n r) v (u_setup r) (u_status r) (u_address r) (u_configuration r) (u_otg r) (u_params r) (u_pmnext r) (u_txpending r) (u_wait r) (u_tr r) (u_eps r) (u_mem r).
Definition set_u_setup (v : list Z) (r : usbdrv) : usbdrv := mkUSB (u_state r) (u_config r) (u_transmitting r) (u_receiving r) (u_epc r) (u_in_params r) (u_out_params r) (u_ep0state r) (u_ep0next r) (u_ep0n r) (u_ep0endcb r) v (u_status r) (u_address r) (u_configuration r) (u_otg r) (u_params r) (u_pmnext r) (u_txpending r) (u_wait r) (u_tr r) (u_eps r) (u_mem r).
Definition set_u_status (v : Z) (r : usbdrv) : usbdrv := mkUSB (u_state r) (u_config r) (u_transmitting r) (u_receiving r) (u_epc r) (u_in_params r) (u_out_params r) (u_ep0state r) (u_ep0next r) (u_ep0n r) (u_ep0endcb r) (u_setup r) v (u_address r) (u_configuration r) (u_otg r) (u_params r) (u_pmnext r) (u_txpending r) (u_wait r) (u_tr r) (u_eps r) (u_mem r).
Definition set_u_address (v : Z) (r : usbdrv) : usbdrv := mkUSB (u_state r) (u_config r) (u_transmitting r) (u_receiving r) (u_epc r) (u_in_params r) (u_out_params r) (u_ep0state r) (u_ep0next r) (u_ep0n r) (u_ep0endcb r) (u_setup r) (u_status r) v (u_configuration r) (u_otg r) (u_params r) (u_pmnext r) (u_txpending r) (u_wait r) (u_tr r) (u_eps r) (u_mem r).
Definition set_u_configuration (v : Z) (r : usbdrv) : usbdrv := mkUSB (u_state r) (u_config r) (u_transmitting r) (u_receiving r) (u_epc r) (u_in_params r) (u_out_params r) (u_ep0state r) (u_ep0next r) (u_ep0n r) (u_ep0endcb r) (u_setup r) (u_status r) (u_address r) v (u_otg r) (u_params r) (u_pmnext r) (u_txpending r) (u_wait r) (u_tr r) (u_eps r) (u_mem r).
Definition set_u_otg (v : otg_regs) (r : usbdrv) : usbdrv := mkUSB (u_state r) (u_config r) (u_transmitting r) (u_receiving r) (u_epc r) (u_in_params r) (u_out_params r) (u_ep0state r) (u_ep0next r) (u_ep0n r) (u_ep0endcb r) (u_setup r) (u_status r) (u_address r) (u_configuration r) v (u_params r) (u_pmnext r) (u_txpending r) (u_wait r) (u_tr r) (u_eps r) (u_mem r).
Definition set_u_params (v : otg_params) (r : usbdrv) : usbdrv := mkUSB (u_state r) (u_config r) (u_transmitting r) (u_receiving r) (u_epc r) (u_in_params r) (u_out_params r) (u_ep0state r) (u_ep0next r) (u_ep0n r) (u_ep0endcb r) (u_setup r) (u_status r) (u_address r) (u_configuration r) (u_otg r) v (u_pmnext r) (u_txpending r) (u_wait r) (u_tr r) (u_eps r) (u_mem r).
Definition set_u_pmnext (v : Z) (r : usbdrv) : usbdrv := mkUSB (u_state r) (u_config r) (u_transmitting r) (u_receiving r) (u_epc r) (u_in_params r) (u_out_params r) (u_ep0state r) (u_ep0next r) (u_ep0n r) (u_ep0endcb r) (u_setup r) (u_status r) (u_address r) (u_configuration r) (u_otg r) (u_params r) v (u_txpending r) (u_wait r) (u_tr r) (u_eps r) (u_mem r).
Definition set_u_txpending (v : Z) (r : usbdrv) : usbdrv := mkUSB (u_state r) (u_config r) (u_transmitting r) (u_receiving r) (u_epc r) (u_in_params r) (u_out_params r) (u_ep0state r) (u_ep0next r) (u_ep0n r) (u_ep0endcb r) (u_setup r) (u_status r) (u_address r) (u_configuration r) (u_otg r) (u_params r) (u_pmnext r) v (u_wait r) (u_tr r) (u_eps r) (u_mem r).
Definition set_u_wait (v : addr) (r : usbdrv) : usbdrv := mkUSB (u_state r) (u_config r) (u_transmitting r) (u_receiving r) (u_epc r) (u_in_params r) (u_out_params r) (u_ep0state r) (u_ep0next r) (u_ep0n r) (u_ep0endcb r) (u_setup r) (u_status r) (u_address r) (u_configuration r) (u_otg r) (u_params r) (u_pmnext r) (u_txpending r) v (u_tr r) (u_eps r) (u_mem r).
Definition set_u_tr (v : option tid) (r : usbdrv) : usbdrv := mkUSB (u_state r) (u_config r) (u_transmitting r) (u_receiving r) (u_epc r) (u_in_params r) (u_out_params r) (u_ep0state r) (u_ep0next r) (u_ep0n r) (u_ep0endcb r) (u_setup r) (u_status r) (u_address r) (u_configuration r) (u_otg r) (u_params r) (u_pmnext r) (u_txpending r) (u_wait r) v (u_eps r) (u_mem r).
Definition set_u_eps (v : gmap addr epstate) (r : usbdrv) : usbdrv := mkUSB (u_state r) (u_config r) (u_transmitting r) (u_receiving r) (u_epc r) (u_in_params r) (u_out_params r) (u_ep0state r) (u_ep0next r) (u_ep0n r) (u_ep0endcb r) (u_setup r) (u_status r) (u_address r) (u_configuration r) (u_otg r) (u_params r) (u_pmnext r) (u_txpending r) (u_wait r) (u_tr r) v (u_mem r).
Definition set_u_mem (v : gmap addr (list Z)) (r : usbdrv) : usbdrv := mkUSB (u_state r) (u_config r) (u_transmitting r) (u_receiving r) (u_epc r) (u_in_params r) (u_out_params r) (u_ep0state r) (u_ep0next r) (u_ep0n r) (u_ep0endcb r) (u_setup r) (u_status r) (u_address r) (u_configuration r) (u_otg r) (u_params r) (u_pmnext r) (u_txpending r) (u_wait r) (u_tr r) (u_eps r) v.

Definition USB_MAX_ENDPOINTS : nat := 5.

(** ** Computations on a driver and the kernel *)

Definition U (A : Type) : Type := usbdrv → M (A * usbdrv).
#[export] Instance U_ret : MRet U := λ A a u, mret (a, u).
#[export] Instance U_bind : MBind U := λ A B k m u s, rbind (m u s) (λ r s', k r.1 r.2 s').

Definition ulift {A} (m : M A) : U A := λ u s, rbind (m s) (λ a s', Done (a, u) s').
Definition ufault {A} : U A := λ u, fault.
Definition uget {A} (f : usbdrv → A) : U A := λ u, mret (f u, u).
Definition umod (f : usbdrv → usbdrv) : U unit := λ u, mret (tt, f u).
Definition uderef {A} (f : usbdrv → option A) : U A := λ u, match f u with Some a => mret (a, u) | None => fault end.
Definition uwhen (b : bool) (m : U unit) : U unit := if b then m else mret ().

(** The functions of the application. *)
Class UsbApp := {
  run_event : positive → usbevent → U unit;
  run_hook : positive → U bool;
  run_descriptor : positive → Z → Z → Z → U (option USBDescriptor);
  run_cb : positive → U unit;
  run_ep : positive → nat → U unit
}.

(** ** Access *)

Definition upd_otg (f : otg_regs → otg_regs) : U unit := umod (λ u, set_u_otg (f (u_otg u)) u).
Definition epc_of (ep : nat) : U USBEndpointConfig := uderef (λ u, c ← u_epc u !! ep; c).
Definition set_epc (ep : nat) (c : option USBEndpointConfig) : U unit :=
  uderef (λ u, u_epc u !! ep) ;; umod (λ u, set_u_epc (<[ep := c]> (u_epc u)) u).
Definition epstate_of (a : option addr) : U epstate := uderef (λ u, a ← a; u_eps u !! a).
Definition upd_epstate (a : option addr) (f : epstate → epstate) : U unit :=
  st ← epstate_of a;
  match a with Some a => umod (λ u, set_u_eps (<[a := f st]> (u_eps u)) u) | None => ufault end.
Definition upd_ie (ep : nat) (f : otg_in_ep → otg_in_ep) : U unit :=
  uderef (λ u, ie (u_otg u) !! ep) ;; upd_otg (λ o, set_ie (alter f ep (ie o)) o).
Definition upd_oe (ep : nat) (f : otg_out_ep → otg_out_ep) : U unit :=
  uderef (λ u, oe (u_otg u) !! ep) ;; upd_otg (λ o, set_oe (alter f ep (oe o)) o).

(** What memory holds at a place; [None] is not readable. *)
Definition place (u : usbdrv) (p : uptr) : option (list Z) :=
  match p with
  | PNull => None
  | PStatus => Some [u_status u `mod` 256; u_status u / 256]
  | PConfiguration => Some [u_configuration u]
  | PZeroStatus | PActiveStatus => Some [0; 0]
  | PHaltedStatus => Some [1; 0]
  | PMem a => u_mem u !! a
  end.

(** [1 << n] and [~x] of 32 bits. *)
Definition bit (n : nat) : Z := 2 ^ Z.of_nat n.
Definition inv32 (x : Z) : Z := u32 (Z.lnot x).

(** ** Register bits (stm32_otg.h) *)

Definition DIEPCTL_EPENA : Z := bit 31.
Definition DIEPCTL_EPDIS : Z := bit 30.
Definition DIEPCTL_SD0PID : Z := bit 28.
Definition DIEPCTL_SNAK : Z := bit 27.
Definition DIEPCTL_CNAK : Z := bit 26.
Definition DIEPCTL_STALL : Z := bit 21.
Definition DIEPCTL_USBAEP : Z := bit 15.
Definition DIEPCTL_TXFNUM (n : Z) : Z := u32 (Z.shiftl n 22).
Definition DIEPTSIZ_PKTCNT (n : Z) : Z := u32 (Z.shiftl n 19).
Definition DOEPTSIZ_STUPCNT (n : Z) : Z := u32 (Z.shiftl n 29).
Definition DCFG_DAD_MASK : Z := Z.shiftl 127 4.
Definition DCFG_DAD (n : Z) : Z := Z.shiftl n 4.
Definition DAINTMSK_OEPM (n : nat) : Z := bit (16 + n).
Definition DAINTMSK_IEPM (n : nat) : Z := bit n.
Definition DIEPTXF_INEPTXFD (n : Z) : Z := u32 (Z.shiftl n 16).
Definition GAHBCFG_GINTMSK : Z := 1.

(** ** Operations of usb_lld.c *)

(** The parameters of the two cells, with the receive FIFO sizes of mcuconf.h. *)
Definition fsparams : otg_params := mkOP (512 / 4) 320 3.
Definition hsparams : otg_params := mkOP (1024 / 4) 1024 5.

Definition EP0_MAX_INSIZE : Z := 64.
Definition EP0_MAX_OUTSIZE : Z := 64.

(** The addresses of ep0_state and ep0setup_buffer. *)
Definition ep0_state : addr := 1%positive.
Definition ep0setup_buffer : addr := 2%positive.
Definition ep0config : USBEndpointConfig :=
  mkEPC 0 (Some Ep0Setup) (Some Ep0In) (Some Ep0Out) 64 64 (Some ep0_state) (Some ep0_state) 1 (Some ep0setup_buffer).

Definition otg_ram_reset : U unit := umod (λ u, set_u_pmnext (rx_fifo_size (u_params u)) u).
Definition otg_ram_alloc (size : Z) : U Z :=
  next ← uget u_pmnext;
  umod (λ u, set_u_pmnext (u32 (u_pmnext u + size)) u) ;;
  u ← uget id;
  ulift (chDbgAssert (u_pmnext u <=? otg_ram_size (u_params u)) "otg_ram_alloc") ;;
  mret next.

(** The endpoints from [i] on; an enabled endpoint is told to stop, the others are
    cleared. *)
Fixpoint otg_disable_from (k i : nat) : U unit :=
  match k with
  | O => mret ()
  | S k =>
      upd_ie i (λ r, mkIE (if Z.land (DIEPCTL r) DIEPCTL_EPENA =? 0 then 0 else DIEPCTL_EPDIS) 0) ;;
      upd_oe i (λ r, mkOE (if Z.land (DOEPCTL r) DIEPCTL_EPENA =? 0 then 0 else DIEPCTL_EPDIS) 0) ;;
      otg_disable_from k (S i)
  end.
Definition otg_disable_ep : U unit :=
  u ← uget id;
  otg_disable_from (S (num_endpoints (u_params u))) 0 ;;
  upd_otg (set_DAINTMSK (Z.lor (DAINTMSK_OEPM 0) (DAINTMSK_IEPM 0))).

(** A flush empties the FIFO. *)
Definition otg_txfifo_flush (fifo : nat) : U unit :=
  uderef (λ u, FIFO (u_otg u) !! fifo) ;; upd_otg (λ o, set_FIFO (<[fifo := []]> (FIFO o)) o).

Fixpoint usb_lld_nak_from (k i : nat) : U unit :=
  match k with
  | O => mret ()
  | S k => upd_ie i (set_DIEPCTL DIEPCTL_SNAK) ;; upd_oe i (set_DOEPCTL DIEPCTL_SNAK) ;; usb_lld_nak_from k (S i)
  end.

Definition usb_lld_set_address : U unit :=
  u ← uget id;
  upd_otg (λ o, set_DCFG (Z.lor (Z.land (DCFG o) (inv32 DCFG_DAD_MASK)) (DCFG_DAD (u_address u))) o).

Definition usb_lld_reset : U unit :=
  otg_txfifo_flush 0 ;;
  u ← uget id;
  usb_lld_nak_from (S (num_endpoints (u_params u))) 0 ;;
  upd_otg (set_DAINTMSK (Z.lor (DAINTMSK_OEPM 0) (DAINTMSK_IEPM 0))) ;;
  otg_ram_reset ;;
  upd_otg (set_GRXFSIZ (rx_fifo_size (u_params u))) ;;
  upd_otg (λ o, set_DCFG (Z.lor (Z.land (DCFG o) (inv32 DCFG_DAD_MASK)) (DCFG_DAD 0)) o) ;;
  upd_otg (λ o, set_GINTMSK (Z.lor (GINTMSK o) (Z.lor (bit 4) (Z.lor (bit 19) (bit 18)))) o) ;;
  upd_otg (set_DIEPMSK (Z.lor (bit 3) (bit 0))) ;;
  upd_otg (set_DOEPMSK (Z.lor (bit 3) (bit 0))) ;;
  set_epc 0 (Some ep0config) ;;
  upd_oe 0 (λ _, mkOE (Z.lor DIEPCTL_SD0PID (Z.lor DIEPCTL_USBAEP (out_maxsize ep0config))) 0) ;;
  upd_ie 0 (λ _, mkIE (Z.lor DIEPCTL_SD0PID (Z.lor DIEPCTL_USBAEP (Z.lor (DIEPCTL_TXFNUM 0) (in_maxsize ep0config)))) 0) ;;
  a ← otg_ram_alloc (in_maxsize ep0config / 4);
  upd_otg (set_DIEPTXF0 (Z.lor (DIEPTXF_INEPTXFD (in_maxsize ep0config / 4)) a)).

(** [DIEPTXF[ep - 1] = v]. *)
Definition set_txf (ep : nat) (v : Z) : U unit :=
  match ep with
  | O => ufault
  | S i => uderef (λ u, DIEPTXF (u_otg u) !! i) ;; upd_otg (λ o, set_DIEPTXF (<[i := v]> (DIEPTXF o)) o)
  end.

(** The type bits of [ep_mode], shifted to the register field. *)
Definition ep_type (mode : Z) : Z := Z.shiftl (Z.land mode 3) 18.

Definition usb_lld_init_endpoint (ep : nat) : U unit :=
  c ← epc_of ep;
  let ctl := Z.lor DIEPCTL_SD0PID (Z.lor DIEPCTL_USBAEP (ep_type (ep_mode c))) in
  upd_oe ep (set_DOEPTSIZ 0) ;;
  (match out_cb c with
   | Some _ =>
       upd_oe ep (set_DOEPCTL (Z.lor ctl (out_maxsize c))) ;;
       upd_otg (λ o, set_DAINTMSK (Z.lor (DAINTMSK o) (DAINTMSK_OEPM ep)) o)
   | None =>
       upd_oe ep (λ r, set_DOEPCTL (Z.land (DOEPCTL r) (inv32 DIEPCTL_USBAEP)) r) ;;
       upd_otg (λ o, set_DAINTMSK (Z.land (DAINTMSK o) (inv32 (DAINTMSK_OEPM ep))) o)
   end) ;;
  upd_ie ep (set_DIEPTSIZ 0) ;;
  match in_cb c with
  | Some _ =>
      let fsize := in_maxsize c / 4 in
      let fsize := if 1 <? in_multiplier c then u32 (fsize * in_multiplier c) else fsize in
      a ← otg_ram_alloc fsize;
      set_txf ep (Z.lor (DIEPTXF_INEPTXFD fsize) a) ;;
      otg_txfifo_flush ep ;;
      upd_ie ep (set_DIEPCTL (Z.lor ctl (Z.lor (DIEPCTL_TXFNUM (Z.of_nat ep)) (in_maxsize c)))) ;;
      upd_otg (λ o, set_DAINTMSK (Z.lor (DAINTMSK o) (DAINTMSK_IEPM ep)) o)
  | None =>
      set_txf ep 33555456 ;;
      otg_txfifo_flush ep ;;
      upd_ie ep (λ r, set_DIEPCTL (Z.land (DIEPCTL r) (inv32 DIEPCTL_USBAEP)) r) ;;
      upd_otg (λ o, set_DAINTMSK (Z.land (DAINTMSK o) (inv32 (DAINTMSK_IEPM ep))) o)
  end.

Definition usb_lld_disable_endpoints : U unit := otg_ram_reset ;; otg_disable_ep.

Definition ep_status (ctl : Z) : usbepstatus :=
  if Z.land ctl DIEPCTL_USBAEP =? 0 then EP_STATUS_DISABLED
  else if Z.land ctl DIEPCTL_STALL =? 0 then EP_STATUS_ACTIVE else EP_STATUS_STALLED.
Definition usb_lld_get_status_out (ep : nat) : U usbepstatus := r ← uderef (λ u, oe (u_otg u) !! ep); mret (ep_status (DOEPCTL r)).
Definition usb_lld_get_status_in (ep : nat) : U usbepstatus := r ← uderef (λ u, ie (u_otg u) !! ep); mret (ep_status (DIEPCTL r)).

(** The packet is copied into [setup]. *)
Definition usb_lld_read_setup (ep : nat) : U unit :=
  c ← epc_of ep;
  b ← uderef (λ u, a ← setup_buf c; u_mem u !! a);
  if (8 <=? length b)%nat then umod (set_u_setup (take 8 b)) else ufault.

Definition usb_lld_prepare_receive (ep : nat) : U unit :=
  c ← epc_of ep;
  upd_epstate (out_state c) (λ st, set_es_totsize (es_size st) st) ;;
  upd_epstate (out_state c) (λ st,
    if (ep =? 0)%nat && (EP0_MAX_OUTSIZE <? es_size st) then set_es_size EP0_MAX_OUTSIZE st else st) ;;
  st ← epstate_of (out_state c);
  if out_maxsize c =? 0 then ufault
  else
    let pcnt := u32 (es_size st + out_maxsize c - 1) / out_maxsize c in
    upd_oe ep (set_DOEPTSIZ (Z.lor (DOEPTSIZ_STUPCNT 3) (Z.lor (DIEPTSIZ_PKTCNT pcnt) (es_size st)))).

Definition usb_lld_prepare_transmit (ep : nat) : U unit :=
  c ← epc_of ep;
  upd_epstate (in_state c) (λ st, set_es_totsize (es_size st) st) ;;
  st ← epstate_of (in_state c);
  if es_size st =? 0 then upd_ie ep (set_DIEPTSIZ (Z.lor (DIEPTSIZ_PKTCNT 1) 0))
  else
    upd_epstate (in_state c) (λ st,
      if (ep =? 0)%nat && (EP0_MAX_INSIZE <? es_size st) then set_es_size EP0_MAX_INSIZE st else st) ;;
    st ← epstate_of (in_state c);
    if in_maxsize c =? 0 then ufault
    else
      let pcnt := u32 (es_size st + in_maxsize c - 1) / in_maxsize c in
      upd_ie ep (set_DIEPTSIZ (Z.lor (DIEPTSIZ_PKTCNT pcnt) (es_size st))).

Definition usb_lld_start_out (ep : nat) : U unit := upd_oe ep (λ r, set_DOEPCTL (Z.lor (DOEPCTL r) DIEPCTL_CNAK) r).
Definition usb_lld_start_in (ep : nat) : U unit :=
  upd_ie ep (λ r, set_DIEPCTL (Z.lor (DIEPCTL r) (Z.lor DIEPCTL_EPENA DIEPCTL_CNAK)) r) ;;
  upd_otg (λ o, set_DIEPEMPMSK (Z.lor (DIEPEMPMSK o) (bit ep)) o).
Definition usb_lld_stall_out (ep : nat) : U unit := upd_oe ep (λ r, set_DOEPCTL (Z.lor (DOEPCTL r) DIEPCTL_STALL) r).
Definition usb_lld_stall_in (ep : nat) : U unit := upd_ie ep (λ r, set_DIEPCTL (Z.lor (DIEPCTL r) DIEPCTL_STALL) r).
Definition usb_lld_clear_out (ep : nat) : U unit := upd_oe ep (λ r, set_DOEPCTL (Z.land (DOEPCTL r) (inv32 DIEPCTL_STALL)) r).
Definition usb_lld_clear_in (ep : nat) : U unit := upd_ie ep (λ r, set_DIEPCTL (Z.land (DIEPCTL r) (inv32 DIEPCTL_STALL)) r).
Definition usb_lld_get_transaction_size (ep : nat) : U Z := c ← epc_of ep; st ← epstate_of (out_state c); mret (es_cnt st).

(** ** Starting and stopping the peripheral

    The clock and the interrupt vector are switched by macros of the port and are
    left out.  [wa0] and [wa_size] are the sizes of the smallest and of the pump's
    working area, [wsp] is that area and [pump] names usb_lld_pump. *)
Definition STM32_USB_OTG_THREAD_PRIO : Z := LOWPRIO.
Definition TRDT_VALUE : Z := 5.
(** NOVBUSSENS, VBUSASEN, VBUSBSEN and PWRDWN (the board defines BOARD_OTG_NOVBUSSENS). *)
Definition GCCFG_STARTED : Z := Z.lor (bit 21) (Z.lor (bit 18) (Z.lor (bit 19) (bit 16))).

Definition usb_lld_start (wa0 wa_size : Z) (wsp : tid) (pump : positive) : U unit :=
  u ← uget id;
  uwhen (bool_decide (u_state u = USB_STOP))
    (umod (set_u_txpending 0) ;;
     upd_otg (set_GUSBCFG (Z.lor (bit 30) (Z.lor (Z.shiftl TRDT_VALUE 10) (bit 6)))) ;;
     upd_otg (set_DCFG (Z.lor 35651584 3)) ;;
     upd_otg (set_PCGCCTL 0) ;;
     upd_otg (set_GCCFG GCCFG_STARTED) ;;
     upd_otg (set_GAHBCFG 0) ;;
     otg_disable_ep ;;
     upd_otg (set_DIEPMSK 0) ;;
     upd_otg (set_DOEPMSK 0) ;;
     upd_otg (set_DAINTMSK 0) ;;
     c ← uderef u_config;
     upd_otg (set_GINTMSK (Z.lor (bit 13) (match sof_cb c with None => bit 12 | Some _ => Z.lor (bit 12) (bit 3) end))) ;;
     tr ← uget u_tr;
     (match tr with
      | Some _ => mret ()
      | None =>
          tp ← ulift (chThdCreateI wa0 (_thread_memfill CH_DBG_THREAD_FILL_VALUE) wsp wa_size STM32_USB_OTG_THREAD_PRIO (Some pump));
          umod (set_u_tr (Some tp)) ;;
          _ ← ulift (chThdStartI tp);
          ulift chSchRescheduleS
      end) ;;
     upd_otg (λ o, set_GAHBCFG (Z.lor (GAHBCFG o) GAHBCFG_GINTMSK) o)).

Definition usb_lld_stop : U unit :=
  u ← uget id;
  uwhen (negb (bool_decide (u_state u = USB_STOP)))
    (otg_disable_ep ;;
     umod (set_u_txpending 0) ;;
     upd_otg (set_DAINTMSK 0) ;;
     upd_otg (set_GAHBCFG 0) ;;
     upd_otg (set_GCCFG 0)).

(** The macros that connect and disconnect the bus. *)
Definition usb_lld_connect_bus : U unit := upd_otg (λ o, set_GCCFG (Z.lor (GCCFG o) (bit 19)) o).
Definition usb_lld_disconnect_bus : U unit := upd_otg (λ o, set_GCCFG (Z.land (GCCFG o) (inv32 (bit 19))) o).
