(* ===== verification/Usb.v ===== *)
(** * The USB driver (os/hal/src/usb.c)

    For the options of the OTGv1 port: the address is set before the status
    stage, the status stage is done by software. *)

From S2P Require Import Prelude TimeMeas Kernel ThreadQueues Sys VTimers Sched Thd UsbBase.

(** ** Requests *)

Definition USB_RTYPE_DIR_MASK : Z := 128.
Definition USB_RTYPE_DIR_DEV2HOST : Z := 128.
Definition USB_RTYPE_TYPE_MASK : Z := 96.
Definition USB_RTYPE_TYPE_STD : Z := 0.
Definition USB_RTYPE_RECIPIENT_MASK : Z := 31.
Definition USB_RTYPE_RECIPIENT_DEVICE : Z := 0.
Definition USB_RTYPE_RECIPIENT_INTERFACE : Z := 1.
Definition USB_RTYPE_RECIPIENT_ENDPOINT : Z := 2.
Definition USB_REQ_GET_STATUS : Z := 0.
Definition USB_REQ_CLEAR_FEATURE : Z := 1.
Definition USB_REQ_SET_FEATURE : Z := 3.
Definition USB_REQ_SET_ADDRESS : Z := 5.
Definition USB_REQ_GET_DESCRIPTOR : Z := 6.
Definition USB_REQ_GET_CONFIGURATION : Z := 8.
Definition USB_REQ_SET_CONFIGURATION : Z := 9.
Definition USB_REQ_SYNCH_FRAME : Z := 12.
Definition USB_FEATURE_ENDPOINT_HALT : Z := 0.
Definition USB_FEATURE_DEVICE_REMOTE_WAKEUP : Z := 1.

Section Usb.
Context `{UsbApp}.

(** ** Macros of usb.h *)

Definition usbGetTransmitStatusI (u : usbdrv) (ep : nat) : bool := negb (Z.land (u_transmitting u) (u16 (bit ep)) =? 0).
Definition usbGetReceiveStatusI (u : usbdrv) (ep : nat) : bool := negb (Z.land (u_receiving u) (u16 (bit ep)) =? 0).

Definition usbSetupTransfer (buf : uptr) (n : Z) (endcb : option positive) : U unit :=
  umod (set_u_ep0next buf) ;; umod (set_u_ep0n n) ;; umod (set_u_ep0endcb endcb).

Definition _usb_isr_invoke_event_cb (evt : usbevent) : U unit :=
  c ← uderef u_config;
  match event_cb c with Some f => run_event f evt | None => mret () end.
Definition _usb_isr_invoke_sof_cb : U unit :=
  c ← uderef u_config;
  match sof_cb c with Some f => run_cb f | None => mret () end.

(** ** Local functions *)

Definition setup_byte (i : nat) : U Z := uderef (λ u, u_setup u !! i).

(** [get_hword(&usbp->setup[i])] *)
Definition get_hword (i : nat) : U Z :=
  lo ← setup_byte i;
  hi ← setup_byte (S i);
  mret (Z.lor lo (u16 (Z.shiftl hi 8))).

Definition set_address : U unit :=
  a ← setup_byte 2;
  umod (set_u_address a) ;;
  usb_lld_set_address ;;
  _usb_isr_invoke_event_cb USB_EVENT_ADDRESS ;;
  umod (set_u_state USB_SELECTED).

(** The label of a request in the switch. *)
Definition req (recipient request : Z) : Z := Z.lor recipient (Z.shiftl request 8).

(** The answer to GET_STATUS of an endpoint. *)
Definition endpoint_status (st : usbepstatus) : U bool :=
  match st with
  | EP_STATUS_STALLED => usbSetupTransfer PHaltedStatus 2 None ;; mret true
  | EP_STATUS_ACTIVE => usbSetupTransfer PActiveStatus 2 None ;; mret true
  | EP_STATUS_DISABLED => mret false
  end.

(** CLEAR_FEATURE and SET_FEATURE of an endpoint: [on_in] and [on_out] change its
    stall bit. *)
Definition endpoint_feature (on_in on_out : nat → U unit) : U bool :=
  feature ← setup_byte 2;
  if negb (feature =? USB_FEATURE_ENDPOINT_HALT) then mret false
  else
    w ← setup_byte 4;
    let ep := Z.to_nat (Z.land w 15) in
    uwhen (negb (Z.land w 15 =? 0)) (if negb (Z.land w 128 =? 0) then on_in ep else on_out ep) ;;
    usbSetupTransfer PNull 0 None ;;
    mret true.

Definition default_handler : U bool :=
  s0 ← setup_byte 0;
  s1 ← setup_byte 1;
  let r := Z.lor (Z.land s0 (Z.lor USB_RTYPE_RECIPIENT_MASK USB_RTYPE_TYPE_MASK)) (Z.shiftl s1 8) in
  if r =? req USB_RTYPE_RECIPIENT_DEVICE USB_REQ_GET_STATUS then
    usbSetupTransfer PStatus 2 None ;; mret true
  else if r =? req USB_RTYPE_RECIPIENT_DEVICE USB_REQ_CLEAR_FEATURE then
    f ← setup_byte 2;
    if f =? USB_FEATURE_DEVICE_REMOTE_WAKEUP then
      umod (λ u, set_u_status (Z.land (u_status u) (u16 (inv32 2))) u) ;; usbSetupTransfer PNull 0 None ;; mret true
    else mret false
  else if r =? req USB_RTYPE_RECIPIENT_DEVICE USB_REQ_SET_FEATURE then
    f ← setup_byte 2;
    if f =? USB_FEATURE_DEVICE_REMOTE_WAKEUP then
      umod (λ u, set_u_status (Z.lor (u_status u) 2) u) ;; usbSetupTransfer PNull 0 None ;; mret true
    else mret false
  else if r =? req USB_RTYPE_RECIPIENT_DEVICE USB_REQ_SET_ADDRESS then
    uwhen ((s0 =? USB_RTYPE_RECIPIENT_DEVICE) && (s1 =? USB_REQ_SET_ADDRESS)) set_address ;;
    usbSetupTransfer PNull 0 None ;; mret true
  else if r =? req USB_RTYPE_RECIPIENT_DEVICE USB_REQ_GET_DESCRIPTOR then
    c ← uderef u_config;
    dtype ← setup_byte 3;
    dindex ← setup_byte 2;
    lang ← get_hword 4;
    dp ← run_descriptor (get_descriptor_cb c) dtype dindex lang;
    match dp with
    | None => mret false
    | Some d => usbSetupTransfer (ud_string d) (ud_size d) None ;; mret true
    end
  else if r =? req USB_RTYPE_RECIPIENT_DEVICE USB_REQ_GET_CONFIGURATION then
    usbSetupTransfer PConfiguration 1 None ;; mret true
  else if r =? req USB_RTYPE_RECIPIENT_DEVICE USB_REQ_SET_CONFIGURATION then
    n ← setup_byte 2;
    umod (set_u_configuration n) ;;
    umod (set_u_state (if n =? 0 then USB_SELECTED else USB_ACTIVE)) ;;
    _usb_isr_invoke_event_cb USB_EVENT_CONFIGURED ;;
    usbSetupTransfer PNull 0 None ;; mret true
  else if (r =? req USB_RTYPE_RECIPIENT_INTERFACE USB_REQ_GET_STATUS) || (r =? req USB_RTYPE_RECIPIENT_ENDPOINT USB_REQ_SYNCH_FRAME) then
    usbSetupTransfer PZeroStatus 2 None ;; mret true
  else if r =? req USB_RTYPE_RECIPIENT_ENDPOINT USB_REQ_GET_STATUS then
    w ← setup_byte 4;
    st ← (if negb (Z.land w 128 =? 0) then usb_lld_get_status_in (Z.to_nat (Z.land w 15))
          else usb_lld_get_status_out (Z.to_nat (Z.land w 15)));
    endpoint_status st
  else if r =? req USB_RTYPE_RECIPIENT_ENDPOINT USB_REQ_CLEAR_FEATURE then
    endpoint_feature usb_lld_clear_in usb_lld_clear_out
  else if r =? req USB_RTYPE_RECIPIENT_ENDPOINT USB_REQ_SET_FEATURE then
    endpoint_feature usb_lld_stall_in usb_lld_stall_out
  else mret false.

(** ** Exported functions *)

(** The fields usbObjectInit leaves alone are those of [u]. *)
Definition usbObjectInit (u : usbdrv) : usbdrv :=
  set_u_receiving 0 (set_u_transmitting 0 (set_u_out_params (replicate USB_MAX_ENDPOINTS None)
    (set_u_in_params (replicate USB_MAX_ENDPOINTS None) (set_u_config None (set_u_state USB_STOP u))))).

(** usb_lld_init on one of the two drivers. *)
Definition usb_lld_init (params : otg_params) : U unit :=
  umod usbObjectInit ;;
  u ← uget id;
  ulift (set_tref (u_wait u) None) ;;
  umod (set_u_params params) ;;
  umod (set_u_tr None).

Definition no_endpoints : list (option USBEndpointConfig) := replicate (S USB_MAX_ENDPOINTS) None.

Definition usbStart (wa0 wa_size : Z) (wsp : tid) (pump : positive) (config : USBConfig) : U unit :=
  ulift chSysLock ;;
  st ← uget u_state;
  ulift (chDbgAssert (bool_decide (st = USB_STOP) || bool_decide (st = USB_READY)) "usbStart") ;;
  umod (set_u_config (Some config)) ;;
  umod (set_u_epc no_endpoints) ;;
  usb_lld_start wa0 wa_size wsp pump ;;
  umod (set_u_state USB_READY) ;;
  ulift chSysUnlock.

Definition usbStop : U unit :=
  ulift chSysLock ;;
  st ← uget u_state;
  ulift (chDbgAssert (bool_decide (st = USB_STOP) || bool_decide (st = USB_READY) ||
                      bool_decide (st = USB_SELECTED) || bool_decide (st = USB_ACTIVE)) "usbStop") ;;
  usb_lld_stop ;;
  umod (set_u_state USB_STOP) ;;
  ulift chSysUnlock.

(** memset of an endpoint state. *)
Definition zero_epstate : epstate := mkES false 0 0 (Linear PNull 0) 0.
Definition clear_epstate (a : option addr) : U unit :=
  match a with Some a => umod (λ u, set_u_eps (<[a := zero_epstate]> (u_eps u)) u) | None => mret () end.

Definition usbInitEndpointI (ep : nat) (epcp : USBEndpointConfig) : U unit :=
  ulift chDbgCheckClassI ;;
  st ← uget u_state;
  ulift (chDbgAssert (bool_decide (st = USB_ACTIVE)) "usbInitEndpointI") ;;
  c ← uderef (λ u, u_epc u !! ep);
  ulift (chDbgAssert (match c with None => true | Some _ => false end) "usbInitEndpointI") ;;
  clear_epstate (in_state epcp) ;;
  clear_epstate (out_state epcp) ;;
  set_epc ep (Some epcp) ;;
  usb_lld_init_endpoint ep.

Definition usbDisableEndpointsI : U unit :=
  ulift chDbgCheckClassI ;;
  st ← uget u_state;
  ulift (chDbgAssert (bool_decide (st = USB_SELECTED)) "usbDisableEndpointsI") ;;
  umod (λ u, set_u_transmitting (u16 (Z.land (u_transmitting u) (inv32 1))) u) ;;
  umod (λ u, set_u_receiving (u16 (Z.land (u_receiving u) (inv32 1))) u) ;;
  umod (λ u, set_u_epc (take 1 (u_epc u) ++ replicate USB_MAX_ENDPOINTS None) u) ;;
  usb_lld_disable_endpoints.

Definition usbPrepareReceive (ep : nat) (buf : uptr) (n : Z) : U unit :=
  c ← epc_of ep;
  upd_epstate (out_state c) (λ st, mkES false n 0 (Linear buf 0) (es_totsize st)) ;;
  usb_lld_prepare_receive ep.
Definition usbPrepareTransmit (ep : nat) (buf : uptr) (n : Z) : U unit :=
  c ← epc_of ep;
  upd_epstate (in_state c) (λ st, mkES false n 0 (Linear buf 0) (es_totsize st)) ;;
  usb_lld_prepare_transmit ep.
Definition usbPrepareQueuedReceive (ep : nat) (iqp : addr) (n : Z) : U unit :=
  c ← epc_of ep;
  upd_epstate (out_state c) (λ st, mkES true n 0 (Queue iqp) (es_totsize st)) ;;
  usb_lld_prepare_receive ep.
Definition usbPrepareQueuedTransmit (ep : nat) (oqp : addr) (n : Z) : U unit :=
  c ← epc_of ep;
  upd_epstate (in_state c) (λ st, mkES true n 0 (Queue oqp) (es_totsize st)) ;;
  usb_lld_prepare_transmit ep.

Definition usbStartReceiveI (ep : nat) : U bool :=
  ulift chDbgCheckClassI ;;
  u ← uget id;
  if usbGetReceiveStatusI u ep then mret true
  else umod (set_u_receiving (Z.lor (u_receiving u) (u16 (bit ep)))) ;; usb_lld_start_out ep ;; mret false.
Definition usbStartTransmitI (ep : nat) : U bool :=
  ulift chDbgCheckClassI ;;
  u ← uget id;
  if usbGetTransmitStatusI u ep then mret true
  else umod (set_u_transmitting (Z.lor (u_transmitting u) (u16 (bit ep)))) ;; usb_lld_start_in ep ;; mret false.
Definition usbStallReceiveI (ep : nat) : U bool :=
  ulift chDbgCheckClassI ;;
  u ← uget id;
  if usbGetReceiveStatusI u ep then mret true else usb_lld_stall_out ep ;; mret false.
Definition usbStallTransmitI (ep : nat) : U bool :=
  ulift chDbgCheckClassI ;;
  u ← uget id;
  if usbGetTransmitStatusI u ep then mret true else usb_lld_stall_in ep ;; mret false.

Definition _usb_reset : U unit :=
  umod (set_u_state USB_READY) ;;
  umod (set_u_status 0) ;;
  umod (set_u_address 0) ;;
  umod (set_u_configuration 0) ;;
  umod (set_u_transmitting 0) ;;
  umod (set_u_receiving 0) ;;
  umod (set_u_epc no_endpoints) ;;
  umod (set_u_ep0state USB_EP0_WAITING_SETUP) ;;
  usb_lld_reset.

(** [osalSysLockFromISR(); (void) usbStart...I(usbp, 0); osalSysUnlockFromISR();] *)
Definition start_transmit : U unit := ulift chSysLockFromISR ;; _ ← usbStartTransmitI 0; ulift chSysUnlockFromISR.
Definition start_receive : U unit := ulift chSysLockFromISR ;; _ ← usbStartReceiveI 0; ulift chSysUnlockFromISR.

(** The error response. *)
Definition ep0_error : U unit :=
  usb_lld_stall_in 0 ;;
  usb_lld_stall_out 0 ;;
  _usb_isr_invoke_event_cb USB_EVENT_STALLED ;;
  umod (set_u_ep0state USB_EP0_ERROR).

(** Whether the application or the default handler accepts the request. *)
Definition request_handled : U bool :=
  c ← uderef u_config;
  hooked ← (match requests_hook_cb c with Some f => run_hook f | None => mret false end);
  if hooked : bool then mret true
  else
    s0 ← setup_byte 0;
    if negb (Z.land s0 USB_RTYPE_TYPE_MASK =? USB_RTYPE_TYPE_STD) then mret false else default_handler.

Definition _usb_ep0setup (ep : nat) : U unit :=
  umod (set_u_ep0state USB_EP0_WAITING_SETUP) ;;
  usb_lld_read_setup ep ;;
  ok ← request_handled;
  if negb ok then ep0_error
  else
    max ← get_hword 6;
    umod (λ u, if max <? u_ep0n u then set_u_ep0n max u else u) ;;
    s0 ← setup_byte 0;
    u ← uget id;
    if Z.land s0 USB_RTYPE_DIR_MASK =? USB_RTYPE_DIR_DEV2HOST then
      if negb (u_ep0n u =? 0) then
        umod (set_u_ep0state USB_EP0_TX) ;; usbPrepareTransmit 0 (u_ep0next u) (u_ep0n u) ;; start_transmit
      else
        umod (set_u_ep0state USB_EP0_WAITING_STS) ;; usbPrepareReceive 0 PNull 0 ;; start_receive
    else
      if negb (u_ep0n u =? 0) then
        umod (set_u_ep0state USB_EP0_RX) ;; usbPrepareReceive 0 (u_ep0next u) (u_ep0n u) ;; start_receive
      else
        umod (set_u_ep0state USB_EP0_SENDING_STS) ;; usbPrepareTransmit 0 PNull 0 ;; start_transmit.

(** [osalDbgAssert(false, "EP0 state machine error")] and what follows it. *)
Definition ep0_invalid (func : string) : U unit := ulift (chDbgAssert false func) ;; ep0_error.

(** The callback at the end of a transfer. *)
Definition ep0_end : U unit :=
  u ← uget id;
  (match u_ep0endcb u with Some f => run_cb f | None => mret () end) ;;
  umod (set_u_ep0state USB_EP0_WAITING_SETUP).

Definition ep0_receive_status : U unit :=
  umod (set_u_ep0state USB_EP0_WAITING_STS) ;; usbPrepareReceive 0 PNull 0 ;; start_receive.

Definition _usb_ep0in (ep : nat) : U unit :=
  st ← uget u_ep0state;
  match st with
  | USB_EP0_TX =>
      max ← get_hword 6;
      u ← uget id;
      c ← epc_of 0;
      (* the remainder by a packet size of 0 is undefined *)
      if (u_ep0n u <? max) && (in_maxsize c =? 0) then ufault
      else if (u_ep0n u <? max) && (u_ep0n u `mod` in_maxsize c =? 0) then
        usbPrepareTransmit 0 PNull 0 ;; start_transmit ;; umod (set_u_ep0state USB_EP0_WAITING_TX0)
      else ep0_receive_status
  | USB_EP0_WAITING_TX0 => ep0_receive_status
  | USB_EP0_SENDING_STS => ep0_end
  | USB_EP0_WAITING_SETUP | USB_EP0_WAITING_STS | USB_EP0_RX => ep0_invalid "_usb_ep0in"
  | USB_EP0_ERROR => ep0_error
  end.

Definition _usb_ep0out (ep : nat) : U unit :=
  st ← uget u_ep0state;
  match st with
  | USB_EP0_RX =>
      umod (set_u_ep0state USB_EP0_SENDING_STS) ;; usbPrepareTransmit 0 PNull 0 ;; start_transmit
  | USB_EP0_WAITING_STS =>
      n ← usb_lld_get_transaction_size 0;
      if negb (n =? 0) then mret () else ep0_end
  | USB_EP0_WAITING_SETUP | USB_EP0_TX | USB_EP0_WAITING_TX0 | USB_EP0_SENDING_STS => ep0_invalid "_usb_ep0out"
  | USB_EP0_ERROR => ep0_error
  end.

(** ** The callbacks of the endpoints (usb.h) *)

Definition run_epcb (f : option epcb) (ep : nat) : U unit :=
  match f with
  | None => ufault
  | Some Ep0Setup => _usb_ep0setup ep
  | Some Ep0In => _usb_ep0in ep
  | Some Ep0Out => _usb_ep0out ep
  | Some (EpUser g) => run_ep g ep
  end.
Definition _usb_isr_invoke_setup_cb (ep : nat) : U unit := c ← epc_of ep; run_epcb (setup_cb c) ep.
Definition _usb_isr_invoke_in_cb (ep : nat) : U unit :=
  umod (λ u, set_u_transmitting (u16 (Z.land (u_transmitting u) (inv32 (bit ep)))) u) ;;
  c ← epc_of ep; run_epcb (in_cb c) ep.
Definition _usb_isr_invoke_out_cb (ep : nat) : U unit :=
  umod (λ u, set_u_receiving (u16 (Z.land (u_receiving u) (inv32 (bit ep)))) u) ;;
  c ← epc_of ep; run_epcb (out_cb c) ep.
End Usb.
