(* ===== verification/Otg.v ===== *)
(** * The OTG driver: FIFOs, interrupts and the pump thread
      (os/hal/ports/STM32/LLD/OTGv1/usb_lld.c)

    What the peripheral shows when it is read is an argument: interrupt flags,
    FIFO levels, and the words in the receive FIFO. *)

From S2P Require Import Prelude Ring TimeMeas Kernel ThreadQueues Sys VTimers Sched Thd IOQueues UsbBase Usb.

(** ** Words *)

(** The word at four bytes of memory, and the bytes of a word. *)
Definition le_word (bs : list Z) : Z := foldr (λ b w, b + 256 * w) 0 bs.
Fixpoint le_bytes (k : nat) (w : Z) : list Z := match k with O => [] | S k => w `mod` 256 :: le_bytes k (w / 256) end.
Definition words_bytes (ws : list Z) : list Z := concat (le_bytes 4 <$> ws).

(** [(n + 3) / 4] *)
Definition words_of (n : nat) : nat := ((n + 3) / 4)%nat.

(** ** Output queues (otg_fifo_write_from_queue) *)

Definition q_set_rd (r : nat) (q : ioqueue) : ioqueue := mkIOQ (q_waiting q) (q_counter q) (q_buffer q) (q_wrptr q) r (q_notify q).
Definition q_set_wr (b : list Z) (w : nat) (q : ioqueue) : ioqueue := mkIOQ (q_waiting q) (q_counter q) b w (q_rdptr q) (q_notify q).

(** otg_do_push from the buffer of a queue at [r]: the words, and the position
    behind the last. *)
Fixpoint push_words (n : nat) (buf : list Z) (r : nat) : option (list Z * nat) :=
  match n with
  | O => Some ([], r)
  | S n =>
      if (r + 4 <=? length buf)%nat then
        '(ws, r') ← push_words n buf (r + 4);
        Some (le_word (take 4 (drop r buf)) :: ws, r')
      else None
  end.

(** One byte at a time: at most [k] of [ntogo] bytes into [w] from bit position [sh]. *)
Fixpoint gather (k ntogo : nat) (buf : list Z) (r : nat) (sh : Z) (w : Z) : option (Z * nat * nat) :=
  match k, ntogo with
  | S k, S ntogo =>
      b ← buf !! r;
      let r := S r in
      let r := if (length buf <=? r)%nat then 0%nat else r in
      gather k ntogo buf r (sh + 8) (Z.lor w (u32 (Z.shiftl b sh)))
  | _, _ => Some (w, ntogo, r)
  end.

(** The loop: the words written to the FIFO and the new read position. *)
Fixpoint write_queue_loop (fuel ntogo : nat) (buf : list Z) (r : nat) : option (list Z * nat) :=
  match ntogo, fuel with
  | O, _ => Some ([], r)
  | _, O => None
  | _, S fuel =>
      let nw := (ntogo / 4)%nat in
      let nw2end := ((length buf - r) / 4)%nat in
      let streak := if (nw <=? nw2end)%nat then nw else nw2end in
      '(ws, ntogo, r, again) ←
        (if (0 <? nw)%nat then
           '(ws, r') ← push_words streak buf r;
           Some (ws, (ntogo - streak * 4)%nat, if (length buf <=? r')%nat then 0%nat else r', (length buf <=? r')%nat)
         else Some ([], ntogo, r, false));
      if again : bool then '(ws', r) ← write_queue_loop fuel ntogo buf r; Some (ws ++ ws', r)
      else if (ntogo <=? 0)%nat then Some (ws, r)
      else
        '(w, ntogo, r) ← gather 4 ntogo buf r 0 0;
        '(ws', r) ← write_queue_loop fuel ntogo buf r;
        Some (ws ++ w :: ws', r)
  end.

(** The end of otg_fifo_write_from_queue and otg_fifo_read_to_queue: [n] is added to the counter and the waiting threads
    are woken. *)
Definition queue_done {A} (qp : addr) (n : nat) (a : A) : M A :=
  chSysLock ;;
  q ← ioq qp;
  set_ioq qp (q_set (q_counter q + Z.of_nat n) (q_buffer q) (q_wrptr q) (q_rdptr q) q) ;;
  chThdDequeueAllI (q_waiting q) Q_OK ;;
  chSchRescheduleS ;;
  chSysUnlock ;;
  mret a.

(** The words written to the FIFO are the result. *)
Definition otg_fifo_write_from_queue (oqp : addr) (n : nat) : M (list Z) :=
  q ← ioq oqp;
  r ← deref (λ _, write_queue_loop n n (q_buffer q) (q_rdptr q));
  set_ioq oqp (q_set_rd r.2 q) ;;
  queue_done oqp n r.1.

(** ** Input queues (otg_fifo_read_to_queue) *)

(** The bytes of [w], at most [k] of [ntogo]. *)
Fixpoint scatter (k ntogo : nat) (w : Z) (buf : list Z) (r : nat) : option (nat * list Z * nat) :=
  match k, ntogo with
  | S k, S ntogo =>
      if (r <? length buf)%nat then
        let buf := <[r := u8 w]> buf in
        let r := S r in
        scatter k ntogo (Z.shiftr w 8) buf (if (length buf <=? r)%nat then 0%nat else r)
      else None
  | _, _ => Some (ntogo, buf, r)
  end.

(** [nw2end] is [(iqp->q_wrptr - iqp->q_wrptr) / 4], that is, 0: no word is ever
    stored at once.  [rx] is what the FIFO gives. *)
Fixpoint read_queue_loop (ntogo_fuel ntogo : nat) (rx : list Z) (buf : list Z) (w : nat) : option (list Z * list Z * nat) :=
  match ntogo, ntogo_fuel with
  | O, _ => Some (rx, buf, w)
  | _, O => None
  | _, S fuel =>
      match rx with
      | [] => None
      | x :: rx =>
          '(ntogo, buf, w) ← scatter 4 ntogo x buf w;
          read_queue_loop fuel ntogo rx buf w
      end
  end.

(** The rest of the receive FIFO is the result. *)
Definition otg_fifo_read_to_queue (iqp : addr) (n : nat) (rx : list Z) : M (list Z) :=
  q ← ioq iqp;
  r ← deref (λ _, read_queue_loop n n rx (q_buffer q) (q_wrptr q));
  set_ioq iqp (q_set_wr r.1.2 r.2 q) ;;
  queue_done iqp n r.1.1.

Section Otg.
Context `{UsbApp}.
(** What follows an object in memory: whole words are read from a buffer, also when
    its length is not a multiple of four. *)
Variable slack : uptr → nat → Z.

(** ** Linear buffers *)

Definition read_byte (p : uptr) (off : nat) : U Z :=
  l ← uderef (λ u, place u p);
  mret (default (slack p off) (l !! off)).
Definition read_word (p : uptr) (off : nat) : U Z :=
  b0 ← read_byte p off; b1 ← read_byte p (off + 1); b2 ← read_byte p (off + 2); b3 ← read_byte p (off + 3);
  mret (le_word [b0; b1; b2; b3]).

Definition fifo_write (ep : nat) (ws : list Z) : U unit :=
  l ← uderef (λ u, FIFO (u_otg u) !! ep);
  upd_otg (λ o, set_FIFO (<[ep := l ++ ws]> (FIFO o)) o).

Fixpoint otg_do_push (ep : nat) (p : uptr) (off n : nat) : U unit :=
  match n with
  | O => mret ()
  | S n => w ← read_word p off; fifo_write ep [w] ;; otg_do_push ep p (off + 4) n
  end.

Definition otg_fifo_write_from_buffer (ep : nat) (p : uptr) (off n : nat) : U unit := otg_do_push ep p off (words_of n).

(** [n] words are taken from the receive FIFO and at most [max] stored. *)
Fixpoint read_to_mem (n max : nat) (rx : list Z) (buf : list Z) (off : nat) : option (list Z * list Z) :=
  match n with
  | O => Some (rx, buf)
  | S n =>
      match rx with
      | [] => None
      | w :: rx =>
          match max with
          | O => read_to_mem n 0 rx buf off
          | S max =>
              if (off + 4 <=? length buf)%nat then
                read_to_mem n max rx (take off buf ++ le_bytes 4 w ++ drop (off + 4) buf) (off + 4)
              else None
          end
      end
  end.

Definition otg_fifo_read_to_buffer (p : uptr) (off n max : nat) (rx : list Z) : U (list Z) :=
  match p with
  | PMem a =>
      buf ← uderef (λ u, u_mem u !! a);
      r ← uderef (λ _, read_to_mem (words_of n) (words_of max) rx buf off);
      umod (λ u, set_u_mem (<[a := r.2]> (u_mem u)) u) ;;
      mret r.1
  | _ => r ← uderef (λ _, read_to_mem (words_of n) 0 rx [] off);
         if (words_of max =? 0)%nat || (words_of n =? 0)%nat then mret r.1 else ufault
  end.

(** ** Packets *)

Definition GRXSTSP_PKTSTS_MASK : Z := Z.shiftl 15 17.
Definition GRXSTSP_PKTSTS (n : Z) : Z := Z.shiftl n 17.
Definition GRXSTSP_OUT_DATA : Z := GRXSTSP_PKTSTS 2.
Definition GRXSTSP_SETUP_DATA : Z := GRXSTSP_PKTSTS 6.
Definition rx_count (sts : Z) : nat := Z.to_nat (Z.shiftr (Z.land sts (Z.shiftl 2047 4)) 4).
Definition rx_ep (sts : Z) : nat := Z.to_nat (Z.land sts 15).

(** An entry of the receive FIFO: the status popped and the words behind it; the
    result is the words left. *)
Definition otg_rxfifo_handler (sts : Z) (rx : list Z) : U (list Z) :=
  let kind := Z.land sts GRXSTSP_PKTSTS_MASK in
  let cnt := rx_count sts in
  let ep := rx_ep sts in
  if kind =? GRXSTSP_SETUP_DATA then
    c ← epc_of ep;
    a ← uderef (λ _, setup_buf c);
    otg_fifo_read_to_buffer (PMem a) 0 cnt 8 rx
  else if kind =? GRXSTSP_OUT_DATA then
    c ← epc_of ep;
    st ← epstate_of (out_state c);
    rx ← (match es_mode st with
          | Queue q => if es_queued st then ulift (otg_fifo_read_to_queue q cnt rx) else ufault
          | Linear p off =>
              if es_queued st then ufault
              else
                rx ← otg_fifo_read_to_buffer p off cnt (Z.to_nat (u32 (es_size st - es_cnt st))) rx;
                upd_epstate (out_state c) (set_es_mode (Linear p (off + cnt))) ;;
                mret rx
          end);
    upd_epstate (out_state c) (λ st, set_es_cnt (u32 (es_cnt st + Z.of_nat cnt)) st) ;;
    mret rx
  else mret rx.

(** [space] is what DTXFSTS shows, in words, each time it is read; every iteration
    but the last reads it. *)
Fixpoint otg_txfifo_handler (space : list Z) (ep : nat) : U bool :=
  c ← epc_of ep;
  st ← epstate_of (in_state c);
  if es_size st <=? es_cnt st then mret true
  else
    let n := es_size st - es_cnt st in
    let n := if in_maxsize c <? n then in_maxsize c else n in
    match space with
    | [] => ufault
    | sp :: space =>
        if u32 (Z.land sp 65535 * 4) <? n then mret false
        else
          (match es_mode st with
           | Queue q =>
               if es_queued st then ws ← ulift (otg_fifo_write_from_queue q (Z.to_nat n)); fifo_write ep ws else ufault
           | Linear p off =>
               if es_queued st then ufault
               else
                 otg_fifo_write_from_buffer ep p off (Z.to_nat n) ;;
                 upd_epstate (in_state c) (set_es_mode (Linear p (off + Z.to_nat n)))
           end) ;;
          upd_epstate (in_state c) (λ st, set_es_cnt (u32 (es_cnt st + n)) st) ;;
          otg_txfifo_handler space ep
    end.

(** ** Interrupts *)

Definition DIEPINT_XFRC : Z := bit 0.
Definition DIEPINT_TXFE : Z := bit 7.
Definition DOEPINT_STUP : Z := bit 3.
Definition DOEPINT_XFRC : Z := bit 0.
Definition hasb (r mask : Z) : bool := negb (Z.land r mask =? 0).

Definition otg_epin_handler (ep : nat) (epint : Z) : U unit :=
  u ← uget id;
  uwhen (hasb epint DIEPINT_XFRC && hasb (DIEPMSK (u_otg u)) (bit 0))
    (c ← epc_of ep;
     st ← epstate_of (in_state c);
     if es_size st <? es_totsize st then
       upd_epstate (in_state c) (λ st, set_es_cnt 0 (set_es_size (es_totsize st - es_size st) st)) ;;
       usb_lld_prepare_transmit ep ;;
       ulift chSysLockFromISR ;; usb_lld_start_in ep ;; ulift chSysUnlockFromISR
     else _usb_isr_invoke_in_cb ep) ;;
  u ← uget id;
  uwhen (hasb epint DIEPINT_TXFE && hasb (DIEPEMPMSK (u_otg u)) (bit ep))
    (ulift chSysLockFromISR ;;
     umod (λ u, set_u_txpending (Z.lor (u_txpending u) (bit ep)) u) ;;
     upd_otg (λ o, set_DIEPEMPMSK (Z.land (DIEPEMPMSK o) (inv32 (bit ep))) o) ;;
     ulift (chThdResumeI (u_wait u) MSG_OK) ;;
     ulift chSysUnlockFromISR).

Definition otg_epout_handler (ep : nat) (epint : Z) : U unit :=
  u ← uget id;
  uwhen (hasb epint DOEPINT_STUP && hasb (DOEPMSK (u_otg u)) (bit 3)) (_usb_isr_invoke_setup_cb ep) ;;
  u ← uget id;
  uwhen (hasb epint DOEPINT_XFRC && hasb (DOEPMSK (u_otg u)) (bit 0))
    (c ← epc_of ep;
     st ← epstate_of (out_state c);
     if es_size st <? es_totsize st then
       upd_epstate (out_state c) (λ st, set_es_cnt 0 (set_es_size (es_totsize st - es_size st) st)) ;;
       usb_lld_prepare_receive ep ;;
       ulift chSysLockFromISR ;; usb_lld_start_out ep ;; ulift chSysUnlockFromISR
     else _usb_isr_invoke_out_cb ep).

Definition GINTSTS_OEPINT : Z := bit 19.
Definition GINTSTS_IEPINT : Z := bit 18.
Definition GINTSTS_USBRST : Z := bit 12.
Definition GINTSTS_RXFLVL : Z := bit 4.
Definition GINTSTS_SOF : Z := bit 3.

(** The endpoints whose flag is set in [src] from bit [base] on. *)
Fixpoint serve_endpoints (handler : nat → Z → U unit) (src : Z) (base : nat) (ints : list Z) (eps : list nat) : U unit :=
  match eps with
  | [] => mret ()
  | ep :: eps =>
      uwhen (hasb src (bit (base + ep))) (i ← uderef (λ _, ints !! ep); handler ep i) ;;
      serve_endpoints handler src base ints eps
  end.

(** [sts] is GINTSTS, [src] DAINT, [dieps] and [doeps] the interrupt registers of
    the endpoints. *)
Definition usb_lld_serve_interrupt (sts src : Z) (dieps doeps : list Z) : U unit :=
  u ← uget id;
  let sts := Z.land sts (GINTMSK (u_otg u)) in
  uwhen (hasb sts GINTSTS_USBRST) (_usb_reset ;; _usb_isr_invoke_event_cb USB_EVENT_RESET) ;;
  uwhen (hasb sts GINTSTS_SOF) _usb_isr_invoke_sof_cb ;;
  uwhen (hasb sts GINTSTS_RXFLVL)
    (ulift chSysLockFromISR ;;
     upd_otg (λ o, set_GINTMSK (Z.land (GINTMSK o) (inv32 GINTSTS_RXFLVL)) o) ;;
     u ← uget id;
     ulift (chThdResumeI (u_wait u) MSG_OK) ;;
     ulift chSysUnlockFromISR) ;;
  uwhen (hasb sts GINTSTS_IEPINT) (serve_endpoints otg_epin_handler src 0 dieps (seq 0 6)) ;;
  uwhen (hasb sts GINTSTS_OEPINT) (serve_endpoints otg_epout_handler src 16 doeps (seq 0 6)).

Definition otg_irq_handler (sts src : Z) (dieps doeps : list Z) : U unit :=
  ulift CH_IRQ_PROLOGUE ;; usb_lld_serve_interrupt sts src dieps doeps ;; ulift CH_IRQ_EPILOGUE.

(** ** The pump thread *)

(** The receive FIFO is emptied: the entries it holds. *)
Fixpoint pump_rx (entries : list (Z * list Z)) : U unit :=
  match entries with
  | [] => mret ()
  | (sts, rx) :: entries => _ ← otg_rxfifo_handler sts rx; pump_rx entries
  end.

(** The loop on the endpoints; [hw] gives for each the entries received by then
    and what DTXFSTS shows. *)
Fixpoint pump_endpoints (hw : list (list (Z * list Z) * list Z)) (ep : nat) : U unit :=
  match hw with
  | [] => mret ()
  | (entries, space) :: hw =>
      pump_rx entries ;;
      u ← uget id;
      uwhen (hasb (u_txpending u) (bit ep))
        (ulift chSysLock ;;
         upd_otg (λ o, set_GAHBCFG (Z.land (GAHBCFG o) (inv32 GAHBCFG_GINTMSK)) o) ;;
         umod (λ u, set_u_txpending (Z.land (u_txpending u) (inv32 (bit ep))) u) ;;
         ulift chSysUnlock ;;
         done ← otg_txfifo_handler space ep;
         ulift chSysLock ;;
         upd_otg (λ o, set_GAHBCFG (Z.lor (GAHBCFG o) GAHBCFG_GINTMSK) o) ;;
         uwhen (negb done) (upd_otg (λ o, set_DIEPEMPMSK (Z.lor (DIEPEMPMSK o) (bit ep)) o)) ;;
         ulift chSysUnlock) ;;
      pump_endpoints hw (S ep)
  end.

(** One iteration of usb_lld_pump, entered and left with the kernel locked;
    [rxflvl] is whether the receive FIFO holds something at the start. *)
Definition pump_iteration (rxflvl : bool) (hw : list (list (Z * list Z) * list Z)) : U unit :=
  u ← uget id;
  uwhen (bool_decide (u_state u = USB_STOP) || ((u_txpending u =? 0) && negb rxflvl))
    (upd_otg (λ o, set_GINTMSK (Z.lor (GINTMSK o) GINTSTS_RXFLVL) o) ;;
     _ ← ulift (chThdSuspendS (u_wait u)); mret ()) ;;
  ulift chSysUnlock ;;
  pump_endpoints hw 0 ;;
  ulift chSysLock.
End Otg.

(** ** Words and bytes *)

Definition byte (b : Z) : Prop := 0 ≤ b < 256.

Lemma le_word_bound bs : Forall byte bs → 0 ≤ le_word bs < 256 ^ Z.of_nat (length bs).
Proof.
  unfold byte. induction 1 as [|b bs Hb _ IH]; [simpl; lia|]. cbn [le_word foldr length].
  rewrite Nat2Z.inj_succ, Z.pow_succ_r by lia. fold (le_word bs). lia.
Qed.

Lemma le_bytes_word bs : Forall byte bs → ∀ k, (length bs ≤ k)%nat → le_bytes k (le_word bs) = bs ++ replicate (k - length bs) 0.
Proof.
  unfold byte. induction 1 as [|b bs Hb _ IH]; intros k Hk.
  - cbn [app length]. change (le_word []) with 0. rewrite Nat.sub_0_r. clear. induction k as [|k IH]; [done|].
    cbn [le_bytes replicate]. by rewrite Zmod_0_l, Zdiv_0_l, IH.
  - destruct k as [|k]; simpl in Hk; [lia|]. cbn [le_word foldr le_bytes length app]. fold (le_word bs).
    replace ((b + 256 * le_word bs) `mod` 256) with b.
    + replace ((b + 256 * le_word bs) / 256) with (le_word bs).
      * rewrite IH by lia. f_equal.
      * rewrite Z.mul_comm, Z.div_add, Z.div_small by lia. lia.
    + rewrite Z.mul_comm, Z.mod_add, Z.mod_small; lia.
Qed.

Lemma le_bytes_length k : ∀ w, length (le_bytes k w) = k.
Proof. induction k as [|k IH]; intros w; [done|]. simpl. by rewrite IH. Qed.

Lemma words_bytes_length ws : length (words_bytes ws) = (4 * length ws)%nat.
Proof. unfold words_bytes. induction ws as [|w ws IH]; [done|]. cbn [fmap list_fmap concat length]. rewrite length_app, IH. simpl length. lia. Qed.

Lemma words_bytes_app ws ws' : words_bytes (ws ++ ws') = words_bytes ws ++ words_bytes ws'.
Proof. unfold words_bytes. by rewrite fmap_app, concat_app. Qed.

Lemma words_of_S n : words_of (S (S (S (S n)))) = S (words_of n).
Proof. unfold words_of. change (S (S (S (S n))) + 3)%nat with (4 + (n + 3))%nat. rewrite (Nat.add_comm 4), <-(Nat.mul_1_l 4) at 1.
  rewrite Nat.div_add by lia. lia. Qed.

(** ** A queue read word by word *)

Lemma ring_drop b w r l m : ring_rep (A := Z) b w r l → (m ≤ length l)%nat → ring_rep b w (wrap (length b) (r + m)) (drop m l).
Proof.
  intros [H1 H2 H3 H4] Hm. split.
  - wrap_cases.
  - rewrite length_drop. lia.
  - rewrite length_drop. subst w. wrap_cases.
  - intros i x. rewrite lookup_drop. intros Hi. apply H4 in Hi as Hx.
    apply lookup_lt_Some in Hi. rewrite <-Hx. f_equal. wrap_cases.
Qed.

Lemma ring_straight b w r l m : ring_rep (A := Z) b w r l → (m ≤ length l)%nat → (r + m ≤ length b)%nat → take m (drop r b) = take m l.
Proof.
  intros [H1 H2 H3 H4] Hm Hr. apply list_eq_same_length with m.
  - rewrite length_take. lia.
  - rewrite length_take, length_drop. lia.
  - intros i x y Hi. rewrite !lookup_take_lt, lookup_drop by done. intros Hx Hy. apply H4 in Hy.
    unfold wrap in Hy. destruct (Nat.leb_spec (length b) (r + i)); [lia|]. congruence.
Qed.

Lemma push_words_ok buf : Forall byte buf → ∀ k r, (r + 4 * k ≤ length buf)%nat →
  ∃ ws, push_words k buf r = Some (ws, (r + 4 * k)%nat) ∧ words_bytes ws = take (4 * k) (drop r buf) ∧ length ws = k.
Proof.
  intros Hb. induction k as [|k IH]; intros r Hr.
  - exists []. split; [|done]. simpl. by rewrite Nat.add_0_r.
  - cbn [push_words]. destruct (Nat.leb_spec (r + 4) (length buf)); [|lia].
    destruct (IH (r + 4)%nat) as (ws & -> & Hw & Hl); [lia|]. simpl mbind.
    eexists. split; [f_equal; f_equal; lia|]. split; [|simpl; by rewrite Hl].
    unfold words_bytes in *. cbn [fmap list_fmap concat]. rewrite Hw, le_bytes_word.
    + rewrite length_take, length_drop. replace (4 - 4 `min` (length buf - r))%nat with 0%nat by lia. rewrite app_nil_r.
      replace (4 * S k)%nat with (4 + 4 * k)%nat by lia. rewrite <-take_take_drop, drop_drop. done.
    + by apply Forall_take, Forall_drop.
    + rewrite length_take. lia.
Qed.

Lemma gather_ok buf w : Forall byte buf → ∀ k ntogo r l sh v,
  ring_rep buf w r l → (ntogo ≤ length l)%nat → 0 ≤ sh → sh + 8 * Z.of_nat k ≤ 32 → 0 ≤ v < 2 ^ sh →
  let m := Nat.min k ntogo in
  ∃ r', gather k ntogo buf r sh v = Some (v + le_word (take m l) * 2 ^ sh, (ntogo - m)%nat, r') ∧ ring_rep buf w r' (drop m l).
Proof.
  intros Hb. induction k as [|k IH]; intros ntogo r l sh v Hr Hl Hsh Hk Hv m.
  - exists r. subst m. simpl. rewrite Nat.sub_0_r. split; [|done]. f_equal. f_equal. f_equal. lia.
  - destruct ntogo as [|ntogo]; [exists r; subst m; simpl; split; [|done]; f_equal; f_equal; f_equal; lia|].
    destruct l as [|x l]; simpl in Hl; [lia|]. destruct (ring_pop _ _ _ _ _ Hr) as [Hx Hr'].
    assert (byte x) as Hbx by by eapply Forall_lookup_1.
    cbn [gather]. rewrite Hx. cbn [mbind option_bind]. cbv zeta.
    change (if (length buf <=? S r)%nat then 0%nat else S r) with (ring_succ (length buf) r).
    unfold byte in Hbx. assert (2 ^ (sh + 8) = 2 ^ sh * 256) as Hp by (rewrite Z.pow_add_r by lia; done).
    assert (0 < 2 ^ sh) by (apply Z.pow_pos_nonneg; lia).
    assert (u32 (Z.shiftl x sh) = Z.shiftl x sh) as ->.
    { apply u32_small. unfold is_u32. rewrite Z.shiftl_mul_pow2 by done. split; [lia|].
      assert (2 ^ (sh + 8) ≤ 2 ^ 32) by (apply Z.pow_le_mono_r; lia). nia. }
    rewrite lor_shift by lia.
    destruct (IH ntogo (ring_succ (length buf) r) l (sh + 8) (v + x * 2 ^ sh) Hr') as (r' & -> & Hr''); [lia|lia|lia|nia|].
    exists r'. subst m. cbn [Nat.min take drop le_word foldr]. split; [|done]. f_equal. f_equal. f_equal.
    fold (le_word (take (Nat.min k ntogo) l)). rewrite Hp. lia.
Qed.

Lemma words_of_4 k n : words_of (4 * k + n) = (k + words_of n)%nat.
Proof. unfold words_of. rewrite <-Nat.add_assoc, Nat.add_comm, Nat.mul_comm, Nat.div_add by lia. lia. Qed.

Lemma words_of_small n : (0 < n ≤ 4)%nat → words_of n = 1%nat.
Proof. intros Hn. unfold words_of. symmetry. apply (Nat.div_unique _ _ _ (n - 1)); lia. Qed.

(** The words of the straight part of the buffer. *)
Lemma straight_ok buf w n r l : Forall byte buf → ring_rep buf w r l → (n ≤ length l)%nat →
  let nw := (n / 4)%nat in
  let nw2end := ((length buf - r) / 4)%nat in
  let streak := if (nw <=? nw2end)%nat then nw else nw2end in
  ∃ ws k, (4 * k ≤ n)%nat ∧
    (if (0 <? nw)%nat then
       '(ws, r') ← push_words streak buf r;
       Some (ws, (n - streak * 4)%nat, if (length buf <=? r')%nat then 0%nat else r', (length buf <=? r')%nat)
     else Some ([], n, r, false))
    = Some (ws, (n - 4 * k)%nat, wrap (length buf) (r + 4 * k), (length buf <=? r + 4 * k)%nat) ∧
    words_bytes ws = take (4 * k) l ∧ length ws = k ∧ (length buf ≤ r + 4 * k → 0 < k)%nat.
Proof.
  intros Hb Hr Hn nw e streak. pose proof (rr_rd _ _ _ _ Hr) as Hrd.
  assert (streak ≤ nw ∧ streak ≤ e)%nat as [Hs1 Hs2] by (unfold streak; destruct (Nat.leb_spec nw e); lia).
  assert (4 * nw ≤ n)%nat by (apply Nat.Div0.mul_div_le). assert (4 * e ≤ length buf - r)%nat by (apply Nat.Div0.mul_div_le).
  destruct (Nat.ltb_spec 0 nw) as [|Hnw].
  - destruct (push_words_ok buf Hb streak r) as (ws & -> & Hw & Hl); [lia|]. exists ws, streak. cbn [mbind option_bind].
    split; [lia|]. split; [|split; [|split; [done|lia]]].
    + rewrite (Nat.mul_comm streak 4). f_equal. f_equal. f_equal. unfold wrap. destruct (Nat.leb_spec (length buf) (r + 4 * streak)); [lia|done].
    + rewrite Hw. apply (ring_straight _ w); [done|lia|lia].
  - exists [], 0%nat. rewrite Nat.mul_0_r, Nat.sub_0_r, Nat.add_0_r. unfold wrap.
    destruct (Nat.leb_spec (length buf) r); [lia|]. split_and!; try done; lia.
Qed.

(** What the FIFO holds after the first [n] bytes of [l]: whole words, the last
    one filled up with zeros. *)
Definition fifo_image (n : nat) (l : list Z) (ws : list Z) : Prop :=
  words_bytes ws = take n l ++ replicate (4 * words_of n - n) 0 ∧ length ws = words_of n.

Lemma fifo_image_app k n l ws ws' : (4 * k ≤ n)%nat → (n ≤ length l)%nat →
  words_bytes ws = take (4 * k) l → length ws = k → fifo_image (n - 4 * k) (drop (4 * k) l) ws' → fifo_image n l (ws ++ ws').
Proof.
  intros Hk Hn Hw Hl [Hw' Hl']. pose proof (words_of_4 k (n - 4 * k)) as Ew.
  replace (4 * k + (n - 4 * k))%nat with n in Ew by lia. unfold fifo_image.
  rewrite words_bytes_app, length_app, Hw, Hw', Hl, Hl', Ew, app_assoc, take_take_drop. split; [|done].
  f_equal; f_equal; lia.
Qed.

(** A word gathered byte by byte: four bytes, or the last ones. *)
Lemma fifo_image_cons n l ws : Forall byte l → (0 < n ≤ length l)%nat →
  fifo_image (n - Nat.min 4 n) (drop (Nat.min 4 n) l) ws → fifo_image n l (le_word (take (Nat.min 4 n) l) :: ws).
Proof.
  intros Hb Hn Hws. destruct (Nat.le_gt_cases 4 n) as [H4|H4].
  - rewrite Nat.min_l in * by done. apply (fifo_image_app 1 n l [_] ws); try done; [lia|].
    unfold words_bytes. cbn [fmap list_fmap concat]. rewrite app_nil_r, le_bytes_word by (first [by apply Forall_take|rewrite length_take; lia]).
    rewrite length_take, Nat.min_l by lia. apply app_nil_r.
  - rewrite Nat.min_r, Nat.sub_diag in * by lia. destruct Hws as [Hw Hl]. change (words_of 0) with 0%nat in *.
    destruct ws; [|done]. unfold fifo_image. rewrite (words_of_small n) by lia. split; [|done].
    unfold words_bytes. cbn [fmap list_fmap concat]. rewrite app_nil_r, le_bytes_word by (first [by apply Forall_take|rewrite length_take; lia]).
    by rewrite length_take, Nat.min_l by lia.
Qed.

Lemma ring_bytes b w r l : Forall byte b → ring_rep b w r l → Forall byte l.
Proof. intros Hb Hr. apply Forall_lookup. intros i x Hi. apply (rr_elt _ _ _ _ Hr) in Hi. by eapply Forall_lookup_1. Qed.

Lemma write_queue_ok buf w : Forall byte buf → ∀ fuel n r l,
  ring_rep buf w r l → (n ≤ length l)%nat → (n ≤ fuel)%nat →
  ∃ ws r', write_queue_loop fuel n buf r = Some (ws, r') ∧ ring_rep buf w r' (drop n l) ∧ fifo_image n l ws.
Proof.
  intros Hb. induction fuel as [|fuel IH]; intros n r l Hr Hn Hf.
  { replace n with 0%nat by lia. by exists [], r. }
  destruct n as [|n']; [by exists [], r|]. cbn [write_queue_loop]. set (n := S n') in *.
  destruct (straight_ok buf w n r l Hb Hr Hn) as (ws & k & Hk & -> & Hw & Hl & Hk0). cbn [mbind option_bind].
  assert (ring_rep buf w (wrap (length buf) (r + 4 * k)) (drop (4 * k) l)) as Hr1 by (apply ring_drop; [done|lia]).
  assert (length (drop (4 * k) l) = length l - 4 * k)%nat as Hdl by apply length_drop.
  assert (∀ ws', fifo_image (n - 4 * k) (drop (4 * k) l) ws' → fifo_image n l (ws ++ ws')) as Happ
    by (intros; by eapply fifo_image_app).
  destruct (Nat.leb_spec (length buf) (r + 4 * k)) as [Hagain|Hno].
  { destruct (IH (n - 4 * k)%nat _ _ Hr1) as (ws' & r' & -> & Hr' & Hw'); [lia|lia|].
    exists (ws ++ ws'), r'. rewrite drop_drop in Hr'. replace (4 * k + (n - 4 * k))%nat with n in Hr' by lia. auto. }
  destruct (Nat.leb_spec (n - 4 * k) 0) as [Hz|Hnz].
  { exists ws, (wrap (length buf) (r + 4 * k)). replace (4 * k)%nat with n in Hr1 |- * by lia. split_and!; try done.
    rewrite <-(app_nil_r ws). apply Happ. by replace (n - 4 * k)%nat with 0%nat by lia. }
  destruct (gather_ok buf w Hb 4 (n - 4 * k)%nat _ _ 0 0 Hr1) as (r2 & -> & Hr2); [lia|lia|lia|lia|].
  set (m := Nat.min 4 (n - 4 * k)) in *. cbn [mbind option_bind].
  destruct (IH (n - 4 * k - m)%nat r2 _ Hr2) as (ws' & r' & -> & Hr' & Hw'); [rewrite length_drop; lia|lia|].
  eexists (ws ++ _ :: ws'), r'. split; [done|]. rewrite !drop_drop in Hr'.
  replace (4 * k + (m + (n - 4 * k - m)))%nat with n in Hr' by lia. split; [done|].
  apply Happ. change (2 ^ 0) with 1. rewrite Z.mul_1_r, Z.add_0_l. apply fifo_image_cons; [|lia|done].
  by apply Forall_drop, (ring_bytes _ _ _ _ Hb Hr).
Qed.

(** ** A queue filled word by word *)

Lemma scatter_ok rd : ∀ k ntogo x buf r l,
  ring_rep buf r rd l → (length l + ntogo ≤ length buf)%nat →
  let m := Nat.min k ntogo in
  ∃ buf' r', scatter k ntogo x buf r = Some ((ntogo - m)%nat, buf', r') ∧
    ring_rep buf' r' rd (l ++ take m (le_bytes k x)) ∧ length buf' = length buf.
Proof.
  induction k as [|k IH]; intros ntogo x buf r l Hr Hl m.
  { exists buf, r. subst m. by rewrite app_nil_r, Nat.sub_0_r. }
  destruct ntogo as [|ntogo]; [exists buf, r; subst m; by rewrite app_nil_r|].
  destruct (ring_push _ _ _ _ (u8 x) Hr) as [Hlt Hr']; [lia|]. cbn [scatter].
  destruct (Nat.ltb_spec r (length buf)); [|lia]. cbv zeta. rewrite length_insert.
  change (if (length buf <=? S r)%nat then 0%nat else S r) with (ring_succ (length buf) r).
  destruct (IH ntogo (Z.shiftr x 8) _ _ _ Hr') as (buf' & r' & -> & Hr'' & Hlen); [rewrite length_app, length_insert; simpl; lia|].
  exists buf', r'. rewrite length_insert in Hlen. split; [done|]. split; [|done]. subst m.
  cbn [Nat.min take le_bytes]. rewrite <-app_assoc in Hr''. rewrite Z.shiftr_div_pow2 in Hr'' by lia. exact Hr''.
Qed.

Lemma read_queue_ok rd : ∀ fuel n rx buf w l,
  ring_rep buf w rd l → (length l + n ≤ length buf)%nat → (n ≤ fuel)%nat → (words_of n ≤ length rx)%nat →
  ∃ buf' w', read_queue_loop fuel n rx buf w = Some (drop (words_of n) rx, buf', w') ∧
    ring_rep buf' w' rd (l ++ take n (words_bytes rx)) ∧ length buf' = length buf.
Proof.
  induction fuel as [|fuel IH]; intros n rx buf w l Hr Hl Hf Hrx.
  { replace n with 0%nat by lia. exists buf, w. by rewrite app_nil_r. }
  destruct n as [|n']; [exists buf, w; by rewrite app_nil_r|]. cbn [read_queue_loop]. set (n := S n') in *.
  assert (words_of n = S (words_of (n - Nat.min 4 n))) as Ew.
  { destruct (Nat.le_gt_cases 4 n).
    - rewrite Nat.min_l by done. pose proof (words_of_4 1 (n - 4)) as E. by replace (4 * 1 + (n - 4))%nat with n in E by lia.
    - rewrite Nat.min_r, Nat.sub_diag by lia. apply words_of_small. lia. }
  rewrite Ew in *. destruct rx as [|x rx]; cbn [length] in Hrx; [lia|].
  destruct (scatter_ok rd 4 n x buf w l Hr Hl) as (buf1 & w1 & -> & Hr1 & Hl1). cbn [mbind option_bind].
  set (m := Nat.min 4 n) in *. assert (length (take m (le_bytes 4 x)) = m) as Hm by (rewrite length_take, le_bytes_length; lia).
  destruct (IH (n - m)%nat rx _ _ _ Hr1) as (buf' & w' & -> & Hr' & Hl'); [rewrite length_app, Hm; lia|lia|lia|].
  exists buf', w'. split; [done|]. split; [|congruence]. rewrite <-app_assoc in Hr'.
  assert (take n (words_bytes (x :: rx)) = take m (le_bytes 4 x) ++ take (n - m) (words_bytes rx)) as ->; [|done].
  unfold words_bytes. cbn [fmap list_fmap concat]. rewrite take_app, le_bytes_length. destruct (Nat.le_gt_cases 4 n).
  - replace m with 4%nat by lia. rewrite !take_ge by (rewrite le_bytes_length; lia). done.
  - replace m with n by lia. rewrite Nat.sub_diag. by replace (n - 4)%nat with 0%nat by lia.
Qed.

(** ** The functions *)

(** The threads waiting on a queue are woken, then the kernel reschedules. *)
Lemma wake_all_ok tqp s : K s →
  ∃ s2, chThdDequeueAllI tqp Q_OK s = Done () s2 ∧ wf s2 ∧ in_S s2 ∧ k_ioq s2 = k_ioq s ∧ qof s2 (QThq tqp) = [] ∧
    (∀ t, k_thd s2 !! t = if decide (t ∈ qof s (QThq tqp))
       then set_p_state CH_STATE_READY ∘ set_p_u (U_msg Q_OK) <$> k_thd s !! t else k_thd s !! t).
Proof.
  intros (Hw & _ & HS). unfold chThdDequeueAllI. mgo.
  destruct (dequeue_all_ok tqp Q_OK (S (length (qof s (QThq tqp)))) s Hw (in_S_I _ HS)) as (s2 & E & W & _ & I & L & Q & H & T); [lia|].
  exists s2. split_and!; try done. unfold in_S. rewrite I, L. apply HS.
Qed.

Lemma queue_done_ok {A} qp (a : A) n q1 s : user s →
  ∃ s2, wf s2 ∧ in_S s2 ∧
    k_ioq s2 !! qp = Some (q_set (q_counter q1 + Z.of_nat n) (q_buffer q1) (q_wrptr q1) (q_rdptr q1) q1) ∧
    qof s2 (QThq (q_waiting q1)) = [] ∧
    (∀ t, k_thd s2 !! t = if decide (t ∈ qof s (QThq (q_waiting q1)))
       then set_p_state CH_STATE_READY ∘ set_p_u (U_msg Q_OK) <$> k_thd s !! t else k_thd s !! t) ∧
    queue_done qp n a (ioq_st qp q1 s) = rbind (chSchRescheduleS s2) (λ _ x, rbind (chSysUnlock x) (λ _ y, Done a y)) ∧
    post K K (queue_done qp n a (ioq_st qp q1 s)) (λ r s', r = a ∧ user s').
Proof.
  intros Hu. set (s0 := ioq_st qp q1 s).
  assert (user s0) as Hu0 by (destruct Hu as (? & ? & ?); split_and!; [by apply (wf_ext s)|by apply (sched_ok_ext s)|done]).
  destruct (lock_user s0 Hu0) as (s1 & El & K1 & D1). pose proof D1 as (_ & Dt & Dq & _ & _ & _ & _ & _ & _ & _ & _ & _ & Di & _).
  set (q2 := q_set (q_counter q1 + Z.of_nat n) (q_buffer q1) (q_wrptr q1) (q_rdptr q1) q1).
  assert (K (ioq_st qp q2 s1)) as K2 by by apply (K_ext s1).
  destruct (wake_all_ok (q_waiting q1) _ K2) as (s2 & Ew & W2 & S2 & I2 & Q2 & T2).
  assert (queue_done qp n a s0 = rbind (chSchRescheduleS s2) (λ _ x, rbind (chSysUnlock x) (λ _ y, Done a y))) as Er.
  { unfold queue_done. mgo. rewrite El. mgo. rewrite (ioq_ok s1 qp q1) by (rewrite Di; apply lookup_insert_eq). mgo.
    unfold set_ioq. mgo. fold q2. fold (ioq_st qp q2 s1). rewrite Ew. by mgo. }
  exists s2. split_and!; try done.
  - rewrite I2. apply lookup_insert_eq.
  - intros t. rewrite T2. unfold qof. cbn [k_q k_thd ioq_st set_k_ioq]. by rewrite Dt, Dq.
  - rewrite Er. by apply resched_unlock_post.
Qed.

Lemma words_of_enough n : (n ≤ 4 * words_of n)%nat.
Proof. unfold words_of. pose proof (Nat.div_mod_eq (n + 3) 4). pose proof (Nat.mod_upper_bound (n + 3) 4). lia. Qed.

(** C19.  otg_fifo_write_from_queue on an output queue holding at least n
    bytes: the words pushed into the FIFO are the oldest n bytes in order, four to
    a word from the low byte, the last word filled up with zeros, whether the
    bytes are contiguous or wrap at the end of the buffer; the queue loses these
    bytes, every thread waiting for room is ready with Q_OK, and the function
    returns after the reschedule. *)
Theorem otg_write_queue_correct s oqp q l n :
  user s → k_ioq s !! oqp = Some q → oq_inv oqp l s → Forall byte (q_buffer q) → (n ≤ length l)%nat →
  ∃ ws s2, fifo_image n l ws ∧ wf s2 ∧ in_S s2 ∧ oq_inv oqp (drop n l) s2 ∧ qof s2 (QThq (q_waiting q)) = [] ∧
    (∀ t, k_thd s2 !! t = if decide (t ∈ qof s (QThq (q_waiting q)))
       then set_p_state CH_STATE_READY ∘ set_p_u (U_msg Q_OK) <$> k_thd s !! t else k_thd s !! t) ∧
    otg_fifo_write_from_queue oqp n s = rbind (chSchRescheduleS s2) (λ _ x, rbind (chSysUnlock x) (λ _ y, Done ws y)) ∧
    post K K (otg_fifo_write_from_queue oqp n s) (λ r s', r = ws ∧ user s').
Proof.
  intros Hu Eq (q' & Eq' & Hr & Hc) Hb Hn. simplify_eq.
  destruct (write_queue_ok (q_buffer q) (q_wrptr q) Hb n n (q_rdptr q) l Hr Hn) as (ws & r' & E & Hr' & Hws); [done|].
  assert (otg_fifo_write_from_queue oqp n s = queue_done oqp n ws (ioq_st oqp (q_set_rd r' q) s)) as ->.
  { unfold otg_fifo_write_from_queue. mgo. rewrite (ioq_ok _ _ _ Eq). mgo. unfold deref. rewrite E. by mgo. }
  destruct (queue_done_ok oqp ws n (q_set_rd r' q) s Hu) as (s2 & W2 & S2 & I2 & Q2 & T2 & E2 & P2).
  exists ws, s2. split_and!; try done.
  eexists. split; [exact I2|]. split; [exact Hr'|]. simpl. rewrite length_drop, Hc. lia.
Qed.

(** C20.  otg_fifo_read_to_queue on an input queue with room for n bytes: the
    first n bytes of the packet in the receive FIFO are appended to the queue in
    order, the words of the packet are consumed and no other, every thread waiting
    for data is ready with Q_OK, and the function returns after the reschedule. *)
Theorem otg_read_queue_correct s iqp q l n rx :
  user s → k_ioq s !! iqp = Some q → iq_inv iqp l s →
  (length l + n ≤ length (q_buffer q))%nat → (words_of n ≤ length rx)%nat →
  ∃ s2, wf s2 ∧ in_S s2 ∧ iq_inv iqp (l ++ take n (words_bytes rx)) s2 ∧ qof s2 (QThq (q_waiting q)) = [] ∧
    (∀ t, k_thd s2 !! t = if decide (t ∈ qof s (QThq (q_waiting q)))
       then set_p_state CH_STATE_READY ∘ set_p_u (U_msg Q_OK) <$> k_thd s !! t else k_thd s !! t) ∧
    otg_fifo_read_to_queue iqp n rx s =
      rbind (chSchRescheduleS s2) (λ _ x, rbind (chSysUnlock x) (λ _ y, Done (drop (words_of n) rx) y)) ∧
    post K K (otg_fifo_read_to_queue iqp n rx s) (λ r s', r = drop (words_of n) rx ∧ user s').
Proof.
  intros Hu Eq (q' & Eq' & Hr & Hc) Hn Hrx. simplify_eq.
  destruct (read_queue_ok (q_rdptr q) n n rx (q_buffer q) (q_wrptr q) l Hr Hn) as (buf' & w' & E & Hr' & Hlen); [done|done|].
  assert (otg_fifo_read_to_queue iqp n rx s = queue_done iqp n (drop (words_of n) rx) (ioq_st iqp (q_set_wr buf' w' q) s)) as ->.
  { unfold otg_fifo_read_to_queue. mgo. rewrite (ioq_ok _ _ _ Eq). mgo. unfold deref. rewrite E. by mgo. }
  destruct (queue_done_ok iqp (drop (words_of n) rx) n (q_set_wr buf' w' q) s Hu) as (s2 & W2 & S2 & I2 & Q2 & T2 & E2 & P2).
  exists s2. split_and!; try done.
  eexists. split; [exact I2|]. split; [exact Hr'|]. simpl. rewrite length_app, length_take, words_bytes_length, Hc.
  pose proof (words_of_enough n). lia.
Qed.
