(* ===== verification/Ep0.v ===== *)
(** * Control transfers on endpoint 0

    The functions of usb.c and usb_lld.c composed the way the interrupts and the
    pump thread compose them during a control transfer, and what the host sees.
    The part of the host and of the OTG core are the [host_] functions: they
    follow the documented behaviour of the core's registers and FIFOs, and drive
    the functions of the driver. *)

From S2P Require Import Prelude Ring TimeMeas Kernel ThreadQueues Sys VTimers Sched Thd IOQueues UsbBase Usb Otg.

Section Host.
Context `{UsbApp}.
Variable slack : uptr → nat → Z.

(** ** The host and the core *)

(** An IN transaction: the core sends the packet programmed in DIEPTSIZ from the
    transmit FIFO and disables the endpoint. *)
Definition host_in : U (list Z) :=
  r ← uderef (λ u, ie (u_otg u) !! 0%nat);
  l ← uderef (λ u, FIFO (u_otg u) !! 0%nat);
  let n := Z.to_nat (Z.land (DIEPTSIZ r) 127) in
  if hasb (DIEPCTL r) DIEPCTL_EPENA && (words_of n <=? length l)%nat then
    upd_otg (λ o, set_FIFO (<[0%nat := drop (words_of n) l]> (FIFO o)) o) ;;
    upd_ie 0 (λ r, mkIE (Z.land (DIEPCTL r) (inv32 DIEPCTL_EPENA)) 0) ;;
    mret (take n (words_bytes l))
  else ufault.

(** While the endpoint is enabled: the pump thread fills the FIFO, which has room
    for 16 words, a packet goes to the host, its end is an interrupt.  The packets
    are the result. *)
Fixpoint host_in_stage (fuel : nat) : U (list (list Z)) :=
  r ← uderef (λ u, ie (u_otg u) !! 0%nat);
  if hasb (DIEPCTL r) DIEPCTL_EPENA then
    match fuel with
    | O => ufault
    | S fuel =>
        _ ← otg_txfifo_handler slack [16] 0;
        p ← host_in;
        otg_epin_handler 0 DIEPINT_XFRC ;;
        ps ← host_in_stage fuel;
        mret (p :: ps)
    end
  else mret [].

(** The status word of an entry of the receive FIFO. *)
Definition rx_status (kind : Z) (count ep : nat) : Z := Z.lor kind (Z.lor (Z.shiftl (Z.of_nat count) 4) (Z.of_nat ep)).

(** A SETUP packet [bs]: its words in the receive FIFO, then the interrupt. *)
Definition host_setup (bs : list Z) : U unit :=
  _ ← otg_rxfifo_handler (rx_status GRXSTSP_SETUP_DATA 8 0) [le_word (take 4 bs); le_word (drop 4 bs)];
  otg_epout_handler 0 DOEPINT_STUP.

(** An OUT packet without data. *)
Definition host_out_status : U unit :=
  _ ← otg_rxfifo_handler (rx_status GRXSTSP_OUT_DATA 0 0) [];
  otg_epout_handler 0 DOEPINT_XFRC.

(** A control transfer that reads, and one without a data stage. *)
Definition control_read (fuel : nat) (bs : list Z) : U (list (list Z)) :=
  host_setup bs ;; ps ← host_in_stage fuel; host_out_status ;; mret ps.
Definition control_nodata (bs : list Z) : U (list (list Z)) := host_setup bs ;; host_in_stage 1.

(** What the host takes as the data: packets up to one shorter than 64 bytes or
    until it has as many bytes as it asked for; also the packets left over. *)
Fixpoint host_collect (want : nat) (ps : list (list Z)) : list Z * list (list Z) :=
  match ps with
  | [] => ([], [])
  | p :: ps =>
      if (length p <? 64)%nat || (want <=? length p)%nat then (p, ps)
      else let '(d, r) := host_collect (want - length p) ps in (p ++ d, r)
  end.
End Host.

(** ** The endpoint 0 part of a driver

    What the control transfers read and write, apart from the rest of the driver. *)

(** What the endpoint 0 part leaves alone, and what is done with other endpoints
    depends on: the configurations, the FIFO memory, the number of FIFOs. *)
Record usbrest := mkRest {
  r_epc : list (option USBEndpointConfig);
  r_pmnext : Z;
  r_params : otg_params;
  r_txf : nat;
  r_fifos : nat
}.
Definition rest_of (u : usbdrv) : usbrest :=
  mkRest (u_epc u) (u_pmnext u) (u_params u) (length (DIEPTXF (u_otg u))) (length (FIFO (u_otg u))).

Record ep0view := mkV {
  v_st : epstate;
  v_ri : otg_in_ep;
  v_ro : otg_out_ep;
  v_ff : list Z;
  v_tx : Z;
  v_rx : Z;
  v_ep0state : usbep0state;
  v_next : uptr;
  v_n : Z;
  v_endcb : option positive;
  v_setup : list Z;
  v_status : Z;
  v_address : Z;
  v_configuration : Z;
  v_state : usbstate;
  v_config : option USBConfig;
  v_mem : gmap addr (list Z);
  v_dcfg : Z;
  v_rest : usbrest
}.
Definition set_v_st (x : epstate) (v : ep0view) : ep0view := mkV x (v_ri v) (v_ro v) (v_ff v) (v_tx v) (v_rx v) (v_ep0state v) (v_next v) (v_n v) (v_endcb v) (v_setup v) (v_status v) (v_address v) (v_configuration v) (v_state v) (v_config v) (v_mem v) (v_dcfg v) (v_rest v).
Definition set_v_ri (x : otg_in_ep) (v : ep0view) : ep0view := mkV (v_st v) x (v_ro v) (v_ff v) (v_tx v) (v_rx v) (v_ep0state v) (v_next v) (v_n v) (v_endcb v) (v_setup v) (v_status v) (v_address v) (v_configuration v) (v_state v) (v_config v) (v_mem v) (v_dcfg v) (v_rest v).
Definition set_v_ro (x : otg_out_ep) (v : ep0view) : ep0view := mkV (v_st v) (v_ri v) x (v_ff v) (v_tx v) (v_rx v) (v_ep0state v) (v_next v) (v_n v) (v_endcb v) (v_setup v) (v_status v) (v_address v) (v_configuration v) (v_state v) (v_config v) (v_mem v) (v_dcfg v) (v_rest v).
Definition set_v_ff (x : list Z) (v : ep0view) : ep0view := mkV (v_st v) (v_ri v) (v_ro v) x (v_tx v) (v_rx v) (v_ep0state v) (v_next v) (v_n v) (v_endcb v) (v_setup v) (v_status v) (v_address v) (v_configuration v) (v_state v) (v_config v) (v_mem v) (v_dcfg v) (v_rest v).
Definition set_v_tx (x : Z) (v : ep0view) : ep0view := mkV (v_st v) (v_ri v) (v_ro v) (v_ff v) x (v_rx v) (v_ep0state v) (v_next v) (v_n v) (v_endcb v) (v_setup v) (v_status v) (v_address v) (v_configuration v) (v_state v) (v_config v) (v_mem v) (v_dcfg v) (v_rest v).
Definition set_v_rx (x : Z) (v : ep0view) : ep0view := mkV (v_st v) (v_ri v) (v_ro v) (v_ff v) (v_tx v) x (v_ep0state v) (v_next v) (v_n v) (v_endcb v) (v_setup v) (v_status v) (v_address v) (v_configuration v) (v_state v) (v_config v) (v_mem v) (v_dcfg v) (v_rest v).
Definition set_v_ep0state (x : usbep0state) (v : ep0view) : ep0view := mkV (v_st v) (v_ri v) (v_ro v) (v_ff v) (v_tx v) (v_rx v) x (v_next v) (v_n v) (v_endcb v) (v_setup v) (v_status v) (v_address v) (v_configuration v) (v_state v) (v_config v) (v_mem v) (v_dcfg v) (v_rest v).
Definition set_v_next (x : uptr) (v : ep0view) : ep0view := mkV (v_st v) (v_ri v) (v_ro v) (v_ff v) (v_tx v) (v_rx v) (v_ep0state v) x (v_n v) (v_endcb v) (v_setup v) (v_status v) (v_address v) (v_configuration v) (v_state v) (v_config v) (v_mem v) (v_dcfg v) (v_rest v).
Definition set_v_n (x : Z) (v : ep0view) : ep0view := mkV (v_st v) (v_ri v) (v_ro v) (v_ff v) (v_tx v) (v_rx v) (v_ep0state v) (v_next v) x (v_endcb v) (v_setup v) (v_status v) (v_address v) (v_configuration v) (v_state v) (v_config v) (v_mem v) (v_dcfg v) (v_rest v).
Definition set_v_endcb (x : option positive) (v : ep0view) : ep0view := mkV (v_st v) (v_ri v) (v_ro v) (v_ff v) (v_tx v) (v_rx v) (v_ep0state v) (v_next v) (v_n v) x (v_setup v) (v_status v) (v_address v) (v_configuration v) (v_state v) (v_config v) (v_mem v) (v_dcfg v) (v_rest v).
Definition set_v_setup (x : list Z) (v : ep0view) : ep0view := mkV (v_st v) (v_ri v) (v_ro v) (v_ff v) (v_tx v) (v_rx v) (v_ep0state v) (v_next v) (v_n v) (v_endcb v) x (v_status v) (v_address v) (v_configuration v) (v_state v) (v_config v) (v_mem v) (v_dcfg v) (v_rest v).
Definition set_v_status (x : Z) (v : ep0view) : ep0view := mkV (v_st v) (v_ri v) (v_ro v) (v_ff v) (v_tx v) (v_rx v) (v_ep0state v) (v_next v) (v_n v) (v_endcb v) (v_setup v) x (v_address v) (v_configuration v) (v_state v) (v_config v) (v_mem v) (v_dcfg v) (v_rest v).
Definition set_v_address (x : Z) (v : ep0view) : ep0view := mkV (v_st v) (v_ri v) (v_ro v) (v_ff v) (v_tx v) (v_rx v) (v_ep0state v) (v_next v) (v_n v) (v_endcb v) (v_setup v) (v_status v) x (v_configuration v) (v_state v) (v_config v) (v_mem v) (v_dcfg v) (v_rest v).
Definition set_v_configuration (x : Z) (v : ep0view) : ep0view := mkV (v_st v) (v_ri v) (v_ro v) (v_ff v) (v_tx v) (v_rx v) (v_ep0state v) (v_next v) (v_n v) (v_endcb v) (v_setup v) (v_status v) (v_address v) x (v_state v) (v_config v) (v_mem v) (v_dcfg v) (v_rest v).
Definition set_v_state (x : usbstate) (v : ep0view) : ep0view := mkV (v_st v) (v_ri v) (v_ro v) (v_ff v) (v_tx v) (v_rx v) (v_ep0state v) (v_next v) (v_n v) (v_endcb v) (v_setup v) (v_status v) (v_address v) (v_configuration v) x (v_config v) (v_mem v) (v_dcfg v) (v_rest v).
Definition set_v_config (x : option USBConfig) (v : ep0view) : ep0view := mkV (v_st v) (v_ri v) (v_ro v) (v_ff v) (v_tx v) (v_rx v) (v_ep0state v) (v_next v) (v_n v) (v_endcb v) (v_setup v) (v_status v) (v_address v) (v_configuration v) (v_state v) x (v_mem v) (v_dcfg v) (v_rest v).
Definition set_v_mem (x : gmap addr (list Z)) (v : ep0view) : ep0view := mkV (v_st v) (v_ri v) (v_ro v) (v_ff v) (v_tx v) (v_rx v) (v_ep0state v) (v_next v) (v_n v) (v_endcb v) (v_setup v) (v_status v) (v_address v) (v_configuration v) (v_state v) (v_config v) x (v_dcfg v) (v_rest v).
Definition set_v_dcfg (x : Z) (v : ep0view) : ep0view := mkV (v_st v) (v_ri v) (v_ro v) (v_ff v) (v_tx v) (v_rx v) (v_ep0state v) (v_next v) (v_n v) (v_endcb v) (v_setup v) (v_status v) (v_address v) (v_configuration v) (v_state v) (v_config v) (v_mem v) x (v_rest v).
Definition set_v_rest (x : usbrest) (v : ep0view) : ep0view := mkV (v_st v) (v_ri v) (v_ro v) (v_ff v) (v_tx v) (v_rx v) (v_ep0state v) (v_next v) (v_n v) (v_endcb v) (v_setup v) (v_status v) (v_address v) (v_configuration v) (v_state v) (v_config v) (v_mem v) (v_dcfg v) x.

(** The register file has 16 endpoints of each direction, the cell uses no more,
    and its FIFO memory holds the receive FIFO and the one of endpoint 0. *)
Definition otg_wf (u : usbdrv) : Prop :=
  length (ie (u_otg u)) = 16%nat ∧ length (oe (u_otg u)) = 16%nat ∧ (num_endpoints (u_params u) ≤ 15)%nat ∧
  0 ≤ rx_fifo_size (u_params u) ∧ rx_fifo_size (u_params u) + 16 ≤ otg_ram_size (u_params u) < 2 ^ 32.

Record views (u : usbdrv) (v : ep0view) : Prop := {
  vw_wf : otg_wf u;
  vw_epc : u_epc u !! 0%nat = Some (Some ep0config);
  vw_st : u_eps u !! ep0_state = Some (v_st v);
  vw_ri : ie (u_otg u) !! 0%nat = Some (v_ri v);
  vw_ro : oe (u_otg u) !! 0%nat = Some (v_ro v);
  vw_ff : FIFO (u_otg u) !! 0%nat = Some (v_ff v);
  vw_tx : u_transmitting u = v_tx v;
  vw_rx : u_receiving u = v_rx v;
  vw_ep0state : u_ep0state u = v_ep0state v;
  vw_next : u_ep0next u = v_next v;
  vw_n : u_ep0n u = v_n v;
  vw_endcb : u_ep0endcb u = v_endcb v;
  vw_setup : u_setup u = v_setup v;
  vw_status : u_status u = v_status v;
  vw_address : u_address u = v_address v;
  vw_configuration : u_configuration u = v_configuration v;
  vw_state : u_state u = v_state v;
  vw_config : u_config u = v_config v;
  vw_mem : u_mem u = v_mem v;
  vw_dcfg : DCFG (u_otg u) = v_dcfg v;
  vw_rest : rest_of u = v_rest v;
  vw_diepmsk : hasb (DIEPMSK (u_otg u)) (bit 0) = true;
  vw_doepmsk : hasb (DOEPMSK (u_otg u)) (bit 0) = true ∧ hasb (DOEPMSK (u_otg u)) (bit 3) = true
}.

(** [m] takes every driver that shows [v], from a kernel state of level [l], to one
    that shows [v'], with result [a] and level [l']; nothing else of the kernel
    changes. *)
Definition vsteps {A} (l : kst → Prop) (v : ep0view) (m : U A) (a : A) (v' : ep0view) (l' : kst → Prop) : Prop :=
  ∀ u s, views u v → l s → ∃ u' s', m u s = Done (a, u') s' ∧ views u' v' ∧ l' s' ∧ same_data s s'.

(** ** Bits *)

Lemma testbit_bit n m : Z.testbit (bit n) m = bool_decide (m = Z.of_nat n).
Proof.
  unfold bit. destruct (Z.eqb_spec m (Z.of_nat n)) as [->|Hne].
  - rewrite Z.pow2_bits_true, bool_decide_true by (done || lia). done.
  - rewrite Z.pow2_bits_false, bool_decide_false by (done || lia). done.
Qed.

Lemma hasb_bit x n : hasb x (bit n) = Z.testbit x (Z.of_nat n).
Proof.
  unfold hasb. destruct (Z.testbit x (Z.of_nat n)) eqn:E; destruct (Z.eqb_spec (Z.land x (bit n)) 0) as [H|H]; try done.
  - apply (f_equal (λ z, Z.testbit z (Z.of_nat n))) in H. by rewrite Z.land_spec, E, testbit_bit, bool_decide_true, Z.bits_0 in H by done.
  - destruct H. apply Z.bits_inj'. intros m Hm. rewrite Z.land_spec, testbit_bit, Z.bits_0.
    case_bool_decide as Hn; [|apply andb_false_r]. by rewrite Hn, E.
Qed.

Lemma hasb_set x n y : hasb (Z.lor x (Z.lor (bit n) y)) (bit n) = true.
Proof. by rewrite hasb_bit, !Z.lor_spec, testbit_bit, bool_decide_true, orb_true_r. Qed.

Lemma hasb_set' x n : hasb (Z.lor x (bit n)) (bit n) = true.
Proof. by rewrite hasb_bit, !Z.lor_spec, testbit_bit, bool_decide_true, orb_true_r. Qed.

Lemma hasb_lor_ne x m n : n ≠ m → hasb x (bit n) = false → hasb (Z.lor x (bit m)) (bit n) = false.
Proof. intros Hne. rewrite !hasb_bit, Z.lor_spec, testbit_bit. intros ->. rewrite bool_decide_false by lia. done. Qed.

Lemma hasb_clear x n : (n < 32)%nat → hasb (Z.land x (inv32 (bit n))) (bit n) = false.
Proof.
  intros Hn. rewrite hasb_bit, Z.land_spec. unfold inv32, u32.
  rewrite Z.mod_pow2_bits_low, Z.lnot_spec, testbit_bit, bool_decide_true by lia. apply andb_false_r.
Qed.

Lemma hasb_u16 x n : (n < 16)%nat → hasb (u16 x) (bit n) = hasb x (bit n).
Proof. intros Hn. rewrite !hasb_bit. unfold u16. by rewrite Z.mod_pow2_bits_low by lia. Qed.

Lemma busy_0 x : Z.land x (u16 (bit 0)) =? 0 = negb (hasb x (bit 0)).
Proof. change (u16 (bit 0)) with (bit 0). unfold hasb. by rewrite negb_involutive. Qed.

(** What a driver that shows [v] has at a place. *)
Definition vplace (v : ep0view) (p : uptr) : option (list Z) :=
  match p with
  | PNull => None
  | PStatus => Some [v_status v `mod` 256; v_status v / 256]
  | PConfiguration => Some [v_configuration v]
  | PZeroStatus | PActiveStatus => Some [0; 0]
  | PHaltedStatus => Some [1; 0]
  | PMem a => v_mem v !! a
  end.

Lemma place_view u v p : views u v → place u p = vplace v p.
Proof. intros []. destruct p; simpl; congruence. Qed.

(** The packet sizes an endpoint 0 register can hold. *)
Lemma xfrsiz_ok n : 0 ≤ n ≤ 64 → Z.land (Z.lor (DIEPTSIZ_PKTCNT 1) n) 127 = n.
Proof.
  intros Hn. assert (forallb (λ m, Z.land (Z.lor (DIEPTSIZ_PKTCNT 1) m) 127 =? m) (seqZ 0 65) = true) as Hf by (vm_compute; reflexivity).
  rewrite forallb_forall in Hf. apply Z.eqb_eq, Hf, list_elem_of_In, elem_of_seqZ. lia.
Qed.

Section Rules.
Context `{UsbApp}.
Implicit Types (l : kst → Prop) (v : ep0view).

Lemma vs_ret {A} l v (a : A) : vsteps l v (mret a) a v l.
Proof. intros u s Hv Hs. exists u, s. split_and!; try done. Qed.

Lemma vs_bind {A B} l v (m : U A) (k : A → U B) a v1 l1 b v' l' :
  vsteps l v m a v1 l1 → vsteps l1 v1 (k a) b v' l' → vsteps l v (m ≫= k) b v' l'.
Proof.
  intros Hm Hk u s Hv Hs. destruct (Hm u s Hv Hs) as (u1 & s1 & E1 & V1 & L1 & D1).
  destruct (Hk u1 s1 V1 L1) as (u2 & s2 & E2 & V2 & L2 & D2). exists u2, s2.
  split_and!; try done; [|by eapply same_data_tr]. change (rbind (m u s) (λ r s', k r.1 r.2 s') = Done (b, u2) s2). by rewrite E1.
Qed.

(** A step that leaves the kernel alone. *)
Lemma vs_pure {A} l v (m : U A) a v' : (∀ u s, views u v → ∃ u', m u s = Done (a, u') s ∧ views u' v') → vsteps l v m a v' l.
Proof. intros Hm u s Hv Hs. destruct (Hm u s Hv) as (u' & E & V). exists u', s. split_and!; try done. Qed.

Lemma vs_mod l v f v' : (∀ u, views u v → views (f u) v') → vsteps l v (umod f) tt v' l.
Proof. intros Hf. apply vs_pure. intros u s Hv. exists (f u). split; [done|auto]. Qed.

Lemma vs_deref {A} l v (f : usbdrv → option A) a : (∀ u, views u v → f u = Some a) → vsteps l v (uderef f) a v l.
Proof. intros Hf. apply vs_pure. intros u s Hv. exists u. unfold uderef. by rewrite Hf. Qed.

(** The continuation of a read sees a driver that shows [v]. *)
Lemma vs_get {A B} l v (f : usbdrv → A) (k : A → U B) b v' l' :
  (∀ u, views u v → vsteps l v (k (f u)) b v' l') → vsteps l v (uget f ≫= k) b v' l'.
Proof. intros Hk u s Hv Hs. exact (Hk u Hv u s Hv Hs). Qed.

Lemma vs_lock v : vsteps isr_open v (ulift chSysLockFromISR) tt v isr_locked.
Proof.
  intros u s Hv [Hi Hl]. destruct (chSysLockFromISR_ok s) as (s' & E & I & N & D); [split; lia|].
  exists u, s'. unfold ulift. rewrite E. split_and!; try done. split; [lia|apply I].
Qed.

Lemma vs_unlock v : vsteps isr_locked v (ulift chSysUnlockFromISR) tt v isr_open.
Proof.
  intros u s Hv [Hi Hl]. destruct (chSysUnlockFromISR_ok s) as (s' & E & I & N & D); [split; lia|lia|].
  exists u, s'. unfold ulift. rewrite E. split_and!; try done. split; [lia|apply I].
Qed.

Lemma vs_classI v : vsteps isr_locked v (ulift chDbgCheckClassI) tt v isr_locked.
Proof.
  intros u s Hv [Hi Hl]. exists u, s. unfold ulift. rewrite classI_ok by (split; lia). split_and!; try done.
Qed.

Lemma vs_epc l v : vsteps l v (epc_of 0) ep0config v l.
Proof. apply vs_deref. intros u Hv. rewrite (vw_epc _ _ Hv). done. Qed.

Lemma vs_epstate l v : vsteps l v (epstate_of (Some ep0_state)) (v_st v) v l.
Proof. apply vs_deref. intros u Hv. apply (vw_st _ _ Hv). Qed.

Ltac vw := intros ? []; split; simpl; try done; try (by rewrite lookup_insert_eq); try (by rewrite lookup_insert_ne by done);
  try (unfold otg_wf in *; simpl; rewrite ?length_alter; done); try (unfold rest_of in *; simpl; rewrite ?length_insert; done).

Lemma vs_upd_epstate l v f : vsteps l v (upd_epstate (Some ep0_state) f) tt (set_v_st (f (v_st v)) v) l.
Proof. eapply vs_bind; [apply vs_epstate|]. apply vs_mod. vw. Qed.

Lemma vs_set_tx l v x : vsteps l v (umod (set_u_transmitting x)) tt (set_v_tx x v) l.
Proof. apply vs_mod. vw. Qed.
Lemma vs_set_rx l v x : vsteps l v (umod (set_u_receiving x)) tt (set_v_rx x v) l.
Proof. apply vs_mod. vw. Qed.
Lemma vs_set_ep0state l v x : vsteps l v (umod (set_u_ep0state x)) tt (set_v_ep0state x v) l.
Proof. apply vs_mod. vw. Qed.
Lemma vs_set_next l v x : vsteps l v (umod (set_u_ep0next x)) tt (set_v_next x v) l.
Proof. apply vs_mod. vw. Qed.
Lemma vs_set_n l v x : vsteps l v (umod (set_u_ep0n x)) tt (set_v_n x v) l.
Proof. apply vs_mod. vw. Qed.
Lemma vs_set_endcb l v x : vsteps l v (umod (set_u_ep0endcb x)) tt (set_v_endcb x v) l.
Proof. apply vs_mod. vw. Qed.
Lemma vs_set_setup l v x : vsteps l v (umod (set_u_setup x)) tt (set_v_setup x v) l.
Proof. apply vs_mod. vw. Qed.
Lemma vs_set_status l v x : vsteps l v (umod (set_u_status x)) tt (set_v_status x v) l.
Proof. apply vs_mod. vw. Qed.
Lemma vs_set_address l v x : vsteps l v (umod (set_u_address x)) tt (set_v_address x v) l.
Proof. apply vs_mod. vw. Qed.
Lemma vs_set_configuration l v x : vsteps l v (umod (set_u_configuration x)) tt (set_v_configuration x v) l.
Proof. apply vs_mod. vw. Qed.
Lemma vs_set_state l v x : vsteps l v (umod (set_u_state x)) tt (set_v_state x v) l.
Proof. apply vs_mod. vw. Qed.
Lemma vs_mod_tx l v f : vsteps l v (umod (λ u, set_u_transmitting (f (u_transmitting u)) u)) tt (set_v_tx (f (v_tx v)) v) l.
Proof. apply vs_mod. vw. congruence. Qed.
Lemma vs_mod_status l v f : vsteps l v (umod (λ u, set_u_status (f (u_status u)) u)) tt (set_v_status (f (v_status v)) v) l.
Proof. apply vs_mod. vw. congruence. Qed.
Lemma vs_mod_rx l v f : vsteps l v (umod (λ u, set_u_receiving (f (u_receiving u)) u)) tt (set_v_rx (f (v_rx v)) v) l.
Proof. apply vs_mod. vw. congruence. Qed.

Lemma alter_head {A} (f : A → A) (l : list A) x : l !! 0%nat = Some x → alter f 0%nat l !! 0%nat = Some (f x).
Proof. destruct l; simpl; congruence. Qed.

Lemma vs_upd_ie l v f : vsteps l v (upd_ie 0 f) tt (set_v_ri (f (v_ri v)) v) l.
Proof. eapply vs_bind; [apply vs_deref; intros u Hv; apply (vw_ri _ _ Hv)|]. apply vs_mod. vw. by apply alter_head. Qed.

Lemma vs_upd_oe l v f : vsteps l v (upd_oe 0 f) tt (set_v_ro (f (v_ro v)) v) l.
Proof. eapply vs_bind; [apply vs_deref; intros u Hv; apply (vw_ro _ _ Hv)|]. apply vs_mod. vw. by apply alter_head. Qed.

Lemma vs_set_fifo l v ws : vsteps l v (upd_otg (λ o, set_FIFO (<[0%nat := ws]> (FIFO o)) o)) tt (set_v_ff ws v) l.
Proof. apply vs_mod. vw. rewrite list_lookup_insert_eq; [done|]. by eapply lookup_lt_Some. Qed.

Lemma vs_fifo l v ws : vsteps l v (fifo_write 0 ws) tt (set_v_ff (v_ff v ++ ws) v) l.
Proof. eapply vs_bind; [apply vs_deref; intros u Hv; apply (vw_ff _ _ Hv)|]. apply vs_set_fifo. Qed.

Lemma vs_eq {A} l v (m : U A) a a' v1 v' l' : vsteps l v m a v1 l' → a = a' → v1 = v' → vsteps l v m a' v' l'.
Proof. by intros ? -> ->. Qed.

(** ** The operations of the driver *)

(** The transfer size register for a packet of [n] bytes. *)
Definition one_packet (n : Z) : Z := Z.lor (DIEPTSIZ_PKTCNT 1) n.

Lemma vs_prepare_transmit l v p off cnt n tot :
  v_st v = mkES false n cnt (Linear p off) tot → 0 ≤ n < 2 ^ 31 →
  vsteps l v (usb_lld_prepare_transmit 0) tt
    (set_v_ri (set_DIEPTSIZ (one_packet (Z.min n 64)) (v_ri v)) (set_v_st (mkES false (Z.min n 64) cnt (Linear p off) n) v)) l.
Proof.
  intros Hst Hn. unfold usb_lld_prepare_transmit.
  eapply vs_bind; [apply vs_epc|]. eapply vs_bind; [apply vs_upd_epstate|]. eapply vs_bind; [apply vs_epstate|].
  rewrite Hst. simpl v_st. cbn [set_es_totsize es_size es_cnt es_mode es_queued es_totsize].
  destruct (Z.eqb_spec n 0) as [->|H0].
  { eapply vs_eq; [apply vs_upd_ie|done|]. done. }
  eapply vs_bind; [apply vs_upd_epstate|]. eapply vs_bind; [apply vs_epstate|].
  cbn [v_st set_v_st es_size es_cnt es_mode es_queued es_totsize set_es_totsize andb Nat.eqb in_maxsize ep0config Z.eqb].
  unfold EP0_MAX_INSIZE. destruct (Z.ltb_spec 64 n).
  - rewrite Z.min_r by lia. eapply vs_eq; [apply vs_upd_ie|done|]. done.
  - rewrite Z.min_l by lia. eapply vs_eq; [apply vs_upd_ie|done|]. cbn [es_size]. unfold one_packet, set_v_ri. simpl.
    rewrite u32_small by (unfold is_u32; lia). by replace ((n + 64 - 1) / 64) with 1 by (apply (Z.div_unique _ _ _ (n - 1)); lia).
Qed.

Lemma vs_usbPrepareTransmit l v p n : 0 ≤ n < 2 ^ 31 →
  vsteps l v (usbPrepareTransmit 0 p n) tt
    (set_v_ri (set_DIEPTSIZ (one_packet (Z.min n 64)) (v_ri v)) (set_v_st (mkES false (Z.min n 64) 0 (Linear p 0) n) v)) l.
Proof.
  intros Hn. unfold usbPrepareTransmit. eapply vs_bind; [apply vs_epc|]. eapply vs_bind; [apply vs_upd_epstate|].
  eapply vs_eq; [by eapply vs_prepare_transmit|done|done].
Qed.

(** An OUT transfer of [n] bytes is programmed as at most 64 bytes. *)
Definition rx_packet (n : Z) : Z :=
  Z.lor (DOEPTSIZ_STUPCNT 3) (Z.lor (DIEPTSIZ_PKTCNT (if n =? 0 then 0 else 1)) n).

Lemma vs_prepare_receive l v p off cnt n tot :
  v_st v = mkES false n cnt (Linear p off) tot → 0 ≤ n < 2 ^ 31 →
  vsteps l v (usb_lld_prepare_receive 0) tt
    (set_v_ro (set_DOEPTSIZ (rx_packet (Z.min n 64)) (v_ro v)) (set_v_st (mkES false (Z.min n 64) cnt (Linear p off) n) v)) l.
Proof.
  intros Hst Hn. unfold usb_lld_prepare_receive.
  eapply vs_bind; [apply vs_epc|]. eapply vs_bind; [apply vs_upd_epstate|]. eapply vs_bind; [apply vs_upd_epstate|].
  eapply vs_bind; [apply vs_epstate|]. rewrite Hst.
  cbn [v_st set_v_st es_size es_cnt es_mode es_queued es_totsize set_es_totsize andb Nat.eqb out_maxsize ep0config Z.eqb].
  unfold EP0_MAX_OUTSIZE. destruct (Z.ltb_spec 64 n).
  - rewrite Z.min_r by lia. eapply vs_eq; [apply vs_upd_oe|done|]. done.
  - rewrite Z.min_l by lia. eapply vs_eq; [apply vs_upd_oe|done|]. cbn [es_size]. unfold rx_packet, set_v_ro. simpl.
    rewrite u32_small by (unfold is_u32; lia). destruct (Z.eqb_spec n 0) as [->|]; [done|].
    by replace ((n + 64 - 1) / 64) with 1 by (apply (Z.div_unique _ _ _ (n - 1)); lia).
Qed.

Lemma vs_usbPrepareReceive l v p n : 0 ≤ n < 2 ^ 31 →
  vsteps l v (usbPrepareReceive 0 p n) tt
    (set_v_ro (set_DOEPTSIZ (rx_packet (Z.min n 64)) (v_ro v)) (set_v_st (mkES false (Z.min n 64) 0 (Linear p 0) n) v)) l.
Proof.
  intros Hn. unfold usbPrepareReceive. eapply vs_bind; [apply vs_epc|]. eapply vs_bind; [apply vs_upd_epstate|].
  eapply vs_eq; [by eapply vs_prepare_receive|done|done].
Qed.

(** The control registers of an endpoint that is told to go on. *)
Definition in_started (r : otg_in_ep) : otg_in_ep := set_DIEPCTL (Z.lor (DIEPCTL r) (Z.lor DIEPCTL_EPENA DIEPCTL_CNAK)) r.
Definition out_started (r : otg_out_ep) : otg_out_ep := set_DOEPCTL (Z.lor (DOEPCTL r) DIEPCTL_CNAK) r.

Lemma vs_start_in l v : vsteps l v (usb_lld_start_in 0) tt (set_v_ri (in_started (v_ri v)) v) l.
Proof. eapply vs_bind; [apply vs_upd_ie|]. apply vs_mod. vw. Qed.

Lemma vs_start_transmit v : hasb (v_tx v) (bit 0) = false →
  vsteps isr_open v start_transmit tt (set_v_ri (in_started (v_ri v)) (set_v_tx (Z.lor (v_tx v) (bit 0)) v)) isr_open.
Proof.
  intros Hb. unfold start_transmit, usbStartTransmitI. eapply vs_bind; [apply vs_lock|].
  eapply vs_bind; [|apply vs_unlock]. eapply vs_bind; [apply vs_classI|]. apply vs_get. intros u Hu.
  unfold usbGetTransmitStatusI. cbn [id]. rewrite (vw_tx _ _ Hu), busy_0, Hb. cbn [negb].
  eapply vs_bind; [apply vs_set_tx|]. eapply vs_bind; [apply vs_start_in|apply vs_ret].
Qed.

Lemma vs_start_receive v : hasb (v_rx v) (bit 0) = false →
  vsteps isr_open v start_receive tt (set_v_ro (out_started (v_ro v)) (set_v_rx (Z.lor (v_rx v) (bit 0)) v)) isr_open.
Proof.
  intros Hb. unfold start_receive, usbStartReceiveI. eapply vs_bind; [apply vs_lock|].
  eapply vs_bind; [|apply vs_unlock]. eapply vs_bind; [apply vs_classI|]. apply vs_get. intros u Hu.
  unfold usbGetReceiveStatusI. cbn [id]. rewrite (vw_rx _ _ Hu), busy_0, Hb. cbn [negb].
  eapply vs_bind; [apply vs_set_rx|]. eapply vs_bind; [apply vs_upd_oe|apply vs_ret].
Qed.

(** ** The control pipe *)

Lemma vs_setup_byte l v i b : v_setup v !! i = Some b → vsteps l v (setup_byte i) b v l.
Proof. intros Hb. apply vs_deref. intros u Hu. by rewrite (vw_setup _ _ Hu). Qed.

Lemma hword_ok lo hi : byte lo → byte hi → Z.lor lo (u16 (Z.shiftl hi 8)) = lo + 256 * hi.
Proof.
  unfold byte. intros. unfold u16. rewrite Z.shiftl_mul_pow2 by lia. rewrite Z.mod_small by lia.
  rewrite <-Z.shiftl_mul_pow2, lor_shift by lia. lia.
Qed.

Lemma vs_hword l v i lo hi : v_setup v !! i = Some lo → v_setup v !! S i = Some hi → byte lo → byte hi →
  vsteps l v (get_hword i) (lo + 256 * hi) v l.
Proof.
  intros. eapply vs_bind; [by apply vs_setup_byte|]. eapply vs_bind; [by apply vs_setup_byte|].
  eapply vs_eq; [apply vs_ret|by apply hword_ok|done].
Qed.

Lemma vs_setup_transfer l v p n c : vsteps l v (usbSetupTransfer p n c) tt (set_v_endcb c (set_v_n n (set_v_next p v))) l.
Proof. eapply vs_bind; [apply vs_set_next|]. eapply vs_bind; [apply vs_set_n|]. apply vs_set_endcb. Qed.

(** A transfer on endpoint 0 under way in state [st]. *)
Definition tx_started (st : usbep0state) (p : uptr) (n : Z) (v : ep0view) : ep0view :=
  set_v_ri (in_started (set_DIEPTSIZ (one_packet (Z.min n 64)) (v_ri v)))
    (set_v_tx (Z.lor (v_tx v) (bit 0)) (set_v_st (mkES false (Z.min n 64) 0 (Linear p 0) n) (set_v_ep0state st v))).
Definition rx_started (st : usbep0state) (p : uptr) (n : Z) (v : ep0view) : ep0view :=
  set_v_ro (out_started (set_DOEPTSIZ (rx_packet (Z.min n 64)) (v_ro v)))
    (set_v_rx (Z.lor (v_rx v) (bit 0)) (set_v_st (mkES false (Z.min n 64) 0 (Linear p 0) n) (set_v_ep0state st v))).

Lemma vs_transmit v p n st : 0 ≤ n < 2 ^ 31 → hasb (v_tx v) (bit 0) = false →
  vsteps isr_open v (umod (set_u_ep0state st) ;; usbPrepareTransmit 0 p n ;; start_transmit) tt (tx_started st p n v) isr_open.
Proof.
  intros Hn Hb. eapply vs_bind; [apply vs_set_ep0state|]. eapply vs_bind; [by apply vs_usbPrepareTransmit|].
  eapply vs_eq; [by apply vs_start_transmit|done|done].
Qed.

Lemma vs_receive v p n st : 0 ≤ n < 2 ^ 31 → hasb (v_rx v) (bit 0) = false →
  vsteps isr_open v (umod (set_u_ep0state st) ;; usbPrepareReceive 0 p n ;; start_receive) tt (rx_started st p n v) isr_open.
Proof.
  intros Hn Hb. eapply vs_bind; [apply vs_set_ep0state|]. eapply vs_bind; [by apply vs_usbPrepareReceive|].
  eapply vs_eq; [by apply vs_start_receive|done|done].
Qed.

(** The stage that follows an accepted request whose first byte is [s0]. *)
Definition next_stage (s0 : Z) (v : ep0view) : ep0view :=
  if Z.land s0 USB_RTYPE_DIR_MASK =? USB_RTYPE_DIR_DEV2HOST then
    if negb (v_n v =? 0) then tx_started USB_EP0_TX (v_next v) (v_n v) v else rx_started USB_EP0_WAITING_STS PNull 0 v
  else
    if negb (v_n v =? 0) then rx_started USB_EP0_RX (v_next v) (v_n v) v else tx_started USB_EP0_SENDING_STS PNull 0 v.

(** The two flags that say that endpoint 0 is busy are clear. *)
Definition not_busy (v : ep0view) : Prop := hasb (v_tx v) (bit 0) = false ∧ hasb (v_rx v) (bit 0) = false.

Lemma vs_read_setup l v bs : v_mem v !! ep0setup_buffer = Some bs → length bs = 8%nat → vsteps l v (usb_lld_read_setup 0) tt (set_v_setup bs v) l.
Proof.
  intros Hm Hl. unfold usb_lld_read_setup. eapply vs_bind; [apply vs_epc|]. eapply vs_bind.
  { apply (vs_deref _ _ _ bs). intros u Hu. simpl. by rewrite (vw_mem _ _ Hu). }
  rewrite Hl. cbn [Nat.leb]. rewrite take_ge by lia. apply vs_set_setup.
Qed.

Lemma vs_clamp l v max : vsteps l v (umod (λ u, if max <? u_ep0n u then set_u_ep0n max u else u)) tt (set_v_n (Z.min (v_n v) max) v) l.
Proof.
  apply vs_mod. intros u Hu. pose proof (vw_n _ _ Hu) as En. destruct (Z.ltb_spec max (u_ep0n u)); destruct Hu; split; try done; simpl; lia.
Qed.

(** The rest of the SETUP callback once the request is accepted. *)
Lemma vs_accepted v1 s0 lo hi : v_setup v1 !! 0%nat = Some s0 → v_setup v1 !! 6%nat = Some lo → v_setup v1 !! 7%nat = Some hi →
  byte lo → byte hi → 0 ≤ v_n v1 < 2 ^ 31 → not_busy v1 →
  vsteps isr_open v1
    (max ← get_hword 6;
     umod (λ u, if max <? u_ep0n u then set_u_ep0n max u else u) ;;
     s0 ← setup_byte 0;
     u ← uget id;
     if Z.land s0 USB_RTYPE_DIR_MASK =? USB_RTYPE_DIR_DEV2HOST then
       if negb (u_ep0n u =? 0) then
         umod (set_u_ep0state USB_EP0_TX) ;; usbPrepareTransmit 0 (u_ep0next u) (u_ep0n u) ;; start_transmit
       else
         umod (set_u_ep0state USB_EP0_WAITING_STS) ;; usbPrepareReceive 0 PNull 0 ;; start_receive
     else
       if negb (u_ep0n u =? 0) then
         umod (set_u_ep0state USB_EP0_RX) ;; usbPrepareReceive 0 (u_ep0next u) (u_ep0n u) ;; start_receive
       else
         umod (set_u_ep0state USB_EP0_SENDING_STS) ;; usbPrepareTransmit 0 PNull 0 ;; start_transmit)
    tt (next_stage s0 (set_v_n (Z.min (v_n v1) (lo + 256 * hi)) v1)) isr_open.
Proof.
  intros H0 H6 H7 Hlo Hhi Hn [Htx Hrx]. unfold byte in *. eapply vs_bind; [by apply vs_hword|].
  eapply vs_bind; [apply vs_clamp|].
  eapply vs_bind; [by apply vs_setup_byte|]. apply vs_get. intros u Hu. cbn [id]. rewrite (vw_n _ _ Hu), (vw_next _ _ Hu).
  unfold next_stage. set (n := Z.min (v_n v1) (lo + 256 * hi)). cbn [v_n set_v_n].
  assert (0 ≤ n < 2 ^ 31) by lia.
  destruct (Z.land s0 USB_RTYPE_DIR_MASK =? USB_RTYPE_DIR_DEV2HOST), (n =? 0); cbn [negb];
    first [by apply vs_receive|by apply vs_transmit].
Qed.

Lemma vs_ep0setup v bs v1 s0 lo hi :
  v_mem v !! ep0setup_buffer = Some bs → length bs = 8%nat →
  vsteps isr_open (set_v_setup bs (set_v_ep0state USB_EP0_WAITING_SETUP v)) request_handled true v1 isr_open →
  v_setup v1 !! 0%nat = Some s0 → v_setup v1 !! 6%nat = Some lo → v_setup v1 !! 7%nat = Some hi → byte lo → byte hi →
  0 ≤ v_n v1 < 2 ^ 31 → not_busy v1 →
  vsteps isr_open v (_usb_ep0setup 0) tt (next_stage s0 (set_v_n (Z.min (v_n v1) (lo + 256 * hi)) v1)) isr_open.
Proof.
  intros Hm Hl Hreq H0 H6 H7 Hlo Hhi Hn Hnb. unfold _usb_ep0setup.
  eapply vs_bind; [apply vs_set_ep0state|].
  eapply vs_bind; [by apply (vs_read_setup _ _ bs)|].
  eapply vs_bind; [exact Hreq|]. cbn [negb]. by apply vs_accepted.
Qed.

Lemma vs_end v : v_endcb v = None → vsteps isr_open v ep0_end tt (set_v_ep0state USB_EP0_WAITING_SETUP v) isr_open.
Proof.
  intros He. unfold ep0_end. apply vs_get. intros u Hu. cbn [id]. rewrite (vw_endcb _ _ Hu), He.
  eapply vs_bind; [apply vs_ret|]. apply vs_set_ep0state.
Qed.

Definition in_done (v : ep0view) : ep0view := set_v_tx (u16 (Z.land (v_tx v) (inv32 (bit 0)))) v.
Definition out_done (v : ep0view) : ep0view := set_v_rx (u16 (Z.land (v_rx v) (inv32 (bit 0)))) v.

Lemma in_done_free v : hasb (v_tx (in_done v)) (bit 0) = false.
Proof. cbn. rewrite hasb_u16 by lia. apply hasb_clear. lia. Qed.
Lemma out_done_free v : hasb (v_rx (out_done v)) (bit 0) = false.
Proof. cbn. rewrite hasb_u16 by lia. apply hasb_clear. lia. Qed.

Lemma vs_in_cb v v' : vsteps isr_open (in_done v) (_usb_ep0in 0) tt v' isr_open → vsteps isr_open v (_usb_isr_invoke_in_cb 0) tt v' isr_open.
Proof.
  intros Hin. unfold _usb_isr_invoke_in_cb. eapply vs_bind; [apply (vs_mod_tx _ _ (λ x, u16 (Z.land x (inv32 (bit 0)))))|].
  eapply vs_bind; [apply vs_epc|]. exact Hin.
Qed.

Lemma vs_out_cb v v' : vsteps isr_open (out_done v) (_usb_ep0out 0) tt v' isr_open → vsteps isr_open v (_usb_isr_invoke_out_cb 0) tt v' isr_open.
Proof.
  intros Hin. unfold _usb_isr_invoke_out_cb. eapply vs_bind; [apply (vs_mod_rx _ _ (λ x, u16 (Z.land x (inv32 (bit 0)))))|].
  eapply vs_bind; [apply vs_epc|]. exact Hin.
Qed.

(** The end of the data stage towards the host: a packet of size zero, or the
    status stage. *)
Lemma vs_ep0in_tx v lo hi : v_ep0state v = USB_EP0_TX → not_busy v →
  v_setup v !! 6%nat = Some lo → v_setup v !! 7%nat = Some hi → byte lo → byte hi →
  vsteps isr_open v (_usb_ep0in 0) tt
    (if (v_n v <? lo + 256 * hi) && (v_n v `mod` 64 =? 0) then tx_started USB_EP0_WAITING_TX0 PNull 0 v
     else rx_started USB_EP0_WAITING_STS PNull 0 v) isr_open.
Proof.
  intros Hst [Htx Hrx] H6 H7 Hlo Hhi. unfold _usb_ep0in. apply vs_get. intros u Hu. rewrite (vw_ep0state _ _ Hu), Hst.
  eapply vs_bind; [by apply vs_hword|]. apply vs_get. intros u' Hu'. cbn [id]. rewrite (vw_n _ _ Hu').
  eapply vs_bind; [apply vs_epc|]. cbn [in_maxsize ep0config Z.eqb]. rewrite andb_false_r.
  destruct (_ && _).
  - eapply vs_bind; [by apply vs_usbPrepareTransmit|]. eapply vs_bind; [by apply vs_start_transmit|].
    eapply vs_eq; [apply vs_set_ep0state|done|done].
  - by apply vs_receive.
Qed.

Lemma vs_ep0in_tx0 v : v_ep0state v = USB_EP0_WAITING_TX0 → not_busy v →
  vsteps isr_open v (_usb_ep0in 0) tt (rx_started USB_EP0_WAITING_STS PNull 0 v) isr_open.
Proof.
  intros Hst [Htx Hrx]. unfold _usb_ep0in. apply vs_get. intros u Hu. rewrite (vw_ep0state _ _ Hu), Hst. by apply vs_receive.
Qed.

Lemma vs_ep0in_sts v : v_ep0state v = USB_EP0_SENDING_STS → v_endcb v = None →
  vsteps isr_open v (_usb_ep0in 0) tt (set_v_ep0state USB_EP0_WAITING_SETUP v) isr_open.
Proof.
  intros Hst He. unfold _usb_ep0in. apply vs_get. intros u Hu. rewrite (vw_ep0state _ _ Hu), Hst. by apply vs_end.
Qed.

(** The value of DCFG with the address [a]. *)
Definition with_address (a dcfg : Z) : Z := Z.lor (Z.land dcfg (inv32 DCFG_DAD_MASK)) (DCFG_DAD a).

Lemma with_address_field a dcfg : 0 ≤ a < 128 → Z.shiftr (Z.land (with_address a dcfg) DCFG_DAD_MASK) 4 = a.
Proof.
  intros Ha. apply Z.bits_inj'. intros i Hi. unfold with_address, DCFG_DAD, DCFG_DAD_MASK.
  rewrite Z.shiftr_spec, Z.land_spec, Z.lor_spec, Z.land_spec, !Z.shiftl_spec by lia. replace (i + 4 - 4) with i by lia.
  change 127 with (Z.ones 7). destruct (Z.lt_ge_cases i 7).
  - rewrite Z.ones_spec_low by lia. unfold inv32, u32. rewrite Z.mod_pow2_bits_low, Z.lnot_spec, Z.shiftl_spec by lia.
    replace (i + 4 - 4) with i by lia. rewrite Z.ones_spec_low by lia. cbn [negb]. by rewrite andb_false_r, andb_true_r.
  - rewrite Z.ones_spec_high by lia. rewrite andb_false_r. symmetry.
    rewrite <-(Z.mod_small a (2 ^ 7)) by lia. apply Z.mod_pow2_bits_high. lia.
Qed.

Lemma with_address_rest a dcfg i : 0 ≤ a < 128 → 0 ≤ i < 32 → (i < 4 ∨ 11 ≤ i) → Z.testbit (with_address a dcfg) i = Z.testbit dcfg i.
Proof.
  intros Ha Hi Hout. unfold with_address, DCFG_DAD, DCFG_DAD_MASK. rewrite Z.lor_spec, Z.land_spec, Z.shiftl_spec by lia.
  unfold inv32, u32. rewrite Z.mod_pow2_bits_low, Z.lnot_spec, Z.shiftl_spec by lia.
  change 127 with (Z.ones 7). rewrite Z.testbit_ones by lia.
  assert (Z.testbit a (i - 4) = false) as ->.
  { destruct Hout; [by apply Z.testbit_neg_r; lia|]. rewrite <-(Z.mod_small a (2 ^ 7)) by lia. apply Z.mod_pow2_bits_high. lia. }
  rewrite orb_false_r. destruct (Z.leb_spec 0 (i - 4)), (Z.ltb_spec (i - 4) 7); try lia; by rewrite andb_true_r.
Qed.

Lemma vs_set_dcfg l v f : vsteps l v (upd_otg (λ o, set_DCFG (f (DCFG o)) o)) tt (set_v_dcfg (f (v_dcfg v)) v) l.
Proof. apply vs_mod. intros u Hu. pose proof (vw_dcfg _ _ Hu) as Ed. destruct Hu. split; try done. simpl. by rewrite Ed. Qed.

Lemma vs_lld_set_address l v : vsteps l v usb_lld_set_address tt (set_v_dcfg (with_address (v_address v) (v_dcfg v)) v) l.
Proof.
  unfold usb_lld_set_address. apply vs_get. intros u Hu. cbn [id]. rewrite (vw_address _ _ Hu). apply (vs_set_dcfg _ _ (with_address _)).
Qed.

(** A SETUP packet: the eight bytes reach the buffer. *)
Lemma vs_rx_setup l v b bs :
  v_mem v !! ep0setup_buffer = Some b → length b = 8%nat → Forall byte bs → length bs = 8%nat →
  vsteps l v (otg_rxfifo_handler (rx_status GRXSTSP_SETUP_DATA 8 0) [le_word (take 4 bs); le_word (drop 4 bs)]) []
    (set_v_mem (<[ep0setup_buffer := bs]> (v_mem v)) v) l.
Proof.
  intros Hb Hlb Hbs Hl. unfold otg_rxfifo_handler. change (Z.land (rx_status GRXSTSP_SETUP_DATA 8 0) GRXSTSP_PKTSTS_MASK) with GRXSTSP_SETUP_DATA.
  rewrite Z.eqb_refl. change (rx_ep (rx_status GRXSTSP_SETUP_DATA 8 0)) with 0%nat. change (rx_count (rx_status GRXSTSP_SETUP_DATA 8 0)) with 8%nat.
  eapply vs_bind; [apply vs_epc|]. eapply (vs_bind _ _ _ _ ep0setup_buffer); [by apply vs_deref|].
  unfold otg_fifo_read_to_buffer. eapply vs_bind; [apply (vs_deref _ _ _ b); intros u Hu; by rewrite (vw_mem _ _ Hu)|].
  assert (read_to_mem (words_of 8) (words_of 8) [le_word (take 4 bs); le_word (drop 4 bs)] b 0 = Some ([], bs)) as E.
  { change (words_of 8) with 2%nat. cbn [read_to_mem].
    rewrite !le_bytes_word by (first [by apply Forall_take|by apply Forall_drop|rewrite ?length_take, ?length_drop; lia]).
    clear -Hl Hlb. do 8 (destruct bs as [|? bs]; [done|]). destruct bs; [|done]. do 8 (destruct b as [|? b]; [done|]). by destruct b. }
  eapply vs_bind; [apply (vs_deref _ _ _ ([], bs)); intros; exact E|]. cbn [fst snd].
  eapply vs_bind; [|apply vs_ret]. apply (vs_mod _ _ _ (set_v_mem (<[ep0setup_buffer := bs]> (v_mem v)) v)).
  intros u Hu. pose proof (vw_mem _ _ Hu) as Em. destruct Hu. split; try done. simpl. by rewrite Em.
Qed.

(** ** Data to the host *)

Section Data.
Variable slack : uptr → nat → Z.
Hypothesis Hslack : ∀ p i, byte (slack p i).

(** The [k] bytes at [off] of a place that holds [d]. *)
Definition bytes_at (d : list Z) (p : uptr) (off k : nat) : list Z := (λ i, default (slack p i) (d !! i)) <$> seq off k.

Lemma bytes_at_take d p off n k : (off + n ≤ length d)%nat → (n ≤ k)%nat → take n (bytes_at d p off k) = take n (drop off d).
Proof.
  intros Hn Hk. apply list_eq_same_length with n.
  - rewrite length_take, length_drop. lia.
  - rewrite length_take. unfold bytes_at. rewrite length_fmap, length_seq. lia.
  - intros i x y Hi. rewrite !lookup_take_lt, lookup_drop by done. unfold bytes_at. rewrite list_lookup_fmap, lookup_seq_lt by lia.
    simpl. intros [= <-] Hy. by rewrite Hy.
Qed.

Lemma vs_read_byte l v p d off : vplace v p = Some d → vsteps l v (read_byte slack p off) (default (slack p off) (d !! off)) v l.
Proof. intros Hd. eapply vs_bind; [|apply vs_ret]. apply vs_deref. intros u Hu. by rewrite (place_view u v). Qed.

Lemma vs_read_word l v p d off : vplace v p = Some d → vsteps l v (read_word slack p off) (le_word (bytes_at d p off 4)) v l.
Proof.
  intros Hd. unfold read_word. do 4 (eapply vs_bind; [by apply vs_read_byte|]).
  eapply vs_eq; [apply vs_ret|..|done]. unfold bytes_at. simpl.
  by replace (off + 1)%nat with (S off) by lia; replace (off + 2)%nat with (S (S off)) by lia; replace (off + 3)%nat with (S (S (S off))) by lia.
Qed.

Lemma vs_push l p d : Forall byte d → ∀ n off v, vplace v p = Some d →
  ∃ ws, words_bytes ws = bytes_at d p off (4 * n) ∧ length ws = n ∧
    vsteps l v (otg_do_push slack 0 p off n) tt (set_v_ff (v_ff v ++ ws) v) l.
Proof using Hslack.
  intros Hd. induction n as [|n IH]; intros off v Hp.
  - exists []. split_and!; [done|done|]. eapply vs_eq; [apply vs_ret|done|]. rewrite app_nil_r. by destruct v.
  - set (w := le_word (bytes_at d p off 4)). destruct (IH (off + 4)%nat (set_v_ff (v_ff v ++ [w]) v)) as (ws & Hw & Hl & Hs).
    { by destruct p. }
    exists (w :: ws). split_and!; [|simpl; lia|].
    + unfold words_bytes in *. cbn [fmap list_fmap concat]. rewrite Hw. unfold w. rewrite le_bytes_word.
      * simpl replicate. replace (4 * S n)%nat with (4 + 4 * n)%nat by lia. unfold bytes_at. by rewrite seq_app, fmap_app.
      * unfold bytes_at. apply Forall_fmap, Forall_forall. intros i _. simpl. destruct (d !! i) eqn:E; [|apply Hslack].
        by eapply Forall_lookup_1.
      * done.
    + eapply vs_bind; [by apply vs_read_word|]. eapply vs_bind; [apply vs_fifo|]. eapply vs_eq; [exact Hs|done|].
      unfold set_v_ff. simpl. by rewrite <-app_assoc.
Qed.

(** The pump thread fills the FIFO with the packet. *)
Lemma vs_txfifo l v p d off n tot :
  v_st v = mkES false n 0 (Linear p off) tot → 0 ≤ n ≤ 64 → Forall byte d →
  (0 < n → vplace v p = Some d ∧ (off + Z.to_nat n ≤ length d)%nat) →
  ∃ ws, take (Z.to_nat n) (words_bytes ws) = take (Z.to_nat n) (drop off d) ∧ length ws = words_of (Z.to_nat n) ∧
    vsteps l v (otg_txfifo_handler slack [16] 0) true
      (set_v_ff (v_ff v ++ ws) (set_v_st (mkES false n n (Linear p (off + Z.to_nat n)) tot) v)) l.
Proof using Hslack.
  intros Hst Hn Hd Hp. destruct (decide (n = 0)) as [->|Hn0].
  { exists []. split_and!; [done|done|]. cbn [otg_txfifo_handler]. eapply vs_bind; [apply vs_epc|]. eapply vs_bind; [apply vs_epstate|].
    rewrite Hst. cbn [es_size es_cnt Z.leb Z.compare]. eapply vs_eq; [apply vs_ret|done|]. rewrite app_nil_r, Nat.add_0_r, <-Hst. by destruct v. }
  destruct Hp as [Hp Hlen]; [lia|].
  destruct (vs_push l p d Hd (words_of (Z.to_nat n)) off v Hp) as (ws & Hw & Hl & Hs). exists ws. split; [|split; [done|]].
  { rewrite Hw. apply bytes_at_take; [done|]. apply words_of_enough. }
  cbn [otg_txfifo_handler]. eapply vs_bind; [apply vs_epc|]. eapply vs_bind; [apply vs_epstate|].
  rewrite Hst. cbn [es_size es_cnt es_mode es_queued in_maxsize ep0config].
  destruct (Z.leb_spec n 0); [lia|]. cbv zeta. rewrite Z.sub_0_r. destruct (Z.ltb_spec 64 n); [lia|].
  change (u32 (Z.land 16 65535 * 4)) with 64. destruct (Z.ltb_spec 64 n); [lia|].
  eapply vs_bind; [eapply vs_bind; [exact Hs|apply vs_upd_epstate]|]. eapply vs_bind; [apply vs_upd_epstate|].
  cbn [otg_txfifo_handler]. eapply vs_bind; [apply vs_epc|]. eapply vs_bind; [apply vs_epstate|].
  cbn [v_st set_v_st set_v_ff]. rewrite Hst. unfold set_es_cnt, set_es_mode. cbn [es_size es_cnt es_mode es_queued es_totsize].
  rewrite Z.add_0_l, u32_small by (unfold is_u32; lia). rewrite Z.leb_refl. eapply vs_eq; [apply vs_ret|done|done].
Qed.

Definition enabled (v : ep0view) : bool := hasb (DIEPCTL (v_ri v)) DIEPCTL_EPENA.

Lemma vs_host_in l v n : enabled v = true → DIEPTSIZ (v_ri v) = one_packet n → 0 ≤ n ≤ 64 →
  length (v_ff v) = words_of (Z.to_nat n) →
  vsteps l v host_in (take (Z.to_nat n) (words_bytes (v_ff v)))
    (set_v_ri (mkIE (Z.land (DIEPCTL (v_ri v)) (inv32 DIEPCTL_EPENA)) 0) (set_v_ff [] v)) l.
Proof.
  intros He Hr Hn Hl. unfold host_in. eapply vs_bind; [apply vs_deref; intros u Hu; apply (vw_ri _ _ Hu)|].
  eapply vs_bind; [apply vs_deref; intros u Hu; apply (vw_ff _ _ Hu)|]. cbv zeta.
  unfold enabled in He. rewrite He, Hr. unfold one_packet. rewrite xfrsiz_ok by done. rewrite Hl, Nat.leb_refl. cbn [andb].
  rewrite <-Hl, drop_all. eapply vs_bind; [apply vs_set_fifo|]. eapply vs_bind; [apply vs_upd_ie|apply vs_ret].
Qed.

(** The end of a packet that is not the last one. *)
Lemma vs_epin_more v p off cnt n tot : v_st v = mkES false n cnt (Linear p off) tot → 0 ≤ n < tot → tot < 2 ^ 31 →
  vsteps isr_open v (otg_epin_handler 0 DIEPINT_XFRC) tt
    (set_v_ri (in_started (set_DIEPTSIZ (one_packet (Z.min (tot - n) 64)) (v_ri v)))
       (set_v_st (mkES false (Z.min (tot - n) 64) 0 (Linear p off) (tot - n)) v)) isr_open.
Proof.
  intros Hst Hn Ht. unfold otg_epin_handler. apply vs_get. intros u Hu. cbn [id]. rewrite (vw_diepmsk _ _ Hu).
  change (hasb DIEPINT_XFRC DIEPINT_XFRC) with true. cbn [andb uwhen]. eapply vs_bind.
  - eapply vs_bind; [apply vs_epc|]. eapply vs_bind; [apply vs_epstate|]. rewrite Hst. cbn [es_size es_totsize].
    destruct (Z.ltb_spec n tot); [|lia]. eapply vs_bind; [apply vs_upd_epstate|].
    eapply vs_bind; [eapply (vs_prepare_transmit _ _ p off 0 (tot - n) tot); [by rewrite Hst|lia]|].
    eapply vs_bind; [apply vs_lock|]. eapply vs_bind; [apply vs_start_in|apply vs_unlock].
  - apply vs_get. intros u' _. change (hasb DIEPINT_XFRC DIEPINT_TXFE) with false. eapply vs_eq; [apply vs_ret|done|done].
Qed.

(** The end of the last packet. *)
Lemma vs_epin_last v p off n v' : v_st v = mkES false n n (Linear p off) n →
  vsteps isr_open v (_usb_isr_invoke_in_cb 0) tt v' isr_open →
  vsteps isr_open v (otg_epin_handler 0 DIEPINT_XFRC) tt v' isr_open.
Proof.
  intros Hst Hcb. unfold otg_epin_handler. apply vs_get. intros u Hu. cbn [id]. rewrite (vw_diepmsk _ _ Hu).
  change (hasb DIEPINT_XFRC DIEPINT_XFRC) with true. cbn [andb uwhen]. eapply vs_bind.
  - eapply vs_bind; [apply vs_epc|]. eapply vs_bind; [apply vs_epstate|]. rewrite Hst. cbn [es_size es_totsize].
    rewrite Z.ltb_irrefl. exact Hcb.
  - apply vs_get. intros u' _. change (hasb DIEPINT_XFRC DIEPINT_TXFE) with false. apply vs_ret.
Qed.

Lemma vs_stage_stop v fuel : enabled v = false → vsteps isr_open v (host_in_stage slack fuel) [] v isr_open.
Proof.
  intros He. destruct fuel; simpl; (eapply vs_bind; [apply vs_deref; intros u Hu; apply (vw_ri _ _ Hu)|]); unfold enabled in He; rewrite He; apply vs_ret.
Qed.

(** The packets of [k] transactions. *)
Fixpoint chunks (k : nat) (d : list Z) : list (list Z) :=
  match k with O => [] | S k => take 64 d :: chunks k (drop 64 d) end.

(** The data stage: [n] bytes at [off] of [p] go out in [k] packets, then the IN
    callback runs. *)
Lemma vs_packets fuel ps (P : ep0view → Prop) d p : Forall byte d → ∀ k n off v,
  v_st v = mkES false (Z.min (Z.of_nat n) 64) 0 (Linear p off) (Z.of_nat n) → enabled v = true → v_ff v = [] →
  DIEPTSIZ (v_ri v) = one_packet (Z.min (Z.of_nat n) 64) → Z.of_nat n < 2 ^ 31 →
  (n ≤ 64 * S k)%nat → (k = 0 ∨ 64 * k < n)%nat →
  ((0 < n)%nat → vplace v p = Some d ∧ (off + n ≤ length d)%nat) →
  (∀ ri st, hasb (DIEPCTL ri) DIEPCTL_EPENA = false → ∃ v1 v',
     vsteps isr_open (set_v_ri ri (set_v_st st v)) (_usb_isr_invoke_in_cb 0) tt v1 isr_open ∧
     vsteps isr_open v1 (host_in_stage slack fuel) ps v' isr_open ∧ P v') →
  ∃ v', vsteps isr_open v (host_in_stage slack (S k + fuel)) (chunks (S k) (take n (drop off d)) ++ ps) v' isr_open ∧ P v'.
Proof using Hslack.
  intros Hd. induction k as [|k IH]; intros n off v Hst He Hff Hsz Hn Hk Hk' Hp Hcb.
  - destruct (vs_txfifo isr_open v p d off (Z.of_nat n) (Z.of_nat n)) as (ws & Hw & Hl & Hs).
    { by rewrite Z.min_l in Hst by lia. } { lia. } { done. } { intros ?. rewrite Nat2Z.id. apply Hp. lia. }
    rewrite Nat2Z.id in *. cbn [host_in_stage Nat.add].
    destruct (Hcb (mkIE (Z.land (DIEPCTL (v_ri v)) (inv32 DIEPCTL_EPENA)) 0) (mkES false (Z.of_nat n) (Z.of_nat n) (Linear p (off + n)) (Z.of_nat n)))
      as (v1 & v' & H1 & H2 & HP); [apply (hasb_clear _ 31); lia|].
    exists v'. split; [|done].
    eapply vs_bind; [apply vs_deref; intros u Hu; apply (vw_ri _ _ Hu)|]. unfold enabled in He. rewrite He.
    eapply vs_bind; [exact Hs|]. rewrite Hff. cbn [app].
    eapply vs_bind; [apply (vs_host_in _ _ (Z.of_nat n)); [done|simpl; rewrite Hsz; by rewrite Z.min_l by lia|lia|by rewrite Nat2Z.id]|].
    rewrite Nat2Z.id. cbn [v_ff set_v_ff set_v_st]. rewrite Hw.
    eapply vs_bind; [eapply (vs_epin_last _ p (off + n) (Z.of_nat n)); [done|]|].
    { assert (∀ x y, set_v_ri x (set_v_ff [] (set_v_ff ws (set_v_st y v))) = set_v_ri x (set_v_st y v)) as ->; [|exact H1].
      intros x y. destruct v. simpl in *. by subst. }
    eapply vs_bind; [exact H2|]. eapply vs_eq; [apply vs_ret|..|done]. cbn [chunks app]. by rewrite (take_ge (take n _)) by (rewrite length_take; lia).
  - rewrite Z.min_r in Hst, Hsz by lia. destruct Hp as [Hp Hlen]; [lia|].
    destruct (vs_txfifo isr_open v p d off 64 (Z.of_nat n)) as (ws & Hw & Hl & Hs); [done|lia|done|intros _; split; [done|lia]|].
    change (Z.to_nat 64) with 64%nat in *.
    edestruct (IH (n - 64)%nat (off + 64)%nat) as (v' & Hv' & HP); cycle -1.
    { exists v'. split; [|done].
    change (S (S k) + fuel)%nat with (S (S k + fuel)). cbn [host_in_stage].
    eapply vs_bind; [apply vs_deref; intros u Hu; apply (vw_ri _ _ Hu)|]. unfold enabled in He. rewrite He.
    eapply vs_bind; [exact Hs|]. rewrite Hff. cbn [app].
    eapply vs_bind; [by apply (vs_host_in _ _ 64)|]. change (Z.to_nat 64) with 64%nat. cbn [v_ff set_v_ff set_v_st]. rewrite Hw.
    eapply vs_bind; [eapply (vs_epin_more _ p (off + 64) 64 64 (Z.of_nat n)); [done|lia|lia]|].
    eapply vs_bind; [exact Hv'|]. eapply vs_eq; [apply vs_ret|..|done]. change (chunks (S (S k)) (take n (drop off d))) with (take 64 (take n (drop off d)) :: chunks (S k) (drop 64 (take n (drop off d)))).
      rewrite take_take, Nat.min_l by lia. cbn [app]. f_equal. f_equal. f_equal.
      by rewrite skipn_firstn_comm, drop_drop.
    }
    + cbn. by replace (Z.of_nat (n - 64)) with (Z.of_nat n - 64) by lia.
    + unfold enabled. cbn. apply hasb_set.
    + done.
    + cbn. by replace (Z.of_nat (n - 64)) with (Z.of_nat n - 64) by lia.
    + lia.
    + lia.
    + lia.
    + intros _. split; [by destruct p|lia].
    + intros ri st Hri. destruct (Hcb ri st Hri) as (v1 & v' & H1 & H2 & HP). exists v1, v'. split; [|done].
      match goal with |- vsteps _ ?x _ _ _ _ => replace x with (set_v_ri ri (set_v_st st v)); [done|] end.
      destruct v. simpl in *. by subst.
Qed.
End Data.
End Rules.

(** ** Computations whose result is not determined by the view *)

Definition vdoes {A} (l : kst → Prop) (v : ep0view) (m : U A) (P : A → ep0view → Prop) (l' : kst → Prop) : Prop :=
  ∀ u s, views u v → l s → ∃ a u' v' s', m u s = Done (a, u') s' ∧ views u' v' ∧ P a v' ∧ l' s'.

Lemma vd_steps {A} l v (m : U A) a v' l' (P : A → ep0view → Prop) : vsteps l v m a v' l' → P a v' → vdoes l v m P l'.
Proof. intros Hm HP u s Hv Hs. destruct (Hm u s Hv Hs) as (u' & s' & E & V & L & _). by exists a, u', v', s'. Qed.

Lemma vd_bind {A B} l v (m : U A) (k : A → U B) P l1 Q l' :
  vdoes l v m P l1 → (∀ a v1, P a v1 → vdoes l1 v1 (k a) Q l') → vdoes l v (m ≫= k) Q l'.
Proof.
  intros Hm Hk u s Hv Hs. destruct (Hm u s Hv Hs) as (a & u1 & v1 & s1 & E1 & V1 & P1 & L1).
  destruct (Hk a v1 P1 u1 s1 V1 L1) as (b & u2 & v2 & s2 & E2 & V2 & P2 & L2). exists b, u2, v2, s2.
  split_and!; try done. change (rbind (m u s) (λ r s', k r.1 r.2 s') = Done (b, u2) s2). by rewrite E1.
Qed.

Lemma vd_step {A B} l v (m : U A) (k : A → U B) a v1 l1 Q l' :
  vsteps l v m a v1 l1 → vdoes l1 v1 (k a) Q l' → vdoes l v (m ≫= k) Q l'.
Proof.
  intros Hm Hk. apply (vd_bind _ _ _ _ (λ x w, x = a ∧ w = v1) l1); [by eapply vd_steps|]. by intros ?? [-> ->].
Qed.

Lemma vd_get {A B} l v (f : usbdrv → A) (k : A → U B) Q l' :
  (∀ u, views u v → vdoes l v (k (f u)) Q l') → vdoes l v (uget f ≫= k) Q l'.
Proof. intros Hk u s Hv Hs. exact (Hk u Hv u s Hv Hs). Qed.

Lemma vd_mono {A} l v (m : U A) (P Q : A → ep0view → Prop) l' : (∀ a v', P a v' → Q a v') → vdoes l v m P l' → vdoes l v m Q l'.
Proof. intros HPQ Hm u s Hv Hs. destruct (Hm u s Hv Hs) as (a & u1 & v1 & s1 & ? & ? & ? & ?). exists a, u1, v1, s1. auto. Qed.

Lemma vd_ret {A} l v (a : A) (P : A → ep0view → Prop) : P a v → vdoes l v (mret a) P l.
Proof. intros HP. by eapply vd_steps; [apply vs_ret|]. Qed.

(** A SETUP packet: the eight bytes reach the buffer, then the SETUP callback runs. *)
Lemma vd_host_setup `{UsbApp} v b bs P : v_mem v !! ep0setup_buffer = Some b → length b = 8%nat → Forall byte bs → length bs = 8%nat →
  vdoes isr_open (set_v_mem (<[ep0setup_buffer := bs]> (v_mem v)) v) (_usb_ep0setup 0) P isr_open →
  vdoes isr_open v (host_setup bs) P isr_open.
Proof.
  intros Hb Hlb Hbs Hl Hset. unfold host_setup. eapply vd_step; [by apply (vs_rx_setup _ _ b bs)|].
  unfold otg_epout_handler. apply vd_get. intros u Hu. cbn [id]. destruct (vw_doepmsk _ _ Hu) as [_ ->].
  change (hasb DOEPINT_STUP DOEPINT_STUP) with true. cbn [andb uwhen]. eapply vd_bind.
  - unfold _usb_isr_invoke_setup_cb. eapply vd_step; [apply vs_epc|]. exact Hset.
  - intros [] v1 HP. apply vd_get. intros u' _. change (hasb DOEPINT_STUP DOEPINT_XFRC) with false. by apply vd_ret.
Qed.

(** ** Other endpoints *)

Lemma ubind_eq {A B} (m : U A) (k : A → U B) u s : (m ≫= k) u s = rbind (m u s) (λ r s', k r.1 r.2 s').
Proof. done. Qed.
Lemma ubind_done {A B} (m : U A) (k : A → U B) u s a u' s' : m u s = Done (a, u') s' → (m ≫= k) u s = k a u' s'.
Proof. intros E. by rewrite ubind_eq, E. Qed.
Lemma ubind_mod {B} f (k : unit → U B) u s : (umod f ≫= k) u s = k tt (f u) s.
Proof. done. Qed.
Lemma ubind_get {A B} (f : usbdrv → A) (k : A → U B) u s : (uget f ≫= k) u s = k (f u) u s.
Proof. done. Qed.
Lemma ubind_ret {A B} (a : A) (k : A → U B) u s : (mret a ≫= k) u s = k a u s.
Proof. done. Qed.
Lemma ubind_in_mod {B C} f (k : unit → U B) (h : B → U C) u s : ((umod f ≫= k) ≫= h) u s = (k tt ≫= h) (f u) s.
Proof. done. Qed.
Lemma ubind_in_get {A B C} (f : usbdrv → A) (k : A → U B) (h : B → U C) u s : ((uget f ≫= k) ≫= h) u s = (k (f u) ≫= h) u s.
Proof. done. Qed.
Lemma ubind_in_assert {B C} b func (k : unit → U B) (h : B → U C) u s : b = true → ((ulift (chDbgAssert b func) ≫= k) ≫= h) u s = (k tt ≫= h) u s.
Proof. by intros ->. Qed.

(** The registers of another endpoint. *)
Lemma vs_other_ie l v ep f : (0 < ep < 16)%nat → vsteps l v (upd_ie ep f) tt v l.
Proof.
  intros Hep. apply vs_pure. intros u s Hu. unfold upd_ie. destruct (vw_wf _ _ Hu) as (Hl & _).
  destruct (lookup_lt_is_Some_2 (ie (u_otg u)) ep) as [r Er]; [lia|]. exists (set_u_otg (set_ie (alter f ep (ie (u_otg u))) (u_otg u)) u). split.
  - rewrite ubind_eq. unfold uderef. by rewrite Er.
  - destruct Hu. split; try done; simpl.
    + unfold otg_wf in *. simpl. by rewrite length_alter.
    + by rewrite list_lookup_alter_ne by lia.
Qed.

Lemma vs_other_oe l v ep f : (0 < ep < 16)%nat → vsteps l v (upd_oe ep f) tt v l.
Proof.
  intros Hep. apply vs_pure. intros u s Hu. unfold upd_oe. destruct (vw_wf _ _ Hu) as (_ & Hl & _).
  destruct (lookup_lt_is_Some_2 (oe (u_otg u)) ep) as [r Er]; [lia|]. exists (set_u_otg (set_oe (alter f ep (oe (u_otg u))) (u_otg u)) u). split.
  - rewrite ubind_eq. unfold uderef. by rewrite Er.
  - destruct Hu. split; try done; simpl.
    + unfold otg_wf in *. simpl. by rewrite length_alter.
    + by rewrite list_lookup_alter_ne by lia.
Qed.

(** The FIFO memory an endpoint takes, in words. *)
Definition fifo_words_of (c : USBEndpointConfig) : Z :=
  let n := in_maxsize c / 4 in if 1 <? in_multiplier c then u32 (n * in_multiplier c) else n.
Definition with_endpoint (ep : nat) (c : USBEndpointConfig) (r : usbrest) : usbrest :=
  mkRest (<[ep := Some c]> (r_epc r)) (match in_cb c with Some _ => u32 (r_pmnext r + fifo_words_of c) | None => r_pmnext r end)
    (r_params r) (r_txf r) (r_fifos r).

(** An endpoint that can be initialised. *)
Record free_endpoint (r : usbrest) (ep : nat) (c : USBEndpointConfig) : Prop := {
  fe_ep : (0 < ep < 16)%nat;
  fe_none : r_epc r !! ep = Some None;
  fe_in : in_state c ≠ Some ep0_state;
  fe_out : out_state c ≠ Some ep0_state;
  fe_txf : (ep ≤ r_txf r)%nat;
  fe_fifo : (ep < r_fifos r)%nat;
  fe_room : u32 (r_pmnext r + fifo_words_of c) ≤ otg_ram_size (r_params r)
}.

Lemma vs_clear_epstate l v a : a ≠ Some ep0_state → vsteps l v (clear_epstate a) tt v l.
Proof.
  intros Ha. destruct a as [a|]; [|apply vs_ret]. apply vs_mod. intros u []. split; try done. simpl. rewrite lookup_insert_ne; [done|congruence].
Qed.

Lemma vs_otg l v f : (∀ o, ie (f o) = ie o ∧ oe (f o) = oe o ∧ FIFO (f o) = FIFO o ∧ DCFG (f o) = DCFG o ∧ DIEPMSK (f o) = DIEPMSK o ∧
    DOEPMSK (f o) = DOEPMSK o ∧ length (DIEPTXF (f o)) = length (DIEPTXF o)) → vsteps l v (upd_otg f) tt v l.
Proof.
  intros Hf. apply vs_mod. intros u []. destruct (Hf (u_otg u)) as (E1 & E2 & E3 & E4 & E5 & E6 & E7).
  split; try done; simpl; try congruence.
  - unfold otg_wf in *. simpl. congruence.
  - unfold rest_of in *. simpl. congruence.
Qed.

Lemma vs_set_txf l v ep x : (0 < ep ≤ r_txf (v_rest v))%nat → vsteps l v (set_txf ep x) tt v l.
Proof.
  intros Hep. destruct ep as [|i]; [lia|]. cbn [set_txf]. intros u s Hu Hs.
  assert (i < length (DIEPTXF (u_otg u)))%nat as Hl by (pose proof (vw_rest _ _ Hu) as Er; rewrite <-Er in Hep; simpl in Hep; lia).
  destruct (lookup_lt_is_Some_2 _ _ Hl) as [y Ey]. rewrite ubind_eq. unfold uderef. rewrite Ey.
  apply (vs_otg l v (λ o, set_DIEPTXF (<[i := x]> (DIEPTXF o)) o)); [|done|done]. intros o. simpl. by rewrite length_insert.
Qed.

Lemma vs_flush l v ep : (0 < ep < r_fifos (v_rest v))%nat → vsteps l v (otg_txfifo_flush ep) tt v l.
Proof.
  intros Hep. unfold otg_txfifo_flush. apply vs_pure. intros u s Hu.
  assert (ep < length (FIFO (u_otg u)))%nat as Hl by (pose proof (vw_rest _ _ Hu) as Er; rewrite <-Er in Hep; simpl in Hep; lia).
  destruct (lookup_lt_is_Some_2 _ _ Hl) as [y Ey]. eexists. rewrite ubind_eq. unfold uderef. rewrite Ey. split; [done|].
  destruct Hu. split; try done; simpl; [by rewrite list_lookup_insert_ne by lia|]. unfold rest_of in *. simpl. by rewrite length_insert.
Qed.

Lemma vs_ram_alloc l v n : u32 (r_pmnext (v_rest v) + n) ≤ otg_ram_size (r_params (v_rest v)) →
  vsteps l v (otg_ram_alloc n) (r_pmnext (v_rest v))
    (set_v_rest (mkRest (r_epc (v_rest v)) (u32 (r_pmnext (v_rest v) + n)) (r_params (v_rest v)) (r_txf (v_rest v)) (r_fifos (v_rest v))) v) l.
Proof.
  intros Hn. apply vs_pure. intros u s Hu. pose proof (vw_rest _ _ Hu) as Er. rewrite <-Er in *. simpl in *.
  exists (set_u_pmnext (u32 (u_pmnext u + n)) u). split; [|destruct Hu; by split].
  unfold otg_ram_alloc. rewrite ubind_get, ubind_mod, ubind_get. cbn [id u_pmnext u_params set_u_pmnext].
  apply Z.leb_le in Hn. by rewrite Hn.
Qed.

Lemma vs_set_epc l v ep c : (0 < ep < length (r_epc (v_rest v)))%nat →
  vsteps l v (set_epc ep (Some c)) tt (set_v_rest (mkRest (<[ep := Some c]> (r_epc (v_rest v))) (r_pmnext (v_rest v)) (r_params (v_rest v)) (r_txf (v_rest v)) (r_fifos (v_rest v))) v) l.
Proof.
  intros Hep. apply vs_pure. intros u s Hu. pose proof (vw_rest _ _ Hu) as Er. rewrite <-Er in *. simpl in *.
  destruct (lookup_lt_is_Some_2 (u_epc u) ep) as [y Ey]; [lia|]. eexists. unfold set_epc. rewrite ubind_eq. unfold uderef. rewrite Ey.
  split; [done|]. destruct Hu. split; try done. simpl. by rewrite list_lookup_insert_ne by lia.
Qed.

(** An endpoint is initialised: endpoint 0 is as it was. *)
Lemma vs_init_endpoint v ep c : v_state v = USB_ACTIVE → free_endpoint (v_rest v) ep c →
  vsteps isr_locked v (usbInitEndpointI ep c) tt (set_v_rest (with_endpoint ep c (v_rest v)) v) isr_locked.
Proof.
  intros Hst [Hep Hnone Hin Hout Htxf Hff Hroom]. pose proof (lookup_lt_Some _ _ _ Hnone) as Hlt. unfold usbInitEndpointI.
  eapply vs_bind; [apply vs_classI|]. apply vs_get. intros u Hu. rewrite (vw_state _ _ Hu), Hst.
  eapply vs_bind; [by apply vs_pure; intros u0 s0 Hu0; exists u0|].
  eapply vs_bind; [apply (vs_deref _ _ _ None); intros u1 Hu1; pose proof (vw_rest _ _ Hu1) as Er; by rewrite <-Er in Hnone|].
  eapply vs_bind; [by apply vs_pure; intros u0 s0 Hu0; exists u0|].
  do 2 (eapply vs_bind; [by apply vs_clear_epstate|]).
  eapply vs_bind; [apply vs_set_epc; lia|]. set (v1 := set_v_rest _ v). unfold usb_lld_init_endpoint.
  eapply vs_bind.
  { apply (vs_deref _ _ _ c). intros u1 Hu1. pose proof (vw_rest _ _ Hu1) as Er. apply (f_equal r_epc) in Er. simpl in Er. rewrite Er.
    by rewrite list_lookup_insert_eq by lia. }
  cbv zeta. eapply vs_bind; [by apply vs_other_oe|]. eapply (vs_bind _ _ _ _ tt v1).
  { destruct (out_cb c); (eapply vs_bind; [by apply vs_other_oe|]); by apply vs_otg. }
  eapply vs_bind; [by apply vs_other_ie|]. unfold with_endpoint. destruct (in_cb c).
  - eapply vs_bind; [by apply vs_ram_alloc|]. eapply vs_bind; [apply vs_set_txf; simpl; lia|].
    eapply vs_bind; [apply vs_flush; simpl; lia|]. eapply vs_bind; [by apply vs_other_ie|]. eapply vs_eq; [by apply vs_otg|done|done].
  - eapply vs_bind; [apply vs_set_txf; simpl; lia|]. eapply vs_bind; [apply vs_flush; simpl; lia|].
    eapply vs_bind; [by apply vs_other_ie|]. eapply vs_eq; [by apply vs_otg|done|done].
Qed.
