(* ===== verification/Control.v ===== *)
(** * Control transfers

    Whole control transfers on endpoint 0, from the SETUP packet to the status
    stage, as the host sees them. *)

From S2P Require Import Prelude Ring TimeMeas Kernel ThreadQueues Sys VTimers Sched Thd IOQueues UsbBase Usb Otg Ep0.

Ltac vdecide := repeat match goal with
  | |- vsteps _ _ (if ?b then _ else _) _ _ _ => let x := eval vm_compute in b in change b with x; cbv iota
  | |- vdoes _ _ (if ?b then _ else _) _ _ => let x := eval vm_compute in b in change b with x; cbv iota
  end.

Section Control.
Context `{UsbApp}.
Implicit Types (v : ep0view).
Variable slack : uptr → nat → Z.
Hypothesis Hslack : ∀ p i, byte (slack p i).

(** ** A control transfer *)

(** A SETUP packet: the eight bytes reach the buffer, then the SETUP callback runs. *)
Lemma vs_host_setup v b bs v' :
  v_mem v !! ep0setup_buffer = Some b → length b = 8%nat → Forall byte bs → length bs = 8%nat →
  vsteps isr_open (set_v_mem (<[ep0setup_buffer := bs]> (v_mem v)) v) (_usb_ep0setup 0) tt v' isr_open →
  vsteps isr_open v (host_setup bs) tt v' isr_open.
Proof.
  intros Hb Hlb Hbs Hl Hset. unfold host_setup. eapply vs_bind; [by apply (vs_rx_setup _ _ b)|].
  unfold otg_epout_handler. apply vs_get. intros u Hu. cbn [id]. destruct (vw_doepmsk _ _ Hu) as [_ ->].
  change (hasb DOEPINT_STUP DOEPINT_STUP) with true. cbn [andb uwhen]. eapply vs_bind.
  { unfold _usb_isr_invoke_setup_cb. eapply vs_bind; [apply vs_epc|]. exact Hset. }
  apply vs_get. intros u' _. change (hasb DOEPINT_STUP DOEPINT_XFRC) with false. apply vs_ret.
Qed.

(** The status stage of a transfer to the host ends the transfer. *)
Lemma vs_host_status v off : v_st v = mkES false 0 0 (Linear PNull off) 0 → v_ep0state v = USB_EP0_WAITING_STS → v_endcb v = None →
  vsteps isr_open v host_out_status tt (set_v_ep0state USB_EP0_WAITING_SETUP (out_done v)) isr_open.
Proof.
  intros Hst He0 Hcb. unfold host_out_status.
  assert (vsteps isr_open v (otg_rxfifo_handler (rx_status GRXSTSP_OUT_DATA 0 0) []) [] v isr_open) as Hrx.
  { unfold otg_rxfifo_handler. change (Z.land (rx_status GRXSTSP_OUT_DATA 0 0) GRXSTSP_PKTSTS_MASK) with GRXSTSP_OUT_DATA.
    change (GRXSTSP_OUT_DATA =? GRXSTSP_SETUP_DATA) with false. rewrite Z.eqb_refl.
    change (rx_ep (rx_status GRXSTSP_OUT_DATA 0 0)) with 0%nat. change (rx_count (rx_status GRXSTSP_OUT_DATA 0 0)) with 0%nat.
    eapply vs_bind; [apply vs_epc|]. eapply vs_bind; [apply vs_epstate|]. rewrite Hst. cbn [es_mode es_queued es_size es_cnt].
    eapply vs_bind.
    - eapply (vs_bind _ _ _ _ [] v).
      + unfold otg_fifo_read_to_buffer. eapply vs_bind; [apply (vs_deref _ _ _ ([], [])); by intros|]. change (words_of 0 =? 0)%nat with true.
        rewrite orb_true_r. apply vs_ret.
      + eapply vs_bind; [apply vs_upd_epstate|]. apply vs_ret.
    - eapply vs_bind; [apply vs_upd_epstate|]. eapply vs_eq; [apply vs_ret|done|]. destruct v. simpl in *. subst. unfold set_v_st. simpl. by rewrite Nat.add_0_r. }
  eapply vs_bind; [exact Hrx|]. unfold otg_epout_handler. apply vs_get. intros u Hu. cbn [id].
  change (hasb DOEPINT_XFRC DOEPINT_STUP) with false. cbn [andb uwhen]. eapply vs_bind; [apply vs_ret|].
  apply vs_get. intros u' Hu'. cbn [id]. destruct (vw_doepmsk _ _ Hu') as [-> _].
  change (hasb DOEPINT_XFRC DOEPINT_XFRC) with true. cbn [andb uwhen].
  eapply vs_bind; [apply vs_epc|]. eapply vs_bind; [apply vs_epstate|]. rewrite Hst. cbn [es_size es_totsize]. rewrite Z.ltb_irrefl.
  apply vs_out_cb. unfold _usb_ep0out. apply vs_get. intros u2 Hu2. rewrite (vw_ep0state _ _ Hu2). cbn [v_ep0state out_done set_v_rx]. rewrite He0.
  eapply vs_bind; [unfold usb_lld_get_transaction_size; eapply vs_bind; [apply vs_epc|]; eapply vs_bind; [apply vs_epstate|apply vs_ret]|].
  cbn [v_st out_done set_v_rx]. rewrite Hst. cbn [es_cnt Z.eqb negb]. by apply vs_end.
Qed.

(** What the stages of a transfer leave alone. *)
Definition kept (v v' : ep0view) : Prop :=
  v_endcb v' = v_endcb v ∧ v_status v' = v_status v ∧ v_address v' = v_address v ∧ v_configuration v' = v_configuration v ∧
  v_state v' = v_state v ∧ v_config v' = v_config v ∧ v_mem v' = v_mem v ∧ v_dcfg v' = v_dcfg v.

(** The device has sent the data and waits for the host's status packet. *)
Record awaiting_status (v : ep0view) : Prop := {
  aw_st : v_st v = mkES false 0 0 (Linear PNull 0) 0;
  aw_state : v_ep0state v = USB_EP0_WAITING_STS;
  aw_en : enabled v = false;
  aw_ff : v_ff v = [];
  aw_tx : hasb (v_tx v) (bit 0) = false
}.

Lemma rx_awaiting v : enabled v = false → v_ff v = [] → hasb (v_tx v) (bit 0) = false →
  awaiting_status (rx_started USB_EP0_WAITING_STS PNull 0 v) ∧ kept v (rx_started USB_EP0_WAITING_STS PNull 0 v).
Proof. done. Qed.

(** The packet of size zero. *)
Lemma vs_zlp v fuel : v_ff v = [] → hasb (v_rx v) (bit 0) = false →
  ∃ v', vsteps isr_open (tx_started USB_EP0_WAITING_TX0 PNull 0 v) (host_in_stage slack (S fuel)) [[]] v' isr_open ∧
    awaiting_status v' ∧ kept v v'.
Proof using Hslack.
  intros Hff Hrx.
  set (z := λ ri st, rx_started USB_EP0_WAITING_STS PNull 0 (in_done (set_v_ri ri (set_v_st st (tx_started USB_EP0_WAITING_TX0 PNull 0 v))))).
  apply (vs_packets slack Hslack fuel [] (λ v', awaiting_status v' ∧ kept v v') [] PNull (Forall_nil_2 _) 0 0 0); try done; [apply hasb_set|lia|by left|lia|].
  intros ri st Hri. exists (z ri st), (z ri st). split_and!; try done.
  - apply vs_in_cb. apply vs_ep0in_tx0; [done|]. split; [apply in_done_free|done].
  - by apply vs_stage_stop.
  - split; try done. apply in_done_free.
Qed.

(** The data stage as a whole: the data in packets of 64 bytes, and a packet of
    size zero when the data is shorter than asked for and ends on a packet
    boundary. *)
Lemma vs_data_stage v fuel d p lo hi n :
  Forall byte d → vplace v p = Some d → (0 < n ≤ length d)%nat → v_n v = Z.of_nat n → Z.of_nat n < 2 ^ 31 →
  enabled v = false → v_ff v = [] → not_busy v →
  v_setup v !! 6%nat = Some lo → v_setup v !! 7%nat = Some hi → byte lo → byte hi →
  let k := ((n - 1) / 64)%nat in
  ∃ v', vsteps isr_open (tx_started USB_EP0_TX p (Z.of_nat n) v) (host_in_stage slack (S k + S fuel))
     (chunks (S k) (take n d) ++ if (Z.of_nat n <? lo + 256 * hi) && (Z.of_nat n `mod` 64 =? 0) then [[]] else []) v' isr_open ∧
     awaiting_status v' ∧ kept v v'.
Proof using Hslack.
  intros Hd Ha Hn Hvn Hn31 He Hff [Htx Hrx] H6 H7 Hlo Hhi k.
  assert (n ≤ 64 * S k)%nat as Hk1 by (pose proof (Nat.div_mod_eq (n - 1) 64); pose proof (Nat.mod_upper_bound (n - 1) 64); unfold k; lia).
  assert (64 * k < n)%nat as Hk2 by (pose proof (Nat.div_mod_eq (n - 1) 64); unfold k; lia).
  change (take n d) with (take n (drop 0 d)).
  apply (vs_packets slack Hslack (S fuel) _ (λ v', awaiting_status v' ∧ kept v v') d p Hd k n 0); try done;
    [apply hasb_set|by right|intros _; split; [by destruct p|lia]|].
  intros ri st Hri. set (w := in_done (set_v_ri ri (set_v_st st (tx_started USB_EP0_TX p (Z.of_nat n) v)))).
  assert (vsteps isr_open w (_usb_ep0in 0) tt
    (if (v_n w <? lo + 256 * hi) && (v_n w `mod` 64 =? 0) then tx_started USB_EP0_WAITING_TX0 PNull 0 w
     else rx_started USB_EP0_WAITING_STS PNull 0 w) isr_open) as Hin.
  { apply vs_ep0in_tx; try done. split; [apply in_done_free|done]. }
  change (v_n w) with (v_n v) in Hin. rewrite Hvn in Hin. destruct (_ && _).
  - destruct (vs_zlp w fuel) as (v' & Hz & Haw & Hk); [done|done|]. eexists _, v'. split_and!; try done.
    by apply vs_in_cb.
  - eexists _, _. split_and!; [by apply vs_in_cb|by apply vs_stage_stop|..]; try done. split; try done. apply in_done_free.
Qed.

(** Endpoint 0 between transfers. *)
Record idle (v : ep0view) : Prop := {
  id_en : enabled v = false;
  id_ff : v_ff v = [];
  id_busy : not_busy v;
  id_buf : ∃ b, v_mem v !! ep0setup_buffer = Some b ∧ length b = 8%nat
}.

Definition zlp (n want : nat) : list (list Z) := if (n <? want)%nat && (n mod 64 =? 0)%nat then [[]] else [].

Lemma collect_ok : ∀ k (d : list Z) want, (64 * k < length d)%nat → (length d ≤ 64 * S k)%nat → (length d ≤ want)%nat →
  host_collect want (chunks (S k) d ++ zlp (length d) want) = (d, []) ∧
  Forall (λ p, (length p ≤ 64)%nat) (chunks (S k) d ++ zlp (length d) want).
Proof.
  induction k as [|k IH]; intros d want H1 H2 H3.
  - cbn [chunks app]. rewrite take_ge by lia. unfold zlp. cbn [host_collect].
    destruct (Nat.ltb_spec (length d) 64).
    + rewrite (Nat.mod_small (length d)) by lia. destruct (Nat.eqb_spec (length d) 0); [lia|]. rewrite andb_false_r.
      split; [done|]. apply Forall_singleton. lia.
    + replace (length d) with 64%nat by lia. change (64 mod 64 =? 0)%nat with true. rewrite andb_true_r. cbn [orb].
      destruct (Nat.ltb_spec 64 want), (Nat.leb_spec want 64); try lia.
      * cbn [host_collect]. change (length ([] : list Z) <? 64)%nat with true. cbn [orb]. rewrite app_nil_r.
        split; [done|]. apply Forall_cons; split; [lia|]. apply Forall_singleton. simpl. lia.
      * split; [done|]. apply Forall_singleton. lia.
  - change (chunks (S (S k)) d) with (take 64 d :: chunks (S k) (drop 64 d)). cbn [app host_collect].
    assert (length (drop 64 d) = length d - 64)%nat as Hdl by by rewrite length_drop.
    destruct (IH (drop 64 d) (want - 64)%nat) as [E F]; [lia|lia|lia|].
    assert (zlp (length (drop 64 d)) (want - 64) = zlp (length d) want) as Ez.
    { rewrite Hdl. unfold zlp. replace (length d - 64 <? want - 64)%nat with (length d <? want)%nat.
      - assert (length d mod 64 = (length d - 64) mod 64)%nat as ->; [|done].
        rewrite <-(Nat.Div0.mod_add (length d - 64) 1 64). f_equal. lia.
      - destruct (Nat.ltb_spec (length d) want), (Nat.ltb_spec (length d - 64) (want - 64)); done || lia. }
    rewrite Ez in *. rewrite length_take, Nat.min_l by lia. change (64 <? 64)%nat with false.
    destruct (Nat.leb_spec want 64); [lia|]. cbn [orb]. rewrite E. split; [by rewrite take_drop|].
    constructor; [rewrite length_take; lia|done].
Qed.

Lemma zlp_eq n want : 0 ≤ want → (if (Z.of_nat n <? want) && (Z.of_nat n `mod` 64 =? 0) then [[]] else []) = zlp n (Z.to_nat want).
Proof.
  intros Hw. unfold zlp. assert ((Z.of_nat n <? want) = (n <? Z.to_nat want)%nat) as ->.
  { destruct (Z.ltb_spec (Z.of_nat n) want), (Nat.ltb_spec n (Z.to_nat want)); done || lia. }
  change 64 with (Z.of_nat 64). rewrite <-Nat2Z.inj_mod. 
  by destruct (Z.eqb_spec (Z.of_nat (n mod 64)) 0), (Nat.eqb_spec (n mod 64) 0); try lia.
Qed.


(** A transfer to the host whose request the device accepts with [n] bytes at [p]:
    [v1] is what the driver shows then. *)
Record accepted (bs : list Z) (v1 : ep0view) : Prop := {
  ac_setup : v_setup v1 = bs;
  ac_en : enabled v1 = false;
  ac_ff : v_ff v1 = [];
  ac_busy : not_busy v1;
  ac_endcb : v_endcb v1 = None;
  ac_buf : v_mem v1 !! ep0setup_buffer = Some bs
}.

(** The driver when the request [bs] is examined. *)
Definition requested (bs : list Z) (v : ep0view) : ep0view :=
  set_v_setup bs (set_v_ep0state USB_EP0_WAITING_SETUP (set_v_mem (<[ep0setup_buffer := bs]> (v_mem v)) v)).

Lemma vs_setup_stage v v1 bs s0 lo hi : idle v → Forall byte bs → length bs = 8%nat →
  bs !! 0%nat = Some s0 → bs !! 6%nat = Some lo → bs !! 7%nat = Some hi →
  vsteps isr_open (requested bs v) request_handled true v1 isr_open → accepted bs v1 → 0 ≤ v_n v1 < 2 ^ 31 →
  vsteps isr_open v (host_setup bs) tt (next_stage s0 (set_v_n (Z.min (v_n v1) (lo + 256 * hi)) v1)) isr_open.
Proof.
  intros [He Hff Hb (b & Hbuf & Hlb)] Hbs Hl H0 H6 H7 Hreq [Ase _ _ Abu _ _] Hn.
  apply (vs_host_setup v b bs); try done. apply (vs_ep0setup _ bs v1); try done; rewrite ?Ase; try done.
  - apply lookup_insert_eq.
  - by eapply (Forall_lookup_1 byte bs).
  - by eapply (Forall_lookup_1 byte bs).
Qed.

(** A transfer to the host, from the SETUP packet to the status stage. *)
Lemma control_read_ok v v1 bs s0 lo hi p d fuel :
  let want := lo + 256 * hi in
  idle v → Forall byte bs → length bs = 8%nat → bs !! 0%nat = Some s0 → bs !! 6%nat = Some lo → bs !! 7%nat = Some hi →
  Z.land s0 USB_RTYPE_DIR_MASK = USB_RTYPE_DIR_DEV2HOST →
  vsteps isr_open (requested bs v) request_handled true v1 isr_open → accepted bs v1 →
  v_next v1 = p → vplace v1 p = Some d → v_n v1 = Z.of_nat (length d) →
  Forall byte d → (0 < length d)%nat → Z.of_nat (length d) < 2 ^ 31 → 0 < want → (length d / 64 + 2 ≤ fuel)%nat →
  ∃ ps v', vsteps isr_open v (control_read slack fuel bs) ps v' isr_open ∧
    host_collect (Z.to_nat want) ps = (take (Z.to_nat want) d, []) ∧ Forall (λ p, (length p ≤ 64)%nat) ps ∧
    idle v' ∧ v_ep0state v' = USB_EP0_WAITING_SETUP ∧ kept v1 v'.
Proof using Hslack.
  intros want Hidle Hbs Hl H0 H6 H7 Hdir Hreq Hacc Hnext Hplace Hn1 Hd Hpos Hlt Hw Hfuel.
  pose proof (vs_setup_stage v v1 bs s0 lo hi Hidle Hbs Hl H0 H6 H7 Hreq Hacc ltac:(lia)) as Hset.
  destruct Hacc as [Ase Aen Aff Abu Acb Abf].
  set (n := Nat.min (length d) (Z.to_nat want)). set (k := ((n - 1) / 64)%nat).
  set (v2 := set_v_n (Z.of_nat n) v1).
  assert (vsteps isr_open v (host_setup bs) tt (tx_started USB_EP0_TX p (Z.of_nat n) v2) isr_open) as Hset'.
  { eapply vs_eq; [exact Hset|done|]. fold want. replace (Z.min (v_n v1) want) with (Z.of_nat n) by lia.
    unfold next_stage. rewrite Hdir, Z.eqb_refl. cbn [v_n v_next set_v_n].
    destruct (Z.eqb_spec (Z.of_nat n) 0); [lia|]. cbn [negb]. by rewrite Hnext. }
  assert (k ≤ length d / 64)%nat as Hk by (apply Nat.Div0.div_le_mono; lia).
  destruct (vs_data_stage v2 (fuel - S k - 1) d p lo hi n) as (v3 & Hst & [Ast Astate Aen3 Aff3 Atx3] & Hkept);
    try done; try lia; try (by destruct p); try (cbn; by rewrite Ase); try (by eapply (Forall_lookup_1 byte bs)).
  fold k in Hst. replace (S k + S (fuel - S k - 1))%nat with fuel in Hst by lia.
  pose proof Hkept as (K1 & _ & _ & _ & _ & _ & K7 & _). rewrite zlp_eq in Hst by lia. fold want in Hst.
  destruct (collect_ok k (take n d) (Z.to_nat want)) as [Ecol Fcol]; [rewrite length_take; subst k; pose proof (Nat.div_mod_eq (n - 1) 64);
    pose proof (Nat.mod_upper_bound (n - 1) 64); lia..|].
  rewrite length_take, (Nat.min_l n) in Ecol, Fcol by lia.
  assert (take n d = take (Z.to_nat want) d) as Et.
  { subst n. destruct (Nat.le_gt_cases (length d) (Z.to_nat want)); [by rewrite !take_ge by lia|by rewrite Nat.min_r by lia]. }
  rewrite Et in Hst, Ecol, Fcol. eexists _, (set_v_ep0state USB_EP0_WAITING_SETUP (out_done v3)). split.
  { eapply vs_bind; [exact Hset'|]. eapply vs_bind; [exact Hst|].
    eapply vs_bind; [apply (vs_host_status v3 0 Ast Astate); by rewrite K1|apply vs_ret]. }
  split; [exact Ecol|]. split_and!; try done. split; [done|done|split; [done|apply out_done_free]|].
  exists bs. cbn. rewrite K7. done.
Qed.

(** The status stage of a transfer without a data stage. *)
Lemma vs_status_stage v1 bs : accepted bs v1 → length bs = 8%nat →
  ∃ v', vsteps isr_open (tx_started USB_EP0_SENDING_STS PNull 0 (set_v_n 0 v1)) (host_in_stage slack 1) [[]] v' isr_open ∧
    idle v' ∧ v_ep0state v' = USB_EP0_WAITING_SETUP ∧ kept v1 v'.
Proof using Hslack.
  intros [Ase Aen Aff [Abt Abr] Acb Abf] Hl.
  set (v2 := set_v_n 0 v1) in *. set (w := λ ri st, in_done (set_v_ri ri (set_v_st st (tx_started USB_EP0_SENDING_STS PNull 0 v2)))).
  destruct (vs_packets slack Hslack 0 [] (λ v', idle v' ∧ v_ep0state v' = USB_EP0_WAITING_SETUP ∧ kept v1 v') [] PNull (Forall_nil_2 _) 0 0 0
    (tx_started USB_EP0_SENDING_STS PNull 0 v2)) as (v' & Hst & HP); try done; [apply hasb_set|lia|by left|lia| |].
  - intros ri st Hri. eexists _, _. split; [|split].
    + apply vs_in_cb. by apply vs_ep0in_sts.
    + by apply vs_stage_stop.
    + split_and!; try done. split; try done; [split; [apply in_done_free|done]|]. by exists bs.
  - by exists v'.
Qed.

(** A request without data to the host. *)
Lemma next_status s0 v : Z.land s0 USB_RTYPE_DIR_MASK ≠ USB_RTYPE_DIR_DEV2HOST → v_n v = 0 →
  next_stage s0 v = tx_started USB_EP0_SENDING_STS PNull 0 v.
Proof. intros Hdir Hn. unfold next_stage. apply Z.eqb_neq in Hdir. by rewrite Hdir, Hn. Qed.

(** A transfer without a data stage. *)
Lemma control_nodata_ok v v1 bs s0 lo hi :
  idle v → Forall byte bs → length bs = 8%nat → bs !! 0%nat = Some s0 → bs !! 6%nat = Some lo → bs !! 7%nat = Some hi →
  Z.land s0 USB_RTYPE_DIR_MASK ≠ USB_RTYPE_DIR_DEV2HOST →
  vsteps isr_open (requested bs v) request_handled true v1 isr_open → accepted bs v1 → v_n v1 = 0 →
  ∃ v', vsteps isr_open v (control_nodata slack bs) [[]] v' isr_open ∧
    idle v' ∧ v_ep0state v' = USB_EP0_WAITING_SETUP ∧ kept v1 v'.
Proof using Hslack.
  intros Hidle Hbs Hl H0 H6 H7 Hdir Hreq Hacc Hn.
  assert (byte lo ∧ byte hi) as [Hlo Hhi] by (split; by eapply (Forall_lookup_1 byte bs)). unfold byte in *.
  pose proof (vs_setup_stage v v1 bs s0 lo hi Hidle Hbs Hl H0 H6 H7 Hreq Hacc ltac:(lia)) as Hset.
  rewrite Hn, Z.min_l, next_status in Hset by (done || lia).
  destruct (vs_status_stage v1 bs Hacc Hl) as (v' & Hst & HP). exists v'. split; [|done].
  eapply vs_bind; [exact Hset|exact Hst].
Qed.

(** The same for a request whose acceptance involves the application. *)
Lemma vd_control_nodata v bs s0 lo hi (P : ep0view → Prop) :
  idle v → Forall byte bs → length bs = 8%nat → bs !! 0%nat = Some s0 → bs !! 6%nat = Some lo → bs !! 7%nat = Some hi →
  Z.land s0 USB_RTYPE_DIR_MASK ≠ USB_RTYPE_DIR_DEV2HOST →
  vdoes isr_open (requested bs v) request_handled (λ ok v1, ok = true ∧ accepted bs v1 ∧ v_n v1 = 0 ∧ P v1) isr_open →
  vdoes isr_open v (control_nodata slack bs)
    (λ ps v', ps = [[]] ∧ idle v' ∧ v_ep0state v' = USB_EP0_WAITING_SETUP ∧ ∃ v1, P v1 ∧ kept v1 v') isr_open.
Proof using Hslack.
  intros [_ _ _ (b & Hb & Hlb)] Hbs Hl H0 H6 H7 Hdir Hreq.
  assert (byte lo ∧ byte hi) as [Hlo Hhi] by (split; by eapply (Forall_lookup_1 byte bs)). unfold byte in *.
  unfold control_nodata.
  eapply (vd_bind _ _ _ _ (λ _ w, ∃ v1, accepted bs v1 ∧ P v1 ∧ w = tx_started USB_EP0_SENDING_STS PNull 0 (set_v_n 0 v1))).
  - apply (vd_host_setup v b bs); try done. unfold _usb_ep0setup. eapply vd_step; [apply vs_set_ep0state|].
    eapply vd_step; [apply (vs_read_setup _ _ bs); [apply lookup_insert_eq|done]|].
    eapply vd_bind; [exact Hreq|]. intros ok v1 (-> & Hacc & Hn & HP). cbn [negb].
    pose proof (ac_setup _ _ Hacc) as Es. eapply vd_steps; [apply (vs_accepted v1 s0 lo hi); try (by rewrite Es); try done|].
    + rewrite Hn. lia.
    + apply Hacc.
    + exists v1. rewrite Hn, Z.min_l, next_status by (done || lia). done.
  - intros [] w (v1 & Hacc & HP & ->). destruct (vs_status_stage v1 bs Hacc Hl) as (v' & Hst & Hi & Hw & Hk).
    eapply vd_steps; [exact Hst|]. split_and!; try done. by exists v1.
Qed.

(** A standard request without a hook goes to the default handler. *)
Lemma vs_standard v c s0 ok v1 : v_config v = Some c → requests_hook_cb c = None → v_setup v !! 0%nat = Some s0 →
  Z.land s0 USB_RTYPE_TYPE_MASK = USB_RTYPE_TYPE_STD → vsteps isr_open v default_handler ok v1 isr_open →
  vsteps isr_open v request_handled ok v1 isr_open.
Proof.
  intros Hc Hh H0 Hty Hd. unfold request_handled.
  eapply vs_bind; [apply vs_deref; intros u Hu; by rewrite (vw_config _ _ Hu), Hc|]. rewrite Hh.
  eapply vs_bind; [apply vs_ret|]. eapply vs_bind; [by apply vs_setup_byte|]. rewrite Hty. exact Hd.
Qed.

(** The first steps of the default handler on a packet that starts with [s0] and [s1]. *)
Ltac standard_request v c bs :=
  assert (∀ i b, bs !! i = Some b → v_setup v !! i = Some b) as Hb by congruence;
  eapply (vs_standard v c); [done|done|by apply Hb|done|]; unfold default_handler;
  eapply vs_bind; [by apply vs_setup_byte, Hb|]; eapply vs_bind; [by apply vs_setup_byte, Hb|]; cbv zeta; vdecide.

(** The request GET_DESCRIPTOR of the device. *)
Lemma vs_get_descriptor v c f dsc dindex dtype b4 b5 b6 b7 :
  v_config v = Some c → requests_hook_cb c = None → get_descriptor_cb c = f → byte b4 → byte b5 →
  v_setup v = [128; USB_REQ_GET_DESCRIPTOR; dindex; dtype; b4; b5; b6; b7] →
  (∀ u s, run_descriptor f dtype dindex (b4 + 256 * b5) u s = Done (Some dsc, u) s) →
  vsteps isr_open v request_handled true (set_v_endcb None (set_v_n (ud_size dsc) (set_v_next (ud_string dsc) v))) isr_open.
Proof.
  intros Hc Hh Hf H0 H1 Hs Hd. standard_request v c ([128; USB_REQ_GET_DESCRIPTOR; dindex; dtype; b4; b5; b6; b7] : list Z). eapply vs_bind; [apply vs_deref; intros u Hu; by rewrite (vw_config _ _ Hu), Hc|].
  eapply vs_bind; [by apply vs_setup_byte, Hb|]. eapply vs_bind; [by apply vs_setup_byte, Hb|].
  eapply vs_bind; [by apply vs_hword; [apply Hb|apply Hb|..]|].
  eapply (vs_bind _ _ _ _ (Some dsc) v); [apply vs_pure; intros u s Hu; exists u; by rewrite Hf|].
  eapply vs_bind; [apply vs_setup_transfer|apply vs_ret].
Qed.

(** An event callback that leaves driver and kernel alone. *)
Definition quiet_events (c : USBConfig) : Prop :=
  match event_cb c with None => True | Some f => ∀ e u s, run_event f e u s = Done (tt, u) s end.

Lemma vs_event l v c e : v_config v = Some c → quiet_events c → vsteps l v (_usb_isr_invoke_event_cb e) tt v l.
Proof.
  intros Hc Hq. eapply vs_bind; [apply vs_deref; intros u Hu; by rewrite (vw_config _ _ Hu), Hc|].
  unfold quiet_events in Hq. destruct (event_cb c); [|apply vs_ret]. apply vs_pure. intros u s Hu. exists u. by rewrite Hq.
Qed.

Lemma vs_set_address_request v c a w0 w1 w2 w3 w4 :
  v_config v = Some c → requests_hook_cb c = None → quiet_events c → v_setup v = [0; USB_REQ_SET_ADDRESS; a; w0; w1; w2; w3; w4] →
  vsteps isr_open v request_handled true
    (set_v_endcb None (set_v_n 0 (set_v_next PNull
       (set_v_state USB_SELECTED (set_v_dcfg (with_address a (v_dcfg v)) (set_v_address a v)))))) isr_open.
Proof.
  intros Hc Hh Hq Hs. standard_request v c ([0; USB_REQ_SET_ADDRESS; a; w0; w1; w2; w3; w4] : list Z). change ((0 =? USB_RTYPE_RECIPIENT_DEVICE) && (USB_REQ_SET_ADDRESS =? USB_REQ_SET_ADDRESS)) with true. cbn [uwhen].
  eapply vs_bind; [|eapply vs_bind; [apply vs_setup_transfer|apply vs_ret]].
  unfold set_address. eapply vs_bind; [by apply vs_setup_byte, Hb|]. eapply vs_bind; [apply vs_set_address|].
  eapply vs_bind; [apply vs_lld_set_address|].
  eapply vs_bind; [by eapply vs_event|]. apply vs_set_state.
Qed.

(** What is asked of the event callback when the host sets configuration [n]: it
    returns and leaves endpoint 0 between transfers.  It can do anything else, like
    initialising the other endpoints, which it finds as [r] says. *)
Record at_rest (bs : list Z) (v : ep0view) : Prop := {
  ar_setup : v_setup v = bs;
  ar_en : enabled v = false;
  ar_ff : v_ff v = [];
  ar_busy : not_busy v;
  ar_buf : v_mem v !! ep0setup_buffer = Some bs
}.
Record configured (c : USBConfig) (n a : Z) (v : ep0view) : Prop := {
  cf_config : v_config v = Some c;
  cf_configuration : v_configuration v = n;
  cf_state : v_state v = (if n =? 0 then USB_SELECTED else USB_ACTIVE);
  cf_address : v_address v = a
}.
Definition configures (c : USBConfig) (n a : Z) (bs : list Z) (r : usbrest) : Prop :=
  match event_cb c with
  | None => True
  | Some f => ∀ v, at_rest bs v → configured c n a v → v_rest v = r →
      vdoes isr_open v (run_event f USB_EVENT_CONFIGURED) (λ _ v', at_rest bs v' ∧ configured c n a v') isr_open
  end.

Lemma vd_set_configuration_request v c n w0 w1 w2 w3 w4 :
  let bs := [0; USB_REQ_SET_CONFIGURATION; n; w0; w1; w2; w3; w4] in
  v_config v = Some c → requests_hook_cb c = None → configures c n (v_address v) bs (v_rest v) → at_rest bs v →
  vdoes isr_open v request_handled
    (λ ok v1, ok = true ∧ accepted bs v1 ∧ v_n v1 = 0 ∧ configured c n (v_address v) v1) isr_open.
Proof.
  intros bs Hc Hh Hq Hr. assert (∀ i b, bs !! i = Some b → v_setup v !! i = Some b) as Hb by (destruct Hr; congruence).
  unfold request_handled. eapply vd_step; [apply vs_deref; intros u Hu; by rewrite (vw_config _ _ Hu), Hc|]. rewrite Hh.
  eapply vd_step; [apply vs_ret|]. eapply vd_step; [by apply vs_setup_byte, Hb|].
  change (negb (Z.land 0 USB_RTYPE_TYPE_MASK =? USB_RTYPE_TYPE_STD)) with false. cbv iota. unfold default_handler.
  eapply vd_step; [by apply vs_setup_byte, Hb|]. eapply vd_step; [by apply vs_setup_byte, Hb|]. cbv zeta. vdecide.
  eapply vd_step; [by apply vs_setup_byte, Hb|]. eapply vd_step; [apply vs_set_configuration|].
  eapply vd_step; [apply vs_set_state|]. set (v0 := set_v_state _ _).
  assert (at_rest bs v0 ∧ configured c n (v_address v) v0) as [Hr0 Hc0] by (split; [destruct Hr; by split|by split]).
  eapply (vd_bind _ _ _ _ (λ _ v', at_rest bs v' ∧ configured c n (v_address v) v')).
  { unfold _usb_isr_invoke_event_cb. eapply vd_step; [apply vs_deref; intros u Hu; by rewrite (vw_config _ _ Hu), (cf_config _ _ _ _ Hc0)|].
    unfold configures in Hq. destruct (event_cb c); [by apply Hq|by apply vd_ret]. }
  intros [] v1 [[] []]. eapply vd_step; [apply vs_setup_transfer|]. apply vd_ret. split_and!; by try split.
Qed.

Lemma vs_get_configuration_request v c w0 w1 w2 w3 w4 w5 :
  v_config v = Some c → requests_hook_cb c = None → v_setup v = [128; USB_REQ_GET_CONFIGURATION; w0; w1; w2; w3; w4; w5] →
  vsteps isr_open v request_handled true (set_v_endcb None (set_v_n 1 (set_v_next PConfiguration v))) isr_open.
Proof.
  intros Hc Hh Hs. standard_request v c ([128; USB_REQ_GET_CONFIGURATION; w0; w1; w2; w3; w4; w5] : list Z). eapply vs_bind; [apply vs_setup_transfer|apply vs_ret].
Qed.

(** C16.  A control transfer that reads a descriptor, from the SETUP packet to
    the status stage, through the pump thread, the interrupt handlers and the
    endpoint 0 callbacks: a host that asks for any number of bytes of a descriptor
    of any length receives exactly the first bytes of it, in packets of at most 64
    bytes that end where the host stops reading, with a packet of size zero when the
    descriptor is shorter than asked for and ends on a packet boundary; afterwards
    the endpoint is between transfers again, waits for a SETUP packet, and the
    state, address and configuration of the device and the kernel are as before. *)
Theorem usb_get_descriptor_correct u s v c dsc a d dindex dtype b4 b5 b6 b7 fuel :
  let want := b6 + 256 * b7 in
  views u v → idle v → isr_open s →
  v_config v = Some c → requests_hook_cb c = None →
  (∀ u s, run_descriptor (get_descriptor_cb c) dtype dindex (b4 + 256 * b5) u s = Done (Some dsc, u) s) →
  ud_string dsc = PMem a → a ≠ ep0setup_buffer → v_mem v !! a = Some d → ud_size dsc = Z.of_nat (length d) →
  Forall byte d → (0 < length d)%nat → Z.of_nat (length d) < 2 ^ 31 →
  Forall byte [dindex; dtype; b4; b5; b6; b7] → 0 < want → (length d / 64 + 2 ≤ fuel)%nat →
  ∃ ps u' s' v',
    control_read slack fuel [128; USB_REQ_GET_DESCRIPTOR; dindex; dtype; b4; b5; b6; b7] u s = Done (ps, u') s' ∧
    host_collect (Z.to_nat want) ps = (take (Z.to_nat want) d, []) ∧ Forall (λ p, (length p ≤ 64)%nat) ps ∧
    views u' v' ∧ idle v' ∧ v_ep0state v' = USB_EP0_WAITING_SETUP ∧
    v_state v' = v_state v ∧ v_address v' = v_address v ∧ v_configuration v' = v_configuration v ∧
    isr_open s' ∧ same_data s s'.
Proof using Hslack.
  intros want Hu Hidle Hs Hc Hh Hcb Hstr Ha Hmem Hsz Hd Hpos Hlt Hbs Hw Hfuel.
  set (bs := [128; USB_REQ_GET_DESCRIPTOR; dindex; dtype; b4; b5; b6; b7]).
  assert (Forall byte bs) as Hb by by apply Forall_cons; split; [done|]; apply Forall_cons.
  set (v1 := set_v_endcb None (set_v_n (ud_size dsc) (set_v_next (ud_string dsc) (requested bs v)))).
  destruct (control_read_ok v v1 bs 128 b6 b7 (PMem a) d fuel) as (ps & v' & Hrun & Hcol & Hlen & Hid & H0 & _ & _ & K1 & K2 & K3 & _); try done.
  - apply (vs_get_descriptor (requested bs v) c (get_descriptor_cb c) dsc dindex dtype b4 b5 b6 b7); try done;
      [by apply (Forall_lookup_1 byte bs 4)|by apply (Forall_lookup_1 byte bs 5)].
  - destruct Hidle as [? ? ? _]. split; try done. apply lookup_insert_eq.
  - simpl. by rewrite lookup_insert_ne.
  - destruct (Hrun u s Hu Hs) as (u' & s' & E & V & L & D). exists ps, u', s', v'. by split_and!.
Qed.

(** SET_ADDRESS: the host's transfer is answered with one packet of size
    zero; afterwards the address field of DCFG and the driver's address are the
    requested address, the other bits of DCFG are as before, the device is in state
    SELECTED and endpoint 0 is between transfers. *)
Theorem usb_set_address_correct u s v c a w0 w1 w2 :
  views u v → idle v → isr_open s →
  v_config v = Some c → requests_hook_cb c = None → quiet_events c → 0 ≤ a < 128 → Forall byte [w0; w1; w2] →
  ∃ u' s' v',
    control_nodata slack [0; USB_REQ_SET_ADDRESS; a; w0; w1; w2; 0; 0] u s = Done ([[]], u') s' ∧
    views u' v' ∧ idle v' ∧ v_ep0state v' = USB_EP0_WAITING_SETUP ∧ v_state v' = USB_SELECTED ∧ v_address v' = a ∧
    Z.shiftr (Z.land (v_dcfg v') DCFG_DAD_MASK) 4 = a ∧
    (∀ i, 0 ≤ i < 32 → (i < 4 ∨ 11 ≤ i) → Z.testbit (v_dcfg v') i = Z.testbit (v_dcfg v) i) ∧
    isr_open s' ∧ same_data s s'.
Proof using Hslack.
  intros Hu Hidle Hs Hc Hh Hq Ha Hw. set (bs := [0; USB_REQ_SET_ADDRESS; a; w0; w1; w2; 0; 0]).
  assert (Forall byte bs) as Hb.
  { unfold bs. do 3 (apply Forall_cons; split; [unfold byte, USB_REQ_SET_ADDRESS; lia|]). apply (Forall_app_2 _ [w0; w1; w2] [0; 0]); [done|].
    by repeat (apply Forall_cons; split; [unfold byte; lia|]). }
  pose proof (vs_set_address_request (requested bs v) c a w0 w1 w2 0 0 Hc Hh Hq eq_refl) as Hreq.
  destruct (control_nodata_ok v _ bs 0 0 0 Hidle Hb eq_refl eq_refl eq_refl eq_refl ltac:(done) Hreq)
    as (v' & Hrun & Hid & H0 & _ & _ & K3 & _ & K5 & _ & _ & K8); [|done|].
  - destruct Hidle as [? ? ? _]. split; try done. apply lookup_insert_eq.
  - destruct (Hrun u s Hu Hs) as (u' & s' & E & V & L & D). exists u', s', v'. rewrite K8. split_and!; try done.
    + by apply with_address_field.
    + intros i Hi Hout. by apply with_address_rest.
Qed.

(** C17.  A configuration set by the host is the one it reads back: SET_CONFIGURATION
    n is answered with a packet of size zero and leaves the device ACTIVE, or
    SELECTED for n = 0, and a GET_CONFIGURATION after it returns the single byte
    n.  There is no requests hook; of the event callback, which runs when the
    configuration is set ([configures]), it is asked that it returns and leaves
    endpoint 0 between transfers and the configuration, state and address of the
    device as they are: it can initialise the other endpoints, which are then as they
    were before the request, and use the kernel. *)
Theorem usb_configuration_roundtrip u s v c n :
  let bs := [0; USB_REQ_SET_CONFIGURATION; n; 0; 0; 0; 0; 0] in
  views u v → idle v → isr_open s →
  v_config v = Some c → requests_hook_cb c = None → configures c n (v_address v) bs (v_rest v) → byte n →
  ∃ u' s' v',
    (sts ← control_nodata slack bs;
     ps ← control_read slack 2 [128; USB_REQ_GET_CONFIGURATION; 0; 0; 0; 0; 1; 0];
     mret (sts, host_collect 1 ps)) u s = Done (([[]], ([n], [])), u') s' ∧
    views u' v' ∧ idle v' ∧ v_ep0state v' = USB_EP0_WAITING_SETUP ∧ v_configuration v' = n ∧
    v_state v' = (if n =? 0 then USB_SELECTED else USB_ACTIVE) ∧ v_address v' = v_address v ∧ isr_open s'.
Proof using Hslack.
  intros bs Hu Hidle Hs Hc Hh Hq Hn. set (bs' := [128; USB_REQ_GET_CONFIGURATION; 0; 0; 0; 0; 1; 0]).
  assert (Forall byte bs ∧ Forall byte bs') as [Hb Hb'] by (unfold byte in *; split; repeat (apply Forall_cons; split; [done|]); done).
  assert (at_rest bs (requested bs v)) as Hr by (destruct Hidle; split; try done; apply lookup_insert_eq).
  pose proof (vd_set_configuration_request (requested bs v) c n 0 0 0 0 0 Hc Hh Hq Hr) as Hreq.
  pose proof (vd_control_nodata v bs 0 0 0 _ Hidle Hb eq_refl eq_refl eq_refl eq_refl ltac:(done) Hreq) as Hrun.
  assert (vdoes isr_open v (sts ← control_nodata slack bs; ps ← control_read slack 2 bs'; mret (sts, host_collect 1 ps))
    (λ r v', r = ([[]], ([n], [])) ∧ idle v' ∧ v_ep0state v' = USB_EP0_WAITING_SETUP ∧ configured c n (v_address v) v') isr_open) as Hall.
  { eapply vd_bind; [exact Hrun|]. intros ps w (-> & Hid & H0 & v1 & [C1 C2 C3 C4] & _ & _ & K3 & K4 & K5 & K6 & _ & _).
    assert (v_config w = Some c) as Hcw by by rewrite K6.
    pose proof (vs_get_configuration_request (requested bs' w) c 0 0 0 0 1 0 Hcw Hh eq_refl) as Hreq'.
    destruct (control_read_ok w _ bs' 128 1 0 PConfiguration [n] 2 Hid Hb' eq_refl eq_refl eq_refl eq_refl eq_refl Hreq')
      as (ps & v' & Hrun' & Hcol & _ & Hid' & H0' & _ & _ & L3 & L4 & L5 & L6 & _ & _); try done.
    { destruct Hid as [? ? ? _]. split; try done. apply lookup_insert_eq. }
    { simpl. by rewrite K4, C2. } { by apply Forall_singleton. } { simpl. lia. }
    eapply vd_step; [exact Hrun'|]. change (Z.to_nat (1 + 256 * 0)) with 1%nat in Hcol. rewrite Hcol. apply vd_ret.
    split_and!; try done. split; [by rewrite L6|by rewrite L4, <-C2|by rewrite L5, <-C3|rewrite L3; exact (eq_trans K3 C4)]. }
  destruct (Hall u s Hu Hs) as (r & u' & v' & s' & E & V & (-> & Hi & H0 & []) & L). exists u', s', v'. by split_and!.
Qed.

(** ** Requests the device refuses *)

(** The labels of the switch of the default handler. *)
Definition handled_requests : list Z :=
  [req USB_RTYPE_RECIPIENT_DEVICE USB_REQ_GET_STATUS; req USB_RTYPE_RECIPIENT_DEVICE USB_REQ_CLEAR_FEATURE;
   req USB_RTYPE_RECIPIENT_DEVICE USB_REQ_SET_FEATURE; req USB_RTYPE_RECIPIENT_DEVICE USB_REQ_SET_ADDRESS;
   req USB_RTYPE_RECIPIENT_DEVICE USB_REQ_GET_DESCRIPTOR; req USB_RTYPE_RECIPIENT_DEVICE USB_REQ_GET_CONFIGURATION;
   req USB_RTYPE_RECIPIENT_DEVICE USB_REQ_SET_CONFIGURATION; req USB_RTYPE_RECIPIENT_INTERFACE USB_REQ_GET_STATUS;
   req USB_RTYPE_RECIPIENT_ENDPOINT USB_REQ_SYNCH_FRAME; req USB_RTYPE_RECIPIENT_ENDPOINT USB_REQ_GET_STATUS;
   req USB_RTYPE_RECIPIENT_ENDPOINT USB_REQ_CLEAR_FEATURE; req USB_RTYPE_RECIPIENT_ENDPOINT USB_REQ_SET_FEATURE].

(** A request of the class or of the vendor, or a standard one without a label. *)
Definition refused (s0 s1 : Z) : Prop :=
  Z.land s0 USB_RTYPE_TYPE_MASK ≠ USB_RTYPE_TYPE_STD ∨
  Z.lor (Z.land s0 (Z.lor USB_RTYPE_RECIPIENT_MASK USB_RTYPE_TYPE_MASK)) (Z.shiftl s1 8) ∉ handled_requests.

Lemma vs_refused v c s0 s1 : v_config v = Some c → requests_hook_cb c = None →
  v_setup v !! 0%nat = Some s0 → v_setup v !! 1%nat = Some s1 → refused s0 s1 →
  vsteps isr_open v request_handled false v isr_open.
Proof.
  intros Hc Hh H0 H1 Hr. unfold request_handled.
  eapply vs_bind; [apply vs_deref; intros u Hu; by rewrite (vw_config _ _ Hu), Hc|]. rewrite Hh.
  eapply vs_bind; [apply vs_ret|]. eapply vs_bind; [by apply vs_setup_byte|].
  destruct (Z.eqb_spec (Z.land s0 USB_RTYPE_TYPE_MASK) USB_RTYPE_TYPE_STD) as [E|E]; cbn [negb]; [|apply vs_ret].
  destruct Hr as [|Hr]; [done|]. unfold default_handler.
  eapply vs_bind; [by apply vs_setup_byte|]. eapply vs_bind; [by apply vs_setup_byte|]. cbv zeta.
  revert Hr. generalize (Z.lor (Z.land s0 (Z.lor USB_RTYPE_RECIPIENT_MASK USB_RTYPE_TYPE_MASK)) (Z.shiftl s1 8)). intros r Hr.
  unfold handled_requests in Hr. rewrite !not_elem_of_cons in Hr. destruct Hr as (E0 & E1 & E2 & E3 & E4 & E5 & E6 & E7 & E8 & E9 & E10 & E11 & _).
  repeat match goal with E : r ≠ _ |- _ => apply Z.eqb_neq in E; rewrite E; clear E end. cbn [orb]. apply vs_ret.
Qed.

(** C18.  A request the device does not know, of any type and with any content,
    is refused: both directions of endpoint 0 are stalled, nothing is sent, the
    state is ERROR, address, configuration and memory (but the SETUP buffer) are as
    before, and the endpoint is between transfers, so that the next SETUP packet
    starts a transfer like any other. *)
Theorem usb_request_refused u s v c bs s0 s1 :
  views u v → idle v → isr_open s → v_config v = Some c → requests_hook_cb c = None → quiet_events c →
  Forall byte bs → length bs = 8%nat → bs !! 0%nat = Some s0 → bs !! 1%nat = Some s1 → refused s0 s1 →
  ∃ u' s' v',
    host_setup bs u s = Done (tt, u') s' ∧ views u' v' ∧ idle v' ∧ v_ep0state v' = USB_EP0_ERROR ∧
    hasb (DIEPCTL (v_ri v')) DIEPCTL_STALL = true ∧ hasb (DOEPCTL (v_ro v')) DIEPCTL_STALL = true ∧
    v_state v' = v_state v ∧ v_address v' = v_address v ∧ v_configuration v' = v_configuration v ∧
    v_mem v' = <[ep0setup_buffer := bs]> (v_mem v) ∧ isr_open s' ∧ same_data s s'.
Proof.
  intros Hu [He Hff [Htx Hrx] (b & Hb & Hlb)] Hs Hc Hh Hq Hbs Hl H0 H1 Hr.
  assert (∀ w, v_config w = Some c → vsteps isr_open w ep0_error tt
    (set_v_ep0state USB_EP0_ERROR (set_v_ro (set_DOEPCTL (Z.lor (DOEPCTL (v_ro w)) DIEPCTL_STALL) (v_ro w))
      (set_v_ri (set_DIEPCTL (Z.lor (DIEPCTL (v_ri w)) DIEPCTL_STALL) (v_ri w)) w))) isr_open) as Herr.
  { intros w Hw. unfold ep0_error. eapply vs_bind; [apply vs_upd_ie|]. eapply vs_bind; [apply vs_upd_oe|].
    eapply vs_bind; [by apply (vs_event _ _ c)|]. eapply vs_eq; [apply vs_set_ep0state|done|done]. }
  eassert (vsteps isr_open v (host_setup bs) tt _ isr_open) as Hrun.
  { apply (vs_host_setup v b bs); [done..|]. unfold _usb_ep0setup. eapply vs_bind; [apply vs_set_ep0state|].
    eapply vs_bind; [apply (vs_read_setup _ _ bs); [apply lookup_insert_eq|done]|].
    eapply vs_bind; [by apply (vs_refused _ c s0 s1)|]. cbn [negb]. by apply Herr. }
  destruct (Hrun u s Hu Hs) as (u' & s' & E & V & L & D). eexists u', s', _. split; [exact E|]. split; [exact V|].
  split_and!; try done.
  - split; try done.
    + by apply (hasb_lor_ne _ 21 31).
    + exists bs. split; [apply lookup_insert_eq|done].
  - apply (hasb_set' _ 21).
  - apply (hasb_set' _ 21).
Qed.

(** A SETUP packet while the flag of a transmission is still set (the host gave
    the previous transfer up): the answer is prepared, but usbStartTransmitI finds
    the endpoint busy and its result is ignored, so the endpoint is not enabled. *)
Lemma usb_setup_while_transmitting v : hasb (v_tx v) (bit 0) = true →
  vsteps isr_open v start_transmit tt v isr_open.
Proof.
  intros Hb. unfold start_transmit, usbStartTransmitI. eapply vs_bind; [apply vs_lock|].
  eapply vs_bind; [|apply vs_unlock]. eapply vs_bind; [apply vs_classI|]. apply vs_get. intros u Hu.
  unfold usbGetTransmitStatusI. cbn [id]. rewrite (vw_tx _ _ Hu), busy_0, Hb. apply vs_ret.
Qed.
End Control.
