(* ===== verification/Ep0Safe.v ===== *)
(** * Endpoint 0 over any sequence of events

    The interrupts of endpoint 0 in any order the host and the core can produce:
    resets, SETUP packets when no transfer is under way, ends of IN transfers when
    one was started, OUT packets with their bytes when one is expected.  The state
    machine of usb.c never meets its assertions and what the host sends is stored
    within the buffers given for it. *)

From S2P Require Import Prelude Ring TimeMeas Kernel ThreadQueues Sys VTimers Sched Thd IOQueues UsbBase Usb Otg Ep0.

(** ** Events *)

Section Events.
Context `{UsbApp}.

(** The words of [n] in the receive FIFO for the bytes [bs] of a packet. *)
Fixpoint fifo_words (n : nat) (bs : list Z) : list Z :=
  match n with O => [] | S n => le_word (take 4 bs) :: fifo_words n (drop 4 bs) end.

(** An OUT packet [bs]: the entry of the receive FIFO, then the interrupt. *)
Definition host_out (bs : list Z) : U unit :=
  _ ← otg_rxfifo_handler (rx_status GRXSTSP_OUT_DATA (length bs) 0) (fifo_words (words_of (length bs)) bs);
  otg_epout_handler 0 DOEPINT_XFRC.

Inductive ep0_event := EvReset | EvSetup (bs : list Z) | EvIn | EvOut (bs : list Z).

(** The handlers of an event. *)
Definition ep0_handle (e : ep0_event) : U unit :=
  match e with
  | EvReset => _usb_reset ;; _usb_isr_invoke_event_cb USB_EVENT_RESET
  | EvSetup bs => host_setup bs
  | EvIn => otg_epin_handler 0 DIEPINT_XFRC
  | EvOut bs => host_out bs
  end.

(** The standard requests that are answered with data: the host must give them the
    direction from the device, which default_handler does not look at. *)
Definition read_requests : list Z :=
  [req USB_RTYPE_RECIPIENT_DEVICE USB_REQ_GET_STATUS; req USB_RTYPE_RECIPIENT_DEVICE USB_REQ_GET_DESCRIPTOR;
   req USB_RTYPE_RECIPIENT_DEVICE USB_REQ_GET_CONFIGURATION; req USB_RTYPE_RECIPIENT_INTERFACE USB_REQ_GET_STATUS;
   req USB_RTYPE_RECIPIENT_ENDPOINT USB_REQ_SYNCH_FRAME; req USB_RTYPE_RECIPIENT_ENDPOINT USB_REQ_GET_STATUS].
Definition to_device (s0 : Z) : bool := negb (Z.land s0 USB_RTYPE_DIR_MASK =? USB_RTYPE_DIR_DEV2HOST).
Definition well_directed (bs : list Z) : bool :=
  match bs with
  | s0 :: s1 :: _ =>
      negb (to_device s0 &&
            existsb (Z.eqb (Z.lor (Z.land s0 (Z.lor USB_RTYPE_RECIPIENT_MASK USB_RTYPE_TYPE_MASK)) (Z.shiftl s1 8))) read_requests)
  | _ => true
  end.

(** Whether the event can happen. *)
Definition ep0_allowed (u : usbdrv) (e : ep0_event) : bool :=
  match e with
  | EvReset => true
  | EvSetup bs => (length bs =? 8)%nat && forallb (λ b, (0 <=? b) && (b <? 256)) bs && well_directed bs &&
                  negb (hasb (u_transmitting u) (bit 0)) && negb (hasb (u_receiving u) (bit 0))
  | EvIn => hasb (u_transmitting u) (bit 0)
  | EvOut bs => hasb (u_receiving u) (bit 0) && (length bs <=? 64)%nat
  end.

(** The events one after the other; one that cannot happen is skipped. *)
Fixpoint ep0_run (es : list ep0_event) : U unit :=
  match es with
  | [] => mret ()
  | e :: es => u ← uget id; uwhen (ep0_allowed u e) (ep0_handle e) ;; ep0_run es
  end.
End Events.

(** ** What is asked of the application *)

Section Contract.
(** The buffers of the application for data from the host, with their sizes. *)
Variable bufs : gmap addr nat.
Definition has_bufs (v : ep0view) : Prop := ∀ a n, bufs !! a = Some n → ∃ b, v_mem v !! a = Some b ∧ length b = n.

(** The parts of endpoint 0 that only the driver changes are as before, the buffers
    are still there, and the size of the transfer set up is in range. *)
Record benign (v v' : ep0view) : Prop := {
  be_st : v_st v' = v_st v; be_ri : v_ri v' = v_ri v; be_ro : v_ro v' = v_ro v; be_ff : v_ff v' = v_ff v;
  be_tx : hasb (v_tx v') (bit 0) = hasb (v_tx v) (bit 0); be_rx : hasb (v_rx v') (bit 0) = hasb (v_rx v) (bit 0);
  be_ep0state : v_ep0state v' = v_ep0state v;
  be_setup : v_setup v' = v_setup v; be_config : v_config v' = v_config v;
  be_buf : v_mem v' !! ep0setup_buffer = v_mem v !! ep0setup_buffer;
  be_bufs : has_bufs v → has_bufs v';
  be_n : 0 ≤ v_n v < 2 ^ 31 → 0 ≤ v_n v' < 2 ^ 31
}.

Lemma benign_refl v : benign v v.
Proof. by split. Qed.
Lemma benign_trans v1 v2 v3 : benign v1 v2 → benign v2 v3 → benign v1 v3.
Proof. intros [] []. split; try congruence; auto. Qed.

(** A memory buffer has room for [n] bytes at [off], in whole words as the driver
    stores them. *)
Definition room (v : ep0view) (p : uptr) (off : nat) (n : Z) : Prop :=
  ∃ a buf, p = PMem a ∧ v_mem v !! a = Some buf ∧ (off + 4 * words_of (Z.to_nat n) ≤ length buf)%nat.

(** A request that is accepted with data from the host has a buffer for them. *)
Definition ready (v : ep0view) : Prop :=
  ∀ s0, v_setup v !! 0%nat = Some s0 → to_device s0 = true → v_n v = 0 ∨ room v (v_next v) 0 (v_n v).
Definition answered (v : ep0view) (r : bool) (v' : ep0view) : Prop := benign v v' ∧ (r = true → ready v').

Section Safe.
Context `{UsbApp}.
Implicit Types (v : ep0view).

(** What is asked of the functions of the application: they return, in the
    interrupt handler and outside critical sections, and do not touch what belongs
    to endpoint 0; descriptors have a size in range, and a hook that accepts a
    request with data from the host gives a buffer for them. *)
Record app_ok : Prop := {
  ao_event : ∀ f e v, has_bufs v → vdoes isr_open v (run_event f e) (λ _ v', benign v v') isr_open;
  ao_cb : ∀ f v, has_bufs v → vdoes isr_open v (run_cb f) (λ _ v', benign v v') isr_open;
  ao_hook : ∀ f v, has_bufs v → vdoes isr_open v (run_hook f) (answered v) isr_open;
  ao_desc : ∀ f t i w v, has_bufs v → vdoes isr_open v (run_descriptor f t i w)
    (λ r v', benign v v' ∧ ∀ d, r = Some d → 0 ≤ ud_size d < 2 ^ 31) isr_open
}.

(** ** The requests *)

Lemma vd_event v e : app_ok → is_Some (v_config v) → has_bufs v → vdoes isr_open v (_usb_isr_invoke_event_cb e) (λ _ v', benign v v') isr_open.
Proof.
  intros Ha [c Hc] Hbf. eapply vd_step; [apply (vs_deref _ _ _ c); intros u Hu; by rewrite (vw_config _ _ Hu)|].
  destruct (event_cb c) as [f|]; [by apply ao_event|]. by apply vd_ret.
Qed.

Lemma land_15 w : (Z.to_nat (Z.land w 15) < 16)%nat.
Proof. change 15 with (Z.ones 4). rewrite Z.land_ones by lia. pose proof (Z.mod_pos_bound w (2 ^ 4)). lia. Qed.

Lemma vd_read_reg {A} l v (f : usbdrv → list A) ep (g : A → usbepstatus) : (∀ u, views u v → length (f u) = 16%nat) → (ep < 16)%nat →
  vdoes l v (r ← uderef (λ u, f u !! ep); mret (g r)) (λ _ v', v' = v) l.
Proof.
  intros Hf Hep u s Hu Hs. destruct (lookup_lt_is_Some_2 (f u) ep) as [r Er]; [by rewrite Hf|].
  exists (g r), u, v, s. split_and!; try done.
  rewrite ubind_eq. unfold uderef. by rewrite Er.
Qed.

(** An answer to a request: in range, nothing else touched, and no data from the
    host unless the request is one to the host. *)
Definition from_device v : Prop := ∀ s0, v_setup v !! 0%nat = Some s0 → to_device s0 = false.
Lemma vd_answer v p n : 0 ≤ n < 2 ^ 31 → n = 0 ∨ from_device v →
  vdoes isr_open v (usbSetupTransfer p n None ;; mret true) (answered v) isr_open.
Proof.
  intros Hn Hd. eapply vd_step; [apply vs_setup_transfer|]. apply vd_ret. split; [by split|]. intros _ s0 H0 Ht.
  destruct Hd as [->|Hd]; [by left|]. cbn in H0. by rewrite (Hd s0 H0) in Ht.
Qed.
Lemma vd_refuse v : vdoes isr_open v (mret false) (answered v) isr_open.
Proof. apply vd_ret. split; [apply benign_refl|done]. Qed.

Lemma vd_after v v1 (m : U bool) l l' : benign v v1 → vdoes l v1 m (answered v1) l' → vdoes l v1 m (answered v) l'.
Proof. intros Hb. apply vd_mono. intros r v' [Hb' Hr]. split; [by eapply benign_trans|done]. Qed.

Section Requests.
Hypothesis Happ : app_ok.
Context (v : ep0view) (c : USBConfig) (b0 b1 b2 b3 b4 b5 b6 b7 : Z).
Hypothesis Hc : v_config v = Some c.
Hypothesis Hs : v_setup v = [b0; b1; b2; b3; b4; b5; b6; b7].
Hypothesis Hbufs : has_bufs v.

(** The label of the request. *)
Notation label := (Z.lor (Z.land b0 (Z.lor USB_RTYPE_RECIPIENT_MASK USB_RTYPE_TYPE_MASK)) (Z.shiftl b1 8)).
Hypothesis Hdir : well_directed [b0; b1; b2; b3; b4; b5; b6; b7] = true.

Lemma read_from_device : existsb (Z.eqb label) read_requests = true → from_device v.
Proof using Hs Hdir.
  intros Hr s0. rewrite Hs. intros [= <-]. unfold well_directed in Hdir. rewrite Hr, andb_true_r in Hdir.
  by apply negb_true_iff in Hdir.
Qed.

Local Lemma vs_byte i b : [b0; b1; b2; b3; b4; b5; b6; b7] !! i = Some b → vsteps isr_open v (setup_byte i) b v isr_open.
Proof using Hs. intros Hb. apply vs_setup_byte. by rewrite Hs. Qed.

Lemma vd_feature on_in on_out :
  (∀ ep w, (0 < ep < 16)%nat → vsteps isr_open w (on_in ep) tt w isr_open ∧ vsteps isr_open w (on_out ep) tt w isr_open) →
  vdoes isr_open v (endpoint_feature on_in on_out) (answered v) isr_open.
Proof using Hs.
  intros Hon. unfold endpoint_feature. eapply vd_step; [by apply vs_byte|]. destruct (negb _); [apply vd_refuse|].
  eapply vd_step; [by apply vs_byte|]. cbv zeta. eapply vd_step; [|apply vd_answer; [done|by left]].
  destruct (Z.eqb_spec (Z.land b4 15) 0) as [|Hne]; [apply vs_ret|]. cbn [negb uwhen].
  assert (0 < Z.to_nat (Z.land b4 15) < 16)%nat as Hep.
  { pose proof (land_15 b4). assert (0 ≤ Z.land b4 15) by (apply Z.land_nonneg; lia). lia. }
  destruct (negb _); by apply Hon.
Qed.

Lemma vd_status st : from_device v → vdoes isr_open v (endpoint_status st) (answered v) isr_open.
Proof. intros Hd. destruct st; [apply vd_refuse|apply vd_answer; [done|by right]|apply vd_answer; [done|by right]]. Qed.

Lemma vd_remote_wakeup f : vdoes isr_open v
    (x ← setup_byte 2;
     if x =? USB_FEATURE_DEVICE_REMOTE_WAKEUP then
       umod (λ u, set_u_status (f (u_status u)) u) ;; usbSetupTransfer PNull 0 None ;; mret true
     else mret false) (answered v) isr_open.
Proof using Hs.
  eapply vd_step; [by apply vs_byte|]. destruct (_ =? _); [|apply vd_refuse].
  eapply vd_step; [apply vs_mod_status|]. apply (vd_after v); [by split|apply vd_answer; [done|by left]].
Qed.

Lemma vd_set_address : vdoes isr_open v set_address (λ _ v', benign v v') isr_open.
Proof using Happ Hc Hs Hbufs.
  unfold set_address. eapply vd_step; [by apply vs_byte|]. eapply vd_step; [apply vs_set_address|]. eapply vd_step; [apply vs_lld_set_address|].
  eapply vd_bind; [apply vd_event; [done|by exists c|done]|]. intros [] v1 Hb. eapply vd_steps; [apply vs_set_state|].
  eapply benign_trans; [eapply benign_trans; [|exact Hb]; by split|by split].
Qed.

Lemma vd_get_descriptor : from_device v → vdoes isr_open v
    (c ← uderef u_config;
     dtype ← setup_byte 3;
     dindex ← setup_byte 2;
     lang ← get_hword 4;
     dp ← run_descriptor (get_descriptor_cb c) dtype dindex lang;
     match dp with
     | None => mret false
     | Some d => usbSetupTransfer (ud_string d) (ud_size d) None ;; mret true
     end) (answered v) isr_open.
Proof using Happ Hc Hs Hbufs.
  intros Hfd. eapply vd_step; [apply (vs_deref _ _ _ c); intros u Hu; by rewrite (vw_config _ _ Hu)|].
  do 2 (eapply vd_step; [by apply vs_byte|]).
  eapply vd_step; [eapply vs_bind; [by apply vs_byte|]; eapply vs_bind; [by apply vs_byte|apply vs_ret]|].
  eapply vd_bind; [by apply ao_desc|]. intros [d|] v1 [Hb Hd]; [|by apply vd_ret].
  apply (vd_after v); [done|]. apply vd_answer; [by apply Hd|]. right. intros s0. rewrite (be_setup _ _ Hb). apply Hfd.
Qed.

Lemma vd_set_configuration : vdoes isr_open v
    (n ← setup_byte 2;
     umod (set_u_configuration n) ;;
     umod (set_u_state (if n =? 0 then USB_SELECTED else USB_ACTIVE)) ;;
     _usb_isr_invoke_event_cb USB_EVENT_CONFIGURED ;;
     usbSetupTransfer PNull 0 None ;; mret true) (answered v) isr_open.
Proof using Happ Hc Hs Hbufs.
  eapply vd_step; [by apply vs_byte|]. eapply vd_step; [apply vs_set_configuration|]. eapply vd_step; [apply vs_set_state|].
  eapply vd_bind; [apply vd_event; [done|by exists c|done]|]. intros [] v1 Hb.
  apply (vd_after v); [|apply vd_answer; [done|by left]]. eapply benign_trans; [|exact Hb]. by split.
Qed.

Lemma vd_endpoint_status : from_device v → vdoes isr_open v
    (w ← setup_byte 4;
     st ← (if negb (Z.land w 128 =? 0) then usb_lld_get_status_in (Z.to_nat (Z.land w 15))
           else usb_lld_get_status_out (Z.to_nat (Z.land w 15)));
     endpoint_status st) (answered v) isr_open.
Proof using Hs.
  intros Hfd. eapply vd_step; [by apply vs_byte|]. eapply (vd_bind _ _ _ _ (λ _ v', v' = v)).
  - destruct (negb _); apply vd_read_reg; try apply land_15; intros u Hu; apply (vw_wf _ _ Hu).
  - intros st v1 ->. by apply vd_status.
Qed.

(** Every request is answered or refused, and nothing of a transfer is touched. *)
Lemma vd_default_handler : vdoes isr_open v default_handler (answered v) isr_open.
Proof using Happ Hc Hs Hbufs Hdir.
  pose proof read_from_device as Hrd. unfold read_requests in Hrd. cbn [existsb] in Hrd.
  unfold default_handler. eapply vd_step; [by apply vs_byte|]. eapply vd_step; [by apply vs_byte|]. cbv zeta.
  set (r := label) in *.
  destruct (r =? req USB_RTYPE_RECIPIENT_DEVICE USB_REQ_GET_STATUS); [apply vd_answer; [done|right; by apply Hrd]|].
  destruct (r =? req USB_RTYPE_RECIPIENT_DEVICE USB_REQ_CLEAR_FEATURE); [apply (vd_remote_wakeup (λ x, Z.land x (u16 (inv32 2))))|].
  destruct (r =? req USB_RTYPE_RECIPIENT_DEVICE USB_REQ_SET_FEATURE); [apply (vd_remote_wakeup (λ x, Z.lor x 2))|].
  destruct (r =? req USB_RTYPE_RECIPIENT_DEVICE USB_REQ_SET_ADDRESS).
  { eapply (vd_bind _ _ _ _ (λ _ v', benign v v')).
    - destruct (_ && _); [apply vd_set_address|by apply vd_ret].
    - intros [] v1 Hb. apply (vd_after v); [done|apply vd_answer; [done|by left]]. }
  destruct (r =? req USB_RTYPE_RECIPIENT_DEVICE USB_REQ_GET_DESCRIPTOR); [apply vd_get_descriptor, Hrd; by rewrite ?orb_true_r|].
  destruct (r =? req USB_RTYPE_RECIPIENT_DEVICE USB_REQ_GET_CONFIGURATION); [apply vd_answer; [done|right; apply Hrd; by rewrite ?orb_true_r]|].
  destruct (r =? req USB_RTYPE_RECIPIENT_DEVICE USB_REQ_SET_CONFIGURATION); [apply vd_set_configuration|].
  destruct (r =? req USB_RTYPE_RECIPIENT_INTERFACE USB_REQ_GET_STATUS); [apply vd_answer; [done|right; apply Hrd; by rewrite ?orb_true_r]|].
  destruct (r =? req USB_RTYPE_RECIPIENT_ENDPOINT USB_REQ_SYNCH_FRAME); [apply vd_answer; [done|right; apply Hrd; by rewrite ?orb_true_r]|].
  cbn [orb].
  destruct (r =? req USB_RTYPE_RECIPIENT_ENDPOINT USB_REQ_GET_STATUS); [apply vd_endpoint_status, Hrd; by rewrite ?orb_true_r|].
  destruct (r =? _); [apply vd_feature; split; [by apply vs_other_ie|by apply vs_other_oe]|].
  destruct (r =? _); [apply vd_feature; split; [by apply vs_other_ie|by apply vs_other_oe]|]. apply vd_refuse.
Qed.

End Requests.

Lemma vd_request v c : app_ok → v_config v = Some c → has_bufs v → length (v_setup v) = 8%nat → well_directed (v_setup v) = true →
  vdoes isr_open v request_handled (answered v) isr_open.
Proof.
  intros Happ Hc Hbf Hl Hd. unfold request_handled. eapply vd_step; [apply (vs_deref _ _ _ c); intros u Hu; by rewrite (vw_config _ _ Hu)|].
  eapply (vd_bind _ _ _ _ (answered v)).
  { destruct (requests_hook_cb c); [by apply ao_hook|apply vd_refuse]. }
  intros ok v1 [Hb Hr]. destruct ok; [by apply vd_ret|]. assert (v_setup v1 = v_setup v) as Es by apply Hb.
  destruct (v_setup v) as [|b0 [|b1 [|b2 [|b3 [|b4 [|b5 [|b6 [|b7 [|]]]]]]]]] eqn:Ev; try done.
  apply (vd_after v); [done|]. eapply vd_step; [apply (vs_setup_byte _ _ _ b0); by rewrite Es|]. destruct (negb _); [apply vd_refuse|].
  eapply (vd_default_handler Happ v1 c); [|exact Es| |exact Hd]; [by rewrite (be_config _ _ Hb)|by apply Hb].
Qed.

(** ** The invariant *)

(** Whether a transmission and a reception are under way in a state. *)
Definition ep0_phase (st : usbep0state) : bool * bool :=
  match st with
  | USB_EP0_TX | USB_EP0_WAITING_TX0 | USB_EP0_SENDING_STS => (true, false)
  | USB_EP0_RX | USB_EP0_WAITING_STS => (false, true)
  | USB_EP0_WAITING_SETUP | USB_EP0_ERROR => (false, false)
  end.

Record ep0_static (v : ep0view) : Prop := {
  es_config : is_Some (v_config v);
  es_setup : length (v_setup v) = 8%nat ∧ Forall byte (v_setup v);
  es_n : 0 ≤ v_n v < 2 ^ 31;
  es_buf : ∃ b, v_mem v !! ep0setup_buffer = Some b ∧ length b = 8%nat;
  es_bufs : has_bufs v;
  es_shape : ∃ n cnt p off tot, v_st v = mkES false n cnt (Linear p off) tot ∧ 0 ≤ n ≤ tot ∧ tot < 2 ^ 31
}.
(** A reception under way has room for what is left of it: the status stage takes
    no data. *)
Definition receiving_into v p off tot : Prop := tot = 0 ∧ p = PNull ∨ room v p off tot.
Definition recv_ok (v : ep0view) : Prop :=
  ∃ p off tot, v_st v = mkES false (Z.min tot 64) 0 (Linear p off) tot ∧ 0 ≤ tot < 2 ^ 31 ∧ receiving_into v p off tot.
(** After a status packet that is not empty the state stays and nothing is under
    way. *)
Definition ep0_inv (v : ep0view) : Prop :=
  ep0_static v ∧
  ((hasb (v_tx v) (bit 0), hasb (v_rx v) (bit 0)) = ep0_phase (v_ep0state v) ∨
   v_ep0state v = USB_EP0_WAITING_STS ∧ not_busy v) ∧
  (hasb (v_rx v) (bit 0) = true → recv_ok v).

Lemma benign_static v v' : benign v v' → ep0_static v → ep0_static v'.
Proof.
  intros [] [H1 H2 H3 H4 H6 H5]. split; [by rewrite be_config0|by rewrite be_setup0|auto|by rewrite be_buf0|auto|by rewrite be_st0].
Qed.

Lemma static_tx st p n v : 0 ≤ n < 2 ^ 31 → ep0_static v → ep0_static (tx_started st p n v).
Proof. intros Hn [H1 H2 H3 H4 H6 H5]. split; try done. simpl. eexists _, _, _, _, _. split; [done|]. lia. Qed.
Lemma static_rx st p n v : 0 ≤ n < 2 ^ 31 → ep0_static v → ep0_static (rx_started st p n v).
Proof. intros Hn [H1 H2 H3 H4 H6 H5]. split; try done. simpl. eexists _, _, _, _, _. split; [done|]. lia. Qed.

Lemma tx_inv st p n v : 0 ≤ n < 2 ^ 31 → ep0_static v → hasb (v_rx v) (bit 0) = false → ep0_phase st = (true, false) →
  ep0_inv (tx_started st p n v).
Proof. intros Hn Hs Hr Hp. split; [by apply static_tx|]. cbn. rewrite hasb_set', Hr. split; [by left|done]. Qed.
Lemma rx_inv st p n v : 0 ≤ n < 2 ^ 31 → ep0_static v → hasb (v_tx v) (bit 0) = false → ep0_phase st = (false, true) →
  receiving_into v p 0 n → ep0_inv (rx_started st p n v).
Proof.
  intros Hn Hs Hr Hp Hb. split; [by apply static_rx|]. cbn. rewrite hasb_set', Hr. split; [by left|]. intros _. by exists p, 0%nat, n.
Qed.
Lemma sts_inv v : ep0_static v → hasb (v_tx v) (bit 0) = false → ep0_inv (rx_started USB_EP0_WAITING_STS PNull 0 v).
Proof. intros Hs Hr. apply rx_inv; try done. by left. Qed.
(** No transfer is under way. *)
Lemma idle_inv v : ep0_static v → not_busy v → ep0_phase (v_ep0state v) = (false, false) → ep0_inv v.
Proof. intros Hs [Ht Hr] Hp. split; [done|]. rewrite Ht, Hr, Hp. split; [by left|done]. Qed.
Lemma benign_idle v v' : benign v v' → not_busy v → not_busy v'.
Proof. intros Hb [Ht Hr]. split; [by rewrite (be_tx _ _ Hb)|by rewrite (be_rx _ _ Hb)]. Qed.

(** ** Data from the host *)

Lemma words_of_mono a b : (a ≤ b)%nat → (words_of a ≤ words_of b)%nat.
Proof. intros Hab. apply Nat.Div0.div_le_mono. lia. Qed.
Lemma words_of_64 n : words_of (64 + n) = (16 + words_of n)%nat.
Proof. unfold words_of. rewrite <-Nat.add_assoc, (Nat.add_comm 64). change 64%nat with (16 * 4)%nat. rewrite Nat.div_add by done. lia. Qed.

Lemma room_le v p off n n' : n' ≤ n → room v p off n → room v p off n'.
Proof. intros Hn (a & buf & -> & Hb & Hl). exists a, buf. split_and!; try done. pose proof (words_of_mono (Z.to_nat n') (Z.to_nat n)). lia. Qed.

(** The room for what is left behind a packet. *)
Lemma room_next v p off k tot : (k ≤ 64)%nat → 64 < tot → room v p off tot → room v p (off + k) (tot - 64).
Proof.
  intros Hk Ht (a & buf & -> & Hb & Hl). exists a, buf. split_and!; try done.
  replace (Z.to_nat tot) with (64 + Z.to_nat (tot - 64))%nat in Hl by lia. rewrite words_of_64 in Hl. lia.
Qed.

(** Memory in which every object has the size it had. *)
Definition same_sizes (m m' : gmap addr (list Z)) : Prop := ∀ a, length <$> m' !! a = length <$> m !! a.
Lemma same_sizes_lookup m m' a b : same_sizes m m' → m !! a = Some b → ∃ b', m' !! a = Some b' ∧ length b' = length b.
Proof. intros Hm Hb. specialize (Hm a). rewrite Hb in Hm. destruct (m' !! a) as [b'|]; [|done]. exists b'. split; [done|]. by injection Hm. Qed.
Lemma same_sizes_insert m a b b' : m !! a = Some b → length b' = length b → same_sizes m (<[a := b']> m).
Proof. intros Hb Hl c. destruct (decide (c = a)) as [->|Hne]; [by rewrite lookup_insert_eq, Hb; cbn; rewrite Hl|by rewrite lookup_insert_ne]. Qed.

Lemma has_bufs_sizes v v' : same_sizes (v_mem v) (v_mem v') → has_bufs v → has_bufs v'.
Proof.
  intros Hm Hv a n Ha. destruct (Hv a n Ha) as (b & Hb & <-). destruct (same_sizes_lookup _ _ _ _ Hm Hb) as (b' & Hb' & Hl). by exists b'.
Qed.
Lemma room_sizes v v' p off n : same_sizes (v_mem v) (v_mem v') → room v p off n → room v' p off n.
Proof. intros Hm (a & buf & -> & Hb & Hl). destruct (same_sizes_lookup _ _ _ _ Hm Hb) as (b' & Hb' & Hl'). exists a, b'. by rewrite Hl'. Qed.

Lemma fifo_words_length n : ∀ bs, length (fifo_words n bs) = n.
Proof. induction n as [|n IH]; intros bs; [done|]. cbn. by rewrite IH. Qed.

Lemma read_to_mem_none n : ∀ rx buf off, length rx = n → read_to_mem n 0 rx buf off = Some ([], buf).
Proof. induction n as [|n IH]; intros [|w rx] buf off Hl; try done. injection Hl as Hl. by apply IH. Qed.

(** As many words are stored as there is room for, and none behind them. *)
Lemma read_to_mem_ok n : ∀ max rx buf off, length rx = n → (off + 4 * (n `min` max) ≤ length buf)%nat →
  ∃ buf', read_to_mem n max rx buf off = Some ([], buf') ∧ length buf' = length buf.
Proof.
  induction n as [|n IH]; intros max [|w rx] buf off Hl Hoff; try done; [by exists buf|]. injection Hl as Hl.
  destruct max as [|max]; [exists buf; split; [by apply (read_to_mem_none (S n)); cbn; rewrite Hl|done]|]. cbn [read_to_mem].
  destruct (Nat.leb_spec (off + 4) (length buf)); [|lia].
  set (buf1 := take off buf ++ le_bytes 4 w ++ drop (off + 4) buf).
  assert (length buf1 = length buf) as Hl1.
  { unfold buf1. rewrite !length_app, le_bytes_length, length_take, length_drop. lia. }
  rewrite <-Hl1. apply (IH max rx buf1 (off + 4)%nat); [done|]. lia.
Qed.

Lemma rx_out_status k : (k ≤ 64)%nat → Z.land (rx_status GRXSTSP_OUT_DATA k 0) GRXSTSP_PKTSTS_MASK = GRXSTSP_OUT_DATA ∧
  rx_ep (rx_status GRXSTSP_OUT_DATA k 0) = 0%nat ∧ rx_count (rx_status GRXSTSP_OUT_DATA k 0) = k.
Proof.
  intros Hk. assert (Forall (λ k, Z.land (rx_status GRXSTSP_OUT_DATA k 0) GRXSTSP_PKTSTS_MASK = GRXSTSP_OUT_DATA ∧
    rx_ep (rx_status GRXSTSP_OUT_DATA k 0) = 0%nat ∧ rx_count (rx_status GRXSTSP_OUT_DATA k 0) = k) (seq 0 65)) as Hf
    by (cbn [seq]; repeat constructor).
  rewrite Forall_forall in Hf. apply Hf, elem_of_seq. lia.
Qed.

Lemma vs_store l v p off tot k ws : 0 ≤ tot → receiving_into v p off tot → length ws = words_of k →
  ∃ mem', vsteps l v (otg_fifo_read_to_buffer p off k (Z.to_nat (Z.min tot 64)) ws) [] (set_v_mem mem' v) l ∧ same_sizes (v_mem v) mem'.
Proof.
  intros Ht Hb Hl. destruct Hb as [[-> ->]|(a & buf & -> & Hb & Hr)].
  - exists (v_mem v). split; [|done]. cbn [otg_fifo_read_to_buffer]. change (words_of (Z.to_nat (Z.min 0 64))) with 0%nat. cbn [Nat.eqb orb].
    eapply vs_bind; [apply (vs_deref _ _ _ ([], [])); intros; by apply read_to_mem_none|].
    eapply vs_eq; [apply vs_ret|done|by destruct v].
  - destruct (read_to_mem_ok (words_of k) (words_of (Z.to_nat (Z.min tot 64))) ws buf off Hl) as (buf' & E & Hl').
    { pose proof (words_of_mono (Z.to_nat (Z.min tot 64)) (Z.to_nat tot)). lia. }
    exists (<[a := buf']> (v_mem v)). split; [|by eapply same_sizes_insert]. cbn [otg_fifo_read_to_buffer].
    eapply vs_bind; [apply (vs_deref _ _ _ buf); intros u Hu; by rewrite (vw_mem _ _ Hu)|].
    eapply vs_bind; [apply (vs_deref _ _ _ ([], buf')); by intros|]. cbn [fst snd]. eapply vs_bind; [|apply vs_ret].
    apply vs_mod. intros u Hu. pose proof (vw_mem _ _ Hu) as Em. destruct Hu. split; try done. simpl. by rewrite Em.
Qed.

(** An OUT packet of [k] bytes is copied behind what was received before. *)
Lemma vs_rx_out l v p off tot k ws : v_st v = mkES false (Z.min tot 64) 0 (Linear p off) tot → 0 ≤ tot < 2 ^ 31 →
  receiving_into v p off tot → (k ≤ 64)%nat → length ws = words_of k →
  ∃ mem', vsteps l v (otg_rxfifo_handler (rx_status GRXSTSP_OUT_DATA k 0) ws) []
      (set_v_mem mem' (set_v_st (mkES false (Z.min tot 64) (Z.of_nat k) (Linear p (off + k)) tot) v)) l ∧ same_sizes (v_mem v) mem'.
Proof.
  intros Hst Ht Hb Hk Hl. destruct (vs_store l v p off tot k ws) as (mem' & Hs & Hm); [lia|done|done|]. exists mem'. split; [|done].
  destruct (rx_out_status k Hk) as (E1 & E2 & E3). unfold otg_rxfifo_handler. rewrite E1, E2, E3.
  change (GRXSTSP_OUT_DATA =? GRXSTSP_SETUP_DATA) with false. rewrite Z.eqb_refl. cbv zeta.
  eapply vs_bind; [apply vs_epc|]. eapply vs_bind; [apply vs_epstate|]. rewrite Hst. cbn [es_mode es_queued es_size es_cnt].
  rewrite Z.sub_0_r, u32_small by (unfold is_u32; lia).
  eapply vs_bind; [eapply vs_bind; [exact Hs|]; eapply vs_bind; [apply vs_upd_epstate|apply vs_ret]|].
  eapply vs_bind; [apply vs_upd_epstate|]. eapply vs_eq; [apply vs_ret|done|]. cbn. rewrite Hst. unfold set_es_cnt, set_es_mode. cbn.
  by rewrite u32_small by (unfold is_u32; lia).
Qed.

(** ** Reset *)

(** The view of a driver whose endpoint 0 is not set up. *)
Record raws (u : usbdrv) (v : ep0view) : Prop := {
  rw_wf : otg_wf u;
  rw_epc : u_epc u = no_endpoints;
  rw_st : u_eps u !! ep0_state = Some (v_st v);
  rw_ri : ie (u_otg u) !! 0%nat = Some (v_ri v);
  rw_ro : oe (u_otg u) !! 0%nat = Some (v_ro v);
  rw_ff : FIFO (u_otg u) !! 0%nat = Some (v_ff v);
  rw_tx : u_transmitting u = v_tx v;
  rw_rx : u_receiving u = v_rx v;
  rw_ep0state : u_ep0state u = v_ep0state v;
  rw_next : u_ep0next u = v_next v;
  rw_n : u_ep0n u = v_n v;
  rw_endcb : u_ep0endcb u = v_endcb v;
  rw_setup : u_setup u = v_setup v;
  rw_status : u_status u = v_status v;
  rw_address : u_address u = v_address v;
  rw_configuration : u_configuration u = v_configuration v;
  rw_state : u_state u = v_state v;
  rw_config : u_config u = v_config v;
  rw_mem : u_mem u = v_mem v;
  rw_dcfg : DCFG (u_otg u) = v_dcfg v
}.

(** Steps that leave the kernel alone and change what the driver satisfies. *)
Definition gsteps {A} (W : usbdrv → Prop) (m : U A) (a : A) (W' : usbdrv → Prop) : Prop :=
  ∀ u s, W u → ∃ u', m u s = Done (a, u') s ∧ W' u'.

Lemma gs_bind {A B} W (m : U A) (k : A → U B) a W1 b W' : gsteps W m a W1 → gsteps W1 (k a) b W' → gsteps W (m ≫= k) b W'.
Proof.
  intros Hm Hk u s Hu. destruct (Hm u s Hu) as (u1 & E1 & H1). destruct (Hk u1 s H1) as (u2 & E2 & H2).
  exists u2. by rewrite ubind_eq, E1.
Qed.
Lemma gs_mod (W W' : usbdrv → Prop) f : (∀ u, W u → W' (f u)) → gsteps W (umod f) tt W'.
Proof. intros Hf u s Hu. exists (f u). auto. Qed.
Lemma gs_get {A B} W (f : usbdrv → A) (k : A → U B) b W' : (∀ u, W u → gsteps W (k (f u)) b W') → gsteps W (uget f ≫= k) b W'.
Proof. intros Hk u s Hu. exact (Hk u Hu u s Hu). Qed.
Lemma gs_look {A B} W (f : usbdrv → option A) (k : U B) b W' : (∀ u, W u → is_Some (f u)) → gsteps W k b W' → gsteps W (uderef f ;; k) b W'.
Proof.
  intros Hf Hk u s Hu. destruct (Hf u Hu) as [x Ex]. destruct (Hk u s Hu) as (u' & E & H'). exists u'. split; [|done].
  rewrite ubind_eq. unfold uderef. by rewrite Ex.
Qed.

Ltac rwh H := destruct H; split; simpl; try done; try (unfold otg_wf in *; simpl; rewrite ?length_alter; done).
Tactic Notation "rw" := let H := fresh in intros ? H; rwh H.

Lemma gs_nak_ie v i : (i < 16)%nat →
  gsteps (λ u, raws u v) (upd_ie i (set_DIEPCTL DIEPCTL_SNAK)) tt (λ u, raws u (if decide (i = 0)%nat then set_v_ri (set_DIEPCTL DIEPCTL_SNAK (v_ri v)) v else v)).
Proof.
  intros Hi. apply gs_look.
  - intros u Hu. apply lookup_lt_is_Some_2. destruct (rw_wf _ _ Hu) as (-> & _). done.
  - apply gs_mod. destruct (decide (i = 0)%nat) as [->|Hne]; rw; [by apply alter_head|by rewrite list_lookup_alter_ne].
Qed.
Lemma gs_nak_oe v i : (i < 16)%nat →
  gsteps (λ u, raws u v) (upd_oe i (set_DOEPCTL DIEPCTL_SNAK)) tt (λ u, raws u (if decide (i = 0)%nat then set_v_ro (set_DOEPCTL DIEPCTL_SNAK (v_ro v)) v else v)).
Proof.
  intros Hi. apply gs_look.
  - intros u Hu. apply lookup_lt_is_Some_2. destruct (rw_wf _ _ Hu) as (_ & -> & _). done.
  - apply gs_mod. destruct (decide (i = 0)%nat) as [->|Hne]; rw; [by apply alter_head|by rewrite list_lookup_alter_ne].
Qed.

Lemma gs_nak v : ∀ k i, (0 < i)%nat → (i + k ≤ 16)%nat → gsteps (λ u, raws u v) (usb_lld_nak_from k i) tt (λ u, raws u v).
Proof.
  induction k as [|k IH]; intros i Hi Hk; [intros u s Hu; by exists u|]. cbn [usb_lld_nak_from].
  pose proof (gs_nak_ie v i ltac:(lia)) as H1. pose proof (gs_nak_oe v i ltac:(lia)) as H2. rewrite decide_False in H1, H2 by lia.
  eapply gs_bind; [exact H1|]. eapply gs_bind; [exact H2|]. apply IH; lia.
Qed.

(** All endpoints in NAK mode: of endpoint 0 the control registers change. *)
Lemma gs_nak_all v k : (k ≤ 15)%nat → gsteps (λ u, raws u v) (usb_lld_nak_from (S k) 0) tt
  (λ u, raws u (set_v_ro (set_DOEPCTL DIEPCTL_SNAK (v_ro v)) (set_v_ri (set_DIEPCTL DIEPCTL_SNAK (v_ri v)) v))).
Proof.
  intros Hk. cbn [usb_lld_nak_from]. eapply gs_bind; [by apply (gs_nak_ie v 0); lia|]. rewrite decide_True by done.
  eapply gs_bind; [by apply gs_nak_oe; lia|]. rewrite decide_True by done. by apply gs_nak; lia.
Qed.

Definition ep0_in_reset : Z := Z.lor DIEPCTL_SD0PID (Z.lor DIEPCTL_USBAEP (Z.lor (DIEPCTL_TXFNUM 0) 64)).
Definition ep0_out_reset : Z := Z.lor DIEPCTL_SD0PID (Z.lor DIEPCTL_USBAEP 64).

(** The FIFO memory is free again; the interrupts of the endpoints are enabled. *)
Definition ram_free (u : usbdrv) : Prop := u_pmnext u = rx_fifo_size (u_params u).
Definition enabled_irqs (u : usbdrv) : Prop := DIEPMSK (u_otg u) = Z.lor (bit 3) (bit 0) ∧ DOEPMSK (u_otg u) = Z.lor (bit 3) (bit 0).

(** The driver shows [v], whatever concerns the other endpoints. *)
Definition rviews (u : usbdrv) (v : ep0view) : Prop := views u (set_v_rest (rest_of u) v).

Lemma vs_reset_tail v :
  gsteps (λ u, rviews u v ∧ ram_free u)
    (upd_oe 0 (λ _, mkOE (Z.lor DIEPCTL_SD0PID (Z.lor DIEPCTL_USBAEP (out_maxsize ep0config))) 0) ;;
     upd_ie 0 (λ _, mkIE (Z.lor DIEPCTL_SD0PID (Z.lor DIEPCTL_USBAEP (Z.lor (DIEPCTL_TXFNUM 0) (in_maxsize ep0config)))) 0) ;;
     a ← otg_ram_alloc (in_maxsize ep0config / 4);
     upd_otg (set_DIEPTXF0 (Z.lor (DIEPTXF_INEPTXFD (in_maxsize ep0config / 4)) a))) tt
    (λ u, rviews u (set_v_ri (mkIE ep0_in_reset 0) (set_v_ro (mkOE ep0_out_reset 0) v))).
Proof.
  set (v1 := set_v_ro (mkOE ep0_out_reset 0) v). set (v2 := set_v_ri (mkIE ep0_in_reset 0) v1).
  apply (gs_bind _ _ _ tt (λ u, rviews u v1 ∧ ram_free u)).
  { apply gs_look; [intros u [Hu _]; by rewrite (vw_ro _ _ Hu)|]. apply gs_mod. intros u [Hu Hr]. split; [|done].
    destruct Hu. split; try done; simpl; [unfold otg_wf in *; simpl; by rewrite length_alter|by erewrite alter_head]. }
  apply (gs_bind _ _ _ tt (λ u, rviews u v2 ∧ ram_free u)).
  { apply gs_look; [intros u [Hu _]; by rewrite (vw_ri _ _ Hu)|]. apply gs_mod. intros u [Hu Hr]. split; [|done].
    destruct Hu. split; try done; simpl; [unfold otg_wf in *; simpl; by rewrite length_alter|by erewrite alter_head]. }
  intros u s [Hu Hr]. destruct (vw_wf _ _ Hu) as (_ & _ & _ & Hrx & Hram). unfold otg_ram_alloc.
  rewrite ubind_in_get, ubind_in_mod, ubind_in_get. cbn [id u_pmnext u_params set_u_pmnext].
  change (in_maxsize ep0config / 4) with 16. rewrite Hr. rewrite ubind_in_assert by (apply Z.leb_le; rewrite u32_small by (unfold is_u32; lia); lia).
  eexists. split; [done|]. destruct Hu. by split.
Qed.

Lemma gs_lld_reset v :
  gsteps (λ u, raws u v) usb_lld_reset tt
    (λ u, rviews u (set_v_ri (mkIE ep0_in_reset 0) (set_v_ro (mkOE ep0_out_reset 0) (set_v_dcfg (with_address 0 (v_dcfg v)) (set_v_ff [] v))))).
Proof.
  unfold usb_lld_reset, otg_txfifo_flush. set (v0 := set_v_ff [] v).
  apply (gs_bind _ _ _ tt (λ u, raws u v0)).
  { apply gs_look; [intros u Hu; by rewrite (rw_ff _ _ Hu)|]. apply gs_mod. rw. apply list_lookup_insert_eq. by eapply lookup_lt_Some. }
  apply gs_get. intros u0 Hu0. cbn [id]. destruct (rw_wf _ _ Hu0) as (_ & _ & Hne & _).
  eapply gs_bind; [by apply gs_nak_all|]. set (v1 := set_v_ro _ _).
  apply (gs_bind _ _ _ tt (λ u, raws u v1)); [apply gs_mod; rw|].
  apply (gs_bind _ _ _ tt (λ u, raws u v1 ∧ ram_free u)); [apply gs_mod; intros ? Hu; split; [rwh Hu|done]|].
  apply (gs_bind _ _ _ tt (λ u, raws u v1 ∧ ram_free u)); [apply gs_mod; intros ? [Hu ?]; split; [rwh Hu|done]|].
  set (v2 := set_v_dcfg (with_address 0 (v_dcfg v1)) v1).
  apply (gs_bind _ _ _ tt (λ u, raws u v2 ∧ ram_free u)); [apply gs_mod; intros u [Hu ?]; split; [|done]|].
  { pose proof (rw_dcfg _ _ Hu) as Ed. destruct Hu. split; try done.
    change (with_address 0 (DCFG (u_otg u)) = with_address 0 (v_dcfg v1)). by rewrite Ed. }
  apply (gs_bind _ _ _ tt (λ u, raws u v2 ∧ ram_free u)); [apply gs_mod; intros ? [Hu ?]; split; [rwh Hu|done]|].
  apply (gs_bind _ _ _ tt (λ u, raws u v2 ∧ ram_free u ∧ DIEPMSK (u_otg u) = Z.lor (bit 3) (bit 0)));
    [apply gs_mod; intros ? [Hu ?]; split; [rwh Hu|done]|].
  apply (gs_bind _ _ _ tt (λ u, raws u v2 ∧ ram_free u ∧ enabled_irqs u)); [apply gs_mod; intros ? (Hu & ? & ?); split; [rwh Hu|done]|].
  apply (gs_bind _ _ _ tt (λ u, rviews u v2 ∧ ram_free u)).
  { apply gs_look; [intros u [Hu _]; by rewrite (rw_epc _ _ Hu)|]. apply gs_mod. intros u (Hu & Hr & Hd & Ho). split; [|done].
    destruct Hu. split; try done; simpl; [by rewrite rw_epc0|by rewrite Hd|by rewrite Ho]. }
  pose proof (vs_reset_tail v2) as Ht. exact Ht.
Qed.

Lemma reset_ok u st f r o s : otg_wf u → FIFO (u_otg u) !! 0%nat = Some f → u_eps u !! ep0_state = Some st →
  ie (u_otg u) !! 0%nat = Some r → oe (u_otg u) !! 0%nat = Some o →
  ∃ u', _usb_reset u s = Done (tt, u') s ∧
    views u' (mkV st (mkIE ep0_in_reset 0) (mkOE ep0_out_reset 0) [] 0 0 USB_EP0_WAITING_SETUP (u_ep0next u) (u_ep0n u) (u_ep0endcb u)
      (u_setup u) 0 0 0 USB_READY (u_config u) (u_mem u) (with_address 0 (DCFG (u_otg u))) (rest_of u')).
Proof.
  intros Hwf Hf Hst Hr Ho. unfold _usb_reset. rewrite !ubind_mod.
  match goal with |- context [usb_lld_reset ?x s] => set (u1 := x) end.
  apply (gs_lld_reset (mkV st r o f 0 0 USB_EP0_WAITING_SETUP (u_ep0next u) (u_ep0n u) (u_ep0endcb u)
      (u_setup u) 0 0 0 USB_READY (u_config u) (u_mem u) (DCFG (u_otg u)) (rest_of u)) u1 s). by split.
Qed.

Section Handlers.
Hypothesis Happ : app_ok.

Lemma vd_error v : ep0_static v → not_busy v → vdoes isr_open v ep0_error (λ _ v', ep0_inv v') isr_open.
Proof using Happ.
  intros Hst Hnb. unfold ep0_error. eapply vd_step; [apply vs_upd_ie|]. eapply vd_step; [apply vs_upd_oe|].
  eapply vd_bind; [apply vd_event; [done|apply Hst|apply Hst]|]. intros [] v1 Hb. eapply vd_steps; [apply vs_set_ep0state|].
  assert (ep0_static v1) as Hst1 by (apply (benign_static _ _ Hb); destruct Hst; by split).
  apply idle_inv; [destruct Hst1; by split| |done]. by apply (benign_idle _ v1 Hb).
Qed.

Lemma vd_ep0setup v bs : ep0_static v → not_busy v → v_mem v !! ep0setup_buffer = Some bs → length bs = 8%nat → Forall byte bs →
  well_directed bs = true →
  vdoes isr_open v (_usb_ep0setup 0) (λ _ v', ep0_inv v') isr_open.
Proof using Happ.
  intros Hst Hidle Hm Hl Hbs Hdir. unfold _usb_ep0setup. eapply vd_step; [apply vs_set_ep0state|].
  eapply vd_step; [by apply (vs_read_setup _ _ bs)|]. set (v0 := set_v_setup bs _).
  assert (ep0_static v0) as Hst0 by (destruct Hst; by split).
  destruct (es_config _ Hst0) as [c Hc]. eapply vd_bind; [by apply (vd_request v0 c); try apply Hst0|]. intros ok v1 [Hb Hready].
  pose proof (benign_static _ _ Hb Hst0) as Hst1. pose proof (benign_idle v0 v1 Hb Hidle) as Hnb.
  destruct ok; cbn [negb]; [|by apply vd_error].
  destruct (es_setup _ Hst1) as [Hl1 Hb1]. destruct (v_setup v1) as [|s0 [|? [|? [|? [|? [|? [|lo [|hi [|]]]]]]]]] eqn:Es; try done.
  assert (byte lo ∧ byte hi) as [Hlo Hhi] by (split; [by apply (Forall_lookup_1 _ _ 6 _ Hb1)|by apply (Forall_lookup_1 _ _ 7 _ Hb1)]).
  eapply vd_step; [by apply (vs_hword _ _ _ lo hi); rewrite ?Es|]. eapply vd_step; [apply vs_clamp|].
  eapply vd_step; [apply (vs_setup_byte _ _ _ s0); cbn; by rewrite Es|]. apply vd_get. intros u Hu. cbn [id].
  rewrite (vw_n _ _ Hu), (vw_next _ _ Hu). set (n := Z.min (v_n v1) (lo + 256 * hi)). cbn [v_n v_next set_v_n].
  pose proof (es_n _ Hst1). unfold byte in *. assert (0 ≤ n < 2 ^ 31) by lia. destruct Hnb as [Ht1 Hr1].
  assert (ep0_static (set_v_n n v1)) as Hst2 by (destruct Hst1; by split).
  assert (∀ x, ep0_static x → hasb (v_tx x) (bit 0) = false → ep0_inv (rx_started USB_EP0_WAITING_STS PNull 0 x)) as Hsts by (intros; by apply sts_inv).
  destruct (Z.land s0 USB_RTYPE_DIR_MASK =? USB_RTYPE_DIR_DEV2HOST) eqn:Ed, (Z.eqb_spec n 0) as [Hn0|Hn0]; cbn [negb].
  - eapply vd_steps; [by apply vs_receive|by apply Hsts].
  - eapply vd_steps; [by apply vs_transmit|by apply tx_inv].
  - eapply vd_steps; [by apply vs_transmit|by apply tx_inv].
  - eapply vd_steps; [by apply vs_receive|]. apply rx_inv; try done. right.
    destruct (Hready eq_refl s0) as [Hz|Hroom]; [by rewrite Es|unfold to_device; by rewrite Ed|subst n; lia|].
    apply (room_sizes v1); [done|]. apply (room_le _ _ _ (v_n v1)); [lia|done].
Qed.

Lemma vd_end v : ep0_static v → not_busy v → vdoes isr_open v ep0_end (λ _ v', ep0_inv v') isr_open.
Proof using Happ.
  intros Hst Hnb. unfold ep0_end. apply vd_get. intros u Hu. cbn [id]. eapply (vd_bind _ _ _ _ (λ _ v', benign v v')).
  - destruct (u_ep0endcb u); [apply ao_cb; [done|apply Hst]|by apply vd_ret].
  - intros [] v1 Hb. eapply vd_steps; [apply vs_set_ep0state|]. pose proof (benign_static _ _ Hb Hst) as Hst1.
    apply idle_inv; [destruct Hst1; by split| |done]. by apply (benign_idle _ _ Hb).
Qed.

Lemma vd_ep0in v : ep0_static v → not_busy v → ep0_phase (v_ep0state v) = (true, false) →
  vdoes isr_open v (_usb_ep0in 0) (λ _ v', ep0_inv v') isr_open.
Proof using Happ.
  intros Hst Hnb Hph. pose proof Hnb as [Htx Hrx]. unfold _usb_ep0in. apply vd_get. intros u Hu. rewrite (vw_ep0state _ _ Hu).
  destruct (v_ep0state v) eqn:E; try done.
  - destruct (es_setup _ Hst) as [Hl Hb]. destruct (v_setup v) as [|? [|? [|? [|? [|? [|? [|lo [|hi [|]]]]]]]]] eqn:Es; try done.
    assert (byte lo ∧ byte hi) as [Hlo Hhi] by (split; [by apply (Forall_lookup_1 _ _ 6 _ Hb)|by apply (Forall_lookup_1 _ _ 7 _ Hb)]).
    pose proof (vs_ep0in_tx v lo hi E Hnb) as Hin. rewrite Es in Hin. specialize (Hin eq_refl eq_refl Hlo Hhi).
    unfold _usb_ep0in in Hin. intros u' s' Hu' Hs'. destruct (Hin u' s' Hu' Hs') as (u2 & s2 & E2 & V2 & L2 & _).
    revert E2. rewrite ubind_eq. unfold uget at 1. cbn [rbind mret]. rewrite (vw_ep0state _ _ Hu'), E. intros E2.
    eexists _, u2, _, s2. split; [exact E2|]. split; [exact V2|]. split; [|done]. destruct (_ && _); [by apply tx_inv|by apply sts_inv].
  - eapply vd_steps; [by apply vs_receive|by apply sts_inv].
  - by apply vd_end.
Qed.

Lemma vd_ep0out v : ep0_static v → not_busy v → ep0_phase (v_ep0state v) = (false, true) →
  vdoes isr_open v (_usb_ep0out 0) (λ _ v', ep0_inv v') isr_open.
Proof using Happ.
  intros Hst Hnb Hph. pose proof Hnb as [Htx Hrx]. unfold _usb_ep0out. apply vd_get. intros u Hu. rewrite (vw_ep0state _ _ Hu).
  destruct (v_ep0state v) eqn:E; try done.
  - eapply vd_step; [unfold usb_lld_get_transaction_size; eapply vs_bind; [apply vs_epc|]; eapply vs_bind; [apply vs_epstate|apply vs_ret]|].
    destruct (negb _); [|by apply vd_end]. apply vd_ret. split; [done|]. split; [by right|]. by rewrite Hrx.
  - eapply vd_steps; [by apply vs_transmit|by apply tx_inv].
Qed.

Lemma vd_epin v : ep0_inv v → hasb (v_tx v) (bit 0) = true → vdoes isr_open v (otg_epin_handler 0 DIEPINT_XFRC) (λ _ v', ep0_inv v') isr_open.
Proof using Happ.
  intros (Hst & Hph & Hrv) Htx. destruct Hph as [Hph|[_ [Hn _]]]; [|congruence]. rewrite Htx in Hph.
  assert (hasb (v_rx v) (bit 0) = false) as Hrx by (destruct (v_ep0state v); simpl in Hph; congruence).
  destruct (es_shape _ Hst) as (n & cnt & p & off & tot & Es & Hn & Ht). destruct (Z.lt_ge_cases n tot).
  - eapply vd_steps; [apply (vs_epin_more v p off cnt n tot); [done|lia|done]|].
    split; [destruct Hst; split; try done; simpl; eexists _, _, _, _, _; split; [done|lia]|].
    cbn. rewrite Htx, Hrx in *. split; [by left|done].
  - assert (n = tot) as -> by lia. unfold otg_epin_handler. apply vd_get. intros u Hu. cbn [id]. rewrite (vw_diepmsk _ _ Hu).
    change (hasb DIEPINT_XFRC DIEPINT_XFRC) with true. cbn [andb uwhen].
    eapply (vd_bind _ _ _ _ (λ _ v', ep0_inv v')).
    + eapply vd_step; [apply vs_epc|]. eapply vd_step; [apply vs_epstate|]. rewrite Es. cbn [es_size es_totsize]. rewrite Z.ltb_irrefl.
      unfold _usb_isr_invoke_in_cb. eapply vd_step; [apply (vs_mod_tx _ _ (λ x, u16 (Z.land x (inv32 (bit 0)))))|].
      eapply vd_step; [apply vs_epc|]. apply (vd_ep0in (in_done v)); [destruct Hst; by split|split; [apply in_done_free|]|].
      * cbn. destruct (v_ep0state v); simpl in Hph; congruence.
      * cbn. destruct (v_ep0state v); simpl in Hph |- *; congruence.
    + intros [] v1 Hi. apply vd_get. intros u1 _. change (hasb DIEPINT_XFRC DIEPINT_TXFE) with false. by apply vd_ret.
Qed.

Lemma vd_epout v p off cnt tot : ep0_static v → hasb (v_rx v) (bit 0) = true →
  (hasb (v_tx v) (bit 0), hasb (v_rx v) (bit 0)) = ep0_phase (v_ep0state v) →
  v_st v = mkES false (Z.min tot 64) cnt (Linear p off) tot → 0 ≤ tot < 2 ^ 31 → (64 < tot → room v p off (tot - 64)) →
  vdoes isr_open v (otg_epout_handler 0 DOEPINT_XFRC) (λ _ v', ep0_inv v') isr_open.
Proof using Happ.
  intros Hst Hrx Hph Es Ht Hroom. rewrite Hrx in Hph.
  unfold otg_epout_handler. apply vd_get. intros u Hu. cbn [id]. change (hasb DOEPINT_XFRC DOEPINT_STUP) with false. cbn [andb uwhen].
  eapply vd_step; [apply vs_ret|]. apply vd_get. intros u' Hu'. cbn [id]. destruct (vw_doepmsk _ _ Hu') as [-> _].
  change (hasb DOEPINT_XFRC DOEPINT_XFRC) with true. cbn [andb uwhen].
  eapply vd_step; [apply vs_epc|]. eapply vd_step; [apply vs_epstate|]. rewrite Es. cbn [es_size es_totsize].
  destruct (Z.ltb_spec (Z.min tot 64) tot).
  - rewrite Z.min_r in * by lia.
    eapply vd_step; [apply vs_upd_epstate|]. eapply vd_step; [eapply (vs_prepare_receive _ _ p off 0 (tot - 64) tot); [by rewrite Es|lia]|].
    eapply vd_step; [apply vs_lock|]. eapply vd_step; [apply vs_upd_oe|]. eapply vd_steps; [apply vs_unlock|].
    split; [destruct Hst; split; try done; simpl; eexists _, _, _, _, _; split; [done|lia]|].
    cbn. rewrite Hrx. split; [by left|]. intros _. exists p, off, (tot - 64). split_and!; [done|lia|lia|].
    right. apply (room_sizes v); [done|]. apply Hroom. lia.
  - unfold _usb_isr_invoke_out_cb. eapply vd_step; [apply (vs_mod_rx _ _ (λ x, u16 (Z.land x (inv32 (bit 0)))))|].
    eapply vd_step; [apply vs_epc|]. apply (vd_ep0out (out_done v)); [destruct Hst; by split|split; [|apply out_done_free]|].
    + cbn. destruct (v_ep0state v); simpl in Hph; congruence.
    + cbn. destruct (v_ep0state v); simpl in Hph |- *; congruence.
Qed.

(** An OUT packet: copied, then the next part is awaited or the stage is over. *)
Lemma vd_out v bs : ep0_inv v → hasb (v_rx v) (bit 0) = true → (length bs ≤ 64)%nat →
  vdoes isr_open v (host_out bs) (λ _ v', ep0_inv v') isr_open.
Proof using Happ.
  intros (Hst & Hph & Hrv) Hrx Hl. destruct Hph as [Hph|[_ [_ Hn]]]; [|congruence]. destruct (Hrv Hrx) as (p & off & tot & Es & Ht & Hb).
  destruct (vs_rx_out isr_open v p off tot (length bs) (fifo_words (words_of (length bs)) bs)) as (mem' & Hs & Hm); try done; [apply fifo_words_length|].
  unfold host_out. eapply vd_step; [exact Hs|]. eapply (vd_epout _ p (off + length bs)); try done.
  - destruct Hst as [H1 H2 H3 (b & Hb1 & Hb2) H4 _]. split; try done.
    + destruct (same_sizes_lookup _ _ _ _ Hm Hb1) as (b' & Hb' & Hl'). exists b'. split; [done|congruence].
    + by apply (has_bufs_sizes v).
    + cbn. eexists _, _, _, _, _. split; [done|lia].
  - intros Hlt. destruct Hb as [[-> _]|Hroom]; [lia|]. apply (room_sizes v); [done|]. by apply room_next.
Qed.

Lemma vd_setup v bs : ep0_inv v → not_busy v → length bs = 8%nat → Forall byte bs → well_directed bs = true →
  vdoes isr_open v (host_setup bs) (λ _ v', ep0_inv v') isr_open.
Proof using Happ.
  intros [Hst _] Hnb Hl Hbs Hdir. destruct (es_buf _ Hst) as (b & Hb & Hlb).
  apply (vd_host_setup v b bs); try done. apply (vd_ep0setup _ bs); try done; [|apply lookup_insert_eq].
  destruct Hst. split; try done; [simpl; exists bs; by rewrite lookup_insert_eq|].
  apply (has_bufs_sizes v); [apply (same_sizes_insert _ _ b); [done|congruence]|done].
Qed.

(** Where a run can start: the memory of a driver that was configured, whatever
    its registers and its state. *)
Record ep0_startable (u : usbdrv) : Prop := {
  st_wf : otg_wf u;
  st_fifo : is_Some (FIFO (u_otg u) !! 0%nat);
  st_config : is_Some (u_config u);
  st_setup : length (u_setup u) = 8%nat ∧ Forall byte (u_setup u);
  st_n : 0 ≤ u_ep0n u < 2 ^ 31;
  st_buf : ∃ b, u_mem u !! ep0setup_buffer = Some b ∧ length b = 8%nat;
  st_bufs : ∀ a n, bufs !! a = Some n → ∃ b, u_mem u !! a = Some b ∧ length b = n;
  st_shape : ∃ n cnt p off tot, u_eps u !! ep0_state = Some (mkES false n cnt (Linear p off) tot) ∧ 0 ≤ n ≤ tot ∧ tot < 2 ^ 31
}.

Lemma views_startable u v : views u v → ep0_inv v → ep0_startable u.
Proof.
  intros Hu [[H1 H2 H3 (b & H4 & H4') H6 (n & cnt & p & off & tot & H5 & H5')] _]. split.
  - apply Hu.
  - exists (v_ff v). apply Hu.
  - by rewrite (vw_config _ _ Hu).
  - by rewrite (vw_setup _ _ Hu).
  - by rewrite (vw_n _ _ Hu).
  - exists b. by rewrite (vw_mem _ _ Hu).
  - rewrite (vw_mem _ _ Hu). exact H6.
  - exists n, cnt, p, off, tot. by rewrite (vw_st _ _ Hu), H5.
Qed.

Lemma reset_event u s : ep0_startable u → isr_open s →
  ∃ u' v' s', ep0_handle EvReset u s = Done (tt, u') s' ∧ views u' v' ∧ ep0_inv v' ∧ isr_open s'.
Proof using Happ.
  intros [Hwf [f Hf] Hc Hset Hn Hb Hbf (n & cnt & p & off & tot & Hst & Hsh)] Hs.
  pose proof Hwf as (Hie & Hoe & _).
  destruct (lookup_lt_is_Some_2 (ie (u_otg u)) 0) as [r Hr]; [lia|]. destruct (lookup_lt_is_Some_2 (oe (u_otg u)) 0) as [o Ho]; [lia|].
  destruct (reset_ok u _ f r o s Hwf Hf Hst Hr Ho) as (u1 & E1 & V1). match type of V1 with views _ ?x => set (v1 := x) in V1 end.
  destruct (vd_event v1 USB_EVENT_RESET Happ Hc Hbf u1 s V1 Hs) as ([] & u2 & v2 & s2 & E2 & V2 & B2 & L2).
  exists u2, v2, s2. cbn [ep0_handle]. rewrite (ubind_done _ _ _ _ _ _ _ E1). split_and!; try done.
  assert (ep0_static v1) as Hst1 by (split; try done; simpl; by eexists _, _, _, _, _).
  apply idle_inv; [by apply (benign_static _ _ B2)|by apply (benign_idle _ _ B2)|by rewrite (be_ep0state _ _ B2)].
Qed.

Lemma event_ok e u v s : views u v → ep0_inv v → isr_open s → ep0_allowed u e = true →
  ∃ u' v' s', ep0_handle e u s = Done (tt, u') s' ∧ views u' v' ∧ ep0_inv v' ∧ isr_open s'.
Proof using Happ.
  intros Hu Hi Hs Ha. destruct e as [|bs| |bs].
  - exact (reset_event u s (views_startable u v Hu Hi) Hs).
  - cbn [ep0_handle ep0_allowed] in *. apply andb_true_iff in Ha as [Ha Hr%negb_true_iff]. apply andb_true_iff in Ha as [Ha Ht%negb_true_iff].
    apply andb_true_iff in Ha as [Ha Hd]. apply andb_true_iff in Ha as [Hl%Nat.eqb_eq Hb]. rewrite forallb_forall in Hb. rewrite (vw_tx _ _ Hu) in Ht. rewrite (vw_rx _ _ Hu) in Hr.
    assert (Forall byte bs) as Hbs.
    { apply Forall_forall. intros b Hbin. apply list_elem_of_In, Hb, andb_true_iff in Hbin as [H1%Z.leb_le H2%Z.ltb_lt]. by split. }
    destruct (vd_setup v bs Hi (conj Ht Hr) Hl Hbs Hd u s Hu Hs) as ([] & u' & v' & s' & ?). by exists u', v', s'.
  - cbn [ep0_handle ep0_allowed] in *. rewrite (vw_tx _ _ Hu) in Ha. destruct (vd_epin v Hi Ha u s Hu Hs) as ([] & u' & v' & s' & ?). by exists u', v', s'.
  - cbn [ep0_handle ep0_allowed] in *. apply andb_true_iff in Ha as [Ha Hl%Nat.leb_le]. rewrite (vw_rx _ _ Hu) in Ha.
    destruct (vd_out v bs Hi Ha Hl u s Hu Hs) as ([] & u' & v' & s' & ?). by exists u', v', s'.
Qed.

Lemma run_ok es : ∀ u v s, views u v → ep0_inv v → isr_open s →
  ∃ u' v' s', ep0_run es u s = Done (tt, u') s' ∧ views u' v' ∧ ep0_inv v' ∧ isr_open s'.
Proof using Happ.
  induction es as [|e es IH]; intros u v s Hu Hi Hs.
  { by exists u, v, s. }
  cbn [ep0_run]. rewrite ubind_get. cbn [id]. destruct (ep0_allowed u e) eqn:Ha; cbn [uwhen].
  - destruct (event_ok e u v s Hu Hi Hs Ha) as (u1 & v1 & s1 & E1 & V1 & I1 & L1). rewrite (ubind_done _ _ _ _ _ _ _ E1). by apply (IH u1 v1).
  - rewrite ubind_ret. by apply (IH u v).
Qed.
End Handlers.

(** C15.  Endpoint 0 over any sequence of events: after a reset of a configured
    driver, whatever resets, SETUP packets, ends of IN transfers and OUT packets of
    at most 64 bytes follow, every handler returns: no assertion of the state machine
    fails, and the bytes of SETUP and OUT packets that the receive FIFO handler copies
    stay within the buffer given for them.  Afterwards the busy flags agree with the
    state (transmitting in TX, WAITING_TX0 and SENDING_STS, receiving in RX and
    WAITING_STS, neither in WAITING_SETUP and ERROR), except that after a status
    packet that is not empty the driver stays in WAITING_STS with nothing under way
    (the finding at usb.c:830).
    The events are those that can happen ([ep0_allowed]): a SETUP packet comes when no
    transfer is under way, an end of transmission after a transmission was started, an
    OUT packet when one is expected; and a SETUP packet for one of the six standard
    requests that are answered with data has the direction bit from the device, which
    the driver does not look at (the finding at usb.c:88).  Of the application
    ([app_ok]) it is asked that its functions return in the interrupt handler outside
    critical sections and leave alone what belongs to endpoint 0 (an event callback
    that calls usbInitEndpointI unconditionally does not, when the host sets a
    configuration twice: the finding at usb.c:344), that descriptors
    are smaller than 2^31 bytes, and that a requests hook that accepts data from the
    host gives a buffer with room for them in whole words.  What goes to the host is
    not copied here; C16 and C19 are about that. *)
Theorem usb_ep0_safe u s es :
  app_ok → ep0_startable u → isr_open s →
  ∃ u' v' s', ep0_run (EvReset :: es) u s = Done (tt, u') s' ∧ views u' v' ∧ ep0_static v' ∧
    ((hasb (u_transmitting u') (bit 0), hasb (u_receiving u') (bit 0)) = ep0_phase (u_ep0state u') ∨
     u_ep0state u' = USB_EP0_WAITING_STS ∧ not_busy v') ∧ isr_open s'.
Proof.
  intros Happ Hst Hs. destruct (reset_event Happ u s Hst Hs) as (u1 & v1 & s1 & E1 & V1 & I1 & L1).
  destruct (run_ok Happ es u1 v1 s1 V1 I1 L1) as (u' & v' & s' & E & V & (Ist & Iph & _) & L). exists u', v', s'. split_and!; try done.
  - cbn [ep0_run ep0_allowed]. rewrite ubind_get. cbn [uwhen]. by rewrite (ubind_done _ _ _ _ _ _ _ E1).
  - by rewrite (vw_tx _ _ V), (vw_rx _ _ V), (vw_ep0state _ _ V).
Qed.
End Safe.
End Contract.
