(* ===== verification/Shell.v ===== *)
(** * The command shell (os/various/shell.c, os/various/shell.h)

    A line editor, a tokenizer that works in the line buffer, and the dispatch of
    commands, over a stream and with formatted output.  The channel gives any
    sequence of bytes and is then reset; what is written to it is kept. *)

From Stdlib Require Import String Ascii.
From S2P Require Import Prelude TimeMeas Kernel ThreadQueues Sys VTimers Sched Thd Memory Dynamic Evt.
From S2P Require Import Streams Floats Printf.

(** ** Channel *)

Record channel := mkChan { ch_in : list Z; ch_out : list Z }.
Definition chan_put (b : Z) : stM channel Z := λ s, Some (MSG_OK, mkChan (ch_in s) (ch_out s ++ [b])).
(** chSequentialStreamRead of one byte; [None] when no byte is read. *)
Definition chan_read : stM channel (option Z) := λ s,
  match ch_in s with [] => Some (None, s) | c :: l => Some (Some c, mkChan l (ch_out s)) end.
#[export] Instance channel_stream : Stream (stM channel) := stM_stream _ chan_put.
#[export] Instance channel_laws : StreamLaws _ := stM_laws _ chan_put.
Definition cfault {A} : stM channel A := λ _, None.
Definition cderef {A} (o : option A) : stM channel A := λ s, a ← o; Some (a, s).

(** The bytes of a string. *)
Definition text (s : string) : list Z := (λ c, Z.of_nat (nat_of_ascii c)) <$> list_ascii_of_string s.
Definition crlf : list Z := [13; 10].

(** ** C strings

    A string is the bytes before the first zero; the functions of the C library
    are undefined where there is none. *)

Fixpoint cstr (l : list Z) : option (list Z) :=
  match l with [] => None | c :: l => if c =? 0 then Some [] else s ← cstr l; Some (c :: s) end.
Fixpoint strspn (l accept : list Z) : option nat :=
  match l with
  | [] => None
  | c :: l => if negb (c =? 0) && bool_decide (c ∈ accept) then n ← strspn l accept; Some (S n) else Some 0%nat
  end.
Fixpoint strpbrk (l accept : list Z) : option (option nat) :=
  match l with
  | [] => None
  | c :: l =>
      if c =? 0 then Some None
      else if bool_decide (c ∈ accept) then Some (Some 0%nat)
      else r ← strpbrk l accept; Some (fmap (M := option) S r)
  end.
Definition tolower (c : Z) : Z := if (65 <=? c) && (c <=? 90) then c + 32 else c.
Fixpoint strcasecmp (a b : list Z) : Z :=
  match a, b with
  | [], [] => 0
  | x :: _, [] => tolower x
  | [], y :: _ => - tolower y
  | x :: a, y :: b => if tolower x =? tolower y then strcasecmp a b else tolower x - tolower y
  end.

(** Pointers into the line are positions.  The results are the token, the line and
    the saved pointer; [None] is an access out of bounds. *)
Definition _strtok (str : option nat) (delim : list Z) (line : list Z) (saveptr : option nat) : option (option nat * list Z * option nat) :=
  let saveptr := match str with Some p => Some p | None => saveptr end in
  match saveptr with
  | None => Some (None, line, None)
  | Some token =>
      n ← strspn (drop token line) delim;
      let token := (token + n)%nat in
      q ← strpbrk (drop token line) delim;
      let '(line, saveptr) := match q with
                              | None => (line, None)
                              | Some q => (<[(token + q)%nat := 0]> line, Some (S (token + q)))
                              end in
      c ← line !! token;
      Some (if c =? 0 then None else Some token, line, saveptr)
  end.

(** ** Configuration *)

Definition SHELL_MAX_LINE_LENGTH : nat := 64.
Definition SHELL_MAX_ARGUMENTS : nat := 4.
Definition delimiters : list Z := [32; 9].

(** A command is given its arguments; [argc] is their number. *)
Record ShellCommand := mkCommand { sc_name : list Z; sc_function : list (list Z) → stM channel unit }.

(** The texts the configuration and the compiler define, the system time a command
    reads, and what the stack buffer of chvprintf contains. *)
Class ShellEnv := {
  CH_KERNEL_VERSION : list Z; PORT_COMPILER_NAME : list Z; PORT_ARCHITECTURE_NAME : list Z; PORT_CORE_VARIANT_NAME : list Z;
  PORT_INFO : list Z; PLATFORM_NAME : list Z; BOARD_NAME : list Z; build_date : list Z; build_time : list Z;
  system_time : channel → Z;
  tmpbuf : list Z;
  tmpbuf_size : length tmpbuf = 23%nat
}.

Section Shell.
Context `{ShellEnv}.

Definition chprintf (fmt : list Z) (ap : list varg) : stM channel Z := chvprintf tmpbuf fmt ap.

(** ** Commands *)

Definition usage (p : list Z) : stM channel unit := _ ← chprintf (text "Usage: %s" ++ crlf) [AStr (Some p)]; mret ().

Fixpoint list_commands (scp : list ShellCommand) : stM channel unit :=
  match scp with [] => mret () | c :: scp => _ ← chprintf (text "%s ") [AStr (Some (sc_name c))]; list_commands scp end.

Definition info_line (label : string) (value : list Z) : stM channel unit :=
  _ ← chprintf (text label ++ text "%s" ++ crlf) [AStr (Some value)]; mret ().
Definition cmd_info (args : list (list Z)) : stM channel unit :=
  if (0 <? length args)%nat then usage (text "info") else
  info_line "Kernel:       " CH_KERNEL_VERSION ;;
  info_line "Compiler:     " PORT_COMPILER_NAME ;;
  info_line "Architecture: " PORT_ARCHITECTURE_NAME ;;
  info_line "Core Variant: " PORT_CORE_VARIANT_NAME ;;
  info_line "Port Info:    " PORT_INFO ;;
  info_line "Platform:     " PLATFORM_NAME ;;
  info_line "Board:        " BOARD_NAME ;;
  _ ← chprintf (text "Build time:   %s%s%s" ++ crlf) [AStr (Some build_date); AStr (Some (text " - ")); AStr (Some build_time)];
  mret ().

Definition cmd_systime (args : list (list Z)) : stM channel unit :=
  if (0 <? length args)%nat then usage (text "systime") else
  λ s, (_ ← chprintf (text "%lu" ++ crlf) [AULong (system_time s)]; mret ()) s.

Definition local_commands : list ShellCommand := [mkCommand (text "info") cmd_info; mkCommand (text "systime") cmd_systime].

(** [true] if there is no such command. *)
Fixpoint cmdexec (scp : list ShellCommand) (name : list Z) (args : list (list Z)) : stM channel bool :=
  match scp with
  | [] => mret true
  | c :: scp => if strcasecmp (sc_name c) name =? 0 then sc_function c args ;; mret false else cmdexec scp name args
  end.

(** ** Line editor *)

Definition put (c : Z) : stM channel unit := _ ← sput c; mret ().

(** [p] is the position in the line; the result is the status and the line.  A
    byte is read in every iteration. *)
Fixpoint getline_loop (fuel : nat) (line : list Z) (p size : nat) : stM channel (bool * list Z) :=
  match fuel with
  | O => cfault
  | S fuel =>
      r ← chan_read;
      match r with
      | None => mret (true, line)
      | Some c =>
          if c =? 4 then _ ← chprintf (text "^D") []; mret (true, line)
          else if (c =? 8) || (c =? 127) then
            if negb (p =? 0)%nat then put c ;; put 32 ;; put c ;; getline_loop fuel line (p - 1) size
            else getline_loop fuel line p size
          else if c =? 13 then
            _ ← chprintf crlf [];
            if (p <? length line)%nat then mret (false, <[p := 0]> line) else cfault
          else if c <? 32 then getline_loop fuel line p size
          else if (p <? size - 1)%nat then
            put c ;;
            if (p <? length line)%nat then getline_loop fuel (<[p := c]> line) (S p) size else cfault
          else getline_loop fuel line p size
      end
  end.
Definition shellGetLine (line : list Z) (size : nat) : stM channel (bool * list Z) :=
  λ s, getline_loop (S (length (ch_in s))) line 0 size s.

(** ** The shell thread *)

(** The loop that fills [args], with room for [k] more: the arguments, whether
    there are too many, and the line. *)
Fixpoint collect_args (k : nat) (line : list Z) (tokp : option nat) (args : list nat) : option (list nat * bool * list Z) :=
  '(lp, line, tokp) ← _strtok None delimiters line tokp;
  match lp with
  | None => Some (args, false, line)
  | Some lp => match k with O => Some (args, true, line) | S k => collect_args k line tokp (args ++ [lp]) end
  end.

(** The commands; [false] ends the loop.  [scp] is the table of the application,
    if there is one. *)
Definition execute (scp : option (list ShellCommand)) (cmd : list Z) (args : list (list Z)) : stM channel bool :=
  if strcasecmp cmd (text "exit") =? 0 then
    if (0 <? length args)%nat then usage (text "exit") ;; mret true else mret false
  else if strcasecmp cmd (text "help") =? 0 then
    if (0 <? length args)%nat then usage (text "help") ;; mret true
    else
      _ ← chprintf (text "Commands: help exit ") [];
      list_commands local_commands ;;
      (match scp with Some scp => list_commands scp | None => mret () end) ;;
      _ ← chprintf crlf []; mret true
  else
    unknown ← cmdexec local_commands cmd args;
    unknown ← (if unknown : bool then match scp with None => mret true | Some scp => cmdexec scp cmd args end else mret false);
    if unknown : bool then _ ← chprintf (text "%s") [AStr (Some cmd)]; _ ← chprintf (text " ?" ++ crlf) []; mret true
    else mret true.

(** One iteration: whether the loop goes on, and the line. *)
Definition shell_step (scp : option (list ShellCommand)) (line : list Z) : stM channel (bool * list Z) :=
  _ ← chprintf (text "ch> ") [];
  '(closed, line) ← shellGetLine line SHELL_MAX_LINE_LENGTH;
  if closed : bool then _ ← chprintf (crlf ++ text "logout") []; mret (false, line)
  else
    '(lp, line, tokp) ← cderef (_strtok (Some 0%nat) delimiters line None);
    '(args, too_many, line) ← cderef (collect_args SHELL_MAX_ARGUMENTS line tokp []);
    if too_many : bool then _ ← chprintf (text "too many arguments" ++ crlf) []; mret (true, line)
    else
      match lp with
      | None => mret (true, line)
      | Some lp =>
          cmd ← cderef (cstr (drop lp line));
          args ← cderef (mapM (λ p, cstr (drop p line)) args);
          go ← execute scp cmd args;
          mret (go, line)
      end.

Fixpoint shell_loop (fuel : nat) (scp : option (list ShellCommand)) (line : list Z) : stM channel unit :=
  match fuel with
  | O => cfault
  | S fuel => '(go, line) ← shell_step scp line; if go : bool then shell_loop fuel scp line else mret ()
  end.

(** Up to shellExit. *)
Definition shell_thread (fuel : nat) (scp : option (list ShellCommand)) (line : list Z) : stM channel unit :=
  _ ← chprintf (crlf ++ text "ChibiOS/RT Shell" ++ crlf) [];
  shell_loop fuel scp line.
End Shell.

(** ** Start and end, on the kernel *)

Definition shellInit (shell_terminated : addr) : M unit := chEvtObjectInit shell_terminated.
Definition shellExit (shell_terminated : addr) (msg : Z) : M unit :=
  chSysLock ;; chEvtBroadcastI shell_terminated ;; chThdExitS msg.
Definition shellCreate (provider : positive → Z → M Z) (wa0 : Z) (size prio : Z) (shell : positive) : M (option tid) :=
  chThdCreateFromHeap provider wa0 None size prio (Some shell).
Definition shellCreateStatic (wa0 : Z) (wsp : tid) (size prio : Z) (shell : positive) : M tid :=
  chThdCreateStatic wa0 wsp size prio (Some shell).
