(* ===== verification/ShellProps.v ===== *)
(** * What the shell does

    Words against the tokenizer, the line editor against the keys typed, and whole
    sessions against an interpreter of lines. *)

From Stdlib Require Import String Ascii.
From S2P Require Import Prelude TimeMeas Kernel Streams Floats Printf Shell.

(** ** Words *)

Definition blank (c : Z) : bool := bool_decide (c ∈ delimiters).

(** The pieces between blanks, and those that are not empty. *)
Fixpoint pieces (l : list Z) : list (list Z) :=
  match l with
  | [] => [[]]
  | c :: l =>
      match pieces l with
      | w :: ws => if blank c then [] :: w :: ws else (c :: w) :: ws
      | [] => []
      end
  end.
Definition words (l : list Z) : list (list Z) := filter (λ w, w ≠ []) (pieces l).

Definition no_zero (l : list Z) : Prop := Forall (λ c, c ≠ 0) l.

Lemma pieces_cons l : ∃ w ws, pieces l = w :: ws.
Proof. induction l as [|c l (w & ws & E)]; simpl; [by eexists _, _|]. rewrite E. destruct (blank c); by eexists _, _. Qed.

Lemma words_blank c l : blank c = true → words (c :: l) = words l.
Proof. intros Hc. unfold words. simpl. destruct (pieces_cons l) as (w & ws & E). by rewrite E, Hc. Qed.

Lemma words_blanks b l : Forall (λ c, blank c = true) b → words (b ++ l) = words l.
Proof. induction 1 as [|c b Hc _ IH]; [done|]. simpl. by rewrite words_blank. Qed.

Lemma pieces_word w l : Forall (λ c, negb (blank c) = true) w → (l = [] ∨ ∃ c l', l = c :: l' ∧ blank c = true) →
  pieces (w ++ l) = w :: tail (pieces l).
Proof.
  intros Hw Hl. induction Hw as [|c w Hc _ IH]; simpl.
  - destruct Hl as [->|(c & l' & -> & Hc)]; simpl; [done|]. destruct (pieces_cons l') as (x & xs & E). by rewrite E, Hc.
  - rewrite IH. apply negb_true_iff in Hc. by rewrite Hc.
Qed.

Lemma words_end w : Forall (λ c, negb (blank c) = true) w → w ≠ [] → words w = [w].
Proof.
  intros Hw Hn. unfold words. rewrite <-(app_nil_r w) at 1. rewrite pieces_word by (done || by left). simpl.
  by rewrite filter_cons_True.
Qed.

Lemma words_word w c l : Forall (λ c, negb (blank c) = true) w → w ≠ [] → blank c = true → words (w ++ c :: l) = w :: words l.
Proof.
  intros Hw Hn Hc. unfold words. rewrite pieces_word by (done || (right; by eexists _, _)).
  simpl. destruct (pieces_cons l) as (x & xs & E). rewrite E, Hc. simpl tail. by rewrite filter_cons_True.
Qed.

(** ** C strings *)

Lemma cstr_eq w post : no_zero w → cstr (w ++ 0 :: post) = Some w.
Proof. induction 1 as [|c w Hc _ IH]; [done|]. simpl. by rewrite (proj2 (Z.eqb_neq c 0)), IH. Qed.

Lemma strspn_eq s post : no_zero s → strspn (s ++ 0 :: post) delimiters = Some (length (span blank s).1).
Proof.
  induction 1 as [|c s Hc _ IH]; [done|]. simpl. rewrite (proj2 (Z.eqb_neq c 0)) by done. simpl.
  fold (blank c). destruct (blank c); [|done]. rewrite IH. by destruct (span blank s).
Qed.

Lemma strpbrk_eq s post : no_zero s →
  strpbrk (s ++ 0 :: post) delimiters =
    Some (match (span (λ c, negb (blank c)) s).2 with [] => None | _ => Some (length (span (λ c, negb (blank c)) s).1) end).
Proof.
  induction 1 as [|c s Hc _ IH]; [done|]. simpl. rewrite (proj2 (Z.eqb_neq c 0)) by done.
  fold (blank c). destruct (blank c); [done|]. rewrite IH. simpl. destruct (span _ s) as [a [|x b]]; done.
Qed.

(** ** The tokenizer *)

(** Where the tokenizer is in the line: at its end, or at the position [p] with the
    words [ws] before it. *)
Definition tokens_at (line : list Z) (p : nat) (tokp : option nat) (ws : list (list Z)) : Prop :=
  tokp = None ∧ ws = [] ∨
  tokp = Some p ∧ ∃ s post, drop p line = s ++ 0 :: post ∧ no_zero s ∧ words s = ws.

(** The string at a position, and that what is behind [p] does not matter to it. *)
Definition token (line : list Z) (p q : nat) (w : list Z) : Prop :=
  no_zero w ∧ (q + length w < p)%nat ∧ ∃ post, drop q line = w ++ 0 :: post.

Lemma take_take_le (l l' : list Z) p q : (p ≤ q)%nat → take q l' = take q l → take p l' = take p l.
Proof. intros Hp E. apply (f_equal (take p)) in E. by rewrite !take_take, !Nat.min_l in E by lia. Qed.

Lemma token_cstr line p q w : token line p q w → cstr (drop q line) = Some w.
Proof. intros (Hw & _ & post & ->). by apply cstr_eq. Qed.

Lemma token_mono line line' p p' q w : token line p q w → take p line' = take p line → (p ≤ p')%nat → token line' p' q w.
Proof.
  intros (Hw & Hq & post & E) Ht Hp. split; [done|]. split; [lia|].
  assert (take (p - q) (drop q line') = w ++ 0 :: take (p - q - length w - 1) post) as E'.
  { replace (p - q)%nat with (p - q)%nat by lia. rewrite take_drop_commute, Nat.add_comm, Nat.sub_add, Ht by lia.
    replace p with (q + (p - q))%nat at 1 by lia. rewrite <-take_drop_commute, E, take_app_ge by lia. f_equal.
    destruct (p - q - length w)%nat as [|k] eqn:Ek; [lia|]. simpl. by rewrite Nat.sub_0_r. }
  eexists. rewrite <-(take_drop (p - q) (drop q line')), E', <-app_assoc. simpl. done.
Qed.

Lemma no_zero_span f s : no_zero s → no_zero (span f s).1 ∧ no_zero (span f s).2.
Proof. intros Hs. rewrite <-(span_app f s) in Hs. by apply Forall_app in Hs. Qed.

Lemma lookup_of_drop (line : list Z) q c l : drop q line = c :: l → line !! q = Some c.
Proof. intros E. rewrite <-(Nat.add_0_r q), <-lookup_drop, E. done. Qed.

Lemma insert_of_drop (line : list Z) q a c l x : drop q line = a ++ c :: l →
  drop q (<[(q + length a)%nat := x]> line) = a ++ x :: l.
Proof.
  intros E. rewrite drop_insert_ge by lia. rewrite E. replace (q + length a - q)%nat with (length a + 0)%nat by lia.
  by rewrite insert_app_r.
Qed.

(** One call: the next word, or none. *)
Lemma strtok_next line p tokp ws : tokens_at line p tokp ws →
  ∃ lp line' tokp' p', _strtok None delimiters line tokp = Some (lp, line', tokp') ∧
    length line' = length line ∧ take p line' = take p line ∧ (p ≤ p')%nat ∧
    match ws with
    | [] => lp = None ∧ tokp' = None ∧ line' = line
    | w :: ws => ∃ q, lp = Some q ∧ token line' p' q w ∧ tokens_at line' p' tokp' ws
    end.
Proof.
  intros [[-> ->]|(-> & s & post & E & Hs & Hws)].
  { exists None, line, None, p. split_and!; done. }
  unfold _strtok. rewrite E, strspn_eq by done. simpl.
  destruct (no_zero_span blank s Hs) as [Hb Hr]. pose proof (span_true blank s) as Hbt. pose proof (span_false blank s) as Hbf.
  rewrite <-(span_app blank s) in E, Hws. destruct (span blank s) as [b r]. simpl in *.
  rewrite words_blanks in Hws by done. set (q := (p + length b)%nat).
  assert (drop q line = r ++ 0 :: post) as Eq by (unfold q; by rewrite <-drop_drop, E, <-app_assoc, drop_app_length).
  rewrite Eq, strpbrk_eq by done. simpl.
  destruct (no_zero_span (λ c, negb (blank c)) r Hr) as [Hw Hr']. pose proof (span_true (λ c, negb (blank c)) r) as Hwt.
  pose proof (span_false (λ c, negb (blank c)) r) as Hwf. pose proof (span_app (λ c, negb (blank c)) r) as Er.
  destruct (span (λ c, negb (blank c)) r) as [w r']. simpl in *. subst r.
  destruct w as [|c w].
  - assert (r' = []) as ->.
    { destruct r' as [|c r']; [done|]. pose proof (Hwf _ _ eq_refl) as H1. by rewrite (Hbf _ _ eq_refl) in H1. }
    simpl in *. pose proof (lookup_of_drop line q 0 post Eq) as El. exists None, line, None, p. rewrite El. subst ws. split_and!; done.
  - assert (c ≠ 0) as Hc by (by apply Forall_cons in Hw as [? _]).
    destruct r' as [|d r'].
    + rewrite app_nil_r in *. pose proof (lookup_of_drop line q c (w ++ 0 :: post) Eq) as El.
      exists (Some q), line, None, (S (q + length (c :: w)))%nat. rewrite El. simpl. rewrite (proj2 (Z.eqb_neq c 0)) by done.
      split_and!; [done..|unfold q; simpl; lia|]. rewrite words_end in Hws by done. subst ws.
      exists q. split_and!; [done| |by left]. split_and!; [done|simpl; lia|]. by exists post.
    + pose proof (Hwf d r' eq_refl) as Hd. apply negb_false_iff in Hd.
      rewrite <-app_assoc in Eq. set (w1 := c :: w) in *. set (line' := <[(q + length w1)%nat := 0]> line).
      assert (drop q line' = w1 ++ 0 :: r' ++ 0 :: post) as Eq' by (by apply (insert_of_drop _ _ _ d)).
      pose proof (lookup_of_drop line' q c (w ++ 0 :: r' ++ 0 :: post) Eq') as El.
      exists (Some q), line', (Some (S (q + length w1))), (S (q + length w1))%nat. rewrite El. simpl. rewrite (proj2 (Z.eqb_neq c 0)) by done.
      split_and!; [done|by apply length_insert|apply take_insert_ge; unfold q; lia|unfold q; lia|].
      rewrite words_word in Hws by done. subst ws. change (S (length w)) with (length w1). exists q. split_and!; [done| |].
      * split_and!; [done|lia|by eexists].
      * right. split; [done|]. exists r', post. split_and!; [|by apply Forall_cons in Hr' as [_ ?]|done].
        replace (S (q + length w1)) with (q + S (length w1))%nat by lia. rewrite <-drop_drop, Eq'.
        rewrite drop_app_ge by lia. by replace (S (length w1) - length w1)%nat with 1%nat by lia.
Qed.

(** All of them: as many as there is room for. *)
Lemma collect_args_ok k : ∀ line p tokp ws args done, tokens_at line p tokp ws → Forall2 (token line p) args done →
  ∃ args' line' p', collect_args k line tokp args = Some (args', (k <? length ws)%nat, line') ∧
    length line' = length line ∧ take p line' = take p line ∧ (p ≤ p')%nat ∧
    ((length ws ≤ k)%nat → Forall2 (token line' p') args' (done ++ ws)).
Proof.
  induction k as [|k IH]; intros line p tokp ws args dn Ht Ha; cbn [collect_args];
    destruct (strtok_next _ _ _ _ Ht) as (lp & line1 & tokp1 & p1 & E & Hl & Hk & Hp & Hws); rewrite E; cbn [mbind option_bind];
    (destruct ws as [|w ws]; [destruct Hws as (-> & _ & ->)|destruct Hws as (q & -> & Hq & Ht1)]).
  - exists args, line, p. split_and!; try done. intros _. by rewrite app_nil_r.
  - exists args, line1, p. split_and!; try done. simpl. lia.
  - exists args, line, p. split_and!; try done. intros _. by rewrite app_nil_r.
  - destruct (IH line1 p1 tokp1 ws (args ++ [q]) (dn ++ [w]) Ht1) as (args' & line' & p' & E' & Hl' & Hk' & Hp' & Hall).
    { apply Forall2_app; [|by constructor]. eapply Forall2_impl; [exact Ha|]. intros a x Hx. by eapply token_mono. }
    exists args', line', p'. rewrite E'. split_and!; [done|by rewrite Hl'| |lia|].
    + rewrite <-Hk. by eapply take_take_le.
    + intros Hle. rewrite <-app_assoc in Hall. apply Hall. simpl in Hle. lia.
Qed.

Lemma line_words k s post :
  no_zero s →
  ∃ lp line1 tokp args line2,
    _strtok (Some 0%nat) delimiters (s ++ 0 :: post) None = Some (lp, line1, tokp) ∧
    collect_args k line1 tokp [] = Some (args, (k <? length (tail (words s)))%nat, line2) ∧
    length line2 = length (s ++ 0 :: post) ∧ (lp = None ↔ words s = []) ∧
    ((length (tail (words s)) ≤ k)%nat → Forall2 (λ q w, cstr (drop q line2) = Some w) (option_list lp ++ args) (words s)).
Proof.
  intros Hs. assert (tokens_at (s ++ 0 :: post) 0 (Some 0%nat) (words s)) as Ht by (right; split; [done|]; by exists s, post).
  destruct (strtok_next _ _ _ _ Ht) as (lp & line1 & tokp & p & E & Hl & _ & _ & Hws).
  assert (_strtok (Some 0%nat) delimiters (s ++ 0 :: post) None = Some (lp, line1, tokp)) as E' by exact E.
  exists lp, line1, tokp. destruct (words s) as [|w ws].
  - destruct Hws as (-> & -> & ->).
    exists [], (s ++ 0 :: post). split_and!; [done|by destruct k|done|done|by constructor].
  - destruct Hws as (q & -> & Hq & Ht1).
    destruct (collect_args_ok k line1 p tokp ws [] [] Ht1) as (args & line2 & p2 & Ec & Hl2 & Hk2 & Hp2 & Hall); [constructor|].
    exists args, line2. split_and!; [done|exact Ec|by rewrite Hl2|done|]. intros Hle. constructor.
    + by eapply token_cstr, token_mono.
    + eapply Forall2_impl; [by apply Hall|]. intros a x. apply token_cstr.
Qed.

(** C14.  The tokenizer finds the words of a line: for every line the calls of _strtok
    give, in order, the positions of the words between blanks, each a C string of its
    own in the line when they are all found (no token exactly when there is no word),
    stay inside the line, and there are too many arguments exactly when there are more words than room for them. *)
Theorem strtok_words k s post :
  no_zero s →
  ∃ lp line1 tokp args line2,
    _strtok (Some 0%nat) delimiters (s ++ 0 :: post) None = Some (lp, line1, tokp) ∧
    collect_args k line1 tokp [] = Some (args, (k <? length (tail (words s)))%nat, line2) ∧
    length line2 = length (s ++ 0 :: post) ∧ (lp = None ↔ words s = []) ∧
    ((length (tail (words s)) ≤ k)%nat → Forall2 (λ q w, cstr (drop q line2) = Some w) (option_list lp ++ args) (words s)).
Proof. apply line_words. Qed.

(** ** The line editor

    What a key does to the text of the line, and what it prints. *)

Definition erase (c : Z) : bool := (c =? 8) || (c =? 127).
Definition key (size : nat) (l : list Z) (c : Z) : list Z :=
  if erase c then take (length l - 1) l
  else if c <? 32 then l
  else if (length l <? size - 1)%nat then l ++ [c] else l.
Definition echo (size : nat) (l : list Z) (c : Z) : list Z :=
  if erase c then (if (length l =? 0)%nat then [] else [c; 32; c])
  else if c <? 32 then []
  else if (length l <? size - 1)%nat then [c] else [].

(** Reading a line: the output, the rest of the input, and the text if the line is
    complete. *)
Fixpoint edit (size : nat) (l input : list Z) : list Z * list Z * option (list Z) :=
  match input with
  | [] => ([], [], None)
  | c :: input =>
      if c =? 4 then (text "^D", input, None)
      else if c =? 13 then (crlf, input, Some l)
      else let '(e, rest, x) := edit size (key size l c) input in (echo size l c ++ e, rest, x)
  end.

Lemma edit_rest size input : ∀ l, (length (edit size l input).1.2 ≤ length input)%nat ∧ (edit size l input).1.2 `suffix_of` input.
Proof.
  induction input as [|c input IH]; intros l; simpl; [by split|].
  destruct (c =? 4); [split; [simpl; lia|by apply suffix_cons_r]|].
  destruct (c =? 13); [split; [simpl; lia|by apply suffix_cons_r]|].
  destruct (IH (key size l c)) as [Hl Hs]. destruct (edit size (key size l c) input) as [[e r] x]. simpl in *.
  split; [lia|by apply suffix_cons_r].
Qed.

Section Editor.
Context `{ShellEnv}.

(** Bytes put on the channel. *)
Definition say (bs : list Z) : stM channel unit := λ s, Some (tt, mkChan (ch_in s) (ch_out s ++ bs)).

Lemma cbind_done {A B} (m : stM channel A) (k : A → stM channel B) s a s' : m s = Some (a, s') → (m ≫= k) s = k a s'.
Proof. intros E. unfold mbind, stM_bind. by rewrite E. Qed.

Lemma put_all_say bs s : put_all (M := stM channel) bs s = Some (tt, mkChan (ch_in s) (ch_out s ++ bs)).
Proof.
  revert s. induction bs as [|b bs IH]; intros [i o]; simpl; [by rewrite app_nil_r|].
  unfold mbind, stM_bind. simpl. rewrite IH. simpl. by rewrite <-app_assoc.
Qed.

(** A format made of texts and %s. *)
Definition lits (l : list Z) : list item := Lit <$> l.
Definition str : item := Dir false false NNone None false 115.
Definition num : item := Dir false false NNone None true 117.
Definition shown (s : list Z) : Prop := Forall (λ c, 0 < c < 256) s ∧ Z.of_nat (length s) ≤ 32767.
Definition plain (s : list Z) : Prop := Forall (λ c, 0 < c < 256 ∧ c ≠ 37) s.

Lemma printf_items l ap bs s fmt : concat (item_text <$> l) = fmt → render_all l ap bs → Forall item_ok l →
  Z.of_nat (length bs) ≤ INT32_MAX → chprintf fmt ap s = Some (Z.of_nat (length bs), mkChan (ch_in s) (ch_out s ++ bs)).
Proof.
  intros <- Hr Hok Hl. unfold chprintf.
  assert (23 ≤ length tmpbuf)%nat as Hb by (by rewrite tmpbuf_size).
  pose proof (chvprintf_ok (M := stM channel) tmpbuf l ap bs Hr Hok Hb Hl s) as ->.
  exact (cbind_done (put_all (M := stM channel) bs) _ _ _ _ (put_all_say bs s)).
Qed.

Lemma render_lits t : plain t → ∀ l ap bs, render_all l ap bs → render_all (lits t ++ l) ap (t ++ bs).
Proof.
  induction 1 as [|c t [Hc Hn] _ IH]; intros l ap bs Hr; [done|]. simpl. apply (render_cons _ _ _ [c] ap (t ++ bs)); [|by apply IH].
  constructor; [|lia|done]. apply Z.mod_small. lia.
Qed.

Lemma field_none v : field false 32 0 v = v.
Proof.
  unfold field. replace (Z.to_nat (0 - Z.of_nat (length v))) with 0%nat by lia. simpl. destruct v as [|c v]; [done|]. by rewrite andb_false_r.
Qed.

Lemma render_str v : shown v → ∀ l ap bs, render_all l ap bs → render_all (str :: l) (AStr (Some v) :: ap) (v ++ bs).
Proof.
  intros [Hv Hl] l ap bs Hr. refine (render_cons _ _ _ v ap bs _ Hr).
  rewrite <-(field_none v) at 2.
  set (args := AStr (Some v) :: ap). apply (render_arg false false NNone None false 115 args 0 args 0 args v false ap); [done|done|].
  unfold arg_text. simpl.
  assert (forallb (λ c, (0 <? c) && (c <? 256)) v = true) as ->.
  { apply forallb_forall. intros c Hc%list_elem_of_In. rewrite Forall_forall in Hv. specialize (Hv c Hc).
    by rewrite (proj2 (Z.ltb_lt _ _)), (proj2 (Z.ltb_lt _ _)) by lia. }
  rewrite take_ge by lia. done.
Qed.

Lemma render_num z : 0 ≤ z < 2 ^ 32 → ∀ l ap bs, render_all l ap bs → render_all (num :: l) (AULong z :: ap) (show 10 z ++ bs).
Proof.
  intros Hz l ap bs Hr. refine (render_cons _ _ _ (show 10 z) ap bs _ Hr). rewrite <-(field_none (show 10 z)).
  set (args := AULong z :: ap). apply (render_arg false false NNone None true 117 args 0 args 0 args (show 10 z) true ap); [done|done|].
  unfold arg_text. cbn -[show]. by rewrite (proj2 (Z.leb_le _ _)), (proj2 (Z.ltb_lt _ _)) by lia.
Qed.

Lemma plain_text t : forallb (λ c, (0 <? c) && (c <? 256) && negb (c =? 37)) t = true → plain t.
Proof.
  intros Ht. apply Forall_forall. intros c Hc. rewrite forallb_forall in Ht. specialize (Ht c (proj1 (list_elem_of_In _ _) Hc)).
  apply andb_prop in Ht as [[H1%Z.ltb_lt H2%Z.ltb_lt]%andb_prop H3%negb_true_iff%Z.eqb_neq]. lia.
Qed.

(** A format made of texts and the directives %s and %lu, with its arguments. *)
Inductive chunk := Txt (t : list Z) | Arg (v : list Z) | Num (z : Z).
Definition chunk_ok (c : chunk) : Prop := match c with Txt t => plain t ∧ Z.of_nat (length t) ≤ 32767 | Arg v => shown v | Num z => 0 ≤ z < 2 ^ 32 end.
Definition chunk_fmt (c : chunk) : list Z := match c with Txt t => t | Arg _ => text "%s" | Num _ => text "%lu" end.
Definition chunk_items (c : chunk) : list item := match c with Txt t => lits t | Arg _ => [str] | Num _ => [num] end.
Definition chunk_out (c : chunk) : list Z := match c with Txt t => t | Arg v => v | Num z => show 10 z end.
Definition chunk_args (cs : list chunk) : list varg := omap (λ c, match c with Txt _ => None | Arg v => Some (AStr (Some v)) | Num z => Some (AULong z) end) cs.

Lemma lits_text t : concat (item_text <$> lits t) = t.
Proof. unfold lits. induction t as [|c t IH]; simpl; [done|]. by f_equal. Qed.

Lemma chunks_render cs : Forall chunk_ok cs → render_all (concat (chunk_items <$> cs)) (chunk_args cs) (concat (chunk_out <$> cs)).
Proof.
  induction 1 as [|[t|v|z] cs Hc _ IH]; simpl; [constructor|apply render_lits; [apply Hc|done]|by apply render_str|by apply render_num].
Qed.

Lemma chunks_fmt cs : concat (item_text <$> concat (chunk_items <$> cs)) = concat (chunk_fmt <$> cs).
Proof.
  induction cs as [|[t|v|z] cs IH]; [done|..].
  - rewrite !fmap_cons. cbn [concat]. rewrite fmap_app, concat_app, IH. f_equal. apply lits_text.
  - rewrite !fmap_cons. cbn [concat]. rewrite fmap_app, concat_app, IH. done.
  - rewrite !fmap_cons. cbn [concat]. rewrite fmap_app, concat_app, IH. done.
Qed.

Lemma chprintf_say cs ap fmt s : Forall chunk_ok cs → (length cs ≤ 10)%nat → fmt = concat (chunk_fmt <$> cs) → ap = chunk_args cs →
  (_ ← chprintf fmt ap; mret ()) s = say (concat (chunk_out <$> cs)) s.
Proof.
  intros Hcs Hl -> ->. assert (∃ n, chprintf (concat (chunk_fmt <$> cs)) (chunk_args cs) s =
    Some (n, mkChan (ch_in s) (ch_out s ++ concat (chunk_out <$> cs)))) as [n E]; [|exact (cbind_done _ _ _ _ _ E)].
  eexists. eapply printf_items; [apply chunks_fmt|by apply chunks_render| |].
  - clear Hl. induction Hcs as [|[t|v|z] cs _ _ IH]; simpl; [constructor| |by constructor..].
    apply Forall_app. split; [|done]. by apply Forall_fmap, Forall_true.
  - assert (Z.of_nat (length (concat (chunk_out <$> cs))) ≤ 32767 * Z.of_nat (length cs)); [|unfold INT32_MAX; lia].
    clear Hl. induction Hcs as [|c cs Hc _ IH]; [simpl; lia|]. rewrite fmap_cons. cbn [concat length]. rewrite length_app.
    assert (Z.of_nat (length (chunk_out c)) ≤ 32767) by (destruct c as [t|v|z]; [apply Hc..|pose proof (show_length_10 z Hc); simpl; lia]). lia.
Qed.

Lemma plain_ok t : forallb (λ c, (0 <? c) && (c <? 256) && negb (c =? 37)) t && (Z.of_nat (length t) <=? 32767) = true → chunk_ok (Txt t).
Proof. intros [Ht%plain_text Hl%Z.leb_le]%andb_prop. done. Qed.

(** A constant text. *)
Lemma say_text t s : forallb (λ c, (0 <? c) && (c <? 256) && negb (c =? 37)) t && (Z.of_nat (length t) <=? 32767) = true →
  (_ ← chprintf t []; mret ()) s = say t s.
Proof.
  intros Ht. rewrite (chprintf_say [Txt t]); [|by repeat constructor; apply plain_ok|simpl; lia|simpl; by rewrite app_nil_r|done].
  simpl. by rewrite app_nil_r.
Qed.
Lemma say_then {A} t (k : stM channel A) s : forallb (λ c, (0 <? c) && (c <? 256) && negb (c =? 37)) t && (Z.of_nat (length t) <=? 32767) = true →
  (_ ← chprintf t []; k) s = k (mkChan (ch_in s) (ch_out s ++ t)).
Proof.
  intros Ht. pose proof (say_text t s Ht) as E. unfold say in E. unfold mbind, stM_bind in *.
  destruct (chprintf t [] s) as [[n s']|]; simpl in *; [|done]. by injection E as ->.
Qed.

Lemma erase_then {A} c (k : stM channel A) s : (put c ;; put 32 ;; put c ;; k) s = k (mkChan (ch_in s) (ch_out s ++ [c; 32; c])).
Proof. unfold mbind, stM_bind. simpl. by rewrite <-!app_assoc. Qed.

Ltac by_edit line' HE :=
  destruct (edit _ _ _) as [[? ?] ?]; exists line'; cbn [ch_out] in HE |- *; rewrite <-?app_assoc in HE; exact HE.

(** The loop of the editor holds the text [l] at the start of the line. *)
Lemma getline_ok input : ∀ fuel l line size s, ch_in s = input → (length input < fuel)%nat → take (length l) line = l → length line = size →
  (length l < size)%nat →
  ∃ line', length line' = size ∧
    let '(e, rest, x) := edit size l input in
    getline_loop fuel line (length l) size s = Some (match x with None => true | Some _ => false end, line', mkChan rest (ch_out s ++ e)) ∧
    ∀ l', x = Some l' → ∃ post, line' = l' ++ 0 :: post.
Proof.
  induction input as [|c input IH]; intros [|fuel] l line size [i o] Hi Hf Ht Hl Hs; simpl in Hi; subst i; simpl in Hf; try lia.
  - exists line. split; [done|]. simpl. by rewrite app_nil_r.
  - cbn [getline_loop edit]. rewrite (cbind_done _ _ _ (Some c) (mkChan input o)) by done.
    destruct (c =? 4). { exists line. split; [done|]. by rewrite say_then. }
    unfold key, echo. fold (erase c). destruct (erase c) eqn:Ee.
    + assert ((c =? 13) = false) as -> by (unfold erase in Ee; lia).
      destruct (Nat.eqb_spec (length l) 0) as [E0|E0]; cbn [negb].
      * apply nil_length_inv in E0 as ->. destruct (IH fuel [] line size (mkChan input o)) as (line' & HE); try done; try lia. by_edit line' HE.
      * assert (length (take (length l - 1) l) = length l - 1)%nat as El by (rewrite length_take; lia).
        destruct (IH fuel (take (length l - 1) l) line size (mkChan input (o ++ [c; 32; c]))) as (line' & HE); try done; try lia.
        { rewrite El. transitivity (take (length l - 1) (take (length l) line)); [by rewrite take_take, Nat.min_l by lia|by rewrite Ht]. }
        rewrite El in HE. rewrite erase_then. by_edit line' HE.
    + destruct (c =? 13).
      { exists (<[length l := 0]> line). rewrite length_insert. split; [done|]. rewrite say_then by done.
        destruct (Nat.ltb_spec (length l) (length line)); [|lia]. split; [done|]. intros l' [= <-]. exists (drop (S (length l)) line).
        rewrite insert_take_drop by done. by rewrite Ht. }
      destruct (IH fuel l line size (mkChan input o)) as (line0 & HE0); try done; try lia.
      destruct (c <? 32); [by_edit line0 HE0|].
      destruct (Nat.ltb_spec (length l) (size - 1)) as [Hr|Hr]; [|by_edit line0 HE0].
      destruct (Nat.ltb_spec (length l) (length line)); [|lia].
      destruct (IH fuel (l ++ [c]) (<[length l := c]> line) size (mkChan input (o ++ [c]))) as (line' & HE); try done; try lia.
      { rewrite length_app. simpl. rewrite Nat.add_1_r, (take_S_r _ _ c) by (by apply list_lookup_insert_eq). by rewrite take_insert_ge, Ht by lia. }
      { by rewrite length_insert. }
      { rewrite length_app. simpl. lia. }
      clear line0 HE0. rewrite length_app, Nat.add_1_r in HE. by_edit line' HE.
Qed.
End Editor.

(** ** What is on the screen

    A terminal row: a backspace moves the cursor, any other byte is written at it. *)

Record term := mkTerm { row : list Z; cursor : nat }.
Definition term_put (t : term) (c : Z) : term :=
  if c =? 8 then mkTerm (row t) (cursor t - 1)
  else mkTerm (if (cursor t <? length (row t))%nat then <[cursor t := c]> (row t) else row t ++ [c]) (S (cursor t)).

(** The row shows [l] behind the prompt [b], with the cursor at its end and only
    spaces behind it. *)
Definition shows (b l : list Z) (t : term) : Prop :=
  ∃ k, row t = b ++ l ++ replicate k 32 ∧ cursor t = (length b + length l)%nat.

Fixpoint echoes (size : nat) (l keys : list Z) : list Z :=
  match keys with [] => [] | c :: keys => echo size l c ++ echoes size (key size l c) keys end.

Lemma edit_keys size keys rest : ∀ l, 4 ∉ keys → 13 ∉ keys →
  edit size l (keys ++ 13 :: rest) = (echoes size l keys ++ crlf, rest, Some (foldl (key size) l keys)).
Proof.
  induction keys as [|c keys IH]; intros l H4 H13; [done|]. apply not_elem_of_cons in H4 as [H4 H4'], H13 as [H13 H13'].
  simpl. rewrite (proj2 (Z.eqb_neq c 4)), (proj2 (Z.eqb_neq c 13)), IH by done. by rewrite <-app_assoc.
Qed.

Lemma term_insert (b l : list Z) k (c : Z) : (if (length b + length l <? length (b ++ l ++ replicate k 32%Z))%nat
    then <[(length b + length l)%nat := c]> (b ++ l ++ replicate k 32) else (b ++ l ++ replicate k 32) ++ [c]) =
  b ++ l ++ c :: replicate (k - 1) 32.
Proof.
  rewrite !length_app, length_replicate. destruct k as [|k].
  - rewrite (proj2 (Nat.ltb_ge _ _)) by lia. simpl. by rewrite app_nil_r, <-app_assoc.
  - rewrite (proj2 (Nat.ltb_lt _ _)) by lia. rewrite insert_app_r. replace (length l) with (length l + 0)%nat by lia.
    rewrite insert_app_r. simpl. by rewrite Nat.sub_0_r.
Qed.

Lemma echo_shows size b l c t : c ≠ 127 → shows b l t → shows b (key size l c) (foldl term_put t (echo size l c)).
Proof.
  intros Hc (k & Er & Ec). unfold key, echo. destruct (erase c) eqn:Ee.
  - assert (c = 8) as -> by (unfold erase in Ee; lia). destruct (Nat.eqb_spec (length l) 0) as [E0|E0].
    + apply nil_length_inv in E0 as ->. by exists k.
    + destruct l as [|x l _] using rev_ind; [done|]. rewrite length_app in *. cbn [length] in *.
      assert (take (length l + 1 - 1) (l ++ [x]) = l) as -> by (rewrite Nat.add_sub; apply take_app_length).
      exists (S k). destruct t as [r p]. cbn [row cursor] in *. subst r p. cbn [foldl]. unfold term_put. cbn [row cursor Z.eqb Pos.eqb].
      replace (length b + (length l + 1) - 1)%nat with (length b + length l)%nat by lia. rewrite <-app_assoc.
      rewrite (proj2 (Nat.ltb_lt _ _)) by (rewrite !length_app; simpl; lia). split; [|lia].
      rewrite insert_app_r. replace (length l) with (length l + 0)%nat by lia. by rewrite insert_app_r.
  - destruct (c <? 32); [by exists k|]. destruct (_ <? _)%nat; [|by exists k].
    exists (k - 1)%nat. simpl. unfold term_put. rewrite (proj2 (Z.eqb_neq c 8)) by (unfold erase in Ee; lia). simpl.
    rewrite Er, Ec, term_insert, length_app. simpl. rewrite <-app_assoc. split; [done|lia].
Qed.

Lemma echoes_show size b keys : ∀ l t, 127 ∉ keys → shows b l t → shows b (foldl (key size) l keys) (foldl term_put t (echoes size l keys)).
Proof.
  induction keys as [|c keys IH]; intros l t Hk Ht; [done|]. apply not_elem_of_cons in Hk as [Hc Hk].
  simpl. rewrite foldl_app. apply IH; [done|]. by apply echo_shows.
Qed.

(** The text of a line has no control characters and fits the buffer. *)
Definition line_ok (size : nat) (l : list Z) : Prop := Forall (λ c, 32 ≤ c < 256) l ∧ (length l < size)%nat.

Lemma key_ok size l c : 0 ≤ c < 256 → line_ok size l → line_ok size (key size l c).
Proof.
  intros Hc [Hl Hs]. unfold key. destruct (erase c); [split; [by apply Forall_take|rewrite length_take; lia]|].
  destruct (Z.ltb_spec c 32); [done|]. destruct (Nat.ltb_spec (length l) (size - 1)); [|done].
  split; [apply Forall_app; split; [done|apply Forall_singleton; lia]|rewrite length_app; simpl; lia].
Qed.

Lemma edit_ok size input : ∀ l, Forall (λ c, 0 ≤ c < 256) input → line_ok size l →
  ∀ x, (edit size l input).2 = Some x → line_ok size x.
Proof.
  induction input as [|c input IH]; intros l Hi Hl x; simpl; [done|]. apply Forall_cons in Hi as [Hc Hi].
  destruct (c =? 4); [done|]. destruct (c =? 13); [by intros [= <-]|].
  pose proof (IH (key size l c) Hi (key_ok _ _ _ Hc Hl) x) as HI. by destruct (edit size (key size l c) input) as [[e r] y].
Qed.

Lemma line_no_zero size l : line_ok size l → no_zero l.
Proof. intros [Hl _]. eapply Forall_impl; [exact Hl|]. simpl. lia. Qed.

Lemma keys_ok size keys : ∀ l, Forall (λ c, 0 ≤ c < 256) keys → line_ok size l → line_ok size (foldl (key size) l keys).
Proof. induction keys as [|c keys IH]; intros l Hk Hl; [done|]. apply Forall_cons in Hk as [Hc Hk]. apply IH; [done|by apply key_ok]. Qed.

