(* ===== verification/ShellSession.v ===== *)
(** * Shell sessions

    The shell thread against an interpreter of lines: what is printed and done for
    each line, until the session ends. *)

From Stdlib Require Import String Ascii.
From S2P Require Import Prelude TimeMeas Kernel Streams Floats Printf Shell ShellProps.

Definition same_name (a b : list Z) : Prop := tolower <$> a = tolower <$> b.
#[export] Instance same_name_dec a b : Decision (same_name a b) := list_eq_dec _ _.

Lemma text_shown t : forallb (λ c, (0 <? c) && (c <? 256)) t && (Z.of_nat (length t) <=? 32767) = true → shown t.
Proof.
  intros [H1 H2%Z.leb_le]%andb_prop. split; [|done]. apply Forall_forall. intros c Hin. rewrite forallb_forall in H1.
  specialize (H1 c (proj1 (list_elem_of_In _ _) Hin)). lia.
Qed.

(** The pieces of a format are in order. *)
Ltac chunks :=
  lazymatch goal with
  | |- Forall _ _ => repeat (apply Forall_cons_2; [chunks|]); apply Forall_nil_2
  | |- chunk_ok (Txt _) => first [assumption | by apply plain_ok]
  | |- chunk_ok (Arg _) => first [assumption | by apply text_shown]
  | |- chunk_ok (Num _) => unfold chunk_ok; by auto
  | |- shown _ => first [assumption | by apply text_shown]
  | |- (_ <= _)%nat => simpl; lia
  | |- _ => done
  end.

Section Session.
Context `{ShellEnv}.

(** ** The commands of the shell *)

(** What the shell prints is text, and the system time is a [systime_t]. *)
Definition env_ok : Prop :=
  Forall shown [CH_KERNEL_VERSION; PORT_COMPILER_NAME; PORT_ARCHITECTURE_NAME; PORT_CORE_VARIANT_NAME; PORT_INFO; PLATFORM_NAME;
                BOARD_NAME; build_date; build_time] ∧
  ∀ s, 0 ≤ system_time s < 2 ^ 32.

Definition line_of (label : string) (value : list Z) : list Z := text label ++ value ++ crlf.
Definition info_text : list Z :=
  line_of "Kernel:       " CH_KERNEL_VERSION ++ line_of "Compiler:     " PORT_COMPILER_NAME ++
  line_of "Architecture: " PORT_ARCHITECTURE_NAME ++ line_of "Core Variant: " PORT_CORE_VARIANT_NAME ++
  line_of "Port Info:    " PORT_INFO ++ line_of "Platform:     " PLATFORM_NAME ++ line_of "Board:        " BOARD_NAME ++
  line_of "Build time:   " (build_date ++ text " - " ++ build_time).

Definition builtins : list ShellCommand :=
  [mkCommand (text "info") (λ args, say (if (0 <? length args)%nat then line_of "Usage: " (text "info") else info_text));
   mkCommand (text "systime")
     (λ args s, say (if (0 <? length args)%nat then line_of "Usage: " (text "systime") else line_of "" (show 10 (system_time s))) s)].

(** ** What a line means, in terms of its words *)

(** The table of the application. *)
Variable scp : option (list ShellCommand).

Definition commands : list ShellCommand := builtins ++ default [] scp.

(** The first command with a name, in either case. *)
Definition find_command (name : list Z) : option ShellCommand := head (filter (λ c, same_name (sc_name c) name) commands).

(** A line: whether the session goes on. *)
Definition interpret (ws : list (list Z)) : stM channel bool :=
  match ws with
  | [] => mret true
  | cmd :: args =>
      if (SHELL_MAX_ARGUMENTS <? length args)%nat then say (text "too many arguments" ++ crlf) ;; mret true
      else if decide (same_name cmd (text "exit")) then
        if (0 <? length args)%nat then say (text "Usage: exit" ++ crlf) ;; mret true else mret false
      else if decide (same_name cmd (text "help")) then
        if (0 <? length args)%nat then say (text "Usage: help" ++ crlf) ;; mret true
        else say (text "Commands: help exit " ++ concat ((λ c, sc_name c ++ [32]) <$> commands) ++ crlf) ;; mret true
      else
        match find_command cmd with
        | Some c => sc_function c args ;; mret true
        | None => say (cmd ++ text " ?" ++ crlf) ;; mret true
        end
  end.

(** A session of at most [n] lines. *)
Fixpoint session (n : nat) : stM channel unit :=
  match n with
  | O => cfault
  | S n => λ s,
      let '(e, rest, line) := edit SHELL_MAX_LINE_LENGTH [] (ch_in s) in
      let out := ch_out s ++ text "ch> " ++ e in
      match line with
      | None => Some (tt, mkChan rest (out ++ crlf ++ text "logout"))
      | Some l => (go ← interpret (words l); if go : bool then session n else mret ()) (mkChan rest out)
      end
  end.

(** What is asked of the commands of the application: they return, and do not put
    bytes into the input; their names are strings. *)
Definition command_ok (c : ShellCommand) : Prop :=
  shown (sc_name c) ∧ ∀ args s, ∃ s', sc_function c args s = Some (tt, s') ∧ ch_in s' `suffix_of` ch_in s.

Lemma strcasecmp_eq a b : Forall (λ c, 0 < c) a → Forall (λ c, 0 < c) b → (strcasecmp a b =? 0) = bool_decide (same_name a b).
Proof.
  unfold same_name. intros Ha. revert b. induction Ha as [|x a Hx _ IH]; intros b Hb; destruct Hb as [|y b Hy Hb]; simpl; [done| | |].
  - unfold tolower. apply Z.eqb_neq. destruct (_ && _); lia.
  - unfold tolower. apply Z.eqb_neq. destruct (_ && _); lia.
  - destruct (Z.eqb_spec (tolower x) (tolower y)) as [E|E].
    + rewrite IH by done. apply bool_decide_ext. split; [intros Hab; f_equal; [done|exact Hab]|by intros [= _ ?]].
    + rewrite bool_decide_false by (by intros [= ? ?]). apply Z.eqb_neq. lia.
Qed.

Lemma say_bind {A B} (m : stM channel A) t (k : stM channel B) s : (_ ← m; mret ()) s = say t s →
  (_ ← m; k) s = k (mkChan (ch_in s) (ch_out s ++ t)).
Proof. unfold say, mbind, stM_bind. destruct (m s) as [[a s']|]; simpl; [|done]. by intros [= ->]. Qed.
Lemma cbind_ext {A B} (m m' : stM channel A) (k : A → stM channel B) s : m s = m' s → (m ≫= k) s = (m' ≫= k) s.
Proof. intros E. unfold mbind, stM_bind. by rewrite E. Qed.
Lemma said {A} t (k : stM channel A) s : (say t ;; k) s = k (mkChan (ch_in s) (ch_out s ++ t)).
Proof. done. Qed.

Lemma list_commands_say tbl : Forall (λ c, shown (sc_name c)) tbl → ∀ s,
  list_commands tbl s = say (concat ((λ c, sc_name c ++ [32]) <$> tbl)) s.
Proof.
  induction 1 as [|c tbl Hc _ IH]; intros [i o]; [unfold say; simpl; by rewrite app_nil_r|].
  cbn [list_commands]. rewrite (say_bind _ (sc_name c ++ [32])).
  - rewrite IH. unfold say. simpl. by rewrite <-app_assoc.
  - rewrite (chprintf_say [Arg (sc_name c); Txt [32]]); [done| |simpl; lia|done|done].
    constructor; [done|]. constructor; [by apply plain_ok|constructor].
Qed.

Lemma shown_pos l : shown l → Forall (λ c, 0 < c) l.
Proof. intros [Hl _]. eapply Forall_impl; [exact Hl|]. simpl. lia. Qed.

Lemma cmdexec_eq tbl name args s : Forall (λ c, shown (sc_name c)) tbl → Forall (λ c, 0 < c) name →
  cmdexec tbl name args s = match head (filter (λ c, same_name (sc_name c) name) tbl) with
                            | Some c => (sc_function c args ;; mret false) s
                            | None => Some (true, s)
                            end.
Proof.
  intros Ht Hn. induction Ht as [|c tbl Hc _ IH]; [done|]. cbn [cmdexec]. rewrite strcasecmp_eq by (done || by apply shown_pos).
  rewrite filter_cons. case_bool_decide; [by rewrite decide_True|by rewrite decide_False].
Qed.

Lemma head_app {A} (l k : list A) : head (l ++ k) = match head l with Some x => Some x | None => head k end.
Proof. by destruct l. Qed.


(** ** The commands of the shell print what they mean to *)

Lemma info_line_say label v s : chunk_ok (Txt (text label)) → shown v → info_line label v s = say (line_of label v) s.
Proof. intros Hl Hv. unfold info_line. by rewrite (chprintf_say [Txt (text label); Arg v; Txt crlf]) by chunks. Qed.

Lemma info_then label v (k : stM channel unit) s : chunk_ok (Txt (text label)) → shown v →
  (info_line label v ;; k) s = k (mkChan (ch_in s) (ch_out s ++ line_of label v)).
Proof. intros Hl Hv. by rewrite (cbind_ext _ _ _ _ (info_line_say _ _ _ Hl Hv)). Qed.

Lemma usage_say p s : shown p → usage p s = say (line_of "Usage: " p) s.
Proof. intros Hp. unfold usage. by rewrite (chprintf_say [Txt (text "Usage: "); Arg p; Txt crlf]) by chunks. Qed.

Lemma cmd_info_eq args s : env_ok →
  cmd_info args s = say (if (0 <? length args)%nat then line_of "Usage: " (text "info") else info_text) s.
Proof.
  intros [He _]. unfold cmd_info. destruct (0 <? length args)%nat; [by apply usage_say, text_shown|].
  repeat (apply Forall_cons in He as [? He]). rewrite !info_then by chunks.
  rewrite (chprintf_say [Txt (text "Build time:   "); Arg build_date; Arg (text " - "); Arg build_time; Txt crlf]) by chunks.
  unfold info_text, line_of, say. cbn [ch_in ch_out]. by rewrite <-!app_assoc.
Qed.

Lemma cmd_systime_eq args s : env_ok →
  cmd_systime args s = say (if (0 <? length args)%nat then line_of "Usage: " (text "systime") else line_of "" (show 10 (system_time s))) s.
Proof.
  intros [_ He]. unfold cmd_systime. destruct (0 <? length args)%nat; [by apply usage_say, text_shown|].
  by rewrite (chprintf_say [Num (system_time s); Txt crlf]) by chunks.
Qed.

Lemma local_shown : Forall (λ c, shown (sc_name c)) local_commands.
Proof. repeat constructor; by apply text_shown. Qed.

Lemma builtins_shown : Forall (λ c, shown (sc_name c)) builtins.
Proof. repeat constructor; by apply text_shown. Qed.

Lemma local_command name args s : env_ok → Forall (λ c, 0 < c) name →
  cmdexec local_commands name args s = match head (filter (λ c, same_name (sc_name c) name) builtins) with
                                       | Some c => (sc_function c args ;; mret false) s
                                       | None => Some (true, s)
                                       end.
Proof.
  intros He Hn. rewrite cmdexec_eq by (done || apply local_shown). unfold local_commands, builtins. rewrite !filter_cons. cbn [sc_name].
  destruct (decide (same_name (text "info") name)); [by apply cbind_ext, cmd_info_eq|].
  destruct (decide (same_name (text "systime") name)); [by apply cbind_ext, cmd_systime_eq|done].
Qed.

(** ** The shell follows the interpreter *)

Lemma app_commands_say : Forall (λ c, shown (sc_name c)) (default [] scp) → ∀ s,
  match scp with Some scp => list_commands scp | None => mret () end s = say (concat ((λ c, sc_name c ++ [32]) <$> default [] scp)) s.
Proof. intros Happ s. destruct scp; [by apply list_commands_say|]. unfold say. simpl. rewrite app_nil_r. by destruct s. Qed.

Lemma unknown_say cmd s : shown cmd →
  (_ ← chprintf (text "%s") [AStr (Some cmd)]; _ ← chprintf (text " ?" ++ crlf) []; mret true) s = (say (cmd ++ text " ?" ++ crlf) ;; mret true) s.
Proof.
  intros Hc. rewrite (say_bind _ cmd).
  - rewrite say_then, said by done. cbn [ch_in ch_out]. by rewrite <-app_assoc.
  - rewrite (chprintf_say [Arg cmd]) by chunks. by rewrite <-(app_nil_r cmd) at 2.
Qed.

Lemma execute_eq cmd args s : env_ok → Forall (λ c, shown (sc_name c)) (default [] scp) → shown cmd →
  (length args ≤ SHELL_MAX_ARGUMENTS)%nat → execute scp cmd args s = interpret (cmd :: args) s.
Proof.
  intros He Happ Hc Ha. unfold execute, interpret.
  assert ((SHELL_MAX_ARGUMENTS <? length args)%nat = false) as -> by (by apply Nat.ltb_ge).
  pose proof (shown_pos _ Hc) as Hp.
  assert (shown (text "exit") ∧ shown (text "help")) as [Hexit Hhelp] by (split; by apply text_shown).
  rewrite !strcasecmp_eq by (done || by apply shown_pos).
  case_bool_decide as Hex; [rewrite decide_True by done|rewrite decide_False by done].
  { destruct (0 <? length args)%nat; [|done]. by rewrite (cbind_ext _ _ _ _ (usage_say _ _ Hexit)). }
  case_bool_decide as Hh; [rewrite decide_True by done|rewrite decide_False by done].
  { destruct (0 <? length args)%nat; [by rewrite (cbind_ext _ _ _ _ (usage_say _ _ Hhelp))|].
    rewrite say_then by done. rewrite (cbind_ext _ _ _ _ (list_commands_say _ local_shown _)), said.
    rewrite (cbind_ext _ _ _ _ (app_commands_say Happ _)), said, say_then, said by done. cbn [ch_in ch_out].
    unfold commands. rewrite fmap_app, concat_app. by rewrite <-!app_assoc. }
  unfold find_command, commands. rewrite filter_app, head_app.
  rewrite (cbind_ext _ (λ s, match head (filter (λ c, same_name (sc_name c) cmd) builtins) with
                             | Some c => (sc_function c args ;; mret false) s | None => Some (true, s) end))
    by (by apply local_command).
  destruct (head (filter _ builtins)) as [c|]; [unfold mbind, stM_bind; by destruct (sc_function c args s) as [[? ?]|]|].
  rewrite (cbind_done _ _ _ true s) by done. cbn iota beta.
  destruct scp as [tbl|]; [change (default [] (Some tbl)) with tbl in *|by apply unknown_say].
  rewrite (cbind_ext _ (λ s, match head (filter (λ c, same_name (sc_name c) cmd) tbl) with
                             | Some c => (sc_function c args ;; mret false) s | None => Some (true, s) end))
    by (by apply cmdexec_eq).
  match goal with |- context [head (filter _ tbl)] => destruct (head (filter _ tbl)) as [c|] end; [unfold mbind, stM_bind; by destruct (sc_function c args s) as [[? ?]|]|by apply unknown_say].
Qed.

Lemma pieces_ok (P : Z → Prop) l : Forall P l → Forall (λ w, Forall P w ∧ (length w ≤ length l)%nat) (pieces l).
Proof.
  induction 1 as [|c l Hc _ IH]; simpl; [by repeat constructor|]. destruct (pieces l) as [|w ws]; [constructor|].
  apply Forall_cons in IH as [[Hw Hlw] IH].
  assert (Forall (λ w, Forall P w ∧ (length w ≤ S (length l))%nat) ws) as Hws
    by (eapply Forall_impl; [exact IH|]; intros x [Hx Hlx]; split; [done|lia]).
  destruct (blank c); (constructor; [split; [by repeat constructor|simpl; lia]|]); [|done].
  constructor; [split; [done|lia]|done].
Qed.

Lemma words_shown l : line_ok SHELL_MAX_LINE_LENGTH l → Forall shown (words l).
Proof.
  intros [Hl Hs]. apply Forall_forall. intros w [_ Hw]%list_elem_of_filter.
  pose proof (pieces_ok _ _ Hl) as Hp. rewrite Forall_forall in Hp. destruct (Hp w Hw) as [Hwc Hwl].
  split; [eapply Forall_impl; [exact Hwc|]; simpl; lia|]. unfold SHELL_MAX_LINE_LENGTH in Hs. lia.
Qed.

Lemma cderef_then {A B} (o : option A) a (k : A → stM channel B) s : o = Some a → (cderef o ≫= k) s = k a s.
Proof. by intros ->. Qed.

(** One iteration. *)
Lemma shell_step_eq line s : env_ok → Forall (λ c, shown (sc_name c)) (default [] scp) → length line = SHELL_MAX_LINE_LENGTH →
  Forall (λ c, 0 ≤ c < 256) (ch_in s) →
  let '(e, rest, x) := edit SHELL_MAX_LINE_LENGTH [] (ch_in s) in
  let out := ch_out s ++ text "ch> " ++ e in
  ∃ line', length line' = SHELL_MAX_LINE_LENGTH ∧
    shell_step scp line s = match x with
                            | None => Some (false, line', mkChan rest (out ++ crlf ++ text "logout"))
                            | Some l => (go ← interpret (words l); mret (go, line')) (mkChan rest out)
                            end.
Proof.
  intros He Happ Hl Hb. unfold shell_step. rewrite say_then by done.
  destruct (getline_ok (ch_in s) (S (length (ch_in s))) [] line SHELL_MAX_LINE_LENGTH (mkChan (ch_in s) (ch_out s ++ text "ch> ")) eq_refl)
    as (line' & Hl' & HE); [simpl; lia|done|done|unfold SHELL_MAX_LINE_LENGTH; simpl; lia|].
  pose proof (edit_ok SHELL_MAX_LINE_LENGTH (ch_in s) [] Hb) as Hok.
  destruct (edit SHELL_MAX_LINE_LENGTH [] (ch_in s)) as [[e rest] x]. destruct HE as [E HE]. cbn [ch_out] in E. rewrite <-app_assoc in E.
  rewrite (cbind_done _ _ _ _ _ (E : shellGetLine line SHELL_MAX_LINE_LENGTH _ = _)). destruct x as [l|]; cycle 1.
  { exists line'. split; [done|]. by rewrite say_then. }
  destruct (HE l eq_refl) as [post ->]. 
  assert (line_ok SHELL_MAX_LINE_LENGTH l) as Hlok.
  { apply Hok; [|done]. split; [constructor|unfold SHELL_MAX_LINE_LENGTH; simpl; lia]. }
  destruct (line_words SHELL_MAX_ARGUMENTS l post (line_no_zero _ _ Hlok)) as (lp & line1 & tokp & args & line2 & E1 & E2 & Hl2 & Hlp & HF).
  exists line2. split; [by rewrite Hl2|].
  cbn iota beta. rewrite (cderef_then _ _ _ _ E1). cbn iota beta.
  rewrite (cderef_then _ _ _ _ E2). cbn iota beta.
  pose proof (words_shown _ Hlok) as Hsh.
  destruct (Nat.ltb_spec SHELL_MAX_ARGUMENTS (length (tail (words l)))) as [Hm|Hm].
  - rewrite say_then by done. destruct (words l) as [|cmd ws]; [simpl in Hm; lia|]. unfold interpret.
    by rewrite (proj2 (Nat.ltb_lt _ _)) by done.
  - specialize (HF Hm). destruct lp as [q|]; [|by rewrite (proj1 Hlp)].
    destruct (words l) as [|cmd ws]; apply Forall2_cons in HF as [Hq Hws] || inversion HF.
    rewrite (cderef_then _ _ _ _ Hq).
    rewrite (cderef_then _ _ _ _ (mapM_Some_2 _ _ _ Hws)).
    apply Forall_cons in Hsh as [Hsc _]. by apply cbind_ext, execute_eq.
Qed.

(** A line ends, and leaves what is behind it in the input. *)
Lemma interpret_ok ws s : Forall command_ok (default [] scp) → ∃ go s', interpret ws s = Some (go, s') ∧ ch_in s' `suffix_of` ch_in s.
Proof.
  intros Happ. destruct ws as [|cmd args]; [by eexists _, _|]. unfold interpret.
  assert (∀ t, ∃ go s', (say t ;; mret true) s = Some (go, s') ∧ ch_in s' `suffix_of` ch_in s) as Hsay by (intros t; by eexists _, _).
  destruct (_ <? _)%nat; [apply Hsay|].
  destruct (decide _); [destruct (_ <? _)%nat; [apply Hsay|by eexists _, _]|].
  destruct (decide _); [destruct (_ <? _)%nat; apply Hsay|].
  destruct (find_command cmd) as [c|] eqn:Ec; [|apply Hsay].
  assert (c ∈ commands) as Hc.
  { unfold find_command in Ec. destruct (filter _ commands) as [|c' l] eqn:El; [done|]. injection Ec as ->.
    assert (c ∈ c :: l) as Hin by by left. rewrite <-El in Hin. by apply list_elem_of_filter in Hin as [_ ?]. }
  apply elem_of_app in Hc as [Hc|Hc].
  - apply elem_of_cons in Hc as [->|Hc]; [by eexists _, _|].
    apply list_elem_of_singleton in Hc as ->. by eexists _, _.
  - rewrite Forall_forall in Happ. destruct (Happ c Hc) as [_ Hrun]. destruct (Hrun args s) as (s' & E & Hs).
    exists true, s'. by rewrite (cbind_done _ _ _ _ _ E).
Qed.

Lemma edit_shorter size input : ∀ l x, (edit size l input).2 = Some x → (length (edit size l input).1.2 < length input)%nat.
Proof.
  induction input as [|c input IH]; intros l x; simpl; [done|]. destruct (c =? 4); [done|]. destruct (c =? 13); [simpl; lia|].
  pose proof (IH (key size l c) x) as HI. destruct (edit size (key size l c) input) as [[e r] y]. simpl in *. intros E. specialize (HI E). lia.
Qed.

Lemma names_shown tbl : Forall command_ok tbl → Forall (λ c, shown (sc_name c)) tbl.
Proof. intros H0. eapply Forall_impl; [exact H0|]. by intros c [? _]. Qed.

Lemma suffix_bytes (P : Z → Prop) l k : l `suffix_of` k → Forall P k → Forall P l.
Proof. intros [t ->] [_ ?]%Forall_app. done. Qed.

(** The loop follows the session, and a session ends: every line takes a byte. *)
Lemma shell_loop_eq n : env_ok → Forall command_ok (default [] scp) → ∀ line s, length line = SHELL_MAX_LINE_LENGTH →
  Forall (λ c, 0 ≤ c < 256) (ch_in s) → (length (ch_in s) < n)%nat →
  ∃ s', shell_loop n scp line s = Some (tt, s') ∧ session n s = Some (tt, s').
Proof.
  intros He Happ. induction n as [|n IH]; intros line s Hl Hb Hn; [lia|]. cbn [shell_loop session].
  pose proof (shell_step_eq line s He (names_shown _ Happ) Hl Hb) as Hstep.
  destruct (edit_rest SHELL_MAX_LINE_LENGTH (ch_in s) []) as [_ Hrest].
  pose proof (edit_shorter SHELL_MAX_LINE_LENGTH (ch_in s) []) as Hlt.
  destruct (edit SHELL_MAX_LINE_LENGTH [] (ch_in s)) as [[e rest] x]. cbn [fst snd] in *. destruct Hstep as (line' & Hl' & Hstep).
  destruct x as [l|]; cycle 1.
  { eexists. by rewrite (cbind_done _ _ _ _ _ Hstep). }
  specialize (Hlt l eq_refl).
  destruct (interpret_ok (words l) (mkChan rest (ch_out s ++ text "ch> " ++ e)) Happ) as (go & s1 & E & Hs1). cbn [ch_in] in Hs1.
  rewrite (cbind_done _ _ _ _ _ E) in Hstep. rewrite (cbind_done _ _ _ _ _ Hstep), (cbind_done _ _ _ _ _ E).
  destruct go; [|by eexists].
  apply IH; [done|by eapply suffix_bytes, suffix_bytes|]. apply suffix_length in Hs1. lia.
Qed.
End Session.

(** C12.  A shell session: whatever bytes come, in whatever order, until the channel is
    reset or closed, the thread returns, and what it has printed and done is what
    the interpreter of lines prescribes: a prompt and the echo of the keys for
    each line, and for its words the list of commands, the texts of info and
    systime, the usage of a command without parameters, the first command of the
    table with that name in either case, run on the other words, an unknown
    command or too many arguments reported, and the end at exit or at the end of
    the input.  The commands of the application may read and print what they
    like. *)
Theorem shell_session_correct `{ShellEnv} scp line input out :
  env_ok → Forall command_ok (default [] scp) → length line = SHELL_MAX_LINE_LENGTH → Forall (λ c, 0 ≤ c < 256) input →
  let n := S (length input) in
  ∃ s', shell_thread n scp line (mkChan input out) = Some (tt, s') ∧
    session scp n (mkChan input (out ++ crlf ++ text "ChibiOS/RT Shell" ++ crlf)) = Some (tt, s').
Proof.
  intros He Happ Hl Hb n. unfold shell_thread. rewrite say_then by done. apply shell_loop_eq; [done..|simpl; lia].
Qed.
