(* ===== verification/ShellExamples.v ===== *)
(** * The shell at concrete inputs

    A configuration, an application with one command, and sessions: the theorems
    about the shell applied to them. *)

From Stdlib Require Import String Ascii.
From S2P Require Import Prelude TimeMeas Kernel Streams Printf Shell ShellProps ShellSession.

#[local] Instance ex_env : ShellEnv := {|
  CH_KERNEL_VERSION := text "3.0.0"; PORT_COMPILER_NAME := text "GCC"; PORT_ARCHITECTURE_NAME := text "ARMv7E-M";
  PORT_CORE_VARIANT_NAME := text "Cortex-M4F"; PORT_INFO := text "Advanced kernel mode"; PLATFORM_NAME := text "STM32F4xx";
  BOARD_NAME := text "Discovery"; build_date := text "Jan  1 2016"; build_time := text "00:00:00";
  system_time := λ _, 42; tmpbuf := replicate 23 0; tmpbuf_size := eq_refl |}.

(** A command of an application: the number of its arguments. *)
Definition ex_count : ShellCommand := mkCommand (text "count") (λ args, say (48 + Z.of_nat (length args) :: crlf)).
Definition ex_table : option (list ShellCommand) := Some [ex_count].

Lemma ex_env_ok : env_ok.
Proof. split; [repeat constructor; simpl; try lia; done|intros s; simpl; lia]. Qed.
Lemma ex_table_ok : Forall command_ok (default [] ex_table).
Proof. constructor; [|constructor]. split; [by apply text_shown|]. intros args s. by eexists. Qed.

Definition ex_line : list Z := replicate SHELL_MAX_LINE_LENGTH 7.
Definition return_key : list Z := [13].
(** Typed with errors, in upper case, with too many arguments and unknown. *)
Definition ex_input : list Z :=
  text " COUNT  a  bc " ++ return_key ++ text "systx" ++ [8] ++ text "ime" ++ return_key ++ text "info now" ++ return_key ++
  text "count 1 2 3 4 5" ++ return_key ++ text "foo" ++ return_key ++ return_key ++ text "exit" ++ return_key ++ text "rest".

Definition output (r : option (unit * channel)) : option (list Z * list Z) := '(_, s) ← r; Some (ch_out s, ch_in s).

Example ex_session_output :
  output (shell_thread (S (length ex_input)) ex_table ex_line (mkChan ex_input [])) =
  Some (crlf ++ text "ChibiOS/RT Shell" ++ crlf ++
        text "ch>  COUNT  a  bc " ++ crlf ++ text "2" ++ crlf ++
        text "ch> systx" ++ [8; 32; 8] ++ text "ime" ++ crlf ++ text "42" ++ crlf ++
        text "ch> info now" ++ crlf ++ text "Usage: info" ++ crlf ++
        text "ch> count 1 2 3 4 5" ++ crlf ++ text "too many arguments" ++ crlf ++
        text "ch> foo" ++ crlf ++ text "foo ?" ++ crlf ++
        text "ch> " ++ crlf ++
        text "ch> exit" ++ crlf, text "rest").
Proof. vm_compute. reflexivity. Qed.

Lemma ex_bytes l : forallb (λ c, (0 <=? c) && (c <? 256)) l = true → Forall (λ c, 0 ≤ c < 256) l.
Proof.
  intros Hl. apply Forall_forall. intros c Hc. rewrite forallb_forall in Hl. specialize (Hl c (proj1 (list_elem_of_In _ _) Hc)). lia.
Qed.

Lemma shell_session_correct_witness :
  ∃ s', shell_thread (S (length ex_input)) ex_table ex_line (mkChan ex_input []) = Some (tt, s') ∧
    session ex_table (S (length ex_input)) (mkChan ex_input ([] ++ crlf ++ text "ChibiOS/RT Shell" ++ crlf)) = Some (tt, s').
Proof.
  apply (shell_session_correct ex_table ex_line ex_input []); [apply ex_env_ok|apply ex_table_ok|reflexivity|].
  apply ex_bytes. vm_compute. reflexivity.
Defined.

Lemma strtok_words_witness :
  ∃ lp line1 tokp args line2,
    _strtok (Some 0%nat) delimiters (text " set  on 1 " ++ 0 :: [9; 9]) None = Some (lp, line1, tokp) ∧
    collect_args 4 line1 tokp [] = Some (args, false, line2) ∧
    length line2 = 14%nat ∧ (lp = None ↔ words (text " set  on 1 ") = []) ∧
    (2 ≤ 4 → Forall2 (λ q w, cstr (drop q line2) = Some w) (option_list lp ++ args) [text "set"; text "on"; text "1"])%nat.
Proof. apply (strtok_words 4 (text " set  on 1 ") [9; 9]). repeat constructor; discriminate. Defined.

Definition ex_keys : list Z := text "lz" ++ [8; 7] ++ text "s".
Definition ex_prompt : term := mkTerm (text "ch> ") 4.

