(* ===== verification/Nil.v ===== *)
(** * The Nil kernel
      (os/nil/src/nil.c, os/nil/include/nil.h, os/hal/src/st.c,
      os/hal/osal/nil/osal.c)

    The small kernel of the repository, an alternative to the one in os/rt: a
    fixed array of threads whose index is the priority (0 is the highest, the
    last one is the idle thread), no queues.  Both variants of the timer are
    modelled: the periodic tick ([NIL_CFG_ST_TIMEDELTA = 0]) and the tick-less
    one.  Assertions are on. *)

From S2P Require Import Prelude.

(** ** Configuration *)

(** The number of threads, the minimum timeout and the width of [systime_t], with
    what the #error directives of nil.h check. *)
Class NilCfg := {
  NIL_CFG_NUM_THREADS : nat;
  NIL_CFG_ST_TIMEDELTA : Z;
  NIL_CFG_ST_RESOLUTION : Z;
  cfg_threads : (1 ≤ NIL_CFG_NUM_THREADS ≤ 12)%nat;
  cfg_resolution : NIL_CFG_ST_RESOLUTION = 16 ∨ NIL_CFG_ST_RESOLUTION = 32;
  cfg_timedelta : NIL_CFG_ST_TIMEDELTA = 0 ∨ 2 ≤ NIL_CFG_ST_TIMEDELTA < 2 ^ NIL_CFG_ST_RESOLUTION
}.

(** ** Data *)

Inductive tstate := NIL_STATE_READY | NIL_STATE_SLEEPING | NIL_STATE_SUSP | NIL_STATE_WTSEM | NIL_STATE_WTOREVT.
#[export] Instance tstate_eq_dec : EqDecision tstate.
Proof. solve_decision. Defined.

(** The union [u1] is the 32-bit word it occupies, whatever was stored last: a
    message, the address of a thread reference or of a semaphore, or a mask. *)
Record thread := mkThread { state : tstate; u1 : Z; timeout : Z; epmask : Z }.
Definition set_state (v : tstate) (t : thread) : thread := mkThread v (u1 t) (timeout t) (epmask t).
Definition set_u1 (v : Z) (t : thread) : thread := mkThread (state t) v (timeout t) (epmask t).
Definition set_timeout (v : Z) (t : thread) : thread := mkThread (state t) (u1 t) v (epmask t).
Definition set_epmask (v : Z) (t : thread) : thread := mkThread (state t) (u1 t) (timeout t) v.

(** The structure [nil], with the semaphores and thread references of the
    application by address, and of the port: the interrupt mask, the timer's
    counter and its alarm. A thread is its index. *)
Record nil_system := mkNil {
  current : nat;
  next : nat;
  systime : Z;
  lasttime : Z;
  nexttime : Z;
  threads : list thread;
  sems : gmap Z Z;
  trefs : gmap Z (option nat);
  locked : bool;
  counter : Z;
  alarm : Z;
  alarm_active : bool
}.
Definition set_current (v : nat) (s : nil_system) : nil_system :=
  mkNil v (next s) (systime s) (lasttime s) (nexttime s) (threads s) (sems s) (trefs s) (locked s) (counter s) (alarm s) (alarm_active s).
Definition set_next (v : nat) (s : nil_system) : nil_system :=
  mkNil (current s) v (systime s) (lasttime s) (nexttime s) (threads s) (sems s) (trefs s) (locked s) (counter s) (alarm s) (alarm_active s).
Definition set_systime (v : Z) (s : nil_system) : nil_system :=
  mkNil (current s) (next s) v (lasttime s) (nexttime s) (threads s) (sems s) (trefs s) (locked s) (counter s) (alarm s) (alarm_active s).
Definition set_lasttime (v : Z) (s : nil_system) : nil_system :=
  mkNil (current s) (next s) (systime s) v (nexttime s) (threads s) (sems s) (trefs s) (locked s) (counter s) (alarm s) (alarm_active s).
Definition set_nexttime (v : Z) (s : nil_system) : nil_system :=
  mkNil (current s) (next s) (systime s) (lasttime s) v (threads s) (sems s) (trefs s) (locked s) (counter s) (alarm s) (alarm_active s).
Definition set_threads (v : list thread) (s : nil_system) : nil_system :=
  mkNil (current s) (next s) (systime s) (lasttime s) (nexttime s) v (sems s) (trefs s) (locked s) (counter s) (alarm s) (alarm_active s).
Definition set_sems (v : gmap Z Z) (s : nil_system) : nil_system :=
  mkNil (current s) (next s) (systime s) (lasttime s) (nexttime s) (threads s) v (trefs s) (locked s) (counter s) (alarm s) (alarm_active s).
Definition set_trefs (v : gmap Z (option nat)) (s : nil_system) : nil_system :=
  mkNil (current s) (next s) (systime s) (lasttime s) (nexttime s) (threads s) (sems s) v (locked s) (counter s) (alarm s) (alarm_active s).
Definition set_locked (v : bool) (s : nil_system) : nil_system :=
  mkNil (current s) (next s) (systime s) (lasttime s) (nexttime s) (threads s) (sems s) (trefs s) v (counter s) (alarm s) (alarm_active s).
Definition set_counter (v : Z) (s : nil_system) : nil_system :=
  mkNil (current s) (next s) (systime s) (lasttime s) (nexttime s) (threads s) (sems s) (trefs s) (locked s) v (alarm s) (alarm_active s).
Definition set_alarm (v : Z) (s : nil_system) : nil_system :=
  mkNil (current s) (next s) (systime s) (lasttime s) (nexttime s) (threads s) (sems s) (trefs s) (locked s) (counter s) v (alarm_active s).
Definition set_alarm_active (v : bool) (s : nil_system) : nil_system :=
  mkNil (current s) (next s) (systime s) (lasttime s) (nexttime s) (threads s) (sems s) (trefs s) (locked s) (counter s) (alarm s) v.

(** ** Computations

    As for the RT kernel: a result, a failed assertion, undefined behaviour, or a
    context switch. *)

Inductive nres (A : Type) : Type :=
  | NDone (a : A) (s : nil_system)
  | NHalt (reason : string)
  | NFault
  | NSwitch (s : nil_system) (k : nil_system → nres A).
Arguments NDone {A} _ _.
Arguments NHalt {A} _.
Arguments NFault {A}.
Arguments NSwitch {A} _ _.

Definition NM (A : Type) : Type := nil_system → nres A.

Fixpoint nbind {A B} (r : nres A) (k : A → nil_system → nres B) : nres B :=
  match r with
  | NDone a s => k a s
  | NHalt m => NHalt m
  | NFault => NFault
  | NSwitch s c => NSwitch s (λ s', nbind (c s') k)
  end.
#[export] Instance NM_ret : MRet NM := λ A a s, NDone a s.
#[export] Instance NM_bind : MBind NM := λ A B k m s, nbind (m s) k.

Definition ngets {A} (f : nil_system → A) : NM A := λ s, NDone (f s) s.
Definition nmod (f : nil_system → nil_system) : NM unit := λ s, NDone tt (f s).
Definition nderef {A} (f : nil_system → option A) : NM A := λ s, match f s with Some a => NDone a s | None => NFault end.
Definition nwhen (b : bool) (m : NM unit) : NM unit := if b then m else mret ().

(** The messages and the special times. *)
Definition MSG_OK : Z := 0.
Definition MSG_TIMEOUT : Z := -1.
Definition MSG_RESET : Z := -2.
Definition TIME_INFINITE : Z := 0.

Section Nil.
Context `{NilCfg}.

(** [systime_t] arithmetic. *)
Definition st (x : Z) : Z := x `mod` 2 ^ NIL_CFG_ST_RESOLUTION.
Definition TIME_IMMEDIATE : Z := st (-1).
(** A difference outside of a cast: operands of 16 bits are promoted to [int]. *)
Definition st_diff (x y : Z) : Z := if NIL_CFG_ST_RESOLUTION =? 16 then x - y else st (x - y).

Definition chDbgAssert (c : bool) (func : string) : NM unit := λ s, if c then NDone tt s else NHalt func.

Definition NIL_THD_IS_READY (t : thread) : bool := bool_decide (state t = NIL_STATE_READY).
Definition NIL_THD_IS_SUSP (t : thread) : bool := bool_decide (state t = NIL_STATE_SUSP).
Definition NIL_THD_IS_WTSEM (t : thread) : bool := bool_decide (state t = NIL_STATE_WTSEM).
Definition NIL_THD_IS_WTOREVT (t : thread) : bool := bool_decide (state t = NIL_STATE_WTOREVT).

(** ** Objects *)

Definition thr (i : nat) : NM thread := nderef (λ s, threads s !! i).
Definition upd_thr (i : nat) (f : thread → thread) : NM unit :=
  thr i ;; nmod (λ s, set_threads (alter f i (threads s)) s).
Definition chSemGetCounterI (sp : Z) : NM Z := nderef (λ s, sems s !! sp).
Definition set_cnt (sp c : Z) : NM unit := nmod (λ s, set_sems (<[sp := c]> (sems s)) s).
(** [++sp->cnt] and [cnt - 1] of [cnt_t]; a signed overflow is undefined. *)
Definition cnt_inc (sp : Z) : NM Z :=
  c ← chSemGetCounterI sp;
  if c <? INT32_MAX then set_cnt sp (c + 1) ;; mret (c + 1) else λ _, NFault.
Definition tref (trp : Z) : NM (option nat) := nderef (λ s, trefs s !! trp).
Definition set_tref (trp : Z) (v : option nat) : NM unit :=
  tref trp ;; nmod (λ s, set_trefs (<[trp := v]> (trefs s)) s).

(** ** The port *)

Definition chSysLock : NM unit := nmod (set_locked true).
Definition chSysUnlock : NM unit := nmod (set_locked false).
Definition chSysLockFromISR : NM unit := nmod (set_locked true).
Definition chSysUnlockFromISR : NM unit := nmod (set_locked false).

(** The thread [otp] goes on when it is made current again. *)
Definition port_switch (ntp otp : nat) : NM unit := λ s, NSwitch s (λ s', NDone tt s').

(** The alarm of the timer (st.c on the registers of a TIM cell). *)
Definition st_lld_start_alarm (abstime : Z) : NM unit := nmod (λ s, set_alarm_active true (set_alarm abstime s)).
Definition st_lld_stop_alarm : NM unit := nmod (set_alarm_active false).
Definition st_lld_set_alarm (abstime : Z) : NM unit := nmod (set_alarm abstime).
Definition stStartAlarm (abstime : Z) : NM unit :=
  a ← ngets alarm_active; chDbgAssert (negb a) "stStartAlarm" ;; st_lld_start_alarm abstime.
Definition stStopAlarm : NM unit := st_lld_stop_alarm.
Definition stSetAlarm (abstime : Z) : NM unit :=
  a ← ngets alarm_active; chDbgAssert a "stSetAlarm" ;; st_lld_set_alarm abstime.
Definition stGetAlarm : NM Z :=
  a ← ngets alarm_active; chDbgAssert a "stGetAlarm" ;; ngets alarm.

Definition chVTGetSystemTimeX : NM Z := if NIL_CFG_ST_TIMEDELTA =? 0 then ngets systime else ngets counter.
Definition chVTTimeElapsedSinceX (start : Z) : NM Z := now ← chVTGetSystemTimeX; mret (st (now - start)).
Definition chVTIsTimeWithinX (time start end_ : Z) : bool := st (time - start) <? st (end_ - start).

(** ** Scheduler *)

Definition chSchIsRescRequiredI : NM bool := ngets (λ s, negb (current s =? next s)%nat).

Definition chSchReadyI (tp : nat) (msg : Z) : NM nat :=
  chDbgAssert (tp <? NIL_CFG_NUM_THREADS)%nat "chSchReadyI" ;;
  th ← thr tp;
  chDbgAssert (negb (NIL_THD_IS_READY th)) "chSchReadyI" ;;
  s ← ngets id;
  chDbgAssert (next s <=? current s)%nat "chSchReadyI" ;;
  upd_thr tp (λ t, set_timeout 0 (set_state NIL_STATE_READY (set_u1 (u32 msg) t))) ;;
  nwhen (tp <? next s)%nat (nmod (set_next tp)) ;;
  mret tp.

Definition chSchRescheduleS : NM unit :=
  b ← chSchIsRescRequiredI;
  nwhen b (s ← ngets id; nmod (set_current (next s)) ;; port_switch (next s) (current s)).

(** The scan of the threads for the first that is ready, from [i] on. *)
Fixpoint scan_ready (fuel i : nat) : NM nat :=
  match fuel with
  | O => λ _, NFault
  | S fuel =>
      th ← thr i;
      if NIL_THD_IS_READY th then mret i
      else chDbgAssert (S i <=? NIL_CFG_NUM_THREADS)%nat "chSchGoSleepTimeoutS" ;; scan_ready fuel (S i)
  end.

(** The time out of the current thread, in the tick-less variant. *)
Definition start_timeout (otp : nat) (timeout : Z) : NM unit :=
  let timeout := if timeout <? NIL_CFG_ST_TIMEDELTA then NIL_CFG_ST_TIMEDELTA else timeout in
  now ← chVTGetSystemTimeX;
  let abstime := st (now + timeout) in
  s ← ngets id;
  (if lasttime s =? nexttime s then stStartAlarm abstime ;; nmod (set_nexttime abstime)
   else nwhen (chVTIsTimeWithinX abstime (lasttime s) (nexttime s)) (stSetAlarm abstime ;; nmod (set_nexttime abstime))) ;;
  upd_thr otp (set_timeout (st (abstime - lasttime s))).

Definition chSchGoSleepTimeoutS (newstate : tstate) (timeout : Z) : NM Z :=
  otp ← ngets current;
  chDbgAssert (negb (otp =? NIL_CFG_NUM_THREADS)%nat) "chSchGoSleepTimeoutS" ;;
  upd_thr otp (set_state newstate) ;;
  (if 0 <? NIL_CFG_ST_TIMEDELTA then nwhen (negb (timeout =? TIME_INFINITE)) (start_timeout otp timeout)
   else upd_thr otp (set_timeout timeout)) ;;
  ntp ← scan_ready (S NIL_CFG_NUM_THREADS) 0;
  nmod (set_current ntp) ;; nmod (set_next ntp) ;;
  port_switch ntp otp ;;
  me ← ngets current;
  th ← thr me;
  mret (s32 (u1 th)).

Definition chSysInit : NM unit :=
  nmod (set_current 0) ;; nmod (set_next 0) ;;
  port_switch 0 NIL_CFG_NUM_THREADS ;;
  chSysUnlock.

(** ** Time *)

(** The end of a timeout: the semaphore or the reference the thread waits on. *)
Definition timed_out (tp : nat) : NM unit :=
  th ← thr tp;
  (if NIL_THD_IS_WTSEM th then _ ← cnt_inc (u1 th); mret ()
   else nwhen (NIL_THD_IS_SUSP th) (set_tref (u1 th) None)) ;;
  _ ← chSchReadyI tp MSG_TIMEOUT;
  mret ().

(** The periodic tick, for [k] threads from [tp] on. *)
Fixpoint tick_loop (k tp : nat) : NM unit :=
  match k with
  | O => mret ()
  | S k =>
      th ← thr tp;
      nwhen (0 <? timeout th)
        (chDbgAssert (negb (NIL_THD_IS_READY th)) "chSysTimerHandlerI" ;;
         upd_thr tp (set_timeout (timeout th - 1)) ;;
         nwhen (timeout th - 1 =? 0) (timed_out tp)) ;;
      chSysUnlockFromISR ;; chSysLockFromISR ;;
      tick_loop k (S tp)
  end.

(** The tick-less variant; the result is the variable [next]. *)
Fixpoint alarm_loop (k tp : nat) (next : Z) : NM Z :=
  match k with
  | O => mret next
  | S k =>
      th ← thr tp;
      s ← ngets id;
      next ← (if 0 <? timeout th then
                chDbgAssert (negb (NIL_THD_IS_READY th)) "chSysTimerHandlerI" ;;
                chDbgAssert (st_diff (nexttime s) (lasttime s) <=? timeout th) "chSysTimerHandlerI" ;;
                let t := st (timeout th - st_diff (nexttime s) (lasttime s)) in
                upd_thr tp (set_timeout t) ;;
                if t =? 0 then timed_out tp ;; mret next
                else mret (if t <=? st (next - 1) then t else next)
              else mret next);
      chSysUnlockFromISR ;; chSysLockFromISR ;;
      alarm_loop k (S tp) next
  end.

Definition chSysTimerHandlerI : NM unit :=
  if NIL_CFG_ST_TIMEDELTA =? 0 then
    nmod (λ s, set_systime (st (systime s + 1)) s) ;;
    tick_loop NIL_CFG_NUM_THREADS 0
  else
    s ← ngets id;
    a ← stGetAlarm;
    chDbgAssert (nexttime s =? a) "chSysTimerHandlerI" ;;
    next ← alarm_loop NIL_CFG_NUM_THREADS 0 0;
    nmod (λ s, set_lasttime (nexttime s) s) ;;
    if 0 <? next then
      nmod (λ s, set_nexttime (st (nexttime s + next)) s) ;;
      s ← ngets id; stSetAlarm (nexttime s)
    else stStopAlarm.

(** ** Threads *)

Definition chThdSuspendTimeoutS (trp timeout : Z) : NM Z :=
  r ← tref trp;
  chDbgAssert (bool_decide (r = None)) "chThdSuspendTimeoutS" ;;
  me ← ngets current;
  set_tref trp (Some me) ;;
  upd_thr me (set_u1 trp) ;;
  chSchGoSleepTimeoutS NIL_STATE_SUSP timeout.

Definition chThdResumeI (trp msg : Z) : NM unit :=
  r ← tref trp;
  match r with
  | None => mret ()
  | Some tr =>
      th ← thr tr;
      chDbgAssert (NIL_THD_IS_SUSP th) "chThdResumeI" ;;
      set_tref trp None ;;
      _ ← chSchReadyI tr msg; mret ()
  end.

Definition chThdSleepS (timeout : Z) : NM unit := _ ← chSchGoSleepTimeoutS NIL_STATE_SLEEPING timeout; mret ().
Definition chThdSleepUntilS (abstime : Z) : NM unit :=
  now ← chVTGetSystemTimeX; _ ← chSchGoSleepTimeoutS NIL_STATE_SLEEPING (st (abstime - now)); mret ().
Definition chThdSleep (timeout : Z) : NM unit := chSysLock ;; chThdSleepS timeout ;; chSysUnlock.
Definition chThdSleepUntil (abstime : Z) : NM unit := chSysLock ;; chThdSleepUntilS abstime ;; chSysUnlock.

(** ** Semaphores *)

Definition chSemObjectInit (sp n : Z) : NM unit := set_cnt sp n.

Definition chSemWaitTimeoutS (sp timeout : Z) : NM Z :=
  cnt ← chSemGetCounterI sp;
  if cnt <=? 0 then
    if timeout =? TIME_IMMEDIATE then mret MSG_TIMEOUT
    else if INT32_MIN <? cnt then
      set_cnt sp (cnt - 1) ;;
      me ← ngets current;
      upd_thr me (set_u1 sp) ;;
      chSchGoSleepTimeoutS NIL_STATE_WTSEM timeout
    else λ _, NFault
  else set_cnt sp (cnt - 1) ;; mret MSG_OK.

Definition chSemWaitTimeout (sp timeout : Z) : NM Z :=
  chSysLock ;; msg ← chSemWaitTimeoutS sp timeout; chSysUnlock ;; mret msg.

(** The scan for a thread whose word is the address [sp], from [tr] on. *)
Fixpoint sem_scan (fuel tr : nat) (sp : Z) (func : string) : NM nat :=
  match fuel with
  | O => λ _, NFault
  | S fuel =>
      th ← thr tr;
      if u1 th =? sp then mret tr
      else chDbgAssert (S tr <? NIL_CFG_NUM_THREADS)%nat func ;; sem_scan fuel (S tr) sp func
  end.

Definition chSemSignalI (sp : Z) : NM unit :=
  c ← cnt_inc sp;
  nwhen (c <=? 0)
    (tr ← sem_scan NIL_CFG_NUM_THREADS 0 sp "chSemSignalI";
     th ← thr tr;
     chDbgAssert (NIL_THD_IS_WTSEM th) "chSemSignalI" ;;
     _ ← chSchReadyI tr MSG_OK; mret ()).

Definition chSemSignal (sp : Z) : NM unit := chSysLock ;; chSemSignalI sp ;; chSchRescheduleS ;; chSysUnlock.

(** The loop of chSemResetI and of osalThreadDequeueAllI: [cnt] is the local
    copy of the counter. *)
Fixpoint sem_wake_loop (fuel tp : nat) (sp cnt msg : Z) (func : string) : NM unit :=
  if cnt <? 0 then
    match fuel with
    | O => λ _, NFault
    | S fuel =>
        chDbgAssert (tp <? NIL_CFG_NUM_THREADS)%nat func ;;
        th ← thr tp;
        cnt ← (if u1 th =? sp then
                 chDbgAssert (NIL_THD_IS_WTSEM th) func ;;
                 _ ← chSchReadyI tp msg;
                 mret (cnt + 1)
               else mret cnt);
        sem_wake_loop fuel (S tp) sp cnt msg func
    end
  else mret ().

Definition chSemResetI (sp n : Z) : NM unit :=
  cnt ← chSemGetCounterI sp;
  set_cnt sp n ;;
  sem_wake_loop (S NIL_CFG_NUM_THREADS) 0 sp cnt MSG_RESET "chSemResetI".

Definition chSemReset (sp n : Z) : NM unit := chSysLock ;; chSemResetI sp n ;; chSchRescheduleS ;; chSysUnlock.

(** Queues of the OSAL, semaphores on which threads always wait (osal.c). *)
Definition osalThreadDequeueNextI (sp msg : Z) : NM unit :=
  c ← chSemGetCounterI sp;
  nwhen (c <? 0)
    (tr ← sem_scan NIL_CFG_NUM_THREADS 0 sp "osalThreadDequeueNextI";
     _ ← cnt_inc sp;
     th ← thr tr;
     chDbgAssert (NIL_THD_IS_WTSEM th) "osalThreadDequeueNextI" ;;
     _ ← chSchReadyI tr msg; mret ()).

Definition osalThreadDequeueAllI (sp msg : Z) : NM unit :=
  cnt ← chSemGetCounterI sp;
  set_cnt sp 0 ;;
  sem_wake_loop (S NIL_CFG_NUM_THREADS) 0 sp cnt msg "osalThreadDequeueAllI".

Definition osalThreadEnqueueTimeoutS (sp timeout : Z) : NM Z := chSemWaitTimeout sp timeout.
Definition osalThreadResumeS (trp msg : Z) : NM unit := chThdResumeI trp msg ;; chSchRescheduleS.
Definition osalMutexObjectInit (mp : Z) : NM unit := chSemObjectInit mp 1.
Definition osalMutexLock (mp : Z) : NM unit := _ ← chSemWaitTimeout mp TIME_INFINITE; mret ().
Definition osalMutexUnlock (mp : Z) : NM unit := chSemSignal mp.

(** ** Events *)

Definition chEvtSignalI (tp : nat) (mask : Z) : NM unit :=
  upd_thr tp (λ t, set_epmask (Z.lor (epmask t) mask) t) ;;
  th ← thr tp;
  nwhen (NIL_THD_IS_WTOREVT th && negb (Z.land (epmask th) (u1 th) =? 0))
    (_ ← chSchReadyI tp MSG_OK; mret ()).

Definition chEvtSignal (tp : nat) (mask : Z) : NM unit := chSysLock ;; chEvtSignalI tp mask ;; chSchRescheduleS ;; chSysUnlock.

(** The served events [m] of the thread [ctp] are cleared. *)
Definition serve_events (ctp : nat) (m : Z) : NM Z :=
  upd_thr ctp (λ t, set_epmask (Z.land (epmask t) (not32 m)) t) ;; mret m.

(** On a timeout the kernel is unlocked before the return. *)
Definition chEvtWaitAnyTimeoutS (mask timeout : Z) : NM Z :=
  ctp ← ngets current;
  th ← thr ctp;
  let m := Z.land (epmask th) mask in
  if m =? 0 then
    if timeout =? TIME_IMMEDIATE then chSysUnlock ;; mret 0
    else
      upd_thr ctp (set_u1 mask) ;;
      msg ← chSchGoSleepTimeoutS NIL_STATE_WTOREVT timeout;
      if msg <? MSG_OK then chSysUnlock ;; mret 0
      else th ← thr ctp; serve_events ctp (Z.land (epmask th) mask)
  else serve_events ctp m.

Definition chEvtWaitAnyTimeout (mask timeout : Z) : NM Z :=
  chSysLock ;; m ← chEvtWaitAnyTimeoutS mask timeout; chSysUnlock ;; mret m.

(** ** Interrupts *)

(** The exit of a handler that returns to a thread (nilcore_v7m.c): the switch
    is made in the context of the interrupted thread. *)
Definition _port_switch_from_isr : NM unit := chSchRescheduleS ;; chSysUnlock.
Definition _port_irq_epilogue : NM unit :=
  chSysLockFromISR ;;
  b ← chSchIsRescRequiredI;
  if b : bool then _port_switch_from_isr else chSysUnlockFromISR.

(** ** Status words (nil.c), [true] stands for enabled interrupts *)

Definition chSysUnconditionalLock : NM unit := l ← ngets locked; nwhen (negb l) chSysLock.
Definition chSysUnconditionalUnlock : NM unit := l ← ngets locked; nwhen l chSysUnlock.
Definition chSysGetStatusAndLockX (isr : bool) : NM bool :=
  l ← ngets locked;
  nwhen (negb l) (if isr then chSysLockFromISR else chSysLock) ;;
  mret (negb l).
Definition chSysRestoreStatusX (isr sts : bool) : NM unit :=
  nwhen sts (if isr then chSysUnlockFromISR else chSchRescheduleS ;; chSysUnlock).
End Nil.
