(* ===== verification/NilInv.v ===== *)
(** * Invariants of the Nil kernel

    What holds of the threads, semaphores, references and of the timer between
    two kernel calls, and that every operation of Nil.v keeps it. *)

From S2P Require Import Prelude Nil.

(** ** Computations *)

(** [I] holds at each context switch; the computation is resumed in a state
    with [J]. *)
Fixpoint npost {A} (I J : nil_system → Prop) (r : nres A) (Q : A → nil_system → Prop) : Prop :=
  match r with
  | NDone a s => Q a s
  | NHalt _ | NFault => False
  | NSwitch s k => I s ∧ ∀ s', J s' → npost I J (k s') Q
  end.

Lemma npost_bind {A B} I J (r : nres A) (k : A → nil_system → nres B) Q :
  npost I J r (λ a s, npost I J (k a s) Q) → npost I J (nbind r k) Q.
Proof. induction r as [a s|m| |s c IH]; simpl; naive_solver. Qed.

Lemma npost_mono {A} (I J : nil_system → Prop) (r : nres A) (Q Q' : A → nil_system → Prop) :
  (∀ a s, Q a s → Q' a s) → npost I J r Q → npost I J r Q'.
Proof. induction r; simpl; naive_solver. Qed.

Lemma nbind_eq {A B} (m : NM A) (k : A → NM B) s : (m ≫= k) s = nbind (m s) k.
Proof. done. Qed.
Lemma nret_eq {A} (a : A) s : (mret a : NM A) s = NDone a s.
Proof. done. Qed.
Lemma nderef_eq {A} (f : nil_system → option A) a s : f s = Some a → nderef f s = NDone a s.
Proof. intros E. unfold nderef. by rewrite E. Qed.

(** A computation that returns goes on with what follows it. *)
Lemma nbind_done {A B} (m : NM A) (k : A → NM B) s a s' : m s = NDone a s' → (m ≫= k) s = k a s'.
Proof. intros E. by rewrite nbind_eq, E. Qed.

Section Inv.
Context `{NilCfg}.
Notation N := NIL_CFG_NUM_THREADS.

Lemma thr_eq i s th : threads s !! i = Some th → thr i s = NDone th s.
Proof. apply (nderef_eq (λ s, threads s !! i)). Qed.
Lemma upd_thr_eq i f s th :
  threads s !! i = Some th → upd_thr i f s = NDone tt (set_threads (<[i := f th]> (threads s)) s).
Proof.
  intros E. unfold upd_thr. rewrite (nbind_done _ _ _ _ _ (thr_eq _ _ _ E)). unfold nmod. f_equal. f_equal.
  apply list_eq. intros j. destruct (decide (i = j)) as [<-|Hij].
  - rewrite list_lookup_alter_eq, E. simpl. symmetry. apply list_lookup_insert_eq. by eapply lookup_lt_Some.
  - by rewrite list_lookup_alter_ne, list_lookup_insert_ne.
Qed.
Lemma nassert_eq c f s : c = true → chDbgAssert c f s = NDone tt s.
Proof. intros ->. done. Qed.

(** ** Objects *)

(** How many of the threads [l] wait on the semaphore [a]. *)
Definition w1 (a : Z) (th : thread) : nat :=
  match state th with NIL_STATE_WTSEM => if u1 th =? a then 1%nat else 0%nat | _ => 0%nat end.
Fixpoint waiters (a : Z) (l : list thread) : nat := match l with [] => 0%nat | th :: l => (w1 a th + waiters a l)%nat end.

Lemma w1_1 a th : w1 a th = 1%nat ↔ state th = NIL_STATE_WTSEM ∧ u1 th = a.
Proof. unfold w1. destruct (state th); try naive_solver. destruct (Z.eqb_spec (u1 th) a); naive_solver. Qed.
Lemma w1_0 a th : state th ≠ NIL_STATE_WTSEM ∨ u1 th ≠ a → w1 a th = 0%nat.
Proof. unfold w1. destruct (state th); try naive_solver. destruct (Z.eqb_spec (u1 th) a); naive_solver. Qed.
Lemma w1_le a th : (w1 a th ≤ 1)%nat.
Proof. unfold w1. destruct (state th); try lia. destruct (u1 th =? a); lia. Qed.

Lemma waiters_app a l k : waiters a (l ++ k) = (waiters a l + waiters a k)%nat.
Proof. induction l as [|th l IH]; simpl; [done|]. rewrite IH. lia. Qed.
Lemma waiters_insert a l i th th' :
  l !! i = Some th → (waiters a (<[i := th']> l) + w1 a th = waiters a l + w1 a th')%nat.
Proof.
  intros E. rewrite (insert_take_drop l i th') by (by eapply lookup_lt_Some).
  rewrite <-(take_drop_middle l i th E) at 3. rewrite !waiters_app. simpl. lia.
Qed.
Lemma waiters_pos a l i th : l !! i = Some th → w1 a th = 1%nat → (0 < waiters a l)%nat.
Proof. intros E Hw. rewrite <-(take_drop_middle l i th E), waiters_app. simpl. lia. Qed.

Definition ready (th : thread) : Prop := state th = NIL_STATE_READY.

(** The word of a thread points to what it waits for, and is no semaphore's
    address otherwise. *)
Definition word_ok (sm : gmap Z Z) (tr : gmap Z (option nat)) (i : nat) (th : thread) : Prop :=
  match state th with
  | NIL_STATE_WTSEM => is_Some (sm !! u1 th)
  | NIL_STATE_SUSP => tr !! u1 th = Some (Some i)
  | _ => sm !! u1 th = None
  end.

Record objs (l : list thread) (sm : gmap Z Z) (tr : gmap Z (option nat)) : Prop := {
  ob_len : length l = S N;
  ob_idle : ∃ th, l !! N = Some th ∧ ready th;
  ob_ready : ∀ i th, l !! i = Some th → ready th → timeout th = 0;
  ob_range : ∀ i th, l !! i = Some th → 0 ≤ timeout th < 2 ^ NIL_CFG_ST_RESOLUTION;
  ob_cnt : ∀ a c, sm !! a = Some c → is_s32 c ∧ Z.of_nat (waiters a l) = Z.max 0 (- c);
  ob_word : ∀ i th, l !! i = Some th → word_ok sm tr i th;
  ob_ref : ∀ a i, tr !! a = Some (Some i) → ∃ th, l !! i = Some th ∧ state th = NIL_STATE_SUSP ∧ u1 th = a;
  ob_disj : ∀ a, is_Some (sm !! a) → tr !! a = None
}.

(** [n] is the first ready thread. *)
Definition first (l : list thread) (n : nat) : Prop :=
  (∃ th, l !! n = Some th ∧ ready th) ∧ ∀ i th, (i < n)%nat → l !! i = Some th → ¬ ready th.

(** A message that is not the address of a semaphore. *)
Definition msg_ok (sm : gmap Z Z) (msg : Z) : Prop := sm !! u32 msg = None.

(** *** Waking a thread *)

Definition woken (msg : Z) (th : thread) : thread := mkThread NIL_STATE_READY (u32 msg) 0 (epmask th).
Definition release_sem (th : thread) (sm : gmap Z Z) : gmap Z Z :=
  match state th with NIL_STATE_WTSEM => alter (Z.add 1) (u1 th) sm | _ => sm end.
Definition release_ref (th : thread) (tr : gmap Z (option nat)) : gmap Z (option nat) :=
  match state th with NIL_STATE_SUSP => <[u1 th := None]> tr | _ => tr end.

Lemma release_dom th sm a : is_Some (release_sem th sm !! a) ↔ is_Some (sm !! a).
Proof.
  unfold release_sem. destruct (state th); try done. destruct (decide (a = u1 th)) as [->|Ha].
  - rewrite lookup_alter_eq. by rewrite fmap_is_Some.
  - by rewrite lookup_alter_ne.
Qed.
Lemma release_none th sm a : release_sem th sm !! a = None ↔ sm !! a = None.
Proof. pose proof (release_dom th sm a) as E. rewrite !eq_None_not_Some. tauto. Qed.

Lemma w1_woken a msg th : w1 a (woken msg th) = 0%nat.
Proof. done. Qed.

(** Releasing a thread from what it waits for adds one to its semaphore. *)
Lemma release_cnt th sm a c :
  release_sem th sm !! a = Some c → ∃ c0, sm !! a = Some c0 ∧ c = c0 + Z.of_nat (w1 a th).
Proof.
  unfold release_sem, w1. destruct (state th); try (intros ->; exists c; split; [done|lia]).
  destruct (Z.eqb_spec (u1 th) a) as [->|Ha].
  - rewrite lookup_alter_eq. destruct (sm !! a) as [c0|]; [|done]. intros [= <-]. exists c0. split; [done|lia].
  - rewrite lookup_alter_ne by done. intros ->. exists c. split; [done|lia].
Qed.

Lemma lookup_insert_cases {A} (l : list A) i j x y :
  <[i := x]> l !! j = Some y → (j = i ∧ y = x) ∨ (j ≠ i ∧ l !! j = Some y).
Proof.
  intros E. destruct (decide (j = i)) as [->|Hj].
  - left. split; [done|]. assert (i < length l)%nat as Hi by (rewrite <-(length_insert l i x); by eapply lookup_lt_Some).
    rewrite list_lookup_insert_eq in E by done. by simplify_eq.
  - right. by rewrite list_lookup_insert_ne in E.
Qed.

Lemma wake_objs l sm tr i th msg :
  objs l sm tr → l !! i = Some th → ¬ ready th → msg_ok sm msg →
  objs (<[i := woken msg th]> l) (release_sem th sm) (release_ref th tr).
Proof.
  intros Ho E Hn Hm. pose proof Ho as [Hl Hi Hr Hg Hc Hw Hf Hd].
  assert (i < length l)%nat as Hlt by (by eapply lookup_lt_Some).
  split.
  - by rewrite length_insert.
  - destruct Hi as (th0 & E0 & H0). exists th0. split; [|done]. rewrite list_lookup_insert_ne; [done|]. intros ->. by simplify_eq.
  - intros j th' [[-> ->]|[_ ?]]%lookup_insert_cases Hj; [done|by eapply Hr].
  - intros j th' [[-> ->]|[_ ?]]%lookup_insert_cases; [|by eapply Hg]. simpl. pose proof (Hg _ _ E). lia.
  - intros a c (c0 & E0 & ->)%release_cnt. destruct (Hc _ _ E0) as [Hs Hc0].
    pose proof (waiters_insert a l i th (woken msg th) E) as Hwi. rewrite w1_woken in Hwi.
    pose proof (w1_le a th). assert (w1 a th = 1%nat → (0 < waiters a l)%nat) by (by apply waiters_pos with i).
    unfold is_s32, INT32_MIN, INT32_MAX in *. lia.
  - intros j th' [[-> ->]|[Hj Ej]]%lookup_insert_cases; [by apply release_none|].
    specialize (Hw _ _ Ej) as Hwj. unfold word_ok in *. destruct (state th') eqn:Es; rewrite ?release_none, ?release_dom; try done.
    unfold release_ref. specialize (Hw _ _ E). destruct (state th) eqn:Et; try done. rewrite lookup_insert_ne; [done|]. congruence.
  - intros a j Ea. unfold release_ref in Ea. specialize (Hw _ _ E). unfold word_ok in Hw.
    assert (tr !! a = Some (Some j) ∧ (state th = NIL_STATE_SUSP → a ≠ u1 th)) as [Ea' Hne].
    { destruct (state th) eqn:Et; try done. destruct (decide (a = u1 th)) as [->|Ha].
      - by rewrite lookup_insert_eq in Ea.
      - by rewrite lookup_insert_ne in Ea. }
    destruct (Hf _ _ Ea') as (th' & Ej & Hs & Hu). exists th'. split_and!; [|done|done].
    rewrite list_lookup_insert_ne; [done|]. intros <-. simplify_eq. by apply Hne.
  - intros a Ha%release_dom. pose proof (Hd _ Ha) as Hn'. unfold release_ref. specialize (Hw _ _ E). unfold word_ok in Hw.
    destruct (state th); try done. rewrite lookup_insert_ne; [done|]. congruence.
Qed.

(** ** The scheduler and the timer *)

Record sched (s : nil_system) : Prop := {
  sc_first : first (threads s) (next s);
  sc_le : (next s ≤ current s)%nat;
  sc_cur : ∃ th, threads s !! current s = Some th ∧ ready th
}.

(** In the tick-less variant the alarm is active exactly while an event is
    scheduled, and no timeout ends before it. *)
Record time_ok (s : nil_system) : Prop := {
  tm_range : ∀ x, x ∈ [lasttime s; nexttime s; counter s; systime s] → 0 ≤ x < 2 ^ NIL_CFG_ST_RESOLUTION;
  tm_on : 0 < NIL_CFG_ST_TIMEDELTA → alarm_active s = true →
    alarm s = nexttime s ∧ lasttime s ≠ nexttime s ∧
    ∀ i th, threads s !! i = Some th → timeout th = 0 ∨ st (nexttime s - lasttime s) ≤ timeout th;
  tm_off : 0 < NIL_CFG_ST_TIMEDELTA → alarm_active s = false →
    lasttime s = nexttime s ∧ ∀ i th, threads s !! i = Some th → timeout th = 0
}.

(** At any point of a critical section. *)
Record C (s : nil_system) : Prop := {
  c_objs : objs (threads s) (sems s) (trefs s);
  c_sched : sched s;
  c_time : time_ok s
}.

(** In a critical section, at a context switch, and outside. *)
Definition L (s : nil_system) : Prop := C s ∧ locked s = true.
Definition K (s : nil_system) : Prop := L s ∧ next s = current s.
Definition U (s : nil_system) : Prop := C s ∧ locked s = false ∧ next s = current s.

Definition wake (i : nat) (msg : Z) (th : thread) (s : nil_system) : nil_system :=
  set_next (if (i <? next s)%nat then i else next s) (set_threads (<[i := woken msg th]> (threads s)) s).

Lemma not_idle l sm tr i th : objs l sm tr → l !! i = Some th → ¬ ready th → (i < N)%nat.
Proof.
  intros [Hl (th0 & E0 & H0) _ _ _ _ _ _] E Hn. apply lookup_lt_Some in E as Hi. destruct (decide (i = N)) as [->|]; [by simplify_eq|lia].
Qed.

Lemma is_ready th : NIL_THD_IS_READY th = true ↔ ready th.
Proof. apply bool_decide_eq_true. Qed.
Lemma is_ready_not th : NIL_THD_IS_READY th = false ↔ ¬ ready th.
Proof. apply bool_decide_eq_false. Qed.

Lemma chSchReadyI_eq s i th msg :
  sched s → threads s !! i = Some th → ¬ ready th → (i < N)%nat → chSchReadyI i msg s = NDone i (wake i msg th s).
Proof.
  intros [_ Hle _] E Hn Hi. unfold chSchReadyI.
  erewrite nbind_done by (apply nassert_eq, Nat.ltb_lt, Hi).
  erewrite nbind_done by (by apply thr_eq).
  erewrite nbind_done by (apply nassert_eq; by rewrite (proj2 (is_ready_not th) Hn)).
  erewrite nbind_done by done.
  erewrite nbind_done by (apply nassert_eq, Nat.leb_le, Hle).
  erewrite nbind_done by (by apply upd_thr_eq).
  unfold wake, woken, nwhen. simpl. destruct (i <? next s)%nat; [done|]. by destruct s.
Qed.

Lemma sched_ext s s' : sched s → threads s' = threads s → next s' = next s → current s' = current s → sched s'.
Proof. intros [Hf Hle Hc] El En Ec. by split; rewrite ?El, ?En, ?Ec. Qed.

Lemma wake_sched s i th msg : sched s → threads s !! i = Some th → ¬ ready th → sched (wake i msg th s).
Proof.
  intros [[(tn & En & Hrn) Hf] Hle (tc & Ec & Hrc)] E Hn. apply lookup_lt_Some in E as Hi.
  assert (∀ j tj, threads s !! j = Some tj → ready tj → <[i := woken msg th]> (threads s) !! j = Some tj) as Hkeep.
  { intros j tj Ej Hj. rewrite list_lookup_insert_ne; [done|]. intros ->. by simplify_eq. }
  unfold wake. split; simpl.
  - destruct (Nat.ltb_spec i (next s)).
    + split; [exists (woken msg th); split; [by apply list_lookup_insert_eq|done]|].
      intros j tj Hj [[-> ->]|[_ ?]]%lookup_insert_cases; [lia|]. apply (Hf j); [lia|done].
    + split; [exists tn; split; [by apply Hkeep|done]|].
      intros j tj Hj [[-> ->]|[_ ?]]%lookup_insert_cases; [lia|]. by apply (Hf j).
  - destruct (Nat.ltb_spec i (next s)); lia.
  - exists tc. split; [by apply Hkeep|done].
Qed.

(** Clearing a timeout keeps the timer's invariant. *)
Lemma time_ok_clear s s' :
  time_ok s → lasttime s' = lasttime s → nexttime s' = nexttime s → counter s' = counter s → systime s' = systime s →
  alarm s' = alarm s → alarm_active s' = alarm_active s →
  (∀ i th', threads s' !! i = Some th' → timeout th' = 0 ∨ ∃ th, threads s !! i = Some th ∧ timeout th' = timeout th) →
  time_ok s'.
Proof.
  intros [Hr Hon Hoff] El En Ec Es Ea Eaa Ht. split; rewrite ?El, ?En, ?Ec, ?Es, ?Ea, ?Eaa; [done|..].
  - intros HD Ha. destruct (Hon HD Ha) as (? & ? & Hb). split_and!; try done. intros i th' E'.
    destruct (Ht _ _ E') as [|(th & E & ->)]; [by left|by eapply Hb].
  - intros HD Ha. destruct (Hoff HD Ha) as (? & Hb). split; [done|]. intros i th' E'. destruct (Ht _ _ E') as [|(th & E & ->)]; [done|by eapply Hb].
Qed.

Lemma wake_time s i th msg : time_ok s → threads s !! i = Some th → time_ok (wake i msg th s).
Proof.
  intros Ht E. eapply (time_ok_clear s); try done. simpl. intros j th' [[-> ->]|[_ ?]]%lookup_insert_cases; [by left|right; by eexists].
Qed.

(** A thread is woken: its semaphore and its reference have been given back. *)
Lemma wake_C s i th msg sm tr :
  objs (threads s) sm tr → sched s → time_ok s → threads s !! i = Some th → ¬ ready th → msg_ok sm msg →
  sems s = release_sem th sm → trefs s = release_ref th tr →
  chSchReadyI i msg s = NDone i (wake i msg th s) ∧ C (wake i msg th s).
Proof.
  intros Ho Hs Ht E Hn Hm Es Er. split; [apply chSchReadyI_eq; try done; by eapply not_idle|]. split.
  - simpl. rewrite Es, Er. by apply wake_objs.
  - by apply wake_sched.
  - by apply wake_time.
Qed.

(** ** Operations that wake threads *)

(** What they leave alone. *)
Record same_env (s s' : nil_system) : Prop := {
  se_current : current s' = current s;
  se_lock : locked s' = locked s;
  se_last : lasttime s' = lasttime s;
  se_nexttime : nexttime s' = nexttime s;
  se_counter : counter s' = counter s;
  se_systime : systime s' = systime s;
  se_alarm : alarm s' = alarm s;
  se_active : alarm_active s' = alarm_active s
}.
Lemma same_env_refl s : same_env s s.
Proof. by split. Qed.
Lemma same_env_trans s1 s2 s3 : same_env s1 s2 → same_env s2 s3 → same_env s1 s3.
Proof. intros [] []. split; congruence. Qed.

(** The counter of a semaphore may be any that stands for its waiting threads. *)
Lemma objs_cnt l sm tr sp c :
  objs l sm tr → is_Some (sm !! sp) → is_s32 c → Z.of_nat (waiters sp l) = Z.max 0 (- c) → objs l (<[sp := c]> sm) tr.
Proof.
  intros [Hl Hi Hr Hg Hc Hw Hf Hd] Hsp Hs Hn.
  assert (∀ a, is_Some (<[sp := c]> sm !! a) ↔ is_Some (sm !! a)) as Hdom.
  { intros a. destruct (decide (a = sp)) as [->|Ha]; [rewrite lookup_insert_eq; naive_solver|by rewrite lookup_insert_ne]. }
  split; try done.
  - intros a c' Ea. destruct (decide (a = sp)) as [->|Ha].
    + rewrite lookup_insert_eq in Ea. by simplify_eq.
    + rewrite lookup_insert_ne in Ea by done. by apply Hc.
  - intros i th E. specialize (Hw _ _ E). unfold word_ok in *.
    destruct (state th); rewrite ?eq_None_not_Some, ?Hdom in *; done.
  - intros a Ha. apply Hd. by apply Hdom.
Qed.

Lemma sem_word l sm tr i th a : objs l sm tr → l !! i = Some th → is_Some (sm !! a) → u1 th = a → w1 a th = 1%nat.
Proof.
  intros [_ _ _ _ _ Hw _ Hd] E Ha <-. specialize (Hw _ _ E). unfold word_ok in Hw. apply w1_1. split; [|done].
  pose proof (Hd _ Ha). destruct (state th); simplify_eq; try done; rewrite Hw in Ha; by destruct Ha.
Qed.

Lemma waiters_some a l : (0 < waiters a l)%nat → ∃ i th, l !! i = Some th ∧ w1 a th = 1%nat.
Proof.
  induction l as [|th l IH]; simpl; [lia|]. intros H0. pose proof (w1_le a th).
  destruct (decide (w1 a th = 1%nat)) as [E|E]; [by exists 0%nat, th|]. destruct IH as (i & th' & ? & ?); [lia|]. by exists (S i), th'.
Qed.

Lemma sem_scan_ok fuel tr l sp func i th :
  (tr + fuel = N)%nat → l !! i = Some th → u1 th = sp → (tr ≤ i < N)%nat →
  ∃ j tj, (∀ s, threads s = l → sem_scan fuel tr sp func s = NDone j s) ∧ (tr ≤ j)%nat ∧ l !! j = Some tj ∧ u1 tj = sp ∧
    ∀ k tk, (tr ≤ k < j)%nat → l !! k = Some tk → u1 tk ≠ sp.
Proof.
  revert tr. induction fuel as [|fuel IH]; intros tr Hf E Hu Hi; [lia|].
  assert (is_Some (l !! tr)) as [t0 E0] by (apply lookup_lt_is_Some; apply lookup_lt_Some in E; lia).
  assert (∀ s, threads s = l → thr tr s = NDone t0 s) as Ht by (intros s <-; by apply thr_eq).
  destruct (decide (u1 t0 = sp)) as [H0|H0].
  - exists tr, t0. split_and!; try done; try (intros; lia). intros s Es. simpl. erewrite nbind_done by (by apply Ht). by rewrite H0, Z.eqb_refl.
  - assert (tr ≠ i) by (intros ->; by simplify_eq).
    destruct (IH (S tr)) as (j & tj & Es & Hj & Ej & Huj & Hn); [lia|done|done|lia|].
    exists j, tj. split_and!; try done; try lia.
    + intros s El. simpl. erewrite nbind_done by (by apply Ht). rewrite (proj2 (Z.eqb_neq _ _) H0).
      erewrite nbind_done by (apply nassert_eq, Nat.ltb_lt; lia). by apply Es.
    + intros k tk Hk Ek. destruct (decide (k = tr)) as [->|]; [by simplify_eq|]. apply (Hn k); [lia|done].
Qed.

(** The highest priority thread that waits on [sp]. *)
Definition first_waiter (l : list thread) (sp : Z) (i : nat) (th : thread) : Prop :=
  l !! i = Some th ∧ w1 sp th = 1%nat ∧ ∀ j tj, (j < i)%nat → l !! j = Some tj → w1 sp tj = 0%nat.

Lemma scan_waiter l sm tr sp c func :
  objs l sm tr → sm !! sp = Some c → c < 0 →
  ∃ i th, first_waiter l sp i th ∧ ∀ s, threads s = l → sem_scan N 0 sp func s = NDone i s.
Proof.
  intros Ho Ec Hc. destruct (ob_cnt _ _ _ Ho _ _ Ec) as [_ Hw].
  destruct (waiters_some sp l) as (i & th & E & Hi); [lia|]. apply w1_1 in Hi as [Hst Hu].
  assert (i < N)%nat by (eapply not_idle; [done|done|unfold ready; by rewrite Hst]).
  destruct (sem_scan_ok N 0 l sp func i th) as (j & tj & Es & Hj & Ej & Huj & Hn); [done|done|done|lia|].
  exists j, tj. split; [|done]. split_and!; [done|by eapply sem_word|].
  intros k tk Hk Ek. apply w1_0. right. apply (Hn k); [lia|done].
Qed.

Lemma cnt_inc_eq s sp c :
  sems s !! sp = Some c → c < INT32_MAX → cnt_inc sp s = NDone (c + 1) (set_sems (<[sp := c + 1]> (sems s)) s).
Proof.
  intros E Hc. unfold cnt_inc, chSemGetCounterI. erewrite nbind_done by (by apply (nderef_eq (λ s, sems s !! sp))).
  rewrite (proj2 (Z.ltb_lt _ _) Hc). done.
Qed.

(** *** Semaphores *)

(** The state after chSemSignalI. *)
Definition signalled (sp c msg : Z) (s s' : nil_system) : Prop :=
  let s1 := set_sems (<[sp := c + 1]> (sems s)) s in
  (0 ≤ c ∧ s' = s1) ∨ (c < 0 ∧ ∃ i th, first_waiter (threads s) sp i th ∧ s' = wake i msg th s1).

Lemma wake_waiter s sp c i th msg :
  C s → sems s !! sp = Some c → first_waiter (threads s) sp i th → msg_ok (sems s) msg →
  let s1 := set_sems (<[sp := c + 1]> (sems s)) s in
  NIL_THD_IS_WTSEM th = true ∧ chSchReadyI i msg s1 = NDone i (wake i msg th s1) ∧ C (wake i msg th s1).
Proof.
  intros HC Ec (E & Hw & _) Hm s1. apply w1_1 in Hw as [Hst Hu]. destruct HC as [Ho Hs Ht].
  split; [by apply bool_decide_eq_true|]. apply (wake_C s1 i th msg (sems s) (trefs s)); try done.
  - by apply (sched_ext s).
  - by eapply (time_ok_clear s); try done; right; eexists.
  - unfold ready. by rewrite Hst.
  - unfold release_sem. rewrite Hst, Hu. simpl. apply map_eq. intros a. destruct (decide (a = sp)) as [->|Ha].
    + rewrite lookup_insert_eq, lookup_alter_eq, Ec. simpl. f_equal. lia.
    + by rewrite lookup_insert_ne, lookup_alter_ne.
  - unfold release_ref. by rewrite Hst.
Qed.

Lemma C_sem s sp c : C s → is_Some (sems s !! sp) → is_s32 c → Z.of_nat (waiters sp (threads s)) = Z.max 0 (- c) →
  C (set_sems (<[sp := c]> (sems s)) s).
Proof.
  intros [Ho Hs Ht] Hsp Hc Hw. split; [by apply objs_cnt|by apply (sched_ext s)|].
  by eapply (time_ok_clear s); try done; right; eexists.
Qed.

Lemma nil_chSemSignalI_ok s sp c :
  C s → sems s !! sp = Some c → c < INT32_MAX → msg_ok (sems s) MSG_OK →
  ∃ s', chSemSignalI sp s = NDone tt s' ∧ C s' ∧ signalled sp c MSG_OK s s'.
Proof.
  intros HC Ec Hmax Hm. destruct (ob_cnt _ _ _ (c_objs _ HC) _ _ Ec) as [Hs Hw].
  unfold chSemSignalI. erewrite nbind_done by (by apply cnt_inc_eq). set (s1 := set_sems _ s).
  unfold nwhen. destruct (Z.leb_spec (c + 1) 0) as [Hle|Hgt].
  - destruct (scan_waiter _ _ _ sp c "chSemSignalI" (c_objs _ HC) Ec) as (i & th & Hfw & Escan); [lia|].
    destruct (wake_waiter s sp c i th MSG_OK HC Ec Hfw Hm) as (Hwt & Er & HC').
    erewrite nbind_done by (by apply Escan). erewrite nbind_done by (apply thr_eq, Hfw).
    erewrite nbind_done by (by apply nassert_eq). erewrite nbind_done by exact Er.
    eexists. split; [done|]. split; [done|]. right. split; [lia|]. by exists i, th.
  - eexists. split; [done|]. split; [|left; split; [lia|done]].
    apply C_sem; [done|by eexists|unfold is_s32, INT32_MIN, INT32_MAX in *; lia|lia].
Qed.

(** Every thread that waits on [sp] is woken with [msg]. *)
Definition wake_all (sp msg : Z) (l : list thread) : list thread := (λ th, if (w1 sp th =? 1)%nat then woken msg th else th) <$> l.

Lemma wake_all_none sp msg l : waiters sp l = 0%nat → wake_all sp msg l = l.
Proof.
  induction l as [|th l IH]; simpl; intros Hw; [done|]. unfold wake_all in *. simpl. rewrite IH by lia.
  assert (w1 sp th = 0%nat) as -> by lia. done.
Qed.

Lemma wake_all_insert sp msg l i th : l !! i = Some th → w1 sp th = 1%nat → wake_all sp msg (<[i := woken msg th]> l) = wake_all sp msg l.
Proof.
  intros E Hw. unfold wake_all. rewrite list_fmap_insert. simpl. rewrite list_insert_id; [done|].
  rewrite list_lookup_fmap, E. simpl. by rewrite Hw.
Qed.

(** [cnt] stands for the counter while the loop runs. *)
Lemma sem_wake_loop_ok fuel tp s sp cnt msg func :
  (tp + fuel = S N)%nat → objs (threads s) (<[sp := cnt]> (sems s)) (trefs s) → sched s → time_ok s → msg_ok (<[sp := cnt]> (sems s)) msg →
  (∀ j th, (j < tp)%nat → threads s !! j = Some th → w1 sp th = 0%nat) →
  ∃ s', sem_wake_loop fuel tp sp cnt msg func s = NDone tt s' ∧ same_env s s' ∧ sems s' = sems s ∧ trefs s' = trefs s ∧
    threads s' = wake_all sp msg (threads s) ∧ objs (threads s') (<[sp := Z.max 0 cnt]> (sems s)) (trefs s) ∧ sched s' ∧ time_ok s'.
Proof.
  revert tp s cnt. induction fuel as [|fuel IH]; intros tp s cnt Hf Ho Hs Ht Hm Hlow.
  all: destruct (ob_cnt _ _ _ Ho sp cnt) as [Hr Hw]; [apply lookup_insert_eq|].
  all: simpl; destruct (Z.ltb_spec cnt 0) as [Hc|Hc];
    [|exists s; split_and!; try done; [by rewrite wake_all_none by lia|by rewrite Z.max_r]].
  all: destruct (waiters_some sp (threads s)) as (i & ti & Ei & Hi); [lia|].
  all: assert (i < N)%nat as HiN by (eapply not_idle; [done|done|apply w1_1 in Hi as [Hst _]; unfold ready; by rewrite Hst]).
  all: assert (tp ≤ i)%nat by (destruct (decide (tp ≤ i)%nat); [done|]; rewrite (Hlow i ti) in Hi; [done|lia|done]).
  { lia. }
  erewrite nbind_done by (apply nassert_eq, Nat.ltb_lt; lia).
  assert (is_Some (threads s !! tp)) as [th E] by (apply lookup_lt_is_Some; rewrite (ob_len _ _ _ Ho); lia).
  erewrite nbind_done by (by apply thr_eq).
  destruct (Z.eqb_spec (u1 th) sp) as [Hu|Hu].
  - pose proof (sem_word _ _ _ _ _ sp Ho E ltac:(rewrite lookup_insert_eq; by eexists) Hu) as Hth.
    pose proof Hth as [Hst _]%w1_1. assert (¬ ready th) as Hn by (unfold ready; by rewrite Hst).
    assert (release_sem th (<[sp:=cnt]> (sems s)) = <[sp := cnt + 1]> (sems s)) as Erel.
    { unfold release_sem. rewrite Hst, Hu, alter_insert_eq. f_equal. lia. }
    rewrite nbind_eq. erewrite nbind_done by (apply nassert_eq; by apply bool_decide_eq_true).
    erewrite nbind_done by (apply chSchReadyI_eq; try done; by eapply not_idle). rewrite nret_eq. simpl.
    destruct (IH (S tp) (wake tp msg th s) (cnt + 1)) as (s' & E' & Henv & Es & Er & El & Ho' & Hs' & Ht').
    + lia.
    + pose proof (wake_objs _ _ _ _ _ msg Ho E Hn Hm) as Hwo. rewrite Erel in Hwo. unfold release_ref in Hwo. rewrite Hst in Hwo. exact Hwo.
    + by apply wake_sched.
    + by apply wake_time.
    + unfold msg_ok in *. simpl. destruct (decide (u32 msg = sp)) as [<-|]; [by rewrite lookup_insert_eq in Hm|].
      by rewrite lookup_insert_ne in *.
    + intros j tj Hj Ej. apply lookup_insert_cases in Ej as [[_ ->]|[Hne Ej]]; [apply w1_woken|]. apply (Hlow j); [lia|done].
    + exists s'. split; [exact E'|]. split; [eapply same_env_trans; [|exact Henv]; by split|]. split_and!; try done.
      * by rewrite El; simpl; rewrite wake_all_insert.
      * rewrite Z.max_l by lia. by replace (Z.max 0 (cnt + 1)) with 0 in Ho' by lia.
  - rewrite nbind_eq, nret_eq. simpl. apply (IH (S tp) s cnt); try done; [lia|].
    intros j tj Hj Ej. destruct (decide (j = tp)) as [->|]; [|apply (Hlow j); [lia|done]]. simplify_eq. apply w1_0. by right.
Qed.

(** All the waiting threads are woken and the counter is [n]. *)
Definition reset_to (sp n msg : Z) (s s' : nil_system) : Prop :=
  same_env s s' ∧ threads s' = wake_all sp msg (threads s) ∧ sems s' = <[sp := n]> (sems s) ∧ trefs s' = trefs s.

Lemma nil_reset_ok s sp n msg c func :
  C s → sems s !! sp = Some c → 0 ≤ n ≤ INT32_MAX → msg_ok (sems s) msg →
  ∃ s', sem_wake_loop (S N) 0 sp c msg func (set_sems (<[sp := n]> (sems s)) s) = NDone tt s' ∧ C s' ∧ reset_to sp n msg s s'.
Proof.
  intros [Ho Hs Ht] Ec Hn Hm. set (s1 := set_sems _ s).
  assert (<[sp := c]> (sems s1) = sems s) as Eg by (simpl; by rewrite insert_insert_eq, insert_id).
  destruct (sem_wake_loop_ok (S N) 0 s1 sp c msg func) as (s' & E & Henv & Es & Er & El & Ho' & Hs' & Ht').
  - lia.
  - by rewrite Eg.
  - by apply (sched_ext s).
  - by eapply (time_ok_clear s); try done; right; eexists.
  - by rewrite Eg.
  - intros. lia.
  - exists s'. split; [done|]. split; [|split_and!; [by destruct Henv; split|done|done|done]].
    split; [|done|done]. rewrite Er, Es. simpl in *. rewrite insert_insert_eq in Ho'.
    assert (Z.of_nat (waiters sp (threads s')) = 0) as Hw0.
    { destruct (ob_cnt _ _ _ Ho' sp (Z.max 0 c)) as [_ ->]; [apply lookup_insert_eq|lia]. }
    pose proof (objs_cnt _ _ _ sp n Ho') as Hx. rewrite insert_insert_eq in Hx. apply Hx; [rewrite lookup_insert_eq; by eexists|unfold is_s32, INT32_MIN in *; lia|lia].
Qed.

Lemma chSemResetI_ok' s sp n c :
  C s → sems s !! sp = Some c → 0 ≤ n ≤ INT32_MAX → msg_ok (sems s) MSG_RESET →
  ∃ s', chSemResetI sp n s = NDone tt s' ∧ C s' ∧ reset_to sp n MSG_RESET s s'.
Proof.
  intros HC Ec Hn Hm. unfold chSemResetI, chSemGetCounterI. erewrite nbind_done by (by apply (nderef_eq (λ s, sems s !! sp))).
  erewrite nbind_done by done. by apply nil_reset_ok.
Qed.

Lemma osalThreadDequeueAllI_ok s sp msg c :
  C s → sems s !! sp = Some c → msg_ok (sems s) msg →
  ∃ s', osalThreadDequeueAllI sp msg s = NDone tt s' ∧ C s' ∧ reset_to sp 0 msg s s'.
Proof.
  intros HC Ec Hm. unfold osalThreadDequeueAllI, chSemGetCounterI. erewrite nbind_done by (by apply (nderef_eq (λ s, sems s !! sp))).
  erewrite nbind_done by done. by apply nil_reset_ok.
Qed.

Lemma osalThreadDequeueNextI_ok s sp msg c :
  C s → sems s !! sp = Some c → msg_ok (sems s) msg →
  ∃ s', osalThreadDequeueNextI sp msg s = NDone tt s' ∧ C s' ∧ ((0 ≤ c ∧ s' = s) ∨ (c < 0 ∧ signalled sp c msg s s')).
Proof.
  intros HC Ec Hm. unfold osalThreadDequeueNextI, chSemGetCounterI. erewrite nbind_done by (by apply (nderef_eq (λ s, sems s !! sp))).
  unfold nwhen. destruct (Z.ltb_spec c 0) as [Hc|Hc]; [|exists s; split_and!; try done; by left].
  destruct (scan_waiter _ _ _ sp c "osalThreadDequeueNextI" (c_objs _ HC) Ec) as (i & th & Hfw & Escan); [lia|].
  destruct (wake_waiter s sp c i th msg HC Ec Hfw Hm) as (Hwt & Er & HC').
  erewrite nbind_done by (by apply Escan).
  erewrite nbind_done by (apply cnt_inc_eq; [done|unfold INT32_MAX; lia]).
  erewrite nbind_done by (apply thr_eq, Hfw). erewrite nbind_done by (by apply nassert_eq). erewrite nbind_done by exact Er.
  eexists. split; [done|]. split; [done|]. right. split; [done|]. right. split; [done|]. by exists i, th.
Qed.

(** *** References and events *)

(** The state after chThdResumeI. *)
Definition resumed (trp msg : Z) (r : option nat) (s s' : nil_system) : Prop :=
  match r with
  | None => s' = s
  | Some i => ∃ th, threads s !! i = Some th ∧ state th = NIL_STATE_SUSP ∧ s' = wake i msg th (set_trefs (<[trp := None]> (trefs s)) s)
  end.

Lemma chThdResumeI_ok s trp msg r :
  C s → trefs s !! trp = Some r → msg_ok (sems s) msg →
  ∃ s', chThdResumeI trp msg s = NDone tt s' ∧ C s' ∧ resumed trp msg r s s'.
Proof.
  intros HC Er Hm. pose proof HC as [Ho Hs Ht]. unfold chThdResumeI, set_tref, tref.
  erewrite nbind_done by (by apply (nderef_eq (λ s, trefs s !! trp))). destruct r as [i|]; [|by exists s].
  destruct (ob_ref _ _ _ Ho _ _ Er) as (th & E & Hst & Hu).
  set (s1 := set_trefs (<[trp := None]> (trefs s)) s).
  destruct (wake_C s1 i th msg (sems s) (trefs s)) as [Ew HC']; try done.
  - by apply (sched_ext s).
  - by eapply (time_ok_clear s); try done; right; eexists.
  - unfold ready. by rewrite Hst.
  - unfold release_sem. by rewrite Hst.
  - unfold release_ref. by rewrite Hst, Hu.
  - erewrite nbind_done by (by apply thr_eq). erewrite nbind_done by (apply nassert_eq; by apply bool_decide_eq_true).
    erewrite nbind_done by (erewrite nbind_done by (by apply (nderef_eq (λ s, trefs s !! trp))); done).
    erewrite nbind_done by exact Ew. eexists. split; [done|]. split; [done|]. by exists th.
Qed.

(** A change of the pending events. *)
Lemma C_epmask s i th m :
  C s → threads s !! i = Some th → C (set_threads (<[i := set_epmask m th]> (threads s)) s).
Proof.
  intros [[Hl Hi Hr Hg Hc Hw Hf Hd] [[Hn Hfi] Hle Hcu] Ht] E.
  assert (∀ j tj, <[i := set_epmask m th]> (threads s) !! j = Some tj →
    ∃ t0, threads s !! j = Some t0 ∧ state tj = state t0 ∧ u1 tj = u1 t0 ∧ timeout tj = timeout t0) as Hlk.
  { intros j tj [[-> ->]|[_ ?]]%lookup_insert_cases; [by exists th|by exists tj]. }
  assert (∀ j t0, threads s !! j = Some t0 → ∃ tj, <[i := set_epmask m th]> (threads s) !! j = Some tj ∧ state tj = state t0 ∧ u1 tj = u1 t0) as Hlk'.
  { intros j t0 Ej. destruct (decide (j = i)) as [->|Hj].
    - simplify_eq. exists (set_epmask m th). split; [|done]. apply list_lookup_insert_eq. by eapply lookup_lt_Some.
    - exists t0. by rewrite list_lookup_insert_ne. }
  unfold ready in *. split; [split| |]; simpl.
  - by rewrite length_insert.
  - destruct Hi as (t0 & E0 & H0). destruct (Hlk' _ _ E0) as (tj & ? & Es & _). exists tj. unfold ready. by rewrite Es.
  - intros j tj Ej Hj. destruct (Hlk _ _ Ej) as (t0 & E0 & Es & _ & ->). apply (Hr j); [done|]. unfold ready in *. by rewrite <-Es.
  - intros j tj Ej. destruct (Hlk _ _ Ej) as (t0 & E0 & _ & _ & ->). by eapply Hg.
  - intros a c Ea. pose proof (waiters_insert a _ _ _ (set_epmask m th) E) as Hwi.
    assert (w1 a (set_epmask m th) = w1 a th) as Ew by done. rewrite <-(proj2 (Hc _ _ Ea)). split; [apply (Hc _ _ Ea)|lia].
  - intros j tj Ej. destruct (Hlk _ _ Ej) as (t0 & E0 & Es & Eu & _). unfold word_ok. rewrite Es, Eu. by apply Hw.
  - intros a j Ea. destruct (Hf _ _ Ea) as (t0 & E0 & <- & <-). destruct (Hlk' _ _ E0) as (tj & ? & ? & ?). by exists tj.
  - done.
  - split; [split| |]; simpl; [| |done|].
    + destruct Hn as (t0 & E0 & H0). destruct (Hlk' _ _ E0) as (tj & ? & Es & _). exists tj. unfold ready. by rewrite Es.
    + intros j tj Hj Ej. destruct (Hlk _ _ Ej) as (t0 & E0 & Es & _). unfold ready. rewrite Es. by apply (Hfi j).
    + destruct Hcu as (t0 & E0 & H0). destruct (Hlk' _ _ E0) as (tj & ? & Es & _). exists tj. unfold ready. by rewrite Es.
  - eapply (time_ok_clear s); try done. intros j tj Ej. destruct (Hlk _ _ Ej) as (t0 & E0 & _ & _ & ?). right. by exists t0.
Qed.

Lemma nil_chEvtSignalI_ok s tp th mask :
  C s → threads s !! tp = Some th → msg_ok (sems s) MSG_OK →
  let th1 := set_epmask (Z.lor (epmask th) mask) th in
  let s1 := set_threads (<[tp := th1]> (threads s)) s in
  ∃ s', chEvtSignalI tp mask s = NDone tt s' ∧ C s' ∧
    s' = if NIL_THD_IS_WTOREVT th && negb (Z.land (epmask th1) (u1 th) =? 0) then wake tp MSG_OK th1 s1 else s1.
Proof.
  intros HC E Hm th1 s1. pose proof (C_epmask s tp th (Z.lor (epmask th) mask) HC E) as HC1.
  assert (threads s1 !! tp = Some th1) as E1 by (apply list_lookup_insert_eq; by eapply lookup_lt_Some).
  unfold chEvtSignalI. erewrite nbind_done by (by apply upd_thr_eq). erewrite nbind_done by (by apply thr_eq).
  fold th1 s1. change (NIL_THD_IS_WTOREVT th1) with (NIL_THD_IS_WTOREVT th). change (u1 th1) with (u1 th).
  unfold nwhen. destruct (NIL_THD_IS_WTOREVT th && _) eqn:Eb; [|exists s1; split_and!; [done|exact HC1|done]].
  apply andb_true_iff in Eb as [Hst%bool_decide_eq_true _]. pose proof HC1 as [Ho Hs Ht].
  destruct (wake_C s1 tp th1 MSG_OK (sems s) (trefs s)) as [Ew HC']; try done.
  - unfold ready, th1. simpl. by rewrite Hst.
  - unfold release_sem, th1. simpl. by rewrite Hst.
  - unfold release_ref, th1. simpl. by rewrite Hst.
  - erewrite nbind_done by exact Ew. eexists. by split_and!.
Qed.

(** ** Going to sleep *)

Lemma st_range x : 0 ≤ st x < 2 ^ NIL_CFG_ST_RESOLUTION.
Proof. apply Z.mod_pos_bound. apply Z.pow_pos_nonneg; [lia|]. destruct cfg_resolution as [->| ->]; lia. Qed.
Lemma st_sub_0 x y : 0 ≤ x < 2 ^ NIL_CFG_ST_RESOLUTION → 0 ≤ y < 2 ^ NIL_CFG_ST_RESOLUTION → st (x - y) = 0 → x = y.
Proof.
  intros Hx Hy E. unfold st in E. apply Z.mod_divide in E as [k E]; [|lia]. assert (k = 0) by nia. lia.
Qed.

Lemma scan_ready_ok fuel i l n :
  first l n → (i ≤ n)%nat → (n < i + fuel)%nat → (n ≤ N)%nat →
  ∀ s, threads s = l → scan_ready fuel i s = NDone n s.
Proof.
  intros [(tn & En & Hn) Hf] Hi Hfu HN s Es. subst l. revert i Hi Hfu. induction fuel as [|fuel IH]; intros i Hi Hfu; [lia|].
  assert (is_Some (threads s !! i)) as [th E] by (apply lookup_lt_is_Some; apply lookup_lt_Some in En; lia).
  cbn [scan_ready]. erewrite nbind_done by (by apply thr_eq). destruct (decide (i = n)) as [->|Hne].
  - assert (th = tn) as -> by congruence. by rewrite (proj2 (is_ready tn) Hn).
  - rewrite (proj2 (is_ready_not th)) by (apply (Hf i); [lia|done]).
    erewrite nbind_done by (apply nassert_eq, Nat.leb_le; lia). apply IH; lia.
Qed.

Lemma first_exists l i th : l !! i = Some th → ready th → ∃ n, first l n ∧ (n ≤ i)%nat.
Proof.
  revert i. induction l as [|t0 l IH]; intros i E Hr; [done|].
  destruct (decide (state t0 = NIL_STATE_READY)) as [H0|H0].
  - exists 0%nat. split; [|lia]. split; [by exists t0|]. intros j tj Hj. lia.
  - destruct i as [|i]; [simpl in E; by simplify_eq|]. destruct (IH i E Hr) as (n & [(tn & En & Hn) Hf] & Hle).
    exists (S n). split; [|lia]. split; [by exists tn|]. intros [|j] tj Hj Ej; simpl in Ej; [by simplify_eq|]. apply (Hf j); [lia|done].
Qed.

(** When a thread sleeps: the tick-less kernel must be able to tell the end of
    the timeout from the time of the last event. *)
Definition sleep_time (timeout : Z) (s : nil_system) : Z :=
  if 0 <? NIL_CFG_ST_TIMEDELTA then
    if timeout =? TIME_INFINITE then 0 else st (st (counter s + Z.max timeout NIL_CFG_ST_TIMEDELTA) - lasttime s)
  else timeout.
Definition sleep_ok (timeout : Z) (s : nil_system) : Prop :=
  0 ≤ timeout < 2 ^ NIL_CFG_ST_RESOLUTION ∧
  (0 < NIL_CFG_ST_TIMEDELTA → timeout ≠ TIME_INFINITE → st (counter s + Z.max timeout NIL_CFG_ST_TIMEDELTA) ≠ lasttime s).

Record sleep_frame (s s' : nil_system) : Prop := {
  sf_sems : sems s' = sems s; sf_trefs : trefs s' = trefs s; sf_locked : locked s' = locked s;
  sf_last : lasttime s' = lasttime s; sf_counter : counter s' = counter s; sf_systime : systime s' = systime s
}.

Lemma start_timeout_ok s me th timeout :
  0 < NIL_CFG_ST_TIMEDELTA → time_ok s → threads s !! me = Some th →
  let abstime := st (counter s + Z.max timeout NIL_CFG_ST_TIMEDELTA) in
  abstime ≠ lasttime s →
  ∃ s', start_timeout me timeout s = NDone tt s' ∧ threads s' = <[me := set_timeout (st (abstime - lasttime s)) th]> (threads s) ∧
    time_ok s' ∧ sleep_frame s s' ∧ current s' = current s.
Proof.
  intros HD [Hr Hon Hoff] E abstime Hne. pose proof (st_range (counter s + Z.max timeout NIL_CFG_ST_TIMEDELTA)) as Ha. fold abstime in Ha.
  assert (∀ x, x ∈ [lasttime s; abstime; counter s; systime s] → 0 ≤ x < 2 ^ NIL_CFG_ST_RESOLUTION) as Hr'.
  { intros x Hx. rewrite !elem_of_cons in Hx. destruct Hx as [->|[->|[->|[->|[]%elem_of_nil]]]]; try done; apply Hr; set_solver. }
  assert (st (abstime - lasttime s) ≠ 0) as Hnz by (intros E0; apply Hne; apply st_sub_0; [done|apply Hr; set_solver|done]).
  unfold start_timeout, chVTGetSystemTimeX. rewrite (proj2 (Z.eqb_neq _ _)) by lia.
  replace (if timeout <? NIL_CFG_ST_TIMEDELTA then NIL_CFG_ST_TIMEDELTA else timeout) with (Z.max timeout NIL_CFG_ST_TIMEDELTA)
    by (destruct (Z.ltb_spec timeout NIL_CFG_ST_TIMEDELTA); lia).
  erewrite nbind_done by done. cbv zeta. fold abstime. erewrite nbind_done by done. unfold id.
  destruct (alarm_active s) eqn:Eact.
  - destruct (Hon HD eq_refl) as (Eal & Hln & Hb). rewrite (proj2 (Z.eqb_neq _ _) Hln).
    unfold chVTIsTimeWithinX, stSetAlarm, nwhen. destruct (Z.ltb_spec (st (abstime - lasttime s)) (st (nexttime s - lasttime s))) as [Hlt|Hge].
    + erewrite nbind_done by (erewrite nbind_done by (erewrite nbind_done by done; by erewrite nbind_done by (by apply nassert_eq)); done).
      erewrite upd_thr_eq by done. eexists. split; [done|]. split_and!; try done. split; simpl; [done| |by rewrite Eact].
      intros _ _. split_and!; try done. intros j tj [[-> ->]|[_ Ej]]%lookup_insert_cases; [by right|]. destruct (Hb _ _ Ej); [by left|right; lia].
    + erewrite nbind_done by done. erewrite upd_thr_eq by done. eexists. split; [done|]. split_and!; try done.
      split; simpl; [done| |by rewrite Eact]. intros _ _. split_and!; try done.
      intros j tj [[-> ->]|[_ Ej]]%lookup_insert_cases; [by right|by eapply Hb].
  - destruct (Hoff HD eq_refl) as [Eln Hz]. rewrite (proj2 (Z.eqb_eq _ _) Eln). unfold stStartAlarm.
    erewrite nbind_done by (erewrite nbind_done by (erewrite nbind_done by done; erewrite nbind_done by (apply nassert_eq; by rewrite Eact); done); done).
    erewrite upd_thr_eq by done. eexists. split; [done|]. split_and!; try done. split; simpl; [done| |done].
    intros _ _. split_and!; try done. intros j tj [[-> ->]|[_ Ej]]%lookup_insert_cases; [by right|left; by eapply Hz].
Qed.

(** What a sleeping thread does when it is made current again. *)
Definition wake_msg : NM Z := me ← ngets current; th ← thr me; mret (s32 (u1 th)).

Lemma nbind_switch {A B} (m : NM A) (k : A → NM B) s s' c : m s = NSwitch s' c → (m ≫= k) s = NSwitch s' (λ x, nbind (c x) k).
Proof. intros E. by rewrite nbind_eq, E. Qed.

Lemma go_sleep_ok s th newstate timeout' :
  threads s !! current s = Some th → current s ≠ N → newstate ≠ NIL_STATE_READY → timeout th = 0 →
  time_ok s → sleep_ok timeout' s → locked s = true →
  (∀ t, 0 ≤ t < 2 ^ NIL_CFG_ST_RESOLUTION → objs (<[current s := mkThread newstate (u1 th) t (epmask th)]> (threads s)) (sems s) (trefs s)) →
  ∃ s', chSchGoSleepTimeoutS newstate timeout' s = NSwitch s' wake_msg ∧ K s' ∧ sleep_frame s s' ∧
    threads s' = <[current s := mkThread newstate (u1 th) (sleep_time timeout' s) (epmask th)]> (threads s).
Proof.
  intros E HN Hst Hth0 Ht [Hrange Hnw] Hlk Ho. set (me := current s) in *.
  set (s1 := set_threads (<[me := set_state newstate th]> (threads s)) s).
  assert (threads s1 !! me = Some (set_state newstate th)) as E1 by (apply list_lookup_insert_eq; by eapply lookup_lt_Some).
  assert (time_ok s1) as Ht1.
  { eapply (time_ok_clear s); try done. simpl. intros j tj [[-> ->]|[_ ?]]%lookup_insert_cases; right; [by exists th|by eexists]. }
  assert (∃ s2, (if 0 <? NIL_CFG_ST_TIMEDELTA then nwhen (negb (timeout' =? TIME_INFINITE)) (start_timeout me timeout')
                 else upd_thr me (set_timeout timeout')) s1 = NDone tt s2 ∧ time_ok s2 ∧ sleep_frame s1 s2 ∧ current s2 = me ∧
            threads s2 = <[me := mkThread newstate (u1 th) (sleep_time timeout' s) (epmask th)]> (threads s)) as (s2 & E2 & Ht2 & Hf2 & Hc2 & El2).
  { unfold sleep_time. destruct (Z.ltb_spec 0 NIL_CFG_ST_TIMEDELTA) as [HD|HD].
    - destruct (Z.eqb_spec timeout' TIME_INFINITE) as [->|Hinf].
      + exists s1. split_and!; try done. simpl. unfold set_state. by rewrite Hth0.
      + destruct (start_timeout_ok s1 me _ timeout' HD Ht1 E1 (Hnw HD Hinf)) as (s2 & Es & El & Ht2 & Hf & Hc).
        exists s2. split_and!; try done. rewrite El. simpl. by rewrite list_insert_insert_eq.
    - erewrite upd_thr_eq by done. eexists. split_and!; try done.
      + eapply Build_time_ok; [apply Ht1|lia|lia].
      + simpl. by rewrite list_insert_insert_eq. }
  assert (objs (threads s2) (sems s2) (trefs s2)) as Ho2.
  { destruct Hf2 as [-> -> _ _ _ _]. rewrite El2. apply Ho. unfold sleep_time.
    destruct (0 <? _); [|done]. destruct (timeout' =? _); [|apply st_range]. lia. }
  destruct (ob_idle _ _ _ Ho2) as (ti & Ei & Hi). destruct (first_exists _ _ _ Ei Hi) as (n & Hn & HnN).
  set (s3 := set_next n (set_current n s2)). exists s3. split_and!; [|split; [split|]| |done]; try done.
  - unfold chSchGoSleepTimeoutS. erewrite nbind_done by done. fold me.
    erewrite nbind_done by (apply nassert_eq; by rewrite (proj2 (Nat.eqb_neq _ _) HN)).
    erewrite nbind_done by (by apply upd_thr_eq). fold s1. erewrite nbind_done by exact E2.
    erewrite nbind_done by (apply (scan_ready_ok (S N) 0 _ n Hn); try done; lia).
    erewrite nbind_done by done. erewrite nbind_done by done. by erewrite nbind_switch by done.
  - split; [done|split|]; simpl; try done.
    + apply Hn.
    + eapply (time_ok_clear s2); try done. by right; eexists.
  - simpl. by destruct Hf2 as [_ _ -> _ _ _].
  - destruct Hf2. by split.
Qed.
End Inv.
