(* ===== verification/NilTimer.v ===== *)
(** * The timer of the Nil kernel

    What chSysTimerHandlerI does in both variants: the threads whose timeout
    ends are woken, the others keep their deadline, and the next alarm is at the
    earliest of them. *)

From S2P Require Import Prelude Nil NilInv.

Section Timer.
Context `{NilCfg}.
Notation N := NIL_CFG_NUM_THREADS.

(** A thread after [d] ticks. *)
Definition expire (d : Z) (th : thread) : thread :=
  if timeout th =? 0 then th
  else if timeout th =? d then woken MSG_TIMEOUT th
  else set_timeout (timeout th - d) th.

(** ** One thread *)

Lemma objs_timeout l sm tr i th t :
  objs l sm tr → l !! i = Some th → ¬ ready th → 0 ≤ t < 2 ^ NIL_CFG_ST_RESOLUTION → objs (<[i := set_timeout t th]> l) sm tr.
Proof.
  intros [Hl Hi Hr Hg Hc Hw Hf Hd] E Hn Ht.
  split; try done.
  - by rewrite length_insert.
  - destruct Hi as (t0 & E0 & H0). exists t0. rewrite list_lookup_insert_ne; [done|]. intros ->. by simplify_eq.
  - intros j tj [[-> ->]|[_ ?]]%lookup_insert_cases Hj; [by destruct Hn|by eapply Hr].
  - intros j tj [[-> ->]|[_ ?]]%lookup_insert_cases; [done|by eapply Hg].
  - intros a c Ea. pose proof (waiters_insert a _ _ _ (set_timeout t th) E) as Hwi.
    assert (w1 a (set_timeout t th) = w1 a th) as Ew by done. rewrite <-(proj2 (Hc _ _ Ea)). split; [apply (Hc _ _ Ea)|lia].
  - intros j tj [[-> ->]|[_ ?]]%lookup_insert_cases; [apply (Hw _ _ E)|by apply Hw].
  - intros a j Ea. destruct (Hf _ _ Ea) as (t0 & E0 & Hs & Hu). destruct (decide (j = i)) as [->|Hj].
    + simplify_eq. exists (set_timeout t th). split; [|done]. apply list_lookup_insert_eq. by eapply lookup_lt_Some.
    + exists t0. by rewrite list_lookup_insert_ne.
Qed.

Lemma sched_timeout s i th t :
  sched s → threads s !! i = Some th → ¬ ready th → sched (set_threads (<[i := set_timeout t th]> (threads s)) s).
Proof.
  intros [[(tn & En & Hrn) Hf] Hle (tc & Ec & Hrc)] E Hn.
  assert (∀ j tj, threads s !! j = Some tj → ready tj → <[i := set_timeout t th]> (threads s) !! j = Some tj) as Hkeep.
  { intros j tj Ej Hj. rewrite list_lookup_insert_ne; [done|]. intros ->. by simplify_eq. }
  split; simpl; [split| |].
  - exists tn. split; [by apply Hkeep|done].
  - intros j tj Hj [[-> ->]|[_ ?]]%lookup_insert_cases; [by apply Hn|by apply (Hf j)].
  - done.
  - exists tc. split; [by apply Hkeep|done].
Qed.

(** Releasing a thread changes a counter by the number of its waiting threads. *)
Lemma release_lookup th sm a : release_sem th sm !! a = Z.add (Z.of_nat (w1 a th)) <$> sm !! a.
Proof.
  unfold release_sem, w1. destruct (state th); try (destruct (sm !! a); simpl; f_equal; lia).
  destruct (Z.eqb_spec (u1 th) a) as [->|Ha].
  - rewrite lookup_alter_eq. done.
  - rewrite lookup_alter_ne by done. by destruct (sm !! a).
Qed.

Lemma timed_out_ok s i th :
  objs (threads s) (sems s) (trefs s) → sched s → threads s !! i = Some th → ¬ ready th → msg_ok (sems s) MSG_TIMEOUT →
  ∃ s', timed_out i s = NDone tt s' ∧ same_env s s' ∧ sched s' ∧
    threads s' = <[i := woken MSG_TIMEOUT th]> (threads s) ∧ sems s' = release_sem th (sems s) ∧ trefs s' = release_ref th (trefs s).
Proof.
  intros Ho Hs E Hn Hm. pose proof (ob_word _ _ _ Ho _ _ E) as Hw. unfold word_ok in Hw.
  assert (∃ s1, (if NIL_THD_IS_WTSEM th then _ ← cnt_inc (u1 th); mret ()
                 else nwhen (NIL_THD_IS_SUSP th) (set_tref (u1 th) None)) s = NDone tt s1 ∧ same_env s s1 ∧ next s1 = next s ∧
            threads s1 = threads s ∧ sems s1 = release_sem th (sems s) ∧ trefs s1 = release_ref th (trefs s)) as (s1 & E1 & Henv & En & El & Es & Er).
  { unfold NIL_THD_IS_WTSEM, NIL_THD_IS_SUSP, release_sem, release_ref, nwhen. destruct (state th) eqn:Est; simpl.
    1-2, 5: by exists s.
    - unfold set_tref, tref. erewrite nbind_done by (by apply (nderef_eq (λ s, trefs s !! u1 th))). by eexists.
    - destruct Hw as [c Ec]. destruct (ob_cnt _ _ _ Ho _ _ Ec) as [_ Hc].
      assert (0 < waiters (u1 th) (threads s))%nat by (eapply waiters_pos; [done|by apply w1_1]).
      erewrite nbind_done by (apply cnt_inc_eq; [done|unfold INT32_MAX; lia]). eexists. split_and!; try done.
      simpl. apply map_eq. intros a. destruct (decide (a = u1 th)) as [->|Ha].
      + rewrite lookup_insert_eq, lookup_alter_eq, Ec. simpl. f_equal. lia.
      + by rewrite lookup_insert_ne, lookup_alter_ne. }
  assert (sched s1) as Hs1 by (apply (sched_ext s); try done; apply Henv).
  unfold timed_out. erewrite nbind_done by (by apply thr_eq). erewrite nbind_done by exact E1.
  erewrite nbind_done by (apply chSchReadyI_eq; [done|by rewrite El|done|by eapply not_idle]).
  eexists. split; [done|]. split; [eapply same_env_trans; [exact Henv|by split]|]. split; [apply wake_sched; [done|by rewrite El|done]|].
  simpl. by rewrite El.
Qed.

(** ** The loops *)

(** After [k] threads. *)
Record progress (d : Z) (s : nil_system) (k : nat) (s' : nil_system) : Prop := {
  pg_threads : threads s' = (expire d <$> take k (threads s)) ++ drop k (threads s);
  pg_objs : objs (threads s') (sems s') (trefs s');
  pg_sched : sched s';
  pg_env : same_env s s';
  pg_sems : ∀ a, sems s' !! a = (λ c, c + (Z.of_nat (waiters a (threads s)) - Z.of_nat (waiters a (threads s')))) <$> sems s !! a;
  pg_dom : dom (trefs s') = dom (trefs s)
}.

Lemma progress_0 d s : objs (threads s) (sems s) (trefs s) → sched s → progress d s 0 s.
Proof.
  intros Ho Hs. split; try done. intros a. destruct (sems s !! a); simpl; [f_equal; lia|done].
Qed.

Lemma progress_lookup d s k s' th : progress d s k s' → threads s !! k = Some th → threads s' !! k = Some th.
Proof.
  intros Hp E. apply lookup_lt_Some in E as Hlt. rewrite (pg_threads _ _ _ _ Hp), lookup_app_r by (rewrite length_fmap, length_take; lia).
  rewrite length_fmap, length_take, lookup_drop. rewrite <-E. f_equal. lia.
Qed.

Lemma progress_step d s k s1 s2 th th' :
  progress d s k s1 → threads s !! k = Some th → th' = expire d th →
  threads s2 = <[k := th']> (threads s1) → objs (threads s2) (sems s2) (trefs s2) → sched s2 → same_env s1 s2 →
  (∀ a, sems s2 !! a = Z.add (Z.of_nat (w1 a th) - Z.of_nat (w1 a th')) <$> sems s1 !! a) → dom (trefs s2) = dom (trefs s1) →
  progress d s (S k) s2.
Proof.
  intros Hp E -> El Ho Hs Henv Hsm Hd. pose proof (progress_lookup _ _ _ _ _ Hp E) as E1. pose proof (lookup_lt_Some _ _ _ E) as Hlt.
  split; try done.
  - rewrite El, (pg_threads _ _ _ _ Hp), insert_app_r_alt by (rewrite length_fmap, length_take; lia).
    rewrite length_fmap, length_take. replace (k - k `min` length (threads s))%nat with 0%nat by lia.
    rewrite (take_S_r _ _ _ E), fmap_app, <-app_assoc. f_equal. by rewrite (drop_S _ _ _ E).
  - eapply same_env_trans; [apply Hp|done].
  - intros a. rewrite Hsm, (pg_sems _ _ _ _ Hp). destruct (sems s !! a) as [c|]; simpl; [|done]. f_equal.
    pose proof (waiters_insert a _ _ _ (expire d th) E1) as Hw. rewrite El. lia.
  - by rewrite Hd, (pg_dom _ _ _ _ Hp).
Qed.

(** A thread whose timeout ends, or goes on. *)
Lemma progress_out d s k s1 th s2 :
  progress d s k s1 → msg_ok (sems s) MSG_TIMEOUT → threads s !! k = Some th → ¬ ready th → timeout th = d → 0 < d →
  threads s2 = <[k := set_timeout 0 th]> (threads s1) → sems s2 = sems s1 → trefs s2 = trefs s1 → next s2 = next s1 → same_env s1 s2 →
  ∃ s3, timed_out k s2 = NDone tt s3 ∧ progress d s (S k) s3.
Proof.
  intros Hp Hm E Hn Ed Hd El Es Er En Henv. pose proof (progress_lookup _ _ _ _ _ Hp E) as E1.
  pose proof (lookup_lt_Some _ _ _ E1) as Hlt.
  assert (threads s2 !! k = Some (set_timeout 0 th)) as E2 by (by rewrite El, list_lookup_insert_eq).
  assert (objs (threads s2) (sems s2) (trefs s2)) as Ho2.
  { rewrite El, Es, Er. apply objs_timeout; [apply Hp|done|done|]. pose proof (ob_range _ _ _ (pg_objs _ _ _ _ Hp) _ _ E1). lia. }
  assert (sched s2) as Hs2.
  { apply (sched_ext (set_threads (<[k := set_timeout 0 th]> (threads s1)) s1)); [by apply sched_timeout; [apply Hp|..]|done|done|apply Henv]. }
  assert (msg_ok (sems s2) MSG_TIMEOUT) as Hm2.
  { unfold msg_ok in *. by rewrite Es, (pg_sems _ _ _ _ Hp), Hm. }
  destruct (timed_out_ok s2 k (set_timeout 0 th) Ho2 Hs2 E2 Hn Hm2) as (s3 & E3 & Henv3 & Hs3 & El3 & Es3 & Er3).
  exists s3. split; [done|]. eapply (progress_step d s k s1 s3 th); [done|done|reflexivity|..].
  - rewrite El3, El, list_insert_insert_eq. unfold expire. rewrite (proj2 (Z.eqb_neq _ _)), (proj2 (Z.eqb_eq _ _) Ed) by lia. done.
  - rewrite El3, Es3, Er3. by apply wake_objs.
  - done.
  - by eapply same_env_trans.
  - intros a. rewrite Es3, release_lookup, Es. unfold expire. rewrite (proj2 (Z.eqb_neq _ _)), (proj2 (Z.eqb_eq _ _) Ed) by lia.
    rewrite w1_woken, Z.sub_0_r. done.
  - rewrite Er3, Er. unfold release_ref. simpl. destruct (state th) eqn:Est; try done.
    pose proof (ob_word _ _ _ (pg_objs _ _ _ _ Hp) _ _ E1) as Hw. unfold word_ok in Hw. rewrite Est in Hw.
    rewrite dom_insert_L. apply elem_of_dom_2 in Hw. set_solver.
Qed.

Lemma progress_on d s k s1 th :
  progress d s k s1 → threads s !! k = Some th → ¬ ready th → 0 < d < timeout th →
  progress d s (S k) (set_threads (<[k := set_timeout (timeout th - d) th]> (threads s1)) s1).
Proof.
  intros Hp E Hn Hd. pose proof (progress_lookup _ _ _ _ _ Hp E) as E1.
  assert (set_timeout (timeout th - d) th = expire d th) as Ex
    by (unfold expire; by rewrite (proj2 (Z.eqb_neq (timeout th) 0)), (proj2 (Z.eqb_neq _ d)) by lia).
  eapply (progress_step d s k s1 _ th); [done|done|exact Ex|done|..]; try done.
  - apply objs_timeout; [apply Hp|done|done|]. pose proof (ob_range _ _ _ (pg_objs _ _ _ _ Hp) _ _ E1). lia.
  - by apply sched_timeout; [apply Hp|..].
  - intros a. simpl. assert (w1 a (set_timeout (timeout th - d) th) = w1 a th) as -> by done. destruct (sems s1 !! a); simpl; [f_equal; lia|done].
Qed.

Lemma progress_skip d s k s1 th :
  progress d s k s1 → threads s !! k = Some th → timeout th = 0 → progress d s (S k) s1.
Proof.
  intros Hp E Hz. pose proof (progress_lookup _ _ _ _ _ Hp E) as E1.
  eapply (progress_step d s k s1 s1 th th); try done.
  - unfold expire. by rewrite Hz.
  - by rewrite list_insert_id.
  - apply Hp.
  - apply Hp.
  - intros a. destruct (sems s1 !! a); simpl; [f_equal; lia|done].
Qed.

Lemma relock {A} (m : NM A) s : locked s = true → (chSysUnlockFromISR ;; chSysLockFromISR ;; m) s = m s.
Proof. intros Hl. rewrite nbind_eq. simpl. rewrite nbind_eq. simpl. f_equal. destruct s. simpl in *. by subst. Qed.

Lemma tick_loop_ok s m : ∀ k s1,
  (k + m = N)%nat → locked s = true → msg_ok (sems s) MSG_TIMEOUT → progress 1 s k s1 →
  ∃ s2, tick_loop m k s1 = NDone tt s2 ∧ progress 1 s N s2.
Proof.
  induction m as [|m IH]; intros k s1 Hk Hl Hm Hp; [exists s1; by replace k with N in Hp by lia|].
  assert (is_Some (threads s1 !! k)) as [th E1] by (apply lookup_lt_is_Some; rewrite (ob_len _ _ _ (pg_objs _ _ _ _ Hp)); lia).
  assert (threads s !! k = Some th) as E.
  { assert (is_Some (threads s !! k)) as [t0 E0].
    { apply lookup_lt_is_Some. apply lookup_lt_Some in E1. rewrite (pg_threads _ _ _ _ Hp), length_app, length_fmap, length_take, length_drop in E1. lia. }
    rewrite (progress_lookup _ _ _ _ _ Hp E0) in E1. by simplify_eq. }
  simpl. erewrite nbind_done by (by apply thr_eq).
  enough (∃ s2, nwhen (0 <? timeout th) (chDbgAssert (negb (NIL_THD_IS_READY th)) "chSysTimerHandlerI" ;;
            upd_thr k (set_timeout (timeout th - 1)) ;; nwhen (timeout th - 1 =? 0) (timed_out k)) s1 = NDone tt s2 ∧ progress 1 s (S k) s2) as (s2 & E2 & Hp2).
  { erewrite nbind_done by exact E2. rewrite relock by (rewrite (se_lock _ _ (pg_env _ _ _ _ Hp2)); done). apply IH; [lia|done..]. }
  pose proof (ob_range _ _ _ (pg_objs _ _ _ _ Hp) _ _ E1) as Hr.
  unfold nwhen. destruct (Z.ltb_spec 0 (timeout th)) as [Ht|Ht]; [|exists s1; split; [done|eapply progress_skip; [done|done|lia]]].
  assert (¬ ready th) as Hn by (intros Hrd; pose proof (ob_ready _ _ _ (pg_objs _ _ _ _ Hp) _ _ E1 Hrd); lia).
  erewrite nbind_done by (apply nassert_eq; by rewrite (proj2 (is_ready_not th) Hn)).
  erewrite nbind_done by (by apply upd_thr_eq). destruct (Z.eqb_spec (timeout th - 1) 0) as [Hz|Hz].
  - rewrite Hz. destruct (progress_out 1 s k s1 th (set_threads (<[k := set_timeout 0 th]> (threads s1)) s1)) as (s2 & E2 & Hp2); try done; [lia|].
    by exists s2.
  - eexists. split; [done|]. apply progress_on; try done. lia.
Qed.

(** [nx] is the earliest of the timeouts [ts], 0 if there is none. *)
Definition earliest (nx : Z) (l : list thread) : Prop :=
  (nx = 0 ∧ ∀ i th, l !! i = Some th → timeout th = 0) ∨
  (0 < nx < 2 ^ NIL_CFG_ST_RESOLUTION ∧ (∃ i th, l !! i = Some th ∧ timeout th = nx) ∧ ∀ i th, l !! i = Some th → timeout th = 0 ∨ nx ≤ timeout th).

Lemma earliest_snoc nx l th :
  earliest nx l → 0 ≤ timeout th < 2 ^ NIL_CFG_ST_RESOLUTION →
  earliest (if timeout th =? 0 then nx else if timeout th <=? st (nx - 1) then timeout th else nx) (l ++ [th]).
Proof.
  intros He Hr.
  assert (∀ i ti, (l ++ [th]) !! i = Some ti → l !! i = Some ti ∨ ti = th) as Hlk.
  { intros i ti [E|[_ E]]%lookup_app_Some; [by left|]. right. by apply list_elem_of_lookup_2, list_elem_of_singleton in E. }
  assert ((l ++ [th]) !! length l = Some th) as Hlast by (rewrite lookup_app_r, Nat.sub_diag by lia; done).
  assert (st (nx - 1) = if nx =? 0 then 2 ^ NIL_CFG_ST_RESOLUTION - 1 else nx - 1) as Est.
  { unfold st. destruct He as [[-> _]|[Hnx _]].
    - rewrite Z.eqb_refl, <-(Z_mod_plus_full _ 1), Z.mod_small; lia.
    - rewrite (proj2 (Z.eqb_neq _ _)) by lia. apply Z.mod_small. lia. }
  rewrite Est. destruct (Z.eqb_spec (timeout th) 0) as [Hz|Hz].
  - destruct He as [[-> Ha]|(Hnx & (i & ti & Ei & Hi) & Ha)]; [left|right; split_and!; try lia].
    + split; [done|]. intros i ti [E| ->]%Hlk; [by eapply Ha|done].
    + exists i, ti. split; [|done]. rewrite lookup_app_l; [done|by eapply lookup_lt_Some].
    + intros j tj [E| ->]%Hlk; [by eapply Ha|by left].
  - destruct He as [[-> Ha]|(Hnx & (i & ti & Ei & Hi) & Ha)]; simpl.
    + rewrite (proj2 (Z.leb_le _ _)) by lia. right. split_and!; [lia|lia|by exists (length l), th|].
      intros j tj [E| ->]%Hlk; [left; by eapply Ha|by right].
    + rewrite (proj2 (Z.eqb_neq nx 0)) by lia. destruct (Z.leb_spec (timeout th) (nx - 1)); right; split_and!; try lia.
      * by exists (length l), th.
      * intros j tj [E| ->]%Hlk; [|by right]. destruct (Ha _ _ E); [by left|right; lia].
      * exists i, ti. split; [|done]. rewrite lookup_app_l; [done|by eapply lookup_lt_Some].
      * intros j tj [E| ->]%Hlk; [by eapply Ha|right; lia].
Qed.

(** The difference of two times before it is stored, whatever its width. *)
Lemma st_diff_le x y : 0 ≤ x < 2 ^ NIL_CFG_ST_RESOLUTION → 0 ≤ y < 2 ^ NIL_CFG_ST_RESOLUTION → st_diff x y ≤ st (x - y).
Proof.
  intros Hx Hy. unfold st_diff. pose proof (st_range (x - y)). destruct (_ =? _); [|lia].
  destruct (Z.le_gt_cases y x); [unfold st; rewrite Z.mod_small; lia|lia].
Qed.
Lemma st_sub_diff t x y : st (t - st_diff x y) = st (t - st (x - y)).
Proof. unfold st_diff, st. destruct (_ =? _); [|done]. by rewrite Zminus_mod_idemp_r. Qed.

Lemma alarm_loop_ok s d m : ∀ k nx s1,
  (k + m = N)%nat → locked s = true → msg_ok (sems s) MSG_TIMEOUT → d = st (nexttime s - lasttime s) → 0 < d → time_ok s →
  (∀ i th, threads s !! i = Some th → timeout th = 0 ∨ d ≤ timeout th) →
  progress d s k s1 → earliest nx (expire d <$> take k (threads s)) →
  ∃ nx' s2, alarm_loop m k nx s1 = NDone nx' s2 ∧ progress d s N s2 ∧ earliest nx' (expire d <$> take N (threads s)).
Proof.
  induction m as [|m IH]; intros k nx s1 Hk Hl Hm Ed Hd Htm Hall Hp Hnx; [exists nx, s1; by replace k with N in * by lia|].
  assert (is_Some (threads s !! k)) as [th E].
  { apply lookup_lt_is_Some. pose proof (f_equal length (pg_threads _ _ _ _ Hp)) as El.
    rewrite (ob_len _ _ _ (pg_objs _ _ _ _ Hp)), length_app, length_fmap, length_take, length_drop in El. lia. }
  pose proof (progress_lookup _ _ _ _ _ Hp E) as E1. pose proof (ob_range _ _ _ (pg_objs _ _ _ _ Hp) _ _ E1) as Hr.
  cbn [alarm_loop]. erewrite nbind_done by (by apply thr_eq). erewrite nbind_done by done. cbv zeta.
  assert (nexttime (id s1) = nexttime s) as -> by apply (se_nexttime _ _ (pg_env _ _ _ _ Hp)).
  assert (lasttime (id s1) = lasttime s) as -> by apply (se_last _ _ (pg_env _ _ _ _ Hp)).
  rewrite st_sub_diff, <-Ed.
  assert (st_diff (nexttime s) (lasttime s) ≤ d) as Hdiff by (rewrite Ed; apply st_diff_le; apply (tm_range _ Htm); set_solver).
  set (nx' := if timeout (expire d th) =? 0 then nx else if timeout (expire d th) <=? st (nx - 1) then timeout (expire d th) else nx).
  assert (0 ≤ timeout (expire d th) < 2 ^ NIL_CFG_ST_RESOLUTION) as Hr'.
  { unfold expire. destruct (Z.eqb_spec (timeout th) 0); [done|]. destruct (Z.eqb_spec (timeout th) d); simpl; [lia|].
    destruct (Hall _ _ E); lia. }
  assert (earliest nx' (expire d <$> take (S k) (threads s))) as Hnx'.
  { rewrite (take_S_r _ _ _ E), fmap_app. by apply earliest_snoc. }
  match goal with |- ∃ _ _, (?b ≫= _) _ = _ ∧ _ => enough (∃ s2, b s1 = NDone nx' s2 ∧ progress d s (S k) s2) as (s2 & E2 & Hp2) end.
  { erewrite nbind_done by exact E2. rewrite relock by (rewrite (se_lock _ _ (pg_env _ _ _ _ Hp2)); done). apply IH; [lia|done..]. }
  unfold nx', expire. destruct (Z.ltb_spec 0 (timeout th)) as [Ht|Ht].
  2: { assert (timeout th = 0) as Hz by lia. rewrite Hz. simpl. rewrite Hz. simpl.
       exists s1. split; [done|eapply progress_skip; [done|done|lia]]. }
  destruct (Hall _ _ E) as [|Hge]; [lia|]. rewrite (proj2 (Z.eqb_neq (timeout th) 0)) by lia.
  assert (¬ ready th) as Hn by (intros Hrd; pose proof (ob_ready _ _ _ (pg_objs _ _ _ _ Hp) _ _ E1 Hrd); lia).
  erewrite nbind_done by (apply nassert_eq; by rewrite (proj2 (is_ready_not th) Hn)).
  erewrite nbind_done by (apply nassert_eq, Z.leb_le; lia).
  assert (st (timeout th - d) = timeout th - d) as -> by (apply Z.mod_small; lia).
  erewrite nbind_done by (by apply upd_thr_eq). destruct (Z.eqb_spec (timeout th) d) as [Hz|Hz].
  - replace (timeout th - d) with 0 by lia. rewrite Z.eqb_refl. simpl.
    destruct (progress_out d s k s1 th (set_threads (<[k := set_timeout 0 th]> (threads s1)) s1)) as (s2 & E2 & Hp2); try done.
    exists s2. split; [|done]. by erewrite nbind_done by exact E2.
  - rewrite (proj2 (Z.eqb_neq (timeout th - d) 0)) by lia. simpl. rewrite (proj2 (Z.eqb_neq (timeout th - d) 0)) by lia.
    eexists. split; [done|]. apply progress_on; try done. lia.
Qed.

(** ** The handler *)

(** The time from which timeouts count, and the time of the event the handler
    serves. *)
Definition base_time (s : nil_system) : Z := if NIL_CFG_ST_TIMEDELTA =? 0 then systime s else lasttime s.
Definition event_time (s : nil_system) : Z := if NIL_CFG_ST_TIMEDELTA =? 0 then st (systime s + 1) else nexttime s.
Definition elapsed (s : nil_system) : Z := st (event_time s - base_time s).
Definition deadline (s : nil_system) (th : thread) : Z := st (base_time s + timeout th).

(** What is left of the scheduled alarm: it is at the earliest deadline, and stopped when there is none. *)
Definition alarm_next (s : nil_system) : Prop :=
  if alarm_active s then alarm s = nexttime s ∧ ∃ i th, threads s !! i = Some th ∧ timeout th ≠ 0 ∧ deadline s th = alarm s
  else ∀ i th, threads s !! i = Some th → timeout th = 0.

Lemma td_cases : (NIL_CFG_ST_TIMEDELTA = 0 ∧ (NIL_CFG_ST_TIMEDELTA =? 0) = true) ∨ (0 < NIL_CFG_ST_TIMEDELTA ∧ (NIL_CFG_ST_TIMEDELTA =? 0) = false).
Proof. destruct cfg_timedelta as [->|]; [by left|right]. split; [lia|]. apply Z.eqb_neq. lia. Qed.

Lemma st_small x : 0 ≤ x < 2 ^ NIL_CFG_ST_RESOLUTION → st x = x.
Proof. apply Z.mod_small. Qed.
Lemma st_1 : st 1 = 1.
Proof. apply st_small. destruct cfg_resolution as [->| ->]; lia. Qed.

Lemma progress_all d s s' : objs (threads s) (sems s) (trefs s) → progress d s N s' → threads s' = expire d <$> threads s.
Proof.
  intros Ho Hp. rewrite (pg_threads _ _ _ _ Hp). destruct (ob_idle _ _ _ Ho) as (ti & Ei & Hi).
  rewrite (drop_S _ _ _ Ei), drop_ge by (rewrite (ob_len _ _ _ Ho); lia).
  rewrite <-(take_drop N (threads s)) at 2. rewrite fmap_app. f_equal.
  rewrite (drop_S _ _ _ Ei), drop_ge by (rewrite (ob_len _ _ _ Ho); lia). simpl. f_equal.
  unfold expire. by rewrite (ob_ready _ _ _ Ho _ _ Ei Hi).
Qed.

Lemma earliest_idle d nx s :
  objs (threads s) (sems s) (trefs s) → earliest nx (expire d <$> take N (threads s)) → earliest nx (expire d <$> threads s).
Proof.
  intros Ho He. destruct (ob_idle _ _ _ Ho) as (ti & Ei & Hi). pose proof (ob_ready _ _ _ Ho _ _ Ei Hi) as Hz.
  pose proof (earliest_snoc nx _ ti He) as Hs. rewrite Hz in Hs. simpl in Hs.
  replace (expire d <$> threads s) with ((expire d <$> take N (threads s)) ++ [ti]).
  - apply Hs. pose proof (st_range 0). lia.
  - rewrite <-(take_drop N (threads s)) at 2. rewrite fmap_app. f_equal.
    rewrite (drop_S _ _ _ Ei), drop_ge by (rewrite (ob_len _ _ _ Ho); lia). simpl. unfold expire. by rewrite Hz.
Qed.

(** The handler, on the lists. *)
Record handled (s s' : nil_system) : Prop := {
  hd_threads : threads s' = expire (elapsed s) <$> threads s;
  hd_sems : ∀ a, sems s' !! a = (λ c, c + (Z.of_nat (waiters a (threads s)) - Z.of_nat (waiters a (threads s')))) <$> sems s !! a;
  hd_dom : dom (trefs s') = dom (trefs s);
  hd_base : base_time s' = event_time s;
  hd_current : current s' = current s;
  hd_next : 0 < NIL_CFG_ST_TIMEDELTA → alarm_next s'
}.

Lemma handler_periodic s :
  NIL_CFG_ST_TIMEDELTA = 0 → C s → locked s = true → msg_ok (sems s) MSG_TIMEOUT →
  ∃ s', chSysTimerHandlerI s = NDone tt s' ∧ L s' ∧ handled s s'.
Proof.
  intros HD [Ho Hs Ht] Hl Hm. set (s0 := set_systime (st (systime s + 1)) s).
  destruct (tick_loop_ok s0 N 0 s0) as (s' & E & Hp); [lia|done|done|apply progress_0; [done|by apply (sched_ext s)]|].
  pose proof (pg_env _ _ _ _ Hp) as Henv.
  assert (elapsed s = 1) as Eel.
  { unfold elapsed, event_time, base_time. rewrite HD. simpl. unfold st. rewrite Zminus_mod_idemp_l. replace (systime s + 1 - systime s) with 1 by lia. apply st_1. }
  exists s'. split; [unfold chSysTimerHandlerI; rewrite HD; simpl; by erewrite nbind_done by done|]. split.
  - split; [split|by rewrite (se_lock _ _ Henv)]; [apply Hp|apply Hp|]. split; [|lia|lia].
    destruct Henv as [_ _ -> -> -> -> _ _]. simpl. intros x Hx. rewrite !elem_of_cons in Hx.
    destruct Ht as [Hr _ _]. destruct Hx as [->|[->|[->|[->|[]%elem_of_nil]]]]; [apply Hr; set_solver..|apply st_range].
  - split.
    + rewrite Eel. by apply (progress_all 1 s0).
    + apply (pg_sems _ _ _ _ Hp).
    + apply (pg_dom _ _ _ _ Hp).
    + unfold base_time, event_time. rewrite HD. simpl. by rewrite (se_systime _ _ Henv).
    + apply (se_current _ _ Henv).
    + lia.
Qed.

Lemma handler_tickless s :
  0 < NIL_CFG_ST_TIMEDELTA → C s → locked s = true → alarm_active s = true → msg_ok (sems s) MSG_TIMEOUT →
  ∃ s', chSysTimerHandlerI s = NDone tt s' ∧ L s' ∧ handled s s'.
Proof.
  intros HD [Ho Hs Ht] Hl Ha Hm. destruct (tm_on _ Ht HD Ha) as (Eal & Hln & Hall).
  assert ((NIL_CFG_ST_TIMEDELTA =? 0) = false) as ED by (apply Z.eqb_neq; lia).
  set (d := st (nexttime s - lasttime s)) in *.
  assert (0 < d) as Hd.
  { pose proof (st_range (nexttime s - lasttime s)). assert (d ≠ 0); [|unfold d in *; lia].
    intros E0. apply Hln. symmetry. apply st_sub_0; [apply Ht; set_solver..|done]. }
  destruct (alarm_loop_ok s d N 0 0 s) as (nx & s1 & E & Hp & Hnx); [lia|done|done|done|done|done|done|by apply progress_0|by left|].
  pose proof (pg_env _ _ _ _ Hp) as Henv. pose proof (progress_all _ _ _ Ho Hp) as El.
  apply earliest_idle in Hnx; [|done]. rewrite <-El in Hnx.
  assert (elapsed s = d) as Eel by (unfold elapsed, event_time, base_time; by rewrite ED).
  assert (∀ x, x ∈ [lasttime s; nexttime s; counter s; systime s] → 0 ≤ x < 2 ^ NIL_CFG_ST_RESOLUTION) as Hr by apply Ht.
  unfold chSysTimerHandlerI. rewrite ED. unfold stGetAlarm.
  erewrite nbind_done by done. erewrite nbind_done by (erewrite nbind_done by done; by erewrite nbind_done by (by apply nassert_eq)).
  erewrite nbind_done by (apply nassert_eq; apply Z.eqb_eq; by rewrite Eal). erewrite nbind_done by exact E. erewrite nbind_done by done.
  set (s2 := set_lasttime (nexttime s1) s1).
  assert (base_time s2 = event_time s) as Eb by (unfold base_time, event_time; rewrite ED; apply (se_nexttime _ _ Henv)).
  destruct Hnx as [[-> Hz]|(Hnx & (i & ti & Ei & Hi) & Hmin)].
  - eexists. split; [simpl; done|]. split; [split; [split|]|split]; try done.
    + apply Hp.
    + apply (sched_ext s1); [apply Hp|done..].
    + split; simpl; [|done|].
      * intros x Hx. apply Hr. rewrite (se_nexttime _ _ Henv), (se_counter _ _ Henv), (se_systime _ _ Henv) in Hx. set_solver.
      * intros _ _. split; [done|exact Hz].
    + simpl. by rewrite (se_lock _ _ Henv).
    + by rewrite Eel.
    + apply (pg_sems _ _ _ _ Hp).
    + apply (pg_dom _ _ _ _ Hp).
    + simpl. apply (se_current _ _ Henv).
  - rewrite (proj2 (Z.ltb_lt _ _)) by lia. unfold stSetAlarm. erewrite nbind_done by done. erewrite nbind_done by done.
    erewrite nbind_done by done. erewrite nbind_done by (apply nassert_eq; simpl; by rewrite (se_active _ _ Henv)).
    assert (st (st (nexttime s1 + nx) - nexttime s1) = nx) as Edd.
    { unfold st. rewrite Zminus_mod_idemp_l. replace (nexttime s1 + nx - nexttime s1) with nx by lia. apply Z.mod_small. lia. }
    eexists. split; [done|]. split; [split; [split|]|split]; simpl; try done.
    + apply Hp.
    + apply (sched_ext s1); [apply Hp|done..].
    + split; simpl.
      * intros x Hx. rewrite !elem_of_cons in Hx. rewrite (se_nexttime _ _ Henv), (se_counter _ _ Henv), (se_systime _ _ Henv) in Hx.
        destruct Hx as [->|[->|[->|[->|[]%elem_of_nil]]]]; [apply Hr; set_solver|apply st_range|apply Hr; set_solver..].
      * intros _ _. split_and!; [done| |].
        -- intros E0. rewrite <-E0, Z.sub_diag in Edd. unfold st in Edd. rewrite Z.mod_0_l in Edd by (pose proof (st_range 0); lia). lia.
        -- intros j tj Ej. rewrite Edd. by eapply Hmin.
      * intros _ Hx. by rewrite (se_active _ _ Henv), Ha in Hx.
    + by rewrite (se_lock _ _ Henv).
    + by rewrite Eel.
    + apply (pg_sems _ _ _ _ Hp).
    + apply (pg_dom _ _ _ _ Hp).
    + apply (se_current _ _ Henv).
    + intros _. unfold alarm_next, deadline, base_time. simpl. rewrite (se_active _ _ Henv), Ha, ED. simpl.
      split; [done|]. exists i, ti. split_and!; [done|lia|]. by rewrite Hi.
Qed.

Lemma handler_ok s :
  C s → locked s = true → (0 < NIL_CFG_ST_TIMEDELTA → alarm_active s = true) → msg_ok (sems s) MSG_TIMEOUT →
  ∃ s', chSysTimerHandlerI s = NDone tt s' ∧ L s' ∧ handled s s'.
Proof. intros HC Hl Ha Hm. destruct td_cases as [[HD _]|[HD _]]; [by apply handler_periodic|apply handler_tickless; auto]. Qed.
End Timer.

(** The deadlines of the threads before and after the handler. *)
Lemma expire_deadline `{NilCfg} s s' th :
  0 ≤ timeout th < 2 ^ NIL_CFG_ST_RESOLUTION → base_time s' = event_time s → 0 ≤ event_time s < 2 ^ NIL_CFG_ST_RESOLUTION →
  let th' := expire (elapsed s) th in
  (timeout th = 0 → th' = th) ∧
  (timeout th ≠ 0 → deadline s th = event_time s → th' = woken MSG_TIMEOUT th) ∧
  (timeout th ≠ 0 → deadline s th ≠ event_time s → th' = set_timeout (timeout th') th ∧ timeout th' ≠ 0 ∧ deadline s' th' = deadline s th).
Proof.
  intros Ht Eb Hev th'.
  assert (timeout th = elapsed s ↔ deadline s th = event_time s) as Hiff.
  { unfold elapsed, deadline, st. split; intros E.
    - rewrite E, Zplus_mod_idemp_r. replace (base_time s + (event_time s - base_time s)) with (event_time s) by lia. by apply Z.mod_small.
    - rewrite <-E, Zminus_mod_idemp_l. replace (base_time s + timeout th - base_time s) with (timeout th) by lia. by rewrite Z.mod_small. }
  unfold th', expire. destruct (Z.eqb_spec (timeout th) 0) as [Hz|Hz]; [by split_and!|].
  destruct (Z.eqb_spec (timeout th) (elapsed s)) as [He|He]; [naive_solver|].
  split_and!; [done|naive_solver|]. intros _ Hne. simpl. split_and!; [done|lia|]. unfold deadline at 1. simpl. rewrite Eb.
  unfold elapsed, deadline, st. rewrite <-Zplus_mod_idemp_r, Zminus_mod_idemp_r, Zplus_mod_idemp_r. f_equal. lia.
Qed.

(** C22.  The timer handler serves exactly the threads whose deadline is the time
    of the event, periodic or tick-less: a thread without a timeout is not
    touched, one whose deadline has come is made ready with the message
    MSG_TIMEOUT, and every other one goes on waiting for what it waited for, with
    the same deadline on a new time base.  The counters of semaphores give back
    the places of the threads that gave up; in the tick-less variant the alarm is
    moved to a deadline of a thread still waiting, never after the
    deadline of another, and stopped when there is none. *)
Theorem nil_timer_handler_correct `{NilCfg} s :
  C s → locked s = true → (0 < NIL_CFG_ST_TIMEDELTA → alarm_active s = true) → msg_ok (sems s) MSG_TIMEOUT →
  ∃ s', chSysTimerHandlerI s = NDone tt s' ∧ C s' ∧ base_time s' = event_time s ∧
    (∀ i th, threads s !! i = Some th → ∃ th', threads s' !! i = Some th' ∧
       (timeout th = 0 → th' = th) ∧
       (timeout th ≠ 0 → deadline s th = event_time s → th' = woken MSG_TIMEOUT th) ∧
       (timeout th ≠ 0 → deadline s th ≠ event_time s →
          th' = set_timeout (timeout th') th ∧ timeout th' ≠ 0 ∧ deadline s' th' = deadline s th)) ∧
    (∀ a c, sems s !! a = Some c → ∃ c', sems s' !! a = Some c' ∧
       c' + Z.of_nat (waiters a (threads s')) = c + Z.of_nat (waiters a (threads s))) ∧
    (0 < NIL_CFG_ST_TIMEDELTA → alarm_next s').
Proof.
  intros HC Hl Ha Hm. destruct (handler_ok s HC Hl Ha Hm) as (s' & E & [HC' Hl'] & [Hth Hsm Hdom Hb Hcur Hnx]).
  exists s'. split_and!; try done.
  - intros i th Ei. exists (expire (elapsed s) th). split; [by rewrite Hth, list_lookup_fmap, Ei|].
    apply expire_deadline; [apply (ob_range _ _ _ (c_objs _ HC) _ _ Ei)|done|].
    unfold event_time. destruct (_ =? 0); [apply st_range|apply (c_time _ HC); set_solver].
  - intros a c Ec. rewrite Hsm, Ec. eexists. split; [done|]. lia.
Qed.
