(* ===== verification/NilExec.v ===== *)
(** * Threads and interrupts on the Nil kernel

    As Exec.v for the RT kernel: threads run programs of kernel calls, interrupt
    handlers run between two calls and preempt the running thread on their way
    out, the timer ticks.  Started by chSysInit. *)

From S2P Require Import Prelude Nil NilInv NilTimer.

(** ** Programs *)

Inductive call :=
  | NSleep (timeout : Z) | NSleepUntil (abstime : Z)
  | NWait (sp timeout : Z) | NSignal (sp : Z) | NReset (sp n : Z)
  | NEvtSignal (tp : nat) (mask : Z) | NEvtWait (mask timeout : Z)
  | NSuspend (trp timeout : Z) | NResume (trp msg : Z).

Inductive irq :=
  | NISignal (sp : Z) | NIReset (sp n : Z) | NIEvtSignal (tp : nat) (mask : Z) | NIResume (trp msg : Z) | NITimer.

(** A saved context: the rest of the interrupted call, and the calls after it. *)
Record ctx := mkCtx { x_cont : nil_system → nres unit; x_calls : list call }.
Record cfg := mkCfg { c_me : nat; c_pool : gmap nat ctx; c_calls : list call; c_res : nres unit }.

Section Exec.
Context `{NilCfg}.
Notation N := NIL_CFG_NUM_THREADS.

Definition exec (c : call) : NM unit :=
  match c with
  | NSleep timeout => chThdSleep timeout
  | NSleepUntil abstime => chThdSleepUntil abstime
  | NWait sp timeout => _ ← chSemWaitTimeout sp timeout; mret ()
  | NSignal sp => chSemSignal sp
  | NReset sp n => chSemReset sp n
  | NEvtSignal tp mask => chEvtSignal tp mask
  | NEvtWait mask timeout => _ ← chEvtWaitAnyTimeout mask timeout; mret ()
  | NSuspend trp timeout => chSysLock ;; _ ← chThdSuspendTimeoutS trp timeout; chSysUnlock
  | NResume trp msg => chSysLock ;; osalThreadResumeS trp msg ;; chSysUnlock
  end.

Definition isr_body (i : irq) : NM unit :=
  match i with
  | NISignal sp => chSemSignalI sp
  | NIReset sp n => chSemResetI sp n
  | NIEvtSignal tp mask => chEvtSignalI tp mask
  | NIResume trp msg => chThdResumeI trp msg
  | NITimer => chSysTimerHandlerI
  end.

(** A handler that is not nested. *)
Definition exec_irq (i : irq) : NM unit :=
  chSysLockFromISR ;; isr_body i ;; chSysUnlockFromISR ;; _port_irq_epilogue.

(** What is left of a call that has been preempted at its end. *)
Definition resumes_unlocked (k : nil_system → nres unit) : Prop := ∀ s, k s = NDone tt (set_locked false s).

(** ** What the kernel asks of its callers *)

(** A waiting time, [TIME_IMMEDIATE] where it stands for a poll. *)
Definition wait_ok (timeout : Z) (s : nil_system) : Prop := timeout = TIME_IMMEDIATE ∨ sleep_ok timeout s.
Definition now (s : nil_system) : Z := if NIL_CFG_ST_TIMEDELTA =? 0 then systime s else counter s.

(** The idle thread does not sleep; the objects exist; a reference is free; a
    counter does not overflow; a mask is not the address of a semaphore. *)
Definition call_ok (s : nil_system) (c : call) : Prop :=
  match c with
  | NSleep timeout => current s ≠ N ∧ sleep_ok timeout s
  | NSleepUntil abstime => current s ≠ N ∧ sleep_ok (st (abstime - now s)) s
  | NWait sp timeout => current s ≠ N ∧ is_Some (sems s !! sp) ∧ wait_ok timeout s
  | NSignal sp => ∃ c, sems s !! sp = Some c ∧ c < INT32_MAX
  | NReset sp n => is_Some (sems s !! sp) ∧ 0 ≤ n ≤ INT32_MAX
  | NEvtSignal tp _ => is_Some (threads s !! tp)
  | NEvtWait mask timeout => current s ≠ N ∧ sems s !! mask = None ∧ wait_ok timeout s
  | NSuspend trp timeout => current s ≠ N ∧ trefs s !! trp = Some None ∧ sleep_ok timeout s
  | NResume trp msg => is_Some (trefs s !! trp) ∧ msg_ok (sems s) msg
  end.

(** The timer interrupts while its alarm is active, or at each tick. *)
Definition irq_ok (s : nil_system) (i : irq) : Prop :=
  match i with
  | NISignal sp => ∃ c, sems s !! sp = Some c ∧ c < INT32_MAX
  | NIReset sp n => is_Some (sems s !! sp) ∧ 0 ≤ n ≤ INT32_MAX
  | NIEvtSignal tp _ => is_Some (threads s !! tp)
  | NIResume trp msg => is_Some (trefs s !! trp) ∧ msg_ok (sems s) msg
  | NITimer => 0 < NIL_CFG_ST_TIMEDELTA → alarm_active s = true
  end.

(** ** Configurations and steps *)

Section Steps.
Variable prog : nat → list call.

(** A thread that has not run yet enables the interrupts (_port_thread_start). *)
Definition resume (P : gmap nat ctx) (t : nat) : ctx := default (mkCtx chSysUnlock (prog t)) (P !! t).

Inductive step : cfg → cfg → Prop :=
  | step_call me P c cs s : call_ok s c → step (mkCfg me P (c :: cs) (NDone () s)) (mkCfg me P cs (exec c s))
  | step_irq me P cs i s : irq_ok s i → step (mkCfg me P cs (NDone () s)) (mkCfg me P cs (exec_irq i s))
  | step_time me P cs s : step (mkCfg me P cs (NDone () s)) (mkCfg me P cs (NDone () (set_counter (st (counter s + 1)) s)))
  | step_switch me P cs s k :
      let P' := <[me := mkCtx k cs]> P in
      let x := resume P' (current s) in
      step (mkCfg me P cs (NSwitch s k)) (mkCfg (current s) (delete (current s) P') (x_calls x) (x_cont x s)).

Definition zeroed : thread := mkThread NIL_STATE_READY 0 0 0.

(** The zeroed structure [nil], with statically initialised semaphores and
    references; the main program calls chSysInit and becomes the idle thread. *)
Definition reset_state (sm : gmap Z Z) (tr : gmap Z (option nat)) (cnt : Z) : nil_system :=
  mkNil 0 0 0 0 0 (replicate (S N) zeroed) sm tr true cnt 0 false.
Definition boot (s : nil_system) : cfg := mkCfg N ∅ (prog N) (chSysInit s).
End Steps.

(** ** What every call preserves *)

Section Safety.
(** The addresses of the semaphores are not messages. *)
Context (D : gset Z).
Hypothesis HD : ∀ msg, msg ∈ [MSG_OK; MSG_TIMEOUT; MSG_RESET] → u32 msg ∉ D.

Definition app (t : nat) (s : nil_system) : Prop := dom (sems s) = D ∧ current s = t.
Definition UJ (t : nat) (s : nil_system) : Prop := U s ∧ app t s.
Definition SJ (t : nat) (s : nil_system) : Prop := L s ∧ app t s.
Definition KI (s : nil_system) : Prop := K s ∧ dom (sems s) = D.
Definition KJ (t : nat) (s : nil_system) : Prop := K s ∧ app t s.

Lemma app_msg t s msg : app t s → msg ∈ [MSG_OK; MSG_TIMEOUT; MSG_RESET] → msg_ok (sems s) msg.
Proof using HD. intros [Hd _] Hm. apply not_elem_of_dom. rewrite Hd. by apply HD. Qed.

(** The lock does not matter to the invariant. *)
Lemma C_locked s b : C s → C (set_locked b s).
Proof. intros [Ho Hs Ht]. split; [done|by apply (sched_ext s)|]. by eapply (time_ok_clear s); try done; right; eexists. Qed.
Lemma lock_SJ t s : UJ t s → SJ t (set_locked true s).
Proof. intros [(HC & _ & _) [Hd Hc]]. split; [split; [by apply C_locked|done]|done]. Qed.
Lemma unlock_UJ t s : KJ t s → UJ t (set_locked false s).
Proof. intros [[[HC _] Hn] Ha]. split; [split_and!; [by apply C_locked|done|done]|done]. Qed.
Lemma KJ_SJ t s : KJ t s → SJ t s.
Proof. intros [[HL _] Ha]. done. Qed.

(** The highest ready thread is made current. *)
Lemma switched_K s : L s → K (set_current (next s) s).
Proof.
  intros [[Ho Hs Ht] Hl]. split; [|done]. split; [|done]. split; [done| |].
  - split; simpl; [apply Hs|done|apply Hs].
  - by eapply (time_ok_clear s); try done; right; eexists.
Qed.

Lemma resched_post t s : SJ t s → npost KI (KJ t) (chSchRescheduleS s) (λ _ s', KJ t s').
Proof.
  intros [HL [Hd Hc]]. unfold chSchRescheduleS. erewrite nbind_done by done. unfold nwhen.
  destruct (Nat.eqb_spec (current s) (next s)) as [E|E]; simpl; [done|].
  split; [|by intros s']. split; [|done]. by apply switched_K.
Qed.

Lemma resched_eq s :
  (chSchRescheduleS ;; chSysUnlock) s =
  if (current s =? next s)%nat then NDone tt (set_locked false s)
  else NSwitch (set_current (next s) s) (λ s2, NDone tt (set_locked false s2)).
Proof.
  unfold chSchRescheduleS. rewrite !nbind_eq. simpl. unfold nwhen. by destruct (current s =? next s)%nat.
Qed.

Lemma resched_unlock t s : SJ t s → npost KI (KJ t) ((chSchRescheduleS ;; chSysUnlock) s) (λ _ s', UJ t s').
Proof.
  intros HJ. apply npost_bind. eapply npost_mono; [|by apply resched_post]. intros [] s' HK. by apply unlock_UJ.
Qed.

(** *** Going to sleep *)

Lemma sleep_objs l sm tr i th ns w t sm' tr' :
  objs l sm tr → l !! i = Some th → ready th → i ≠ N → ns ≠ NIL_STATE_READY → 0 ≤ t < 2 ^ NIL_CFG_ST_RESOLUTION →
  match ns with
  | NIL_STATE_WTSEM => ∃ c, sm !! w = Some c ∧ c ≤ 0 ∧ INT32_MIN < c ∧ sm' = <[w := c - 1]> sm ∧ tr' = tr
  | NIL_STATE_SUSP => tr !! w = Some None ∧ sm' = sm ∧ tr' = <[w := Some i]> tr
  | _ => sm !! w = None ∧ sm' = sm ∧ tr' = tr
  end →
  objs (<[i := mkThread ns w t (epmask th)]> l) sm' tr'.
Proof.
  intros [Hl Hi Hr Hg Hc Hw Hf Hd] E Hrd HiN Hns Ht Hcase. set (th' := mkThread ns w t (epmask th)).
  assert (∀ a, is_Some (sm' !! a) ↔ is_Some (sm !! a)) as Hdom.
  { intros a. destruct ns; try (by destruct Hcase as (_ & -> & _)). destruct Hcase as (c & Ec & _ & _ & -> & _).
    destruct (decide (a = w)) as [->|]; [rewrite lookup_insert_eq; naive_solver|by rewrite lookup_insert_ne]. }
  assert (∀ a, sm' !! a = None ↔ sm !! a = None) as Hnone by (intros a; rewrite !eq_None_not_Some, Hdom; done).
  assert (∀ a, w1 a th = 0%nat) as Hw0 by (intros a; apply w1_0; left; by rewrite Hrd).
  split.
  - by rewrite length_insert.
  - destruct Hi as (t0 & E0 & H0). exists t0. by rewrite list_lookup_insert_ne.
  - intros j tj [[-> ->]|[_ ?]]%lookup_insert_cases Hj; [done|by eapply Hr].
  - intros j tj [[-> ->]|[_ ?]]%lookup_insert_cases; [done|by eapply Hg].
  - intros a c Ea. pose proof (waiters_insert a l i th th' E) as Hwi. rewrite Hw0 in Hwi.
    destruct (decide (w1 a th' = 1%nat)) as [H1|H1].
    + apply w1_1 in H1 as Hst. destruct Hst as [Hst Hu]. unfold th' in Hst, Hu. simpl in Hst, Hu. subst ns a.
      destruct Hcase as (c0 & Ec0 & Hc0 & Hlo & -> & _). rewrite lookup_insert_eq in Ea. injection Ea as <-.
      destruct (Hc _ _ Ec0) as [Hs Hn]. unfold is_s32, INT32_MIN, INT32_MAX in *. lia.
    + pose proof (w1_le a th'). assert (sm !! a = Some c) as Ea0.
      { destruct ns; try (by destruct Hcase as (_ & -> & _)). destruct Hcase as (c0 & _ & _ & _ & -> & _).
        rewrite lookup_insert_ne in Ea; [done|]. intros <-. apply H1. by apply w1_1. }
      destruct (Hc _ _ Ea0). split; [done|lia].
  - intros j tj [[-> ->]|[Hj Ej]]%lookup_insert_cases.
    + unfold word_ok, th'. simpl. destruct ns; try done.
      * by destruct Hcase as (? & -> & _).
      * destruct Hcase as (_ & _ & ->). by rewrite lookup_insert_eq.
      * apply Hdom. destruct Hcase as (c & Ec & _). by eexists.
      * by destruct Hcase as (? & -> & _).
    + specialize (Hw _ _ Ej). unfold word_ok in *. destruct (state tj); rewrite ?Hnone, ?Hdom; try done.
      destruct ns; try (by destruct Hcase as (_ & _ & ->)); [|by destruct Hcase as (_ & _ & _ & _ & _ & ->)].
      destruct Hcase as (Hn & _ & ->). rewrite lookup_insert_ne; [done|]. congruence.
  - intros a j Ea. assert (tr !! a = Some (Some j) ∨ (j = i ∧ ns = NIL_STATE_SUSP ∧ a = w)) as [Ea0|(-> & Hsu & ->)].
    { destruct ns; try (left; by destruct Hcase as (_ & _ & ->)); [|left; by destruct Hcase as (_ & _ & _ & _ & _ & ->)].
      destruct Hcase as (_ & _ & ->). destruct (decide (a = w)) as [->|Hne].
      - right. rewrite lookup_insert_eq in Ea. by simplify_eq.
      - left. by rewrite lookup_insert_ne in Ea. }
    + destruct (Hf _ _ Ea0) as (t0 & E0 & Hs & Hu). exists t0. split; [|done]. rewrite list_lookup_insert_ne; [done|].
      intros ->. simplify_eq. unfold ready in Hrd. congruence.
    + exists th'. split; [apply list_lookup_insert_eq; by eapply lookup_lt_Some|done].
  - intros a Ha%Hdom. pose proof (Hd _ Ha) as Hn.
    destruct ns; try (by destruct Hcase as (_ & _ & ->)); [|by destruct Hcase as (_ & _ & _ & _ & _ & ->)].
    destruct Hcase as (Hn' & _ & ->). rewrite lookup_insert_ne; [done|]. congruence.
Qed.
Lemma running t s : SJ t s → ∃ th, threads s !! t = Some th ∧ ready th ∧ timeout th = 0.
Proof.
  intros [[[Ho [_ _ (th & E & Hr)] _] _] [_ <-]]. exists th. split_and!; try done. by apply (ob_ready _ _ _ Ho _ _ E).
Qed.

Lemma wake_post t s : KJ t s → npost KI (KJ t) (wake_msg s) (λ _ s', KJ t s').
Proof.
  intros HK. destruct (running t s (KJ_SJ _ _ HK)) as (th & E & _). pose proof HK as [_ [_ Hc]].
  unfold wake_msg. erewrite nbind_done by done. rewrite Hc. by erewrite nbind_done by (by apply thr_eq).
Qed.

(** From the state [s] of a critical section, when the object the thread is
    going to wait for has been recorded. *)
Lemma go_sleep_post t s s0 th ns w timeout' :
  SJ t s → threads s !! t = Some th → t ≠ N → ns ≠ NIL_STATE_READY → sleep_ok timeout' s →
  same_env s s0 → threads s0 = <[t := set_u1 w th]> (threads s) → dom (sems s0) = D →
  match ns with
  | NIL_STATE_WTSEM => ∃ c, sems s !! w = Some c ∧ c ≤ 0 ∧ INT32_MIN < c ∧ sems s0 = <[w := c - 1]> (sems s) ∧ trefs s0 = trefs s
  | NIL_STATE_SUSP => trefs s !! w = Some None ∧ sems s0 = sems s ∧ trefs s0 = <[w := Some t]> (trefs s)
  | _ => sems s !! w = None ∧ sems s0 = sems s ∧ trefs s0 = trefs s
  end →
  npost KI (KJ t) (chSchGoSleepTimeoutS ns timeout' s0) (λ _ s', KJ t s').
Proof.
  intros HJ E HtN Hns Hsl Henv El Hd0 Hcase. destruct (running t s HJ) as (th' & E' & Hr & Hz). simplify_eq.
  destruct HJ as [[[Ho Hs Ht] Hl] [Hd Hc]].
  assert (current s0 = t) as Hc0 by (by rewrite (se_current _ _ Henv)).
  destruct (go_sleep_ok s0 (set_u1 w th) ns timeout') as (s' & -> & HK & Hf & _).
  - rewrite Hc0, El. apply list_lookup_insert_eq. by eapply lookup_lt_Some.
  - by rewrite Hc0.
  - done.
  - done.
  - apply (time_ok_clear s); try done; try apply Henv. rewrite El.
    intros j tj [[-> ->]|[_ ?]]%lookup_insert_cases; right; [by exists th|by exists tj].
  - unfold sleep_ok. by rewrite (se_counter _ _ Henv), (se_last _ _ Henv).
  - by rewrite (se_lock _ _ Henv).
  - intros x Hx. rewrite Hc0, El, list_insert_insert_eq. apply (sleep_objs (threads s) (sems s) (trefs s) t th ns w x (sems s0) (trefs s0)); done.
  - split; [split; [done|by rewrite (sf_sems _ _ Hf)]|]. apply wake_post.
Qed.

(** Its word is no semaphore's. *)
Lemma running_word t s th : SJ t s → threads s !! t = Some th → sems s !! u1 th = None.
Proof.
  intros HJ E. destruct (running t s HJ) as (th' & E' & Hr & _). simplify_eq. destruct HJ as [[[Ho _ _] _] _].
  pose proof (ob_word _ _ _ Ho _ _ E) as Hw. unfold word_ok in Hw. by rewrite Hr in Hw.
Qed.

Lemma sleep_post t s timeout' :
  SJ t s → t ≠ N → sleep_ok timeout' s → npost KI (KJ t) (chSchGoSleepTimeoutS NIL_STATE_SLEEPING timeout' s) (λ _ s', KJ t s').
Proof.
  intros HJ HtN Hsl. destruct (running t s HJ) as (th & E & _).
  apply (go_sleep_post t s s th NIL_STATE_SLEEPING (u1 th)); try done.
  - rewrite list_insert_id; [done|]. rewrite E. by destruct th.
  - apply HJ.
  - split_and!; try done. by apply (running_word t).
Qed.

(** A counter cannot underflow: it counts threads. *)
Lemma cnt_low s sp c : objs (threads s) (sems s) (trefs s) → sems s !! sp = Some c → INT32_MIN < c.
Proof.
  intros Ho Ec. destruct (ob_cnt _ _ _ Ho _ _ Ec) as [_ Hw].
  assert (∀ l, waiters sp l ≤ length l)%nat as Hle.
  { induction l as [|th l IH]; simpl; [done|]. pose proof (w1_le sp th). lia. }
  specialize (Hle (threads s)). rewrite (ob_len _ _ _ Ho) in Hle. pose proof cfg_threads. unfold INT32_MIN. lia.
Qed.

Lemma dom_set (sm : gmap Z Z) sp c : is_Some (sm !! sp) → dom (<[sp := c]> sm) = dom sm.
Proof. intros Hs. rewrite dom_insert_L. apply elem_of_dom in Hs. set_solver. Qed.

Lemma chSemWaitTimeoutS_post t s sp timeout' :
  SJ t s → next s = t → t ≠ N → is_Some (sems s !! sp) → wait_ok timeout' s →
  npost KI (KJ t) (chSemWaitTimeoutS sp timeout' s) (λ _ s', KJ t s').
Proof.
  intros HJ Hnx HtN [c Ec] Hwt. pose proof HJ as [[HC Hl] [Hd Hc]]. destruct (ob_cnt _ _ _ (c_objs _ HC) _ _ Ec) as [Hs Hw].
  unfold chSemWaitTimeoutS, chSemGetCounterI. erewrite nbind_done by (by apply (nderef_eq (λ s, sems s !! sp))).
  destruct (Z.leb_spec c 0) as [Hle|Hgt].
  - destruct (Z.eqb_spec timeout' TIME_IMMEDIATE) as [Ei|Ei]; [split; [split; [done|congruence]|done]|].
    destruct Hwt as [|Hsl]; [done|]. pose proof (cnt_low s sp c (c_objs _ HC) Ec) as Hlo.
    rewrite (proj2 (Z.ltb_lt _ _) Hlo). destruct (running t s HJ) as (th & E & _).
    erewrite nbind_done by done. erewrite nbind_done by done. erewrite nbind_done by (simpl; rewrite Hc; by apply upd_thr_eq).
    apply (go_sleep_post t s _ th NIL_STATE_WTSEM sp); try done; simpl; [by rewrite dom_set by (by eexists)|]. by exists c.
  - erewrite nbind_done by done. split; [|split; [simpl; by rewrite dom_set by (by eexists)|done]].
    split; [split; [apply C_sem|]|simpl; congruence]; try done; unfold is_s32, INT32_MIN, INT32_MAX in *; lia.
Qed.

Lemma chThdSuspendTimeoutS_post t s trp timeout' :
  SJ t s → t ≠ N → trefs s !! trp = Some None → sleep_ok timeout' s →
  npost KI (KJ t) (chThdSuspendTimeoutS trp timeout' s) (λ _ s', KJ t s').
Proof.
  intros HJ HtN Er Hsl. pose proof HJ as [[HC Hl] [Hd Hc]]. destruct (running t s HJ) as (th & E & _).
  unfold chThdSuspendTimeoutS, set_tref, tref. erewrite nbind_done by (by apply (nderef_eq (λ s, trefs s !! trp))).
  erewrite nbind_done by (apply nassert_eq; by apply bool_decide_eq_true). erewrite nbind_done by done.
  erewrite nbind_done by (erewrite nbind_done by (by apply (nderef_eq (λ s, trefs s !! trp))); done).
  rewrite Hc. erewrite nbind_done by (by apply upd_thr_eq). by apply (go_sleep_post t s _ th NIL_STATE_SUSP trp).
Qed.

(** *** Events *)

Lemma serve_post t s m : KJ t s → ∃ s', serve_events t m s = NDone m s' ∧ KJ t s'.
Proof.
  intros HK. destruct (running t s (KJ_SJ _ _ HK)) as (th & E & _). destruct HK as [[[HC Hl] Hn] [Hd Hc]].
  unfold serve_events. erewrite nbind_done by (by apply upd_thr_eq). eexists. split; [done|].
  split; [|done]. split; [split; [|done]|done]. by apply C_epmask.
Qed.

Lemma UJ_again t s : UJ t s → UJ t (set_locked false s).
Proof. intros [(HC & Hl & Hn) Ha]. split; [split_and!; [by apply C_locked|done|done]|done]. Qed.

Lemma chEvtWaitAnyTimeoutS_post t s mask timeout' :
  KJ t s → t ≠ N → sems s !! mask = None → wait_ok timeout' s →
  npost KI (KJ t) (chEvtWaitAnyTimeoutS mask timeout' s) (λ _ s', KJ t s' ∨ UJ t s').
Proof.
  intros HK HtN Hm Hwt. pose proof (KJ_SJ _ _ HK) as HJ. pose proof HJ as [_ [Hd Hc]]. destruct (running t s HJ) as (th & E & _).
  unfold chEvtWaitAnyTimeoutS. erewrite nbind_done by done. rewrite Hc. erewrite nbind_done by (by apply thr_eq). cbv zeta.
  destruct (Z.eqb_spec (Z.land (epmask th) mask) 0) as [_|_].
  - destruct (Z.eqb_spec timeout' TIME_IMMEDIATE) as [Ei|Ei]; [right; by apply unlock_UJ|].
    destruct Hwt as [|Hsl]; [done|]. erewrite nbind_done by (by apply upd_thr_eq). apply npost_bind.
    eapply npost_mono; [|by apply (go_sleep_post t s _ th NIL_STATE_WTOREVT mask)]. intros msg s1 HK1. cbn beta.
    destruct (msg <? MSG_OK); [right; by apply unlock_UJ|].
    destruct (running t s1 (KJ_SJ _ _ HK1)) as (th1 & E1 & _). erewrite nbind_done by (by apply thr_eq).
    destruct (serve_post t s1 (Z.land (epmask th1) mask) HK1) as (s2 & -> & HK2). by left.
  - destruct (serve_post t s (Z.land (epmask th) mask) HK) as (s2 & -> & HK2). by left.
Qed.

(** *** Handlers *)

Lemma nil_isr_body_served t s i : SJ t s → irq_ok s i → ∃ s', isr_body i s = NDone tt s' ∧ SJ t s'.
Proof using HD.
  intros [[HC Hl] Ha] Hi. pose proof Ha as [Hd Hc].
  assert (∀ msg, msg ∈ [MSG_OK; MSG_TIMEOUT; MSG_RESET] → msg_ok (sems s) msg) as Hm by (intros; by apply (app_msg t)).
  destruct i as [sp|sp n|tp mask|trp msg|]; simpl in *.
  - destruct Hi as (c & Ec & Hmax). destruct (nil_chSemSignalI_ok s sp c HC Ec Hmax) as (s' & E & HC' & Hs); [apply Hm; set_solver|].
    exists s'. split; [done|]. assert (dom (<[sp := c + 1]> (sems s)) = D) by (by rewrite dom_set by (by eexists)).
    by destruct Hs as [[_ ->]|(_ & j & th & _ & ->)].
  - destruct Hi as [[c Ec] Hn]. destruct (chSemResetI_ok' s sp n c HC Ec Hn) as (s' & E & HC' & He & _ & Es & _); [apply Hm; set_solver|].
    exists s'. split; [done|]. split; [split; [done|by rewrite (se_lock _ _ He)]|split].
    + by rewrite Es, dom_set by (by eexists).
    + by rewrite (se_current _ _ He).
  - destruct Hi as [th E]. destruct (nil_chEvtSignalI_ok s tp th mask HC E) as (s' & Er & HC' & Hs); [apply Hm; set_solver|].
    exists s'. split; [done|]. subst s'. destruct (_ && _); done.
  - destruct Hi as [[r Er] Hmsg]. destruct (chThdResumeI_ok s trp msg r HC Er Hmsg) as (s' & E & HC' & Hr).
    exists s'. split; [done|]. destruct r as [j|]; simpl in Hr; [|by subst s']. by destruct Hr as (th & _ & _ & ->).
  - destruct (handler_ok s HC Hl Hi) as (s' & E & HL & Hh); [apply Hm; set_solver|]. exists s'. split; [done|]. split; [done|split].
    + rewrite <-Hd. apply set_eq. intros a. rewrite !elem_of_dom, (hd_sems _ _ Hh). apply fmap_is_Some.
    + by rewrite (hd_current _ _ Hh).
Qed.

Lemma nil_served_post t s i :
  SJ t s → irq_ok s i → npost KI (KJ t) ((isr_body i ;; chSchRescheduleS ;; chSysUnlock) s) (λ _ s', UJ t s').
Proof using HD.
  intros HJ Hi. destruct (nil_isr_body_served t s i HJ Hi) as (s' & E & HJ'). erewrite nbind_done by exact E. by apply resched_unlock.
Qed.

Lemma nil_exec_irq_post t s i : UJ t s → irq_ok s i → npost KI (KJ t) (exec_irq i s) (λ _ s', UJ t s').
Proof using HD.
  intros HU Hi. unfold exec_irq. erewrite nbind_done by done.
  destruct (nil_isr_body_served t (set_locked true s) i (lock_SJ _ _ HU)) as (s1 & E & HJ1); [by destruct i|].
  erewrite nbind_done by exact E. erewrite nbind_done by done. unfold _port_irq_epilogue. erewrite nbind_done by done.
  erewrite nbind_done by done. set (s2 := set_locked true (set_locked false s1)).
  assert (SJ t s2) as HJ2. { destruct HJ1 as [[HC1 _] Ha]. split; [split; [by apply C_locked, C_locked|done]|done]. }
  destruct (Nat.eqb_spec (current s2) (next s2)) as [E2|E2]; simpl; [|by apply resched_unlock].
  apply unlock_UJ. destruct HJ2. done.
Qed.

(** *** Every call *)

Lemma nil_exec_post t s c : UJ t s → call_ok s c → npost KI (KJ t) (exec c s) (λ _ s', UJ t s').
Proof using HD.
  intros HU Hc. pose proof (lock_SJ _ _ HU) as HJ. pose proof HU as [(_ & _ & Hn) [_ Ht]].
  assert (KJ t (set_locked true s)) as HK by (destruct HJ; done).
  assert (∀ A (m : NM A), npost KI (KJ t) (m (set_locked true s)) (λ _ s', KJ t s') →
    npost KI (KJ t) ((_ ← m; chSysUnlock) (set_locked true s)) (λ _ s', UJ t s')) as Hunlock.
  { intros A m Hm. apply npost_bind. eapply npost_mono; [|exact Hm]. intros a s' HK'. by apply unlock_UJ. }
  destruct c as [ti|ti|sp ti|sp|sp n|tp mask|mask ti|trp ti|trp msg]; simpl in Hc |- *.
  - destruct Hc as [HN Hsl]. unfold chThdSleep. erewrite nbind_done by done. apply Hunlock. unfold chThdSleepS. apply npost_bind.
    eapply npost_mono; [|apply (sleep_post t); [done|congruence|done]]. done.
  - destruct Hc as [HN Hsl]. unfold chThdSleepUntil. erewrite nbind_done by done. apply Hunlock. unfold chThdSleepUntilS.
    assert (chVTGetSystemTimeX (set_locked true s) = NDone (now s) (set_locked true s)) as En.
    { unfold chVTGetSystemTimeX, now. by destruct (_ =? 0). }
    erewrite nbind_done by exact En. apply npost_bind. eapply npost_mono; [|apply (sleep_post t); [done|congruence|done]]. done.
  - destruct Hc as (HN & Hsp & Hw). unfold chSemWaitTimeout. apply npost_bind. erewrite nbind_done by done. apply npost_bind.
    eapply npost_mono; [|apply (chSemWaitTimeoutS_post t); [done|simpl; congruence|congruence|done|done]].
    intros m s1 HK1. cbn beta. erewrite nbind_done by done. by apply unlock_UJ.
  - unfold chSemSignal. erewrite nbind_done by done. by apply (nil_served_post t _ (NISignal sp)).
  - unfold chSemReset. erewrite nbind_done by done. by apply (nil_served_post t _ (NIReset sp n)).
  - unfold chEvtSignal. erewrite nbind_done by done. by apply (nil_served_post t _ (NIEvtSignal tp mask)).
  - destruct Hc as (HN & Hm & Hw). unfold chEvtWaitAnyTimeout. apply npost_bind. erewrite nbind_done by done. apply npost_bind.
    eapply npost_mono; [|apply (chEvtWaitAnyTimeoutS_post t); [done|congruence|done|done]].
    intros m s1 HK1. cbn beta. erewrite nbind_done by done. simpl. destruct HK1; [by apply unlock_UJ|by apply UJ_again].
  - destruct Hc as (HN & Hr & Hsl). erewrite nbind_done by done. apply Hunlock. apply chThdSuspendTimeoutS_post; [done|congruence|done|done].
  - erewrite nbind_done by done. unfold osalThreadResumeS.
    destruct (nil_isr_body_served t (set_locked true s) (NIResume trp msg) HJ Hc) as (s1 & E & HJ1).
    apply Hunlock. erewrite nbind_done by exact E. by apply resched_post.
Qed.

(** *** All configurations *)

Variable prog : nat → list call.

Definition ctx_safe (t : nat) (x : ctx) : Prop := ∀ s, KJ t s → npost KI (KJ t) (x_cont x s) (λ _ s', UJ t s').
Record cfg_safe (g : cfg) : Prop := {
  cs_res : npost KI (KJ (c_me g)) (c_res g) (λ _ s', UJ (c_me g) s');
  cs_pool : ∀ t x, c_pool g !! t = Some x → ctx_safe t x
}.

Lemma nil_resume_safe P t : (∀ t x, P !! t = Some x → ctx_safe t x) → ctx_safe t (resume prog P t).
Proof.
  intros HP. unfold resume. destruct (P !! t) as [x|] eqn:E; [by apply HP|]. intros s HK. by apply unlock_UJ.
Qed.

Lemma nil_step_safe g g' : cfg_safe g → step prog g g' → cfg_safe g'.
Proof using HD.
  intros [Hr HP] Hs. destruct Hs as [me P c cs s Hc|me P cs i s Hi|me P cs s|me P cs s k P' x]; simpl in *.
  - split; [by apply nil_exec_post|done].
  - split; [by apply nil_exec_irq_post|done].
  - split; [|done]. simpl. destruct Hr as [([Ho Hsc Ht] & Hl & Hn) Ha]. split; [split_and!; [split|..]|]; try done.
    + by apply (sched_ext s).
    + destruct Ht as [Hrg Hon Hoff]. split; [|done|done]. simpl. intros y. rewrite !elem_of_cons. intros Hy.
      destruct Hy as [->|[->|[->|[->|[]%elem_of_nil]]]]; try apply st_range; apply Hrg; set_solver.
  - destruct Hr as [[HK HdK] Hk].
    assert (∀ t x, P' !! t = Some x → ctx_safe t x) as HP'.
    { intros t y. unfold P'. rewrite lookup_insert. case_decide as Ht; [|apply HP]. intros [= <-]. by rewrite <-Ht. }
    pose proof (nil_resume_safe P' (current s) HP') as Hx. split; simpl; [by apply Hx|].
    intros t y [_ Hy]%lookup_delete_Some. by apply HP'.
Qed.

Lemma nil_reachable_safe g g' : rtc (step prog) g g' → cfg_safe g → cfg_safe g'.
Proof using HD. induction 1; [done|]. intros. by eauto using nil_step_safe. Qed.
End Safety.

(** ** From reset on *)

(** Statically initialised objects. *)
Record static_objs (sm : gmap Z Z) (tr : gmap Z (option nat)) : Prop := {
  so_cnt : ∀ a c, sm !! a = Some c → 0 ≤ c ≤ INT32_MAX;
  so_ref : ∀ a r, tr !! a = Some r → r = None;
  so_disj : ∀ a, is_Some (sm !! a) → tr !! a = None;
  so_msg : ∀ msg, msg ∈ [MSG_OK; MSG_TIMEOUT; MSG_RESET] → sm !! u32 msg = None
}.

Lemma waiters_zeroed a n : waiters a (replicate n zeroed) = 0%nat.
Proof. induction n; simpl; done. Qed.

Lemma boot_objs sm tr : static_objs sm tr → objs (replicate (S N) zeroed) sm tr.
Proof.
  intros [Hc Hr Hd Hm]. set (l := replicate _ _).
  assert (∀ i th, l !! i = Some th → th = zeroed) as Hl by (by intros i th [-> _]%lookup_replicate).
  assert (length l = S N) as Hlen by apply length_replicate.
  split; try done.
  - assert (is_Some (l !! N)) as [th E] by (apply lookup_lt_is_Some; lia). exists th. split; [done|]. by rewrite (Hl _ _ E).
  - intros i th E _. by rewrite (Hl _ _ E).
  - intros i th E. rewrite (Hl _ _ E). pose proof (st_range 0). simpl. lia.
  - intros a c E. pose proof (Hc _ _ E). unfold l. rewrite waiters_zeroed. unfold is_s32, INT32_MIN. lia.
  - intros i th E. rewrite (Hl _ _ E). unfold word_ok. simpl. apply (Hm MSG_OK). set_solver.
  - intros a i E. by pose proof (Hr _ _ E).
Qed.

(** chSysInit switches to the first thread. *)
Lemma boot_safe prog sm tr cnt :
  static_objs sm tr → 0 ≤ cnt < 2 ^ NIL_CFG_ST_RESOLUTION → cfg_safe (dom sm) (boot prog (reset_state sm tr cnt)).
Proof.
  intros Hso Hcnt. pose proof (boot_objs _ _ Hso) as Ho. pose proof (st_range 0) as H0.
  split; simpl; [|intros t x; by rewrite lookup_empty]. split.
  - split; [|done]. split; [split; [split; [exact Ho|..]|done]|done].
    + split; simpl; [|lia|]; [split; [|intros; lia]|]; by eexists.
    + split; simpl; [|done|].
      * intros x. rewrite !elem_of_cons. intros [->|[->|[->|[->|[]%elem_of_nil]]]]; lia.
      * intros _ _. split; [done|]. intros i th E. change (zeroed :: replicate N zeroed) with (replicate (S N) zeroed) in E. by apply lookup_replicate in E as [-> _].
  - intros s' HK. by apply unlock_UJ.
Qed.
End Exec.

(** C21.  Safety of an application on the Nil kernel, from reset on: threads that
    sleep, wait on semaphores, for events and on references with and without
    timeouts, that signal, reset and resume, interleaved with interrupt handlers
    and with the timer in both of its variants.  The calls keep the rules of
    [call_ok] and [irq_ok]: the idle thread does not wait; the objects exist,
    have been initialised statically and are addressed as what they are; a
    reference a thread suspends on is free; a signal does not overflow its counter;
    a mask that is waited for, or a message, is not the address of a semaphore; and
    in the tick-less variant a finite timeout does not end, modulo the width of the
    counter, at the time of the last timer event.  (The last two rules are needed
    because of the defects mask_taken_for_waiter and deadline_lost shown in the
    examples.)
    Then no assertion of the kernel ever fails and no undefined behaviour is
    reached; at each context switch and between any two calls the running thread
    is the ready thread of the highest priority, each semaphore counter agrees
    with the threads that wait on it, each reference with the thread suspended on
    it, and in the tick-less variant the alarm is set whenever a timeout is
    pending, with no stored timeout, counted from the last event, shorter than the
    distance from there to the alarm.  (A deadline that passes the last event
    modulo the counter width is stored as such a timeout although it is far away,
    and makes the alarm late for the others: deadline_missed.)  The idle thread can
    always run, so a switch always has a next step. *)
Theorem nil_application_safe `{NilCfg} prog sm tr cnt g :
  static_objs sm tr → 0 ≤ cnt < 2 ^ NIL_CFG_ST_RESOLUTION →
  rtc (step prog) (boot prog (reset_state sm tr cnt)) g →
  (∃ s, c_res g = NDone () s ∧ U s ∧ current s = c_me g) ∨
  (∃ s k, c_res g = NSwitch s k ∧ K s ∧ ∃ g', step prog g g').
Proof.
  intros Hso Hcnt Hr.
  assert (∀ msg, msg ∈ [MSG_OK; MSG_TIMEOUT; MSG_RESET] → u32 msg ∉ dom sm) as HD.
  { intros msg Hm. apply not_elem_of_dom. by apply (so_msg _ _ Hso). }
  assert (cfg_safe (dom sm) g) as [Hres _] by (apply (nil_reachable_safe _ HD prog _ _ Hr); by apply boot_safe).
  destruct g as [me P cs [[] s| | |s k]]; simpl in *; try done.
  - left. destruct Hres as [HU [_ Hc]]. by exists s.
  - right. destruct Hres as [[HK _] _]. exists s, k. split_and!; [done|done|]. eexists. apply step_switch.
Qed.

(** C23.  A thread that sleeps is put to sleep until its deadline: for a finite
    timeout that in the tick-less variant does not end, modulo the width of the
    counter, exactly at the time of the last timer event (such a thread would never
    be woken, a defect of the code shown by deadline_lost), chThdSleep saves the thread with the state
    SLEEPING and a deadline [timeout] ticks from now (in the tick-less variant not
    less than the minimum distance of an alarm), lets the first ready thread run
    and changes no other thread; when the thread is made current again the call
    returns with the kernel unlocked. *)
Theorem nil_sleep_deadline `{NilCfg} s timeout' :
  U s → current s ≠ NIL_CFG_NUM_THREADS → sleep_ok timeout' s → timeout' ≠ TIME_INFINITE →
  ∃ s' k th th', chThdSleep timeout' s = NSwitch s' k ∧ K s' ∧ threads s !! current s = Some th ∧
    threads s' = <[current s := th']> (threads s) ∧ state th' = NIL_STATE_SLEEPING ∧ timeout th' ≠ 0 ∧
    deadline s' th' = st (now s + Z.max timeout' NIL_CFG_ST_TIMEDELTA) ∧
    ∀ s2, K s2 → current s2 = current s → k s2 = NDone tt (set_locked false s2) ∧ U (set_locked false s2).
Proof.
  intros (HC & Hl & Hn) HN Hsl Hinf.
  assert (SJ (dom (sems s)) (current s) (set_locked true s)) as HJ by (apply lock_SJ; done).
  destruct (running _ _ _ HJ) as (th & E & Hr & Hz). set (s1 := set_locked true s) in *.
  destruct (go_sleep_ok s1 th NIL_STATE_SLEEPING timeout') as (s' & E' & HK & Hf & El); try done.
  - apply HJ.
  - intros x Hx. apply (sleep_objs (threads s1) (sems s1) (trefs s1) _ th NIL_STATE_SLEEPING (u1 th) x (sems s1) (trefs s1)); try done.
    + apply HC.
    + split_and!; try done. by apply (running_word (dom (sems s)) (current s) s1).
  - eexists s', _, th, _. split.
    { unfold chThdSleep. erewrite nbind_done by done. unfold chThdSleepS. eapply nbind_switch, nbind_switch, E'. }
    split_and!; [done|done|exact El|done|..].
    + simpl. unfold sleep_time. destruct Hsl as [_ Hne]. destruct (Z.ltb_spec 0 NIL_CFG_ST_TIMEDELTA) as [HD|]; [|done].
      rewrite (proj2 (Z.eqb_neq _ _) Hinf). intros E0. apply (Hne HD Hinf). apply st_sub_0; [apply st_range|apply HC; set_solver|done].
    + unfold deadline, base_time, now, sleep_time. simpl. rewrite (sf_systime _ _ Hf), (sf_last _ _ Hf).
      destruct td_cases as [[HD ED]|[HD ED]]; rewrite ED.
      * rewrite HD. simpl. destruct Hsl as [? _]. by rewrite Z.max_l by lia.
      * rewrite (proj2 (Z.ltb_lt _ _) HD), (proj2 (Z.eqb_neq _ _) Hinf). simpl. unfold st.
        rewrite Zplus_mod_idemp_r, Zplus_minus. apply Z.mod_mod. pose proof (st_range 0). lia.
    + intros s2 HK2 Hc2. assert (KJ (dom (sems s2)) (current s2) s2) as HKJ by done.
      split; [|apply (unlock_UJ _ _ _ HKJ)]. destruct (running _ _ _ (KJ_SJ _ _ _ HKJ)) as (th2 & E2 & _).
      unfold wake_msg. erewrite nbind_done by done. by erewrite nbind_done by (by apply thr_eq).
Qed.

(** A signal wakes the waiting thread of the highest priority: chSemSignal
    adds one to the counter; when threads wait, the first of them in the order of
    priority, and no other thread, is made ready with MSG_OK, and it runs at once
    exactly when it has a higher priority than the caller, which is then
    resumed later in the unlocked kernel. *)
Theorem nil_signal_correct `{NilCfg} s sp c :
  U s → sems s !! sp = Some c → c < INT32_MAX → msg_ok (sems s) MSG_OK →
  (0 ≤ c ∧ chSemSignal sp s = NDone tt (set_sems (<[sp := c + 1]> (sems s)) s)) ∨
  (c < 0 ∧ ∃ i th s', first_waiter (threads s) sp i th ∧ i ≠ current s ∧
     threads s' = <[i := woken MSG_OK th]> (threads s) ∧ sems s' = <[sp := c + 1]> (sems s) ∧ trefs s' = trefs s ∧
     if (i <? current s)%nat then
       K s' ∧ current s' = i ∧ ∃ k, chSemSignal sp s = NSwitch s' k ∧ resumes_unlocked k
     else U s' ∧ current s' = current s ∧ chSemSignal sp s = NDone tt s').
Proof.
  intros (HC & Hl & Hn) Ec Hmax Hm. set (s1 := set_locked true s).
  destruct (nil_chSemSignalI_ok s1 sp c (C_locked _ _ HC) Ec Hmax Hm) as (s2 & E & HC2 & Hs).
  unfold chSemSignal. erewrite nbind_done by done. fold s1. erewrite nbind_done by exact E. rewrite resched_eq.
  destruct Hs as [[Hc ->]|(Hc & i & th & Hfw & ->)]; [left|right]; (split; [done|]).
  - simpl. rewrite Hn, Nat.eqb_refl. destruct s. simpl in *. by subst.
  - set (w := wake _ _ _ _) in *. exists i, th. pose proof Hfw as (Ei & Hw & _). apply w1_1 in Hw as [Hst _].
    assert (i ≠ current s) as Hne.
    { intros ->. destruct (sc_cur _ (c_sched _ HC)) as (tc & Etc & Hrc). simpl in Ei. simplify_eq. unfold ready in Hrc. congruence. }
    assert (next w = if (i <? current s)%nat then i else current s) as Enx by (unfold w; simpl; by rewrite Hn).
    assert (current w = current s) as Ecw by done. rewrite Ecw, Enx.
    destruct (Nat.ltb_spec i (current s)) as [Hlt|Hge].
    + rewrite (proj2 (Nat.eqb_neq _ _)) by lia. exists (set_current i w). split_and!; try done; [|by eexists].
      pose proof (switched_K w) as HK. rewrite Enx in HK. by apply HK.
    + rewrite Nat.eqb_refl. exists (set_locked false w). split_and!; try done. split_and!; [by apply C_locked|done|]. transitivity (current s); [exact Enx|done].
Qed.
