(* ===== verification/Serial.v ===== *)
(** * The serial driver (os/hal/src/serial.c, os/hal/include/serial.h, the
      interrupt routine of os/hal/ports/STM32/LLD/USARTv1/serial_lld.c)

    With CH_CFG_USE_QUEUES the queues of hal_queues.h are those of the kernel.
    The registers of the USART belong to the hardware: what is read from them is
    an argument and what is written to them is a result. *)

From Stdlib Require Import Btauto.
From S2P Require Import Prelude Ring TimeMeas Kernel ThreadQueues Sys VTimers Sched Thd IOQueues Evt Streams Floats Printf.

Inductive sdstate := SD_UNINIT | SD_STOP | SD_READY.
#[export] Instance sdstate_eq_dec : EqDecision sdstate.
Proof. solve_decision. Defined.

Record SerialDriver := mkSD { sd_event : addr; sd_state : sdstate; sd_iqueue : addr; sd_oqueue : addr }.
Definition set_sd_state (x : sdstate) (d : SerialDriver) : SerialDriver := mkSD (sd_event d) x (sd_iqueue d) (sd_oqueue d).

Definition CHN_INPUT_AVAILABLE : Z := 4.
Definition CHN_OUTPUT_EMPTY : Z := 8.
Definition CHN_TRANSMISSION_END : Z := 16.
Definition SD_PARITY_ERROR : Z := 32.
Definition SD_FRAMING_ERROR : Z := 64.
Definition SD_OVERRUN_ERROR : Z := 128.
Definition SD_NOISE_ERROR : Z := 256.
Definition SD_BREAK_DETECTED : Z := 512.

Definition chnAddFlagsI (sdp : SerialDriver) (flags : Z) : M unit := chEvtBroadcastFlagsI (sd_event sdp) flags.

(** ** serial.c *)

(** [iw] and [ow] are the thread queues inside the I/O queues; [ib] and [ob] the
    buffers. *)
Definition sdObjectInit (event iqueue oqueue iw ow : addr) (ib ob : list Z) (inotify onotify : option positive) : M SerialDriver :=
  chEvtObjectInit event ;;
  chIQObjectInit iqueue iw ib inotify ;;
  chOQObjectInit oqueue ow ob onotify ;;
  mret (mkSD event SD_STOP iqueue oqueue).

Section Lld.
(** The register writes of sd_lld_start and sd_lld_stop. *)
Variables sd_lld_start sd_lld_stop : SerialDriver → M unit.

Definition sdStart (sdp : SerialDriver) : M SerialDriver :=
  chSysLock ;;
  chDbgAssert (bool_decide (sd_state sdp = SD_STOP) || bool_decide (sd_state sdp = SD_READY)) "sdStart" ;;
  sd_lld_start sdp ;;
  chSysUnlock ;;
  mret (set_sd_state SD_READY sdp).

Definition sdStop (sdp : SerialDriver) : M SerialDriver :=
  chSysLock ;;
  chDbgAssert (bool_decide (sd_state sdp = SD_STOP) || bool_decide (sd_state sdp = SD_READY)) "sdStop" ;;
  sd_lld_stop sdp ;;
  chOQResetI (sd_oqueue sdp) ;;
  chIQResetI (sd_iqueue sdp) ;;
  chSchRescheduleS ;;
  chSysUnlock ;;
  mret (set_sd_state SD_STOP sdp).
End Lld.

Definition sdIncomingDataI (sdp : SerialDriver) (b : Z) : M unit :=
  chDbgCheckClassI ;;
  empty ← chIQIsEmptyI (sd_iqueue sdp);
  when empty (chnAddFlagsI sdp CHN_INPUT_AVAILABLE) ;;
  msg ← chIQPutI (sd_iqueue sdp) b;
  when (msg <? Q_OK) (chnAddFlagsI sdp SD_OVERRUN_ERROR).

Definition sdRequestDataI (sdp : SerialDriver) : M Z :=
  chDbgCheckClassI ;;
  b ← chOQGetI (sd_oqueue sdp);
  when (b <? Q_OK) (chnAddFlagsI sdp CHN_OUTPUT_EMPTY) ;;
  mret b.

(** The methods of the channel; [fuel] bounds the waits. *)
Section Methods.
Variable notify : positive → M unit.
Variable fuel : nat.

Definition sd_write (ip : SerialDriver) (bp : list Z) : M Z := chOQWriteTimeout notify fuel (sd_oqueue ip) bp TIME_INFINITE.
Definition sd_read (ip : SerialDriver) (n : nat) : M (list Z) := chIQReadTimeout notify fuel (sd_iqueue ip) n TIME_INFINITE.
Definition sd_put (ip : SerialDriver) (b : Z) : M Z := chOQPutTimeout notify fuel (sd_oqueue ip) b TIME_INFINITE.
Definition sd_get (ip : SerialDriver) : M Z := chIQGetTimeout notify fuel (sd_iqueue ip) TIME_INFINITE.
Definition sd_putt (ip : SerialDriver) (b timeout : Z) : M Z := chOQPutTimeout notify fuel (sd_oqueue ip) b timeout.
Definition sd_gett (ip : SerialDriver) (timeout : Z) : M Z := chIQGetTimeout notify fuel (sd_iqueue ip) timeout.
Definition sd_writet (ip : SerialDriver) (bp : list Z) (timeout : Z) : M Z := chOQWriteTimeout notify fuel (sd_oqueue ip) bp timeout.
Definition sd_readt (ip : SerialDriver) (n : nat) (timeout : Z) : M (list Z) := chIQReadTimeout notify fuel (sd_iqueue ip) n timeout.

(** The serial driver as a stream. *)
Definition serial_stream (ip : SerialDriver) : Stream M := {| sput := sd_put ip; sfault := λ A, fault |}.
End Methods.

(** ** The interrupt routine of the USART *)

Definition USART_SR_PE : Z := 1.
Definition USART_SR_FE : Z := 2.
Definition USART_SR_NE : Z := 4.
Definition USART_SR_ORE : Z := 8.
Definition USART_SR_RXNE : Z := 32.
Definition USART_SR_TC : Z := 64.
Definition USART_SR_TXE : Z := 128.
Definition USART_SR_LBD : Z := 256.
Definition USART_CR1_TCIE : Z := 64.
Definition USART_CR1_TXEIE : Z := 128.

Definition has (sr mask : Z) : bool := negb (Z.land sr mask =? 0).

Definition set_error (sdp : SerialDriver) (sr : Z) : M unit :=
  let sts := 0 in
  let sts := if has sr USART_SR_ORE then Z.lor sts SD_OVERRUN_ERROR else sts in
  let sts := if has sr USART_SR_PE then Z.lor sts SD_PARITY_ERROR else sts in
  let sts := if has sr USART_SR_FE then Z.lor sts SD_FRAMING_ERROR else sts in
  let sts := if has sr USART_SR_NE then Z.lor sts SD_NOISE_ERROR else sts in
  chnAddFlagsI sdp sts.

Definition RX_FLAGS : Z :=
  Z.lor USART_SR_RXNE (Z.lor USART_SR_ORE (Z.lor USART_SR_NE (Z.lor USART_SR_FE USART_SR_PE))).

(** The loop on the received characters; [rx] is what the data register and then
    the status register read as in each iteration, and the result is the last
    status.  The loop ends when the status shows nothing more to read; that it
    does is up to the hardware. *)
Fixpoint receive_loop (sdp : SerialDriver) (sr : Z) (rx : list (Z * Z)) : M Z :=
  if has sr RX_FLAGS then
    match rx with
    | [] => fault
    | (b, sr') :: rx =>
        when (has sr (Z.lor USART_SR_ORE (Z.lor USART_SR_NE (Z.lor USART_SR_FE USART_SR_PE)))) (set_error sdp sr) ;;
        when (has sr USART_SR_RXNE) (sdIncomingDataI sdp (u8 b)) ;;
        receive_loop sdp sr' rx
    end
  else mret sr.

(** What the routine leaves in CR1, and what it writes to DR and to SR. *)
Record usart_out := mkUO { uo_cr1 : Z; uo_dr : option Z; uo_sr : list Z }.

(** LIN break. *)
Definition serve_break (sdp : SerialDriver) (sr : Z) : M (list Z) :=
  if has sr USART_SR_LBD then
    chSysLockFromISR ;; chnAddFlagsI sdp SD_BREAK_DETECTED ;; chSysUnlockFromISR ;;
    mret [u32 (Z.lnot USART_SR_LBD)]
  else mret [].

(** Transmission buffer empty: CR1 and DR. *)
Definition serve_txe (sdp : SerialDriver) (cr1 sr : Z) : M (Z * option Z) :=
  if has cr1 USART_CR1_TXEIE && has sr USART_SR_TXE then
    chSysLockFromISR ;;
    b ← chOQGetI (sd_oqueue sdp);
    out ← (if b <? Q_OK then
             chnAddFlagsI sdp CHN_OUTPUT_EMPTY ;;
             mret (Z.lor (Z.land cr1 (u32 (Z.lnot USART_CR1_TXEIE))) USART_CR1_TCIE, None)
           else mret (cr1, Some b));
    chSysUnlockFromISR ;; mret out
  else mret (cr1, None).

(** Physical transmission end: [cr1] is the value read on entry, [now] what CR1
    holds; the result is what CR1 then holds and what is written to SR. *)
Definition serve_tc (sdp : SerialDriver) (cr1 now sr : Z) : M (Z * list Z) :=
  if has sr USART_SR_TC then
    chSysLockFromISR ;;
    empty ← chOQIsEmptyI (sd_oqueue sdp);
    when empty (chnAddFlagsI sdp CHN_TRANSMISSION_END) ;;
    chSysUnlockFromISR ;;
    mret (Z.land cr1 (u32 (Z.lnot USART_CR1_TCIE)), [u32 (Z.lnot USART_SR_TC)])
  else mret (now, []).

Definition serve_interrupt (sdp : SerialDriver) (cr1 sr : Z) (rx : list (Z * Z)) : M usart_out :=
  w1 ← serve_break sdp sr;
  chSysLockFromISR ;;
  sr ← receive_loop sdp sr rx;
  chSysUnlockFromISR ;;
  tx ← serve_txe sdp cr1 sr;
  tc ← serve_tc sdp cr1 tx.1 sr;
  mret (mkUO tc.1 tx.2 (w1 ++ tc.2)).

(** OSAL_IRQ_HANDLER(STM32_USART1_HANDLER) *)
Definition usart_irq_handler (sdp : SerialDriver) (cr1 sr : Z) (rx : list (Z * Z)) : M usart_out :=
  CH_IRQ_PROLOGUE ;;
  out ← serve_interrupt sdp cr1 sr rx;
  CH_IRQ_EPILOGUE ;;
  mret out.

(** ** The kernel monad as a stream monad *)

Fixpoint res_equiv {A} (r r' : res A) : Prop :=
  match r, r' with
  | Done a s, Done a' s' => a = a' ∧ s = s'
  | Halt m s, Halt m' s' => m = m' ∧ s = s'
  | Fault, Fault => True
  | Switch s k, Switch s' k' => s = s' ∧ ∀ x, res_equiv (k x) (k' x)
  | _, _ => False
  end.

Lemma res_equiv_refl {A} (r : res A) : res_equiv r r.
Proof. induction r; simpl; auto. Qed.
Lemma res_equiv_sym {A} (r : res A) : ∀ r', res_equiv r r' → res_equiv r' r.
Proof. induction r; intros [] H'; simpl in *; try done; naive_solver. Qed.
Lemma res_equiv_trans {A} (r : res A) : ∀ r1 r2, res_equiv r r1 → res_equiv r1 r2 → res_equiv r r2.
Proof. induction r; intros [] [] H1 H2; simpl in *; try done; naive_solver. Qed.

Lemma res_equiv_done {A} (r : res A) a s : res_equiv r (Done a s) → r = Done a s.
Proof. destruct r; simpl; try done. by intros [-> ->]. Qed.

Lemma rbind_equiv {A B} (r r' : res A) (k k' : A → kst → res B) :
  res_equiv r r' → (∀ a s, res_equiv (k a s) (k' a s)) → res_equiv (rbind r k) (rbind r' k').
Proof.
  intros Hr Hk. revert r' Hr. induction r as [a s|m s| |s c IH]; intros [] Hr; simpl in *; try done.
  - destruct Hr as [<- <-]. apply Hk.
  - destruct Hr as [<- Hr]. split; [done|]. intros x. apply IH, Hr.
Qed.

Lemma rbind_assoc {A B C} (r : res A) (k : A → kst → res B) (l : B → kst → res C) :
  res_equiv (rbind (rbind r k) l) (rbind r (λ a s, rbind (k a s) l)).
Proof. induction r as [a s|m s| |s c IH]; simpl; auto using @res_equiv_refl. Qed.

#[export] Instance serial_laws notify fuel ip : StreamLaws M (H := serial_stream notify fuel ip).
Proof.
  refine (Build_StreamLaws M (serial_stream notify fuel ip) (λ A m m', ∀ s, res_equiv (m s) (m' s)) _ _ _ _).
  - intros A. split; [intros m s; apply res_equiv_refl|intros m m' Hm s; by apply res_equiv_sym|].
    intros m1 m2 m3 H1 H2 s. by eapply res_equiv_trans.
  - intros A B k k' Hk m m' Hm s. by apply rbind_equiv.
  - intros A B a k s. apply res_equiv_refl.
  - intros A B C m k l s. apply rbind_assoc.
Defined.

(** ** Printing on a serial port *)

Lemma same_data_ioq qp q s s' : same_data s s' → same_data (ioq_st qp q s) (ioq_st qp q s').
Proof. unfold same_data. simpl. intuition congruence. Qed.

Section Print.
Context (notify : positive → M unit) (fuel : nat).

(** The callback of the queue does not touch the kernel: it enables the
    transmitter interrupt. *)
Definition quiet (q : ioqueue) : Prop := ∀ f s, q_notify q = Some f → notify f s = Done tt s.

(** Storing a byte in a queue with room. *)
Lemma oq_store_ok s oqp q l b :
  k_ioq s !! oqp = Some q → oq_inv oqp l s → (length l < length (q_buffer q))%nat →
  ∃ q', oq_store oqp b s = Done tt (ioq_st oqp q' s) ∧ oq_inv oqp (l ++ [b]) (ioq_st oqp q' s) ∧
    length (q_buffer q') = length (q_buffer q) ∧ q_notify q' = q_notify q.
Proof.
  intros Eq (q' & Eq' & Hr & Hc) Hl. simplify_eq. destruct (ring_push _ _ _ _ b Hr Hl) as [Hw Hr'].
  exists (q_set (q_counter q + -1) (<[q_wrptr q := b]> (q_buffer q))
            (ring_succ (length (q_buffer q)) (q_wrptr q)) (q_rdptr q) q).
  split_and!; [|..|by simpl; rewrite length_insert|done].
  - unfold oq_store. mgo. rewrite (ioq_ok _ _ _ Eq). mgo. unfold q_write, deref.
    destruct (Nat.ltb_spec (q_wrptr q) (length (q_buffer q))); [|lia]. by mgo.
  - eexists. split; [apply lookup_insert_eq|]. split; [done|]. simpl. rewrite length_app, length_insert. simpl. lia.
Qed.

Lemma oq_put_room s oqp q l b timeout :
  user s → k_ioq s !! oqp = Some q → oq_inv oqp l s → (length l < length (q_buffer q))%nat → quiet q →
  ∃ s' q', chOQPutTimeout notify fuel oqp b timeout s = Done Q_OK s' ∧ user s' ∧ oq_inv oqp (l ++ [b]) s' ∧
    same_data (ioq_st oqp q' s) s' ∧ length (q_buffer q') = length (q_buffer q) ∧ q_notify q' = q_notify q.
Proof.
  intros Hu Eq Hi Hl Hn. destruct (lock_user s Hu) as (s1 & E1 & K1 & D1). pose proof D1 as D1'.
  destruct D1' as (_&_&_&_&_&_&_&_&_&_&_&_&I1&_&_&_).
  assert (k_ioq s1 !! oqp = Some q) as Eq1 by by rewrite I1.
  assert (oq_inv oqp l s1) as Hi1 by (destruct Hi as (q0 & ? & ?); exists q0; by rewrite I1).
  destruct (oq_store_ok s1 oqp q l b Eq1 Hi1 Hl) as (q' & E2 & Hi2 & L2 & N2).
  assert (K (ioq_st oqp q' s1)) as K2 by by apply (K_ext s1).
  destruct (unlock_user _ K2) as (s3 & E3 & U3 & D3).
  exists s3, q'. split_and!; try done.
  - unfold chOQPutTimeout. mgo. rewrite E1. mgo.
    assert (oq_wait fuel oqp timeout s1 = Done None s1) as ->.
    { assert (chOQIsFullI oqp s1 = Done false s1) as Ef.
      { unfold chOQIsFullI. mgo. rewrite (classI_ok s1 (in_S_I _ (proj2 (proj2 K1)))). mgo. rewrite (ioq_ok _ _ _ Eq1). mgo.
        destruct Hi1 as (q0 & Eq0 & _ & Hc). simplify_eq. unfold chQSpaceI. destruct (Z.eqb_spec (q_counter q) 0); [lia|done]. }
      destruct fuel; cbn [oq_wait]; mgo; rewrite Ef; by mgo. }
    mgo. rewrite E2. mgo. rewrite (ioq_ok _ oqp q') by apply lookup_insert_eq. mgo.
    unfold run_notify. rewrite N2. destruct (q_notify q) as [f|] eqn:Ef; mgo; [rewrite (Hn f _ Ef); mgo|]; rewrite E3; by mgo.
  - destruct Hi2 as (q0 & ? & ?). exists q0. destruct D3 as (_&_&_&_&_&_&_&_&_&_&_&_&I3&_). by rewrite I3.
  - eapply same_data_tr; [|exact D3]. by apply same_data_ioq.
Qed.

(** Bytes written one by one to a serial port whose output queue has room. *)
Lemma serial_put_all ip bs : ∀ s q l,
  user s → k_ioq s !! sd_oqueue ip = Some q → oq_inv (sd_oqueue ip) l s →
  (length l + length bs ≤ length (q_buffer q))%nat → quiet q →
  ∃ s' q', put_all (H := serial_stream notify fuel ip) bs s = Done tt s' ∧ user s' ∧
    oq_inv (sd_oqueue ip) (l ++ bs) s' ∧ same_data (ioq_st (sd_oqueue ip) q' s) s' ∧ length (q_buffer q') = length (q_buffer q).
Proof.
  set (oqp := sd_oqueue ip). induction bs as [|b bs IH]; intros s q l Hu Eq Hi Hl Hn.
  - exists s, q. rewrite app_nil_r. split_and!; try done. unfold same_data. simpl. by rewrite insert_id.
  - simpl in Hl. destruct (oq_put_room s oqp q l b TIME_INFINITE Hu Eq Hi) as (s1 & q1 & E1 & U1 & I1 & D1 & L1 & N1); [lia|done|].
    assert (k_ioq s1 !! oqp = Some q1) as Eq1.
    { destruct D1 as (_&_&_&_&_&_&_&_&_&_&_&_&->&_). apply lookup_insert_eq. }
    destruct (IH s1 q1 (l ++ [b])) as (s2 & q2 & E2 & U2 & I2 & D2 & L2); [done..|rewrite length_app; simpl; lia| |].
    { intros f x Hf. apply Hn. congruence. }
    exists s2, q2. split_and!; try done; [|by rewrite <-app_assoc in I2| |congruence].
    + change (rbind (chOQPutTimeout notify fuel oqp b TIME_INFINITE s)
        (λ _, put_all (H := serial_stream notify fuel ip) bs) = Done tt s2). rewrite E1. exact E2.
    + eapply same_data_tr; [|exact D2]. eapply same_data_tr; [|apply same_data_ioq, D1].
      unfold same_data. simpl. by rewrite insert_insert_eq.
Qed.

(** Printing on a serial port: when the output fits in the free part of the
    output queue, chprintf returns its length, appends exactly its bytes to the
    queue and changes nothing else of the kernel. *)
Theorem serial_print ip b l ap bs s q lq :
  render_all l ap bs → Forall item_ok l → (23 ≤ length b)%nat → Z.of_nat (length bs) ≤ INT32_MAX →
  user s → k_ioq s !! sd_oqueue ip = Some q → oq_inv (sd_oqueue ip) lq s →
  (length lq + length bs ≤ length (q_buffer q))%nat → quiet q →
  ∃ s' q', chvprintf (H := serial_stream notify fuel ip) b (concat (item_text <$> l)) ap s = Done (Z.of_nat (length bs)) s' ∧
    user s' ∧ oq_inv (sd_oqueue ip) (lq ++ bs) s' ∧ same_data (ioq_st (sd_oqueue ip) q' s) s'.
Proof.
  intros Hr Hok Hb Hn Hu Eq Hi Hl Hq.
  destruct (serial_put_all ip bs s q lq Hu Eq Hi Hl Hq) as (s' & q' & E & U & I & D & _). exists s', q'. split_and!; try done.
  pose proof (chvprintf_ok (H := serial_stream notify fuel ip) b l ap bs Hr Hok Hb Hn s) as Hc.
  change (res_equiv (chvprintf (H := serial_stream notify fuel ip) b (concat (item_text <$> l)) ap s)
    (rbind (put_all (H := serial_stream notify fuel ip) bs s) (λ _, Done (Z.of_nat (length bs))))) in Hc.
  rewrite E in Hc. cbn [rbind] in Hc.
  by apply res_equiv_done.
Qed.
End Print.

(** ** What the interrupt routine does *)

Section Irq.
Context (sdp : SerialDriver) (L : list addr) (n : nat).
Hypothesis Hneq : sd_iqueue sdp ≠ sd_oqueue sdp.

(** The driver in a consistent kernel: its event source has the listeners [L],
    its input queue of [n] slots holds [li] and its output queue [lo]. *)
Record serial_ok (li lo : list Z) (s : kst) : Prop := {
  so_wf : wf s;
  so_evt : evt_wf s;
  so_src : src_ok (sd_event sdp) L s;
  so_iq : iq_inv (sd_iqueue sdp) li s;
  so_size : ∃ q, k_ioq s !! sd_iqueue sdp = Some q ∧ length (q_buffer q) = n;
  so_oq : oq_inv (sd_oqueue sdp) lo s
}.

(** Every listener of the driver accumulates the flags [F], no other changes. *)
Definition flagged (F : Z) (s s' : kst) : Prop :=
  ∀ elp, k_evl s' !! elp = if decide (elp ∈ L) then el_add F <$> k_evl s !! elp else k_evl s !! elp.

Lemma flagged_same s s' : k_evl s' = k_evl s → flagged 0 s s'.
Proof.
  intros E elp. rewrite E. destruct (decide _); [|done]. destruct (k_evl s !! elp) as [[]|]; [|done]. simpl.
  unfold el_add. simpl. by rewrite Z.lor_0_r.
Qed.

Lemma flagged_trans F1 F2 s1 s2 s3 : flagged F1 s1 s2 → flagged F2 s2 s3 → flagged (Z.lor F1 F2) s1 s3.
Proof.
  intros H1 H2 elp. rewrite H2, H1. destruct (decide _); [|done]. destruct (k_evl s1 !! elp) as [[]|]; [|done]. simpl.
  unfold el_add. simpl. by rewrite Z.lor_assoc.
Qed.

(** [m] started in [s] returns [a] in a state of level [lvl] where the queues hold
    [li] and [lo], having signalled [F]. *)
Definition runs {A} (m : M A) (s : kst) (a : A) (li lo : list Z) (F : Z) (lvl : kst → Prop) : Prop :=
  ∃ s', m s = Done a s' ∧ serial_ok li lo s' ∧ flagged F s s' ∧ lvl s'.

Lemma runs_ret {A} (a : A) s li lo lvl : serial_ok li lo s → lvl s → runs (mret a) s a li lo 0 lvl.
Proof. intros. exists s. split_and!; try done. by apply flagged_same. Qed.

Lemma runs_bind {A B} (m : M A) (k : A → M B) s a b li lo li' lo' F F' lvl lvl' :
  runs m s a li lo F lvl → (∀ s', serial_ok li lo s' → lvl s' → runs (k a) s' b li' lo' F' lvl') →
  runs (m ≫= k) s b li' lo' (Z.lor F F') lvl'.
Proof.
  intros (s1 & E1 & H1 & F1 & L1) Hk. destruct (Hk s1 H1 L1) as (s2 & E2 & H2 & F2 & L2).
  exists s2. mgo. rewrite E1. mgo. split_and!; try done. by eapply flagged_trans.
Qed.

Lemma runs_flags {A} (m : M A) s a li lo F F' lvl : F = F' → runs m s a li lo F lvl → runs m s a li lo F' lvl.
Proof. by intros ->. Qed.

(** A step that leaves the data alone. *)
Lemma runs_same {A} (m : M A) s s' (a : A) li lo (lvl : kst → Prop) :
  m s = Done a s' → serial_ok li lo s → same_data s s' → lvl s' → runs m s a li lo 0 lvl.
Proof.
  intros E [H1 H2 H3 H4 H5 H6] (c & t & q & _ & _ & _ & _ & _ & _ & _ & _ & _ & io & el & ev & _) Hl. exists s'.
  split_and!; [done| |by apply flagged_same|done]. split.
  - by apply (wf_ext s).
  - intros x th. rewrite t. apply H2.
  - apply (src_ok_ext _ _ s); [done|done| |done]. by rewrite t.
  - destruct H4 as (q0 & ? & ?). exists q0. by rewrite io.
  - by rewrite io.
  - destruct H6 as (q0 & ? & ?). exists q0. by rewrite io.
Qed.

Lemma runs_lock s li lo : serial_ok li lo s → isr_open s → runs chSysLockFromISR s tt li lo 0 isr_locked.
Proof.
  intros Hs [H1 H2]. destruct (chSysLockFromISR_ok s) as (s' & E & I & N & D); [split; lia|].
  apply (runs_same _ s s'); try done. split; [lia|apply I].
Qed.

Lemma runs_unlock s li lo : serial_ok li lo s → isr_locked s → runs chSysUnlockFromISR s tt li lo 0 isr_open.
Proof.
  intros Hs [H1 H2]. destruct (chSysUnlockFromISR_ok s) as (s' & E & I & N & D); [split; lia|lia|].
  apply (runs_same _ s s'); try done. split; [lia|apply I].
Qed.

Lemma locked_I s : isr_locked s → in_I s.
Proof. intros []. split; lia. Qed.
Hint Resolve locked_I : core.

Lemma runs_add s f li lo : serial_ok li lo s → isr_locked s → runs (chnAddFlagsI sdp f) s tt li lo f isr_locked.
Proof.
  intros [H1 H2 H3 H4 H5 H6] Hl.
  destruct (chEvtBroadcastFlagsI_ok s (sd_event sdp) L f) as (s' & E & W & V & I & S & F & O & _ & N); auto.
  exists s'. split_and!; [done| |done|split; [rewrite N; apply Hl|apply I]]. split; try done.
  - destruct H4 as (q0 & ? & ?). exists q0. by rewrite O.
  - by rewrite O.
  - destruct H6 as (q0 & ? & ?). exists q0. by rewrite O.
Qed.

(** Waking a thread keeps the events consistent. *)
Lemma woken_env s s' (w : option tid) (m : Z) :
  (∀ t, k_thd s' !! t = if decide (w = Some t) then set_p_state CH_STATE_READY ∘ set_p_u (U_msg m) <$> k_thd s !! t else k_thd s !! t) →
  evt_wf s → k_evs s' = k_evs s → k_evl s' = k_evl s → src_ok (sd_event sdp) L s → evt_wf s' ∧ src_ok (sd_event sdp) L s'.
Proof.
  intros Ht He E1 E2 Hs. split.
  - intros t th. rewrite Ht. destruct (decide _); [|apply He]. destruct (k_thd s !! t); [|done]. simpl.
    intros [= <-]. by intros [?|?].
  - apply (src_ok_ext _ _ s); try done. intros t Hth. rewrite Ht. destruct (decide _); [by apply fmap_is_Some|done].
Qed.

Lemma so_len li lo s : serial_ok li lo s → (length li ≤ n)%nat ∧ (0 < n)%nat.
Proof.
  intros [_ _ _ (q & Eq & Hr & _) (q' & Eq' & <-) _]. simplify_eq.
  pose proof (rr_len _ _ _ _ Hr). pose proof (rr_rd _ _ _ _ Hr). lia.
Qed.

Lemma runs_put s b li lo :
  serial_ok li lo s → isr_locked s →
  runs (chIQPutI (sd_iqueue sdp) b) s (if (length li <? n)%nat then Q_OK else Q_FULL) (take n (li ++ [b])) lo 0 isr_locked.
Proof using Hneq.
  intros Hs Hl. destruct (so_len _ _ _ Hs) as [Hn _]. pose proof Hs as [H1 H2 H3 H4 (q & Eq & Hq) H6].
  destruct (chIQPutI_ok s _ q li b H1 (locked_I _ Hl) Eq H4) as [Hf Hp]. rewrite Hq in Hf, Hp.
  destruct (Nat.ltb_spec (length li) n) as [Hlt|Hge].
  - destruct (Hp Hlt) as (s' & E & W & I & Q & _ & T & el & ev & ir & q' & Eq' & Lq). rewrite take_ge by (rewrite length_app; simpl; lia).
    destruct (woken_env s s' _ _ T H2 ev el H3) as [He' Hs'].
    exists s'. split_and!; [done| |by apply flagged_same|split; [rewrite ir; apply Hl|apply I]]. split; try done.
    + exists q'. rewrite Eq', lookup_insert_eq. split; [done|lia].
    + destruct H6 as (q0 & ? & ?). exists q0. by rewrite Eq', lookup_insert_ne.
  - exists s. replace (take n (li ++ [b])) with li by (rewrite take_app_le, take_ge by lia; done). rewrite Hf by done. split_and!; try done. by apply flagged_same.
Qed.

(** The events of received bytes [bs] when the input queue holds [li]. *)
Definition rx_available (li bs : list Z) : Z := match li, bs with [], _ :: _ => CHN_INPUT_AVAILABLE | _, _ => 0 end.
Definition rx_overrun (li bs : list Z) : Z := if (n <? length (li ++ bs))%nat then SD_OVERRUN_ERROR else 0.

Lemma runs_incoming s b li lo :
  serial_ok li lo s → isr_locked s →
  runs (sdIncomingDataI sdp b) s tt (take n (li ++ [b])) lo (Z.lor (rx_available li [b]) (rx_overrun li [b])) isr_locked.
Proof using Hneq.
  intros Hs Hl. unfold sdIncomingDataI. destruct (so_len _ _ _ Hs) as [Hn _].
  apply (runs_flags _ _ _ _ _ (Z.lor 0 (Z.lor 0 (Z.lor (rx_available li [b]) (Z.lor 0 (rx_overrun li [b])))))); [done|].
  apply (runs_bind _ _ _ tt _ li lo _ _ _ _ isr_locked).
  { apply (runs_same _ s s); try done. apply classI_ok; auto. }
  clear s Hs Hl. intros s Hs Hl.
  apply (runs_bind _ _ _ (bool_decide (li = [])) _ li lo _ _ _ _ isr_locked).
  { apply (runs_same _ s s); try done. destruct Hs as [_ _ _ (q & Eq & Hr & Hc) _ _].
    unfold chIQIsEmptyI. mgo. rewrite classI_ok by auto. mgo. rewrite (ioq_ok _ _ _ Eq). mgo. unfold chQSpaceI. rewrite Hc.
    f_equal. destruct li; [done|]. rewrite bool_decide_false by done. by apply Z.eqb_neq. }
  clear s Hs Hl. intros s Hs Hl.
  apply (runs_bind _ _ _ tt _ li lo _ _ _ _ isr_locked).
  { destruct li as [|x li]; [apply runs_add|apply runs_ret]; done. }
  clear s Hs Hl. intros s Hs Hl.
  apply (runs_bind _ _ _ _ _ _ _ _ _ _ _ _ _ (runs_put s b li lo Hs Hl)).
  clear s Hs Hl. intros s Hs Hl. unfold rx_overrun. rewrite length_app. simpl length.
  destruct (Nat.ltb_spec (length li) n), (Nat.ltb_spec n (length li + 1)); try lia; [apply runs_ret|apply runs_add]; done.
Qed.

Lemma lor_shuffle a b c d : Z.lor a (Z.lor b (Z.lor c d)) = Z.lor (Z.lor a c) (Z.lor b d).
Proof. apply Z.bits_inj'. intros k _. rewrite !Z.lor_spec. btauto. Qed.

(** *** Reception *)

(** The hardware eventually shows a status with nothing more to read. *)
Fixpoint rx_ok (sr : Z) (rx : list (Z * Z)) : Prop :=
  match rx with [] => has sr RX_FLAGS = false | (_, sr') :: rx => has sr RX_FLAGS = true ∧ rx_ok sr' rx end.
(** The last status, the bytes received, and the errors reported on the way. *)
Fixpoint rx_last (sr : Z) (rx : list (Z * Z)) : Z := match rx with [] => sr | (_, sr') :: rx => rx_last sr' rx end.
Fixpoint rx_bytes (sr : Z) (rx : list (Z * Z)) : list Z :=
  match rx with [] => [] | (b, sr') :: rx => (if has sr USART_SR_RXNE then [u8 b] else []) ++ rx_bytes sr' rx end.
Definition err_flags (sr : Z) : Z :=
  Z.lor (if has sr USART_SR_ORE then SD_OVERRUN_ERROR else 0)
    (Z.lor (if has sr USART_SR_PE then SD_PARITY_ERROR else 0)
      (Z.lor (if has sr USART_SR_FE then SD_FRAMING_ERROR else 0) (if has sr USART_SR_NE then SD_NOISE_ERROR else 0))).
Fixpoint rx_errors (sr : Z) (rx : list (Z * Z)) : Z :=
  match rx with [] => 0 | (_, sr') :: rx => Z.lor (err_flags sr) (rx_errors sr' rx) end.

Lemma has_lor sr a b : has sr (Z.lor a b) = has sr a || has sr b.
Proof.
  unfold has. rewrite Z.land_lor_distr_r. destruct (Z.eqb_spec (Z.lor (Z.land sr a) (Z.land sr b)) 0) as [E|E].
  - apply Z.lor_eq_0_iff in E as [-> ->]. done.
  - destruct (Z.eqb_spec (Z.land sr a) 0) as [Ea|]; [|done]. destruct (Z.eqb_spec (Z.land sr b) 0) as [Eb|]; [|done].
    destruct E. by rewrite Ea, Eb.
Qed.

Lemma runs_error s sr li lo :
  serial_ok li lo s → isr_locked s →
  runs (when (has sr (Z.lor USART_SR_ORE (Z.lor USART_SR_NE (Z.lor USART_SR_FE USART_SR_PE)))) (set_error sdp sr)) s tt
    li lo (err_flags sr) isr_locked.
Proof.
  intros Hs Hl. rewrite !has_lor. unfold set_error, err_flags.
  destruct (has sr USART_SR_ORE), (has sr USART_SR_NE), (has sr USART_SR_FE), (has sr USART_SR_PE);
    first [by apply runs_ret|apply runs_add; done].
Qed.

Lemma rx_split li b bs :
  (length li ≤ n)%nat → (0 < n)%nat →
  Z.lor (Z.lor (rx_available li [b]) (rx_overrun li [b]))
    (Z.lor (rx_available (take n (li ++ [b])) bs) (rx_overrun (take n (li ++ [b])) bs)) =
  Z.lor (rx_available li (b :: bs)) (rx_overrun li (b :: bs)).
Proof.
  intros Hl Hn.
  assert (rx_available (take n (li ++ [b])) bs = 0) as ->.
  { unfold rx_available. destruct n; [lia|]. by destruct li. }
  change (rx_available li (b :: bs)) with (rx_available li [b]). rewrite Z.lor_0_l, <-Z.lor_assoc. f_equal.
  unfold rx_overrun. rewrite !length_app, length_take, length_app. simpl length.
  repeat match goal with |- context [(?a <? ?b)%nat] => destruct (Nat.ltb_spec a b) end; try lia; done.
Qed.

Lemma runs_receive rx : ∀ s sr li lo,
  serial_ok li lo s → isr_locked s → rx_ok sr rx →
  runs (receive_loop sdp sr rx) s (rx_last sr rx) (take n (li ++ rx_bytes sr rx)) lo
    (Z.lor (rx_errors sr rx) (Z.lor (rx_available li (rx_bytes sr rx)) (rx_overrun li (rx_bytes sr rx)))) isr_locked.
Proof using Hneq.
  induction rx as [|[b sr'] rx IH]; intros s sr li lo Hs Hl Hr; destruct (so_len _ _ _ Hs) as [Hn Hp]; simpl in Hr.
  - cbn [receive_loop]. rewrite Hr. simpl. rewrite app_nil_r, take_ge by done.
    unfold rx_overrun. rewrite app_nil_r. destruct (Nat.ltb_spec n (length li)); [lia|].
    apply (runs_flags _ _ _ _ _ 0); [by destruct li|]. by apply runs_ret.
  - destruct Hr as [Hh Hr]. cbn [receive_loop rx_last rx_bytes rx_errors]. rewrite Hh.
    destruct (has sr USART_SR_RXNE).
    + eapply runs_flags; cycle 1.
      { eapply (runs_bind _ _ _ tt); [by apply runs_error|]. clear s Hs Hl. intros s Hs Hl.
        eapply (runs_bind _ _ _ tt); [by apply runs_incoming|]. clear s Hs Hl. intros s Hs Hl.
        pose proof (IH s sr' _ lo Hs Hl Hr) as H. cbn [app].
        replace (take n (take n (li ++ [u8 b]) ++ rx_bytes sr' rx)) with (take n (li ++ u8 b :: rx_bytes sr' rx)) in H; [exact H|].
        replace (li ++ u8 b :: rx_bytes sr' rx) with ((li ++ [u8 b]) ++ rx_bytes sr' rx) by by rewrite <-app_assoc.
        destruct (Nat.le_ge_cases (length (li ++ [u8 b])) n); [by rewrite (take_ge (li ++ [u8 b]))|].
        rewrite (take_app_le (li ++ [u8 b])) by done. symmetry. apply take_app_length'. rewrite length_take. lia. }
      cbn [app]. by rewrite lor_shuffle, rx_split.
    + eapply runs_flags; cycle 1.
      { eapply (runs_bind _ _ _ tt); [by apply runs_error|]. clear s Hs Hl. intros s Hs Hl.
        eapply (runs_bind _ _ _ tt); [by apply runs_ret|]. clear s Hs Hl. intros s Hs Hl. by apply IH. }
      cbn [app]. by rewrite Z.lor_0_l, <-!Z.lor_assoc.
Qed.

(** *** Transmission *)

Lemma runs_get s li lo :
  serial_ok li lo s → isr_locked s →
  runs (chOQGetI (sd_oqueue sdp)) s (default Q_EMPTY (head lo)) li (tail lo) 0 isr_locked.
Proof using Hneq.
  intros Hs Hl. pose proof Hs as [H1 H2 H3 H4 H5 (q & Eq & Hq)].
  pose proof (chOQGetI_correct s (sd_oqueue sdp) q lo H1 (locked_I _ Hl) Eq) as Hg.
  destruct lo as [|b lo]; cbn [head tail default].
  - exists s. rewrite Hg by (by exists q). split_and!; try done. by apply flagged_same.
  - destruct Hg as (s' & E & W & I & Q & _ & T & el & ev & ir & q' & Eq' & Lq); [by exists q|].
    destruct (woken_env s s' _ _ T H2 ev el H3) as [He' Hs'].
    exists s'. split_and!; [done| |by apply flagged_same|split; [rewrite ir; apply Hl|apply I]]. split; try done.
    + destruct H4 as (q0 & ? & ?). exists q0. by rewrite Eq', lookup_insert_ne.
    + destruct H5 as (q0 & ? & ?). exists q0. by rewrite Eq', lookup_insert_ne.
Qed.

Lemma runs_empty s li lo :
  serial_ok li lo s → isr_locked s →
  runs (chOQIsEmptyI (sd_oqueue sdp)) s (bool_decide (lo = [])) li lo 0 isr_locked.
Proof.
  intros Hs Hl. apply (runs_same _ s s); try done. destruct Hs as [_ _ _ _ _ (q & Eq & Hr & Hc)].
  unfold chOQIsEmptyI. mgo. rewrite classI_ok by auto. mgo. rewrite (ioq_ok _ _ _ Eq). mgo. by rewrite (oq_empty_test q lo).
Qed.

(** Whether the transmitter asks for a byte. *)
Definition tx_wanted (cr1 sr : Z) : bool := has cr1 USART_CR1_TXEIE && has sr USART_SR_TXE.
Definition tx_rest (cr1 sr : Z) (lo : list Z) : list Z := if tx_wanted cr1 sr then tail lo else lo.
Definition tx_byte (cr1 sr : Z) (lo : list Z) : option Z := if tx_wanted cr1 sr then head lo else None.
Definition txe_off (cr1 : Z) : Z := Z.lor (Z.land cr1 (u32 (Z.lnot USART_CR1_TXEIE))) USART_CR1_TCIE.
Definition tx_cr1 (cr1 sr : Z) (lo : list Z) : Z :=
  if tx_wanted cr1 sr && bool_decide (lo = []) then txe_off cr1 else cr1.
Definition tx_events (cr1 sr : Z) (lo : list Z) : Z :=
  if tx_wanted cr1 sr && bool_decide (lo = []) then CHN_OUTPUT_EMPTY else 0.
Definition tc_events (sr : Z) (lo : list Z) : Z :=
  if has sr USART_SR_TC && bool_decide (lo = []) then CHN_TRANSMISSION_END else 0.

Lemma runs_break s sr li lo :
  serial_ok li lo s → isr_open s →
  runs (serve_break sdp sr) s (if has sr USART_SR_LBD then [u32 (Z.lnot USART_SR_LBD)] else []) li lo
    (if has sr USART_SR_LBD then SD_BREAK_DETECTED else 0) isr_open.
Proof.
  intros Hs Hl. unfold serve_break. destruct (has sr USART_SR_LBD); [|by apply runs_ret].
  apply (runs_flags _ _ _ _ _ (Z.lor 0 (Z.lor SD_BREAK_DETECTED (Z.lor 0 0)))); [done|].
  eapply runs_bind; [by apply runs_lock|]. intros. eapply runs_bind; [by apply runs_add|]. intros.
  eapply runs_bind; [by apply runs_unlock|]. intros. by apply runs_ret.
Qed.

Lemma runs_txe s cr1 sr li lo :
  serial_ok li lo s → isr_open s → Forall (λ b, 0 ≤ b) lo →
  runs (serve_txe sdp cr1 sr) s (tx_cr1 cr1 sr lo, tx_byte cr1 sr lo) li (tx_rest cr1 sr lo) (tx_events cr1 sr lo) isr_open.
Proof using Hneq.
  intros Hs Hl Hlo. unfold serve_txe, tx_cr1, tx_byte, tx_rest, tx_events. fold (tx_wanted cr1 sr).
  destruct (tx_wanted cr1 sr); [|by apply runs_ret].
  apply (runs_flags _ _ _ _ _ (Z.lor 0 (Z.lor 0 (Z.lor (if bool_decide (lo = []) then CHN_OUTPUT_EMPTY else 0) (Z.lor 0 0)))));
    [by destruct (bool_decide _)|].
  eapply runs_bind; [by apply runs_lock|]. intros. eapply runs_bind; [by apply runs_get|]. intros s1 ??.
  apply (runs_bind _ _ _ (if bool_decide (lo = []) then txe_off cr1 else cr1, head lo) _ li (tail lo) _ _ _ _ isr_locked).
  - destruct lo as [|b lo]; cbn [head tail default].
    + change (Q_EMPTY <? Q_OK) with true. cbn iota. rewrite bool_decide_true by done.
      apply (runs_flags _ _ _ _ _ (Z.lor CHN_OUTPUT_EMPTY 0)); [done|].
      eapply runs_bind; [by apply runs_add|]. intros. by apply runs_ret.
    + apply Forall_cons in Hlo as [Hb _]. change Q_OK with 0. unfold id. destruct (Z.ltb_spec b 0); [lia|].
      rewrite bool_decide_false by done. by apply runs_ret.
  - intros. eapply runs_bind; [by apply runs_unlock|]. intros. by apply runs_ret.
Qed.

Lemma runs_tc s cr1 now sr li lo :
  serial_ok li lo s → isr_open s →
  runs (serve_tc sdp cr1 now sr) s
    (if has sr USART_SR_TC then (Z.land cr1 (u32 (Z.lnot USART_CR1_TCIE)), [u32 (Z.lnot USART_SR_TC)]) else (now, []))
    li lo (tc_events sr lo) isr_open.
Proof.
  intros Hs Hl. unfold serve_tc, tc_events. destruct (has sr USART_SR_TC); [|by apply runs_ret]. cbn [andb].
  apply (runs_flags _ _ _ _ _ (Z.lor 0 (Z.lor 0 (Z.lor (if bool_decide (lo = []) then CHN_TRANSMISSION_END else 0) (Z.lor 0 0)))));
    [by destruct (bool_decide _)|].
  eapply runs_bind; [by apply runs_lock|]. intros. eapply runs_bind; [by apply runs_empty|]. intros.
  eapply runs_bind.
  { instantiate (1 := isr_locked). instantiate (1 := lo). instantiate (1 := li). instantiate (1 := tt).
    destruct (bool_decide _); [apply runs_add|apply runs_ret]; done. }
  intros. eapply runs_bind; [by apply runs_unlock|]. intros. by apply runs_ret.
Qed.

(** *** The whole routine *)

(** Its outputs: CR1, the byte sent, and the flags cleared in SR. *)
Definition irq_out (cr1 sr last : Z) (lo : list Z) : usart_out :=
  mkUO (if has last USART_SR_TC then Z.land cr1 (u32 (Z.lnot USART_CR1_TCIE)) else tx_cr1 cr1 last lo)
    (tx_byte cr1 last lo)
    ((if has sr USART_SR_LBD then [u32 (Z.lnot USART_SR_LBD)] else []) ++
     (if has last USART_SR_TC then [u32 (Z.lnot USART_SR_TC)] else [])).

(** The events it signals. *)
Definition irq_events (cr1 sr : Z) (rx : list (Z * Z)) (li lo : list Z) : Z :=
  let bs := rx_bytes sr rx in
  let last := rx_last sr rx in
  Z.lor (if has sr USART_SR_LBD then SD_BREAK_DETECTED else 0)
    (Z.lor (Z.lor (rx_errors sr rx) (Z.lor (rx_available li bs) (rx_overrun li bs)))
      (Z.lor (tx_events cr1 last lo) (tc_events last (tx_rest cr1 last lo)))).

Lemma runs_serve s cr1 sr rx li lo :
  serial_ok li lo s → isr_open s → rx_ok sr rx → Forall (λ b, 0 ≤ b) lo →
  runs (serve_interrupt sdp cr1 sr rx) s (irq_out cr1 sr (rx_last sr rx) lo)
    (take n (li ++ rx_bytes sr rx)) (tx_rest cr1 (rx_last sr rx) lo) (irq_events cr1 sr rx li lo) isr_open.
Proof using Hneq.
  intros Hs Hl Hr Hlo. unfold serve_interrupt, irq_events.
  eapply runs_flags; cycle 1.
  - eapply runs_bind; [by apply runs_break|]. clear s Hs Hl. intros s Hs Hl.
    eapply runs_bind; [by apply runs_lock|]. clear s Hs Hl. intros s Hs Hl.
    eapply runs_bind; [by apply runs_receive|]. clear s Hs Hl. intros s Hs Hl.
    eapply runs_bind; [by apply runs_unlock|]. clear s Hs Hl. intros s Hs Hl.
    eapply runs_bind; [by apply runs_txe|]. clear s Hs Hl. intros s Hs Hl.
    eapply runs_bind; [by apply runs_tc|]. clear s Hs Hl. intros s Hs Hl.
    replace (irq_out cr1 sr (rx_last sr rx) lo) with
      (mkUO (if has (rx_last sr rx) USART_SR_TC then (Z.land cr1 (u32 (Z.lnot USART_CR1_TCIE)), [u32 (Z.lnot USART_SR_TC)])
             else (tx_cr1 cr1 (rx_last sr rx) lo, [])).1 (tx_byte cr1 (rx_last sr rx) lo)
        ((if has sr USART_SR_LBD then [u32 (Z.lnot USART_SR_LBD)] else []) ++
         (if has (rx_last sr rx) USART_SR_TC then (Z.land cr1 (u32 (Z.lnot USART_CR1_TCIE)), [u32 (Z.lnot USART_SR_TC)])
             else (tx_cr1 cr1 (rx_last sr rx) lo, [])).2)) by (unfold irq_out; by destruct (has (rx_last sr rx) USART_SR_TC)).
    by apply runs_ret.
  - by rewrite !Z.lor_0_l, Z.lor_0_r.
Qed.

Lemma runs_handler s cr1 sr rx li lo :
  serial_ok li lo s → unlocked s → rx_ok sr rx → Forall (λ b, 0 ≤ b) lo →
  runs (usart_irq_handler sdp cr1 sr rx) s (irq_out cr1 sr (rx_last sr rx) lo)
    (take n (li ++ rx_bytes sr rx)) (tx_rest cr1 (rx_last sr rx) lo) (irq_events cr1 sr rx li lo) unlocked.
Proof using Hneq.
  intros Hs Hl Hr Hlo. unfold usart_irq_handler.
  eapply runs_flags; cycle 1.
  - eapply (runs_bind _ _ _ tt _ _ _ _ _ _ _ isr_open).
    { destruct (irq_prologue_ok s Hl) as (s' & E & I & N & D). apply (runs_same _ s s'); [done..|]. split; [done|apply I]. }
    clear s Hs Hl. intros s Hs Hl. eapply runs_bind; [by apply runs_serve|]. clear s Hs Hl. intros s Hs Hl.
    eapply (runs_bind _ _ _ tt _ _ _ _ _ _ _ unlocked).
    { destruct Hl as [Hl1 Hl2]. destruct (irq_epilogue_ok s) as (s' & E & I & D); [split; lia|done|]. by apply (runs_same _ s s'). }
    intros. by apply runs_ret.
  - by rewrite Z.lor_0_l, !Z.lor_0_r.
Qed.

(** C10.  The interrupt routine of the serial driver, for every value of the
    registers: the bytes received are appended to the input queue as far as there
    is room, the oldest byte of the output queue is sent when the transmitter asks
    for one, CR1 and SR are left as [irq_out] says, and every listener of the
    driver gets exactly the flags [irq_events]: data available when the input
    queue was empty, overrun when a byte was dropped, the line errors, output
    empty, transmission end, break. *)
Theorem usart_irq_handler_correct s cr1 sr rx li lo :
  serial_ok li lo s → unlocked s → rx_ok sr rx → Forall (λ b, 0 ≤ b) lo →
  ∃ s', usart_irq_handler sdp cr1 sr rx s = Done (irq_out cr1 sr (rx_last sr rx) lo) s' ∧
    serial_ok (take n (li ++ rx_bytes sr rx)) (tx_rest cr1 (rx_last sr rx) lo) s' ∧
    flagged (irq_events cr1 sr rx li lo) s s' ∧ unlocked s'.
Proof using Hneq. apply runs_handler. Qed.

(** The transmitter, as long as its interrupt is enabled, with the status register
    as each interrupt reads it: the bytes it sends and the CR1 it is left with. *)
Fixpoint transmitter (srs : list Z) (cr1 : Z) : M (list Z * Z) :=
  match srs with
  | [] => mret ([], cr1)
  | sr :: srs =>
      if has cr1 USART_CR1_TXEIE then
        out ← usart_irq_handler sdp cr1 sr [];
        r ← transmitter srs (uo_cr1 out);
        mret (option_list (uo_dr out) ++ r.1, r.2)
      else mret ([], cr1)
  end.

(** A status with an empty data register, nothing received and no break; the
    transmission may be complete or not. *)
Definition tx_status (sr : Z) : Prop :=
  has sr USART_SR_TXE = true ∧ has sr RX_FLAGS = false ∧ has sr USART_SR_LBD = false.
Definition tx_complete (sr : Z) : bool := has sr USART_SR_TC.
Definition tcie_off (cr1 : Z) : Z := Z.land cr1 (u32 (Z.lnot USART_CR1_TCIE)).

Lemma txe_off_off cr1 : has (txe_off cr1) USART_CR1_TXEIE = false.
Proof.
  unfold has, txe_off. rewrite Z.land_lor_distr_l, <-Z.land_assoc.
  replace (Z.land (u32 (Z.lnot USART_CR1_TXEIE)) USART_CR1_TXEIE) with 0 by done. by rewrite Z.land_0_r.
Qed.
Lemma txe_off_tcie cr1 : txe_off (tcie_off cr1) = txe_off cr1.
Proof.
  unfold txe_off, tcie_off. apply Z.bits_inj'. intros k Hk. rewrite !Z.lor_spec, !Z.land_spec.
  assert (Z.testbit (u32 (Z.lnot USART_CR1_TXEIE)) k = true →
    Z.testbit (u32 (Z.lnot USART_CR1_TCIE)) k || Z.testbit USART_CR1_TCIE k = true) as Ht.
  { destruct (decide (k < 32)).
    - intros _. rewrite <-Z.lor_spec. change (Z.testbit (Z.ones 32) k = true). apply Z.ones_spec_low. lia.
    - rewrite (testbit_high _ 32); [done| |lia]. by unfold u32; apply Z.mod_pos_bound. }
  revert Ht. repeat destruct (Z.testbit _ k); simpl; try done; intros Ht; by specialize (Ht eq_refl).
Qed.
Lemma tcie_off_txe cr1 : has (tcie_off cr1) USART_CR1_TXEIE = has cr1 USART_CR1_TXEIE.
Proof. unfold has, tcie_off. by rewrite <-Z.land_assoc. Qed.

(** One interrupt of the transmitter. *)
Lemma runs_tx s cr1 sr li lo :
  serial_ok li lo s → unlocked s → has cr1 USART_CR1_TXEIE = true → tx_status sr → Forall (λ b, 0 ≤ b) lo →
  runs (usart_irq_handler sdp cr1 sr []) s
    (mkUO (if tx_complete sr then tcie_off cr1 else match lo with [] => txe_off cr1 | _ => cr1 end) (head lo)
       (if tx_complete sr then [u32 (Z.lnot USART_SR_TC)] else []))
    li (tail lo)
    (Z.lor (match lo with [] => CHN_OUTPUT_EMPTY | _ => 0 end)
       (if tx_complete sr && bool_decide (tail lo = []) then CHN_TRANSMISSION_END else 0)) unlocked.
Proof using Hneq.
  intros Hs Hl Hc (Ht & Hr & Hb) Hlo. pose proof (so_len _ _ _ Hs) as [Hn _].
  pose proof (runs_handler s cr1 sr [] li lo Hs Hl Hr Hlo) as H.
  revert H. unfold irq_out, irq_events, tx_rest, tx_cr1, tx_byte, tx_events, tc_events, tx_wanted, rx_overrun, tx_complete, tcie_off.
  cbn [rx_bytes rx_last]. rewrite Hc, Ht, Hb, (app_nil_r li), (take_ge li) by exact Hn.
  destruct (Nat.ltb_spec n (length li)); [lia|]. destruct lo, li; exact id.
Qed.

(** The flags signalled until the queue is empty and the interrupt off. *)
Definition sent_events (srs lo : list Z) : Z :=
  Z.lor CHN_OUTPUT_EMPTY (if existsb tx_complete (drop (length lo - 1) srs) then CHN_TRANSMISSION_END else 0).

Lemma runs_transmitter_idle sr rest srs : ∀ s cr1 li,
  serial_ok li [] s → unlocked s → has cr1 USART_CR1_TXEIE = true →
  Forall tx_status (srs ++ [sr]) → Forall tx_complete srs → tx_complete sr = false →
  runs (transmitter (srs ++ sr :: rest) cr1) s ([], txe_off cr1) li [] (sent_events srs []) unlocked.
Proof using Hneq.
  induction srs as [|t srs IH]; intros s cr1 li Hs Hl Hc Hst Htc Hsr; cbn [app transmitter]; rewrite Hc.
  - apply Forall_cons in Hst as [Hst _]. pose proof (runs_tx s cr1 sr li [] Hs Hl Hc Hst (Forall_nil_2 _)) as H. rewrite Hsr in H.
    apply (runs_flags _ _ _ _ _ (Z.lor (Z.lor CHN_OUTPUT_EMPTY 0) (Z.lor 0 0))); [done|].
    eapply runs_bind; [exact H|]. intros. cbn [uo_cr1 uo_dr head option_list].
    apply (runs_bind _ _ _ ([], txe_off cr1) _ li [] _ _ _ _ unlocked); [|intros; by apply runs_ret].
    destruct rest; cbn [transmitter]; [by apply runs_ret|]. rewrite txe_off_off. by apply runs_ret.
  - apply Forall_cons in Hst as [Hst Hst']. apply Forall_cons in Htc as [Ht Htc]. apply Is_true_true in Ht.
    pose proof (runs_tx s cr1 t li [] Hs Hl Hc Hst (Forall_nil_2 _)) as H. rewrite Ht in H. rewrite <-(txe_off_tcie cr1).
    apply (runs_flags _ _ _ _ _ (Z.lor (Z.lor CHN_OUTPUT_EMPTY CHN_TRANSMISSION_END) (Z.lor (sent_events srs []) 0))).
    { unfold sent_events. simpl. rewrite drop_0, Ht. by destruct (existsb _ _). }
    eapply runs_bind; [exact H|]. intros. cbn [uo_cr1 uo_dr head option_list].
    eapply runs_bind; [apply IH; try done; by rewrite tcie_off_txe|]. intros. by apply runs_ret.
Qed.

Lemma sent_events_cons t b srs lo :
  Z.lor (if tx_complete t && bool_decide (lo = []) then CHN_TRANSMISSION_END else 0) (sent_events srs lo) =
  sent_events (t :: srs) (b :: lo).
Proof.
  unfold sent_events. destruct lo as [|c lo]; simpl; rewrite ?Nat.sub_0_r, ?drop_0; simpl; [|by rewrite andb_false_r].
  by destruct (tx_complete t), (existsb _ _).
Qed.

Lemma runs_transmitter sr rest lo : ∀ srs s cr1 li,
  serial_ok li lo s → unlocked s → has cr1 USART_CR1_TXEIE = true → Forall (λ b, 0 ≤ b) lo →
  Forall tx_status (srs ++ [sr]) → (length lo ≤ length srs)%nat → Forall tx_complete (drop (length lo) srs) → tx_complete sr = false →
  runs (transmitter (srs ++ sr :: rest) cr1) s (lo, txe_off cr1) li [] (sent_events srs lo) unlocked.
Proof using Hneq.
  induction lo as [|b lo IH]; intros srs s cr1 li Hs Hl Hc Hlo Hst Hlen Htc Hsr; [by apply runs_transmitter_idle|].
  destruct srs as [|t srs]; [simpl in Hlen; lia|]. simpl in Hlen. apply Forall_cons in Hst as [Hst Hst'].
  pose proof (runs_tx s cr1 t li _ Hs Hl Hc Hst Hlo) as H. apply Forall_cons in Hlo as [_ Hlo].
  cbn [app transmitter]. rewrite Hc. set (cr1' := if tx_complete t then tcie_off cr1 else cr1).
  assert (has cr1' USART_CR1_TXEIE = true ∧ txe_off cr1' = txe_off cr1) as [Hc' Eo].
  { subst cr1'. destruct (tx_complete t); [by rewrite tcie_off_txe, txe_off_tcie|done]. }
  rewrite <-Eo. eapply runs_flags; [|eapply runs_bind; [exact H|]].
  2: { intros. cbn [uo_cr1 uo_dr head option_list]. eapply runs_bind; [apply (IH srs); try done; lia|]. intros. by apply runs_ret. }
  rewrite Z.lor_0_r. apply sent_events_cons.
Qed.

(** C11.  Everything queued is sent, whatever the status register says about the
    end of the transmission: once enabled, the transmitter interrupt takes the
    bytes of the output queue in order, one per interrupt, and the first interrupt
    that finds the queue empty and the transmission not complete turns it off,
    enables the transmission end interrupt and signals output empty.  Interrupts
    that find the queue empty and the transmission complete (TXE and TC together)
    leave it on and signal both events, a defect of the code: they are the
    statuses of [srs] behind the first [length lo].  The transmission end is
    signalled exactly when the status of the last byte or one of those says that
    the transmission is complete.  No byte is received meanwhile. *)
Theorem serial_transmit s cr1 li lo srs sr rest :
  serial_ok li lo s → unlocked s → has cr1 USART_CR1_TXEIE = true → Forall (λ b, 0 ≤ b) lo →
  Forall tx_status (srs ++ [sr]) → (length lo ≤ length srs)%nat →
  Forall tx_complete (drop (length lo) srs) → tx_complete sr = false →
  ∃ s', transmitter (srs ++ sr :: rest) cr1 s = Done (lo, txe_off cr1) s' ∧
    serial_ok li [] s' ∧ flagged (sent_events srs lo) s s' ∧ unlocked s'.
Proof using Hneq. intros. by apply runs_transmitter. Qed.
End Irq.
