(* ===== verification/Checkers.v ===== *)
(** * Executable checks of the invariants

    Boolean versions of the kernel invariants with their soundness: a concrete
    kernel state is shown to satisfy them by evaluation. *)

From S2P Require Import Prelude TimeMeas Kernel ThreadQueues Sys VTimers Sched Sem Mtx Evt.

Definition qstateb (q : qref) (th : thread) : bool :=
  match q with
  | QReady => bool_decide (p_state th = CH_STATE_READY)
  | QSem a => bool_decide (p_state th = CH_STATE_WTSEM ∧ p_u th = U_wtsemp a)
  | QMtx a => bool_decide (p_state th = CH_STATE_WTMTX ∧ p_u th = U_wtmtxp a)
  | QCond a => bool_decide (p_state th = CH_STATE_WTCOND ∧ p_u th = U_wtobjp (QCond a))
  | QThq a => bool_decide (p_state th = CH_STATE_QUEUED)
  | QMsg t => bool_decide (p_state th = CH_STATE_SNDMSGQ ∧ p_u th = U_wtobjp (QMsg t))
  | QWait t => bool_decide (p_state th = CH_STATE_WTEXIT)
  end.

Lemma qstateb_sound q th : qstateb q th = true → qstate q th.
Proof. destruct q; simpl; apply bool_decide_eq_true_1. Qed.

(** A list sorted by non-increasing priority. *)
Fixpoint sortedb (s : kst) (l : list tid) : bool :=
  match l with
  | [] => true
  | x :: l => forallb (λ y, prio_of s y <=? prio_of s x) l && sortedb s l
  end.

Lemma forallb_elem {A} (f : A → bool) l x : forallb f l = true → x ∈ l → f x = true.
Proof. intros H Hx. apply forallb_forall with (x := x) in H; [done|]. by apply list_elem_of_In. Qed.

Lemma sortedb_sound s l : sortedb s l = true → StronglySorted (by_prio s) l.
Proof.
  induction l as [|x l IH]; simpl; [constructor|]. intros [H1 H2]%andb_true_iff. constructor; [by apply IH|].
  apply Forall_forall. intros y Hy. apply Z.leb_le. by apply (forallb_elem _ l y H1).
Qed.

(** The queues as a list of headers with their threads. *)
Definition queues (s : kst) : list (qref * list tid) := map_to_list (k_q s).

Lemma in_queues s q t : t ∈ qof s q → ∃ l, (q, l) ∈ queues s ∧ qof s q = l ∧ t ∈ l.
Proof.
  unfold qof, Queues.qof, queues. destruct (k_q s !! q) as [l|] eqn:E; simpl; [|set_solver].
  intros Ht. exists l. split; [by apply elem_of_map_to_list|done].
Qed.

Lemma queues_qof s q l : (q, l) ∈ queues s → qof s q = l.
Proof. intros H%elem_of_map_to_list. unfold qof, Queues.qof. by rewrite H. Qed.

Definition qwfb (X : gset tid) (s : kst) : bool :=
  forallb (λ ql : qref * list tid,
    bool_decide (NoDup ql.2) &&
    forallb (λ t, bool_decide (t ∉ X) &&
      match k_thd s !! t with Some th => qstateb ql.1 th | None => false end &&
      forallb (λ ql' : qref * list tid, bool_decide (ql'.1 = ql.1) || bool_decide (t ∉ ql'.2)) (queues s)) ql.2)
    (queues s) &&
  forallb (λ kv : tid * thread,
    (NOPRIO <? p_prio kv.2) &&
    (bool_decide (kv.1 ∈ X) || negb (linked_state (p_state kv.2)) ||
     existsb (λ ql : qref * list tid, bool_decide (kv.1 ∈ ql.2)) (queues s)))
    (map_to_list (k_thd s)) &&
  sortedb s (qof s QReady).

Lemma qwfb_sound X s : qwfb X s = true → qwf X s.
Proof.
  unfold qwfb. intros [[H1 H2]%andb_true_iff H3]%andb_true_iff.
  assert (∀ q t, t ∈ qof s q → t ∉ X ∧ (∃ th, k_thd s !! t = Some th ∧ qstate q th) ∧
            ∀ q', t ∈ qof s q' → q' = q) as Ht.
  { intros q t Hq. destruct (in_queues s q t Hq) as (l & Hin & _ & Htl).
    apply (forallb_elem _ _ _ H1) in Hin as [_ Hin]%andb_true_iff. simpl in Hin.
    apply (forallb_elem _ _ _ Hin) in Htl as [[Ha Hb]%andb_true_iff Hc]%andb_true_iff.
    split_and!.
    - by apply bool_decide_eq_true_1 in Ha.
    - destruct (k_thd s !! t) as [th|]; [|done]. exists th. split; [done|]. by apply qstateb_sound.
    - intros q' Hq'. destruct (in_queues s q' t Hq') as (l' & Hin' & _ & Htl').
      apply (forallb_elem _ _ _ Hc) in Hin' as [E|E]%orb_true_iff; apply bool_decide_eq_true_1 in E; done. }
  assert (∀ t th, k_thd s !! t = Some th → NOPRIO < p_prio th ∧
            (t ∉ X → linked_state (p_state th) = true → ∃ q, t ∈ qof s q)) as Hth.
  { intros t th E%elem_of_map_to_list. apply (forallb_elem _ _ _ H2) in E as [Ha Hb]%andb_true_iff. simpl in *.
    split; [by apply Z.ltb_lt|]. intros Hx Hl. rewrite Hl, orb_false_r in Hb.
    apply orb_true_iff in Hb as [Hb|Hb]; [by apply bool_decide_eq_true_1 in Hb|].
    apply existsb_exists in Hb as ([q l] & Hin%list_elem_of_In & Hm%bool_decide_eq_true_1).
    exists q. by rewrite (queues_qof s q l). }
  split.
  - intros q. destruct (k_q s !! q) as [l|] eqn:E.
    + assert ((q, l) ∈ queues s) as Hin by by apply elem_of_map_to_list.
      rewrite (queues_qof s q l Hin). apply (forallb_elem _ _ _ H1) in Hin as [Hd _]%andb_true_iff.
      by apply bool_decide_eq_true_1 in Hd.
    + unfold qof, Queues.qof. rewrite E. constructor.
  - intros q1 q2 t Hq1 Hq2. by apply (Ht q2 t).
  - intros q t Hq. by apply (Ht q t).
  - intros t th E Hx Hl. by apply (Hth t th).
  - intros t q Hx Hq. by destruct (Ht q t Hq).
  - by apply sortedb_sound.
  - intros t th E. by apply (Hth t th).
Qed.

Definition wfb (s : kst) : bool :=
  qwfb {[k_cur s]} s &&
  match k_thd s !! k_cur s with Some th => bool_decide (p_state th = CH_STATE_CURRENT) | None => false end &&
  forallb (λ kv : tid * thread, bool_decide (p_state kv.2 = CH_STATE_CURRENT → kv.1 = k_cur s)) (map_to_list (k_thd s)).

Lemma wfb_sound s : wfb s = true → wf s.
Proof.
  unfold wfb. intros [[H1 H2]%andb_true_iff H3]%andb_true_iff. split.
  - by apply qwfb_sound.
  - destruct (k_thd s !! k_cur s) as [th|]; [|done]. exists th. split; [done|]. by apply bool_decide_eq_true_1 in H2.
  - intros t th E%elem_of_map_to_list. apply (forallb_elem _ _ _ H3) in E. by apply bool_decide_eq_true_1 in E.
Qed.

Definition sched_okb (s : kst) : bool := forallb (λ t, prio_of s t <=? prio_of s (k_cur s)) (qof s QReady).

Lemma sched_okb_sound s : sched_okb s = true → sched_ok s.
Proof. intros H t Ht. apply (forallb_elem _ _ _ H) in Ht. by apply Z.leb_le. Qed.

Definition Kb (s : kst) : bool := wfb s && sched_okb s && (k_isr s =? 0) && (0 <? k_lock s).

Lemma Kb_sound s : Kb s = true → K s.
Proof.
  unfold Kb. intros [[[H1 H2]%andb_true_iff H3]%andb_true_iff H4]%andb_true_iff. split_and!.
  - by apply wfb_sound.
  - by apply sched_okb_sound.
  - split; [by apply Z.eqb_eq|by apply Z.ltb_lt].
Qed.

Definition userb (s : kst) : bool := wfb s && sched_okb s && (k_isr s =? 0) && (k_lock s =? 0).

Lemma userb_sound s : userb s = true → user s.
Proof.
  unfold userb. intros [[[H1 H2]%andb_true_iff H3]%andb_true_iff H4]%andb_true_iff. split_and!.
  - by apply wfb_sound.
  - by apply sched_okb_sound.
  - split; by apply Z.eqb_eq.
Qed.

Definition sem_wfb (s : kst) : bool :=
  forallb (λ kv : positive * Z, (Z.of_nat (length (qof s (QSem kv.1))) =? Z.max 0 (- kv.2)) &&
    (INT32_MIN <=? kv.2) && (kv.2 <=? INT32_MAX)) (map_to_list (k_sem s)) &&
  forallb (λ ql : qref * list tid,
    match ql.1 with
    | QSem sp => match k_sem s !! sp with Some _ => true | None => bool_decide (ql.2 = []) end
    | _ => true
    end) (queues s).

Lemma sem_wfb_sound s : sem_wfb s = true → sem_wf s.
Proof.
  unfold sem_wfb. intros [H1 H2]%andb_true_iff sp. destruct (k_sem s !! sp) as [c|] eqn:E.
  - apply elem_of_map_to_list in E. apply (forallb_elem _ _ _ H1) in E as [[Ha Hb]%andb_true_iff Hc]%andb_true_iff.
    simpl in *. split; [by apply Z.eqb_eq|]. split; by apply Z.leb_le.
  - destruct (k_q s !! QSem sp) as [l|] eqn:El.
    + assert ((QSem sp, l) ∈ queues s) as Hin by by apply elem_of_map_to_list.
      rewrite (queues_qof _ _ _ Hin). apply (forallb_elem _ _ _ H2) in Hin. simpl in Hin. rewrite E in Hin.
      by apply bool_decide_eq_true_1 in Hin.
    + unfold qof, Queues.qof. by rewrite El.
Qed.

Definition evt_wfb (s : kst) : bool :=
  forallb (λ kv : tid * thread,
    match p_state kv.2, p_u kv.2 with
    | CH_STATE_WTOREVT, U_ewmask _ | CH_STATE_WTANDEVT, U_ewmask _ => true
    | CH_STATE_WTOREVT, _ | CH_STATE_WTANDEVT, _ => false
    | _, _ => true
    end) (map_to_list (k_thd s)).

Lemma evt_wfb_sound s : evt_wfb s = true → evt_wf s.
Proof.
  intros H t th E%elem_of_map_to_list. apply (forallb_elem _ _ _ H) in E. simpl in E.
  intros [Hs|Hs]; rewrite Hs in E; destruct (p_u th); naive_solver.
Qed.

(** The chain of mutexes from [o]. *)
Fixpoint chain_of (fuel : nat) (T : gmap addr mutex) (o : option addr) : option (list addr) :=
  match o with
  | None => Some []
  | Some m =>
      match fuel with
      | O => None
      | S fuel => mx ← T !! m; ms ← chain_of fuel T (m_next mx); Some (m :: ms)
      end
  end.

Lemma chain_of_sound fuel T : ∀ o ms, chain_of fuel T o = Some ms → mchain T o ms.
Proof.
  induction fuel as [|fuel IH]; intros [m|] ms; simpl; try by intros [= <-].
  destruct (T !! m) as [mx|] eqn:E; simpl; [|done].
  destruct (chain_of fuel T (m_next mx)) as [ms'|] eqn:E'; simpl; [|done]. intros [= <-]. simpl. eauto.
Qed.

Definition mtx_wfb (s : kst) : bool :=
  forallb (λ kv : tid * thread,
    match chain_of (size (k_mtx s)) (k_mtx s) (p_mtxlist kv.2) with
    | Some ms => bool_decide (NoDup ms) &&
        forallb (λ m, bool_decide (owner_of s m = Some kv.1)) ms &&
        forallb (λ mm : addr * mutex, bool_decide (m_owner mm.2 = Some kv.1 → mm.1 ∈ ms)) (map_to_list (k_mtx s))
    | None => false
    end) (map_to_list (k_thd s)) &&
  forallb (λ mm : addr * mutex,
    match m_owner mm.2 with
    | Some t => bool_decide (is_Some (k_thd s !! t)) &&
        forallb (λ w, prio_of s w <=? prio_of s t) (qof s (QMtx mm.1))
    | None => true
    end && sortedb s (qof s (QMtx mm.1))) (map_to_list (k_mtx s)) &&
  forallb (λ ql : qref * list tid,
    match ql.1 with
    | QMtx m => bool_decide (ql.2 = []) || bool_decide (is_Some (owner_of s m))
    | _ => true
    end) (queues s).

Lemma owner_of_elem s m t : owner_of s m = Some t → ∃ mx, (m, mx) ∈ map_to_list (k_mtx s) ∧ m_owner mx = Some t.
Proof.
  unfold owner_of. destruct (k_mtx s !! m) as [mx|] eqn:E; simpl; [|done].
  intros Ho. exists mx. split; [by apply elem_of_map_to_list|done].
Qed.

Lemma mtx_wfb_sound s : mtx_wfb s = true → mtx_wf s.
Proof.
  unfold mtx_wfb. intros [[H1 H2]%andb_true_iff H3]%andb_true_iff.
  assert (∀ m w, w ∈ qof s (QMtx m) → is_Some (owner_of s m)) as Hheld.
  { intros m w Hw. destruct (in_queues s _ _ Hw) as (l & Hin & _ & Hl).
    apply (forallb_elem _ _ _ H3) in Hin. simpl in Hin.
    apply orb_true_iff in Hin as [Hin|Hin]; apply bool_decide_eq_true_1 in Hin; [subst; set_solver|done]. }
  split; [split|].
  - intros t th E%elem_of_map_to_list. apply (forallb_elem _ _ _ H1) in E. simpl in E.
    destruct (chain_of _ _ _) as [ms|] eqn:Ec; [|done]. apply chain_of_sound in Ec.
    apply andb_true_iff in E as [[Ha Hb]%andb_true_iff Hc]. exists ms. split_and!; [done|by apply bool_decide_eq_true_1 in Ha|].
    intros m. split.
    + intros Hm. apply (forallb_elem _ _ _ Hb) in Hm. by apply bool_decide_eq_true_1 in Hm.
    + intros (mx & Hin & Ho)%owner_of_elem. apply (forallb_elem _ _ _ Hc) in Hin. apply bool_decide_eq_true_1 in Hin. by apply Hin.
  - intros m t (mx & Hin & Ho)%owner_of_elem. apply (forallb_elem _ _ _ H2) in Hin as [Hin _]%andb_true_iff.
    simpl in Hin. rewrite Ho in Hin. apply andb_true_iff in Hin as [Hin _]. by apply bool_decide_eq_true_1 in Hin.
  - done.
  - intros m. destruct (qof s (QMtx m)) as [|w l] eqn:E; [constructor|].
    destruct (Hheld m w) as [t (mx & Hin & Ho)%owner_of_elem]; [rewrite E; left|].
    apply (forallb_elem _ _ _ H2) in Hin as [_ Hs]%andb_true_iff. simpl in Hs. rewrite E in Hs. by apply sortedb_sound.
  - intros m t w (mx & Hin & Ho)%owner_of_elem Hw. apply (forallb_elem _ _ _ H2) in Hin as [Hin _]%andb_true_iff.
    simpl in Hin. rewrite Ho in Hin. apply andb_true_iff in Hin as [_ Hin].
    apply (forallb_elem _ _ _ Hin) in Hw. by apply Z.leb_le.
Qed.
