(* ===== verification/Examples.v ===== *)
(** * Concrete kernel states

    Small states on which the theorems of the library are applied: their
    hypotheses are discharged by evaluation of the checkers. *)

From S2P Require Import Prelude Ring TimeMeas Kernel ThreadQueues Sys VTimers Sched Sem Mtx Thd.
From S2P Require Import MBox Evt Msg Cond IOQueues Checkers.

(** ** Building states *)

Definition thr (prio : Z) (st : tstate) (u : punion) : thread :=
  mkThread prio None st 0 1 u 0 0 None prio None.

(** Thread 1 runs at normal priority, thread 2 is the idle thread. *)
Definition base_thds : gmap tid thread :=
  <[1%positive := thr 64 CH_STATE_CURRENT (U_msg 0)]> (<[2%positive := thr 1 CH_STATE_READY (U_msg 0)]> ∅).
Definition base_qs : gmap qref (list tid) := <[QReady := [2%positive]]> ∅.

Definition trace0 : trace_buffer := mkTB 0 (replicate CH_DBG_TRACE_BUFFER_SIZE (mkSwc 0 None None None)).

Definition mk (lock : Z) (T : gmap tid thread) (Q : gmap qref (list tid)) : kst :=
  mkK 1 T Q [1%positive; 2%positive] [] 0 1000 None 0 0 lock trace0 stats_init ∅ 0 ∅ ∅ ∅ ∅ ∅ ∅ ∅
    (mkMemst 0 0 ∅ ∅ ∅ ∅).

Ltac by_check L := apply L; vm_compute; reflexivity.

(** ** Thread queues *)

Definition ex_prio (t : tid) : Z := Z.pos t.
Definition ex_mem : PtrQueue.mem :=
  PtrQueue.mkMem {[PtrQueue.NH QReady := PtrQueue.NH QReady]} {[PtrQueue.NH QReady := PtrQueue.NH QReady]}
    (<[PtrQueue.NH QReady := NOPRIO]> (<[PtrQueue.NT 5 := 5]> (<[PtrQueue.NT 9 := 9]> ∅))).
Definition ex_ops : list PtrQueue.qop :=
  [PtrQueue.OReady 5; PtrQueue.OReady 9; PtrQueue.OFifo QReady; PtrQueue.ODequeue 5].
Definition ex_known (t : tid) : bool := bool_decide (t = 5%positive) || bool_decide (t = 9%positive).

Lemma ex_rep : PtrQueue.rep ex_mem ex_prio {[QReady := []]}.
Proof.
  split; try (intros ?? [<- <-]%lookup_singleton_Some; vm_compute; try done; constructor).
  - intros q1 q2 l1 l2 t [<- <-]%lookup_singleton_Some [<- <-]%lookup_singleton_Some. done.
  - intros q l t [<- <-]%lookup_singleton_Some Ht. set_solver.
  - done.
Qed.

Lemma queue_ops_refine_witness :
  ∃ h', PtrQueue.run_ptr ex_ops ex_mem
          = Some ([None; None; Some (PtrQueue.NT 9); Some (PtrQueue.NT 5)], h') ∧
    PtrQueue.rep h' ex_prio {[QReady := []]}.
Proof.
  apply (PtrQueue.queue_ops_refine ex_prio ex_known ex_ops ex_mem {[QReady := []]}
    [None; None; Some 9%positive; Some 5%positive] {[QReady := []]}).
  - apply ex_rep.
  - unfold ex_known. intros t. destruct (decide (t = 5%positive)) as [->|]; [reflexivity|].
    destruct (decide (t = 9%positive)) as [->|]; [reflexivity|].
    rewrite !bool_decide_false by done. discriminate.
  - vm_compute. reflexivity.
Defined.

(** ** Scheduler *)

(** Thread 3 is ready with a higher priority than the current thread. *)
Definition ex_resched : kst :=
  mk 1 (<[3%positive := thr 80 CH_STATE_READY (U_msg 0)]> base_thds) {[QReady := [3%positive; 2%positive]]}.

Lemma chSchRescheduleS_witness :
  wf ex_resched ∧ ∃ s1, chSchRescheduleS ex_resched = Switch s1 (λ s', Done () s') ∧ K s1 ∧ k_cur s1 = 3%positive.
Proof.
  assert (wf ex_resched) as Hw by by_check wfb_sound. split; [exact Hw|].
  destruct (chSchRescheduleS_correct ex_resched Hw ltac:(split; vm_compute; reflexivity))
    as [[_ (_ & Hok & _)]|(s1 & ntp & l & a & b & E & HK & Hq & Hc & _)].
  - exfalso. assert (3%positive ∈ qof ex_resched QReady) as Hin by (vm_compute; left).
    apply Hok in Hin. vm_compute in Hin. by apply Hin.
  - exists s1. split; [exact E|]. split; [exact HK|]. rewrite Hc. vm_compute in Hq. congruence.
Defined.

(** ** Semaphores *)

(** Threads 3 and 4 wait on semaphore 7. *)
Definition ex_sem (lock isr : Z) : kst :=
  set_k_isr isr (set_k_sem {[7%positive := -2]}
    (mk lock (<[3%positive := thr 80 CH_STATE_WTSEM (U_wtsemp 7)]>
              (<[4%positive := thr 30 CH_STATE_WTSEM (U_wtsemp 7)]> base_thds))
      (<[QSem 7 := [3%positive; 4%positive]]> base_qs))).

Lemma ex_sem_ok : wf (ex_sem 1 0) ∧ sem_wf (ex_sem 1 0) ∧ in_I (ex_sem 1 0) ∧ K (ex_sem 1 0).
Proof.
  split_and!; [by_check wfb_sound|by_check sem_wfb_sound|split; vm_compute; congruence|by_check Kb_sound].
Qed.

Lemma chSemSignalI_witness :
  ∃ s', chSemSignalI 7 (ex_sem 1 0) = Done () s' ∧ sem_wf s' ∧ qof s' (QSem 7) = [4%positive].
Proof.
  destruct ex_sem_ok as (Hw & Hs & HI & _).
  destruct (chSemSignalI_correct (ex_sem 1 0) 7 (-2) Hw Hs HI) as (s' & E & _ & Hs' & _ & Hq & _);
    [reflexivity|reflexivity|]. exists s'. done.
Defined.

Lemma chSemWaitTimeoutS_witness :
  chSemWaitTimeoutS 7 TIME_IMMEDIATE (ex_sem 1 0) = Done MSG_TIMEOUT (ex_sem 1 0) ∧
  ∃ s1 k, chSemWaitTimeoutS 7 100 (ex_sem 1 0) = Switch s1 k ∧ K s1 ∧
    qof s1 (QSem 7) = [3%positive; 4%positive; 1%positive].
Proof.
  destruct ex_sem_ok as (_ & Hs & _ & HK). split.
  - destruct (chSemWaitTimeoutS_correct (ex_sem 1 0) 7 (-2) TIME_IMMEDIATE 2 [] HK Hs)
      as (_ & H & _); [reflexivity..|]. apply H; [discriminate|reflexivity].
  - destruct (chSemWaitTimeoutS_correct (ex_sem 1 0) 7 (-2) 100 2 [] HK Hs)
      as (_ & _ & H); [reflexivity..|].
    destruct H as (s1 & k & E & HK1 & _ & _ & _ & Hq & _); [discriminate|discriminate|]. exists s1, k. done.
Defined.

Lemma chSemAddCounterI_witness :
  ∃ s', chSemAddCounterI 7 3 (ex_sem 1 0) = Done () s' ∧ k_sem s' !! 7%positive = Some 1 ∧ qof s' (QSem 7) = [].
Proof.
  destruct ex_sem_ok as (Hw & Hs & HI & _).
  destruct (chSemAddCounterI_correct (ex_sem 1 0) 7 (-2) 3 Hw Hs HI) as (_ & s' & E & _ & _ & Hk & Hq);
    [reflexivity|lia|vm_compute; discriminate|].
  exists s'. rewrite Hk, Hq. done.
Defined.

Lemma chSemResetI_witness :
  ∃ s', chSemResetI 7 5 (ex_sem 1 0) = Done () s' ∧ wf s' ∧ qof s' (QSem 7) = [].
Proof.
  destruct ex_sem_ok as (Hw & Hs & HI & _).
  destruct (chSemResetI_correct (ex_sem 1 0) 7 (-2) 5 Hw Hs HI) as (s' & E & Hw' & _ & _ & Hq & _);
    [reflexivity|reflexivity|vm_compute; split; discriminate|]. exists s'. done.
Defined.

Lemma wakeup_witness :
  ∃ s', wakeup 3 (ex_sem 0 1) = Done () s' ∧ wf s' ∧ qof s' (QSem 7) = [4%positive] ∧
    k_sem s' !! 7%positive = Some (-1).
Proof.
  destruct (wakeup_correct (ex_sem 0 1) 3 (thr 80 CH_STATE_WTSEM (U_wtsemp 7))) as [_ H].
  - by_check wfb_sound.
  - by_check sem_wfb_sound.
  - split; vm_compute; reflexivity.
  - reflexivity.
  - destruct H as (s' & E & _ & [H1 _ _ H4 _ H6 _]); [reflexivity|discriminate|].
    exists s'. split_and!; [exact E|exact H1|rewrite H4 by done; vm_compute; reflexivity|rewrite H6; vm_compute; reflexivity].
Defined.

(** ** Mutexes *)

Definition owning (m : addr) (th : thread) : thread := set_p_mtxlist (Some m) th.

(** Thread 3, of low priority, owns mutex 5 and waits for mutex 6, which thread 4
    owns; thread 1 owns mutex 8, for which thread 9 waits. *)
Definition ex_mtx (lock : Z) : kst :=
  set_k_mtx (<[5%positive := mkMutex (Some 3%positive) None]> (<[6%positive := mkMutex (Some 4%positive) None]>
             (<[8%positive := mkMutex (Some 1%positive) None]> {[7%positive := mkMutex None None]})))
    (mk lock (<[1%positive := owning 8 (thr 64 CH_STATE_CURRENT (U_msg 0))]>
              (<[2%positive := thr 1 CH_STATE_READY (U_msg 0)]>
              (<[3%positive := owning 5 (thr 20 CH_STATE_WTMTX (U_wtmtxp 6))]>
              (<[4%positive := owning 6 (thr 30 CH_STATE_READY (U_msg 0))]>
               {[9%positive := thr 50 CH_STATE_WTMTX (U_wtmtxp 8)]}))))
      (<[QReady := [4%positive; 2%positive]]> (<[QMtx 6 := [3%positive]]> {[QMtx 8 := [9%positive]]}))).

Lemma ex_mtx_ok : K (ex_mtx 1) ∧ mtx_wf (ex_mtx 1).
Proof. split; [by_check Kb_sound|by_check mtx_wfb_sound]. Qed.

Lemma chMtxLockS_free_witness :
  ∃ s', chMtxLockS 7 (ex_mtx 1) = Done () s' ∧ owner_of s' 7 = Some 1%positive ∧ mtx_wf s'.
Proof.
  destruct ex_mtx_ok as [HK Hm].
  destruct (chMtxLockS_free (ex_mtx 1) 7 (mkMutex None None) HK Hm) as (s' & E & _ & Hm' & Ho & _);
    [reflexivity..|]. exists s'. done.
Defined.

(** The priority of thread 1 reaches thread 4 through thread 3. *)
Lemma chMtxLockS_wait_witness :
  ∃ s1 k, chMtxLockS 5 (ex_mtx 1) = Switch s1 k ∧ K s1 ∧ mtx_wf s1 ∧ 64 ≤ prio_of s1 3.
Proof.
  destruct ex_mtx_ok as [HK Hm].
  destruct (chMtxLockS_wait (ex_mtx 1) 5 (mkMutex (Some 3%positive) None) 3 4 [2%positive] HK Hm)
    as (s1 & k & E & HK1 & Hm1 & _ & _ & _ & Hp & _); [reflexivity..|]. exists s1, k. done.
Defined.

Lemma chMtxUnlockS_witness :
  ∃ s', chMtxUnlockS 8 (ex_mtx 1) = Done () s' ∧ mtx_wf s' ∧ owner_of s' 8 = Some 9%positive.
Proof.
  destruct ex_mtx_ok as [HK Hm]. pose proof HK as (Hw & _ & HS).
  destruct (chMtxUnlockS_correct (ex_mtx 1) 8 (owning 8 (thr 64 CH_STATE_CURRENT (U_msg 0)))
    (mkMutex (Some 1%positive) None) Hw HS Hm) as (s' & E & _ & Hm' & _ & Hc); [reflexivity..|].
  destruct Hc as (Ho & _). exists s'. done.
Defined.

Lemma chCondWaitS_witness :
  ∃ s1 k, chCondWaitS 3 (ex_mtx 1) = Switch s1 k ∧ K s1 ∧ mtx_wf s1 ∧ owner_of s1 8 = Some 9%positive.
Proof.
  destruct ex_mtx_ok as [HK Hm].
  destruct (chCondWaitS_correct (ex_mtx 1) 3 8 (mkMutex (Some 1%positive) None)
    (owning 8 (thr 64 CH_STATE_CURRENT (U_msg 0))) 4 [2%positive] HK Hm) as (s1 & k & E & HK1 & Hm1 & Ho & _);
    [reflexivity..|]. exists s1, k. done.
Defined.

(** Threads 3 and 4 wait on condition variable 3. *)
Definition ex_cond : kst :=
  mk 1 (<[3%positive := thr 80 CH_STATE_WTCOND (U_wtobjp (QCond 3))]>
        (<[4%positive := thr 30 CH_STATE_WTCOND (U_wtobjp (QCond 3))]> base_thds))
    (<[QCond 3 := [3%positive; 4%positive]]> base_qs).

Lemma chCondBroadcastI_witness :
  ∃ s', chCondBroadcastI 3 ex_cond = Done () s' ∧ wf s' ∧ qof s' (QCond 3) = [].
Proof.
  destruct (chCondBroadcastI_correct ex_cond 3) as (s' & E & Hw & Hq & _);
    [by_check wfb_sound|split; vm_compute; congruence|]. exists s'. done.
Defined.

(** ** Threads *)

(** Thread 3 is created but not started, thread 4 is suspended on reference 6,
    thread 9 waits for the end of thread 1. *)
Definition ex_thd (lock : Z) : kst :=
  set_k_tref (<[6%positive := Some 4%positive]> {[5%positive := None]})
    (mk lock (<[3%positive := thr 80 CH_STATE_WTSTART (U_msg 0)]>
              (<[4%positive := thr 30 CH_STATE_SUSPENDED (U_wttrp 6)]>
              (<[9%positive := thr 70 CH_STATE_WTEXIT (U_msg 0)]> base_thds)))
      (<[QWait 1 := [9%positive]]> base_qs)).

Lemma ex_thd_ok : K (ex_thd 1) ∧ user (ex_thd 0).
Proof. split; [by_check Kb_sound|by_check userb_sound]. Qed.

Lemma chThdStart_witness : ∃ s', chThdStart 3 (ex_thd 0) = Halt "chSysUnlock" s'.
Proof.
  destruct ex_thd_ok as [_ (Hw & Hok & Hu)].
  destruct (chThdStart_correct (ex_thd 0) 3 (thr 80 CH_STATE_WTSTART (U_msg 0)) Hw Hok Hu) as [_ H];
    [reflexivity..|]. apply H. vm_compute. reflexivity.
Defined.

Lemma chThdSuspendTimeoutS_witness :
  ∃ s1 k, chThdSuspendTimeoutS 5 100 (ex_thd 1) = Switch s1 k ∧ K s1 ∧ k_tref s1 !! 5%positive = Some (Some 1%positive).
Proof.
  destruct ex_thd_ok as [HK _].
  destruct (chThdSuspendTimeoutS_correct (ex_thd 1) 5 100 2 [] HK) as [_ H]; [reflexivity..|].
  destruct H as (s1 & k & E & HK1 & _ & Hr & _); [discriminate|]. exists s1, k. rewrite Hr. done.
Defined.

Lemma chThdResumeI_witness :
  ∃ s', chThdResumeI 6 MSG_OK (ex_thd 1) = Done () s' ∧ wf s' ∧ k_tref s' !! 6%positive = Some None.
Proof.
  destruct ex_thd_ok as [(Hw & _ & HS) _].
  destruct (chThdResumeI_correct (ex_thd 1) 6 (Some 4%positive) MSG_OK Hw (in_S_I _ HS) eq_refl
    (thr 30 CH_STATE_SUSPENDED (U_wttrp 6)) eq_refl eq_refl) as (s' & E & Hw' & Hr & _).
  exists s'. rewrite Hr. done.
Defined.

Lemma chThdExitS_witness :
  ∃ s1 k, chThdExitS 42 (ex_thd 1) = Switch s1 k ∧ K s1 ∧ qof s1 (QWait 1) = [].
Proof.
  destruct ex_thd_ok as [HK _].
  destruct (chThdExitS_correct (ex_thd 1) (thr 64 CH_STATE_CURRENT (U_msg 0)) 42 2 [] HK)
    as (s1 & k & E & HK1 & _ & _ & Hq & _); [reflexivity..|]. exists s1, k. done.
Defined.

Lemma chThdSetPriority_witness :
  ∃ s2, wf s2 ∧ prio_of s2 1 = 10 ∧ post K K (chThdSetPriority 10 (ex_thd 0)) (λ r s', r = 64 ∧ user s').
Proof.
  destruct ex_thd_ok as [_ Hu].
  destruct (chThdSetPriority_correct (ex_thd 0) (thr 64 CH_STATE_CURRENT (U_msg 0)) 10 Hu)
    as (s2 & _ & Hw & _ & Ht & _ & Hp); [reflexivity|vm_compute; split; congruence|].
  exists s2. split_and!; [exact Hw| |exact Hp]. unfold prio_of. rewrite Ht. reflexivity.
Defined.

Lemma chThdCreateStatic_witness :
  post K K (chThdCreateStatic 256 11 512 70 (Some 1%positive) (ex_thd 0)) (λ r s', r = 11%positive ∧ user s').
Proof.
  destruct ex_thd_ok as [_ Hu].
  destruct (chThdCreateStatic_correct 256 11 512 70 (Some 1%positive) (ex_thd 0) Hu)
    as (s1 & _ & _ & _ & _ & _ & Hp);
    [reflexivity|reflexivity|reflexivity|lia|vm_compute; split; congruence|discriminate|exact Hp].
Defined.

(** ** Mailboxes *)

(** A mailbox of two slots with one message. *)
Definition ex_mb : kst :=
  set_k_mbox {[4%positive := mkMB [10; 20] 0 1 5 6]}
    (set_k_sem (<[5%positive := 1]> {[6%positive := 1]}) (mk 1 base_thds base_qs)).

Lemma mailbox_witness :
  ∃ s', mb_run 4 [MPost 30; MPost 40; MFetch; MFetch; MFetch] ex_mb
    = Done [(MSG_OK, None); (MSG_TIMEOUT, None); (MSG_OK, Some 20); (MSG_OK, Some 30); (MSG_TIMEOUT, None)] s' ∧
    mb_inv 4 2 [] s'.
Proof.
  destruct (mailbox_refines 4 2 [MPost 30; MPost 40; MFetch; MFetch; MFetch] ex_mb [20])
    as (s' & E & _ & _ & _ & Hm).
  - by_check wfb_sound.
  - by_check sem_wfb_sound.
  - split; vm_compute; congruence.
  - exists (mkMB [10; 20] 0 1 5 6). split_and!; try reflexivity; try (vm_compute; congruence).
    split; try (vm_compute; lia).
    intros [|[|i]] m; simpl; try discriminate. intros [= <-]. reflexivity.
  - exists s'. split; [exact E|exact Hm].
Defined.

(** ** Events *)

(** Thread 3 waits for event 2; listener 8 of source 9 sends it that event. *)
Definition ex_evt (lock : Z) : kst :=
  set_k_evl {[8%positive := mkEL 3 4 0 UINT32_MAX]} (set_k_evs {[9%positive := [8%positive]]}
    (mk lock (<[3%positive := thr 80 CH_STATE_WTOREVT (U_ewmask 4)]> base_thds) base_qs)).

Lemma chEvtBroadcastFlagsI_witness :
  ∃ s', chEvtBroadcastFlagsI 9 1 (ex_evt 1) = Done () s' ∧ wf s' ∧ p_epending <$> k_thd s' !! 3%positive = Some 4.
Proof.
  destruct (chEvtBroadcastFlagsI_correct (ex_evt 1) 9 [8%positive] 1) as (s' & E & Hw & _ & _ & _ & _ & Hp).
  - by_check wfb_sound.
  - by_check evt_wfb_sound.
  - split; vm_compute; congruence.
  - reflexivity.
  - apply NoDup_singleton.
  - intros elp ->%list_elem_of_singleton. exists (mkEL 3 4 0 UINT32_MAX). split; [reflexivity|]. vm_compute. eauto.
  - exists s'. split_and!; [exact E|exact Hw|]. rewrite (Hp 3%positive _ eq_refl). reflexivity.
Defined.

Lemma chEvtDispatch_witness :
  chEvtDispatch (λ _, Some (mret ())) 5 = call_all (λ _, Some (mret ())) [0; 2].
Proof.
  rewrite (chEvtDispatch_correct (λ _, Some (mret ())) 5); [reflexivity|]. split; vm_compute; congruence.
Defined.

Lemma chEvtWaitOneTimeout_witness :
  ∃ s1 k, chEvtWaitOneTimeout 3 100 (ex_evt 0) = Switch s1 k ∧ K s1.
Proof.
  destruct (chEvtWaitOneTimeout_correct (ex_evt 0) (thr 64 CH_STATE_CURRENT (U_msg 0)) 3 100 2 [])
    as (_ & _ & H).
  - by_check userb_sound.
  - reflexivity.
  - split; vm_compute; congruence.
  - split; vm_compute; congruence.
  - reflexivity.
  - reflexivity.
  - destruct H as (s1 & k & E & HK & _); [reflexivity|discriminate|]. exists s1, k. done.
Defined.

(** ** Messages *)

(** Thread 3 has a message for thread 1; thread 4 waits for a message; thread 9
    waits for its answer. *)
Definition ex_msg : kst :=
  mk 0 (<[3%positive := set_p_msg 77 (thr 80 CH_STATE_SNDMSGQ (U_wtobjp (QMsg 1)))]>
        (<[4%positive := thr 30 CH_STATE_WTMSG (U_msg 0)]>
        (<[9%positive := thr 70 CH_STATE_SNDMSG (U_msg 0)]> base_thds)))
    (<[QMsg 1 := [3%positive]]> base_qs).

Lemma ex_msg_ok : user ex_msg.
Proof. by_check userb_sound. Qed.

Lemma chMsgSend_witness :
  ∃ s1 k, chMsgSend 4 5 ex_msg = Switch s1 k ∧ K s1 ∧ qof s1 (QMsg 4) = [1%positive].
Proof.
  destruct (chMsgSend_correct ex_msg 4 (thr 30 CH_STATE_WTMSG (U_msg 0)) (thr 64 CH_STATE_CURRENT (U_msg 0)) 5 2 []
    ex_msg_ok) as (s1 & k & E & HK & Hq & _); [reflexivity|reflexivity|discriminate|reflexivity|].
  exists s1, k. done.
Defined.

Lemma chMsgWait_witness : ∃ s', chMsgWait ex_msg = Done 3%positive s' ∧ chMsgGet 3 s' = Done 77 s'.
Proof.
  destruct (chMsgWait_pending ex_msg 3 [] _ ex_msg_ok eq_refl eq_refl) as (s' & E & _ & _ & _ & Hg).
  exists s'. split; [exact E|exact Hg].
Defined.

Lemma chMsgRelease_witness : post K K (chMsgRelease 9 1 ex_msg) (λ _ s', user s').
Proof. apply (chMsgRelease_correct ex_msg 9 _ 1 ex_msg_ok eq_refl eq_refl). Defined.

(** ** I/O queues *)

(** Queue 4, of two bytes, holds one; thread 3 waits on its threads queue 6. *)
Definition ex_ioq : kst :=
  set_k_ioq {[4%positive := mkIOQ 6 1 [10; 20] 1 0 None]}
    (mk 1 (<[3%positive := thr 80 CH_STATE_QUEUED (U_msg 0)]> base_thds) (<[QThq 6 := [3%positive]]> base_qs)).

Lemma ex_ioq_rep : ring_rep [10; 20] 1 0 [10].
Proof. split; try (vm_compute; lia). intros [|[|i]] m; simpl; try discriminate. intros [= <-]. reflexivity. Qed.

Lemma chIQPutI_witness :
  ∃ s', chIQPutI 4 30 ex_ioq = Done Q_OK s' ∧ wf s' ∧ iq_inv 4 [10; 30] s'.
Proof.
  destruct (chIQPutI_correct ex_ioq 4 (mkIOQ 6 1 [10; 20] 1 0 None) [10] 30) as [_ H].
  - by_check wfb_sound.
  - split; vm_compute; congruence.
  - reflexivity.
  - exists (mkIOQ 6 1 [10; 20] 1 0 None). split_and!; [reflexivity|exact ex_ioq_rep|reflexivity].
  - destruct H as (s' & E & Hw & _ & Hi & _); [vm_compute; lia|]. exists s'. done.
Defined.

Lemma chOQGetI_witness :
  ∃ s', chOQGetI 4 ex_ioq = Done 10 s' ∧ wf s' ∧ oq_inv 4 [] s'.
Proof.
  destruct (chOQGetI_correct ex_ioq 4 (mkIOQ 6 1 [10; 20] 1 0 None) [10]) as (s' & E & Hw & _ & Hi & _).
  - by_check wfb_sound.
  - split; vm_compute; congruence.
  - reflexivity.
  - exists (mkIOQ 6 1 [10; 20] 1 0 None). split_and!; [reflexivity|exact ex_ioq_rep|reflexivity].
  - exists s'. done.
Defined.

(** ** Virtual timers *)

(** Two armed timers, due at 1005 and 1020; the time is 1010 and the list is
    relative to 1000. *)
Definition ex_vt (lock isr : Z) : kst :=
  set_k_vtlast 1000 (set_k_now 1010 (set_k_vt
    [mkVT (VTObj 1) 5 (VtUser 1 0); mkVT (VTObj 2) 15 (VtUser 2 0)]
    (set_k_isr isr (mk lock base_thds base_qs)))).

Lemma ms_ticks_witness : MS2ST 500 = 5000 ∧ ST2MS 5000 = 500.
Proof. destruct (ms_ticks_roundtrip 500) as (E & E' & _); [lia|reflexivity|]. rewrite E in E'. done. Defined.

Lemma ex_vt_deltas lock isr : deltas_ok (k_vt (ex_vt lock isr)).
Proof. repeat constructor; simpl; lia. Qed.

Lemma chVTDoSetI_witness : ∃ s' d, chVTDoSetI (VTObj 3) 7 (VtUser 3 0) (ex_vt 1 0) = Done () s' ∧
  deadlines (k_vtlast s') (k_vt s') ≡ₚ [(VTObj 3, d); (VTObj 1, 1005); (VTObj 2, 1020)] ∧ u32 d = 1017.
Proof.
  destruct (chVTDoSetI_correct (ex_vt 1 0) (VTObj 3) 7 (VtUser 3 0)) as (s' & d & E & _ & _ & Hd & Hu & _);
    [split; vm_compute; done|reflexivity|apply ex_vt_deltas|lia|split; vm_compute; done|split; vm_compute; done|reflexivity|].
  exists s', d. done.
Defined.

Lemma chVTDoResetI_witness : ∃ s', chVTDoResetI (VTObj 1) (ex_vt 1 0) = Done () s' ∧
  deadlines (k_vtlast s') (k_vt s') = [(VTObj 2, 1020)].
Proof.
  destruct (chVTDoResetI_correct (ex_vt 1 0) (VTObj 1)) as (s' & E & _ & Ev & _ & Hd & _);
    [split; vm_compute; done|reflexivity|apply ex_vt_deltas|reflexivity|
     apply (bool_decide_unpack _); vm_compute; exact I|].
  exists s'. split; [exact E|]. rewrite Hd. reflexivity.
Defined.

(** Callbacks that record themselves in an otherwise unused mailbox buffer. *)
Definition ex_enc (f : vtfunc) : list Z :=
  match f with VtWakeup t => [0; Z.pos t; 0] | VtUser g p => [1; Z.pos g; p] end.
Fixpoint ex_dec (l : list Z) : list vtfunc :=
  match l with
  | k :: a :: p :: l' =>
      ex_dec l' ++ [if k =? 0 then VtWakeup (Z.to_pos a) else VtUser (Z.to_pos a) p]
  | _ => []
  end.
Definition ex_buf (s : kst) : list Z := match k_mbox s !! 1%positive with Some m => mb_buffer m | None => [] end.
Definition ex_log (s : kst) : list vtfunc := ex_dec (ex_buf s).
Definition ex_record (f : vtfunc) : M unit :=
  modify (λ s, set_k_mbox (<[1%positive := mkMB (ex_enc f ++ ex_buf s) 0 0 1 1]> (k_mbox s)) s).

Definition is_first (f : vtfunc) : bool := match f with VtUser xH _ => true | _ => false end.

(** The callback of the first timer arms it again, 10 ticks from now. *)
Definition ex_run (f : vtfunc) : M unit :=
  ex_record f ;;
  when (is_first f) (chSysLockFromISR ;; chVTDoSetI (VTObj 1) 10 f ;; chSysUnlockFromISR).
Definition ex_owns (r : vtref) (f : vtfunc) : Prop := ∃ g, r = VTObj g ∧ f = VtUser g 0.
Definition ex_effect (c : vtref * vtfunc) (a b : list entry) : Prop :=
  if is_first c.2 then b ≡ₚ (VTObj 1, VtUser 1 0, 10) :: a else b = a.

Lemma ex_record_log f s : ex_log (set_k_mbox (<[1%positive := mkMB (ex_enc f ++ ex_buf s) 0 0 1 1]> (k_mbox s)) s) = ex_log s ++ [f].
Proof. unfold ex_log, ex_buf at 1. simpl. rewrite lookup_insert_eq. by destruct f. Qed.

Lemma ex_run_ok r f s : in_ISR s → vt_wf ex_owns 10 s → ex_owns r f → r ∉ vt_ref <$> k_vt s →
  ∃ s', ex_run f s = Done () s' ∧ in_ISR s' ∧ vt_wf ex_owns 10 s' ∧ k_now s' = k_now s ∧
    due (ticks_left s') = due (ticks_left s) ∧ ex_effect (r, f) (future (ticks_left s)) (future (ticks_left s')) ∧
    ex_log s' = ex_log s ++ [f].
Proof.
  intros HI Hw (g & -> & ->) Hr. unfold ex_run, ex_effect, ex_record. cbn [snd]. rewrite <-(ex_record_log (VtUser g 0) s).
  set (s0 := set_k_mbox _ s). mgo. fold s0. destruct (vt_wf_same ex_owns 10 s s0 Hw eq_refl eq_refl eq_refl) as [W0 E0].
  destruct (decide (g = 1%positive)) as [->|Hg]; cycle 1.
  { replace (is_first (VtUser g 0)) with false by by destruct g. mgo. exists s0. by rewrite E0. }
  cbn [is_first]. mgo.
  destruct (chSysLockFromISR_ok s0 HI) as (s1 & E1 & I1 & J1 & D1).
  pose proof D1 as (_ & _ & _ & _ & V1 & T1 & N1 & _ & _ & _ & _ & M1 & _).
  destruct (vt_wf_same ex_owns 10 s0 s1 W0 V1 T1 N1) as [W1 L1].
  destruct (chVTDoSetI_left ex_owns 10 s1 (VTObj 1) 10 (VtUser 1 0) I1 W1) as (v & t & a & E2 & W2 & D2 & F2);
    [by rewrite V1|by exists 1%positive|lia|vm_compute; discriminate|]. set (s2 := set_k_alarm _ _) in *.
  destruct (chSysUnlockFromISR_ok s2) as (s3 & E3 & I3 & _ & D3); [exact I1|change (0 < k_isr s1); rewrite J1; apply HI|].
  pose proof D3 as (_ & _ & _ & _ & V3 & T3 & N3 & _ & _ & _ & _ & M3 & _).
  destruct (vt_wf_same ex_owns 10 s2 s3 W2 V3 T3 N3) as [W3 L3]. exists s3. rewrite E1. mgo. rewrite E2. mgo. rewrite E3.
  rewrite L3, D2, F2, L1, E0, N3. split_and!; try done. unfold ex_log, ex_buf. by rewrite M3; simpl; rewrite M1.
Qed.

(** At time 1010 the first timer is due and the second is not; the callback of the
    first arms it again for 1020, where the second one is, and the alarm is set to
    that time. *)
Lemma chVTDoTickI_witness : ∃ s', chVTDoTickI ex_run 3 (ex_vt 1 1) = Done () s' ∧
  ex_log s' = [VtUser 1 0] ∧ ticks_left s' ≡ₚ [(VTObj 1, VtUser 1 0, 10); (VTObj 2, VtUser 2 0, 10)] ∧ k_alarm s' = Some 1020.
Proof.
  assert (vt_wf ex_owns 10 (ex_vt 1 1)) as Hw.
  { split; [apply ex_vt_deltas|reflexivity|split; vm_compute; done|split; vm_compute; done|reflexivity| |].
    - apply (bool_decide_unpack _); vm_compute; exact I.
    - repeat constructor; by eexists. }
  destruct (chVTDoTickI_correct ex_run ex_log ex_owns 10 ltac:(vm_compute; discriminate) ex_effect ex_run_ok (λ _ _ _ _ _ _, eq_refl)
    3 (ex_vt 1 1)) as (s' & E & L & F & _ & _ & A); [split; vm_compute; done|reflexivity|exact Hw|vm_compute; lia|].
  assert (due (ticks_left (ex_vt 1 1)) = [(VTObj 1, VtUser 1 0, -5)]) as Ed by (vm_compute; reflexivity).
  assert (future (ticks_left (ex_vt 1 1)) = [(VTObj 2, VtUser 2 0, 10)]) as Ef by (vm_compute; reflexivity).
  rewrite Ed in L, F. rewrite Ef in F. exists s'. split; [exact E|]. split; [exact L|]. destruct F as (m & F & F'). simpl in F'. subst m.
  assert (ticks_left s' ≡ₚ [(VTObj 1, VtUser 1 0, 10); (VTObj 2, VtUser 2 0, 10)]) as P by exact F. split; [exact P|].
  destruct (ticks_left s') as [|x l]; [by apply Permutation_nil_cons in P|].
  destruct (A x l eq_refl) as [_ ->]. assert (x ∈ x :: l) as Hx by constructor. rewrite P in Hx.
  apply elem_of_cons in Hx as [->|Hx]; [vm_compute; reflexivity|]. apply list_elem_of_singleton in Hx as ->. vm_compute. reflexivity.
Defined.

(** The delta list's base: with a timer still armed, a delay close to the
    largest one wraps around and the timer is set in the past. *)
Definition ex_vt_long : kst :=
  set_k_vtlast 0 (set_k_now 1000 (set_k_vt [mkVT (VTObj 1) 5000 (VtUser 1 0)] (mk 1 base_thds base_qs))).

(** The delta of a new timer is computed modulo 2^32: a timer set 2^32-2
    ticks ahead, 1000 ticks after the list's base, gets the deadline 998, which
    is already past, and the next timer interrupt would call it at once. *)
Theorem chVTDoSetI_wraps : ∃ s', chVTDoSetI (VTObj 2) (2 ^ 32 - 2) (VtUser 2 0) ex_vt_long = Done () s' ∧
  deadlines (k_vtlast s') (k_vt s') = [(VTObj 2, 998); (VTObj 1, 5000)] ∧ k_now s' = 1000.
Proof. eexists. split; [vm_compute; reflexivity|]. vm_compute. done. Qed.
