(* ===== verification/MoreExamples.v ===== *)
(** * Concrete states for the allocators, dynamic threads, the system services
      and whole applications *)

From S2P Require Import Prelude TimeMeas Kernel ThreadQueues Sys VTimers Sched Sem Mtx Memory Thd Dynamic System Exec.
From S2P Require Import Checkers Examples.

(** ** A heap *)

Definition no_provider (f : positive) (size : Z) : M Z := fault.

(** Heap 3, without provider, has two free blocks with a block in use between
    them, which is the working area of thread 160; heap 4 has no free block and
    asks the core allocator. *)
Definition ex_hdrs : gmap Z heap_header :=
  <[96 := mkHH (HNext 112) 0]> (<[112 := mkHH (HNext 168) 32]> (<[168 := mkHH (HNext 0) 16]>
  (<[152 := mkHH (HHeap 3) 8]> (<[80 := mkHH (HNext 0) 0]> ∅)))).
Definition ex_h3 : memory_heap := mkHeap PNull 96 9.
Definition ex_h4 : memory_heap := mkHeap PCoreAlloc 80 10.
Definition ex_mst : memst :=
  mkMemst 256 1024 ex_hdrs {[600 := 0]} (<[3%positive := ex_h3]> {[4%positive := ex_h4]}) {[5%positive := mkPool 600 8 PNull]}.

Definition ended (m : Z) : thread := mkThread 30 None CH_STATE_FINAL CH_FLAG_MODE_HEAP 1 (U_msg m) 0 0 None 30 None.

Definition ex_heap (lock : Z) : kst :=
  set_k_reg [1%positive; 2%positive; 160%positive]
  (set_k_mtx (<[9%positive := mkMutex None None]> {[10%positive := mkMutex None None]})
    (set_k_mem ex_mst (mk lock (<[160%positive := ended 7]> base_thds) base_qs))).

Definition ex_free : list block := [(112, 32); (168, 16)].

Lemma ex_user : user (ex_heap 0).
Proof. by_check userb_sound. Qed.
Lemma ex_mtx_wf : mtx_wf (ex_heap 0).
Proof. by_check mtx_wfb_sound. Qed.

Ltac blocks := unfold block_ok, gap, clear_of, disjoint_blocks, bend, HDR; simpl; try lia.

Lemma ex_blocks_ok : blocks_ok ex_free.
Proof.
  split.
  - repeat constructor; blocks; [by exists 14|by exists 4|by exists 21|by exists 2].
  - repeat constructor; blocks.
Qed.

Lemma ex_heap_wf : heap_wf 3 ex_h3 ex_free (ex_heap 0).
Proof.
  split; [reflexivity|]. split; [by exists None|]. split; [|split; [apply ex_blocks_ok|split; [blocks|split; [blocks|]]]].
  - split; [done|]. exists 112. split; [reflexivity|]. split; [done|]. exists 168. split; [reflexivity|].
    split; [done|]. exists 0. split; [reflexivity|done].
  - do 2 (constructor; [blocks|]). constructor.
Qed.

Lemma ex_used : used 3 ex_h3 (152, 8) (ex_heap 0).
Proof. split; [reflexivity|]. split; blocks. split_and!; try lia; [by exists 19|by exists 1]. Qed.

Lemma ex_disjoint : Forall (disjoint_blocks (152, 8)) ex_free.
Proof. do 2 (constructor; [blocks|]). constructor. Qed.

Lemma chHeapFree_witness :
  ∃ s', chHeapFree 160 (ex_heap 0) = Done () s' ∧ user s' ∧ heap_wf 3 ex_h3 [(112, 72)] s'.
Proof.
  destruct (chHeapFree_correct (ex_heap 0) 3 ex_h3 ex_free (152, 8) ex_user ex_mtx_wf ex_heap_wf ex_used ex_disjoint)
    as (s' & E & Hu & _ & _ & Hh & _).
  exists s'. split; [exact E|]. split; [exact Hu|exact Hh].
Defined.

Lemma chHeapAlloc_witness :
  ∃ s', chHeapAlloc no_provider (Some 3%positive) 5 (ex_heap 0) = Done 120 s' ∧
    heap_wf 3 ex_h3 [(128, 16); (168, 16)] s'.
Proof.
  destruct (chHeapAlloc_correct no_provider (ex_heap 0) 3 ex_h3 ex_free 5 (112, 8) [(128, 16); (168, 16)] ex_user ex_mtx_wf ex_heap_wf)
    as (s' & E & _ & _ & _ & Hh & _); [lia|lia|vm_compute; reflexivity|].
  exists s'. split; [exact E|exact Hh].
Defined.

Lemma ex_heap4_wf : heap_wf 4 ex_h4 [] (ex_heap 0).
Proof.
  split; [reflexivity|]. split; [by exists None|]. split; [|split; [split; constructor|split; [blocks|split; [blocks|constructor]]]].
  split; [done|]. exists 0. split; [reflexivity|done].
Qed.

Lemma ex_core_ok lock : core_ok (k_mem (ex_heap lock)).
Proof. unfold core_ok. simpl. split_and!; try lia; [by exists 32|by exists 128]. Qed.

Lemma chHeapAlloc_provider_witness :
  (∃ s', chHeapAlloc no_provider (Some 3%positive) 100 (ex_heap 0) = Done 0 s') ∧
  (∃ s', chHeapAlloc no_provider (Some 4%positive) 100 (ex_heap 0) = Done 264 s' ∧ nextmem (k_mem s') = 368).
Proof.
  split.
  - destruct (chHeapAlloc_provider no_provider (ex_heap 0) 3 ex_h3 ex_free 100 ex_user ex_mtx_wf ex_heap_wf)
      as [H _]; [lia|lia|vm_compute; reflexivity|lia|].
    destruct H as (s' & E & _); [reflexivity|]. exists s'. exact E.
  - destruct (chHeapAlloc_provider no_provider (ex_heap 0) 4 ex_h4 [] 100 ex_user ex_mtx_wf ex_heap4_wf)
      as [_ H]; [lia|lia|vm_compute; reflexivity|lia|].
    destruct H as (s' & E & _ & _ & _ & _ & _ & _ & Hn & _); [reflexivity|apply ex_core_ok| |vm_compute; right; reflexivity|].
    + intros Hc. by apply covered_nil in Hc.
    + exists s'. split; [exact E|exact Hn].
Defined.

Lemma chCoreAllocI_witness :
  ∃ ps s', core_allocs [5; 1000; 16] (ex_heap 1) = Done ps s' ∧ length ps = 3%nat ∧ core_ok (k_mem s').
Proof.
  destruct (chCoreAllocI_correct [5; 1000; 16] (ex_heap 1)) as [(ps & s' & E & L & C & _) _].
  - split; vm_compute; congruence.
  - apply ex_core_ok.
  - repeat constructor; lia.
  - exists ps, s'. split; [exact E|]. split; [exact L|exact C].
Defined.

Lemma pool_witness :
  ∃ s', pool_run no_provider 5 [PAlloc; PAlloc; PFree 640; PFree 600; PAlloc] (ex_heap 1) = Done [600; 0; 0; 0; 600] s' ∧
    pool_wf 5 8 PNull [640] s'.
Proof.
  destruct (pool_refines no_provider 5 [PAlloc; PAlloc; PFree 640; PFree 600; PAlloc] 8 [600] (ex_heap 1)
    [600; 0; 0; 0; 600] [640]) as (s' & E & W & _).
  - split; vm_compute; congruence.
  - split; [|repeat constructor; set_solver]. exists 600. split; [reflexivity|]. split; [done|]. split; [done|]. by exists 0.
  - vm_compute. reflexivity.
  - exists s'. split; [exact E|exact W].
Defined.

(** ** Dynamic threads and the registry *)

Lemma chThdRelease_witness :
  ∃ s', chThdRelease 160 (ex_heap 0) = Done () s' ∧ heap_wf 3 ex_h3 [(112, 72)] s' ∧ k_reg s' = [1%positive; 2%positive].
Proof.
  destruct (chThdRelease_correct 160 (ended 7) (ex_heap 0) ex_user) as (_ & _ & H); [reflexivity|simpl; lia|].
  destruct (H 3%positive ex_h3 ex_free (152, 8) eq_refl eq_refl eq_refl ex_mtx_wf ex_heap_wf ex_used ex_disjoint eq_refl)
    as (s' & E & _ & _ & Hh & Hr & _).
  exists s'. split; [exact E|]. split; [exact Hh|exact Hr].
Defined.

Lemma chThdWait_witness :
  ∃ s1, same_data (ex_heap 0) s1 ∧ chThdWait 160 (ex_heap 0) = rbind (chThdRelease 160 s1) (λ _ x, Done 7 x).
Proof.
  destruct (chThdWait_correct 160 (ended 7) (ex_heap 0) 2 [] ex_user) as [H _]; [done|reflexivity|simpl; lia|reflexivity|].
  destruct (H 7 eq_refl eq_refl) as (s1 & _ & D & E). exists s1. split; [exact D|exact E].
Defined.

(** Thread 160 has terminated and has no reference left; the walk clears it. *)
Definition ex_zombie : kst :=
  set_k_reg [1%positive; 160%positive; 2%positive] (put_thd 160 (set_p_refs 0 (ended 7)) (ex_heap 0)).
Definition ex_zb (t : tid) : option block := if decide (t = 160%positive) then Some (152, 8) else None.


Lemma chThdCreateFromHeap_witness :
  post K K (chThdCreateFromHeap no_provider 16 (Some 3%positive) 32 20 (Some 1%positive) (ex_heap 0))
    (λ r s', r = Some 120%positive ∧ user s').
Proof.
  destruct (chThdCreateFromHeap_correct no_provider 16 3 ex_h3 ex_free 32 20 (Some 1%positive) (ex_heap 0)
    ex_user ex_mtx_wf ex_heap_wf) as [H _]; [lia|lia|lia|vm_compute; split; congruence|discriminate|].
  destruct (H (112, 32) [(168, 16)] 120%positive) as (s2 & th & _ & _ & _ & _ & _ & _ & _ & _ & _ & _ & Hp);
    [reflexivity|reflexivity|reflexivity|reflexivity|reflexivity|exact Hp].
Defined.

(** ** System services *)

Definition ex_conf : sysconf := mkSysconf 1 2 512 256 1 1000 65536 96 9.

(** Memory after the startup code, with two binary semaphores. *)
Definition ex_cleared : kst :=
  mkK 1 ∅ ∅ [] [] 0 1000 None 0 0 0 trace0 stats_init ∅ 0 (<[7%positive := 0]> {[8%positive := 1]}) ∅ ∅ ∅ ∅ ∅ ∅
    (mkMemst 0 0 ∅ ∅ ∅ ∅).

Lemma chSysInit_witness :
  ∃ s', chSysInit ex_conf 5 9 ex_cleared = Done () s' ∧ user s' ∧ k_reg s' = [1%positive; 2%positive].
Proof.
  destruct (chSysInit_correct ex_conf 5 9 ex_cleared) as (s' & E & Hu & _ & _ & _ & _ & Hr & _).
  - split; [reflexivity|reflexivity|reflexivity|split; reflexivity].
  - split; simpl; try lia. split; vm_compute; congruence.
  - by_check sem_wfb_sound.
  - exists s'. split; [exact E|]. split; [exact Hu|exact Hr].
Defined.

(** A ready list whose backward links skip a thread. *)
Definition ex_broken : links PtrQueue.node :=
  mkLinks (<[PtrQueue.NH QReady := PtrQueue.NT 3]> (<[PtrQueue.NT 3 := PtrQueue.NT 2]> {[PtrQueue.NT 2 := PtrQueue.NH QReady]}))
          (<[PtrQueue.NH QReady := PtrQueue.NT 3]> {[PtrQueue.NT 3 := PtrQueue.NH QReady]}).
Definition ex_empty : links (option positive) := mkLinks {[None := None]} {[None := None]}.

Lemma chSysIntegrityCheckI_witness :
  chSysIntegrityCheckI 5 ex_broken ex_empty ex_empty 7 (ex_heap 1) = Done true (ex_heap 1).
Proof.
  assert (paths ex_empty None [] []) as He by (split; exists None; done).
  apply (chSysIntegrityCheckI_correct 5 ex_broken ex_empty ex_empty
    [PtrQueue.NT 3; PtrQueue.NT 2] [PtrQueue.NT 3] [] [] [] [] 7 (ex_heap 1)); [|..|exact He|exact He| |].
  - split; vm_compute; congruence.
  - split; (exists (PtrQueue.NT 3); split; [reflexivity|]).
    + split; [done|]. split; [done|]. exists (PtrQueue.NT 2). split; [reflexivity|]. split; [done|]. split; [done|].
      by exists (PtrQueue.NH QReady).
    + split; [done|]. split; [done|]. by exists (PtrQueue.NH QReady).
  - simpl. lia.
  - vm_compute. discriminate.
Defined.

Lemma chSysPolledDelayX_witness :
  ∃ r, chSysPolledDelayX 35 (λ i, u32 (10 * Z.of_nat i)) 35 = Some r ∧ 35 ≤ 10 * Z.of_nat r - 10 * Z.of_nat 0.
Proof.
  destruct (chSysPolledDelayX_ends (λ i, 10 * Z.of_nat i) 35) as (r & E & H & _); [lia|intros i; lia|].
  exists r. split; [exact E|exact H].
Defined.

(** ** An application *)

(** The main thread waits for a semaphore that an interrupt signals while the
    idle thread yields. *)
Definition ex_prog (t : tid) : list call :=
  if decide (t = 1%positive) then [CWait 7; CSetPriority 80] else [CYield].
Definition ex_irqs (i : irq) : Prop := i = ISignal 7.
Definition ex_app : kst := set_k_sem {[7%positive := 0]} (mk 0 base_thds base_qs).

Lemma ex_app_ok : user ex_app ∧ thr_ok 2 ex_app ∧ bsem_ok {[7%positive]} ex_app.
Proof.
  split; [by_check userb_sound|]. split; [split|split].
  - intros t th Et _. unfold ex_app in Et. simpl in Et. unfold base_thds in Et.
    rewrite !lookup_insert in Et. repeat case_decide; simplify_eq; try (by eexists).
  - eexists. split; [reflexivity|]. by left.
  - vm_compute. discriminate.
  - by_check sem_wfb_sound.
  - intros sp c. unfold ex_app. simpl. intros [_ <-]%lookup_singleton_Some. lia.
  - intros sp ->%elem_of_singleton. by eexists.
Qed.

Definition returned {A} (r : res A) : bool := match r with Done _ _ => true | _ => false end.

(** After the main thread has gone to sleep. *)
Lemma application_witness :
  ∃ g s k, rtc (step ex_prog ex_irqs) (boot ex_prog ex_app) g ∧ c_me g = 1%positive ∧ c_res g = Switch s k ∧ K s.
Proof.
  destruct ex_app_ok as (Hu & Ht & Hb).
  set (g := mkCfg 1 ∅ [CSetPriority 80] (exec (CWait 7) ex_app)).
  assert (rtc (step ex_prog ex_irqs) (boot ex_prog ex_app) g) as Hg.
  { apply (rtc_once (boot ex_prog ex_app) g). apply step_call. }
  destruct (application_safe 2 {[7%positive]} ex_prog ex_irqs ex_app g Hu Ht Hb) as [(s & E & _)|(s & k & E & HK & _)].
  - intros t. unfold ex_prog. case_decide as Ht1; [subst t|]; repeat constructor; try done; set_solver.
  - intros i ->. simpl. set_solver.
  - exact Hg.
  - apply (f_equal returned) in E. vm_compute in E. discriminate E.
  - exists g, s, k. split; [exact Hg|]. split; [reflexivity|]. split; [exact E|exact HK].
Defined.
