(* ===== verification/DSPExamples.v ===== *)
(** * Concrete runs of the DSP filters

    A state with the default heap, the runs the theorems of DSP.v speak of on
    concrete filters, and the destructor of a filter object. *)

From Stdlib Require Import SpecFloat.
From S2P Require Import Prelude TimeMeas Kernel ThreadQueues Sys VTimers Sched Mtx Memory DSP.
From S2P Require Import Checkers Examples.

(** The default heap has no free block and asks the core allocator, which has
    the addresses from 256 to 4096. *)
Definition dsp_st : kst :=
  set_k_mtx {[10%positive := mkMutex None None]}
    (set_k_mem (mkMemst 256 4096 {[80 := mkHH (HNext 0) 0]} ∅ {[default_heap := mkHeap PCoreAlloc 80 10]} ∅)
       (mk 0 base_thds base_qs)).

Definition no_user (f : positive) (size : Z) : M Z := fault.
Definition zjunk {F} `{Arith F} (p : Z) (k : nat) : F := fzero.
(** The object in fresh memory, with [FilterOrder] equal to [n]. *)
Definition raw {F} (n : Z) : @DataFilter F := mkDF n FUninit FUninit FUninit FUninit.

Definition after {A} (r : res A) : kst := match r with Done _ s => s | _ => dsp_st end.
Definition array_of {F} (r : res (@fptr F)) : @farray F := match r with Done (FArr a) _ => a | _ => mkArr 0 [] end.
Definition addr_of (r : res Z) : Z := match r with Done p _ => p | _ => 0 end.

Definition alloc {F} `{Arith F} (n : Z) (s : kst) : res (@fptr F) := alloc_floats no_user zjunk n s.

(** Closes the premises on concrete data. *)
Ltac by_evaluation :=
  first [vm_compute; reflexivity | vm_compute; discriminate | split_and!; vm_compute; (reflexivity || discriminate)].

Definition half : spec_float := S754_finite false 8388608 (-24).
Definition one : spec_float := S754_finite false 8388608 (-23).

Lemma fir_witness :
  ∃ s', filtering no_user zjunk 0 1 [one] [half; half] [] [] 0 (raw 1) [one; fzero; one] dsp_st = Done [one; half; half] s'.
Proof.
  set (s1 := after (alloc (F := spec_float) 2 dsp_st)). set (s2 := after (alloc (F := spec_float) 11 s1)).
  set (r := chHeapAlloc no_user None 4 s2).
  exists (after r). rewrite (fir_correct no_user zjunk 1 [one] [half; half] [] [] (raw 1) 1 0 eq_refl eq_refl)
    with (s := dsp_st) (arB := array_of (alloc 2 dsp_st)) (s1 := s1) (arX := array_of (alloc 11 s1)) (s2 := s2) (p := addr_of r) (s3 := after r);
    by_evaluation.
Defined.

(** y[n] = x[n] + 2 x[n-1] - 3 y[n-1] from x[-1] = 1, y[-1] = 4. *)
Lemma iir1_witness :
  ∃ s', filtering no_user zjunk 1 1 [1] [1; 2] [4] [1; 3] 0 (raw 1) [1; 0; 0] dsp_st = Done [-9; 29; -87] s'.
Proof.
  set (s1 := after (alloc (F := Z) 2 dsp_st)). set (s2 := after (alloc (F := Z) 11 s1)).
  set (s3 := after (alloc (F := Z) 1 s2)). set (s4 := after (alloc (F := Z) 11 s3)). set (r := chHeapAlloc no_user None 4 s4).
  exists (after r). rewrite (iir1_correct no_user zjunk 1 [1] [1; 2] [4] [1; 3] (raw 1) 1 0 eq_refl eq_refl eq_refl eq_refl)
    with (s := dsp_st) (arB := array_of (alloc 2 dsp_st)) (s1 := s1) (arX := array_of (alloc 11 s1)) (s2 := s2)
         (arA := array_of (alloc 1 s2)) (s3 := s3) (arY := array_of (alloc 11 s3)) (s4 := s4) (p := addr_of r) (s5 := after r);
    by_evaluation.
Defined.

Lemma iir2_witness :
  ∃ s', filtering no_user zjunk 2 1 [1] [1; 2] [4] [1; 3] 0 (raw 1) [1; 0; 0] dsp_st = Done [0; 2; -6] s'.
Proof.
  set (s1 := after (alloc (F := Z) 2 dsp_st)). set (s2 := after (alloc (F := Z) 11 s1)).
  set (s3 := after (alloc (F := Z) 1 s2)). set (s4 := after (alloc (F := Z) 11 s3)).
  set (q := chHeapAlloc no_user None 4 s4). set (r := chHeapAlloc no_user None 4 (after q)).
  exists (after r). rewrite (iir2_correct no_user zjunk 1 [1] [1; 2] [4] [1; 3] (raw 1) 1 0 eq_refl eq_refl eq_refl)
    with (s := dsp_st) (arB := array_of (alloc 2 dsp_st)) (s1 := s1) (arX := array_of (alloc 11 s1)) (s2 := s2)
         (arA := array_of (alloc 1 s2)) (s3 := s3) (arY := array_of (alloc 11 s3)) (s4 := s4)
         (q := addr_of q) (s5 := after q) (p := addr_of r) (s6 := after r);
    by_evaluation.
Defined.

(** The filter of main.cpp has order 3; its object is in memory that contains 0.
    Seven of the ten samples fit. *)
Lemma filtering_overflow_witness :
  let d := match newDataFilter no_user zjunk 1 3 [1; 1; 1] [1; 1; 1; 1] [1; 1; 1] [1; 1; 1; 1] (raw 0) dsp_st with
           | Done d _ => d | _ => raw 0 end in
  let s1 := after (newDataFilter no_user zjunk 1 3 [1; 1; 1] [1; 1; 1; 1] [1; 1; 1] [1; 1; 1; 1] (raw 0) dsp_st) in
  let p := chHeapAlloc no_user None 4 s1 in
  (∀ r s', filtering no_user zjunk 1 3 [1; 1; 1] [1; 1; 1; 1] [1; 1; 1] [1; 1; 1; 1] 0 (raw 0) (replicate 50 1) dsp_st ≠ Done r s') ∧
  ∃ k x ys f', Z.of_nat k = 7 ∧ (k < 10)%nat ∧ replicate 50 1 !! k = Some x ∧
    filter_all (filter_sample 1) (take k (replicate 50 1)) (mkFilter (addr_of p) 0 d 0) = Some (ys, f') ∧
    let i := FilterOrder (f_data f') + ContBuffer f' in
    i = xlen (ArrayInputsX (f_data f')) ∧ wr (ArrayInputsX (f_data f')) i x = None ∧ filter_sample 1 x f' = None.
Proof.
  intros d s1 p. assert (FilterOrder (raw (F := Z) 0) = 0 ∧ 0 ≤ 0 < 2 ^ 29) as H0 by by_evaluation.
  destruct (filtering_overflow no_user zjunk 3 [1; 1; 1] [1; 1; 1; 1] [1; 1; 1] [1; 1; 1; 1] (raw 0) 0 0 1
    eq_refl eq_refl eq_refl eq_refl ltac:(lia) H0 ltac:(lia) dsp_st (replicate 50 1) ltac:(simpl; lia)) as [H1 H2].
  split; [exact H1|]. apply (H2 d s1 (mkFilter (addr_of p) 0 d 0) (after p)); by_evaluation.
Defined.

(** Seven samples still fit. *)
Example filtering_seven :
  match filtering no_user zjunk 1 3 [1; 1; 1] [1; 1; 1; 1] [1; 1; 1] [1; 1; 1; 1] 0 (raw 0) (replicate 7 1) dsp_st with
  | Done ys _ => length ys = 7%nat
  | _ => False
  end.
Proof. vm_compute. reflexivity. Qed.

(** y[n] = x[n] + 2 x[n-1] - 3 y[n-1] over the integers: form I from rest on 5, 1,
    -2, 7 and form II on 1, -2, 7 after the input 5. *)
Lemma direct_forms_witness :
  ∃ ys s1 s2, filtering no_user zjunk 1 1 [0] [1; 2] [0] [1; 3] 0 (raw 1) [5; 1; -2; 7] dsp_st = Done ys s1 ∧
              filtering no_user zjunk 2 1 [5] [1; 2] [0] [1; 3] 0 (raw 1) [1; -2; 7] dsp_st = Done (drop 1 ys) s2.
Proof.
  set (s1 := after (alloc (F := Z) 2 dsp_st)). set (s2 := after (alloc (F := Z) 11 s1)).
  set (s3 := after (alloc (F := Z) 1 s2)). set (s4 := after (alloc (F := Z) 11 s3)).
  set (q := chHeapAlloc no_user None 4 s4). set (r := chHeapAlloc no_user None 4 (after q)).
  assert (FilterOrder (raw (F := Z) 1) = 1 ∧ 0 ≤ 1 < 2 ^ 29) as H1 by by_evaluation.
  destruct (direct_forms_agree 0 1 Z.add Z.mul Z.sub Z.opp InitialRing.Zth no_user zjunk 1 [5] [1; 2] [0] [1; 3] (raw 1) (raw 1) 1 1 0 0
      eq_refl eq_refl eq_refl ltac:(lia) H1 H1 ltac:(lia) ltac:(lia) 2 [1; -2; 7]
      dsp_st (array_of (alloc 2 dsp_st)) s1 (array_of (alloc 11 s1)) s2 (array_of (alloc 1 s2)) s3 (array_of (alloc 11 s3)) s4
      (addr_of q) (after q)
      dsp_st (array_of (alloc 2 dsp_st)) s1 (array_of (alloc 11 s1)) s2 (array_of (alloc 1 s2)) s3 (array_of (alloc 11 s3)) s4
      (addr_of q) (after q) (addr_of r) (after r)) as (ys & E1 & E2); [by_evaluation..|].
  exists ys, (after q), (after r). split; [exact E1|exact E2].
Defined.

(** ** The destructors

    The destructor of the derived class frees the two objects and then runs the
    one of the base class, which frees them again: the second chHeapFree of a
    block reads the link of the free list as the owner of the block. *)
Definition destroyed (start : kst) : option bool :=
  match chHeapAlloc no_user None 36 start with
  | Done ptr s1 =>
      match setInitialDataFilter no_user ptr (raw (F := Z) 1) s1 with
      | Done f s2 => match (chHeapFree (MathOperation f) ;; chHeapFree (InitialDataFilter f)) s2 with
                     | Done _ _ => match IIR_destroy f s2, FIR_destroy f s2 with Fault, Fault => Some true | _, _ => Some false end
                     | _ => None
                     end
      | _ => None
      end
  | _ => None
  end.

(** A filter object is freed once without error; its destructor is not. *)
Lemma destructors_free_twice : destroyed dsp_st = Some true.
Proof. vm_compute. reflexivity. Qed.
