(* ===== verification/StreamExamples.v ===== *)
(** * Concrete runs of the formatted output and of the serial driver

    The theorems of Printf.v and Serial.v on concrete formats and states, and the
    formats on which chvprintf does something else than its documentation says. *)

From Stdlib Require Import SpecFloat String Ascii.
From S2P Require Import Prelude Ring TimeMeas Kernel ThreadQueues Sys VTimers Sched Thd IOQueues Evt Streams Floats Printf Serial.
From S2P Require Import Checkers Examples.

(** The bytes of a string. *)
Definition text (s : string) : list Z := (λ c, Z.of_nat (nat_of_ascii c)) <$> list_ascii_of_string s.

Definition tmpbuf : list Z := replicate 23 0.

(** ** Formats *)

(** "n=%-3u%c" with 7 and an exclamation mark. *)
Definition ex_fmt : list item := [Lit 110; Lit 61; Dir true false (NNum 3) None false 117; Dir false false NNone None false 99].
Definition ex_args : list varg := [AUInt 7; AInt 33].

Lemma ex_fmt_text : concat (item_text <$> ex_fmt) = text "n=%-3u%c".
Proof. vm_compute. reflexivity. Qed.

Lemma ex_fmt_ok : Forall item_ok ex_fmt.
Proof. repeat constructor; vm_compute; congruence. Qed.

Lemma ex_renders : render_all ex_fmt ex_args (text "n=7  !").
Proof.
  apply (render_cons _ _ _ [110] ex_args (text "=7  !")); [by constructor|].
  apply (render_cons _ _ _ [61] ex_args (text "7  !")); [by constructor|].
  apply (render_cons _ _ _ (text "7  ") [AInt 33] (text "!")).
  - by apply (render_arg true false (NNum 3) None false 117 ex_args 3 ex_args 0 ex_args (text "7") true).
  - apply (render_cons _ _ _ (text "!") [] []); [|constructor].
    by apply (render_arg false false NNone None false 99 [AInt 33] 0 [AInt 33] 0 [AInt 33] (text "!") false).
Qed.

Lemma chvprintf_witness :
  chvprintf (M := stM MemoryStream) tmpbuf (text "n=%-3u%c") ex_args (msObjectInit (replicate 8 0) 8 0) =
    Some (6, mkMS (text "n=7  !" ++ [0; 0]) 8 6 0).
Proof.
  rewrite <-ex_fmt_text.
  rewrite (chvprintf_correct (M := stM MemoryStream) tmpbuf ex_fmt ex_args (text "n=7  !") ex_renders ex_fmt_ok
    ltac:(vm_compute; lia) ltac:(vm_compute; congruence) (msObjectInit (replicate 8 0) 8 0)).
  vm_compute. reflexivity.
Defined.

Lemma chsnprintf_witness :
  chsnprintf tmpbuf (replicate 6 1) 5 (text "n=%-3u%c") ex_args = Some (text "n=7 " ++ [0; 1], 6).
Proof.
  rewrite <-ex_fmt_text.
  rewrite (chsnprintf_correct tmpbuf (replicate 6 1) 5 ex_fmt ex_args (text "n=7  !") ex_renders ex_fmt_ok);
    [vm_compute; reflexivity|vm_compute; lia|vm_compute; congruence|vm_compute; lia].
Defined.

Lemma decimal_roundtrip_witness :
  ∃ t n rest, chsnprintf tmpbuf (replicate 64 0) 64 (text "%06d") [AInt (-42)] = Some (t ++ 0 :: rest, n) ∧
    Z.of_nat (length t) = n ∧ read_int t = -42.
Proof.
  apply (decimal_roundtrip tmpbuf (replicate 64 0) false true 6 (-42));
    [lia|reflexivity|lia|vm_compute; lia|rewrite length_replicate; lia].
Defined.

(** 3.125 in single precision. *)
Definition ex_float : spec_float := S754_finite false 13107200 (-22).

Lemma float_digits_witness :
  ∃ i f rest, chsnprintf tmpbuf (replicate 64 0) 64 (text "%.2f") [ADouble ex_float] =
      Some ((i ++ [46] ++ f) ++ 0 :: rest, Z.of_nat (length (i ++ [46] ++ f))) ∧
    Z.of_nat (length f) = 2 ∧ dvalue 10 0 (i ++ f) = 312.
Proof.
  destruct (float_digits tmpbuf (replicate 64 0) ex_float 2) as (i & f & rest & E & _ & Hf & _ & Hd).
  - split_and!; vm_compute; (reflexivity || exact I).
  - lia.
  - vm_compute. lia.
  - rewrite length_replicate. lia.
  - exists i, f, rest. split_and!; [exact E|exact Hf|exact Hd].
Defined.

(** ** What the documentation does not say *)

(** A [%] that ends the format is a directive whose character is the terminator:
    it is printed, and the scan goes on behind the string. *)
Lemma percent_at_end str : chsnprintf tmpbuf str 8 (text "100%") [] = None.
Proof. destruct str as [|? [|? [|? [|? ?]]]]; reflexivity. Qed.

(** Left alignment with zeros prints another number. *)
Lemma zeros_on_the_right :
  chsnprintf tmpbuf (replicate 8 1) 8 (text "%-05d") [AInt 12] = Some (text "12000" ++ [0; 1; 1], 5).
Proof. vm_compute. reflexivity. Qed.

(** A width argument goes through a variable of type char. *)
Lemma width_truncated :
  chsnprintf tmpbuf (replicate 8 1) 8 (text "%*d") [AInt 256; AInt 7] = Some (text "7" ++ [0; 1; 1; 1; 1; 1; 1], 1).
Proof. vm_compute. reflexivity. Qed.

(** ** A serial port *)

(** The port has the event source 9 with the listener 8, the input queue 4 of two
    bytes and the output queue 5 of eight. *)
Definition ex_sd : SerialDriver := mkSD 9 SD_READY 4 5.
Definition ex_outq (n w : nat) (bs : list Z) : ioqueue := mkIOQ 7 (8 - Z.of_nat n) (bs ++ replicate (8 - length bs) 0) w 0 (Some 1%positive).
Definition ex_serial (n : nat) (bs : list Z) : kst :=
  set_k_ioq {[4%positive := mkIOQ 6 0 [0; 0] 0 0 None; 5%positive := ex_outq n n bs]}
    (set_k_evl {[8%positive := mkEL 2 4 0 UINT32_MAX]} (set_k_evs {[9%positive := [8%positive]]}
      (mk 0 base_thds base_qs))).
Definition enable (f : positive) : M unit := mret ().

Lemma ex_out_rep n bs : (n < 8)%nat → length bs = n → ring_rep (bs ++ replicate (8 - length bs) 0) n 0 bs.
Proof.
  intros Hn Hl. split; rewrite ?length_app, ?length_replicate; try lia.
  - unfold wrap. destruct (Nat.leb_spec (length bs + (8 - length bs)) (0 + length bs)); lia.
  - intros i x Hi. pose proof (lookup_lt_Some _ _ _ Hi). unfold wrap.
    destruct (Nat.leb_spec (length bs + (8 - length bs)) (0 + i)); [lia|]. by rewrite lookup_app_l by lia.
Qed.

Lemma ex_oq n bs : (n < 8)%nat → length bs = n → oq_inv 5 bs (ex_serial n bs).
Proof.
  intros Hn Hl. eexists. split; [reflexivity|]. split; [by apply ex_out_rep|]. simpl. rewrite length_app, length_replicate. lia.
Qed.

Lemma ex_serial_ok n bs : (n < 8)%nat → length bs = n → serial_ok ex_sd [8%positive] 2 [] bs (ex_serial n bs).
Proof.
  intros Hn Hl. split.
  - by_check wfb_sound.
  - by_check evt_wfb_sound.
  - split_and!; [reflexivity|apply NoDup_singleton|]. intros elp ->%list_elem_of_singleton.
    exists (mkEL 2 4 0 UINT32_MAX). split; [reflexivity|]. vm_compute. eauto.
  - eexists. split; [reflexivity|]. split; [|reflexivity]. by apply (ring_init _ 2); [|lia].
  - eexists. split; reflexivity.
  - by apply ex_oq.
Qed.

Lemma serial_print_witness :
  ∃ s', chvprintf (H := serial_stream enable 0 ex_sd) tmpbuf (text "n=%-3u%c") ex_args (ex_serial 1 [62]) = Done 6 s' ∧
    oq_inv 5 (62 :: text "n=7  !") s'.
Proof.
  destruct (serial_print enable 0 ex_sd tmpbuf ex_fmt ex_args (text "n=7  !") (ex_serial 1 [62]) (ex_outq 1 1 [62]) [62]
    ex_renders ex_fmt_ok) as (s' & q' & E & _ & I & _).
  - vm_compute. lia.
  - vm_compute. congruence.
  - by_check userb_sound.
  - reflexivity.
  - apply ex_oq; [lia|reflexivity].
  - vm_compute. lia.
  - intros f s _. reflexivity.
  - rewrite ex_fmt_text in E. exists s'. split; [exact E|exact I].
Defined.

(** Three bytes received while the input queue has room for two, with the
    transmitter waiting for a byte. *)
Lemma usart_irq_witness :
  ∃ s', usart_irq_handler ex_sd USART_CR1_TXEIE USART_SR_RXNE [(65, USART_SR_RXNE); (66, USART_SR_RXNE); (67, USART_SR_TXE)] (ex_serial 1 [62])
      = Done (mkUO USART_CR1_TXEIE (Some 62) []) s' ∧
    iq_inv 4 [65; 66] s' ∧ oq_inv 5 [] s' ∧
    el_flags <$> k_evl s' !! 8%positive = Some (Z.lor CHN_INPUT_AVAILABLE SD_OVERRUN_ERROR).
Proof.
  destruct (usart_irq_handler_correct ex_sd [8%positive] 2 ltac:(discriminate) (ex_serial 1 [62]) USART_CR1_TXEIE USART_SR_RXNE
    [(65, USART_SR_RXNE); (66, USART_SR_RXNE); (67, USART_SR_TXE)] [] [62]) as (s' & E & S & F & _).
  - apply ex_serial_ok; [lia|reflexivity].
  - split; reflexivity.
  - vm_compute. tauto.
  - repeat constructor. lia.
  - exists s'. destruct S as [_ _ _ Hi _ Ho]. split_and!; [exact E|exact Hi|exact Ho|]. rewrite F. reflexivity.
Defined.

(** Two bytes; the transmission is complete when the second one is asked for, still
    is at the next interrupt, and is not any more at the last. *)
Lemma serial_transmit_witness :
  let both := Z.lor USART_SR_TXE USART_SR_TC in
  ∃ s', transmitter ex_sd [USART_SR_TXE; both; both; USART_SR_TXE; USART_SR_TXE] USART_CR1_TXEIE (ex_serial 2 [72; 105])
      = Done ([72; 105], USART_CR1_TCIE) s' ∧ oq_inv 5 [] s' ∧
    el_flags <$> k_evl s' !! 8%positive = Some (Z.lor CHN_OUTPUT_EMPTY CHN_TRANSMISSION_END).
Proof.
  intros both. assert (tx_status USART_SR_TXE ∧ tx_status both) as [Ht Hb] by (split_and!; split_and!; reflexivity).
  destruct (serial_transmit ex_sd [8%positive] 2 ltac:(discriminate) (ex_serial 2 [72; 105]) USART_CR1_TXEIE [] [72; 105]
    [USART_SR_TXE; both; both] USART_SR_TXE [USART_SR_TXE]) as (s' & E & S & F & _).
  - apply ex_serial_ok; [lia|reflexivity].
  - split; reflexivity.
  - reflexivity.
  - repeat constructor; lia.
  - repeat constructor; assumption.
  - simpl. lia.
  - repeat constructor.
  - reflexivity.
  - exists s'. split; [exact E|]. split; [apply (so_oq _ _ _ _ _ _ S)|]. rewrite F. reflexivity.
Defined.

(** A status with both TXE and TC, the output queue being empty: CR1 is written
    from the value read on entry, so the transmitter interrupt stays enabled and
    the event is signalled again by the next one. *)
Lemma txe_stays_enabled :
  let cr1 := USART_CR1_TXEIE in
  match usart_irq_handler ex_sd cr1 (Z.lor USART_SR_TXE USART_SR_TC) [] (ex_serial 0 []) with
  | Done out _ => has (uo_cr1 out) USART_CR1_TXEIE = true
  | _ => False
  end.
Proof. vm_compute. reflexivity. Qed.
