(* ===== verification/UsbExamples.v ===== *)
(** * Examples of the USB driver

    The theorems on the USB driver at concrete inputs. *)

From S2P Require Import Prelude Ring TimeMeas Kernel ThreadQueues Sys VTimers Sched Thd IOQueues UsbBase Usb Otg Ep0 Control Ep0Safe.
From S2P Require Import Checkers Examples.

(** ** An application and a driver *)

Definition ex_descriptor : list Z := seqZ 0 128.
Definition ex_slack (p : uptr) (off : nat) : Z := 170.
Definition ex_config : USBConfig := mkUC (Some 1%positive) 1 None None.

(** Its only descriptor is at address 3. *)
#[local] Instance ex_app : UsbApp := {|
  run_event f e := mret ();
  run_hook f := mret false;
  run_descriptor f t i l := mret (Some (mkUD 128 (PMem 3)));
  run_cb f := mret ();
  run_ep f n := mret ()
|}.

Definition ex_regs : otg_regs :=
  mkOTG 0 0 0 0 0 0 0 (replicate 15 0) 0 0 0 0 0 (replicate 16 (mkIE 0 0)) (replicate 16 (mkOE 0 0)) (replicate 16 []).
Definition ex_mem : gmap addr (list Z) := <[ep0setup_buffer := replicate 8 0]> (<[3%positive := ex_descriptor]> ∅).
Definition ex_stopped : usbdrv :=
  mkUSB USB_READY (Some ex_config) 0 0 (replicate 6 None) [] [] USB_EP0_WAITING_SETUP PNull 0 None (replicate 8 0) 0 0 0
    ex_regs fsparams 0 0 4%positive None (<[ep0_state := zero_epstate]> ∅) ex_mem.
Definition ex_isr : kst := set_k_isr 1 (mk 0 base_thds base_qs).

(** After a bus reset. *)
Definition ex_usb : usbdrv := match _usb_reset ex_stopped ex_isr with Done (_, u) _ => u | _ => ex_stopped end.
Definition ex_view : ep0view :=
  mkV zero_epstate (mkIE ep0_in_reset 0) (mkOE ep0_out_reset 0) [] 0 0 USB_EP0_WAITING_SETUP PNull 0 None (replicate 8 0) 0 0 0 USB_READY
    (Some ex_config) ex_mem (with_address 0 0) (rest_of ex_usb).

Lemma ex_slack_byte p i : byte (ex_slack p i).
Proof. by unfold byte, ex_slack. Qed.

Lemma ex_views : views ex_usb ex_view.
Proof. split; try (vm_compute; reflexivity); unfold otg_wf; split_and!; vm_compute; try reflexivity; try lia; try discriminate; intros H; discriminate H. Qed.

Lemma ex_idle : idle ex_view.
Proof. split; [reflexivity|reflexivity|split; reflexivity|]. by exists (replicate 8 0). Qed.

(** ** Transfers *)

(** A host that asks for 255 bytes of a descriptor of 128 bytes. *)
Lemma usb_get_descriptor_witness :
  ∃ ps u' s' v',
    control_read ex_slack 4 [128; USB_REQ_GET_DESCRIPTOR; 0; 1; 0; 0; 255; 0] ex_usb ex_isr = Done (ps, u') s' ∧
    host_collect 255 ps = (ex_descriptor, []) ∧ Forall (λ p, (length p ≤ 64)%nat) ps ∧ views u' v' ∧ idle v'.
Proof.
  destruct (usb_get_descriptor_correct ex_slack ex_slack_byte ex_usb ex_isr ex_view ex_config (mkUD 128 (PMem 3)) 3 ex_descriptor 0 1 0 0 255 0 4)
    as (ps & u' & s' & v' & H1 & H2 & H3 & H4 & H5 & _).
  - apply ex_views.
  - apply ex_idle.
  - split; reflexivity.
  - reflexivity.
  - reflexivity.
  - reflexivity.
  - reflexivity.
  - discriminate.
  - reflexivity.
  - reflexivity.
  - apply (bool_decide_unpack _). vm_compute. exact I.
  - apply (bool_decide_unpack _). vm_compute. exact I.
  - apply (bool_decide_unpack _). vm_compute. exact I.
  - apply (bool_decide_unpack _). vm_compute. exact I.
  - lia.
  - apply (bool_decide_unpack _). vm_compute. exact I.
  - exists ps, u', s', v'. by split_and!.
Defined.

(** The packets of this transfer. *)
Example get_descriptor_packets :
  match control_read ex_slack 4 [128; USB_REQ_GET_DESCRIPTOR; 0; 1; 0; 0; 255; 0] ex_usb ex_isr with
  | Done (ps, _) _ => ps = [seqZ 0 64; seqZ 64 64; []]
  | _ => False
  end.
Proof. vm_compute. reflexivity. Qed.

Lemma usb_set_address_witness :
  ∃ u' s' v', control_nodata ex_slack [0; USB_REQ_SET_ADDRESS; 77; 0; 0; 0; 0; 0] ex_usb ex_isr = Done ([[]], u') s' ∧
    views u' v' ∧ idle v' ∧ v_state v' = USB_SELECTED ∧ Z.shiftr (Z.land (v_dcfg v') DCFG_DAD_MASK) 4 = 77.
Proof.
  destruct (usb_set_address_correct ex_slack ex_slack_byte ex_usb ex_isr ex_view ex_config 77 0 0 0)
    as (u' & s' & v' & H1 & H2 & H3 & _ & H5 & _ & H7 & _).
  - apply ex_views.
  - apply ex_idle.
  - split; reflexivity.
  - reflexivity.
  - reflexivity.
  - intros e u s. reflexivity.
  - lia.
  - repeat (apply Forall_cons; split; [unfold byte; lia|]). apply Forall_nil_2.
  - exists u', s', v'. by split_and!.
Defined.

(** An application that initialises endpoint 1 when the device is configured. *)
Definition ex_ep1 : USBEndpointConfig := mkEPC 2 None (Some (EpUser 1)) (Some (EpUser 2)) 64 64 (Some 11%positive) (Some 12%positive) 1 None.
Definition ex_ep_app : UsbApp := {|
  run_event f e :=
    match e with
    | USB_EVENT_CONFIGURED => ulift chSysLockFromISR ;; usbInitEndpointI 1 ex_ep1 ;; ulift chSysUnlockFromISR
    | _ => mret ()
    end;
  run_hook f := mret false;
  run_descriptor f t i l := mret None;
  run_cb f := mret ();
  run_ep f n := mret ()
|}.

Lemma ex_configures bs : @configures ex_ep_app ex_config 1 0 bs (rest_of ex_usb).
Proof.
  intros v [] [] Hr. eapply vd_step; [apply vs_lock|].
  eapply vd_step; [apply vs_init_endpoint; [done|]|eapply vd_steps; [apply vs_unlock|split; by split]].
  rewrite Hr. by split; vm_compute; try lia.
Qed.

Lemma usb_configuration_witness :
  ∃ u' s' v',
    (sts ← @control_nodata ex_ep_app ex_slack [0; USB_REQ_SET_CONFIGURATION; 1; 0; 0; 0; 0; 0];
     ps ← @control_read ex_ep_app ex_slack 2 [128; USB_REQ_GET_CONFIGURATION; 0; 0; 0; 0; 1; 0];
     mret (sts, host_collect 1 ps)) ex_usb ex_isr = Done (([[]], ([1], [])), u') s' ∧
    views u' v' ∧ idle v' ∧ v_state v' = USB_ACTIVE.
Proof.
  destruct (@usb_configuration_roundtrip ex_ep_app ex_slack ex_slack_byte ex_usb ex_isr ex_view ex_config 1)
    as (u' & s' & v' & H1 & H2 & H3 & _ & _ & H6 & _).
  - apply ex_views.
  - apply ex_idle.
  - split; reflexivity.
  - reflexivity.
  - reflexivity.
  - apply ex_configures.
  - unfold byte. lia.
  - exists u', s', v'. by split_and!.
Defined.

(** Afterwards endpoint 1 is there. *)
Example configured_endpoint :
  match @control_nodata ex_ep_app ex_slack [0; USB_REQ_SET_CONFIGURATION; 1; 0; 0; 0; 0; 0] ex_usb ex_isr with
  | Done (_, u) _ => u_epc u !! 1%nat = Some (Some ex_ep1) ∧ u_pmnext u = u_pmnext ex_usb + 16
  | _ => False
  end.
Proof. vm_compute. split; reflexivity. Qed.

(** The host sets the same configuration again: the callback halts the system. *)
Example configured_twice :
  match (@control_nodata ex_ep_app ex_slack [0; USB_REQ_SET_CONFIGURATION; 1; 0; 0; 0; 0; 0] ;;
         @control_nodata ex_ep_app ex_slack [0; USB_REQ_SET_CONFIGURATION; 1; 0; 0; 0; 0; 0]) ex_usb ex_isr with
  | Halt reason _ => reason = "usbInitEndpointI"
  | _ => False
  end.
Proof. vm_compute. reflexivity. Qed.

(** A request of the vendor. *)
Lemma usb_request_refused_witness :
  ∃ u' s' v', host_setup [192; 1; 2; 3; 4; 5; 6; 7] ex_usb ex_isr = Done (tt, u') s' ∧ views u' v' ∧ idle v' ∧
    v_ep0state v' = USB_EP0_ERROR ∧ hasb (DIEPCTL (v_ri v')) DIEPCTL_STALL = true.
Proof.
  destruct (usb_request_refused ex_usb ex_isr ex_view ex_config [192; 1; 2; 3; 4; 5; 6; 7] 192 1)
    as (u' & s' & v' & H1 & H2 & H3 & H4 & H5 & _).
  - apply ex_views.
  - apply ex_idle.
  - split; reflexivity.
  - reflexivity.
  - reflexivity.
  - intros e u s. reflexivity.
  - repeat (apply Forall_cons; split; [unfold byte; lia|]). apply Forall_nil_2.
  - reflexivity.
  - reflexivity.
  - reflexivity.
  - left. discriminate.
  - exists u', s', v'. by split_and!.
Defined.

(** ** Sequences of events *)

(** An application whose requests hook takes up to 8 bytes from the host into the
    object at address 9, with the request SET_LINE_CODING of a CDC class. *)
Definition ex_class_app : UsbApp := {|
  run_event f e := mret ();
  run_hook f :=
    u ← uget id;
    if bool_decide (take 2 (u_setup u) = [33; 32]) then usbSetupTransfer (PMem 9) 8 None ;; mret true else mret false;
  run_descriptor f t i l := mret (Some (mkUD 128 (PMem 3)));
  run_cb f := mret ();
  run_ep f n := mret ()
|}.
Definition ex_bufs : gmap addr nat := {[9%positive := 8%nat]}.
Definition ex_class_config : USBConfig := mkUC (Some 1%positive) 1 (Some 2%positive) None.
Definition ex_class_driver : usbdrv :=
  set_u_mem (<[9%positive := replicate 8 0]> ex_mem) (set_u_config (Some ex_class_config) ex_stopped).

Lemma ex_class_app_ok : @app_ok ex_bufs ex_class_app.
Proof.
  split; intros.
  - by apply vd_ret.
  - by apply vd_ret.
  - apply vd_get. intros u Hu. cbn [id]. destruct (bool_decide _); [|apply vd_refuse].
    eapply vd_step; [apply vs_setup_transfer|]. apply vd_ret. split; [by split|].
    intros _ s0 _ _. right. destruct (H 9%positive 8%nat) as (b & Hb & Hl); [done|]. exists 9%positive, b. split_and!; [done|done|].
    rewrite Hl. done.
  - apply vd_ret. split; [done|]. intros d [= <-]. simpl. lia.
Qed.

Definition ex_events : list ep0_event :=
  [EvIn; EvSetup [128; 6; 0; 1; 0; 0; 255; 0]; EvIn; EvSetup [0; 0; 0; 0; 0; 0; 0; 0]; EvIn; EvIn; EvOut [1; 2; 3]; EvSetup [2; 1; 9; 0; 0; 0; 0; 0]; EvReset;
   EvSetup [33; 32; 0; 0; 0; 0; 7; 0]; EvOut [0; 194; 1; 0; 0; 0; 8]; EvIn].

Lemma usb_ep0_safe_witness :
  ∃ u' v' s', @ep0_run ex_class_app (EvReset :: ex_events) ex_class_driver ex_isr = Done (tt, u') s' ∧ views u' v' ∧ ep0_static ex_bufs v' ∧ isr_open s'.
Proof.
  destruct (@usb_ep0_safe ex_bufs ex_class_app ex_class_driver ex_isr ex_events) as (u' & v' & s' & H1 & H2 & H3 & _ & H5).
  - apply ex_class_app_ok.
  - split.
    + unfold otg_wf. split_and!; vm_compute; try reflexivity; try lia; intros H; discriminate H.
    + by eexists.
    + by eexists.
    + split; [reflexivity|]. repeat (apply Forall_cons; split; [unfold byte; lia|]). apply Forall_nil_2.
    + simpl. lia.
    + by exists (replicate 8 0).
    + intros a n Ha. unfold ex_bufs in Ha. apply lookup_singleton_Some in Ha as [<- <-]. by exists (replicate 8 0).
    + exists 0, 0, PNull, 0%nat, 0. split; [reflexivity|]. lia.
  - split; reflexivity.
  - exists u', v', s'. by split_and!.
Defined.

(** In this run the seven bytes of the last request reach the buffer. *)
Example ex_line_coding :
  match @ep0_run ex_class_app (EvReset :: ex_events) ex_class_driver ex_isr with
  | Done (_, u) _ => u_mem u !! 9%positive = Some [0; 194; 1; 0; 0; 0; 8; 0] ∧ u_ep0state u = USB_EP0_WAITING_SETUP
  | _ => False
  end.
Proof. vm_compute. split; reflexivity. Qed.

(** A GET_STATUS request with the direction to the device starts a reception into
    the status word instead of the transmission. *)
Example get_status_direction :
  match (host_setup [0; USB_REQ_GET_STATUS; 0; 0; 0; 0; 2; 0]) ex_usb ex_isr with
  | Done (_, u) _ => u_ep0state u = USB_EP0_RX ∧ es_mode <$> u_eps u !! ep0_state = Some (Linear PStatus 0)
  | _ => False
  end.
Proof. vm_compute. split; reflexivity. Qed.

(** ** Queues *)

(** Thread 3 waits on the queue; six bytes lie across the end of the buffer. *)
Definition ex_fifo_thds : gmap tid thread := <[3%positive := thr 50 CH_STATE_QUEUED (U_msg 0)]> base_thds.
Definition ex_fifo_qs : gmap qref (list tid) := <[QThq 7%positive := [3%positive]]> base_qs.
Definition ex_tx_queue : ioqueue := mkIOQ 7 2 [3; 4; 5; 6; 0; 0; 1; 2] 4 6 None.
Definition ex_rx_queue : ioqueue := mkIOQ 7 1 [0; 0; 0; 0; 0; 0; 9; 0] 7 6 None.
Definition ex_fifo (q : ioqueue) : kst := set_k_ioq {[5%positive := q]} (mk 0 ex_fifo_thds ex_fifo_qs).

Lemma ex_tx_rep : ring_rep (q_buffer ex_tx_queue) 4 6 [1; 2; 3; 4; 5; 6].
Proof. split; try (vm_compute; lia). intros i x Hi. do 6 (destruct i as [|i]; [by injection Hi as <-|]). discriminate. Qed.

Lemma ex_rx_rep : ring_rep (q_buffer ex_rx_queue) 7 6 [9].
Proof. split; try (vm_compute; lia). intros i x Hi. do 1 (destruct i as [|i]; [by injection Hi as <-|]). discriminate. Qed.

Lemma otg_write_queue_witness :
  ∃ ws s2, fifo_image 6 [1; 2; 3; 4; 5; 6] ws ∧ oq_inv 5 [] s2 ∧ qof s2 (QThq 7) = [] ∧
    otg_fifo_write_from_queue 5 6 (ex_fifo ex_tx_queue) =
      rbind (chSchRescheduleS s2) (λ _ x, rbind (chSysUnlock x) (λ _ y, Done ws y)).
Proof.
  destruct (otg_write_queue_correct (ex_fifo ex_tx_queue) 5 ex_tx_queue [1; 2; 3; 4; 5; 6] 6) as (ws & s2 & H1 & _ & _ & H4 & H5 & _ & H7 & _).
  - by_check userb_sound.
  - reflexivity.
  - exists ex_tx_queue. split; [reflexivity|]. split; [apply ex_tx_rep|reflexivity].
  - repeat (apply Forall_cons; split; [unfold byte; lia|]). apply Forall_nil_2.
  - simpl. lia.
  - exists ws, s2. by split_and!.
Defined.

(** Six bytes arrive in two words. *)
Lemma otg_read_queue_witness :
  ∃ s2, iq_inv 5 [9; 1; 2; 3; 4; 5; 6] s2 ∧ qof s2 (QThq 7) = [] ∧
    otg_fifo_read_to_queue 5 6 [67305985; 1541] (ex_fifo ex_rx_queue) =
      rbind (chSchRescheduleS s2) (λ _ x, rbind (chSysUnlock x) (λ _ y, Done [] y)).
Proof.
  destruct (otg_read_queue_correct (ex_fifo ex_rx_queue) 5 ex_rx_queue [9] 6 [67305985; 1541]) as (s2 & _ & _ & H3 & H4 & _ & H6 & _).
  - by_check userb_sound.
  - reflexivity.
  - exists ex_rx_queue. split; [reflexivity|]. split; [apply ex_rx_rep|reflexivity].
  - simpl. lia.
  - vm_compute. lia.
  - exists s2. by split_and!.
Defined.

(** The host gives a transfer up: its next request is never answered. *)
Example aborted_transfer :
  match (host_setup [128; USB_REQ_GET_DESCRIPTOR; 0; 1; 0; 0; 255; 0] ;; p ← (otg_txfifo_handler ex_slack [16] 0 ;; host_in);
         host_setup [128; USB_REQ_GET_DESCRIPTOR; 0; 1; 0; 0; 8; 0] ;; host_in_stage ex_slack 4) ex_usb ex_isr with
  | Done (ps, u) _ => ps = [] ∧ u_ep0state u = USB_EP0_TX
  | _ => False
  end.
Proof. vm_compute. split; reflexivity. Qed.
