(* ===== verification/NilExamples.v ===== *)
(** * The Nil kernel on concrete states

    An application of two threads, the witnesses of the theorems of
    NilTimer.v and NilExec.v, and what the kernel does where its callers or its
    arithmetic go astray. *)

From S2P Require Import Prelude Nil NilInv NilTimer NilExec.

(** The conditions of calls and interrupts, on concrete states. *)
#[local] Instance sleep_ok_dec `{NilCfg} t s : Decision (sleep_ok t s).
Proof. unfold sleep_ok. apply _. Defined.
#[local] Instance wait_ok_dec `{NilCfg} t s : Decision (wait_ok t s).
Proof. unfold wait_ok. apply _. Defined.
#[local] Instance counts_dec (s : nil_system) sp : Decision (∃ c, sems s !! sp = Some c ∧ c < INT32_MAX).
Proof.
  destruct (sems s !! sp) as [c|] eqn:E; [|right; naive_solver]. destruct (decide (c < INT32_MAX)); [left; eauto|right; naive_solver].
Defined.
#[local] Instance call_ok_dec `{NilCfg} s c : Decision (call_ok s c).
Proof. destruct c; simpl; unfold msg_ok; apply _. Defined.
#[local] Instance irq_ok_dec `{NilCfg} s i : Decision (irq_ok s i).
Proof. destruct i; simpl; unfold msg_ok; apply _. Defined.

(** Two threads, a 16-bit timer: tick-less and with a periodic tick. *)
Section Tickless.
#[local] Instance tickless : NilCfg.
Proof. refine {| NIL_CFG_NUM_THREADS := 2; NIL_CFG_ST_TIMEDELTA := 2; NIL_CFG_ST_RESOLUTION := 16 |}; lia. Defined.

Definition state_of {A} (r : nres A) : option nil_system := match r with NDone _ s | NSwitch s _ => Some s | _ => None end.
Definition halted {A} (r : nres A) : option string := match r with NHalt m => Some m | _ => None end.

(** A semaphore at 0x100, a reference at 0x200. *)
Definition ex_sems : gmap Z Z := {[ 256 := 0 ]}.
Definition ex_refs : gmap Z (option nat) := {[ 512 := None ]}.
Definition ex_prog (t : nat) : list call := match t with 0%nat => [NSleep 10] | 1%nat => [NWait 256 20; NSignal 256] | _ => [] end.

Lemma ex_static : static_objs ex_sems ex_refs.
Proof.
  unfold ex_sems, ex_refs. split.
  - intros a c [_ <-]%lookup_singleton_Some. unfold INT32_MAX. lia.
  - by intros a r [_ <-]%lookup_singleton_Some.
  - intros a [c [<- _]%lookup_singleton_Some]. reflexivity.
  - intros msg. rewrite !elem_of_cons. by intros [->|[->|[->|[]%elem_of_nil]]].
Qed.

Lemma ex_cnt : 0 ≤ 5 < 2 ^ NIL_CFG_ST_RESOLUTION.
Proof. simpl. lia. Qed.

(** The states of a run: the first thread sleeps, the second waits, the idle thread
    runs, the timer interrupts. *)
Definition next_ctx (g : cfg) : cfg :=
  match c_res g with
  | NSwitch s k =>
      let P' := <[c_me g := mkCtx k (c_calls g)]> (c_pool g) in
      let x := resume ex_prog P' (current s) in
      mkCfg (current s) (delete (current s) P') (x_calls x) (x_cont x s)
  | NDone _ s => match c_calls g with c :: cs => mkCfg (c_me g) (c_pool g) cs (exec c s) | [] => mkCfg (c_me g) (c_pool g) [] (exec_irq NITimer s) end
  | _ => g
  end.

Definition ex_boot : cfg := boot ex_prog (reset_state ex_sems ex_refs 5).
Definition ex_run (n : nat) : cfg := Nat.iter n next_ctx ex_boot.

(** Where the run is: the thread, and whether a call is over. *)
Definition ex_trace (g : cfg) : Z * bool * option Z :=
  (Z.of_nat (c_me g), match c_res g with NDone _ _ => true | _ => false end, alarm <$> state_of (c_res g)).
Lemma ex_run_trace : map ex_trace (map ex_run (seq 0 8)) =
  [(2, false, Some 0); (0, true, Some 0); (0, false, Some 15); (1, true, Some 15); (1, false, Some 15);
   (2, true, Some 15); (2, false, Some 25); (0, true, Some 25)].
Proof. vm_compute. reflexivity. Qed.

Definition may_go (g : cfg) : bool :=
  match c_res g with
  | NSwitch _ _ => true
  | NDone _ s => match c_calls g with c :: _ => bool_decide (call_ok s c) | [] => bool_decide (irq_ok s NITimer) end
  | _ => false
  end.
Lemma next_ctx_step g : may_go g = true → step ex_prog g (next_ctx g).
Proof.
  destruct g as [me P cs [[] s|m| |s k]]; unfold may_go, next_ctx; simpl; try done.
  - destruct cs as [|c cs]; intros Hc%bool_decide_eq_true; [by apply step_irq|by apply step_call].
  - intros _. apply step_switch.
Qed.
Lemma ex_reach n : forallb may_go (map ex_run (seq 0 n)) = true → rtc (step ex_prog) ex_boot (ex_run n).
Proof.
  induction n as [|n IH]; [done|]. rewrite seq_S, map_app, forallb_app. intros [Hn Hg]%andb_true_iff. simpl in Hg.
  rewrite andb_true_r in Hg. eapply rtc_r; [by apply IH|]. by apply next_ctx_step.
Qed.

(** The first thread runs again at its deadline. *)
Lemma nil_application_witness : ∃ s, rtc (step ex_prog) ex_boot (ex_run 7) ∧ c_res (ex_run 7) = NDone tt s ∧ U s ∧ current s = 0%nat.
Proof.
  assert (rtc (step ex_prog) ex_boot (ex_run 7)) as Hr by (apply ex_reach; vm_compute; reflexivity).
  destruct (nil_application_safe ex_prog ex_sems ex_refs 5 (ex_run 7) ex_static ex_cnt Hr) as [(s & E & HU & Hc)|(s & k & E & _)].
  - exists s. split_and!; [exact Hr|exact E|exact HU|]. rewrite Hc. vm_compute. reflexivity.
  - exfalso. apply (f_equal (λ r, match r with NDone _ _ => true | _ => false end)) in E. vm_compute in E. discriminate E.
Defined.

Definition st_at (n : nat) : nil_system := default (reset_state ex_sems ex_refs 5) (state_of (c_res (ex_run n))).

Lemma st_at_U n :
  forallb may_go (map ex_run (seq 0 n)) = true → match c_res (ex_run n) with NDone _ _ => true | _ => false end = true → U (st_at n).
Proof.
  intros Hg%ex_reach Hd. assert (cfg_safe (dom ex_sems) (ex_run n)) as [Hr _].
  { apply (nil_reachable_safe (dom ex_sems)) with (g := ex_boot) (prog := ex_prog); [|done|apply boot_safe; [apply ex_static|apply ex_cnt]].
    intros msg Hm. apply not_elem_of_dom. by apply (so_msg _ _ ex_static). }
  unfold st_at. destruct (c_res (ex_run n)); try done. apply Hr.
Qed.

(** The idle thread runs, the two others wait until 15 and 25. *)
Lemma timer_handler_witness : ∃ s', chSysTimerHandlerI (set_locked true (st_at 5)) = NDone tt s' ∧ C s' ∧ deadline s' <$> threads s' !! 1%nat = Some 25.
Proof.
  destruct (nil_timer_handler_correct (set_locked true (st_at 5))) as (s' & E & HC & Hb & Hth & _).
  - apply C_locked. apply st_at_U; vm_compute; reflexivity.
  - reflexivity.
  - intros _. vm_compute. reflexivity.
  - vm_compute. reflexivity.
  - exists s'. split; [exact E|]. split; [exact HC|].
    destruct (Hth 1%nat (mkThread NIL_STATE_WTSEM 256 25 0)) as (th' & E1 & _ & _ & H3); [vm_compute; reflexivity|].
    rewrite E1. simpl. f_equal. destruct H3 as (_ & _ & ->); [vm_compute; discriminate|vm_compute; discriminate|vm_compute; reflexivity].
Defined.

Lemma sleep_deadline_witness : ∃ s' k th', chThdSleep 10 (st_at 1) = NSwitch s' k ∧ K s' ∧ threads s' !! 0%nat = Some th' ∧ deadline s' th' = 15.
Proof.
  destruct (nil_sleep_deadline (st_at 1) 10) as (s' & k & th & th' & E & HK & Eth & El & Hst & Hnz & Hd & _).
  - apply st_at_U; vm_compute; reflexivity.
  - vm_compute. discriminate.
  - apply (bool_decide_unpack _). vm_compute. exact I.
  - discriminate.
  - exists s', k, th'. split; [exact E|]. split; [exact HK|]. split; [|rewrite Hd; vm_compute; reflexivity].
    rewrite El. vm_compute. reflexivity.
Defined.

Lemma nil_signal_witness : ∃ s' k, chSemSignal 256 (st_at 5) = NSwitch s' k ∧ K s' ∧ current s' = 1%nat.
Proof.
  destruct (nil_signal_correct (st_at 5) 256 (-1)) as [[Hc _]|(_ & i & th & s' & Hfw & _ & _ & _ & _ & Hs)].
  - apply st_at_U; vm_compute; reflexivity.
  - vm_compute. reflexivity.
  - unfold INT32_MAX. lia.
  - vm_compute. reflexivity.
  - lia.
  - assert (i = 1%nat) as ->.
    { destruct Hfw as (E & Hw & _). destruct i as [|[|[|i]]]; [..|discriminate E]; vm_compute in E; injection E as <-; vm_compute in Hw; done. }
    change (1 <? current (st_at 5))%nat with (1 <? 2)%nat in Hs. destruct Hs as (HK & Hc & k & E & _). by exists s', k.
Defined.

(** ** Beyond what the kernel expects *)

(** Thread 0 has a deadline at 60000 and the time is 50000: a sleep of 20000
    ticks wraps, 4464 lies between the last event and the alarm, and the alarm is
    moved 10000 ticks behind the deadline of thread 0. *)
Definition at_time (t : Z) (s : nil_system) : nil_system := set_counter t s.
Definition ex_two (t : Z) : option nil_system :=
  s1 ← state_of (chThdSleep 60000 (set_locked false (set_counter 0 (st_at 1))));
  state_of (chThdSleep t (set_locked false (set_counter 50000 s1))).
Lemma deadline_missed :
  (λ s, (deadline s <$> take 2 (threads s), alarm s, st (60000 - counter s), st (alarm s - counter s))) <$> ex_two 20000 =
  Some ([60000; 4464], 4464, 10000, 20000).
Proof. vm_compute. reflexivity. Qed.

(** A deadline equal to the time of the last event: the timeout is 0 and the thread
    is never woken, although the alarm has been started. *)
Definition ex_lost : option nil_system := state_of (chThdSleep 10 (set_counter (2 ^ 16 - 10) (st_at 1))).
Lemma deadline_lost :
  (λ s, (threads s !! 0%nat, alarm_active s, lasttime s =? nexttime s)) <$> ex_lost = Some (Some (mkThread NIL_STATE_SLEEPING 0 0 0), true, true) ∧
  (s ← ex_lost; s' ← state_of (chSysTimerHandlerI s); threads s' !! 0%nat) = Some (mkThread NIL_STATE_SLEEPING 0 0 0) ∧
  (s ← ex_lost; halted (chThdSleep 10 s)) = Some "stStartAlarm".
Proof. vm_compute. done. Qed.

(** A time that is now is an infinite timeout. *)
Lemma sleep_until_now :
  (λ s, (threads s !! 0%nat, alarm_active s)) <$> state_of (chThdSleepUntil 5 (st_at 1)) =
  Some (Some (mkThread NIL_STATE_SLEEPING 0 0 0), false).
Proof. vm_compute. reflexivity. Qed.

(** The S-class wait for events and the OSAL's S-class queue return with the kernel
    unlocked. *)
Lemma returns_unlocked :
  locked <$> state_of (chEvtWaitAnyTimeoutS 1 TIME_IMMEDIATE (set_locked true (st_at 1))) = Some false ∧
  locked <$> state_of (osalThreadEnqueueTimeoutS 256 TIME_IMMEDIATE (set_locked true (st_at 1))) = Some false.
Proof. vm_compute. done. Qed.

(** A thread that waits for events with a mask equal to the address of a
    semaphore is taken for a waiter of the semaphore. *)
Definition ex_mask : option nil_system :=
  s1 ← state_of (chEvtWaitAnyTimeout 256 TIME_INFINITE (st_at 1));
  state_of (chSemWaitTimeout 256 TIME_INFINITE (set_locked false s1)).
Lemma mask_taken_for_waiter : (s ← ex_mask; halted (chSemSignal 256 (set_locked false s))) = Some "chSemSignalI".
Proof. vm_compute. reflexivity. Qed.
End Tickless.
