(* ===== verification/Rtc.v ===== *)
(** * Date and time of the RTC driver (os/hal/src/rtc.c, os/hal/include/rtc.h)

    The conversions between the time stamps of the driver, the C library's
    broken-down time and the time of the FAT file system. Bit fields keep their
    width, signed arithmetic is undefined beyond 32 bits. *)

From S2P Require Import Prelude.

(** ** Data *)

(** The bit fields of RTCDateTime. *)
Record RTCDateTime := mkDateTime { year : Z; month : Z; dstflag : Z; dayofweek : Z; day : Z; millisecond : Z }.
Definition bits (w x : Z) : Prop := 0 ≤ x < 2 ^ w.
Record fields_ok (t : RTCDateTime) : Prop := {
  f_year : bits 8 (year t); f_month : bits 4 (month t); f_dst : bits 1 (dstflag t);
  f_dow : bits 3 (dayofweek t); f_day : bits 5 (day t); f_ms : bits 27 (millisecond t)
}.
(** An assignment to a bit field keeps its low bits. *)
Definition to_field (w x : Z) : Z := x `mod` 2 ^ w.

Record tm := mkTm { tm_sec : Z; tm_min : Z; tm_hour : Z; tm_mday : Z; tm_mon : Z; tm_year : Z; tm_wday : Z; tm_yday : Z; tm_isdst : Z }.

Definition month_len : list Z := [31; 30; 31; 30; 31; 30; 31; 31; 30; 31; 30; 31].

(** [int] arithmetic. *)
Definition int (x : Z) : option Z := if (INT32_MIN <=? x) && (x <=? INT32_MAX) then Some x else None.

(** ** Conversions *)

(** The fields tm_wday and tm_yday of [timp] are left as they are; the result is
    the structure and the milliseconds. *)
Definition rtcConvertDateTimeToStructTm (timespec : RTCDateTime) (timp : tm) : tm * Z :=
  let tmp := millisecond timespec / 1000 in
  let sec := tmp `mod` 60 in
  let tmp := tmp - sec in
  let min := (tmp `mod` 3600) / 60 in
  let tmp := tmp - min * 60 in
  (mkTm sec min (tmp / 3600) (day timespec) (month timespec - 1) (year timespec + (1980 - 1900))
     (tm_wday timp) (tm_yday timp) (dstflag timespec),
   millisecond timespec `mod` 1000).

Definition rtcConvertStructTmToDateTime (timp : tm) (tv_msec : Z) : option RTCDateTime :=
  h ← int (tm_hour timp * 3600);
  m ← int (tm_min timp * 60);
  hm ← int (h + m);
  hms ← int (hm + tm_sec timp);
  ms ← int (hms * 1000);
  Some (mkDateTime
    (to_field 8 (u32 (u32 (tm_year timp) - (1980 - 1900))))
    (to_field 4 (u32 (u32 (tm_mon timp) + 1)))
    (if tm_isdst timp =? -1 then 0 else to_field 1 (u32 (tm_isdst timp)))
    (to_field 3 (u32 (u32 (tm_wday timp) + 1)))
    (to_field 5 (u32 (tm_mday timp)))
    (to_field 27 (u32 (tv_msec + u32 ms)))).

(** The correction of the hour for the daylight saving time. *)
Definition fat_dst (dstflag hour day month : Z) : option (Z * Z * Z) :=
  if dstflag =? 1 then
    let hour := u32 (hour + 1) in
    if hour =? 24 then
      let day := u32 (day + 1) in
      len ← month_len !! Z.to_nat (u32 (month - 1));
      if len <? day then Some (0, 1, u32 (month + 1)) else Some (0, day, month)
    else Some (hour, day, month)
  else Some (hour, day, month).

Definition rtcConvertDateTimeToFAT (timespec : RTCDateTime) : option Z :=
  let tmp := millisecond timespec / 1000 in
  let sec := tmp `mod` 60 in
  let min := u32 (tmp - sec) `mod` 3600 in
  let hour := u32 (u32 (tmp - sec) - u32 (min * 60)) / 3600 in
  '(hour, day, month) ← fat_dst (dstflag timespec) hour (day timespec) (month timespec);
  Some (Z.lor (Z.lor (Z.lor (Z.lor (Z.lor (Z.shiftr sec 1) (u32 (Z.shiftl min 5))) (u32 (Z.shiftl hour 11)))
    (u32 (Z.shiftl day 16))) (u32 (Z.shiftl month 21))) (u32 (Z.shiftl (year timespec) 25))).

(** ** What they promise *)

Definition ms_per_day : Z := 86400000.

(** A time stamp of an existing day. *)
Record valid (t : RTCDateTime) : Prop := {
  v_fields : fields_ok t;
  v_month : 1 ≤ month t ≤ 12;
  v_day : 1 ≤ day t ≤ 31;
  v_dow : 1 ≤ dayofweek t ≤ 7;
  v_ms : millisecond t < ms_per_day
}.

(** The time of the day. *)
Definition seconds (t : RTCDateTime) : Z := millisecond t / 1000.
Definition hour_of (t : RTCDateTime) : Z := seconds t / 3600.
Definition minute_of (t : RTCDateTime) : Z := (seconds t / 60) `mod` 60.
Definition second_of (t : RTCDateTime) : Z := seconds t `mod` 60.

Lemma to_field_bits w x : 0 ≤ w → bits w (to_field w x).
Proof. intros Hw. apply Z.mod_pos_bound. lia. Qed.
Lemma to_field_id w x : bits w x → to_field w x = x.
Proof. apply Z.mod_small. Qed.
Lemma int_id x : is_s32 x → int x = Some x.
Proof. intros [Hl Hh]. unfold int. by rewrite (proj2 (Z.leb_le _ _) Hl), (proj2 (Z.leb_le _ _) Hh). Qed.

Lemma hms_split t : 0 ≤ t →
  let sec := t `mod` 60 in let min := ((t - sec) `mod` 3600) / 60 in
  min = (t / 60) `mod` 60 ∧ (t - sec - min * 60) / 3600 = t / 3600 ∧ t = t / 3600 * 3600 + min * 60 + sec.
Proof.
  intros Ht sec min. pose proof (Z.div_mod t 60). pose proof (Z.mod_pos_bound t 60).
  assert (t - sec = 60 * (t / 60)) as E1 by (unfold sec; lia).
  assert (min = (t / 60) `mod` 60) as E2.
  { unfold min. rewrite E1. change 3600 with (60 * 60). rewrite Zmult_mod_distr_l. rewrite Z.mul_comm. by apply Z.div_mul. }
  assert (t / 3600 = t / 60 / 60) as E3 by (rewrite Z.div_div by lia; done).
  pose proof (Z.div_mod (t / 60) 60). split; [done|]. rewrite E1, E2, E3. split.
  - replace (60 * (t / 60) - (t / 60) `mod` 60 * 60) with (t / 60 / 60 * 3600) by lia. by apply Z.div_mul.
  - unfold sec. lia.
Qed.

Lemma to_structtm_day t timp :
  valid t → let '(x, ms) := rtcConvertDateTimeToStructTm t timp in
  0 ≤ tm_sec x < 60 ∧ 0 ≤ tm_min x < 60 ∧ 0 ≤ tm_hour x < 24 ∧ 0 ≤ ms < 1000 ∧
  millisecond t = ((tm_hour x * 60 + tm_min x) * 60 + tm_sec x) * 1000 + ms ∧
  tm_sec x = second_of t ∧ tm_min x = minute_of t ∧ tm_hour x = hour_of t.
Proof.
  intros [[_ _ _ _ _ [Hl _]] _ _ _ Hms]. unfold ms_per_day in Hms. simpl.
  destruct (hms_split (millisecond t / 1000)) as (E1 & E2 & E3); [by apply Z.div_pos|].
  pose proof (Z.div_mod (millisecond t) 1000). pose proof (Z.mod_pos_bound (millisecond t) 1000).
  pose proof (Z.mod_pos_bound (millisecond t / 1000) 60).
  assert (0 ≤ minute_of t < 60) as Hm by (by apply Z.mod_pos_bound). unfold hour_of, minute_of, second_of, seconds in *.
  rewrite E1, E2 in *. assert (millisecond t / 1000 < 86400) by (apply Z.div_lt_upper_bound; lia).
  assert (0 ≤ millisecond t / 1000) by (by apply Z.div_pos).
  assert (0 ≤ millisecond t / 1000 / 3600) by (by apply Z.div_pos).
  assert (millisecond t / 1000 / 3600 < 24) by (apply Z.div_lt_upper_bound; lia).
  split_and!; done || lia.
Qed.

(** C38.  Round trip of a time stamp through the broken-down time: for every date
    and time of a day the structure holds the hour, minute and second of that time,
    and converting it back gives the same time stamp, except for the day of the
    week, which rtcConvertDateTimeToStructTm does not write: it is one more than the
    number [tm_wday] that was in the structure (1 for Sunday to 7 for Saturday),
    which is not the encoding rtc.h gives for the field (1 for Monday to 7 for
    Sunday). *)
Theorem rtc_structtm_roundtrip t timp :
  valid t → 0 ≤ tm_wday timp ≤ 6 →
  let '(x, ms) := rtcConvertDateTimeToStructTm t timp in
  tm_sec x = second_of t ∧ tm_min x = minute_of t ∧ tm_hour x = hour_of t ∧
  rtcConvertStructTmToDateTime x ms = Some (mkDateTime (year t) (month t) (dstflag t) (tm_wday timp + 1) (day t) (millisecond t)).
Proof.
  intros Hv Hw. pose proof (to_structtm_day t timp Hv) as Hd. destruct (rtcConvertDateTimeToStructTm t timp) as [x ms] eqn:E.
  destruct Hd as (Hs & Hm & Hh & Hms & Et & ? & ? & ?). split_and!; try done.
  destruct Hv as [[Hfy Hfm Hfd Hfw Hfday Hfms] Hmo Hda _ _]. unfold rtcConvertDateTimeToStructTm in E.
  unfold rtcConvertStructTmToDateTime. unfold bits in *.
  repeat (rewrite int_id by (unfold is_s32, INT32_MIN, INT32_MAX; lia); simpl).
  injection E as E _. apply (f_equal (λ x, (tm_year x, tm_mon x, tm_isdst x, tm_wday x, tm_mday x))) in E.
  simpl in E. injection E as Ey Emo Ed Ew Eda. rewrite <-Ey, <-Emo, <-Ed, <-Ew, <-Eda. clear Ey Emo Ed Ew Eda.
  assert (∀ y, 0 ≤ y < 2 ^ 32 → u32 y = y) as Hu by (intros y Hy; by apply Z.mod_small).
  rewrite (proj2 (Z.eqb_neq (dstflag t) (-1))) by lia.
  rewrite (Hu (year t + _)), (Hu (month t - 1)), (Hu (dstflag t)), (Hu (tm_wday timp)), (Hu (day t)) by lia.
  rewrite (Hu (_ * 1000)) by lia. rewrite !Hu by lia. rewrite !to_field_id by (unfold bits; lia).
  f_equal. f_equal; lia.
Qed.

(** The broken-down times of the C library the driver has a time stamp for: 1980
    to 2235, no leap second. *)
Record tm_valid (x : tm) : Prop := {
  x_sec : 0 ≤ tm_sec x < 60; x_min : 0 ≤ tm_min x < 60; x_hour : 0 ≤ tm_hour x < 24;
  x_mday : 1 ≤ tm_mday x ≤ 31; x_mon : 0 ≤ tm_mon x ≤ 11; x_year : 80 ≤ tm_year x ≤ 335;
  x_wday : 0 ≤ tm_wday x ≤ 6; x_isdst : -1 ≤ tm_isdst x ≤ 1
}.

Lemma of_structtm x ms :
  tm_valid x → 0 ≤ ms < 1000 →
  rtcConvertStructTmToDateTime x ms =
    Some (mkDateTime (tm_year x - 80) (tm_mon x + 1) (if tm_isdst x =? -1 then 0 else tm_isdst x) (tm_wday x + 1) (tm_mday x)
            (((tm_hour x * 60 + tm_min x) * 60 + tm_sec x) * 1000 + ms)).
Proof.
  intros [] Hms. unfold rtcConvertStructTmToDateTime.
  repeat (rewrite int_id by (unfold is_s32, INT32_MIN, INT32_MAX; lia); simpl).
  assert (∀ y, 0 ≤ y < 2 ^ 32 → u32 y = y) as Hu by (intros y Hy; by apply Z.mod_small).
  rewrite (Hu (tm_year x)), (Hu (tm_mon x)), (Hu (tm_wday x)), (Hu (tm_mday x)), (Hu (_ * 1000)) by lia.
  rewrite !(Hu (_ - _)), !(Hu (_ + _)) by lia.
  rewrite (to_field_id 8), (to_field_id 4), (to_field_id 3), (to_field_id 5), (to_field_id 27) by (unfold bits; lia).
  destruct (Z.eqb_spec (tm_isdst x) (-1)).
  - do 2 f_equal; lia.
  - rewrite (Hu (tm_isdst x)), to_field_id by (unfold bits; lia). do 2 f_equal; lia.
Qed.

(** C39.  Every broken-down time from 1980 to 2235 has a time stamp: for fields in
    the ranges of the C library (no leap second, tm_isdst -1, 0 or 1) and
    milliseconds below 1000 the conversion overflows nowhere, no bit field of the
    result cuts its value off, the result is the date counted from 1980 with months
    from 1, the time of the day in milliseconds and no daylight saving time when
    the structure does not know, a valid time stamp, and converting it back gives
    the date, the time and the milliseconds of the structure again. *)
Theorem rtcConvertStructTmToDateTime_correct x ms :
  tm_valid x → 0 ≤ ms < 1000 →
  ∃ t, rtcConvertStructTmToDateTime x ms = Some t ∧ valid t ∧
    year t = tm_year x - 80 ∧ month t = tm_mon x + 1 ∧ day t = tm_mday x ∧ dayofweek t = tm_wday x + 1 ∧
    dstflag t = Z.max 0 (tm_isdst x) ∧
    millisecond t = ((tm_hour x * 60 + tm_min x) * 60 + tm_sec x) * 1000 + ms ∧
    rtcConvertDateTimeToStructTm t x =
      (mkTm (tm_sec x) (tm_min x) (tm_hour x) (tm_mday x) (tm_mon x) (tm_year x) (tm_wday x) (tm_yday x) (Z.max 0 (tm_isdst x)), ms).
Proof.
  intros Hx Hms. eexists. split; [by apply of_structtm|]. destruct Hx.
  replace (if tm_isdst x =? -1 then 0 else tm_isdst x) with (Z.max 0 (tm_isdst x)) by (destruct (Z.eqb_spec (tm_isdst x) (-1)); lia).
  set (sod := (tm_hour x * 60 + tm_min x) * 60 + tm_sec x). assert (0 ≤ sod < 86400) by (subst sod; lia).
  split; [|split_and!; [done..|]].
  - split; [split|..]; unfold bits, ms_per_day; cbn; lia.
  - unfold rtcConvertDateTimeToStructTm. cbn [millisecond year month day dstflag].
    rewrite (Z.div_add_l sod 1000 ms), (Z.div_small ms) by lia. rewrite (Z.add_comm (sod * 1000)), Z_mod_plus_full, (Z.mod_small ms) by lia.
    rewrite Z.add_0_r. destruct (hms_split sod ltac:(lia)) as (E1 & E2 & _).
    assert (sod `mod` 60 = tm_sec x) as Es by (subst sod; rewrite Z.add_comm, Z_mod_plus_full; apply Z.mod_small; lia).
    assert (sod / 60 = tm_hour x * 60 + tm_min x) as Em by (subst sod; rewrite Z.div_add_l, Z.div_small by lia; lia).
    assert (sod / 3600 = tm_hour x) as Eh.
    { change 3600 with (60 * 60). rewrite <-Z.div_div, Em, Z.div_add_l, Z.div_small by lia. lia. }
    rewrite E2, E1, Es, Eh, Em. rewrite (Z.add_comm (tm_hour x * 60)), Z_mod_plus_full, (Z.mod_small (tm_min x)) by lia.
    do 2 f_equal; lia.
Qed.

(** *** The FAT time *)

(** The date and time of the FAT file system: two seconds, minutes, hours, days,
    months and years, from the low bits up. *)
Definition fat_time (t : RTCDateTime) : Z :=
  second_of t / 2 + minute_of t * 2 ^ 5 + hour_of t * 2 ^ 11 + day t * 2 ^ 16 + month t * 2 ^ 21 + year t * 2 ^ 25.

Lemma time_bounds t : valid t → 0 ≤ second_of t < 60 ∧ 0 ≤ minute_of t < 60 ∧ 0 ≤ hour_of t < 24 ∧ seconds t = hour_of t * 3600 + minute_of t * 60 + second_of t.
Proof.
  intros Hv. pose proof (to_structtm_day t (mkTm 0 0 0 0 0 0 0 0 0) Hv) as Hd.
  destruct (rtcConvertDateTimeToStructTm t _) as [x ms] eqn:E. destruct Hd as (Hs & Hm & Hh & _ & _ & <- & <- & <-). split_and!; try lia.
  unfold rtcConvertDateTimeToStructTm in E. injection E as <- _. cbn [tm_sec tm_min tm_hour].
  destruct Hv as [[_ _ _ _ _ [Hl _]] _ _ _ _]. destruct (hms_split (millisecond t / 1000)) as (E1 & E2 & E3); [by apply Z.div_pos|].
  unfold seconds. rewrite E2. exact E3.
Qed.

(** The minutes and the hour of the code. *)
Lemma fat_hour t :
  valid t → let tmp := seconds t in let min := u32 (tmp - tmp `mod` 60) `mod` 3600 in
  min = minute_of t * 60 ∧ (minute_of t = 0 → u32 (u32 (tmp - tmp `mod` 60) - u32 (min * 60)) / 3600 = hour_of t).
Proof.
  intros Hv tmp min. destruct (time_bounds t Hv) as (Hs & Hm & Hh & E). fold tmp in E.
  assert (tmp - tmp `mod` 60 = hour_of t * 3600 + minute_of t * 60) as E1 by (change (tmp `mod` 60) with (second_of t); lia).
  assert (u32 (tmp - tmp `mod` 60) = hour_of t * 3600 + minute_of t * 60) as E2 by (rewrite E1; apply u32_small; unfold is_u32; lia).
  assert (min = minute_of t * 60) as E3.
  { unfold min. rewrite E2, Z.add_comm, Z_mod_plus_full. apply Z.mod_small. lia. }
  split; [done|]. intros Hz. rewrite E2, E3, Hz. rewrite (u32_small (0 * 60 * 60)) by (unfold is_u32; lia).
  rewrite u32_small by (unfold is_u32; lia). replace (hour_of t * 3600 + 0 * 60 - 0 * 60 * 60) with (hour_of t * 3600) by lia.
  by apply Z.div_mul.
Qed.

(** The bits 5 to 10 of the result are the low bits of the minutes. *)
Lemma fat_minutes a b c d e f :
  0 ≤ a < 2 ^ 5 →
  Z.shiftr (Z.lor (Z.lor (Z.lor (Z.lor (Z.lor a (u32 (Z.shiftl b 5))) (u32 (Z.shiftl c 11))) (u32 (Z.shiftl d 16))) (u32 (Z.shiftl e 21))) (u32 (Z.shiftl f 25))) 5 `mod` 2 ^ 6 =
  b `mod` 2 ^ 6.
Proof.
  intros Ha. apply Z.bits_inj'. intros i Hi. rewrite !Z.testbit_mod_pow2 by lia. destruct (Z.ltb_spec i 6) as [Hi6|]; [|done].
  rewrite !andb_true_l, Z.shiftr_spec by done. rewrite !Z.lor_spec. unfold u32. rewrite !Z.testbit_mod_pow2 by lia.
  rewrite (proj2 (Z.ltb_lt (i + 5) 32)) by lia. rewrite !andb_true_l, !Z.shiftl_spec by lia.
  rewrite (testbit_high a 5) by lia. rewrite (Z.testbit_neg_r c), (Z.testbit_neg_r d), (Z.testbit_neg_r e), (Z.testbit_neg_r f) by lia.
  rewrite !orb_false_r. simpl. f_equal. lia.
Qed.

(** Fields that fit are added. *)
Lemma fat_sum a b c d e f :
  0 ≤ a < 2 ^ 5 → 0 ≤ b < 2 ^ 6 → 0 ≤ c < 2 ^ 5 → 0 ≤ d < 2 ^ 5 → 0 ≤ e < 2 ^ 4 → 0 ≤ f < 2 ^ 7 →
  Z.lor (Z.lor (Z.lor (Z.lor (Z.lor a (u32 (Z.shiftl b 5))) (u32 (Z.shiftl c 11))) (u32 (Z.shiftl d 16))) (u32 (Z.shiftl e 21))) (u32 (Z.shiftl f 25)) =
  a + b * 2 ^ 5 + c * 2 ^ 11 + d * 2 ^ 16 + e * 2 ^ 21 + f * 2 ^ 25.
Proof.
  intros Ha Hb Hc Hd He Hf. rewrite !u32_small by (unfold is_u32; rewrite Z.shiftl_mul_pow2 by lia; lia).
  rewrite (lor_shift a b), (lor_shift _ c), (lor_shift _ d), (lor_shift _ e), (lor_shift _ f) by lia. done.
Qed.

(** C40.  rtcConvertDateTimeToFAT is right on the hour only: the minutes are not
    divided by 60 (and the hour is computed from them), so for every date and
    time of a day up to the year 2107, without daylight saving time, the result
    is the FAT time exactly when the minute is 0. *)
Theorem rtcConvertDateTimeToFAT_minutes t :
  valid t → dstflag t = 0 → year t < 128 → (rtcConvertDateTimeToFAT t = Some (fat_time t) ↔ minute_of t = 0).
Proof.
  intros Hv Hdst Hy. destruct (time_bounds t Hv) as (Hs & Hm & Hh & _). destruct (fat_hour t Hv) as [E1 E2].
  destruct Hv as [[Hfy Hfm _ _ Hfd _] _ _ _ _]. unfold bits in *.
  unfold rtcConvertDateTimeToFAT. fold (seconds t). fold (second_of t) in E1, E2 |- *. rewrite E1 in *.
  unfold fat_dst. rewrite Hdst. simpl. rewrite Z.shiftr_div_pow2 by lia. change (2 ^ 1) with 2.
  assert (0 ≤ second_of t / 2 < 2 ^ 5) as Hs2 by (split; [apply Z.div_pos; lia|apply Z.div_lt_upper_bound; lia]).
  split.
  - intros [= E]. apply (f_equal (λ x, Z.shiftr x 5 `mod` 2 ^ 6)) in E. rewrite fat_minutes in E by done.
    unfold fat_time in E. rewrite Z.shiftr_div_pow2 in E by lia.
    replace (second_of t / 2 + minute_of t * 2 ^ 5 + hour_of t * 2 ^ 11 + day t * 2 ^ 16 + month t * 2 ^ 21 + year t * 2 ^ 25)
      with (second_of t / 2 + (minute_of t + (hour_of t * 2 ^ 0 + day t * 2 ^ 5 + month t * 2 ^ 10 + year t * 2 ^ 14) * 2 ^ 6) * 2 ^ 5) in E by lia.
    rewrite Z.div_add, (Z.div_small (second_of t / 2)), Z.add_0_l, Z_mod_plus_full, (Z.mod_small (minute_of t)) in E by lia.
    pose proof (Z.div_mod (minute_of t * 60) (2 ^ 6)). lia.
  - intros Hz. f_equal. rewrite E2 by done. unfold fat_time. rewrite Hz. change (0 * 60) with 0. apply fat_sum; lia.
Qed.

(** The table gives February 30 days, and the last day of the year is followed by
    a day of the month 13. *)
Lemma fat_dst_february : fat_dst 1 23 28 2 = Some (0, 29, 2) ∧ fat_dst 1 23 29 2 = Some (0, 30, 2).
Proof. done. Qed.
Lemma fat_dst_new_year : fat_dst 1 23 31 12 = Some (0, 1, 13).
Proof. done. Qed.

(** ** Examples *)

(** 29 August 2015, Saturday, 13:37:42.5. *)
Definition ex_date : RTCDateTime := mkDateTime 35 8 0 6 29 (((13 * 60 + 37) * 60 + 42) * 1000 + 500).
Definition ex_hour : RTCDateTime := mkDateTime 35 8 0 6 29 (13 * 3600 * 1000).
Lemma ex_date_valid : valid ex_date ∧ valid ex_hour.
Proof. repeat (split; simpl; unfold bits, ms_per_day; try lia). Qed.

(** 29 February 2000, a Tuesday, 23:59:58.5 with daylight saving time unknown. *)
Lemma fields_witness :
  rtcConvertStructTmToDateTime (mkTm 58 59 23 29 1 100 2 59 (-1)) 500 = Some (mkDateTime 20 2 0 3 29 86398500).
Proof.
  destruct (rtcConvertStructTmToDateTime_correct (mkTm 58 59 23 29 1 100 2 59 (-1)) 500) as ([y m d w da s] & E & _ & Ey & Em & Eda & Ew & Ed & Es & _);
    [split; simpl; lia|lia|].
  rewrite E. f_equal. f_equal; assumption.
Defined.

Lemma structtm_witness :
  rtcConvertStructTmToDateTime (mkTm 42 37 13 29 7 115 6 0 0) 500 = Some (mkDateTime 35 8 0 7 29 (millisecond ex_date)).
Proof.
  apply (rtc_structtm_roundtrip ex_date (mkTm 0 0 0 0 0 0 6 0 0)); [apply ex_date_valid|simpl; lia].
Defined.

Lemma fat_minutes_witness : rtcConvertDateTimeToFAT ex_date ≠ Some (fat_time ex_date) ∧ rtcConvertDateTimeToFAT ex_hour = Some (fat_time ex_hour).
Proof.
  split.
  - intros E%rtcConvertDateTimeToFAT_minutes; [vm_compute in E; discriminate|apply ex_date_valid|reflexivity|simpl; lia].
  - apply rtcConvertDateTimeToFAT_minutes; [apply ex_date_valid|reflexivity|simpl; lia|vm_compute; reflexivity].
Defined.
