(* ===== verification/Mmcsd.v ===== *)
(** * Registers of MMC and SD cards (os/hal/src/hal_mmcsd.c, os/hal/include/hal_mmcsd.h)

    The fields of the 128-bit registers CID and CSD, which the drivers keep as four
    32-bit words, and the capacity of a card. *)

From S2P Require Import Prelude.

(** ** Bit fields *)

Definition MMCSD_BLOCK_SIZE : Z := 512.

(** The shift of a 32-bit word by 32 places or more is undefined in C, but a field
    that ends at the bit 31 of a word needs one: its value on the target machine
    is a parameter (0 for the shifts by a register of the ARM architecture, as
    long as the low byte of the distance is 32 or more). *)
Class Target := { wide_shl : Z → Z → Z }.

Section Fields.
Context `{Target}.

Definition shl32 (x k : Z) : Z := if k <? 32 then u32 (Z.shiftl x k) else wide_shl x k.

Definition _mmcsd_get_slice (data : list Z) (end_ start : Z) : option Z :=
  if (start <=? end_) && (end_ - start <? 32) then
    let startidx := start / 32 in
    let startoff := start `mod` 32 in
    let endidx := end_ / 32 in
    let endmask := u32 (shl32 1 (end_ `mod` 32 + 1) - 1) in
    ds ← data !! Z.to_nat startidx;
    if startidx <? endidx then
      de ← data !! Z.to_nat endidx;
      Some (Z.lor (Z.shiftr ds startoff) (u32 (Z.shiftl (Z.land de endmask) (32 - startoff))))
    else Some (Z.shiftr (Z.land ds endmask) startoff)
  else None.

Definition get_field (data : list Z) (s : Z * Z) : option Z := _mmcsd_get_slice data (fst s) (snd s).

(** *** Positions in the registers *)

Definition MMCSD_CSD_MMC_CSD_STRUCTURE_SLICE : Z * Z := (127, 126).
Definition MMCSD_CSD_MMC_SPEC_VERS_SLICE : Z * Z := (125, 122).
Definition MMCSD_CSD_MMC_TAAC_SLICE : Z * Z := (119, 112).
Definition MMCSD_CSD_MMC_NSAC_SLICE : Z * Z := (111, 104).
Definition MMCSD_CSD_MMC_TRAN_SPEED_SLICE : Z * Z := (103, 96).
Definition MMCSD_CSD_MMC_CCC_SLICE : Z * Z := (95, 84).
Definition MMCSD_CSD_MMC_READ_BL_LEN_SLICE : Z * Z := (83, 80).
Definition MMCSD_CSD_MMC_READ_BL_PARTIAL_SLICE : Z * Z := (79, 79).
Definition MMCSD_CSD_MMC_WRITE_BLK_MISALIGN_SLICE : Z * Z := (78, 78).
Definition MMCSD_CSD_MMC_READ_BLK_MISALIGN_SLICE : Z * Z := (77, 77).
Definition MMCSD_CSD_MMC_DSR_IMP_SLICE : Z * Z := (76, 76).
Definition MMCSD_CSD_MMC_C_SIZE_SLICE : Z * Z := (73, 62).
Definition MMCSD_CSD_MMC_VDD_R_CURR_MIN_SLICE : Z * Z := (61, 59).
Definition MMCSD_CSD_MMC_VDD_R_CURR_MAX_SLICE : Z * Z := (58, 56).
Definition MMCSD_CSD_MMC_VDD_W_CURR_MIN_SLICE : Z * Z := (55, 53).
Definition MMCSD_CSD_MMC_VDD_W_CURR_MAX_SLICE : Z * Z := (52, 50).
Definition MMCSD_CSD_MMC_C_SIZE_MULT_SLICE : Z * Z := (49, 47).
Definition MMCSD_CSD_MMC_ERASE_GRP_SIZE_SLICE : Z * Z := (46, 42).
Definition MMCSD_CSD_MMC_ERASE_GRP_MULT_SLICE : Z * Z := (41, 37).
Definition MMCSD_CSD_MMC_WP_GRP_SIZE_SLICE : Z * Z := (36, 32).
Definition MMCSD_CSD_MMC_WP_GRP_ENABLE_SLICE : Z * Z := (31, 31).
Definition MMCSD_CSD_MMC_R2W_FACTOR_SLICE : Z * Z := (28, 26).
Definition MMCSD_CSD_MMC_WRITE_BL_LEN_SLICE : Z * Z := (25, 22).
Definition MMCSD_CSD_MMC_WRITE_BL_PARTIAL_SLICE : Z * Z := (21, 21).
Definition MMCSD_CSD_MMC_FILE_FORMAT_GRP_SLICE : Z * Z := (15, 15).
Definition MMCSD_CSD_MMC_COPY_SLICE : Z * Z := (14, 14).
Definition MMCSD_CSD_MMC_PERM_WRITE_PROTECT_SLICE : Z * Z := (13, 13).
Definition MMCSD_CSD_MMC_TMP_WRITE_PROTECT_SLICE : Z * Z := (12, 12).
Definition MMCSD_CSD_MMC_FILE_FORMAT_SLICE : Z * Z := (11, 10).
Definition MMCSD_CSD_MMC_ECC_SLICE : Z * Z := (9, 8).
Definition MMCSD_CSD_MMC_CRC_SLICE : Z * Z := (7, 1).
Definition MMCSD_CSD_20_CRC_SLICE : Z * Z := (7, 1).
Definition MMCSD_CSD_20_FILE_FORMAT_SLICE : Z * Z := (11, 10).
Definition MMCSD_CSD_20_TMP_WRITE_PROTECT_SLICE : Z * Z := (12, 12).
Definition MMCSD_CSD_20_PERM_WRITE_PROTECT_SLICE : Z * Z := (13, 13).
Definition MMCSD_CSD_20_COPY_SLICE : Z * Z := (14, 14).
Definition MMCSD_CSD_20_FILE_FORMAT_GRP_SLICE : Z * Z := (15, 15).
Definition MMCSD_CSD_20_WRITE_BL_PARTIAL_SLICE : Z * Z := (21, 21).
Definition MMCSD_CSD_20_WRITE_BL_LEN_SLICE : Z * Z := (25, 12).
Definition MMCSD_CSD_20_R2W_FACTOR_SLICE : Z * Z := (28, 26).
Definition MMCSD_CSD_20_WP_GRP_ENABLE_SLICE : Z * Z := (31, 31).
Definition MMCSD_CSD_20_WP_GRP_SIZE_SLICE : Z * Z := (38, 32).
Definition MMCSD_CSD_20_ERASE_SECTOR_SIZE_SLICE : Z * Z := (45, 39).
Definition MMCSD_CSD_20_ERASE_BLK_EN_SLICE : Z * Z := (46, 46).
Definition MMCSD_CSD_20_C_SIZE_SLICE : Z * Z := (69, 48).
Definition MMCSD_CSD_20_DSR_IMP_SLICE : Z * Z := (76, 76).
Definition MMCSD_CSD_20_READ_BLK_MISALIGN_SLICE : Z * Z := (77, 77).
Definition MMCSD_CSD_20_WRITE_BLK_MISALIGN_SLICE : Z * Z := (78, 78).
Definition MMCSD_CSD_20_READ_BL_PARTIAL_SLICE : Z * Z := (79, 79).
Definition MMCSD_CSD_20_READ_BL_LEN_SLICE : Z * Z := (83, 80).
Definition MMCSD_CSD_20_CCC_SLICE : Z * Z := (95, 84).
Definition MMCSD_CSD_20_TRANS_SPEED_SLICE : Z * Z := (103, 96).
Definition MMCSD_CSD_20_NSAC_SLICE : Z * Z := (111, 104).
Definition MMCSD_CSD_20_TAAC_SLICE : Z * Z := (119, 112).
Definition MMCSD_CSD_20_CSD_STRUCTURE_SLICE : Z * Z := (127, 126).
Definition MMCSD_CSD_10_CRC_SLICE : Z * Z := (7, 1).
Definition MMCSD_CSD_10_FILE_FORMAT_SLICE : Z * Z := (11, 10).
Definition MMCSD_CSD_10_TMP_WRITE_PROTECT_SLICE : Z * Z := (12, 12).
Definition MMCSD_CSD_10_PERM_WRITE_PROTECT_SLICE : Z * Z := (13, 13).
Definition MMCSD_CSD_10_COPY_SLICE : Z * Z := (14, 14).
Definition MMCSD_CSD_10_FILE_FORMAT_GRP_SLICE : Z * Z := (15, 15).
Definition MMCSD_CSD_10_WRITE_BL_PARTIAL_SLICE : Z * Z := (21, 21).
Definition MMCSD_CSD_10_WRITE_BL_LEN_SLICE : Z * Z := (25, 12).
Definition MMCSD_CSD_10_R2W_FACTOR_SLICE : Z * Z := (28, 26).
Definition MMCSD_CSD_10_WP_GRP_ENABLE_SLICE : Z * Z := (31, 31).
Definition MMCSD_CSD_10_WP_GRP_SIZE_SLICE : Z * Z := (38, 32).
Definition MMCSD_CSD_10_ERASE_SECTOR_SIZE_SLICE : Z * Z := (45, 39).
Definition MMCSD_CSD_10_ERASE_BLK_EN_SLICE : Z * Z := (46, 46).
Definition MMCSD_CSD_10_C_SIZE_MULT_SLICE : Z * Z := (49, 47).
Definition MMCSD_CSD_10_C_SIZE_SLICE : Z * Z := (73, 62).
Definition MMCSD_CSD_10_DSR_IMP_SLICE : Z * Z := (76, 76).
Definition MMCSD_CSD_10_READ_BLK_MISALIGN_SLICE : Z * Z := (77, 77).
Definition MMCSD_CSD_10_WRITE_BLK_MISALIGN_SLICE : Z * Z := (78, 78).
Definition MMCSD_CSD_10_READ_BL_PARTIAL_SLICE : Z * Z := (79, 79).
Definition MMCSD_CSD_10_READ_BL_LEN_SLICE : Z * Z := (83, 80).
Definition MMCSD_CSD_10_CCC_SLICE : Z * Z := (95, 84).
Definition MMCSD_CSD_10_TRANS_SPEED_SLICE : Z * Z := (103, 96).
Definition MMCSD_CSD_10_NSAC_SLICE : Z * Z := (111, 104).
Definition MMCSD_CSD_10_TAAC_SLICE : Z * Z := (119, 112).
Definition MMCSD_CSD_10_CSD_STRUCTURE_SLICE : Z * Z := (127, 126).
Definition MMCSD_CID_SDC_CRC_SLICE : Z * Z := (7, 1).
Definition MMCSD_CID_SDC_MDT_M_SLICE : Z * Z := (11, 8).
Definition MMCSD_CID_SDC_MDT_Y_SLICE : Z * Z := (19, 12).
Definition MMCSD_CID_SDC_PSN_SLICE : Z * Z := (55, 24).
Definition MMCSD_CID_SDC_PRV_M_SLICE : Z * Z := (59, 56).
Definition MMCSD_CID_SDC_PRV_N_SLICE : Z * Z := (63, 60).
Definition MMCSD_CID_SDC_PNM0_SLICE : Z * Z := (71, 64).
Definition MMCSD_CID_SDC_PNM1_SLICE : Z * Z := (79, 72).
Definition MMCSD_CID_SDC_PNM2_SLICE : Z * Z := (87, 80).
Definition MMCSD_CID_SDC_PNM3_SLICE : Z * Z := (95, 88).
Definition MMCSD_CID_SDC_PNM4_SLICE : Z * Z := (103, 96).
Definition MMCSD_CID_SDC_OID_SLICE : Z * Z := (119, 104).
Definition MMCSD_CID_SDC_MID_SLICE : Z * Z := (127, 120).
Definition MMCSD_CID_MMC_CRC_SLICE : Z * Z := (7, 1).
Definition MMCSD_CID_MMC_MDT_Y_SLICE : Z * Z := (11, 8).
Definition MMCSD_CID_MMC_MDT_M_SLICE : Z * Z := (15, 12).
Definition MMCSD_CID_MMC_PSN_SLICE : Z * Z := (47, 16).
Definition MMCSD_CID_MMC_PRV_M_SLICE : Z * Z := (51, 48).
Definition MMCSD_CID_MMC_PRV_N_SLICE : Z * Z := (55, 52).
Definition MMCSD_CID_MMC_PNM0_SLICE : Z * Z := (63, 56).
Definition MMCSD_CID_MMC_PNM1_SLICE : Z * Z := (71, 64).
Definition MMCSD_CID_MMC_PNM2_SLICE : Z * Z := (79, 72).
Definition MMCSD_CID_MMC_PNM3_SLICE : Z * Z := (87, 80).
Definition MMCSD_CID_MMC_PNM4_SLICE : Z * Z := (95, 88).
Definition MMCSD_CID_MMC_PNM5_SLICE : Z * Z := (103, 96).
Definition MMCSD_CID_MMC_OID_SLICE : Z * Z := (119, 104).
Definition MMCSD_CID_MMC_MID_SLICE : Z * Z := (127, 120).

(** ** Devices and unpacked registers *)

Record MMCSDBlockDevice := mkDevice { cid : list Z; csd : list Z; capacity : Z }.

Record unpacked_sdc_cid_t := mk_sc {
  sc_mid : Z;
  sc_oid : Z;
  sc_pnm : list Z;
  sc_prv_n : Z;
  sc_prv_m : Z;
  sc_psn : Z;
  sc_mdt_m : Z;
  sc_mdt_y : Z;
  sc_crc : Z
}.

Record unpacked_mmc_cid_t := mk_mc {
  mc_mid : Z;
  mc_oid : Z;
  mc_pnm : list Z;
  mc_prv_n : Z;
  mc_prv_m : Z;
  mc_psn : Z;
  mc_mdt_m : Z;
  mc_mdt_y : Z;
  mc_crc : Z
}.

Record unpacked_sdc_csd_10_t := mk_c10 {
  c10_csd_structure : Z;
  c10_taac : Z;
  c10_nsac : Z;
  c10_tran_speed : Z;
  c10_ccc : Z;
  c10_read_bl_len : Z;
  c10_read_bl_partial : Z;
  c10_write_blk_misalign : Z;
  c10_read_blk_misalign : Z;
  c10_dsr_imp : Z;
  c10_c_size : Z;
  c10_vdd_r_curr_min : Z;
  c10_vdd_r_curr_max : Z;
  c10_vdd_w_curr_min : Z;
  c10_vdd_w_curr_max : Z;
  c10_c_size_mult : Z;
  c10_erase_blk_en : Z;
  c10_erase_sector_size : Z;
  c10_wp_grp_size : Z;
  c10_wp_grp_enable : Z;
  c10_r2w_factor : Z;
  c10_write_bl_len : Z;
  c10_write_bl_partial : Z;
  c10_file_format_grp : Z;
  c10_copy : Z;
  c10_perm_write_protect : Z;
  c10_tmp_write_protect : Z;
  c10_file_format : Z;
  c10_crc : Z
}.

Record unpacked_sdc_csd_20_t := mk_c20 {
  c20_csd_structure : Z;
  c20_taac : Z;
  c20_nsac : Z;
  c20_tran_speed : Z;
  c20_ccc : Z;
  c20_read_bl_len : Z;
  c20_read_bl_partial : Z;
  c20_write_blk_misalign : Z;
  c20_read_blk_misalign : Z;
  c20_dsr_imp : Z;
  c20_c_size : Z;
  c20_erase_blk_en : Z;
  c20_erase_sector_size : Z;
  c20_wp_grp_size : Z;
  c20_wp_grp_enable : Z;
  c20_r2w_factor : Z;
  c20_write_bl_len : Z;
  c20_write_bl_partial : Z;
  c20_file_format_grp : Z;
  c20_copy : Z;
  c20_perm_write_protect : Z;
  c20_tmp_write_protect : Z;
  c20_file_format : Z;
  c20_crc : Z
}.

Record unpacked_mmc_csd_t := mk_cm {
  cm_csd_structure : Z;
  cm_spec_vers : Z;
  cm_taac : Z;
  cm_nsac : Z;
  cm_tran_speed : Z;
  cm_ccc : Z;
  cm_read_bl_len : Z;
  cm_read_bl_partial : Z;
  cm_write_blk_misalign : Z;
  cm_read_blk_misalign : Z;
  cm_dsr_imp : Z;
  cm_c_size : Z;
  cm_vdd_r_curr_min : Z;
  cm_vdd_r_curr_max : Z;
  cm_vdd_w_curr_min : Z;
  cm_vdd_w_curr_max : Z;
  cm_c_size_mult : Z;
  cm_erase_grp_size : Z;
  cm_erase_grp_mult : Z;
  cm_wp_grp_size : Z;
  cm_wp_grp_enable : Z;
  cm_default_ecc : Z;
  cm_r2w_factor : Z;
  cm_write_bl_len : Z;
  cm_write_bl_partial : Z;
  cm_content_prot_app : Z;
  cm_file_format_grp : Z;
  cm_copy : Z;
  cm_perm_write_protect : Z;
  cm_tmp_write_protect : Z;
  cm_file_format : Z;
  cm_ecc : Z;
  cm_crc : Z
}.

(** ** Capacity *)

Definition _mmcsd_get_capacity (csd : list Z) : option Z :=
  v ← get_field csd MMCSD_CSD_10_CSD_STRUCTURE_SLICE;
  if v =? 0 then
    a ← get_field csd MMCSD_CSD_10_C_SIZE_SLICE;
    b ← get_field csd MMCSD_CSD_10_C_SIZE_MULT_SLICE;
    c ← get_field csd MMCSD_CSD_10_READ_BL_LEN_SLICE;
    Some (shl32 (shl32 (u32 (a + 1)) (u32 (b + 2))) (u32 (c - 9)))
  else if v =? 1 then
    a ← get_field csd MMCSD_CSD_20_C_SIZE_SLICE;
    Some (u32 (1024 * u32 (a + 1)))
  else Some 0.

Definition _mmcsd_get_capacity_ext (ext_csd : list Z) : option Z :=
  b3 ← ext_csd !! 215%nat; b2 ← ext_csd !! 214%nat; b1 ← ext_csd !! 213%nat; b0 ← ext_csd !! 212%nat;
  Some (u32 (u32 (Z.shiftl b3 24) + u32 (Z.shiftl b2 16) + u32 (Z.shiftl b1 8) + b0)).

(** ** Unpacking *)

Definition _mmcsd_unpack_sdc_cid (sdcp : MMCSDBlockDevice) (old : unpacked_sdc_cid_t) : option unpacked_sdc_cid_t :=
  let get := get_field (cid sdcp) in
  crc ← get MMCSD_CID_SDC_CRC_SLICE;
  mdt_y ← get MMCSD_CID_SDC_MDT_Y_SLICE;
  mdt_m ← get MMCSD_CID_SDC_MDT_M_SLICE;
  mid ← get MMCSD_CID_SDC_MID_SLICE;
  oid ← get MMCSD_CID_SDC_OID_SLICE;
  pnm4 ← get MMCSD_CID_SDC_PNM0_SLICE;
  pnm3 ← get MMCSD_CID_SDC_PNM1_SLICE;
  pnm2 ← get MMCSD_CID_SDC_PNM2_SLICE;
  pnm1 ← get MMCSD_CID_SDC_PNM3_SLICE;
  pnm0 ← get MMCSD_CID_SDC_PNM4_SLICE;
  prv_n ← get MMCSD_CID_SDC_PRV_N_SLICE;
  prv_m ← get MMCSD_CID_SDC_PRV_M_SLICE;
  psn ← get MMCSD_CID_SDC_PSN_SLICE;
  Some (mk_sc (u8 mid) (u16 oid) [u8 pnm0; u8 pnm1; u8 pnm2; u8 pnm3; u8 pnm4] (u8 prv_n) (u8 prv_m) psn (u8 mdt_m) (u16 (u16 mdt_y + 2000)) (u8 crc)).

Definition _mmcsd_unpack_mmc_cid (sdcp : MMCSDBlockDevice) (old : unpacked_mmc_cid_t) : option unpacked_mmc_cid_t :=
  let get := get_field (cid sdcp) in
  crc ← get MMCSD_CID_MMC_CRC_SLICE;
  mdt_y ← get MMCSD_CID_MMC_MDT_Y_SLICE;
  mdt_m ← get MMCSD_CID_MMC_MDT_M_SLICE;
  mid ← get MMCSD_CID_MMC_MID_SLICE;
  oid ← get MMCSD_CID_MMC_OID_SLICE;
  pnm5 ← get MMCSD_CID_MMC_PNM0_SLICE;
  pnm4 ← get MMCSD_CID_MMC_PNM1_SLICE;
  pnm3 ← get MMCSD_CID_MMC_PNM2_SLICE;
  pnm2 ← get MMCSD_CID_MMC_PNM3_SLICE;
  pnm1 ← get MMCSD_CID_MMC_PNM4_SLICE;
  pnm0 ← get MMCSD_CID_MMC_PNM5_SLICE;
  prv_n ← get MMCSD_CID_MMC_PRV_N_SLICE;
  prv_m ← get MMCSD_CID_MMC_PRV_M_SLICE;
  psn ← get MMCSD_CID_MMC_PSN_SLICE;
  Some (mk_mc (u8 mid) (u16 oid) [u8 pnm0; u8 pnm1; u8 pnm2; u8 pnm3; u8 pnm4; u8 pnm5] (u8 prv_n) (u8 prv_m) psn (u8 mdt_m) (u16 (u16 mdt_y + 1997)) (u8 crc)).

Definition _mmcsd_unpack_csd_v10 (sdcp : MMCSDBlockDevice) (old : unpacked_sdc_csd_10_t) : option unpacked_sdc_csd_10_t :=
  let get := get_field (csd sdcp) in
  c_size ← get MMCSD_CSD_10_C_SIZE_SLICE;
  c_size_mult ← get MMCSD_CSD_10_C_SIZE_MULT_SLICE;
  ccc ← get MMCSD_CSD_10_CCC_SLICE;
  copy ← get MMCSD_CSD_10_COPY_SLICE;
  crc ← get MMCSD_CSD_10_CRC_SLICE;
  csd_structure ← get MMCSD_CSD_10_CSD_STRUCTURE_SLICE;
  dsr_imp ← get MMCSD_CSD_10_DSR_IMP_SLICE;
  erase_blk_en ← get MMCSD_CSD_10_ERASE_BLK_EN_SLICE;
  erase_sector_size ← get MMCSD_CSD_10_ERASE_SECTOR_SIZE_SLICE;
  file_format ← get MMCSD_CSD_10_FILE_FORMAT_SLICE;
  file_format_grp ← get MMCSD_CSD_10_FILE_FORMAT_GRP_SLICE;
  nsac ← get MMCSD_CSD_10_NSAC_SLICE;
  perm_write_protect ← get MMCSD_CSD_10_PERM_WRITE_PROTECT_SLICE;
  r2w_factor ← get MMCSD_CSD_10_R2W_FACTOR_SLICE;
  read_bl_len ← get MMCSD_CSD_10_READ_BL_LEN_SLICE;
  read_bl_partial ← get MMCSD_CSD_10_READ_BL_PARTIAL_SLICE;
  read_blk_misalign ← get MMCSD_CSD_10_READ_BLK_MISALIGN_SLICE;
  taac ← get MMCSD_CSD_10_TAAC_SLICE;
  tmp_write_protect ← get MMCSD_CSD_10_TMP_WRITE_PROTECT_SLICE;
  tran_speed ← get MMCSD_CSD_10_TRANS_SPEED_SLICE;
  wp_grp_enable ← get MMCSD_CSD_10_WP_GRP_ENABLE_SLICE;
  wp_grp_size ← get MMCSD_CSD_10_WP_GRP_SIZE_SLICE;
  write_bl_len ← get MMCSD_CSD_10_WRITE_BL_LEN_SLICE;
  write_bl_partial ← get MMCSD_CSD_10_WRITE_BL_PARTIAL_SLICE;
  write_blk_misalign ← get MMCSD_CSD_10_WRITE_BLK_MISALIGN_SLICE;
  Some (mk_c10 (u8 csd_structure) (u8 taac) (u8 nsac) (u8 tran_speed) (u16 ccc) (u8 read_bl_len) (u8 read_bl_partial) (u8 write_blk_misalign) (u8 read_blk_misalign) (u8 dsr_imp) (u16 c_size) (c10_vdd_r_curr_min old) (c10_vdd_r_curr_max old) (c10_vdd_w_curr_min old) (c10_vdd_w_curr_max old) (u8 c_size_mult) (u8 erase_blk_en) (u8 erase_sector_size) (u8 wp_grp_size) (u8 wp_grp_enable) (u8 r2w_factor) (u8 write_bl_len) (u8 write_bl_partial) (u8 file_format_grp) (u8 copy) (u8 perm_write_protect) (u8 tmp_write_protect) (u8 file_format) (u8 crc)).

Definition _mmcsd_unpack_csd_v20 (sdcp : MMCSDBlockDevice) (old : unpacked_sdc_csd_20_t) : option unpacked_sdc_csd_20_t :=
  let get := get_field (csd sdcp) in
  c_size ← get MMCSD_CSD_20_C_SIZE_SLICE;
  crc ← get MMCSD_CSD_20_CRC_SLICE;
  ccc ← get MMCSD_CSD_20_CCC_SLICE;
  copy ← get MMCSD_CSD_20_COPY_SLICE;
  csd_structure ← get MMCSD_CSD_20_CSD_STRUCTURE_SLICE;
  dsr_imp ← get MMCSD_CSD_20_DSR_IMP_SLICE;
  erase_blk_en ← get MMCSD_CSD_20_ERASE_BLK_EN_SLICE;
  file_format ← get MMCSD_CSD_20_FILE_FORMAT_SLICE;
  file_format_grp ← get MMCSD_CSD_20_FILE_FORMAT_GRP_SLICE;
  nsac ← get MMCSD_CSD_20_NSAC_SLICE;
  perm_write_protect ← get MMCSD_CSD_20_PERM_WRITE_PROTECT_SLICE;
  r2w_factor ← get MMCSD_CSD_20_R2W_FACTOR_SLICE;
  read_bl_len ← get MMCSD_CSD_20_READ_BL_LEN_SLICE;
  read_bl_partial ← get MMCSD_CSD_20_READ_BL_PARTIAL_SLICE;
  read_blk_misalign ← get MMCSD_CSD_20_READ_BLK_MISALIGN_SLICE;
  erase_sector_size ← get MMCSD_CSD_20_ERASE_SECTOR_SIZE_SLICE;
  taac ← get MMCSD_CSD_20_TAAC_SLICE;
  tmp_write_protect ← get MMCSD_CSD_20_TMP_WRITE_PROTECT_SLICE;
  tran_speed ← get MMCSD_CSD_20_TRANS_SPEED_SLICE;
  wp_grp_enable ← get MMCSD_CSD_20_WP_GRP_ENABLE_SLICE;
  wp_grp_size ← get MMCSD_CSD_20_WP_GRP_SIZE_SLICE;
  write_bl_len ← get MMCSD_CSD_20_WRITE_BL_LEN_SLICE;
  write_bl_partial ← get MMCSD_CSD_20_WRITE_BL_PARTIAL_SLICE;
  write_blk_misalign ← get MMCSD_CSD_20_WRITE_BLK_MISALIGN_SLICE;
  Some (mk_c20 (u8 csd_structure) (u8 taac) (u8 nsac) (u8 tran_speed) (u16 ccc) (u8 read_bl_len) (u8 read_bl_partial) (u8 write_blk_misalign) (u8 read_blk_misalign) (u8 dsr_imp) c_size (u8 erase_blk_en) (u8 erase_sector_size) (u8 wp_grp_size) (u8 wp_grp_enable) (u8 r2w_factor) (u8 write_bl_len) (u8 write_bl_partial) (u8 file_format_grp) (u8 copy) (u8 perm_write_protect) (u8 tmp_write_protect) (u8 file_format) (u8 crc)).

Definition _mmcsd_unpack_csd_mmc (sdcp : MMCSDBlockDevice) (old : unpacked_mmc_csd_t) : option unpacked_mmc_csd_t :=
  let get := get_field (csd sdcp) in
  c_size ← get MMCSD_CSD_MMC_C_SIZE_SLICE;
  c_size_mult ← get MMCSD_CSD_MMC_C_SIZE_MULT_SLICE;
  ccc ← get MMCSD_CSD_MMC_CCC_SLICE;
  copy ← get MMCSD_CSD_MMC_COPY_SLICE;
  crc ← get MMCSD_CSD_MMC_CRC_SLICE;
  csd_structure ← get MMCSD_CSD_MMC_CSD_STRUCTURE_SLICE;
  dsr_imp ← get MMCSD_CSD_MMC_DSR_IMP_SLICE;
  ecc ← get MMCSD_CSD_MMC_ECC_SLICE;
  erase_grp_mult ← get MMCSD_CSD_MMC_ERASE_GRP_MULT_SLICE;
  erase_grp_size ← get MMCSD_CSD_MMC_ERASE_GRP_SIZE_SLICE;
  file_format ← get MMCSD_CSD_MMC_FILE_FORMAT_SLICE;
  file_format_grp ← get MMCSD_CSD_MMC_FILE_FORMAT_GRP_SLICE;
  nsac ← get MMCSD_CSD_MMC_NSAC_SLICE;
  perm_write_protect ← get MMCSD_CSD_MMC_PERM_WRITE_PROTECT_SLICE;
  r2w_factor ← get MMCSD_CSD_MMC_R2W_FACTOR_SLICE;
  read_bl_len ← get MMCSD_CSD_MMC_READ_BL_LEN_SLICE;
  read_bl_partial ← get MMCSD_CSD_MMC_READ_BL_PARTIAL_SLICE;
  read_blk_misalign ← get MMCSD_CSD_MMC_READ_BLK_MISALIGN_SLICE;
  spec_vers ← get MMCSD_CSD_MMC_SPEC_VERS_SLICE;
  taac ← get MMCSD_CSD_MMC_TAAC_SLICE;
  tmp_write_protect ← get MMCSD_CSD_MMC_TMP_WRITE_PROTECT_SLICE;
  tran_speed ← get MMCSD_CSD_MMC_TRAN_SPEED_SLICE;
  vdd_r_curr_max ← get MMCSD_CSD_MMC_VDD_R_CURR_MAX_SLICE;
  vdd_r_curr_min ← get MMCSD_CSD_MMC_VDD_R_CURR_MIN_SLICE;
  vdd_w_curr_max ← get MMCSD_CSD_MMC_VDD_W_CURR_MAX_SLICE;
  vdd_w_curr_min ← get MMCSD_CSD_MMC_VDD_W_CURR_MIN_SLICE;
  wp_grp_enable ← get MMCSD_CSD_MMC_WP_GRP_ENABLE_SLICE;
  wp_grp_size ← get MMCSD_CSD_MMC_WP_GRP_SIZE_SLICE;
  write_bl_len ← get MMCSD_CSD_MMC_WRITE_BL_LEN_SLICE;
  write_bl_partial ← get MMCSD_CSD_MMC_WRITE_BL_PARTIAL_SLICE;
  write_blk_misalign ← get MMCSD_CSD_MMC_WRITE_BLK_MISALIGN_SLICE;
  Some (mk_cm (u8 csd_structure) (u8 spec_vers) (u8 taac) (u8 nsac) (u8 tran_speed) (u16 ccc) (u8 read_bl_len) (u8 read_bl_partial) (u8 write_blk_misalign) (u8 read_blk_misalign) (u8 dsr_imp) (u16 c_size) (u8 vdd_r_curr_min) (u8 vdd_r_curr_max) (u8 vdd_w_curr_min) (u8 vdd_w_curr_max) (u8 c_size_mult) (u8 erase_grp_size) (u8 erase_grp_mult) (u8 wp_grp_size) (u8 wp_grp_enable) (cm_default_ecc old) (u8 r2w_factor) (u8 write_bl_len) (u8 write_bl_partial) (cm_content_prot_app old) (u8 file_format_grp) (u8 copy) (u8 perm_write_protect) (u8 tmp_write_protect) (u8 file_format) (u8 ecc) (u8 crc)).

(** ** What they promise *)

(** The register as one number, and its bits [hi] down to [lo]. *)
Fixpoint register (data : list Z) : Z := match data with [] => 0 | w :: data => w + register data * 2 ^ 32 end.
Definition field (r : Z) (s : Z * Z) : Z := (r / 2 ^ snd s) `mod` 2 ^ (fst s - snd s + 1).

Definition words (data : list Z) : Prop := Forall is_u32 data.

Lemma register_nonneg data : words data → 0 ≤ register data.
Proof. induction 1 as [|w data Hw _ IH]; simpl; [done|]. unfold is_u32 in Hw. lia. Qed.

Lemma register_bit data i w n :
  words data → data !! i = Some w → 0 ≤ n < 32 → Z.testbit (register data) (32 * Z.of_nat i + n) = Z.testbit w n.
Proof.
  intros Hd. revert i. induction Hd as [|w0 data Hw Hd IH]; intros i E Hn; [done|]. simpl.
  rewrite <-(lor_shift w0 (register data) 32) by (unfold is_u32 in Hw; lia). rewrite Z.lor_spec, Z.shiftl_spec by lia.
  destruct i as [|i]; simpl in E.
  - simplify_eq. rewrite (Z.testbit_neg_r (register data)) by lia. by rewrite orb_false_r.
  - rewrite (testbit_high w0 32) by (unfold is_u32 in Hw; lia). simpl. rewrite <-(IH i E Hn). f_equal. lia.
Qed.

(** The mask of the last word has its bits up to [m]. *)
Lemma endmask_bit m j : 0 ≤ m < 32 → (m = 31 → wide_shl 1 32 = 0) → 0 ≤ j →
  Z.testbit (u32 (shl32 1 (m + 1) - 1)) j = (j <=? m).
Proof.
  intros Hm Hub Hj. assert (u32 (shl32 1 (m + 1) - 1) = Z.ones (m + 1)) as ->.
  { rewrite Z.ones_equiv. unfold shl32. destruct (Z.ltb_spec (m + 1) 32).
    - assert (0 < 2 ^ (m + 1) < 2 ^ 32) by (split; [apply Z.pow_pos_nonneg; lia|apply Z.pow_lt_mono_r; lia]).
      rewrite Z.shiftl_1_l, (u32_small (2 ^ _)) by (unfold is_u32; lia). rewrite u32_small by (unfold is_u32; lia). lia.
    - replace (m + 1) with 32 by lia. rewrite Hub by lia. done. }
  rewrite Z.testbit_ones by lia. rewrite (proj2 (Z.leb_le 0 j)) by done. simpl.
  destruct (Z.ltb_spec j (m + 1)), (Z.leb_spec j m); lia || done.
Qed.

Lemma slice_field data hi lo :
  length data = 4%nat → words data → 0 ≤ lo ≤ hi → hi < 128 → hi - lo < 32 → (hi `mod` 32 = 31 → wide_shl 1 32 = 0) →
  _mmcsd_get_slice data hi lo = Some (field (register data) (hi, lo)).
Proof.
  intros Hlen Hd Hlo Hhi Hlt Hub. unfold _mmcsd_get_slice.
  rewrite (proj2 (Z.leb_le _ _)), (proj2 (Z.ltb_lt _ _)) by lia. cbn [andb].
  pose proof (Z.div_mod lo 32 ltac:(lia)) as El. pose proof (Z.div_mod hi 32 ltac:(lia)) as Eh.
  pose proof (Z.mod_pos_bound lo 32 ltac:(lia)) as Bl. pose proof (Z.mod_pos_bound hi 32 ltac:(lia)) as Bh.
  set (si := lo / 32) in *. set (so := lo `mod` 32) in *. set (ei := hi / 32) in *. set (eo := hi `mod` 32) in *.
  assert (0 ≤ si ≤ ei ∧ ei < 4) as Hi by lia.
  assert (is_Some (data !! Z.to_nat si)) as [ds Es] by (apply lookup_lt_is_Some; lia).
  assert (is_Some (data !! Z.to_nat ei)) as [de Ee] by (apply lookup_lt_is_Some; lia).
  assert (is_u32 ds) as Hds by (by apply (Forall_lookup_1 _ _ _ _ Hd Es)).
  assert (is_u32 de) as Hde by (by apply (Forall_lookup_1 _ _ _ _ Hd Ee)). unfold is_u32 in Hds, Hde.
  assert (∀ k, 0 ≤ k → Z.testbit (field (register data) (hi, lo)) k = (k <=? hi - lo) && Z.testbit (register data) (lo + k)) as Hf.
  { intros k Hk. unfold field. cbn [fst snd]. rewrite Z.testbit_mod_pow2, <-Z.shiftr_div_pow2, Z.shiftr_spec, (Z.add_comm k lo) by lia.
    f_equal. destruct (Z.ltb_spec k (hi - lo + 1)), (Z.leb_spec k (hi - lo)); lia || done. }
  rewrite Es. cbn [mbind option_bind]. destruct (Z.ltb_spec si ei) as [Hlti|Hge].
  - rewrite Ee. cbn [mbind option_bind]. f_equal. apply Z.bits_inj'. intros k Hk. rewrite Hf by done.
    rewrite Z.lor_spec, Z.shiftr_spec by done. unfold u32 at 1. rewrite Z.testbit_mod_pow2, Z.shiftl_spec by lia.
    destruct (Z.lt_ge_cases (k + so) 32) as [Hk1|Hk1].
    + rewrite (Z.testbit_neg_r _ (k - (32 - so))) by lia. rewrite andb_false_r, orb_false_r.
      rewrite (proj2 (Z.leb_le k _)) by lia. cbn [andb]. rewrite <-(register_bit data _ ds (k + so) Hd Es) by lia. f_equal. lia.
    + rewrite (testbit_high ds 32) by lia. rewrite orb_false_l, Z.land_spec, endmask_bit by (lia || done).
      destruct (Z.leb_spec k (hi - lo)) as [Hkl|Hkl].
      * rewrite (proj2 (Z.ltb_lt k 32)), (proj2 (Z.leb_le (k - (32 - so)) eo)), andb_true_r by lia. cbn [andb].
        rewrite <-(register_bit data _ de (k - (32 - so)) Hd Ee) by lia. f_equal. lia.
      * rewrite (proj2 (Z.leb_gt (k - (32 - so)) eo)) by lia. by rewrite !andb_false_r.
  - assert (ei = si) as Eei by lia. f_equal. apply Z.bits_inj'. intros k Hk. rewrite Hf by done.
    rewrite Z.shiftr_spec, Z.land_spec, endmask_bit by (lia || done).
    destruct (Z.leb_spec k (hi - lo)) as [Hkl|Hkl].
    + rewrite (proj2 (Z.leb_le (k + so) eo)), andb_true_r by lia. cbn [andb].
      rewrite <-(register_bit data _ ds (k + so) Hd Es) by lia. f_equal. lia.
    + rewrite (proj2 (Z.leb_gt (k + so) eo)) by lia. by rewrite andb_false_r.
Qed.

(** C37.  A slice is a bit field of the register: for four words and bits [hi] down
    to [lo] of the register, at most 32 of them, _mmcsd_get_slice gives these bits as a
    number, bit [lo] of the register as its bit 0 (right aligned, where the comment
    of the function says left aligned), whether they lie in one word or in two,
    provided that the undefined shift by 32 places is 0 where a field ends at the
    last bit of a word. *)
Theorem mmcsd_get_slice_correct data hi lo :
  length data = 4%nat → words data → 0 ≤ lo ≤ hi → hi < 128 → hi - lo < 32 → (hi `mod` 32 = 31 → wide_shl 1 32 = 0) →
  ∃ v, _mmcsd_get_slice data hi lo = Some v ∧ v = (register data / 2 ^ lo) `mod` 2 ^ (hi - lo + 1) ∧ 0 ≤ v < 2 ^ (hi - lo + 1).
Proof.
  intros Hl Hd Hlo Hhi Hlt Hub. exists (field (register data) (hi, lo)). split; [by apply slice_field|]. split; [done|].
  apply Z.mod_pos_bound. apply Z.pow_pos_nonneg; simpl; lia.
Qed.

(** A field of four words is always found. *)
Definition position (s : Z * Z) : bool := (0 <=? snd s) && (snd s <=? fst s) && (fst s <? 128) && (fst s - snd s <? 32).
Lemma get_field_some data s : length data = 4%nat → position s = true → is_Some (get_field data s).
Proof.
  intros Hl. destruct s as [hi lo]. unfold position, get_field, _mmcsd_get_slice. cbn [fst snd].
  rewrite !andb_true_iff, !Z.leb_le, !Z.ltb_lt. intros (((? & ?) & ?) & ?).
  rewrite (proj2 (Z.leb_le _ _)), (proj2 (Z.ltb_lt _ _)) by lia. cbn [andb].
  assert (0 ≤ lo / 32 < 4 ∧ 0 ≤ hi / 32 < 4) as [Hs He] by (split; (split; [apply Z.div_pos|apply Z.div_lt_upper_bound]; lia)).
  destruct (lookup_lt_is_Some_2 data (Z.to_nat (lo / 32))) as [ds ->]; [lia|].
  destruct (lookup_lt_is_Some_2 data (Z.to_nat (hi / 32))) as [de ->]; [lia|]. cbn [mbind option_bind].
  destruct (_ <? _); by eexists.
Qed.

Lemma capacity_some csd : length csd = 4%nat → is_Some (_mmcsd_get_capacity csd).
Proof.
  intros Hl. pose proof (get_field_some csd) as Hg. unfold _mmcsd_get_capacity.
  repeat match goal with |- context [get_field csd ?s] => destruct (Hg s Hl eq_refl) as [? ->]; cbn [mbind option_bind] end.
  repeat destruct (_ =? _); by eexists.
Qed.

(** On a target where the wide shift gives 0. *)
Section Registers.
Hypothesis wide : wide_shl 1 32 = 0.
Variable data : list Z.
Hypothesis four : length data = 4%nat.
Hypothesis Hwords : words data.
Notation f := (field (register data)).

Lemma get_field_eq s : position s = true → get_field data s = Some (f s).
Proof using wide four Hwords.
  destruct s as [hi lo]. unfold position. rewrite !andb_true_iff, !Z.leb_le, !Z.ltb_lt. intros (((? & ?) & ?) & ?).
  by apply slice_field.
Qed.
Lemma field_bound s : snd s ≤ fst s → 0 ≤ f s < 2 ^ (fst s - snd s + 1).
Proof using. clear four. intros Hs. apply Z.mod_pos_bound. apply Z.pow_pos_nonneg; lia. Qed.

(** The casts to 8 and 16 bits keep narrower fields. *)
Lemma u8_field s : snd s ≤ fst s ≤ snd s + 7 → u8 (f s) = f s.
Proof using. clear four. intros Hs. pose proof (field_bound s). apply Z.mod_small. pose proof (Z.pow_le_mono_r 2 (fst s - snd s + 1) 8). lia. Qed.
Lemma u16_field s : snd s ≤ fst s ≤ snd s + 15 → u16 (f s) = f s.
Proof using. clear four. intros Hs. pose proof (field_bound s). apply Z.mod_small. pose proof (Z.pow_le_mono_r 2 (fst s - snd s + 1) 16). lia. Qed.

Lemma capacity_v1 :
  f MMCSD_CSD_10_CSD_STRUCTURE_SLICE = 0 →
  _mmcsd_get_capacity data =
  if 9 <=? f MMCSD_CSD_10_READ_BL_LEN_SLICE then
    Some ((f MMCSD_CSD_10_C_SIZE_SLICE + 1) * 2 ^ (f MMCSD_CSD_10_C_SIZE_MULT_SLICE + 2) * 2 ^ (f MMCSD_CSD_10_READ_BL_LEN_SLICE - 9))
  else Some (wide_shl ((f MMCSD_CSD_10_C_SIZE_SLICE + 1) * 2 ^ (f MMCSD_CSD_10_C_SIZE_MULT_SLICE + 2)) (f MMCSD_CSD_10_READ_BL_LEN_SLICE - 9 + 2 ^ 32)).
Proof using wide four Hwords.
  intros E0. unfold _mmcsd_get_capacity. rewrite !get_field_eq by done. cbn [mbind option_bind]. rewrite E0, Z.eqb_refl.
  pose proof (field_bound MMCSD_CSD_10_C_SIZE_SLICE ltac:(simpl; lia)) as Ha. pose proof (field_bound MMCSD_CSD_10_C_SIZE_MULT_SLICE ltac:(simpl; lia)) as Hb.
  pose proof (field_bound MMCSD_CSD_10_READ_BL_LEN_SLICE ltac:(simpl; lia)) as Hc.
  set (a := f MMCSD_CSD_10_C_SIZE_SLICE) in *. set (b := f MMCSD_CSD_10_C_SIZE_MULT_SLICE) in *. set (c := f MMCSD_CSD_10_READ_BL_LEN_SLICE) in *.
  cbn in Ha, Hb, Hc. rewrite (u32_small (a + 1)), (u32_small (b + 2)) by (unfold is_u32; lia). unfold shl32.
  rewrite (proj2 (Z.ltb_lt (b + 2) 32)) by lia.
  assert (0 < 2 ^ (b + 2) ≤ 2 ^ 9) as Hp by (split; [apply Z.pow_pos_nonneg; lia|apply Z.pow_le_mono_r; lia]).
  change (0 ≤ a < 2 ^ 12) in Ha. change (0 ≤ b < 2 ^ 3) in Hb. change (0 ≤ c < 2 ^ 4) in Hc.
  rewrite (Z.shiftl_mul_pow2 (a + 1) (b + 2)) by lia. rewrite (u32_small (_ * 2 ^ (b + 2))) by (unfold is_u32; nia).
  destruct (Z.leb_spec 9 c) as [H9|H9].
  - rewrite (u32_small (c - 9)) by (unfold is_u32; lia). rewrite (proj2 (Z.ltb_lt (c - 9) 32)) by lia.
    assert (0 < 2 ^ (c - 9) ≤ 2 ^ 6) as Hq by (split; [apply Z.pow_pos_nonneg; lia|apply Z.pow_le_mono_r; lia]).
    rewrite Z.shiftl_mul_pow2 by lia. f_equal. apply u32_small. unfold is_u32. split; [nia|].
    assert ((a + 1) * 2 ^ (b + 2) ≤ 4096 * 2 ^ 9) by nia. nia.
  - assert (u32 (c - 9) = c - 9 + 2 ^ 32) as ->.
    { unfold u32. rewrite <-(Z_mod_plus_full (c - 9) 1). apply Z.mod_small. lia. }
    by rewrite (proj2 (Z.ltb_ge _ 32)) by lia.
Qed.
End Registers.

(** The capacity of a card, in blocks of 512 bytes: for a CSD of version 1 it is
    (C_SIZE + 1) * 2^(C_SIZE_MULT + 2) blocks of 2^READ_BL_LEN bytes (the value
    of an undefined shift when those are less than 512), for version 2 (C_SIZE + 1) * 512 KiB,
    wrapping to 0 for the largest C_SIZE, and 0 for a reserved version. *)
Theorem mmcsd_get_capacity_correct csd :
  wide_shl 1 32 = 0 → length csd = 4%nat → words csd →
  let f := field (register csd) in
  (f MMCSD_CSD_10_CSD_STRUCTURE_SLICE = 0 →
     if 9 <=? f MMCSD_CSD_10_READ_BL_LEN_SLICE then
       ∃ n, _mmcsd_get_capacity csd = Some n ∧ is_u32 n ∧
         n * MMCSD_BLOCK_SIZE = (f MMCSD_CSD_10_C_SIZE_SLICE + 1) * 2 ^ (f MMCSD_CSD_10_C_SIZE_MULT_SLICE + 2) * 2 ^ f MMCSD_CSD_10_READ_BL_LEN_SLICE
     else ∃ x, _mmcsd_get_capacity csd = Some (wide_shl x (f MMCSD_CSD_10_READ_BL_LEN_SLICE - 9 + 2 ^ 32))) ∧
  (f MMCSD_CSD_10_CSD_STRUCTURE_SLICE = 1 →
     ∃ n, _mmcsd_get_capacity csd = Some n ∧ is_u32 n ∧
       n * MMCSD_BLOCK_SIZE = if f MMCSD_CSD_20_C_SIZE_SLICE <? 2 ^ 22 - 1 then (f MMCSD_CSD_20_C_SIZE_SLICE + 1) * 512 * 1024 else 0) ∧
  (2 ≤ f MMCSD_CSD_10_CSD_STRUCTURE_SLICE → _mmcsd_get_capacity csd = Some 0).
Proof.
  intros wide four Hw. cbv zeta. pose proof (get_field_eq wide csd four Hw) as Hg. pose proof (field_bound csd) as Hb.
  pose proof (capacity_v1 wide csd four Hw) as Ec. set (f := field (register csd)) in *.
  pose proof (Hb MMCSD_CSD_10_C_SIZE_SLICE ltac:(simpl; lia)) as Ha. change (0 ≤ f MMCSD_CSD_10_C_SIZE_SLICE < 2 ^ 12) in Ha.
  pose proof (Hb MMCSD_CSD_10_C_SIZE_MULT_SLICE ltac:(simpl; lia)) as Hm. change (0 ≤ f MMCSD_CSD_10_C_SIZE_MULT_SLICE < 2 ^ 3) in Hm.
  pose proof (Hb MMCSD_CSD_10_READ_BL_LEN_SLICE ltac:(simpl; lia)) as Hc. change (0 ≤ f MMCSD_CSD_10_READ_BL_LEN_SLICE < 2 ^ 4) in Hc.
  pose proof (Hb MMCSD_CSD_20_C_SIZE_SLICE ltac:(simpl; lia)) as Ha2. change (0 ≤ f MMCSD_CSD_20_C_SIZE_SLICE < 2 ^ 22) in Ha2.
  split_and!; intros Ev.
  - rewrite (Ec Ev). destruct (Z.leb_spec 9 (f MMCSD_CSD_10_READ_BL_LEN_SLICE)) as [H9|H9]; [|by eexists]. eexists. split; [done|].
    assert (0 < 2 ^ (f MMCSD_CSD_10_C_SIZE_MULT_SLICE + 2) ≤ 2 ^ 9) by (split; [apply Z.pow_pos_nonneg; lia|apply Z.pow_le_mono_r; lia]).
    assert (0 < 2 ^ (f MMCSD_CSD_10_READ_BL_LEN_SLICE - 9) ≤ 2 ^ 6) by (split; [apply Z.pow_pos_nonneg; lia|apply Z.pow_le_mono_r; lia]).
    assert ((f MMCSD_CSD_10_C_SIZE_SLICE + 1) * 2 ^ (f MMCSD_CSD_10_C_SIZE_MULT_SLICE + 2) ≤ 4096 * 2 ^ 9) by nia.
    split; [unfold is_u32; nia|]. unfold MMCSD_BLOCK_SIZE. change 512 with (2 ^ 9). rewrite <-Z.mul_assoc, <-Z.pow_add_r by lia. do 2 f_equal. lia.
  - unfold _mmcsd_get_capacity. rewrite !Hg by done. cbn [mbind option_bind]. rewrite Ev. simpl.
    eexists. split; [done|]. split; [apply u32_range|]. rewrite (u32_small (f _ + 1)) by (unfold is_u32; lia).
    destruct (Z.ltb_spec (f MMCSD_CSD_20_C_SIZE_SLICE) (2 ^ 22 - 1)) as [Hl|Hl].
    + rewrite u32_small by (unfold is_u32; lia). unfold MMCSD_BLOCK_SIZE. lia.
    + assert (f MMCSD_CSD_20_C_SIZE_SLICE = 2 ^ 22 - 1) as -> by lia. done.
  - unfold _mmcsd_get_capacity. rewrite !Hg by done. cbn [mbind option_bind].
    rewrite (proj2 (Z.eqb_neq _ 0)), (proj2 (Z.eqb_neq _ 1)) by lia. done.
Qed.

(** Unpacking a CSD of version 2: every field of the structure is the field of
    the register at its position, but for write_bl_len, whose position in
    hal_mmcsd.h is 25,12 where the register has it at 25,22: it is the byte at
    bit 12. *)
Theorem mmcsd_unpack_csd_v20_correct sdcp old :
  wide_shl 1 32 = 0 → length (csd sdcp) = 4%nat → words (csd sdcp) →
  let f := field (register (csd sdcp)) in
  _mmcsd_unpack_csd_v20 sdcp old = Some (mk_c20 (f (127, 126)) (f (119, 112)) (f (111, 104)) (f (103, 96)) (f (95, 84)) (f (83, 80))
    (f (79, 79)) (f (78, 78)) (f (77, 77)) (f (76, 76)) (f (69, 48)) (f (46, 46)) (f (45, 39)) (f (38, 32)) (f (31, 31)) (f (28, 26))
    (f (19, 12)) (f (21, 21)) (f (15, 15)) (f (14, 14)) (f (13, 13)) (f (12, 12)) (f (11, 10)) (f (7, 1))).
Proof.
  intros wide four Hw f. unfold _mmcsd_unpack_csd_v20.
  repeat (rewrite (get_field_eq wide _ four Hw) by done; cbn [mbind option_bind]).
  assert (u8 (field (register (csd sdcp)) MMCSD_CSD_20_WRITE_BL_LEN_SLICE) = f (19, 12)) as ->.
  { unfold u8, f, field. simpl. rewrite <-Znumtheory.Zmod_div_mod by (try lia; by exists 64). done. }
  rewrite !u8_field by (simpl; lia). rewrite !u16_field by (simpl; lia). done.
Qed.
End Fields.

(** ** Examples *)

(** The CSD of a card of 8 GB; a machine whose shifts by 32 give 0. *)
Definition arm : Target := {| wide_shl := λ _ _, 0 |}.
Definition ex_csd : list Z := [0x0A4000A3; 0x3BD97F80; 0x5B590000; 0x400E0032].
Lemma ex_csd_words : words ex_csd.
Proof. repeat constructor; unfold is_u32; lia. Qed.

Lemma get_slice_witness : @_mmcsd_get_slice arm ex_csd 69 48 = Some 0x3BD9.
Proof.
  destruct (@mmcsd_get_slice_correct arm ex_csd 69 48) as (v & -> & -> & _); [reflexivity|apply ex_csd_words|lia|lia|lia|reflexivity|].
  vm_compute. reflexivity.
Defined.

Lemma get_capacity_witness : ∃ n, @_mmcsd_get_capacity arm ex_csd = Some n ∧ n * 512 = 0x3BDA * 512 * 1024.
Proof.
  destruct (@mmcsd_get_capacity_correct arm ex_csd eq_refl eq_refl ex_csd_words) as (_ & H1 & _).
  destruct H1 as (n & E & _ & En); [vm_compute; reflexivity|]. exists n. split; [exact E|].
  etransitivity; [exact En|]. vm_compute. reflexivity.
Defined.

(** The register has WRITE_BL_LEN = 9, the structure 0. *)
Lemma unpack_witness : ∃ r, @_mmcsd_unpack_csd_v20 arm (mkDevice [] ex_csd 0) (mk_c20 0 0 0 0 0 0 0 0 0 0 0 0 0 0 0 0 0 0 0 0 0 0 0 0) = Some r ∧
  c20_c_size r = 0x3BD9 ∧ c20_read_bl_len r = 9 ∧ c20_write_bl_len r = 0 ∧ field (register ex_csd) (25, 22) = 9.
Proof.
  eexists. split; [apply (@mmcsd_unpack_csd_v20_correct arm (mkDevice [] ex_csd 0)); [reflexivity|reflexivity|apply ex_csd_words]|].
  vm_compute. repeat split.
Defined.
