(* ===== verification/Crc7.v ===== *)
(** * The CRC of the card commands (os/hal/src/mmc_spi.c)

    The function crc7 works on bytes with a table of 256 entries. It is proved to
    agree with the shift register that the card standard defines, and to give the
    remainder of a division of polynomials over GF(2). *)

From S2P Require Import Prelude.

Definition crc7_lookup_table : list Z :=
  [0x00; 0x09; 0x12; 0x1b; 0x24; 0x2d; 0x36; 0x3f; 0x48; 0x41; 0x5a; 0x53; 0x6c; 0x65; 0x7e; 0x77; 0x19; 0x10; 0x0b; 0x02;
   0x3d; 0x34; 0x2f; 0x26; 0x51; 0x58; 0x43; 0x4a; 0x75; 0x7c; 0x67; 0x6e; 0x32; 0x3b; 0x20; 0x29; 0x16; 0x1f; 0x04; 0x0d;
   0x7a; 0x73; 0x68; 0x61; 0x5e; 0x57; 0x4c; 0x45; 0x2b; 0x22; 0x39; 0x30; 0x0f; 0x06; 0x1d; 0x14; 0x63; 0x6a; 0x71; 0x78;
   0x47; 0x4e; 0x55; 0x5c; 0x64; 0x6d; 0x76; 0x7f; 0x40; 0x49; 0x52; 0x5b; 0x2c; 0x25; 0x3e; 0x37; 0x08; 0x01; 0x1a; 0x13;
   0x7d; 0x74; 0x6f; 0x66; 0x59; 0x50; 0x4b; 0x42; 0x35; 0x3c; 0x27; 0x2e; 0x11; 0x18; 0x03; 0x0a; 0x56; 0x5f; 0x44; 0x4d;
   0x72; 0x7b; 0x60; 0x69; 0x1e; 0x17; 0x0c; 0x05; 0x3a; 0x33; 0x28; 0x21; 0x4f; 0x46; 0x5d; 0x54; 0x6b; 0x62; 0x79; 0x70;
   0x07; 0x0e; 0x15; 0x1c; 0x23; 0x2a; 0x31; 0x38; 0x41; 0x48; 0x53; 0x5a; 0x65; 0x6c; 0x77; 0x7e; 0x09; 0x00; 0x1b; 0x12;
   0x2d; 0x24; 0x3f; 0x36; 0x58; 0x51; 0x4a; 0x43; 0x7c; 0x75; 0x6e; 0x67; 0x10; 0x19; 0x02; 0x0b; 0x34; 0x3d; 0x26; 0x2f;
   0x73; 0x7a; 0x61; 0x68; 0x57; 0x5e; 0x45; 0x4c; 0x3b; 0x32; 0x29; 0x20; 0x1f; 0x16; 0x0d; 0x04; 0x6a; 0x63; 0x78; 0x71;
   0x4e; 0x47; 0x5c; 0x55; 0x22; 0x2b; 0x30; 0x39; 0x06; 0x0f; 0x14; 0x1d; 0x25; 0x2c; 0x37; 0x3e; 0x01; 0x08; 0x13; 0x1a;
   0x6d; 0x64; 0x7f; 0x76; 0x49; 0x40; 0x5b; 0x52; 0x3c; 0x35; 0x2e; 0x27; 0x18; 0x11; 0x0a; 0x03; 0x74; 0x7d; 0x66; 0x6f;
   0x50; 0x59; 0x42; 0x4b; 0x17; 0x1e; 0x05; 0x0c; 0x33; 0x3a; 0x21; 0x28; 0x5f; 0x56; 0x4d; 0x44; 0x7b; 0x72; 0x69; 0x60;
   0x0e; 0x07; 0x1c; 0x15; 0x2a; 0x23; 0x38; 0x31; 0x46; 0x4f; 0x54; 0x5d; 0x62; 0x6b; 0x70; 0x79].

(** The index is an [int]: it is not reduced to 8 bits. *)
Fixpoint crc7 (crc : Z) (buffer : list Z) : option Z :=
  match buffer with
  | [] => Some crc
  | b :: buffer => crc ← crc7_lookup_table !! Z.to_nat (Z.lxor (Z.shiftl crc 1) b); crc7 crc buffer
  end.

(** ** The shift register

    Seven bits, x^7 + x^3 + 1: the bits of the message, the most significant first,
    are added to the bit that leaves the register. *)

Definition crc_bit (crc : Z) (b : bool) : Z :=
  let sh := Z.land (Z.shiftl crc 1) 0x7F in
  if xorb (Z.testbit crc 6) b then Z.lxor sh 0x09 else sh.
Definition crc_byte (crc byte : Z) : Z := foldl crc_bit crc (Z.testbit byte <$> [7; 6; 5; 4; 3; 2; 1; 0]).

(** ** Polynomials

    A polynomial over GF(2) is the number of its coefficients, addition is
    the exclusive or and multiplication by x a shift.  The multiples of [g] are
    the ideal it generates. *)

Inductive multiple (g : Z) : Z → Prop :=
  | multiple_0 : multiple g 0
  | multiple_g : multiple g g
  | multiple_x p : multiple g p → multiple g (2 * p)
  | multiple_add p q : multiple g p → multiple g q → multiple g (Z.lxor p q).

(** x^7 + x^3 + 1, and the message as one number. *)
Definition generator : Z := 0x89.
Definition message (bytes : list Z) : Z := foldl (λ m b, m * 2 ^ 8 + b) 0 bytes.

(** A division: the terms of the degrees [7 + n] to 7 are removed. *)
Fixpoint reduce (n : nat) (p : Z) : Z :=
  let p := if Z.testbit p (7 + Z.of_nat n) then Z.lxor p (Z.shiftl generator (Z.of_nat n)) else p in
  match n with O => p | S n => reduce n p end.

(** ** Lemmas *)

Definition is_byte (b : Z) : Prop := 0 ≤ b < 2 ^ 8.

Lemma multiple_shift g n p : multiple g p → multiple g (Z.shiftl p (Z.of_nat n)).
Proof.
  intros Hp. induction n as [|n IH]; [by rewrite Z.shiftl_0_r|].
  replace (Z.of_nat (S n)) with (Z.of_nat n + 1) by lia. rewrite <-Z.shiftl_shiftl by lia.
  rewrite (Z.shiftl_mul_pow2 _ 1) by lia. rewrite Z.mul_comm. by apply multiple_x.
Qed.

Lemma reduce_multiple n p : multiple generator (Z.lxor p (reduce n p)).
Proof.
  assert (∀ q n, multiple generator (Z.lxor q (if Z.testbit q (7 + Z.of_nat n) then Z.lxor q (Z.shiftl generator (Z.of_nat n)) else q))) as H1.
  { intros q k. destruct (Z.testbit q _).
    - rewrite <-Z.lxor_assoc, Z.lxor_nilpotent, Z.lxor_0_l. apply multiple_shift, multiple_g.
    - rewrite Z.lxor_nilpotent. apply multiple_0. }
  revert p. induction n as [|n IH]; intros p; [apply H1|]. cbn [reduce].
  pose proof (H1 p (S n)) as H2. set (q := if Z.testbit p (7 + Z.of_nat (S n)) then _ else _) in *.
  replace (Z.lxor p (reduce n q)) with (Z.lxor (Z.lxor p q) (Z.lxor q (reduce n q))).
  - by apply multiple_add.
  - rewrite Z.lxor_assoc, <-(Z.lxor_assoc q q), Z.lxor_nilpotent, Z.lxor_0_l. done.
Qed.

(** Every entry of the table: the remainder of its index times x^7, below 128. *)
Lemma table_reduce : forallb (λ i, match crc7_lookup_table !! i with
  | Some e => (e =? reduce 7 (Z.of_nat i * 2 ^ 7)) && (0 <=? e) && (e <? 128) | None => false end) (seq 0 256) = true.
Proof. vm_compute. reflexivity. Qed.

Lemma table_entry i :
  0 ≤ i < 2 ^ 8 → ∃ e, crc7_lookup_table !! Z.to_nat i = Some e ∧ 0 ≤ e < 128 ∧ multiple generator (Z.lxor (i * 2 ^ 7) e).
Proof.
  intros Hi. pose proof table_reduce as Ht. rewrite forallb_forall in Ht. specialize (Ht (Z.to_nat i)).
  rewrite in_seq in Ht. specialize (Ht ltac:(lia)). destruct (crc7_lookup_table !! Z.to_nat i) as [e|]; [|done].
  rewrite !andb_true_iff, Z.eqb_eq, Z.leb_le, Z.ltb_lt in Ht. destruct Ht as [[-> ?] ?].
  eexists. split; [done|]. split; [lia|]. rewrite Z2Nat.id by lia. apply reduce_multiple.
Qed.

(** The table and the shift register, for every register and byte. *)
Lemma table_bits : forallb (λ c, forallb (λ b,
  match crc7_lookup_table !! Z.to_nat (Z.lxor (Z.shiftl (Z.of_nat c) 1) (Z.of_nat b)) with
  | Some e => e =? crc_byte (Z.of_nat c) (Z.of_nat b) | None => false end) (seq 0 256)) (seq 0 128) = true.
Proof. vm_compute. reflexivity. Qed.

Lemma crc_byte_entry c b : 0 ≤ c < 128 → is_byte b → crc7_lookup_table !! Z.to_nat (Z.lxor (Z.shiftl c 1) b) = Some (crc_byte c b).
Proof.
  intros Hc Hb. unfold is_byte in Hb. pose proof table_bits as Ht. rewrite forallb_forall in Ht. specialize (Ht (Z.to_nat c)).
  rewrite in_seq in Ht. specialize (Ht ltac:(lia)). rewrite forallb_forall in Ht. specialize (Ht (Z.to_nat b)).
  rewrite in_seq in Ht. specialize (Ht ltac:(lia)). rewrite !Z2Nat.id in Ht by lia.
  destruct (_ !! _) as [e|]; [|done]. apply Z.eqb_eq in Ht. by rewrite Ht.
Qed.

Lemma index_range c b : 0 ≤ c < 128 → is_byte b → 0 ≤ Z.lxor (Z.shiftl c 1) b < 2 ^ 8.
Proof.
  intros Hc Hb. unfold is_byte in Hb. rewrite Z.shiftl_mul_pow2 by lia.
  assert (0 ≤ Z.lxor (c * 2 ^ 1) b) as H0 by (apply Z.lxor_nonneg; lia). split; [done|].
  destruct (decide (Z.lxor (c * 2 ^ 1) b = 0)) as [->|Hn]; [lia|]. apply Z.log2_lt_pow2; [lia|].
  pose proof (Z.log2_lxor (c * 2 ^ 1) b ltac:(lia) ltac:(lia)).
  assert (∀ x, 0 ≤ x < 2 ^ 8 → Z.log2 x < 8) as Hl.
  { intros x Hx. destruct (decide (x = 0)) as [->|]; [done|]. apply Z.log2_lt_pow2; lia. }
  pose proof (Hl (c * 2 ^ 1) ltac:(lia)). pose proof (Hl b Hb). lia.
Qed.

(** One more byte of the message. *)
Lemma crc_step m c b e :
  0 ≤ m → 0 ≤ c < 128 → is_byte b → multiple generator (Z.lxor (m * 2 ^ 7) c) →
  multiple generator (Z.lxor (Z.lxor (Z.shiftl c 1) b * 2 ^ 7) e) → multiple generator (Z.lxor ((m * 2 ^ 8 + b) * 2 ^ 7) e).
Proof.
  intros Hm Hc Hb H1 H2. unfold is_byte in Hb. apply (multiple_shift _ 8) in H1. pose proof (multiple_add _ _ _ H1 H2) as H3.
  match goal with |- multiple _ ?x => match type of H3 with multiple _ ?y => replace x with y; [done|] end end.
  rewrite <-!Z.shiftl_mul_pow2, !Z.shiftl_lxor by lia. rewrite !Z.shiftl_shiftl by lia.
  assert (Z.shiftl (Z.shiftl m 8 + b) 7 = Z.lxor (Z.shiftl m 15) (Z.shiftl b 7)) as ->.
  { rewrite Z.add_comm, (Z.shiftl_mul_pow2 m 8), <-lor_shift by lia.
    rewrite Z.shiftl_lor, Z.shiftl_shiftl by lia. rewrite Z.lor_comm. apply Z.bits_inj'. intros i Hi.
    rewrite Z.lor_spec, Z.lxor_spec, !Z.shiftl_spec by done. change (8 + 7) with 15. destruct (Z.lt_ge_cases i 15).
    - rewrite (Z.testbit_neg_r m) by lia. by destruct (Z.testbit b _).
    - rewrite (testbit_high b 8) by lia. by rewrite orb_false_r, xorb_false_r. }
  apply Z.bits_inj'. intros i Hi. rewrite !Z.lxor_spec.
  change (7 + Z.of_nat 8) with 15. change (Z.of_nat 8) with 8. change (1 + 7) with 8.
  destruct (Z.testbit (Z.shiftl m 15) i), (Z.testbit (Z.shiftl c 8) i), (Z.testbit (Z.shiftl b 7) i), (Z.testbit e i); done.
Qed.

Lemma crc7_gen bytes : ∀ m c,
  Forall is_byte bytes → 0 ≤ m → 0 ≤ c < 128 → multiple generator (Z.lxor (m * 2 ^ 7) c) →
  ∃ r, crc7 c bytes = Some r ∧ 0 ≤ r < 128 ∧ r = foldl crc_byte c bytes ∧
    multiple generator (Z.lxor (foldl (λ m b, m * 2 ^ 8 + b) m bytes * 2 ^ 7) r).
Proof.
  induction bytes as [|b bytes IH]; intros m c Hb Hm Hc H1; [by exists c|]. apply Forall_cons in Hb as [Hb Hbs].
  destruct (table_entry _ (index_range c b Hc Hb)) as (e & Ee & He & He2). pose proof (crc_byte_entry c b Hc Hb) as Eb.
  rewrite Ee in Eb. injection Eb as ->. cbn [crc7]. rewrite Ee. cbn [mbind option_bind foldl].
  apply IH; try done; [unfold is_byte in Hb; lia|]. by apply (crc_step m c b).
Qed.

(** C27.  The table-driven crc7 is the CRC-7 of the card standard: for every message
    of bytes the index stays within the table, the result is what the shift
    register of x^7 + x^3 + 1 holds after the bits of the message, and it is the
    remainder of the message times x^7: below 128, and a multiple of the
    generator when it is added. *)
Theorem crc7_correct bytes :
  Forall is_byte bytes →
  ∃ r, crc7 0 bytes = Some r ∧ 0 ≤ r < 128 ∧ r = foldl crc_byte 0 bytes ∧ multiple generator (Z.lxor (message bytes * 2 ^ 7) r).
Proof. intros Hb. apply crc7_gen; [done|lia|lia|]. apply multiple_0. Qed.

(** CMD0: the frame 40 00 00 00 00 95. *)
Lemma crc7_witness : crc7 0 [0x40; 0; 0; 0; 0] = Some 0x4A ∧ multiple generator (Z.lxor (0x4000000000 * 2 ^ 7) 0x4A).
Proof.
  destruct (crc7_correct [0x40; 0; 0; 0; 0]) as (r & E & _ & _ & Hm); [repeat constructor; unfold is_byte; lia|].
  vm_compute in E. injection E as <-. split; [reflexivity|exact Hm].
Defined.
