(* ===== verification/MmcSpi.v ===== *)
(** * MMC and SD cards over SPI (os/hal/src/mmc_spi.c, os/hal/src/spi.c)

    The card driver on top of the synchronous functions of the SPI driver.  What
    the card answers is a sequence of bytes, one for each byte that is clocked:
    everything holds for all sequences, so for every behaviour of a card. *)

From S2P Require Import Prelude Mmcsd Crc7.

(** ** Environment *)

(** The two configurations of the bus, slow and fast. *)
Inductive spicfg := lscfg | hscfg.

(** The bytes that are received, one per byte on the bus; the polls of the card
    after which the model gives up a loop that has no bound in the code; whether a
    configuration has a callback. *)
Class Bus := { miso : nat → Z; max_polls : nat; end_cb : spicfg → bool }.

(** ** Data *)

Inductive spistate := SPI_UNINIT | SPI_STOP | SPI_READY | SPI_ACTIVE | SPI_COMPLETE.
#[export] Instance spistate_eq_dec : EqDecision spistate.
Proof. solve_decision. Defined.

Inductive blkstate := BLK_UNINIT | BLK_STOP | BLK_ACTIVE | BLK_CONNECTING | BLK_DISCONNECTING | BLK_READY | BLK_READING | BLK_WRITING | BLK_SYNCING.
#[export] Instance blkstate_eq_dec : EqDecision blkstate.
Proof. solve_decision. Defined.

(** What happens on the bus. *)
Inductive event := EvStart (c : spicfg) | EvStop | EvSelect | EvUnselect | EvSend (l : list Z) | EvReceive (n : nat) | EvIgnore (n : nat).

(** The structure MMCDriver, [configured] if its [config] is set, the SPI driver it
    uses, the number of bytes clocked so far and the events on the bus. *)
Record mmc := mkMmc {
  state : blkstate;
  configured : bool;
  block_addresses : bool;
  dev : MMCSDBlockDevice;
  spi_state : spistate;
  spi_config : option spicfg;
  pos : nat;
  log : list event
}.
Definition set_state v s := mkMmc v (configured s) (block_addresses s) (dev s) (spi_state s) (spi_config s) (pos s) (log s).
Definition set_configured v s := mkMmc (state s) v (block_addresses s) (dev s) (spi_state s) (spi_config s) (pos s) (log s).
Definition set_block_addresses v s := mkMmc (state s) (configured s) v (dev s) (spi_state s) (spi_config s) (pos s) (log s).
Definition set_dev v s := mkMmc (state s) (configured s) (block_addresses s) v (spi_state s) (spi_config s) (pos s) (log s).
Definition set_spi_state v s := mkMmc (state s) (configured s) (block_addresses s) (dev s) v (spi_config s) (pos s) (log s).
Definition set_spi_config v s := mkMmc (state s) (configured s) (block_addresses s) (dev s) (spi_state s) v (pos s) (log s).
Definition advance n s := mkMmc (state s) (configured s) (block_addresses s) (dev s) (spi_state s) (spi_config s) (pos s + n) (log s).
Definition emit e s := mkMmc (state s) (configured s) (block_addresses s) (dev s) (spi_state s) (spi_config s) (pos s) (log s ++ [e]).

(** ** Computations: a result, a failed check, undefined behaviour, or an endless
    loop *)

Inductive mres (A : Type) : Type := MDone (a : A) (s : mmc) | MHalt (reason : string) | MFault | MLoop.
Arguments MDone {A} _ _.
Arguments MHalt {A} _.
Arguments MFault {A}.
Arguments MLoop {A}.

Definition MM (A : Type) : Type := mmc → mres A.
#[export] Instance MM_ret : MRet MM := λ A a s, MDone a s.
#[export] Instance MM_bind : MBind MM := λ A B k m s,
  match m s with MDone a s' => k a s' | MHalt r => MHalt r | MFault => MFault | MLoop => MLoop end.
Definition mgets {A} (f : mmc → A) : MM A := λ s, MDone (f s) s.
Definition mmod (f : mmc → mmc) : MM unit := λ s, MDone tt (f s).
Definition mderef {A} (o : option A) : MM A := λ s, match o with Some a => MDone a s | None => MFault end.
Definition osalDbgAssert (c : bool) (func : string) : MM unit := λ s, if c then MDone tt s else MHalt func.

Definition HAL_SUCCESS : bool := false.
Definition HAL_FAILED : bool := true.

Section Driver.
Context `{Target} `{Bus}.

(** ** SPI driver

    It is reached through the configuration of the card driver: the access to
    [mmcp->config] comes first. *)

Definition spip : MM unit := c ← mgets configured; mderef (if c : bool then Some () else None).

Definition stop_or_ready (s : mmc) : bool := bool_decide (spi_state s = SPI_STOP) || bool_decide (spi_state s = SPI_READY).
Definition spiStart (config : spicfg) : MM unit :=
  spip ;; b ← mgets stop_or_ready; osalDbgAssert b "spiStart" ;;
  mmod (set_spi_config (Some config)) ;; mmod (emit (EvStart config)) ;; mmod (set_spi_state SPI_READY).
Definition spiStop : MM unit :=
  spip ;; b ← mgets stop_or_ready; osalDbgAssert b "spiStop" ;; mmod (emit EvStop) ;; mmod (set_spi_state SPI_STOP).
Definition spiSelect : MM unit :=
  spip ;; st ← mgets spi_state; osalDbgAssert (bool_decide (st = SPI_READY)) "spiSelect" ;; mmod (emit EvSelect).
Definition spiUnselect : MM unit :=
  spip ;; st ← mgets spi_state; osalDbgAssert (bool_decide (st = SPI_READY)) "spiUnselect" ;; mmod (emit EvUnselect).

(** The end of a transfer, for a configuration without a callback. *)
Definition _spi_isr_code : MM unit := mmod (set_spi_state SPI_READY).

(** A transfer of [n] bytes: the thread is suspended until the interrupt. *)
Definition transfer (e : event) (n : nat) (func : string) : MM (list Z) :=
  spip ;; osalDbgAssert (0 <? n)%nat func ;;
  st ← mgets spi_state; osalDbgAssert (bool_decide (st = SPI_READY)) func ;;
  c ← mgets spi_config; config ← mderef c; osalDbgAssert (negb (end_cb config)) func ;;
  mmod (set_spi_state SPI_ACTIVE) ;;
  p ← mgets pos;
  mmod (emit e) ;; mmod (advance n) ;;
  _spi_isr_code ;;
  mret (miso <$> seq p n).
Definition spiSend (txbuf : list Z) : MM unit := _ ← transfer (EvSend txbuf) (length txbuf) "spiSend"; mret ().
Definition spiReceive (n : nat) : MM (list Z) := transfer (EvReceive n) n "spiReceive".
Definition spiIgnore (n : nat) : MM unit := _ ← transfer (EvIgnore n) n "spiIgnore"; mret ().

(** The first byte of a buffer. *)
Definition receive_byte : MM Z := l ← spiReceive 1; mderef (head l).

(** ** Commands *)

Definition MMC_CMD0_RETRY : nat := 10.
Definition MMC_CMD1_RETRY : nat := 100.
Definition MMC_ACMD41_RETRY : nat := 100.
Definition MMC_WAIT_DATA : nat := Z.to_nat 10000.

Fixpoint poll_idle (k : nat) : MM bool :=
  match k with
  | O => mret false
  | S k => b ← receive_byte; if b =? 0xFF then mret true else poll_idle k
  end.
(** Without a bound in the code. *)
Fixpoint wait_idle (fuel : nat) : MM unit :=
  match fuel with
  | O => λ _, MLoop
  | S fuel => b ← receive_byte; if b =? 0xFF then mret () else wait_idle fuel
  end.
Definition wait : MM unit := idle ← poll_idle 16; if idle : bool then mret () else wait_idle max_polls.
Definition sync : MM unit := spiSelect ;; wait_idle max_polls ;; spiUnselect.

Definition send_hdr (cmd arg : Z) : MM unit :=
  wait ;;
  let buf := [Z.lor 0x40 cmd; u8 (Z.shiftr arg 24); u8 (Z.shiftr arg 16); u8 (Z.shiftr arg 8); u8 arg] in
  crc ← mderef (crc7 0 buf);
  spiSend (buf ++ [u8 (Z.lor (Z.shiftl (Z.land crc 0x7F) 1) 1)]).

Fixpoint recvr1_loop (k : nat) : MM Z :=
  match k with
  | O => mret 0xFF
  | S k => b ← receive_byte; if negb (b =? 0xFF) then mret b else recvr1_loop k
  end.
Definition recvr1 : MM Z := recvr1_loop 9.
Definition recvr3 : MM (Z * list Z) := r1 ← recvr1; buffer ← spiReceive 4; mret (r1, buffer).

Definition send_command_R1 (cmd arg : Z) : MM Z :=
  spiSelect ;; send_hdr cmd arg ;; r1 ← recvr1; spiUnselect ;; mret r1.
Definition send_command_R3 (cmd arg : Z) : MM (Z * list Z) :=
  spiSelect ;; send_hdr cmd arg ;; r ← recvr3; spiUnselect ;; mret r.

(** The bytes of a register, the most significant word first. *)
Definition be_word (l : list Z) (i : nat) : option Z :=
  b0 ← l !! i; b1 ← l !! (i + 1)%nat; b2 ← l !! (i + 2)%nat; b3 ← l !! (i + 3)%nat;
  Some (Z.lor (Z.lor (Z.lor (u32 (Z.shiftl b0 24)) (u32 (Z.shiftl b1 16))) (u32 (Z.shiftl b2 8))) b3).
Definition register_words (l : list Z) : option (list Z) :=
  w3 ← be_word l 0; w2 ← be_word l 4; w1 ← be_word l 8; w0 ← be_word l 12; Some [w0; w1; w2; w3].

(** [None] stands for HAL_FAILED. *)
Fixpoint read_CxD_data (k : nat) : MM (option (list Z)) :=
  match k with
  | O => mret None
  | S k =>
      b ← receive_byte;
      if b =? 0xFE then
        buf ← spiReceive 16;
        cxd ← mderef (register_words buf);
        spiIgnore 2 ;; spiUnselect ;; mret (Some cxd)
      else read_CxD_data k
  end.
Definition read_CxD (cmd : Z) : MM (option (list Z)) :=
  spiSelect ;; send_hdr cmd 0 ;; r ← recvr1;
  if negb (r =? 0) then spiUnselect ;; mret None else read_CxD_data MMC_WAIT_DATA.

(** ** Driver *)

Definition in_states (l : list blkstate) (s : mmc) : bool := bool_decide (state s ∈ l).

Definition mmcObjectInit : MM unit := mmod (set_state BLK_STOP) ;; mmod (set_configured false) ;; mmod (set_block_addresses false).
Definition mmcStart : MM unit :=
  b ← mgets (in_states [BLK_STOP; BLK_ACTIVE]); osalDbgAssert b "mmcStart" ;; mmod (set_configured true) ;; mmod (set_state BLK_ACTIVE).
Definition mmcStop : MM unit :=
  b ← mgets (in_states [BLK_STOP; BLK_ACTIVE]); osalDbgAssert b "mmcStop" ;; spiStop ;; mmod (set_state BLK_STOP).

(** A command is repeated until it succeeds, at most [n] times. *)
Fixpoint retry (n : nat) (try : MM bool) : MM bool :=
  match n with
  | O => mret false
  | S n => ok ← try; if ok : bool then mret true else retry n try
  end.
Fixpoint cmd1_loop (n : nat) : MM bool :=
  match n with
  | O => mret false
  | S n => b ← send_command_R1 1 0; if b =? 0 then mret true else if negb (b =? 1) then mret false else cmd1_loop n
  end.

(** The switch to the high capacity mode. *)
Definition acmd41 : MM bool :=
  r ← send_command_R1 55 0;
  if r =? 1 then r ← send_command_R3 41 0x400001AA; mret (fst r =? 0) else mret false.
Definition sdhc_mode : MM bool :=
  ok ← retry MMC_ACMD41_RETRY acmd41;
  if ok : bool then
    r ← send_command_R3 58 0;
    b ← mderef (head (snd r));
    (if negb (Z.land b 0x40 =? 0) then mmod (set_block_addresses true) else mret ()) ;; mret true
  else mret false.

(** What follows the activation of the bus; [false] where the code goes to
    [failed]. *)
Definition connect_card : MM bool :=
  ok ← retry MMC_CMD0_RETRY (r ← send_command_R1 0 0; mret (r =? 1));
  if negb ok then mret false else
  r ← send_command_R3 8 0x1AA;
  ok ← (if negb (fst r =? 5) then sdhc_mode else mret true);
  if negb ok then mret false else
  ok ← cmd1_loop MMC_CMD1_RETRY;
  if negb ok then mret false else
  spiStart hscfg ;;
  r ← send_command_R1 16 MMCSD_BLOCK_SIZE;
  if negb (r =? 0) then mret false else
  csd ← read_CxD 9;
  match csd with
  | None => mret false
  | Some csd =>
      mmod (λ s, set_dev (mkDevice (cid (dev s)) csd (capacity (dev s))) s) ;;
      cap ← mderef (_mmcsd_get_capacity csd);
      mmod (λ s, set_dev (mkDevice (cid (dev s)) csd cap) s) ;;
      if cap =? 0 then mret false else
      cid ← read_CxD 10;
      match cid with
      | None => mret false
      | Some cid => mmod (λ s, set_dev (mkDevice cid (Mmcsd.csd (dev s)) (capacity (dev s))) s) ;; mret true
      end
  end.

Definition mmcConnect : MM bool :=
  b ← mgets (in_states [BLK_ACTIVE; BLK_READY]); osalDbgAssert b "mmcConnect" ;;
  mmod (set_state BLK_CONNECTING) ;; mmod (set_block_addresses false) ;;
  spiStart lscfg ;; spiIgnore 16 ;;
  ok ← connect_card;
  if ok : bool then mmod (set_state BLK_READY) ;; mret HAL_SUCCESS
  else spiStop ;; mmod (set_state BLK_ACTIVE) ;; mret HAL_FAILED.

Definition mmcDisconnect : MM bool :=
  b ← mgets (in_states [BLK_ACTIVE; BLK_READY]); osalDbgAssert b "mmcDisconnect" ;;
  a ← mgets (in_states [BLK_ACTIVE]);
  if a : bool then mret HAL_SUCCESS
  else
    mmod (set_state BLK_DISCONNECTING) ;; spiStart hscfg ;; sync ;; spiStop ;;
    mmod (set_state BLK_ACTIVE) ;; mret HAL_SUCCESS.

(** The address of a block for the card. *)
Definition address (b : bool) (startblk : Z) : Z := if b then startblk else u32 (startblk * MMCSD_BLOCK_SIZE).

(** The start of a sequential read (CMD18) or write (CMD25). *)
Definition start_sequential (st : blkstate) (cmd startblk : Z) (func : string) : MM bool :=
  b ← mgets (in_states [BLK_READY]); osalDbgAssert b func ;;
  mmod (set_state st) ;; spiStart hscfg ;; spiSelect ;;
  ba ← mgets block_addresses;
  send_hdr cmd (address ba startblk) ;;
  r ← recvr1;
  if negb (r =? 0) then spiStop ;; mmod (set_state BLK_READY) ;; mret HAL_FAILED else mret HAL_SUCCESS.
Definition mmcStartSequentialRead (startblk : Z) : MM bool := start_sequential BLK_READING 18 startblk "mmcStartSequentialRead".
Definition mmcStartSequentialWrite (startblk : Z) : MM bool := start_sequential BLK_WRITING 25 startblk "mmcStartSequentialWrite".

(** The buffer of 512 bytes is overwritten: its first byte by the polls. *)
Fixpoint read_data (k : nat) (buffer : list Z) : MM (bool * list Z) :=
  match k with
  | O => spiUnselect ;; spiStop ;; mmod (set_state BLK_READY) ;; mret (HAL_FAILED, buffer)
  | S k =>
      b ← receive_byte;
      if b =? 0xFE then data ← spiReceive 512; spiIgnore 2 ;; mret (HAL_SUCCESS, data)
      else read_data k (<[0%nat := b]> buffer)
  end.
Definition mmcSequentialRead (buffer : list Z) : MM (bool * list Z) :=
  b ← mgets (in_states [BLK_READING]);
  if negb b then mret (HAL_FAILED, buffer) else read_data MMC_WAIT_DATA buffer.

Definition stopcmd : list Z := [Z.lor 0x40 12; 0; 0; 0; 0; 1; 0xFF].
Definition mmcStopSequentialRead : MM bool :=
  b ← mgets (in_states [BLK_READING]);
  if negb b then mret HAL_FAILED else
  spiSend stopcmd ;; _ ← recvr1; spiUnselect ;; mmod (set_state BLK_READY) ;; mret HAL_SUCCESS.

Definition mmcSequentialWrite (buffer : list Z) : MM bool :=
  b ← mgets (in_states [BLK_WRITING]);
  if negb b then mret HAL_FAILED else
  spiSend [0xFF; 0xFC] ;; spiSend buffer ;; spiIgnore 2 ;;
  r ← receive_byte;
  if Z.land r 0x1F =? 5 then wait ;; mret HAL_SUCCESS
  else spiUnselect ;; spiStop ;; mmod (set_state BLK_READY) ;; mret HAL_FAILED.

Definition mmcStopSequentialWrite : MM bool :=
  b ← mgets (in_states [BLK_WRITING]);
  if negb b then mret HAL_FAILED else
  spiSend [0xFD; 0xFF] ;; spiUnselect ;; mmod (set_state BLK_READY) ;; mret HAL_SUCCESS.

(** [n] blocks; the buffer is that of the caller. *)
Fixpoint read_blocks (n : nat) (buffer : list Z) : MM (bool * list Z) :=
  match n with
  | O => mret (HAL_SUCCESS, buffer)
  | S n =>
      r ← mmcSequentialRead (take 512 buffer);
      if (fst r : bool) then mret (HAL_FAILED, snd r ++ drop 512 buffer)
      else r' ← read_blocks n (drop 512 buffer); mret (fst r', snd r ++ snd r')
  end.
Definition mmc_read (startblk : Z) (buffer : list Z) (n : nat) : MM (bool * list Z) :=
  f ← mmcStartSequentialRead startblk;
  if f : bool then mret (HAL_FAILED, buffer) else
  r ← read_blocks n buffer;
  if (fst r : bool) then mret r else
  f ← mmcStopSequentialRead;
  mret (f, snd r).

Fixpoint write_blocks (n : nat) (buffer : list Z) : MM bool :=
  match n with
  | O => mret HAL_SUCCESS
  | S n => f ← mmcSequentialWrite (take 512 buffer); if f : bool then mret HAL_FAILED else write_blocks n (drop 512 buffer)
  end.
Definition mmc_write (startblk : Z) (buffer : list Z) (n : nat) : MM bool :=
  f ← mmcStartSequentialWrite startblk;
  if f : bool then mret HAL_FAILED else
  f ← write_blocks n buffer;
  if f : bool then mret HAL_FAILED else mmcStopSequentialWrite.

Definition mmcSync : MM bool :=
  b ← mgets (in_states [BLK_READY]);
  if negb b then mret HAL_FAILED else
  mmod (set_state BLK_SYNCING) ;; spiStart hscfg ;; sync ;; mmod (set_state BLK_READY) ;; mret HAL_SUCCESS.

(** The number of blocks and their size. *)
Definition mmcGetInfo : MM (bool * option (Z * Z)) :=
  b ← mgets (in_states [BLK_READY]);
  if negb b then mret (HAL_FAILED, None) else
  c ← mgets (λ s, capacity (dev s)); mret (HAL_SUCCESS, Some (c, MMCSD_BLOCK_SIZE)).

Definition erase_failed : MM bool := spiStop ;; mmod (set_state BLK_READY) ;; mret HAL_FAILED.
Definition mmcErase (startblk endblk : Z) : MM bool :=
  mmod (set_state BLK_WRITING) ;;
  ba ← mgets block_addresses;
  r ← send_command_R1 32 (address ba startblk);
  if negb (r =? 0) then erase_failed else
  r ← send_command_R1 33 (address ba endblk);
  if negb (r =? 0) then erase_failed else
  r ← send_command_R1 38 0;
  if negb (r =? 0) then erase_failed else
  mmod (set_state BLK_READY) ;; mret HAL_SUCCESS.
End Driver.
