(* ===== verification/MmcProps.v ===== *)
(** * The card driver for every card

    The driver of MmcSpi.v follows the state machine of a block device and never
    fails a check, whatever the card answers; blocks are read and written as the
    protocol of the card says. *)

From S2P Require Import Prelude Mmcsd Crc7 MmcSpi.

(** ** The bus *)

Section Bus.
Context {HTgt : Target} {HBus : Bus}.
(** No callbacks, and the card does not stay busy for ever. *)
Hypothesis no_cb : ∀ c, end_cb c = false.
Hypothesis idle : ∀ p, ∃ n, (n < max_polls)%nat ∧ miso (p + n) = 0xFF.

Lemma mbind_done {A B} (m : MM A) (k : A → MM B) s a s' : m s = MDone a s' → (m ≫= k) s = k a s'.
Proof using. intros E. unfold mbind, MM_bind. by rewrite E. Qed.

(** The bus is active. *)
Definition R (s : mmc) : Prop := configured s = true ∧ spi_state s = SPI_READY ∧ is_Some (spi_config s).

(** [n] bytes later. *)
Definition moved (n : nat) (e : list event) (s : mmc) : mmc :=
  mkMmc (state s) (configured s) (block_addresses s) (dev s) (spi_state s) (spi_config s) (pos s + n) (log s ++ e).
Lemma moved_moved n e n' e' s : moved n' e' (moved n e s) = moved (n + n') (e ++ e') s.
Proof using. unfold moved. simpl. by rewrite <-app_assoc, Nat.add_assoc. Qed.
Lemma R_moved n e s : R s → R (moved n e s).
Proof using. done. Qed.

Lemma spip_eq s : configured s = true → spip s = MDone () s.
Proof using. intros Hc. unfold spip. erewrite mbind_done by done. by rewrite Hc. Qed.
Lemma assert_eq c f s : c = true → osalDbgAssert c f s = MDone tt s.
Proof using. by intros ->. Qed.

Lemma transfer_eq e n f s : R s → (0 < n)%nat → transfer e n f s = MDone (miso <$> seq (pos s) n) (moved n [e] s).
Proof using no_cb.
  intros (Hc & Hst & [c Ec]) Hn. unfold transfer. erewrite mbind_done by (by apply spip_eq).
  erewrite mbind_done by (by apply assert_eq, Nat.ltb_lt). erewrite mbind_done by done.
  erewrite mbind_done by (apply assert_eq; by rewrite Hst). erewrite mbind_done by done. rewrite Ec.
  erewrite mbind_done by done. erewrite mbind_done by (apply assert_eq; by rewrite no_cb).
  destruct s. simpl in *. by subst.
Qed.
Lemma select_eq s : R s → spiSelect s = MDone tt (moved 0 [EvSelect] s).
Proof using.
  intros (Hc & Hst & _). unfold spiSelect. erewrite mbind_done by (by apply spip_eq). erewrite mbind_done by done.
  erewrite mbind_done by (apply assert_eq; by rewrite Hst). unfold mmod, emit, moved. by rewrite Nat.add_0_r.
Qed.
Lemma unselect_eq s : R s → spiUnselect s = MDone tt (moved 0 [EvUnselect] s).
Proof using.
  intros (Hc & Hst & _). unfold spiUnselect. erewrite mbind_done by (by apply spip_eq). erewrite mbind_done by done.
  erewrite mbind_done by (apply assert_eq; by rewrite Hst). unfold mmod, emit, moved. by rewrite Nat.add_0_r.
Qed.
Lemma receive_byte_eq s : R s → receive_byte s = MDone (miso (pos s)) (moved 1 [EvReceive 1] s).
Proof using no_cb. intros HR. unfold receive_byte, spiReceive. rewrite (mbind_done _ _ _ _ _ (transfer_eq (EvReceive 1) 1 _ s HR Nat.lt_0_1)). reflexivity. Qed.
Lemma send_eq l s : R s → l ≠ [] → spiSend l s = MDone tt (moved (length l) [EvSend l] s).
Proof using no_cb.
  intros HR Hl. assert (0 < length l)%nat as Hn by (destruct l; simpl; [done|lia]).
  unfold spiSend. rewrite (mbind_done _ _ _ _ _ (transfer_eq (EvSend l) (length l) _ s HR Hn)). reflexivity.
Qed.
Lemma ignore_eq n s : R s → (0 < n)%nat → spiIgnore n s = MDone tt (moved n [EvIgnore n] s).
Proof using no_cb. intros HR Hn. unfold spiIgnore. rewrite (mbind_done _ _ _ _ _ (transfer_eq (EvIgnore n) n _ s HR Hn)). reflexivity. Qed.
Lemma receive_eq n s : R s → (0 < n)%nat → spiReceive n s = MDone (miso <$> seq (pos s) n) (moved n [EvReceive n] s).
Proof using no_cb. intros HR Hn. unfold spiReceive. exact (transfer_eq (EvReceive n) n _ s HR Hn). Qed.

(** *** Polls *)

Definition polls (n : nat) (s : mmc) : mmc := moved n (replicate n (EvReceive 1)) s.
Lemma polls_S n s : polls n (moved 1 [EvReceive 1] s) = polls (S n) s.
Proof using. unfold polls. by rewrite moved_moved. Qed.
Lemma polls_0 s : polls 0 s = s.
Proof using. unfold polls, moved. destruct s. simpl. by rewrite app_nil_r, Nat.add_0_r. Qed.

Lemma wait_idle_eq fuel s n :
  R s → (n < fuel)%nat → miso (pos s + n) = 0xFF → (∀ i, (i < n)%nat → miso (pos s + i) ≠ 0xFF) →
  wait_idle fuel s = MDone tt (polls (S n) s).
Proof using no_cb.
  revert fuel s. induction n as [|n IH]; intros fuel s HR Hf En Hlt; (destruct fuel as [|fuel]; [lia|]);
    cbn [wait_idle]; erewrite mbind_done by (by apply receive_byte_eq).
  - rewrite Nat.add_0_r in En. rewrite En. done.
  - pose proof (Hlt 0%nat ltac:(lia)) as Hz. rewrite Nat.add_0_r in Hz. rewrite (proj2 (Z.eqb_neq _ _) Hz).
    rewrite IH; [by rewrite polls_S|done|lia|rewrite <-En; f_equal; simpl; lia|].
    intros i Hi. simpl. rewrite <-Nat.add_assoc. apply Hlt. lia.
Qed.

Lemma first_idle p b : (∃ n, (n < b)%nat ∧ miso (p + n) = 0xFF) →
  ∃ n, (n < b)%nat ∧ miso (p + n) = 0xFF ∧ ∀ i, (i < n)%nat → miso (p + i) ≠ 0xFF.
Proof using.
  revert p. induction b as [|b IH]; intros p (n & Hn & En); [lia|].
  destruct (decide (miso p = 0xFF)) as [E0|E0]; [exists 0%nat; split_and!; [lia|by rewrite Nat.add_0_r|intros; lia]|].
  destruct n as [|n]; [by rewrite Nat.add_0_r in En|].
  destruct (IH (S p)) as (m & Hm & Em & Hlt); [exists n; split; [lia|rewrite <-En; f_equal; lia]|].
  exists (S m). split_and!; [lia|rewrite <-Em; f_equal; lia|]. intros [|i] Hi; [by rewrite Nat.add_0_r|].
  rewrite Nat.add_succ_r. apply Hlt. lia.
Qed.

(** The bus is idle after [n] polls. *)
Definition busy (p n : nat) : Prop := miso (p + n) = 0xFF ∧ ∀ i, (i < n)%nat → miso (p + i) ≠ 0xFF.

Lemma poll_idle_eq k s n : R s → busy (pos s) n →
  if decide (n < k)%nat then poll_idle k s = MDone true (polls (S n) s) else poll_idle k s = MDone false (polls k s).
Proof using no_cb.
  revert s n. induction k as [|k IH]; intros s n HR [En Hlt]; [rewrite decide_False by lia; by rewrite polls_0|].
  cbn [poll_idle]. erewrite mbind_done by (by apply receive_byte_eq). destruct n as [|n].
  - rewrite Nat.add_0_r in En. rewrite En, decide_True by lia. done.
  - pose proof (Hlt 0%nat ltac:(lia)) as Hz. rewrite Nat.add_0_r in Hz. rewrite (proj2 (Z.eqb_neq _ _) Hz).
    assert (busy (pos (moved 1 [EvReceive 1] s)) n) as Hb.
    { split; [rewrite <-En; f_equal; simpl; lia|]. intros i Hi. simpl. rewrite <-Nat.add_assoc. apply Hlt. lia. }
    specialize (IH (moved 1 [EvReceive 1] s) n HR Hb). rewrite !polls_S in IH. repeat case_decide; done || lia.
Qed.

Lemma wait_eq s n : R s → busy (pos s) n → (n < 16 + max_polls)%nat → wait s = MDone tt (polls (S n) s).
Proof using no_cb.
  intros HR Hb Hn. pose proof (poll_idle_eq 16 s n HR Hb) as Hp. unfold wait. case_decide as Hd.
  - by erewrite mbind_done by exact Hp.
  - erewrite mbind_done by exact Hp. destruct Hb as [En Hlt]. cbn match.
    rewrite (wait_idle_eq _ _ (n - 16)); [| |lia|rewrite <-En; f_equal; simpl; lia|].
    + f_equal. unfold polls. rewrite moved_moved, <-replicate_add. f_equal; [lia|f_equal; lia].
    + done.
    + intros i Hi. simpl. rewrite <-Nat.add_assoc. apply Hlt. lia.
Qed.

Lemma wait_any s : R s → ∃ n, busy (pos s) n ∧ wait s = MDone tt (polls (S n) s).
Proof using no_cb idle.
  intros HR. destruct (first_idle (pos s) max_polls (idle (pos s))) as (n & Hn & En & Hlt). exists n.
  split; [done|]. apply wait_eq; [done|done|lia].
Qed.

Lemma sync_any s : R s → ∃ n, sync s = MDone tt (moved n (EvSelect :: replicate n (EvReceive 1) ++ [EvUnselect]) s).
Proof using no_cb idle.
  intros HR. unfold sync. erewrite mbind_done by (by apply select_eq). set (s1 := moved 0 _ s).
  destruct (first_idle (pos s1) max_polls (idle (pos s1))) as (n & Hn & En & Hlt). exists (S n).
  erewrite mbind_done by (by apply (wait_idle_eq _ _ n)). rewrite unselect_eq by done. unfold polls, s1. rewrite !moved_moved.
  rewrite Nat.add_0_r. done.
Qed.

(** *** Commands *)

(** The six bytes of a command. *)
Definition command (cmd arg : Z) : list Z := [Z.lor 0x40 cmd; u8 (Z.shiftr arg 24); u8 (Z.shiftr arg 16); u8 (Z.shiftr arg 8); u8 arg].
Definition frame (cmd arg : Z) : list Z := command cmd arg ++ [2 * foldl crc_byte 0 (command cmd arg) + 1].

Lemma command_bytes cmd arg : 0 ≤ cmd < 64 → Forall is_byte (command cmd arg).
Proof using.
  intros Hc. assert (is_byte (Z.lor 0x40 cmd)).
  { rewrite Z.lor_comm. change 0x40 with (Z.shiftl 1 6). rewrite lor_shift by lia. unfold is_byte. lia. }
  unfold command. rewrite !Forall_cons. split_and!; try done; apply Z.mod_pos_bound; lia.
Qed.

Lemma send_hdr_eq cmd arg s n :
  0 ≤ cmd < 64 → R s → busy (pos s) n → (n < 16 + max_polls)%nat →
  send_hdr cmd arg s = MDone tt (moved (S n + 6) (replicate (S n) (EvReceive 1) ++ [EvSend (frame cmd arg)]) s).
Proof using no_cb.
  intros Hc HR Hb Hn. unfold send_hdr. erewrite mbind_done by (by apply wait_eq). cbv zeta.
  destruct (crc7_gen (command cmd arg) 0 0 (command_bytes cmd arg Hc)) as (r & Er & Hr & Efr & _); [lia|lia|apply multiple_0|].
  fold (command cmd arg). rewrite Er. erewrite mbind_done by done.
  assert (u8 (Z.lor (Z.shiftl (Z.land r 0x7F) 1) 1) = 2 * r + 1) as ->.
  { change 0x7F with (Z.ones 7). rewrite Z.land_ones, Z.mod_small by lia. rewrite Z.lor_comm, lor_shift by lia.
    unfold u8. rewrite Z.mod_small; lia. }
  rewrite send_eq by (done || by destruct (command cmd arg)). f_equal. rewrite Efr. unfold polls. rewrite moved_moved. done.
Qed.

Lemma recvr1_loop_eq k s n : R s → (n < k)%nat → (∀ i, (i < n)%nat → miso (pos s + i) = 0xFF) → miso (pos s + n) ≠ 0xFF →
  recvr1_loop k s = MDone (miso (pos s + n)) (polls (S n) s).
Proof using no_cb.
  revert k s. induction n as [|n IH]; intros k s HR Hk Hff Hn; (destruct k as [|k]; [lia|]);
    cbn [recvr1_loop]; erewrite mbind_done by (by apply receive_byte_eq).
  - rewrite Nat.add_0_r in *. rewrite (proj2 (Z.eqb_neq _ _) Hn). done.
  - pose proof (Hff 0%nat ltac:(lia)) as Hz. rewrite Nat.add_0_r in Hz. rewrite Hz. simpl.
    rewrite IH; [|done|lia| |].
    + rewrite polls_S. f_equal. simpl. f_equal. lia.
    + intros i Hi. simpl. rewrite <-Nat.add_assoc. apply Hff. lia.
    + simpl. rewrite <-Nat.add_assoc. done.
Qed.

Lemma recvr1_any s : R s → ∃ r n, recvr1 s = MDone r (polls n s).
Proof using no_cb.
  unfold recvr1. generalize 9%nat. intros k. revert s. induction k as [|k IH]; intros s HR; [exists 0xFF, 0%nat; by rewrite polls_0|].
  cbn [recvr1_loop]. erewrite mbind_done by (by apply receive_byte_eq). destruct (_ =? _); simpl.
  - destruct (IH (moved 1 [EvReceive 1] s) HR) as (r & n & ->). rewrite polls_S. by eexists _, _.
  - by exists (miso (pos s)), 1%nat.
Qed.

(** ** What every bus operation does *)

(** The bus stays active and the state of the driver is not touched. *)
Definition same (s s' : mmc) : Prop := state s' = state s ∧ block_addresses s' = block_addresses s ∧ dev s' = dev s.
Definition okv {A} (m : MM A) (P : A → Prop) : Prop := ∀ s, R s → ∃ a s', m s = MDone a s' ∧ P a ∧ R s' ∧ same s s'.
Definition any {A} (a : A) : Prop := True.

Lemma okv_moved {A} (m : MM A) (P : A → Prop) : (∀ s, R s → ∃ a n e, m s = MDone a (moved n e s) ∧ P a) → okv m P.
Proof using. intros Hm s HR. destruct (Hm s HR) as (a & n & e & E & Ha). by exists a, (moved n e s). Qed.
Lemma okv_ret {A} (a : A) (P : A → Prop) : P a → okv (mret a) P.
Proof using. intros Ha s HR. by exists a, s. Qed.
Lemma okv_bind {A B} (m : MM A) (k : A → MM B) P Q : okv m P → (∀ a, P a → okv (k a) Q) → okv (m ≫= k) Q.
Proof using.
  intros Hm Hk s HR. destruct (Hm s HR) as (a & s1 & E & Ha & HR1 & S1). destruct (Hk a Ha s1 HR1) as (b & s2 & E2 & Hb & HR2 & S2).
  exists b, s2. erewrite mbind_done by done. split_and!; try done. destruct S1 as (? & ? & ?), S2 as (? & ? & ?). split_and!; congruence.
Qed.
Lemma okv_weaken {A} (m : MM A) (P Q : A → Prop) : okv m P → (∀ a, P a → Q a) → okv m Q.
Proof using. intros Hm HPQ s HR. destruct (Hm s HR) as (a & s1 & E & Ha & HR1 & S1). exists a, s1. split_and!; try done. by apply HPQ. Qed.
Lemma okv_deref {A} (o : option A) (P : A → Prop) : (∃ a, o = Some a ∧ P a) → okv (mderef o) P.
Proof using. intros (a & -> & Ha) s HR. by exists a, s. Qed.

Lemma okv_select : okv spiSelect any.
Proof using. apply okv_moved. intros s HR. eexists _, _, _. by rewrite select_eq. Qed.
Lemma okv_unselect : okv spiUnselect any.
Proof using. apply okv_moved. intros s HR. eexists _, _, _. by rewrite unselect_eq. Qed.
Lemma okv_byte : okv receive_byte any.
Proof using no_cb. apply okv_moved. intros s HR. eexists _, _, _. by rewrite receive_byte_eq. Qed.
Lemma okv_send l : l ≠ [] → okv (spiSend l) any.
Proof using no_cb. intros Hl. apply okv_moved. intros s HR. eexists _, _, _. by rewrite send_eq. Qed.
Lemma okv_ignore n : (0 < n)%nat → okv (spiIgnore n) any.
Proof using no_cb. intros Hn. apply okv_moved. intros s HR. eexists _, _, _. by rewrite ignore_eq. Qed.
Lemma okv_receive n : (0 < n)%nat → okv (spiReceive n) (λ l, length l = n).
Proof using no_cb. intros Hn. apply okv_moved. intros s HR. eexists _, _, _. rewrite receive_eq by done. split; [done|]. by rewrite length_fmap, length_seq. Qed.
Lemma okv_wait : okv wait any.
Proof using no_cb idle. apply okv_moved. intros s HR. destruct (wait_any s HR) as (n & _ & E). by eexists _, _, _. Qed.
Lemma okv_sync : okv sync any.
Proof using no_cb idle. apply okv_moved. intros s HR. destruct (sync_any s HR) as (n & E). by eexists _, _, _. Qed.
Lemma okv_hdr cmd arg : 0 ≤ cmd < 64 → okv (send_hdr cmd arg) any.
Proof using no_cb idle.
  intros Hc. apply okv_moved. intros s HR. destruct (first_idle (pos s) max_polls (idle (pos s))) as (n & Hn & Hb).
  eexists _, _, _. split; [apply (send_hdr_eq cmd arg s n); [done|done|exact Hb|lia]|done].
Qed.
Lemma okv_recvr1 : okv recvr1 any.
Proof using no_cb. apply okv_moved. intros s HR. destruct (recvr1_any s HR) as (r & n & E). by eexists _, _, _. Qed.

(** One step of a proof by these lemmas. *)
Local Hint Resolve okv_select okv_unselect okv_byte okv_wait okv_sync okv_recvr1 : bus.
Ltac okv_step :=
  match goal with
  | |- okv (mret _) _ => by apply okv_ret
  | |- okv (spiSend _) _ => by apply okv_send
  | |- okv (spiIgnore _) _ => apply okv_ignore; lia
  | |- okv (spiReceive _) _ => apply okv_receive; lia
  | |- okv (send_hdr _ _) _ => apply okv_hdr; lia
  | |- okv (if ?b then _ else _) _ => destruct b
  | |- okv (_ ≫= _) _ => eapply okv_bind; [|intros ? ?; cbn beta]
  | |- okv _ _ => solve [eauto with bus]
  end.
Ltac okv_solve := repeat okv_step.

Lemma okv_R1 cmd arg : 0 ≤ cmd < 64 → okv (send_command_R1 cmd arg) any.
Proof using no_cb idle. intros Hc. unfold send_command_R1. okv_solve. Qed.
Lemma okv_recvr3 : okv recvr3 (λ r, length (snd r) = 4%nat).
Proof using no_cb.
  unfold recvr3. eapply okv_bind; [apply okv_recvr1|]. intros r1 _. eapply okv_bind; [apply okv_receive; lia|].
  intros l Hl. apply okv_ret. exact Hl.
Qed.
Lemma okv_R3 cmd arg : 0 ≤ cmd < 64 → okv (send_command_R3 cmd arg) (λ r, length (snd r) = 4%nat).
Proof using no_cb idle.
  intros Hc. unfold send_command_R3. eapply okv_bind; [okv_solve|intros _ _]. eapply okv_bind; [okv_solve|intros _ _].
  eapply okv_bind; [apply okv_recvr3|]. intros r Hr. cbn beta. eapply okv_bind; [apply okv_unselect|]. intros _ _. by apply okv_ret.
Qed.

Lemma be_word_some l i : (i + 3 < length l)%nat → is_Some (be_word l i).
Proof using.
  intros Hi. unfold be_word.
  destruct (lookup_lt_is_Some_2 l i) as [? ->]; [lia|]. destruct (lookup_lt_is_Some_2 l (i + 1)) as [? ->]; [lia|].
  destruct (lookup_lt_is_Some_2 l (i + 2)) as [? ->]; [lia|]. destruct (lookup_lt_is_Some_2 l (i + 3)) as [? ->]; [lia|]. by eexists.
Qed.
Lemma register_words_some l : length l = 16%nat → ∃ ws, register_words l = Some ws ∧ length ws = 4%nat.
Proof using.
  intros Hl. unfold register_words.
  destruct (be_word_some l 0) as [? ->]; [lia|]. destruct (be_word_some l 4) as [? ->]; [lia|].
  destruct (be_word_some l 8) as [? ->]; [lia|]. destruct (be_word_some l 12) as [? ->]; [lia|]. by eexists.
Qed.

(** Four words, when the register is read. *)
Definition four_words (r : option (list Z)) : Prop := ∀ ws, r = Some ws → length ws = 4%nat.
Lemma okv_read_CxD cmd : 0 ≤ cmd < 64 → okv (read_CxD cmd) four_words.
Proof using no_cb idle.
  assert (∀ k, okv (read_CxD_data k) four_words) as Hd.
  { induction k as [|k IH]; [by apply okv_ret|]. cbn [read_CxD_data]. eapply okv_bind; [okv_solve|intros b _].
    destruct (b =? 0xFE); [|done]. eapply okv_bind; [apply okv_receive; lia|]. intros l Hl. cbn beta.
    destruct (register_words_some l Hl) as (ws & Ew & Hws).
    eapply (okv_bind _ _ (λ ws, length ws = 4%nat)); [apply okv_deref; by exists ws|]. intros w Hw.
    eapply okv_bind; [okv_solve|intros _ _]. eapply okv_bind; [okv_solve|intros _ _]. apply okv_ret. by intros ? [= <-]. }
  intros Hc. unfold read_CxD. do 3 (eapply okv_bind; [okv_solve|intros ? _; cbn beta]). destruct (negb _); [|apply Hd].
  eapply okv_bind; [okv_solve|intros ? _]. by apply okv_ret.
Qed.

Lemma okv_retry n try : okv try any → okv (retry n try) any.
Proof using.
  intros Ht. induction n as [|n IH]; [by apply okv_ret|]. cbn [retry]. eapply okv_bind; [exact Ht|]. intros [] _; [by apply okv_ret|done].
Qed.
Lemma okv_cmd1 n : okv (cmd1_loop n) any.
Proof using no_cb idle.
  induction n as [|n IH]; [by apply okv_ret|]. cbn [cmd1_loop]. eapply okv_bind; [apply okv_R1; lia|]. intros b _.
  destruct (b =? 0); [by apply okv_ret|]. destruct (negb _); [by apply okv_ret|done].
Qed.
Lemma okv_acmd41 : okv acmd41 any.
Proof using no_cb idle.
  unfold acmd41. eapply okv_bind; [apply okv_R1; lia|]. intros r _. destruct (r =? 1); [|by apply okv_ret].
  eapply okv_bind; [apply okv_R3; lia|]. intros r' _. by apply okv_ret.
Qed.

(** ** The driver *)

(** While a card is connected the addressing mode and the registers are
    written too. *)
Definition kept (s s' : mmc) : Prop := state s' = state s ∧ R s'.
Definition runs {A} (m : MM A) : Prop := ∀ s, R s → ∃ a s', m s = MDone a s' ∧ kept s s'.
Lemma okv_runs {A} (m : MM A) P : okv m P → runs m.
Proof using. intros Hm s HR. destruct (Hm s HR) as (a & s' & E & _ & HR' & S & _). by exists a, s'. Qed.
Lemma mmc_runs_ret {A} (a : A) : runs (mret a).
Proof using. intros s HR. by exists a, s. Qed.
Lemma mmc_runs_bind {A B} (m : MM A) (k : A → MM B) : runs m → (∀ a, runs (k a)) → runs (m ≫= k).
Proof using.
  intros Hm Hk s HR. destruct (Hm s HR) as (a & s1 & E & S1 & HR1). destruct (Hk a s1 HR1) as (b & s2 & E2 & S2 & HR2).
  exists b, s2. erewrite mbind_done by done. split; [done|]. split; [congruence|done].
Qed.
Lemma runs_okv {A B} (m : MM A) (k : A → MM B) P : okv m P → (∀ a, P a → runs (k a)) → runs (m ≫= k).
Proof using.
  intros Hm Hk s HR. destruct (Hm s HR) as (a & s1 & E & Ha & HR1 & S1 & _). destruct (Hk a Ha s1 HR1) as (b & s2 & E2 & S2 & HR2).
  exists b, s2. erewrite mbind_done by done. split; [done|]. split; [congruence|done].
Qed.
Lemma runs_mod f : (∀ s, state (f s) = state s ∧ configured (f s) = configured s ∧ spi_state (f s) = spi_state s ∧ spi_config (f s) = spi_config s) → runs (mmod f).
Proof using.
  intros Hf s (Hc & Hst & Hcf). destruct (Hf s) as (E1 & E2 & E3 & E4). exists tt, (f s). split; [done|]. split; [done|].
  split_and!; congruence.
Qed.

(** The bus is started again while it is idle. *)
Definition started (c : spicfg) (s : mmc) : mmc :=
  mkMmc (state s) (configured s) (block_addresses s) (dev s) SPI_READY (Some c) (pos s) (log s ++ [EvStart c]).
Definition stopped (s : mmc) : mmc :=
  mkMmc (state s) (configured s) (block_addresses s) (dev s) SPI_STOP (spi_config s) (pos s) (log s ++ [EvStop]).
Definition resting (s : mmc) : Prop := configured s = true ∧ (spi_state s = SPI_STOP ∨ spi_state s = SPI_READY).
Lemma R_resting s : R s → resting s.
Proof using. intros (? & ? & _). split; [done|by right]. Qed.
Lemma spiStart_eq c s : resting s → spiStart c s = MDone tt (started c s) ∧ R (started c s).
Proof using.
  intros [Hc Hst]. unfold spiStart. erewrite mbind_done by (by apply spip_eq). erewrite mbind_done by done.
  erewrite mbind_done by (apply assert_eq; unfold stop_or_ready; by destruct Hst as [-> | ->]). split; [done|].
  split; [done|]. split; [done|]. by eexists.
Qed.
Lemma spiStop_eq s : resting s → spiStop s = MDone tt (stopped s).
Proof using.
  intros [Hc Hst]. unfold spiStop. erewrite mbind_done by (by apply spip_eq). erewrite mbind_done by done.
  by erewrite mbind_done by (apply assert_eq; unfold stop_or_ready; by destruct Hst as [-> | ->]).
Qed.
Lemma runs_start c : runs (spiStart c).
Proof using. intros s HR. destruct (spiStart_eq c s (R_resting s HR)) as [E HR']. by exists tt, (started c s). Qed.

Lemma runs_sdhc : runs sdhc_mode.
Proof using no_cb idle.
  unfold sdhc_mode. eapply runs_okv; [apply okv_retry, okv_acmd41|]. intros [] _; [|apply mmc_runs_ret].
  eapply runs_okv; [apply okv_R3; lia|]. intros r Hr. cbn beta in Hr |- *. destruct (snd r) as [|b l]; [done|].
  apply mmc_runs_bind; [apply (okv_runs _ any), okv_deref; by exists b|]. intros x. apply mmc_runs_bind; [|intros; apply mmc_runs_ret].
  destruct (negb _); [by apply runs_mod|apply mmc_runs_ret].
Qed.

Lemma runs_connect : runs connect_card.
Proof using no_cb idle.
  unfold connect_card. apply mmc_runs_bind.
  { eapply okv_runs, okv_retry. eapply okv_bind; [apply okv_R1; lia|]. intros r _. by apply okv_ret. }
  intros [] ; [|apply mmc_runs_ret]. cbn [negb]. eapply mmc_runs_bind; [eapply okv_runs; apply okv_R3; lia|]. intros r. apply mmc_runs_bind.
  { destruct (negb _); [apply runs_sdhc|apply mmc_runs_ret]. }
  intros []; [|apply mmc_runs_ret]. cbn [negb]. apply mmc_runs_bind; [eapply okv_runs, okv_cmd1|]. intros []; [|apply mmc_runs_ret]. cbn [negb].
  apply mmc_runs_bind; [apply runs_start|intros _]. apply mmc_runs_bind; [eapply okv_runs; apply okv_R1; lia|]. intros r1.
  destruct (negb _); [apply mmc_runs_ret|]. eapply runs_okv; [apply okv_read_CxD; lia|]. intros [csd|] Hcsd; [|apply mmc_runs_ret].
  apply mmc_runs_bind; [by apply runs_mod|intros _]. destruct (capacity_some csd (Hcsd _ eq_refl)) as [cap Ecap].
  apply mmc_runs_bind; [apply (okv_runs _ any), okv_deref; by exists cap|]. intros x. apply mmc_runs_bind; [by apply runs_mod|intros _].
  destruct (x =? 0); [apply mmc_runs_ret|]. apply mmc_runs_bind; [eapply okv_runs; apply okv_read_CxD; lia|].
  intros [cid|]; [|apply mmc_runs_ret]. apply mmc_runs_bind; [by apply runs_mod|intros _]. apply mmc_runs_ret.
Qed.

(** *** The state machine of a block device *)

Inductive op :=
  | OStart | OStop | OConnect | ODisconnect
  | OStartRead (startblk : Z) | OSequentialRead (buffer : list Z) | OStopRead
  | OStartWrite (startblk : Z) | OSequentialWrite (buffer : list Z) | OStopWrite
  | OSync | OGetInfo | OErase (startblk endblk : Z)
  | ORead (startblk : Z) (buffer : list Z) (n : nat) | OWrite (startblk : Z) (buffer : list Z) (n : nat).

(** The status of an operation: whether it has failed. *)
Definition exec (o : op) : MM bool :=
  match o with
  | OStart => mmcStart ;; mret HAL_SUCCESS
  | OStop => mmcStop ;; mret HAL_SUCCESS
  | OConnect => mmcConnect
  | ODisconnect => mmcDisconnect
  | OStartRead b => mmcStartSequentialRead b
  | OSequentialRead buf => r ← mmcSequentialRead buf; mret (fst r)
  | OStopRead => mmcStopSequentialRead
  | OStartWrite b => mmcStartSequentialWrite b
  | OSequentialWrite buf => mmcSequentialWrite buf
  | OStopWrite => mmcStopSequentialWrite
  | OSync => mmcSync
  | OGetInfo => r ← mmcGetInfo; mret (fst r)
  | OErase a b => mmcErase a b
  | ORead b buf n => r ← mmc_read b buf n; mret (fst r)
  | OWrite b buf n => mmc_write b buf n
  end.

(** What the callers respect; erasing does not start the bus itself. *)
Definition allowed (s : mmc) (o : op) : Prop :=
  match o with
  | OStart => state s = BLK_STOP ∨ state s = BLK_ACTIVE
  | OStop => state s = BLK_ACTIVE ∨ (state s = BLK_STOP ∧ configured s = true)
  | OConnect | ODisconnect => state s = BLK_ACTIVE ∨ state s = BLK_READY
  | OStartRead _ | OStartWrite _ | ORead _ _ _ => state s = BLK_READY
  | OSequentialWrite buf => buf ≠ []
  | OWrite _ buf n => state s = BLK_READY ∧ (512 * n ≤ length buf)%nat
  | OErase _ _ => state s = BLK_READY ∧ spi_state s = SPI_READY
  | OSequentialRead _ | OStopRead | OStopWrite | OSync | OGetInfo => True
  end.

Definition blk_next (o : op) (st : blkstate) (failed : bool) : blkstate :=
  match o with
  | OStart => BLK_ACTIVE
  | OStop => BLK_STOP
  | OConnect => if failed then BLK_ACTIVE else BLK_READY
  | ODisconnect => BLK_ACTIVE
  | OStartRead _ => if failed then BLK_READY else BLK_READING
  | OStartWrite _ => if failed then BLK_READY else BLK_WRITING
  | OSequentialRead _ => match st with BLK_READING => if failed then BLK_READY else BLK_READING | _ => st end
  | OStopRead => match st with BLK_READING => BLK_READY | _ => st end
  | OSequentialWrite _ => match st with BLK_WRITING => if failed then BLK_READY else BLK_WRITING | _ => st end
  | OStopWrite => match st with BLK_WRITING => BLK_READY | _ => st end
  | OSync | OGetInfo => st
  | OErase _ _ | ORead _ _ _ | OWrite _ _ _ => BLK_READY
  end.

Record inv (s : mmc) : Prop := {
  i_state : state s ∈ [BLK_STOP; BLK_ACTIVE; BLK_READY; BLK_READING; BLK_WRITING];
  i_conf : state s ≠ BLK_STOP → configured s = true;
  i_spi : spi_state s = SPI_STOP ∨ spi_state s = SPI_READY;
  i_cfg : spi_state s = SPI_READY → is_Some (spi_config s);
  i_active : state s = BLK_READING ∨ state s = BLK_WRITING → spi_state s = SPI_READY
}.

Lemma inv_R s st : R s → st ∈ [BLK_ACTIVE; BLK_READY; BLK_READING; BLK_WRITING] → inv (set_state st s).
Proof using no_cb idle. intros (Hc & Hs & Hcf) Hst. split; simpl; try done; [set_solver|by right]. Qed.
Lemma inv_R_same s : R s → state s ∈ [BLK_ACTIVE; BLK_READY; BLK_READING; BLK_WRITING] → inv s.
Proof using no_cb idle. intros (Hc & Hs & Hcf) Hst. split; try done; [set_solver|by right]. Qed.
Lemma inv_stopped s st : configured s = true → st ∈ [BLK_STOP; BLK_ACTIVE; BLK_READY] → inv (set_state st (stopped s)).
Proof using no_cb idle. intros Hc Hst. split; simpl; try done; [set_solver|by left|]. intros [-> | ->]; set_solver. Qed.
Lemma inv_resting s : inv s → state s ≠ BLK_STOP → resting s.
Proof using no_cb idle. intros [_ Hc Hs _ _] Hst. split; [by apply Hc|done]. Qed.
Lemma inv_active s : inv s → state s = BLK_READING ∨ state s = BLK_WRITING → R s.
Proof using no_cb idle. intros [_ Hc _ Hcf Ha] Hst. split; [apply Hc; destruct Hst as [-> | ->]; done|]. split; [by apply Ha|]. by apply Hcf, Ha. Qed.

Lemma in_states_eq l s : in_states l s = bool_decide (state s ∈ l).
Proof using. reflexivity. Qed.

(** The result of an operation. *)
Definition goes {A} (m : MM A) (s : mmc) (Q : A → mmc → Prop) : Prop := ∃ a s', m s = MDone a s' ∧ inv s' ∧ Q a s'.

(** The end of a failed transfer. *)
Lemma fail_goes {A} (a : A) s : R s → (spiStop ;; mmod (set_state BLK_READY) ;; mret a) s = MDone a (set_state BLK_READY (stopped s)) ∧ inv (set_state BLK_READY (stopped s)).
Proof using no_cb idle.
  intros HR. split; [by erewrite mbind_done by (by apply spiStop_eq, R_resting)|]. apply inv_stopped; [apply HR|set_solver].
Qed.

Lemma start_sequential_goes st cmd blk f s :
  inv s → state s = BLK_READY → st = BLK_READING ∨ st = BLK_WRITING → 0 ≤ cmd < 64 →
  goes (start_sequential st cmd blk f) s (λ failed s', state s' = (if failed then BLK_READY else st) ∧ (failed = false → R s')).
Proof using no_cb idle.
  intros Hi Hst Hst' Hc. pose proof (inv_resting s Hi ltac:(by rewrite Hst)) as Hrest. unfold goes, start_sequential.
  erewrite mbind_done by done. erewrite mbind_done by (apply assert_eq; rewrite in_states_eq, Hst; done). erewrite mbind_done by done.
  destruct (spiStart_eq hscfg (set_state st s) Hrest) as [E1 R1]. erewrite mbind_done by exact E1.
  erewrite mbind_done by (by apply select_eq). erewrite mbind_done by done. set (s1 := moved _ _ _) in *.
  destruct (okv_hdr cmd (address (block_addresses s1) blk) Hc s1 R1) as (? & s2 & E2 & _ & R2 & S2 & _).
  erewrite mbind_done by exact E2. destruct (okv_recvr1 s2 R2) as (r & s3 & E3 & _ & R3 & S3 & _). erewrite mbind_done by exact E3.
  destruct (negb _).
  - destruct (fail_goes HAL_FAILED s3 R3) as [-> Hi3]. by eexists _, _.
  - eexists _, s3. split; [done|]. assert (state s3 = st) as Es3 by (rewrite S3, S2; done).
    split; [apply inv_R_same; [done|rewrite Es3; destruct Hst' as [-> | ->]; set_solver]|done].
Qed.

(** An operation in the wrong state fails, and nothing changes. *)
Lemma refused {A} (a : A) s (Q : A → mmc → Prop) (m : MM A) : inv s → m s = MDone a s → Q a s → goes m s Q.
Proof using no_cb idle. intros Hi E HQ. by exists a, s. Qed.

Lemma sequential_read_goes buf s :
  inv s → goes (mmcSequentialRead buf) s (λ r s', state s' = blk_next (OSequentialRead buf) (state s) (fst r)).
Proof using no_cb idle.
  intros Hi. unfold goes, mmcSequentialRead. erewrite mbind_done by done. rewrite in_states_eq.
  case_bool_decide as Hst; [apply list_elem_of_singleton in Hst|].
  2: { exists (HAL_FAILED, buf), s. split_and!; try done. simpl. destruct (state s) eqn:Es; try done. set_solver. }
  cbn [negb]. pose proof (inv_active s Hi ltac:(auto)) as HR. rewrite Hst. clear Hi. cbn [blk_next].
  generalize MMC_WAIT_DATA as k. intros k. revert s buf HR Hst. induction k as [|k IH]; intros s buf HR Hst; cbn [read_data].
  - erewrite mbind_done by (by apply unselect_eq). destruct (fail_goes (HAL_FAILED, buf) (moved 0 [EvUnselect] s) HR) as [-> Hi]. by eexists _, _.
  - erewrite mbind_done by (by apply receive_byte_eq). set (s1 := moved 1 _ s). destruct (_ =? _).
    + erewrite mbind_done by (apply receive_eq; [done|lia]). erewrite mbind_done by (apply ignore_eq; [done|lia]).
      eexists _, _. split; [done|]. split; [|done]. apply inv_R_same; [done|]. simpl. rewrite Hst. set_solver.
    + apply (IH s1); done.
Qed.

Lemma stop_read_goes s : inv s → goes mmcStopSequentialRead s (λ f s', state s' = blk_next OStopRead (state s) f ∧ (state s = BLK_READING → f = false)).
Proof using no_cb idle.
  intros Hi. unfold goes, mmcStopSequentialRead. erewrite mbind_done by done. rewrite in_states_eq.
  case_bool_decide as Hst; [apply list_elem_of_singleton in Hst|].
  2: { exists HAL_FAILED, s. split_and!; try done; [simpl; destruct (state s) eqn:Es; try done; set_solver|set_solver]. }
  cbn [negb]. pose proof (inv_active s Hi ltac:(auto)) as HR. rewrite Hst.
  erewrite mbind_done by (by apply send_eq). destruct (recvr1_any (moved (length stopcmd) [EvSend stopcmd] s) HR) as (r & n & E).
  erewrite mbind_done by exact E. erewrite mbind_done by (by apply unselect_eq). erewrite mbind_done by done.
  eexists _, _. split; [done|]. split; [|done]. apply inv_R; [done|set_solver].
Qed.

Lemma sequential_write_goes buf s :
  inv s → buf ≠ [] → goes (mmcSequentialWrite buf) s (λ f s', state s' = blk_next (OSequentialWrite buf) (state s) f).
Proof using no_cb idle.
  intros Hi Hb. unfold goes, mmcSequentialWrite. erewrite mbind_done by done. rewrite in_states_eq.
  case_bool_decide as Hst; [apply list_elem_of_singleton in Hst|].
  2: { exists HAL_FAILED, s. split_and!; try done. simpl. destruct (state s) eqn:Es; try done. set_solver. }
  cbn [negb]. pose proof (inv_active s Hi ltac:(auto)) as HR. rewrite Hst.
  erewrite mbind_done by (by apply send_eq). erewrite mbind_done by (by apply send_eq).
  erewrite mbind_done by (apply ignore_eq; [done|lia]). erewrite mbind_done by (by apply receive_byte_eq). set (s1 := moved 1 _ _).
  assert (R s1) as R1 by done. assert (state s1 = BLK_WRITING) as Es1 by done. destruct (_ =? _).
  - destruct (wait_any s1 R1) as (n & _ & E). erewrite mbind_done by exact E. eexists _, _. split; [done|]. split; [|done].
    apply inv_R_same; [done|]. simpl. rewrite Hst. set_solver.
  - erewrite mbind_done by (by apply unselect_eq). destruct (fail_goes HAL_FAILED (moved 0 [EvUnselect] s1) R1) as [-> Hi']. by eexists _, _.
Qed.

Lemma stop_write_goes s : inv s → goes mmcStopSequentialWrite s (λ f s', state s' = blk_next OStopWrite (state s) f).
Proof using no_cb idle.
  intros Hi. unfold goes, mmcStopSequentialWrite. erewrite mbind_done by done. rewrite in_states_eq.
  case_bool_decide as Hst; [apply list_elem_of_singleton in Hst|].
  2: { exists HAL_FAILED, s. split_and!; try done. simpl; destruct (state s) eqn:Es; try done; set_solver. }
  cbn [negb]. pose proof (inv_active s Hi ltac:(auto)) as HR. rewrite Hst.
  erewrite mbind_done by (by apply send_eq). erewrite mbind_done by (by apply unselect_eq). erewrite mbind_done by done.
  eexists _, _. split; [done|]. split; [|done]. apply inv_R; [done|set_solver].
Qed.

(** *** Whole transfers *)

Lemma goes_bind {A B} (m : MM A) (k : A → MM B) s Q P :
  goes m s Q → (∀ a s', inv s' → Q a s' → goes (k a) s' P) → goes (m ≫= k) s P.
Proof using no_cb idle. intros (a & s1 & E & Hi & HQ) Hk. destruct (Hk a s1 Hi HQ) as (b & s2 & E2 & ?). exists b, s2. by erewrite mbind_done by exact E. Qed.
Lemma goes_ret {A} (a : A) s (P : A → mmc → Prop) : inv s → P a s → goes (mret a) s P.
Proof using no_cb idle. intros Hi HP. by exists a, s. Qed.

Lemma read_blocks_goes n : ∀ buf s, inv s → state s = BLK_READING →
  goes (read_blocks n buf) s (λ r s', state s' = if fst r then BLK_READY else BLK_READING).
Proof using no_cb idle.
  induction n as [|n IH]; intros buf s Hi Hst; cbn [read_blocks]; [by apply goes_ret|].
  eapply goes_bind; [by apply sequential_read_goes|]. intros r s1 Hi1. cbn beta. rewrite Hst. simpl. intros Hs1.
  destruct (fst r) eqn:Er; [by apply goes_ret|]. eapply goes_bind; [by apply IH|]. intros r' s2 Hi2 Hs2. by apply goes_ret.
Qed.
Lemma mmc_read_goes b buf n s : inv s → state s = BLK_READY → goes (mmc_read b buf n) s (λ r s', state s' = BLK_READY).
Proof using no_cb idle.
  intros Hi Hst. unfold mmc_read, mmcStartSequentialRead. eapply goes_bind; [apply (start_sequential_goes BLK_READING 18); [done|done|by left|lia]|].
  intros [] s1 Hi1 [Hs1 _]; [by apply goes_ret|]. eapply goes_bind; [by apply read_blocks_goes|]. intros r s2 Hi2 Hs2. cbn beta in Hs2.
  destruct (fst r); [by apply goes_ret|]. eapply goes_bind; [by apply stop_read_goes|]. intros f s3 Hi3 [Hs3 _].
  apply goes_ret; [done|]. by rewrite Hs3, Hs2.
Qed.
Lemma write_blocks_goes n : ∀ buf s, inv s → state s = BLK_WRITING → (512 * n ≤ length buf)%nat →
  goes (write_blocks n buf) s (λ f s', state s' = if f then BLK_READY else BLK_WRITING).
Proof using no_cb idle.
  induction n as [|n IH]; intros buf s Hi Hst Hl; cbn [write_blocks]; [by apply goes_ret|].
  eapply goes_bind; [apply sequential_write_goes; [done|]|].
  { intros E. apply (f_equal length) in E. rewrite length_take in E. change (length (A := Z) []) with 0%nat in E. lia. }
  intros f s1 Hi1. cbn beta. rewrite Hst. simpl. intros Hs1. destruct f; [by apply goes_ret|]. apply IH; [done|done|]. rewrite length_drop. lia.
Qed.
Lemma mmc_write_goes b buf n s : inv s → state s = BLK_READY → (512 * n ≤ length buf)%nat → goes (mmc_write b buf n) s (λ f s', state s' = BLK_READY).
Proof using no_cb idle.
  intros Hi Hst Hl. unfold mmc_write, mmcStartSequentialWrite. eapply goes_bind; [apply (start_sequential_goes BLK_WRITING 25); [done|done|by right|lia]|].
  intros [] s1 Hi1 [Hs1 _]; [by apply goes_ret|]. eapply goes_bind; [by apply write_blocks_goes|]. intros f s2 Hi2 Hs2. cbn beta in Hs2.
  destruct f; [by apply goes_ret|]. destruct (stop_write_goes s2 Hi2) as (f & s3 & E3 & Hi3 & Hs3). exists f, s3. split_and!; [done|done|].
  by rewrite Hs3, Hs2.
Qed.

(** *** Erasing and connecting *)

Lemma erase_goes a b s : inv s → spi_state s = SPI_READY → state s = BLK_READY → goes (mmcErase a b) s (λ f s', state s' = BLK_READY).
Proof using no_cb idle.
  intros Hi Hsp Hst.
  assert (R (set_state BLK_WRITING s)) as HR by (split; [apply (i_conf _ Hi); by rewrite Hst|split; [done|by apply (i_cfg _ Hi)]]).
  unfold goes, mmcErase. erewrite mbind_done by done. erewrite mbind_done by done. set (s0 := set_state BLK_WRITING s) in *.
  assert (∀ s, R s → ∃ f s', erase_failed s = MDone f s' ∧ inv s' ∧ state s' = BLK_READY) as Hfail.
  { intros s' HR'. destruct (fail_goes HAL_FAILED s' HR') as [E Hi']. unfold erase_failed. rewrite E. by eexists _, _. }
  destruct (okv_R1 32 (address (block_addresses s0) a) ltac:(lia) s0 HR) as (r1 & s1 & E1 & _ & R1 & _).
  erewrite mbind_done by exact E1. destruct (negb _); [by apply Hfail|].
  destruct (okv_R1 33 (address (block_addresses s0) b) ltac:(lia) s1 R1) as (r2 & s2 & E2 & _ & R2 & _).
  erewrite mbind_done by exact E2. destruct (negb _); [by apply Hfail|].
  destruct (okv_R1 38 0 ltac:(lia) s2 R2) as (r3 & s3 & E3 & _ & R3 & _).
  erewrite mbind_done by exact E3. destruct (negb _); [by apply Hfail|]. erewrite mbind_done by done.
  eexists _, _. split; [done|]. split; [|done]. apply inv_R; [done|set_solver].
Qed.

Lemma connect_goes s : inv s → state s = BLK_ACTIVE ∨ state s = BLK_READY →
  goes mmcConnect s (λ f s', state s' = if f then BLK_ACTIVE else BLK_READY).
Proof using no_cb idle.
  intros Hi Hst. pose proof (inv_resting s Hi ltac:(destruct Hst as [-> | ->]; done)) as Hrest. unfold goes, mmcConnect.
  erewrite mbind_done by done. erewrite mbind_done by (apply assert_eq; rewrite in_states_eq; destruct Hst as [-> | ->]; done).
  do 2 erewrite mbind_done by done. set (s0 := set_block_addresses _ _). destruct (spiStart_eq lscfg s0 Hrest) as [E1 R1].
  erewrite mbind_done by exact E1. erewrite mbind_done by (apply ignore_eq; [done|lia]). set (s1 := moved _ _ _).
  destruct (runs_connect s1 R1) as (f & s2 & E2 & S2 & R2). erewrite mbind_done by exact E2. destruct f.
  - eexists _, _. split; [done|]. split; [|done]. apply inv_R; [done|set_solver].
  - erewrite mbind_done by (by apply spiStop_eq, R_resting). eexists _, _. split; [done|]. split; [|done]. apply inv_stopped; [apply R2|set_solver].
Qed.

Lemma disconnect_goes s : inv s → state s = BLK_ACTIVE ∨ state s = BLK_READY → goes mmcDisconnect s (λ f s', state s' = BLK_ACTIVE).
Proof using no_cb idle.
  intros Hi Hst. pose proof (inv_resting s Hi ltac:(destruct Hst as [-> | ->]; done)) as Hrest. unfold goes, mmcDisconnect.
  erewrite mbind_done by done. erewrite mbind_done by (apply assert_eq; rewrite in_states_eq; destruct Hst as [-> | ->]; done).
  erewrite mbind_done by done. destruct Hst as [Hst|Hst]; rewrite in_states_eq, Hst.
  - rewrite bool_decide_true by set_solver. by exists HAL_SUCCESS, s.
  - rewrite bool_decide_false by set_solver. erewrite mbind_done by done.
    destruct (spiStart_eq hscfg (set_state BLK_DISCONNECTING s) Hrest) as [E1 R1]. erewrite mbind_done by exact E1.
    destruct (okv_sync _ R1) as (? & s2 & E2 & _ & R2 & _). erewrite mbind_done by exact E2.
    erewrite mbind_done by (by apply spiStop_eq, R_resting). eexists _, _. split; [done|]. split; [|done]. apply inv_stopped; [apply R2|set_solver].
Qed.

Lemma sync_goes s : inv s → goes mmcSync s (λ f s', state s' = state s).
Proof using no_cb idle.
  intros Hi. unfold goes, mmcSync. erewrite mbind_done by done. rewrite in_states_eq.
  case_bool_decide as Hst; [apply list_elem_of_singleton in Hst|by exists HAL_FAILED, s]. cbn [negb].
  pose proof (inv_resting s Hi ltac:(by rewrite Hst)) as Hrest. erewrite mbind_done by done.
  destruct (spiStart_eq hscfg (set_state BLK_SYNCING s) Hrest) as [E1 R1]. erewrite mbind_done by exact E1.
  destruct (okv_sync _ R1) as (? & s2 & E2 & _ & R2 & _). erewrite mbind_done by exact E2.
  eexists _, _. split; [done|]. split; [|by rewrite Hst]. apply inv_R; [done|set_solver].
Qed.

Lemma start_goes s : inv s → state s = BLK_STOP ∨ state s = BLK_ACTIVE → goes (mmcStart ;; mret HAL_SUCCESS) s (λ f s', state s' = BLK_ACTIVE).
Proof using no_cb idle.
  intros Hi Hst. unfold goes, mmcStart. eexists _, _. split.
  - erewrite mbind_done; [done|]. erewrite mbind_done by done. erewrite mbind_done by (apply assert_eq; rewrite in_states_eq; by destruct Hst as [-> | ->]). done.
  - destruct Hi as [_ _ Hs Hcf _]. split; [|done]. split; simpl; try done; [set_solver|by intros [?|?]].
Qed.
Lemma stop_goes s : inv s → configured s = true → state s = BLK_STOP ∨ state s = BLK_ACTIVE → goes (mmcStop ;; mret HAL_SUCCESS) s (λ f s', state s' = BLK_STOP).
Proof using no_cb idle.
  intros Hi Hc Hst. unfold goes, mmcStop. eexists _, _. split.
  - erewrite mbind_done; [done|]. erewrite mbind_done by done. erewrite mbind_done by (apply assert_eq; rewrite in_states_eq; by destruct Hst as [-> | ->]).
    erewrite mbind_done by (apply spiStop_eq; split; [done|apply Hi]). done.
  - split; [|done]. apply inv_stopped; [done|set_solver].
Qed.

(** ** Blocks *)

(** The card answers [l] from the byte [p] on. *)
Definition reads (p : nat) (l : list Z) : Prop := ∀ i b, l !! i = Some b → miso (p + i) = b.
Lemma reads_app p l k : reads p (l ++ k) → reads p l ∧ reads (p + length l) k.
Proof using.
  intros Hr. split; intros i b E; [apply (Hr i); rewrite lookup_app_l; [done|by eapply lookup_lt_Some]|].
  rewrite <-Nat.add_assoc. apply Hr. rewrite lookup_app_r by lia. rewrite <-E. f_equal. lia.
Qed.
Lemma reads_seq p l : reads p l → miso <$> seq p (length l) = l.
Proof using.
  revert p. induction l as [|b l IH]; intros p Hr; [done|]. cbn [length seq]. rewrite fmap_cons. f_equal.
  - rewrite <-(Nat.add_0_r p). by apply (Hr 0%nat).
  - apply IH. intros i c E. replace (S p + i)%nat with (p + S i)%nat by lia. by apply Hr.
Qed.
(** Bytes other than [x], then [x]. *)
Lemma reads_until p l x y : reads p (l ++ [y]) → Forall (λ b, b ≠ x) l →
  miso (p + length l) = y ∧ ∀ i, (i < length l)%nat → miso (p + i) ≠ x.
Proof using.
  intros [Hl Hy]%reads_app Hne. split; [specialize (Hy 0%nat y eq_refl); by rewrite Nat.add_0_r in Hy|].
  intros i [b E]%lookup_lt_is_Some. rewrite (Hl i b E). by apply (Forall_lookup_1 _ _ _ _ Hne E).
Qed.

(** What is sent. *)
Definition sends (l : list event) : list (list Z) := omap (λ e, match e with EvSend l => Some l | _ => None end) l.
Lemma sends_app l k : sends (l ++ k) = sends l ++ sends k.
Proof using. apply omap_app. Qed.
Lemma sends_polls n : sends (replicate n (EvReceive 1)) = [].
Proof using. by induction n. Qed.

(** In a transfer, at the byte [p]. *)
Record at_pos (st : blkstate) (p : nat) (sent : list (list Z)) (s : mmc) : Prop := {
  ap_R : R s; ap_state : state s = st; ap_pos : pos s = p; ap_sends : sends (log s) = sent
}.
Lemma at_moved st p sent n e s : at_pos st p sent s → at_pos st (p + n) (sent ++ sends e) (moved n e s).
Proof using. intros [HR Hs Hp Hl]. split; [done|done|simpl; by rewrite Hp|simpl; by rewrite sends_app, Hl]. Qed.
Lemma at_polls st p sent n s : at_pos st p sent s → at_pos st (p + n) sent (polls n s).
Proof using. intros Ha. pose proof (at_moved st p sent n (replicate n (EvReceive 1)) s Ha) as Hm. by rewrite sends_polls, app_nil_r in Hm. Qed.

(** The card accepts the command: it becomes idle, and answers 0 within nine bytes. *)
Definition accepts (p : nat) (bsy h ff : list Z) : Prop :=
  reads p (bsy ++ [0xFF] ++ h ++ ff ++ [0]) ∧ Forall (λ b, b ≠ 0xFF) bsy ∧ (length bsy < 16 + max_polls)%nat ∧
  length h = 6%nat ∧ Forall (λ b, b = 0xFF) ff ∧ (length ff ≤ 8)%nat.
Definition accept_len (bsy ff : list Z) : nat := (length bsy + 7 + length ff + 1)%nat.

Lemma start_accepted st cmd blk f s bsy h ff :
  inv s → state s = BLK_READY → 0 ≤ cmd < 64 → accepts (pos s) bsy h ff →
  ∃ s', start_sequential st cmd blk f s = MDone HAL_SUCCESS s' ∧
    at_pos st (pos s + accept_len bsy ff) (sends (log s) ++ [frame cmd (address (block_addresses s) blk)]) s'.
Proof using no_cb idle.
  intros Hi Hst Hc (Hr & Hb & Hn & Hh & Hff & Hk). pose proof (inv_resting s Hi ltac:(by rewrite Hst)) as Hrest. unfold start_sequential.
  erewrite mbind_done by done. erewrite mbind_done by (apply assert_eq; rewrite in_states_eq, Hst; done). erewrite mbind_done by done.
  destruct (spiStart_eq hscfg (set_state st s) Hrest) as [E1 R1]. erewrite mbind_done by exact E1.
  erewrite mbind_done by (by apply select_eq). erewrite mbind_done by done. set (s1 := moved 0 _ _).
  assert (at_pos st (pos s) (sends (log s)) s1) as A1.
  { split; [done|done|simpl; lia|]. simpl. rewrite !sends_app. simpl. by rewrite !app_nil_r. }
  rewrite app_assoc in Hr. apply reads_app in Hr as [Hr1 Hr2]. rewrite length_app in Hr2. simpl in Hr2.
  destruct (reads_until _ _ 0xFF _ Hr1 Hb) as [Eb Hlt].
  erewrite mbind_done by (apply (send_hdr_eq cmd _ s1 (length bsy)); [done|apply A1|by rewrite (ap_pos _ _ _ _ A1)|done]).
  pose proof (at_moved _ _ _ (S (length bsy) + 6) (replicate (S (length bsy)) (EvReceive 1) ++ [EvSend (frame cmd (address (block_addresses s) blk))]) _ A1) as A2.
  rewrite sends_app, sends_polls in A2. simpl app in A2. set (s2 := moved _ _ s1) in *.
  apply reads_app in Hr2 as [_ Hr3]. rewrite Hh in Hr3.
  replace (pos s + (length bsy + 1) + 6)%nat with (pos s + (S (length bsy) + 6))%nat in Hr3 by lia. rewrite <-(ap_pos _ _ _ _ A2) in Hr3.
  apply reads_app in Hr3 as [Hr3 Hr4]. specialize (Hr4 0%nat 0 eq_refl). rewrite Nat.add_0_r in Hr4.
  erewrite mbind_done. 2: { apply (recvr1_loop_eq 9 s2 (length ff)); [apply A2|lia| |by rewrite Hr4].
    intros i [b E]%lookup_lt_is_Some. rewrite (Hr3 i b E). by apply (Forall_lookup_1 _ _ _ _ Hff E). }
  rewrite Hr4. simpl negb. cbn match. eexists. split; [done|].
  pose proof (at_polls _ _ _ (S (length ff)) _ A2) as A3. unfold accept_len.
  by replace (pos s + (length bsy + 7 + length ff + 1))%nat with (pos s + (S (length bsy) + 6) + S (length ff))%nat by lia.
Qed.

(** The answer of the card to a read of one block: a delay, the start token, 512
    bytes and two of the CRC. *)
Record block_reply := mkBlock { b_delay : list Z; b_data : list Z; b_crc : list Z }.
Definition block_ok (b : block_reply) : Prop :=
  Forall (λ x, x ≠ 0xFE) (b_delay b) ∧ (length (b_delay b) < MMC_WAIT_DATA)%nat ∧ length (b_data b) = 512%nat ∧ length (b_crc b) = 2%nat.
Definition block_bytes (b : block_reply) : list Z := b_delay b ++ [0xFE] ++ b_data b ++ b_crc b.

Lemma read_data_block k buf s p sent b :
  at_pos BLK_READING p sent s → reads p (block_bytes b) → block_ok b → (length (b_delay b) < k)%nat →
  ∃ s', read_data k buf s = MDone (HAL_SUCCESS, b_data b) s' ∧ at_pos BLK_READING (p + length (block_bytes b)) sent s'.
Proof using no_cb.
  destruct b as [d data crc]. unfold block_ok, block_bytes. simpl. intros Ha Hr (Hd & _ & Hdata & Hcrc) Hk. clear idle.
  revert k buf s p Ha Hr Hk. induction d as [|x d IH]; intros k buf s p Ha Hr Hk; (destruct k as [|k]; [simpl in Hk; lia|]);
    cbn [read_data]; pose proof (ap_R _ _ _ _ Ha) as HR; erewrite mbind_done by (by apply receive_byte_eq); rewrite (ap_pos _ _ _ _ Ha).
  - assert (miso p = 0xFE) as -> by (rewrite <-(Nat.add_0_r p); by apply (Hr 0%nat)). rewrite Z.eqb_refl.
    pose proof (at_moved _ _ _ 1 [EvReceive 1] _ Ha) as A1. set (s1 := moved 1 _ s) in *.
    erewrite mbind_done by (apply receive_eq; [apply A1|lia]). pose proof (at_moved _ _ _ 512 [EvReceive 512] _ A1) as A2. set (s2 := moved 512 _ s1) in *.
    erewrite mbind_done by (apply ignore_eq; [apply A2|lia]). pose proof (at_moved _ _ _ 2 [EvIgnore 2] _ A2) as A3.
    simpl sends in A3. rewrite !app_nil_r in A3. simpl app in Hr. apply (reads_app _ [0xFE]) in Hr as [_ Hr]. apply reads_app in Hr as [Hr _].
    rewrite (ap_pos _ _ _ _ A1), <-Hdata, reads_seq by done. eexists. split; [done|].
    cbn [app]. assert (length (0xFE%Z :: data ++ crc) = 515%nat) as -> by (simpl; rewrite length_app, Hdata, Hcrc; done).
    by replace (p + 515)%nat with (p + 1 + 512 + 2)%nat by lia.
  - apply Forall_cons in Hd as [Hx Hd]. assert (miso p = x) as -> by (rewrite <-(Nat.add_0_r p); by apply (Hr 0%nat)).
    rewrite (proj2 (Z.eqb_neq _ _) Hx). pose proof (at_moved _ _ _ 1 [EvReceive 1] _ Ha) as A1. simpl sends in A1. rewrite app_nil_r in A1.
    apply (reads_app _ [x]) in Hr as [_ Hr]. simpl in Hk.
    destruct (IH Hd k (<[0%nat := x]> buf) _ _ A1 Hr ltac:(lia)) as (s' & -> & A'). eexists. split; [done|].
    cbn [app length] in A' |- *. rewrite <-Nat.add_assoc in A'. exact A'.
Qed.

Lemma read_blocks_eq bs : ∀ buf s p sent,
  at_pos BLK_READING p sent s → reads p (concat (block_bytes <$> bs)) → Forall block_ok bs →
  ∃ s', read_blocks (length bs) buf s = MDone (HAL_SUCCESS, concat (b_data <$> bs) ++ drop (512 * length bs) buf) s' ∧
    at_pos BLK_READING (p + length (concat (block_bytes <$> bs))) sent s'.
Proof using no_cb idle.
  induction bs as [|b bs IH]; intros buf s p sent Ha Hr Hbs.
  - exists s. split; [done|]. simpl. by rewrite Nat.add_0_r.
  - rewrite fmap_cons in *. cbn [concat] in Hr |- *. apply Forall_cons in Hbs as [Hb Hbs]. apply reads_app in Hr as [Hr1 Hr2].
    cbn [length read_blocks]. unfold mmcSequentialRead.
    destruct (read_data_block MMC_WAIT_DATA (take 512 buf) s p sent b Ha Hr1 Hb) as (s1 & E1 & A1); [apply Hb|].
    erewrite mbind_done. 2: { erewrite mbind_done by done. rewrite in_states_eq, (ap_state _ _ _ _ Ha). exact E1. }
    cbn [fst snd]. unfold HAL_SUCCESS at 1. cbn match. destruct (IH (drop 512 buf) s1 _ _ A1 Hr2 Hbs) as (s2 & E2 & A2).
    erewrite mbind_done by exact E2. eexists. split.
    + cbn [fst snd]. rewrite drop_drop. replace (512 * S (length bs))%nat with (512 + 512 * length bs)%nat by lia.
      by rewrite <-app_assoc.
    + rewrite fmap_cons. cbn [concat]. by rewrite length_app, Nat.add_assoc.
Qed.

(** The answer to a write of one block: 516 bytes while the block is sent, a data
    response, and the card is busy for a while. *)
Record write_reply := mkWrite { w_clocked : list Z; w_response : Z; w_busy : list Z }.
Definition write_ok (w : write_reply) : Prop :=
  length (w_clocked w) = 516%nat ∧ Z.land (w_response w) 0x1F = 5 ∧ Forall (λ x, x ≠ 0xFF) (w_busy w) ∧ (length (w_busy w) < 16 + max_polls)%nat.
Definition write_bytes (w : write_reply) : list Z := w_clocked w ++ [w_response w] ++ w_busy w ++ [0xFF].

(** The blocks of a buffer, and how each of them is sent. *)
Fixpoint blocks_of (n : nat) (buf : list Z) : list (list Z) := match n with O => [] | S n => take 512 buf :: blocks_of n (drop 512 buf) end.
Definition block_sends (b : list Z) : list (list Z) := [[0xFF; 0xFC]; b].

Lemma write_block_eq buf s p sent w :
  at_pos BLK_WRITING p sent s → reads p (write_bytes w) → write_ok w → length buf = 512%nat →
  ∃ s', mmcSequentialWrite buf s = MDone HAL_SUCCESS s' ∧ at_pos BLK_WRITING (p + length (write_bytes w)) (sent ++ block_sends buf) s'.
Proof using no_cb idle.
  destruct w as [cl r b]. unfold write_ok, write_bytes. simpl. intros Ha Hr (Hcl & Hresp & Hb & Hn) Hbuf.
  unfold mmcSequentialWrite. erewrite mbind_done by done. rewrite in_states_eq, (ap_state _ _ _ _ Ha). rewrite bool_decide_true by set_solver. cbn [negb].
  erewrite mbind_done by (apply send_eq; [apply Ha|done]). pose proof (at_moved _ _ _ 2 [EvSend [0xFF; 0xFC]] _ Ha) as A1. change (length [0xFF; 0xFC]) with 2%nat. set (s1 := moved 2 _ s) in *.
  erewrite mbind_done by (apply send_eq; [apply A1|by destruct buf]). rewrite Hbuf. pose proof (at_moved _ _ _ 512 [EvSend buf] _ A1) as A2. set (s2 := moved 512 _ s1) in *.
  erewrite mbind_done by (apply ignore_eq; [apply A2|lia]). pose proof (at_moved _ _ _ 2 [EvIgnore 2] _ A2) as A3. set (s3 := moved 2 _ s2) in *.
  erewrite mbind_done by (apply receive_byte_eq, A3). pose proof (at_moved _ _ _ 1 [EvReceive 1] _ A3) as A4. rewrite (ap_pos _ _ _ _ A3). set (s4 := moved 1 _ s3) in *.
  apply reads_app in Hr as [_ Hr]. rewrite Hcl in Hr. replace (p + 2 + 512 + 2)%nat with (p + 516)%nat by lia.
  assert (miso (p + 516) = r) as -> by (rewrite <-(Nat.add_0_r (p + 516)); by apply (Hr 0%nat)). rewrite Hresp, Z.eqb_refl.
  apply (reads_app _ [r]) in Hr as [_ Hr]. simpl length in Hr. destruct (reads_until _ _ 0xFF _ Hr Hb) as [Eb Hlt].
  assert (pos s4 = p + 516 + 1)%nat as Ep by (rewrite (ap_pos _ _ _ _ A4); lia).
  erewrite mbind_done by (apply (wait_eq s4 (length b)); [apply A4|by rewrite Ep|done]). eexists. split; [done|].
  pose proof (at_polls _ _ _ (S (length b)) _ A4) as A5. simpl sends in A5. rewrite !app_nil_r, <-app_assoc in A5.
  rewrite !length_app, Hcl. simpl length. rewrite length_app. simpl length.
  by replace (p + (516 + S (length b + 1)))%nat with (p + 2 + 512 + 2 + 1 + S (length b))%nat by lia.
Qed.

Lemma write_blocks_eq ws : ∀ buf s p sent,
  at_pos BLK_WRITING p sent s → reads p (concat (write_bytes <$> ws)) → Forall write_ok ws → (512 * length ws ≤ length buf)%nat →
  ∃ s', write_blocks (length ws) buf s = MDone HAL_SUCCESS s' ∧
    at_pos BLK_WRITING (p + length (concat (write_bytes <$> ws))) (sent ++ concat (block_sends <$> blocks_of (length ws) buf)) s'.
Proof using no_cb idle.
  induction ws as [|w ws IH]; intros buf s p sent Ha Hr Hws Hl.
  - exists s. split; [done|]. simpl. by rewrite Nat.add_0_r, app_nil_r.
  - rewrite fmap_cons in *. cbn [concat] in Hr. apply Forall_cons in Hws as [Hw Hws]. apply reads_app in Hr as [Hr1 Hr2].
    cbn [length write_blocks]. cbn [length] in Hl.
    destruct (write_block_eq (take 512 buf) s p sent w Ha Hr1 Hw) as (s1 & E1 & A1); [rewrite length_take; lia|].
    erewrite mbind_done by exact E1. unfold HAL_SUCCESS at 1. cbn match.
    destruct (IH (drop 512 buf) s1 _ _ A1 Hr2 Hws) as (s2 & E2 & A2); [rewrite length_drop; lia|].
    exists s2. split; [exact E2|]. cbn [blocks_of]. rewrite fmap_cons. cbn [concat]. rewrite length_app, Nat.add_assoc, app_assoc. exact A2.
Qed.
End Bus.

(** C24.  The card driver is a block device, whatever the card does: every operation
    that its caller may use in the present state ([allowed]) returns, with or
    without an error, for every sequence of bytes the card may answer (only a card
    that stays busy for ever would stop it); no check of the card driver or of the
    SPI driver below it fails; and the state changes exactly as the automaton of a
    block device says, also after errors.  The rules of [allowed] are the states
    the assertions of the driver name, a buffer that holds the data, and two more
    that the code does not state: mmcErase is used only while the SPI bus is on,
    so not after a transfer that failed (the driver is in BLK_READY then, but an
    erase halts: erase_after_error), and mmcStop only after mmcStart has once set
    the configuration (stop_after_init); the completion callback of the SPI
    configuration is not used. *)
Theorem mmc_driver_safe `{Target} `{Bus} s o :
  (∀ c, end_cb c = false) → (∀ p, ∃ n, (n < max_polls)%nat ∧ miso (p + n) = 0xFF) →
  inv s → allowed s o → ∃ failed s', exec o s = MDone failed s' ∧ inv s' ∧ state s' = blk_next o (state s) failed.
Proof.
  intros no_cb idle Hi Ho. destruct o as [| | | |b|buf| |b|buf| | | |a b|b buf n|b buf n]; simpl in Ho.
  - by apply start_goes.
  - apply stop_goes; try done; destruct Ho as [E|[E ?]]; try done; auto. apply (i_conf _ Hi). by rewrite E.
  - by apply connect_goes.
  - by apply disconnect_goes.
  - destruct (start_sequential_goes no_cb idle BLK_READING 18 b "mmcStartSequentialRead" s Hi Ho) as (f & s' & E & Hi' & Hs & _); [auto|lia|].
    by exists f, s'.
  - destruct (sequential_read_goes no_cb idle buf s Hi) as ([f d] & s' & E & Hi' & Hs). exists f, s'. split; [|done].
    simpl. by erewrite mbind_done by exact E.
  - destruct (stop_read_goes no_cb idle s Hi) as (f & s' & E & Hi' & Hs & _). by exists f, s'.
  - destruct (start_sequential_goes no_cb idle BLK_WRITING 25 b "mmcStartSequentialWrite" s Hi Ho) as (f & s' & E & Hi' & Hs & _); [auto|lia|].
    by exists f, s'.
  - by apply sequential_write_goes.
  - by apply stop_write_goes.
  - by apply sync_goes.
  - simpl. unfold mmcGetInfo. destruct (in_states [BLK_READY] s) eqn:E.
    + eexists HAL_SUCCESS, s. split; [|done]. erewrite mbind_done; [|erewrite mbind_done by done; rewrite E; reflexivity]. done.
    + eexists HAL_FAILED, s. split; [|done]. erewrite mbind_done; [|erewrite mbind_done by done; rewrite E; reflexivity]. done.
  - destruct Ho as [Hst Hsp]. by apply erase_goes.
  - destruct (mmc_read_goes no_cb idle b buf n s Hi Ho) as ([f d] & s' & E & Hi' & Hs). exists f, s'. split; [|done].
    simpl. by erewrite mbind_done by exact E.
  - destruct Ho as [Hst Hl]. by apply mmc_write_goes.
Qed.

(** C25.  Reading blocks: when the card accepts the read command and sends the
    blocks, mmc_read succeeds and fills the buffer with exactly the data of the
    blocks, in order and without the delays, tokens and CRCs between them; what it
    has sent is the command frame with the address of the first block, in bytes or
    in blocks as the card wants it, and the stop command; the driver is ready
    again. *)
Theorem mmc_read_correct `{Target} `{Bus} s startblk buffer bsy h ff bs :
  (∀ c, end_cb c = false) → (∀ p, ∃ n, (n < max_polls)%nat ∧ miso (p + n) = 0xFF) →
  inv s → state s = BLK_READY → accepts (pos s) bsy h ff → Forall block_ok bs →
  reads (pos s + accept_len bsy ff) (concat (block_bytes <$> bs)) → length buffer = (512 * length bs)%nat →
  ∃ s', mmc_read startblk buffer (length bs) s = MDone (HAL_SUCCESS, concat (b_data <$> bs)) s' ∧ inv s' ∧ state s' = BLK_READY ∧
    sends (log s') = sends (log s) ++ [frame 18 (if block_addresses s then startblk else u32 (startblk * 512)); stopcmd].
Proof.
  intros no_cb idle Hi Hst Hacc Hbs Hr Hl. unfold mmc_read, mmcStartSequentialRead.
  destruct (start_accepted no_cb idle BLK_READING 18 startblk "mmcStartSequentialRead" s bsy h ff Hi Hst ltac:(lia) Hacc) as (s1 & E1 & A1).
  erewrite mbind_done by exact E1. unfold HAL_SUCCESS at 1. cbn match.
  destruct (read_blocks_eq no_cb idle bs buffer s1 _ _ A1 Hr Hbs) as (s2 & E2 & A2). erewrite mbind_done by exact E2.
  cbn [fst snd]. unfold HAL_SUCCESS at 1. cbn match. rewrite drop_ge, app_nil_r by lia.
  unfold mmcStopSequentialRead. pose proof (ap_R _ _ _ _ A2) as R2. set (s3 := moved (length stopcmd) [EvSend stopcmd] s2).
  assert (R s3) as R3 by done. destruct (recvr1_any no_cb s3 R3) as (r & n & E3).
  erewrite mbind_done. 2: { erewrite mbind_done by done. rewrite in_states_eq, (ap_state _ _ _ _ A2). rewrite bool_decide_true by set_solver. cbn [negb].
    erewrite mbind_done by (by apply send_eq). erewrite mbind_done by exact E3. erewrite mbind_done by (by apply unselect_eq).
    erewrite mbind_done by done. reflexivity. }
  eexists. split; [done|]. split; [apply inv_R; try done; set_solver|]. split; [done|].
  simpl. rewrite !sends_app, sends_polls, (ap_sends _ _ _ _ A2). simpl. by rewrite !app_nil_r, <-app_assoc.
Qed.

(** C26.  Writing blocks: when the card accepts the write command and every block,
    mmc_write succeeds, and what it has sent is the command frame with the address
    of the first block, each block of the buffer in order behind its start token,
    and the stop token; the driver is ready again. *)
Theorem mmc_write_correct `{Target} `{Bus} s startblk buffer bsy h ff ws :
  (∀ c, end_cb c = false) → (∀ p, ∃ n, (n < max_polls)%nat ∧ miso (p + n) = 0xFF) →
  inv s → state s = BLK_READY → accepts (pos s) bsy h ff → Forall write_ok ws →
  reads (pos s + accept_len bsy ff) (concat (write_bytes <$> ws)) → length buffer = (512 * length ws)%nat →
  ∃ s', mmc_write startblk buffer (length ws) s = MDone HAL_SUCCESS s' ∧ inv s' ∧ state s' = BLK_READY ∧
    sends (log s') = sends (log s) ++ [frame 25 (if block_addresses s then startblk else u32 (startblk * 512))] ++
      concat (block_sends <$> blocks_of (length ws) buffer) ++ [[0xFD; 0xFF]].
Proof.
  intros no_cb idle Hi Hst Hacc Hws Hr Hl. unfold mmc_write, mmcStartSequentialWrite.
  destruct (start_accepted no_cb idle BLK_WRITING 25 startblk "mmcStartSequentialWrite" s bsy h ff Hi Hst ltac:(lia) Hacc) as (s1 & E1 & A1).
  erewrite mbind_done by exact E1. unfold HAL_SUCCESS at 1. cbn match.
  destruct (write_blocks_eq no_cb idle ws buffer s1 _ _ A1 Hr Hws ltac:(lia)) as (s2 & E2 & A2). erewrite mbind_done by exact E2.
  unfold HAL_SUCCESS at 1. cbn match. pose proof (ap_R _ _ _ _ A2) as R2. unfold mmcStopSequentialWrite.
  erewrite mbind_done by done. rewrite in_states_eq, (ap_state _ _ _ _ A2). rewrite bool_decide_true by set_solver. cbn [negb].
  erewrite mbind_done by (by apply send_eq). erewrite mbind_done by (by apply unselect_eq). erewrite mbind_done by done.
  eexists. split; [done|]. split; [apply inv_R; try done; set_solver|]. split; [done|].
  simpl. rewrite !sends_app, (ap_sends _ _ _ _ A2). simpl. by rewrite !app_nil_r, <-!app_assoc.
Qed.
