(* ===== verification/MmcExamples.v ===== *)
(** * A card on the bus

    Concrete answers of a card: the witnesses of the theorems of MmcProps.v, and
    what goes wrong after an error. *)

From S2P Require Import Prelude Mmcsd Crc7 MmcSpi MmcProps.

#[local] Instance arm_target : Target := arm.

(** A card that answers [l] and nothing afterwards. *)
Definition script_bus (l : list Z) : Bus := {| miso := λ i, default 0xFF (l !! i); max_polls := 2000; end_cb := λ _, false |}.

Lemma script_idle l : (length l < 2000)%nat → ∀ p, ∃ n, (n < @max_polls (script_bus l))%nat ∧ @miso (script_bus l) (p + n) = 0xFF.
Proof. intros Hl p. exists (length l). split; [exact Hl|]. simpl. by rewrite lookup_ge_None_2 by lia. Qed.

Lemma script_reads l p k : take (length k) (drop p l) = k → @reads (script_bus l) p k.
Proof.
  intros E i b Eb. simpl. rewrite <-lookup_drop. rewrite <-E in Eb. apply lookup_take_Some in Eb as [Eb _]. by rewrite Eb.
Qed.

(** A driver in the state READY whose bus is stopped. *)
Definition ex_state : mmc := mkMmc BLK_READY true false (mkDevice [] [] 1000) SPI_STOP None 0 [].
Lemma ex_state_inv : inv ex_state.
Proof. split; simpl; try done; [set_solver|by left|by intros [?|?]]. Qed.

(** Two blocks are read. *)
Definition ex_data (k : nat) : list Z := (λ i, Z.of_nat (i * k) `mod` 251) <$> seq 0 512.
Definition ex_block (k : nat) : block_reply := mkBlock (replicate k 0xFF) (ex_data k) [0x12; 0x34].
Definition ex_accept : list Z := [0x00] ++ [0xFF] ++ replicate 6 0xFF ++ [0xFF] ++ [0].
Definition ex_reads : list Z := ex_accept ++ concat (block_bytes <$> [ex_block 2; ex_block 3]).

Lemma ex_accepts l : take 10 l = ex_accept → @accepts (script_bus l) 0 [0x00] (replicate 6 0xFF) [0xFF].
Proof.
  intros El. split_and!; try (repeat constructor; discriminate); simpl; try lia; try reflexivity.
  apply (script_reads l). rewrite drop_0. exact El.
Qed.
Lemma ex_block_ok k : (k < 100)%nat → block_ok (ex_block k).
Proof.
  intros Hk. unfold block_ok, ex_block. cbn [b_delay b_data b_crc]. split_and!; [by apply Forall_replicate|rewrite length_replicate; unfold MMC_WAIT_DATA; lia|unfold ex_data; by rewrite length_fmap, length_seq|done].
Qed.

Lemma mmc_read_witness : ∃ s', @mmc_read (script_bus ex_reads) 5 (replicate 1024 0) 2 ex_state = MDone (HAL_SUCCESS, ex_data 2 ++ ex_data 3) s' ∧
  sends (log s') = [[0x52; 0; 0; 0x0A; 0; 0x7D]; stopcmd].
Proof.
  destruct (@mmc_read_correct arm_target (script_bus ex_reads) ex_state 5 (replicate 1024 0) [0x00] (replicate 6 0xFF) [0xFF] [ex_block 2; ex_block 3])
    as (s' & E & _ & _ & Es).
  - reflexivity.
  - apply script_idle. apply (bool_decide_unpack _). vm_compute. exact I.
  - apply ex_state_inv.
  - reflexivity.
  - apply ex_accepts. vm_compute. reflexivity.
  - repeat (apply Forall_cons; split); [apply ex_block_ok; lia|apply ex_block_ok; lia|apply Forall_nil; exact I].
  - apply script_reads. vm_compute. reflexivity.
  - vm_compute. reflexivity.
  - exists s'. split; [|rewrite Es; vm_compute; reflexivity]. etransitivity; [exact E|]. do 2 f_equal.
Defined.

(** A block is written. *)
Definition ex_write : write_reply := mkWrite (replicate 516 0xFF) 0xE5 [0; 0].
Definition ex_writes : list Z := ex_accept ++ concat (write_bytes <$> [ex_write]).
Lemma mmc_write_witness : ∃ s', @mmc_write (script_bus ex_writes) 7 (ex_data 1) 1 ex_state = MDone HAL_SUCCESS s' ∧ state s' = BLK_READY ∧
  drop 1 (sends (log s')) = [[0xFF; 0xFC]; ex_data 1; [0xFD; 0xFF]].
Proof.
  destruct (@mmc_write_correct arm_target (script_bus ex_writes) ex_state 7 (ex_data 1) [0x00] (replicate 6 0xFF) [0xFF] [ex_write])
    as (s' & E & _ & Hs & Es).
  - reflexivity.
  - apply script_idle. apply (bool_decide_unpack _). vm_compute. exact I.
  - apply ex_state_inv.
  - reflexivity.
  - apply ex_accepts. vm_compute. reflexivity.
  - apply Forall_cons. split; [|apply Forall_nil; exact I]. unfold write_ok, ex_write. cbn [w_clocked w_response w_busy].
    split_and!; [apply length_replicate|reflexivity|repeat constructor; discriminate|simpl; lia].
  - apply script_reads. vm_compute. reflexivity.
  - vm_compute. reflexivity.
  - exists s'. split; [exact E|]. split; [exact Hs|]. rewrite Es. vm_compute. reflexivity.
Defined.

(** No card: the command is not answered, and the operation fails. *)
Lemma mmc_driver_witness : ∃ s', @exec arm_target (script_bus []) (ORead 5 (replicate 512 0) 1) ex_state = MDone true s' ∧ inv s' ∧ state s' = BLK_READY.
Proof.
  destruct (@mmc_driver_safe arm_target (script_bus []) ex_state (ORead 5 (replicate 512 0) 1)) as (f & s' & E & Hi & Hs).
  - reflexivity.
  - apply script_idle. simpl. lia.
  - apply ex_state_inv.
  - reflexivity.
  - exists s'. split; [|split; [exact Hi|exact Hs]]. rewrite E. f_equal.
    apply (f_equal (λ r, match r with MDone b _ => b | _ => false end)) in E. vm_compute in E. symmetry. exact E.
Defined.

(** ** After an error *)

#[local] Instance spicfg_eq_dec : EqDecision spicfg.
Proof. solve_decision. Defined.
#[local] Instance event_eq_dec : EqDecision event.
Proof. solve_decision. Defined.
Definition after {A} (r : mres A) : option mmc := match r with MDone _ s => Some s | _ => None end.
Definition stuck {A} (r : mres A) : option string := match r with MHalt m => Some m | _ => None end.

(** A read that fails leaves the bus stopped and the card selected, in the state
    READY; erasing then selects the card on the stopped bus, and the check of
    spiSelect halts the system. *)
Lemma erase_after_error :
  (s ← after (@mmcStartSequentialRead (script_bus []) 5 ex_state); Some (state s, spi_state s, last (log s), bool_decide (EvUnselect ∈ log s)))
    = Some (BLK_READY, SPI_STOP, Some EvStop, false) ∧
  (s ← after (@mmcStartSequentialRead (script_bus []) 5 ex_state); stuck (@mmcErase (script_bus []) 0 1 s)) = Some "spiSelect".
Proof. vm_compute. done. Qed.

(** mmcStop is allowed in the state STOP but reads the configuration, which is NULL
    until mmcStart. *)
Lemma stop_after_init :
  (s ← after (mmcObjectInit ex_state); Some (match mmcStop s with MFault => true | _ => false end)) = Some true.
Proof. vm_compute. done. Qed.
